(* ===== verification/_CoqProject ===== *)
-Q . S2P
Prelude.v
Bytes.v
Utf8.v
Text.v
Float64.v
TypeSys.v
Codec.v
Coerce.v
Pager.v
BufferPool.v
FreeSpace.v
Heap.v
Wal.v
Recovery.v
Lock.v
Deadlock.v
TxManager.v
Tokens.v
Ast.v
Parser.v
Grammar.v
Printer.v
Protocol.v
PyConv.v
Messages.v
Handler.v
Session.v
Client.v
Connection.v
AsyncClient.v
ClientPool.v
PyOrder.v
BTreeNode.v
BTree.v
BTreeSpec.v
BTreeInsert.v
BTreeIndex.v
BTreeDemo.v
PyDict.v
EvalExpr.v
Catalog.v
CatalogSpec.v
CatalogDemo.v
Gen.v
Aggregation.v
Plan.v
IndexPlan.v
Logical.v
Dml.v
Planner.v
IndexScan.v
IndexManager.v
Engine.v
Database.v
ProcessLock.v
CliFormat.v
CliExplain.v
CliHighlight.v
CliBackend.v
CliRepl.v
CliSpec.v
SortSpec.v
ReadSpec.v
SelectSpec.v
JoinSpec.v
JoinIndex.v
AggSpec.v
IndexSelect.v
MemDb.v
DmlSpec.v
EngineSpec.v
DatabaseSpec.v
MemWrites.v
ExecDemo.v
DatabaseDemo.v
Server.v
ServerSpec.v
RemoteSpec.v
CliDemo.v
