(* ===== verification/Prelude.v ===== *)
(** * A verification library for TinyDB

    TinyDB (src/src/tinydb) is a small relational database in Python: typed rows
    in slotted heap pages over a single page file, a write-ahead log with
    recovery, transactions behind a reader/writer lock, and SQL.  This library
    models its parts as Rocq functions, file by file, and proves what makes them
    correct.  This first file documents the whole and holds what the rest shares.

    ** How code becomes definitions

    - A function that may raise returns [result] ([Ok] or [Err] of an exception
      class; messages are not modelled, the positions of parse errors are).
    - A method is a computation [M S A := S → result A * S] on the object's
      state: the state survives an exception, as in Python.  [catch] is
      [try/except], [zoom] runs a computation on a component of the state.
    - Integers are [Z]; fields of fixed width go through [pack_*]/[unpack_*]
      (file Bytes), which raise [StructError] out of range like [struct].  Bytes
      are [list byte], strings lists of code points ([pystr]), floats their 64
      bits (file Float64, over the Standard Library's SpecFloat).
    - Loops that are not structural take fuel; each has a theorem that the fuel
      its callers give is enough ([OutOfFuel] is no Python exception and is never
      the outcome).
    - Code outside of the repository is a class with laws: [JsonLib] (the json
      module), [UniLib] (the Unicode database behind [str.isalpha] etc.),
      [IsoLib] ([fromisoformat], whose formats depend on the interpreter's
      version), [PyConv] (the texts of floats, decimals and dates), [ExnText] (the
      messages of exceptions).  Each has a concrete instance for the witnesses.

    ** The files, from the bottom up

    Each theorem that states a property of the program has a comment that starts
    with its number (C1 is the first of the list of properties).

    - Prelude, Bytes, Utf8, Text, Float64: results and monads with their weakest
      preconditions ([wp], [rwp]) and invariants ([keeps]); byte strings, slices
      and [struct]; UTF-8; [str] operations; binary64 arithmetic.
    - TypeSys (types/system.py): type tags, columns, type names, Python values.
    - Codec (types/codec.py), Coerce (types/coerce.py): value and row encodings,
      their round trips and the widening rules.
    - Pager (storage/pager.py): the page file with its header page and free list:
      it refines an abstract page store, is durable across close and open, and
      refuses what it should.
    - BufferPool (storage/buffer_pool.py, tx/snapshot.py): the LRU cache over an
      interface of page files ([PagerOps], [PagerLaws]): transparency of the
      cache, flushing, LRU order, snapshots.
    - FreeSpace (storage/free_space.py) and Heap (storage/heap.py): slotted
      pages and their overflow chain: insert, read, delete, scan and the
      undo images handed to the transaction layer.
    - Wal (tx/wal.py): frames with CRC-32: append and iterate, crash in the middle
      of an append, truncation, detection of altered bytes.
    - Recovery (tx/recovery.py): analysis, REDO and UNDO.
    - Lock (concurrent/rwlock.py, tx/lock.py): the critical sections, and a step
      relation for any number of threads: exclusion, no lost wake-up, reentrancy.
      Deadlock (concurrent/deadlock.py): the wait-for graph.
    - TxManager (tx/manager.py, tx/checkpoint.py): begin, commit, rollback and
      the [with] block over the log, pager, lock and graph: atomicity, a single
      writer, and crash recovery end to end.
    - Tokens (sql/tokens.py), Ast (sql/ast.py), Parser (sql/parser.py), Grammar
      and Printer: SQL text to trees.  The parser is a computation on the
      remaining tokens; Grammar states its expression language as an inductive
      relation, Printer inverts it.
    - Protocol (protocol/frame.py, codec.py, errors.py, and the reader thread of
      client/sync.py): frames and the reader that reassembles them from a byte
      stream cut into arbitrary pieces.  PyConv: [str], [int], [float], [bool] of
      values.  Messages (protocol/messages.py, handshake.py): the twelve
      messages, their round trip, and what hostile payloads can raise.
    - Handler (server/handler.py): dispatch, response frames, and the
      substitution of parameters, which cannot inject SQL.  Session
      (server/session.py): the state machine of a connection and its loop over
      bytes, against an interface of the database ([Database]); the loop refines
      answering frames one by one, no transaction outlives a connection, and no
      peer reaches the database before its HELLO.
    - Client (client/sync.py): requests, responses, the retry loop, batches and
      the transaction block; the rows of a SELECT arrive end to end.  Connection
      (client/sync.py): the client over scripted sockets with its reader thread:
      a SELECT is answered, and a statement that is not safe to repeat is sent
      once.  AsyncClient (client/async_client.py): the client without a thread
      agrees with it on the same frames.  ClientPool (client/pool.py): threads
      that run the methods of a pool step by step: no client is shared.

    - PyOrder: [==] and [<] of Python values, with the keys that have a total
      order ([OrderedKeys]).  BTreeNode (index/btree_leaf.py, btree_internal.py),
      BTree (index/btree.py, btree_split.py, btree_delete.py, btree_rebalance.py,
      btree_pages.py): nodes and their pages, and every operation of an index over
      the pages of a pager ([PagerOps], [AllocOps]).  BTreeSpec: the tree that a
      set of pages holds ([stored], [ordered]); BTreeInsert: insertion with its
      splits; BTreeIndex: an index without duplicates refines a sorted list of
      entries.  BTreeDemo: concrete trees, and the runs in which a restart, equal
      keys, a merge or a borrow loses or repeats entries.

    - PyDict: Python's ordered dict.  Catalog (storage/catalog.py): the registry
      of tables and indexes and its two pages; CatalogSpec: it survives a
      restart; CatalogDemo: a json with its laws, and a page that is full.
    - EvalExpr (executor/eval_expr.py): the value of an expression on a row.  Gen:
      generators.  Aggregation (aggregate.py): accumulators and groups.  Plan
      (ops.py, join.py, row_iter.py): the operators, against an interface of the
      storage ([ExecOps]).  IndexPlan, Logical, Planner (index_plan.py,
      logical.py, planner.py, physical.py): from statements to plans.  Dml
      (dml.py): the plans that write.  IndexScan, IndexManager
      (executor/index_scan.py, index/manager.py): lookups, and indexes that
      follow the rows.  Engine (executor.py, heap_bind.py): manager, catalog and
      live indexes as one state, which is an instance of [ExecOps].
    - Database (api.py): opening, statements under the lock, DDL, schemas, the
      pool of connections.  ProcessLock (concurrent/fcntl_lock.py): the lock
      between processes, over an interface of flock with its laws ([FLockLaws]).
    - What statements compute: SortSpec (ORDER BY), ReadSpec (the laws of the
      storage, [ReadLaws], and scans, filters, projections), SelectSpec (SELECT
      equals a direct definition), JoinSpec and JoinIndex (nested loop, and
      the join over an index), AggSpec (groups and aggregates), IndexSelect (an
      index answers a WHERE clause as a scan does), DmlSpec (writes, with errors
      in the middle).  MemDb and MemWrites implement the interfaces with lists,
      EngineSpec with the pages of the engine ([en_shows]).
    - DatabaseSpec: the refinement of the whole.  The abstract machine has named
      tables of rows as its only state ([view], [effect]); a session of
      statements ([covered_all] says which: no joins, groups or indexes) on the
      engine returns what the machine returns and leaves pages that show its
      tables, errors included.  DatabaseDemo applies it to a session in SQL on an
      empty file; ExecDemo applies the theorems about plans to concrete tables.
    - Server (server/app.py, config.py): the sessions of several connections over
      one engine and one thread.  ServerSpec: the frames that its clients get are
      the answers of the machine of named tables.  RemoteSpec: so is what
      [execute] of a client gives its caller ([seen]), from its request to the
      pages of the server and back.
    - CliFormat, CliExplain, CliHighlight (cli/format.py, explain.py, highlight.py,
      history.py): tables whose columns are aligned, plans as trees, colours.
      CliBackend (backend.py, uri.py, commands.py), CliRepl (repl.py,
      argparse_ext.py): a session as a computation on a list of inputs, against
      interfaces of the database ([DbApi]) and of the network ([Remote]).
      CliSpec: what ends a session.  CliDemo: sessions on the engine.

    ** Fuel and budgets

    The [fuel] of Engine, IndexManager and Database bounds the pages of a chain and
    the height of a tree; [en_shows] says that the state fits it.  The number
    [n] of [en_shows], [shows] and [covered_all] is what is left of the room of the
    file (page numbers, log sequence numbers and transaction numbers are
    finite): [stmt_cost] is what a statement takes of it.  [read_until] of
    AsyncClient has one pass more than the stream has bytes, [_render_subtree]
    the height of the plan.

    ** What is not modelled

    Threads other than in Lock and ClientPool and the reader thread of a client
    (each operation of the pager, pool and manager runs in its lock from start
    to end), the operating system's file and socket calls (a file is its bytes,
    a connection the bytes that come and go; [fsync] marks nothing), memory and
    recursion limits of the interpreter, time (a time-out is an event of the
    input).  Generators are consumed completely (file Gen).  Of the server the
    listener, the signals and the arguments of its process, of the command line
    the terminal and the history file, of the process lock its msvcrt branch;
    the scripts, the examples and the JDBC driver (Java). *)
From stdpp Require Export base tactics list numbers option gmap strings.

Declare Scope py_scope.
Delimit Scope py_scope with py.
Create HintDb py.
Create Rewrite HintDb py.

(** * Python exceptions *)

(** The exception classes the modelled code raises or catches; messages are
    not modelled, source positions of [ParseError] are ([NodeParseError]: a
    [ParseError] made with the name of a node class for its line). *)
Inductive exn : Type :=
  (* builtins *)
  | ValueError | TypeError | KeyError | IndexError | RuntimeError | OSError | EOFError
  | OverflowError | NotImplementedError | AttributeError | AssertionError
  | ZeroDivisionError | LookupError | TimeoutError
  (* standard library *)
  | StructError | UnicodeError | JSONDecodeError | DecimalError
  (* tinydb.errors *)
  | TinydbError | ParseError (line col : Z) | NodeParseError (node : string)
  | ConstraintViolation
  | NotNullViolation | TypeMismatchError | BTreeOverflowError
  | WALCorruptionError
  (* raised by individual modules *)
  | CodecError | PageRecordDecodeError | NestedTransactionError
  | DeadlockError | ProtocolError | IncompleteFrameError
  | FrameTruncatedError | GeneralException | UnknownColumnError
  | UnknownTableError | AmbiguousColumnError | UnknownAliasError
  | BareColumnNotAliasedError
  (* tinydb.client.errors, queue.Empty *)
  | ClientConnectionError | ClientTimeoutError | IntegrityError | ClientProtocolError
  | QueueEmpty
  (* not a Python exception: the fuel of a loop of the model ran out *)
  | OutOfFuel.

Global Instance exn_eq_dec : EqDecision exn.
Proof. solve_decision. Defined.

(** * Results of fallible code *)

Inductive result (A : Type) : Type :=
  | Ok (a : A)
  | Err (e : exn).
Arguments Ok {A} _.
Arguments Err {A} _.

Global Instance result_eq_dec `{EqDecision A} : EqDecision (result A).
Proof. solve_decision. Defined.

Global Instance result_ret : MRet result := λ A a, Ok a.
Global Instance result_bind : MBind result := λ A B f m,
  match m with Ok a => f a | Err e => Err e end.
Global Instance result_fmap : FMap result := λ A B f m,
  match m with Ok a => Ok (f a) | Err e => Err e end.

(** [if not cond: raise e] *)
Definition ensure (b : bool) (e : exn) : result unit :=
  if b then Ok () else Err e.

Definition of_option {A} (e : exn) (o : option A) : result A :=
  match o with Some a => Ok a | None => Err e end.

Definition is_ok {A} (r : result A) : bool :=
  match r with Ok _ => true | Err _ => false end.

Lemma bind_Ok {A B} (a : A) (f : A → result B) : Ok a ≫= f = f a.
Proof. reflexivity. Qed.

Lemma bind_Err {A B} (e : exn) (f : A → result B) : Err e ≫= f = Err e.
Proof. reflexivity. Qed.

Lemma bind_Ok_inv {A B} (m : result A) (f : A → result B) b :
  m ≫= f = Ok b → ∃ a, m = Ok a ∧ f a = Ok b.
Proof. destruct m as [a|e]; simpl; [eauto|discriminate]. Qed.

Lemma ensure_Ok_inv b e u : ensure b e = Ok u → b = true.
Proof. destruct b; [done|discriminate]. Qed.

(** Map a fallible function over a list, left to right, stopping at the first
    error. *)
Fixpoint mapR {A B} (f : A → result B) (l : list A) : result (list B) :=
  match l with
  | [] => Ok []
  | x :: l => y ← f x; ys ← mapR f l; Ok (y :: ys)
  end.

(** * Stateful code that may raise: the state survives the exception *)

Definition M (S A : Type) : Type := S → result A * S.

Global Instance M_ret S : MRet (M S) := λ A a s, (Ok a, s).
Global Instance M_bind S : MBind (M S) := λ A B f m s,
  match m s with
  | (Ok a, s') => f a s'
  | (Err e, s') => (Err e, s')
  end.

Definition raise {S A} (e : exn) : M S A := λ s, (Err e, s).
Definition get {S} : M S S := λ s, (Ok s, s).
Definition gets {S A} (f : S → A) : M S A := λ s, (Ok (f s), s).
Definition put {S} (s : S) : M S unit := λ _, (Ok (), s).
Definition modify {S} (f : S → S) : M S unit := λ s, (Ok (), f s).
Definition lift {S A} (r : result A) : M S A := λ s, (r, s).
Definition assert {S} (b : bool) (e : exn) : M S unit := lift (ensure b e).

(** [try m except Exception: h] *)
Definition catch {S A} (m : M S A) (h : exn → M S A) : M S A := λ s,
  match m s with
  | (Ok a, s') => (Ok a, s')
  | (Err e, s') => h e s'
  end.

(** Run [m] on a component of the state. *)
Definition zoom {S T A} (proj : S → T) (upd : T → S → S) (m : M T A) : M S A :=
  λ s, let '(r, t) := m (proj s) in (r, upd t s).

Lemma M_bind_inv {S A B} (m : M S A) (f : A → M S B) s b s'' :
  (m ≫= f) s = (Ok b, s'') → ∃ a s', m s = (Ok a, s') ∧ f a s' = (Ok b, s'').
Proof.
  unfold mbind, M_bind. destruct (m s) as [[a|e] s']; [eauto|discriminate].
Qed.

(** One equation per primitive in head position; [mrun] steps with them. *)
Section Run.
Context {S A B C : Type}.
Implicit Types (s : S).
Lemma run_assoc (m : M S A) (g : A → M S B) (f : B → M S C) s :
    ((m ≫= g) ≫= f) s = (m ≫= λ a, g a ≫= f) s.
Proof. unfold mbind, M_bind. by destruct (m s) as [[]]. Qed.
Lemma run_ret a (f : A → M S B) s : (mret a ≫= f) s = f a s.
Proof. reflexivity. Qed.
Lemma run_get (f : S → M S B) s : (get ≫= f) s = f s s.
Proof. reflexivity. Qed.
Lemma run_gets (g : S → A) (f : A → M S B) s : (gets g ≫= f) s = f (g s) s.
Proof. reflexivity. Qed.
Lemma run_put s' (f : unit → M S B) s : (put s' ≫= f) s = f () s'.
Proof. reflexivity. Qed.
Lemma run_modify g (f : unit → M S B) s : (modify g ≫= f) s = f () (g s).
Proof. reflexivity. Qed.
Lemma run_lift_Ok a (f : A → M S B) s : (lift (Ok a) ≫= f) s = f a s.
Proof. reflexivity. Qed.
Lemma run_lift_Err e (f : A → M S B) s : (lift (Err e) ≫= f) s = (Err e, s).
Proof. reflexivity. Qed.
Lemma run_raise e (f : A → M S B) s : (raise e ≫= f) s = (Err e, s).
Proof. reflexivity. Qed.
Lemma run_assert_true e (f : unit → M S B) s : (assert true e ≫= f) s = f () s.
Proof. reflexivity. Qed.
Lemma run_assert_false e (f : unit → M S B) s : (assert false e ≫= f) s = (Err e, s).
Proof. reflexivity. Qed.
Lemma run_Ok (m : M S A) (f : A → M S B) s a s' :
    m s = (Ok a, s') → (m ≫= f) s = f a s'.
Proof. intros H. unfold mbind, M_bind. by rewrite H. Qed.
Lemma run_Err (m : M S A) (f : A → M S B) s e s' :
    m s = (Err e, s') → (m ≫= f) s = (Err e, s').
Proof. intros H. unfold mbind, M_bind. by rewrite H. Qed.
End Run.

Ltac mrun :=
  repeat (first [ rewrite run_assoc | rewrite run_ret | rewrite run_get | rewrite run_gets
                | rewrite run_put | rewrite run_modify | rewrite run_lift_Ok | rewrite run_lift_Err
                | rewrite run_raise | rewrite run_assert_true | rewrite run_assert_false ];
          cbv beta).

#[export] Hint Rewrite @bind_Ok @bind_Err : py.

(** * Weakest preconditions of stateful code *)

(** [m] from [s] ends in a result and state that satisfy [Q], or raises an
    exception that satisfies [E]. *)
Definition wp {S A} (E : exn → Prop) (m : M S A) (Q : A → S → Prop) (s : S) : Prop :=
  match m s with (Ok a, s') => Q a s' | (Err e, _) => E e end.

Section Wp.
Context {S A B : Type} (E : exn → Prop).
Lemma wp_bind (m : M S A) (f : A → M S B) Q s :
  wp E m (λ a s', wp E (f a) Q s') s → wp E (m ≫= f) Q s.
Proof. unfold wp, mbind, M_bind. by destruct (m s) as [[a|e] s']. Qed.
Lemma wp_ret (a : A) (Q : A → S → Prop) s : Q a s → wp E (mret a) Q s.
Proof. done. Qed.
Lemma wp_raise e (Q : A → S → Prop) s : E e → wp E (raise e) Q s.
Proof. done. Qed.
Lemma wp_gets (f : S → A) (Q : A → S → Prop) s : Q (f s) s → wp E (gets f) Q s.
Proof. done. Qed.
Lemma wp_mono (m : M S A) (Q Q' : A → S → Prop) s :
  wp E m Q s → (∀ a s', Q a s' → Q' a s') → wp E m Q' s.
Proof. unfold wp. destruct (m s) as [[a|e] s']; auto. Qed.
Lemma wp_Ok (m : M S A) Q s a s' : wp E m Q s → m s = (Ok a, s') → Q a s'.
Proof. unfold wp. intros Hwp Hm. by rewrite Hm in Hwp. Qed.
Lemma wp_Err (m : M S A) Q s e s' : wp E m Q s → m s = (Err e, s') → E e.
Proof. unfold wp. intros Hwp Hm. by rewrite Hm in Hwp. Qed.
End Wp.

(** [m] keeps an invariant of the state, whether it returns or raises. *)
Definition keeps {S A} (I : S → Prop) (m : M S A) : Prop := ∀ s, I s → I (m s).2.

Section Keeps.
Context {S A B : Type} (I : S → Prop).
Lemma keeps_bind (m : M S A) (f : A → M S B) : keeps I m → (∀ a, keeps I (f a)) → keeps I (m ≫= f).
Proof.
  intros Hm Hf s Hs. unfold mbind, M_bind. specialize (Hm s Hs). destruct (m s) as [[a|e] s']; [by apply Hf|done].
Qed.
Lemma keeps_ret (a : A) : keeps I (mret a).
Proof. by intros s. Qed.
Lemma keeps_raise e : keeps I (raise (A := A) e).
Proof. by intros s. Qed.
Lemma keeps_lift (r : result A) : keeps I (lift r).
Proof. by intros s. Qed.
Lemma keeps_gets (f : S → A) : keeps I (gets f).
Proof. by intros s. Qed.
Lemma keeps_get : keeps I get.
Proof. by intros s. Qed.
Lemma keeps_catch (m : M S A) h : keeps I m → (∀ e, keeps I (h e)) → keeps I (catch m h).
Proof. intros Hm Hh s Hs. unfold catch. specialize (Hm s Hs). destruct (m s) as [[a|e] s']; [done|by apply Hh]. Qed.
Lemma keeps_modify (f : S → S) : (∀ s, I s → I (f s)) → keeps I (modify f).
Proof. intros Hf s Hs. by apply Hf. Qed.
End Keeps.
#[export] Hint Resolve keeps_ret keeps_raise keeps_lift keeps_gets keeps_get : py.

(** The same for fallible code without state *)
Definition rwp {A} (E : exn → Prop) (r : result A) (Q : A → Prop) : Prop :=
  match r with Ok a => Q a | Err e => E e end.

Section Rwp.
Context {A B : Type} (E : exn → Prop).
Lemma rwp_bind (r : result A) (f : A → result B) Q : rwp E r (λ a, rwp E (f a) Q) → rwp E (r ≫= f) Q.
Proof. by destruct r. Qed.
Lemma rwp_mono (r : result A) (Q Q' : A → Prop) : rwp E r Q → (∀ a, Q a → Q' a) → rwp E r Q'.
Proof. destruct r; simpl; auto. Qed.
Lemma rwp_if (b : bool) (r r' : result A) Q :
  (b = true → rwp E r Q) → (b = false → rwp E r' Q) → rwp E (if b then r else r') Q.
Proof. destruct b; auto. Qed.
Lemma rwp_Err (r : result A) Q e : rwp E r Q → r = Err e → E e.
Proof. by intros H ->. Qed.
End Rwp.

(** * Tactics *)

(** Invert successful monadic computations in the context. *)
Ltac inv_ok :=
  repeat match goal with
  | H : mbind _ _ = Ok _ |- _ =>
      let a := fresh "a" in let Ha := fresh "Hok" in
      apply bind_Ok_inv in H as (a & Ha & H)
  | H : Ok _ = Ok _ |- _ => injection H as H; try subst
  | H : Err _ = Ok _ |- _ => discriminate H
  | H : Ok _ = Err _ |- _ => discriminate H
  | H : ensure _ _ = Ok _ |- _ => apply ensure_Ok_inv in H
  | H : mret _ = Ok _ |- _ => injection H as H; try subst
  end.

(** Two successful runs of the same computation gave the same result. *)
Ltac same_ok :=
  repeat match goal with
  | H : ?r = Ok ?x, H' : ?r = Ok ?y |- _ =>
      first [ constr_eq x y; clear H'
            | rewrite H in H'; injection H' as H'; try subst ]
  end.

(** Boolean comparisons to propositions, in hypotheses and goal. *)
Ltac bool_to_prop :=
  repeat match goal with
  | H : _ && _ = true |- _ => apply andb_prop in H as [??]
  | H : (_ <=? _)%Z = true |- _ => apply Z.leb_le in H
  | H : (_ <=? _)%Z = false |- _ => apply Z.leb_gt in H
  | H : (_ <? _)%Z = true |- _ => apply Z.ltb_lt in H
  | H : (_ <? _)%Z = false |- _ => apply Z.ltb_ge in H
  | H : (_ =? _)%Z = true |- _ => apply Z.eqb_eq in H
  | H : (_ =? _)%Z = false |- _ => apply Z.eqb_neq in H
  | H : negb _ = true |- _ => apply negb_true_iff in H
  | H : negb _ = false |- _ => apply negb_false_iff in H
  end.
