(* ===== verification/Bytes.v ===== *)
(** Byte strings: Python slices, [bytearray] updates, and the integer formats
    of the [struct] module that the source uses. *)
From S2P Require Import Prelude.
From Stdlib Require Import ZArith.
From Stdlib Require Export Strings.Byte.
Local Open Scope Z_scope.

Abbreviation bytes := (list byte).

Definition Z_of_byte (b : byte) : Z := Z.of_N (Byte.to_N b).
Definition byte_of_Z (z : Z) : byte :=
  match Byte.of_N (Z.to_N (z mod 256)) with Some b => b | None => x00 end.

Global Instance byte_eq_dec : EqDecision byte.
Proof. intros a b. destruct (Byte.byte_eq_dec a b); [left|right]; done. Defined.

Lemma Z_of_byte_bound b : 0 <= Z_of_byte b < 256.
Proof. destruct b; vm_compute; split; congruence. Qed.

Lemma byte_of_Z_of_byte b : byte_of_Z (Z_of_byte b) = b.
Proof. destruct b; reflexivity. Qed.

Lemma Z_of_byte_of_Z z : Z_of_byte (byte_of_Z z) = z mod 256.
Proof.
  unfold Z_of_byte, byte_of_Z.
  pose proof (Z.mod_pos_bound z 256 ltac:(lia)).
  destruct (Byte.of_N _) as [b|] eqn:E.
  - apply Byte.to_of_N in E. rewrite E. lia.
  - apply Byte.of_N_None_iff in E. lia.
Qed.

Lemma Z_of_byte_of_Z_small z : 0 <= z < 256 → Z_of_byte (byte_of_Z z) = z.
Proof. intros. rewrite Z_of_byte_of_Z. apply Z.mod_small. lia. Qed.

Lemma Z_of_byte_inj a b : Z_of_byte a = Z_of_byte b → a = b.
Proof. intros H. rewrite <-(byte_of_Z_of_byte a), H. apply byte_of_Z_of_byte. Qed.

(** * Lists indexed by [Z] *)

Section ZList.
Context {A : Type}.
Implicit Types l d : list A.

  (** Python's [len] *)
Definition zlen (l : list A) : Z := Z.of_nat (length l).
Definition ztake (n : Z) (l : list A) : list A := take (Z.to_nat n) l.
Definition zdrop (n : Z) (l : list A) : list A := drop (Z.to_nat n) l.
  (** [l[a:b]] for [0 <= a] (a bound past the end is clamped) *)
Definition slice (l : list A) (a b : Z) : list A := ztake (b - a) (zdrop a l).
  (** [l[off : off+len(d)] = d], inside the bounds of [l]; outside of them
      Python grows the list as this definition does. *)
Definition patch (l : list A) (off : Z) (d : list A) : list A :=
    ztake off l ++ d ++ zdrop (off + zlen d) l.
Definition zreplicate (n : Z) (x : A) : list A := replicate (Z.to_nat n) x.
Definition znth (l : list A) (i : Z) : option A :=
    if i <? 0 then None else l !! Z.to_nat i.

Lemma zlen_nonneg l : 0 <= zlen l.
Proof. unfold zlen. lia. Qed.
Lemma zlen_nil : zlen [] = 0.
Proof. reflexivity. Qed.
Lemma zlen_cons x l : zlen (x :: l) = 1 + zlen l.
Proof. unfold zlen. simpl length. lia. Qed.
Lemma zlen_app l d : zlen (l ++ d) = zlen l + zlen d.
Proof. unfold zlen. rewrite length_app. lia. Qed.
Lemma zlen_replicate n x : 0 <= n → zlen (zreplicate n x) = n.
Proof. intros. unfold zlen, zreplicate. rewrite length_replicate. lia. Qed.
Lemma zlen_ztake n l : 0 <= n → zlen (ztake n l) = Z.min n (zlen l).
Proof. intros. unfold zlen, ztake. rewrite length_take. lia. Qed.
Lemma zlen_zdrop n l : 0 <= n → zlen (zdrop n l) = Z.max 0 (zlen l - n).
Proof. intros. unfold zlen, zdrop. rewrite length_drop. lia. Qed.
Lemma zlen_slice l a b :
    0 <= a → a <= b → b <= zlen l → zlen (slice l a b) = b - a.
Proof.
    intros. unfold slice. rewrite zlen_ztake by lia. rewrite zlen_zdrop by lia. lia.
Qed.
Lemma zlen_slice_le l a b : 0 <= a → a <= b → zlen (slice l a b) <= b - a.
Proof.
    intros. unfold slice. rewrite zlen_ztake by lia. rewrite zlen_zdrop by lia. lia.
Qed.
Lemma zlen_patch l off d :
    0 <= off → off + zlen d <= zlen l → zlen (patch l off d) = zlen l.
Proof.
    intros. pose proof (zlen_nonneg d). unfold patch. rewrite !zlen_app, zlen_ztake, zlen_zdrop by lia. lia.
Qed.

Lemma ztake_all l n : zlen l <= n → ztake n l = l.
Proof. unfold zlen, ztake. intros. apply take_ge. lia. Qed.
Lemma zdrop_all l n : zlen l <= n → zdrop n l = [].
Proof. unfold zlen, zdrop. intros. apply drop_ge. lia. Qed.
Lemma zdrop_0 l : zdrop 0 l = l.
Proof. reflexivity. Qed.
Lemma ztake_0 l : ztake 0 l = [].
Proof. reflexivity. Qed.
Lemma ztake_app l d n : n = zlen l → ztake n (l ++ d) = l.
Proof. intros ->. unfold ztake, zlen. rewrite Nat2Z.id. apply take_app_length. Qed.
Lemma zdrop_app l d n : n = zlen l → zdrop n (l ++ d) = d.
Proof. intros ->. unfold zdrop, zlen. rewrite Nat2Z.id. apply drop_app_length. Qed.
Lemma zdrop_zdrop l a b : 0 <= a → 0 <= b → zdrop a (zdrop b l) = zdrop (a + b) l.
Proof. intros. unfold zdrop. rewrite drop_drop. f_equal. lia. Qed.
Lemma ztake_zdrop n l : ztake n l ++ zdrop n l = l.
Proof. apply take_drop. Qed.
Lemma zdrop_app_ge l d n : zlen l <= n → zdrop n (l ++ d) = zdrop (n - zlen l) d.
Proof.
    unfold zdrop, zlen. intros. rewrite drop_app_ge by lia. f_equal. lia.
Qed.
Lemma ztake_app_ge l d n :
    zlen l <= n → ztake n (l ++ d) = l ++ ztake (n - zlen l) d.
Proof.
    unfold ztake, zlen. intros. rewrite take_app_ge by lia. do 2 f_equal. lia.
Qed.
Lemma ztake_app_le l d n : n <= zlen l → ztake n (l ++ d) = ztake n l.
Proof. unfold ztake, zlen. intros. apply take_app_le. lia. Qed.
Lemma zdrop_app_le l d n : 0 <= n → n <= zlen l → zdrop n (l ++ d) = zdrop n l ++ d.
Proof. unfold zdrop, zlen. intros. apply drop_app_le. lia. Qed.

  (** Slices of a concatenation *)
Lemma slice_full l n : zlen l <= n → slice l 0 n = l.
Proof. intros. unfold slice. rewrite zdrop_0. apply ztake_all. lia. Qed.
Lemma slice_app_l l d a b : 0 <= a → b <= zlen l → slice (l ++ d) a b = slice l a b.
Proof.
    intros. unfold slice. destruct (decide (a <= zlen l)).
    - rewrite zdrop_app_le by lia. apply ztake_app_le.
      rewrite zlen_zdrop by lia. lia.
    - replace (Z.to_nat (b - a)) with O by lia. unfold ztake.
      replace (Z.to_nat (b - a)) with O by lia. done.
Qed.
Lemma slice_app_r l d a b :
    zlen l <= a → slice (l ++ d) a b = slice d (a - zlen l) (b - zlen l).
Proof.
    intros. unfold slice. rewrite zdrop_app_ge by lia. f_equal. lia.
Qed.
Lemma slice_prefix l d n : n = zlen l → slice (l ++ d) 0 n = l.
Proof. intros ->. unfold slice. rewrite zdrop_0, Z.sub_0_r. by apply ztake_app. Qed.
Lemma slice_middle l d r a b :
    a = zlen l → b = zlen l + zlen d → slice (l ++ d ++ r) a b = d.
Proof.
    intros -> ->. rewrite slice_app_r by lia. rewrite Z.sub_diag.
    apply slice_prefix. lia.
Qed.
Lemma slice_empty l a b : b <= a → slice l a b = [].
Proof. intros. unfold slice, ztake. by replace (Z.to_nat (b - a)) with O by lia. Qed.

Lemma slice_lookup l a b (i : nat) :
    0 <= a → slice l a b !! i =
      if decide (Z.of_nat i < b - a) then l !! (Z.to_nat a + i)%nat else None.
Proof.
    intros. unfold slice, ztake, zdrop. case_decide.
    - rewrite lookup_take_lt by lia. apply lookup_drop.
    - apply lookup_take_ge. lia.
Qed.

Lemma slice_join l a b c : 0 <= a → a <= b → b <= c → slice l a b ++ slice l b c = slice l a c.
Proof.
    intros. unfold slice. replace (zdrop b l) with (zdrop (b - a) (zdrop a l)).
    - unfold ztake, zdrop. set (k := drop _ l).
      replace (Z.to_nat (c - a)) with (Z.to_nat (b - a) + Z.to_nat (c - b))%nat by lia.
      by rewrite take_take_drop.
    - unfold zdrop. rewrite drop_drop. f_equal. lia.
Qed.
Lemma slice_slice l a b c e :
    0 <= a → 0 <= c → e <= b - a →
    slice (slice l a b) c e = slice l (a + c) (a + e).
Proof.
    intros. apply list_eq. intros i. rewrite !slice_lookup by lia.
    repeat case_decide; try lia; try done. f_equal. lia.
Qed.

Lemma zdrop_slice l a b k :
    0 <= a → 0 <= k → zdrop k (slice l a b) = slice l (a + k) b.
Proof.
    intros. apply list_eq. intros i. unfold zdrop at 1. rewrite lookup_drop.
    rewrite !slice_lookup by lia. repeat case_decide; try lia; try done. f_equal. lia.
Qed.

Lemma patch_lookup l off d (i : nat) :
    0 <= off → off <= zlen l →
    patch l off d !! i =
      if decide (Z.of_nat i < off) then l !! i
      else if decide (Z.of_nat i < off + zlen d) then d !! (i - Z.to_nat off)%nat
      else l !! i.
Proof.
    intros. unfold patch, ztake, zdrop, zlen in *.
    assert (length (take (Z.to_nat off) l) = Z.to_nat off) as Hl.
    { rewrite length_take. lia. }
    case_decide; [|case_decide].
    - rewrite lookup_app_l by lia. apply lookup_take_lt. lia.
    - rewrite lookup_app_r, Hl by lia. apply lookup_app_l. lia.
    - rewrite lookup_app_r, Hl by lia. rewrite lookup_app_r by lia.
      rewrite lookup_drop. f_equal. lia.
Qed.

  (** Reading back a patched region, and reading around it *)
Lemma slice_patch_same l off d b :
    0 <= off → off <= zlen l → b = off + zlen d → slice (patch l off d) off b = d.
Proof.
    intros ?? ->. unfold patch. apply slice_middle.
    all: rewrite zlen_ztake by lia; lia.
Qed.
Lemma slice_patch_before l off d a b :
    0 <= a → b <= off → off <= zlen l → slice (patch l off d) a b = slice l a b.
Proof.
    intros. destruct (decide (b <= a)); [by rewrite !slice_empty|].
    apply list_eq. intros i. rewrite !slice_lookup by lia.
    case_decide; [|done]. rewrite patch_lookup by lia. by rewrite decide_True by lia.
Qed.
Lemma slice_patch_after l off d a b :
    0 <= off → off <= zlen l → off + zlen d <= a →
    slice (patch l off d) a b = slice l a b.
Proof.
    intros. pose proof (zlen_nonneg d). apply list_eq. intros i. rewrite !slice_lookup by lia.
    case_decide; [|done]. rewrite patch_lookup by lia.
    repeat case_decide; lia || done.
Qed.
Lemma slice_patch_within l off d a b :
    0 <= off → off <= zlen l → off <= a → b <= off + zlen d →
    slice (patch l off d) a b = slice d (a - off) (b - off).
Proof.
    intros. apply list_eq. intros i. rewrite !slice_lookup by lia.
    rewrite patch_lookup by lia. repeat case_decide; try lia; try done. f_equal. lia.
Qed.
Lemma patch_slice_id l a b :
    0 <= a → a <= b → b <= zlen l → patch l a (slice l a b) = l.
Proof.
    intros. apply list_eq. intros i. rewrite patch_lookup by lia.
    rewrite zlen_slice by lia. repeat case_decide; try done.
    rewrite slice_lookup by lia. rewrite decide_True by lia. f_equal. lia.
Qed.
Lemma znth_lookup l i : 0 <= i → znth l i = l !! Z.to_nat i.
Proof. intros. unfold znth. destruct (Z.ltb_spec i 0); [lia|done]. Qed.
End ZList.

#[export] Hint Rewrite @zlen_nil @zlen_cons @zlen_app : py.

(** * Little- and big-endian integers *)

Fixpoint le_bytes (n : nat) (z : Z) : bytes :=
  match n with
  | O => []
  | S n => byte_of_Z z :: le_bytes n (z / 256)
  end.

Fixpoint le_val (bs : bytes) : Z :=
  match bs with
  | [] => 0
  | b :: bs => Z_of_byte b + 256 * le_val bs
  end.

Definition be_bytes (n : nat) (z : Z) : bytes := reverse (le_bytes n z).
Definition be_val (bs : bytes) : Z := le_val (reverse bs).

(** Two's-complement reading of an [n]-byte word *)
Definition to_signed (n : nat) (z : Z) : Z :=
  if z <? 2 ^ (8 * Z.of_nat n - 1) then z else z - 2 ^ (8 * Z.of_nat n).

Lemma length_le_bytes n z : length (le_bytes n z) = n.
Proof. revert z. induction n; intros; simpl; [done|]. by rewrite IHn. Qed.
Lemma zlen_le_bytes n z : zlen (le_bytes n z) = Z.of_nat n.
Proof. unfold zlen. by rewrite length_le_bytes. Qed.
Lemma zlen_be_bytes n z : zlen (be_bytes n z) = Z.of_nat n.
Proof. unfold zlen, be_bytes. by rewrite length_reverse, length_le_bytes. Qed.

Lemma pow256_S n : 2 ^ (8 * Z.of_nat (S n)) = 256 * 2 ^ (8 * Z.of_nat n).
Proof.
  replace (8 * Z.of_nat (S n)) with (8 + 8 * Z.of_nat n) by lia.
  rewrite Z.pow_add_r by lia. reflexivity.
Qed.

Lemma le_val_bound bs : 0 <= le_val bs < 2 ^ (8 * zlen bs).
Proof.
  unfold zlen. induction bs as [|b bs IH]; [simpl; lia|]. simpl length.
  rewrite pow256_S. simpl. pose proof (Z_of_byte_bound b). lia.
Qed.

Lemma le_val_le_bytes n z : le_val (le_bytes n z) = z mod 2 ^ (8 * Z.of_nat n).
Proof.
  revert z. induction n; intros; [simpl; by rewrite Z.mod_1_r|].
  rewrite pow256_S. simpl le_val. rewrite IHn, Z_of_byte_of_Z.
  rewrite Z.rem_mul_r by (try apply Z.pow_nonzero; lia). lia.
Qed.

Lemma le_val_le_bytes_small n z :
  0 <= z < 2 ^ (8 * Z.of_nat n) → le_val (le_bytes n z) = z.
Proof. intros. rewrite le_val_le_bytes. by apply Z.mod_small. Qed.

Lemma le_bytes_le_val bs : le_bytes (length bs) (le_val bs) = bs.
Proof.
  induction bs as [|b bs IH]; [done|]. simpl. pose proof (Z_of_byte_bound b).
  f_equal.
  - apply Z_of_byte_inj. rewrite Z_of_byte_of_Z.
    replace (Z_of_byte b + 256 * le_val bs) with (Z_of_byte b + le_val bs * 256) by lia.
    rewrite Z.mod_add by lia. by apply Z.mod_small.
  - replace ((Z_of_byte b + 256 * le_val bs) / 256) with (le_val bs); [done|].
    Z.to_euclidean_division_equations. lia.
Qed.

Lemma be_val_bound bs : 0 <= be_val bs < 2 ^ (8 * zlen bs).
Proof.
  unfold be_val. pose proof (le_val_bound (reverse bs)) as H.
  unfold zlen in *. by rewrite length_reverse in H.
Qed.
Lemma be_val_be_bytes_small n z :
  0 <= z < 2 ^ (8 * Z.of_nat n) → be_val (be_bytes n z) = z.
Proof.
  intros. unfold be_val, be_bytes. rewrite reverse_involutive.
  by apply le_val_le_bytes_small.
Qed.
Lemma be_bytes_be_val bs : be_bytes (length bs) (be_val bs) = bs.
Proof.
  unfold be_bytes, be_val.
  rewrite <-(length_reverse bs), le_bytes_le_val. apply reverse_involutive.
Qed.
Lemma be_bytes_be_val_n n bs : zlen bs = Z.of_nat n → be_bytes n (be_val bs) = bs.
Proof. unfold zlen. intros H. replace n with (length bs) by lia. apply be_bytes_be_val. Qed.

Lemma to_signed_mod n z :
  (0 < n)%nat → - 2 ^ (8 * Z.of_nat n - 1) <= z < 2 ^ (8 * Z.of_nat n - 1) →
  to_signed n (z mod 2 ^ (8 * Z.of_nat n)) = z.
Proof.
  intros Hn Hz. unfold to_signed.
  assert (2 ^ (8 * Z.of_nat n) = 2 * 2 ^ (8 * Z.of_nat n - 1)) as E.
  { rewrite <-Z.pow_succ_r by lia. f_equal. lia. }
  rewrite E. set (h := 2 ^ (8 * Z.of_nat n - 1)) in *.
  destruct (decide (0 <= z)).
  - rewrite Z.mod_small by lia. by destruct (Z.ltb_spec z h); [|lia].
  - rewrite <-(Z.mod_add z 1) by lia. rewrite Z.mod_small by lia.
    destruct (Z.ltb_spec (z + 1 * (2 * h)) h); lia.
Qed.

Lemma to_signed_bound n z :
  (0 < n)%nat → 0 <= z < 2 ^ (8 * Z.of_nat n) →
  - 2 ^ (8 * Z.of_nat n - 1) <= to_signed n z < 2 ^ (8 * Z.of_nat n - 1).
Proof.
  intros Hn Hz. unfold to_signed.
  assert (2 ^ (8 * Z.of_nat n) = 2 * 2 ^ (8 * Z.of_nat n - 1)) as E.
  { rewrite <-Z.pow_succ_r by lia. f_equal. lia. }
  rewrite E in *. destruct (Z.ltb_spec z (2 ^ (8 * Z.of_nat n - 1))); lia.
Qed.

(** * The [struct] formats *)

(** [struct.pack("<B/H/I/Q")] and [(">...")], unsigned, [n] bytes *)
Definition fits_u (n : nat) (z : Z) : bool := (0 <=? z) && (z <? 2 ^ (8 * Z.of_nat n)).
Definition fits_s (n : nat) (z : Z) : bool :=
  (- 2 ^ (8 * Z.of_nat n - 1) <=? z) && (z <? 2 ^ (8 * Z.of_nat n - 1)).

Definition pack_ule (n : nat) (z : Z) : result bytes :=
  if fits_u n z then Ok (le_bytes n z) else Err StructError.
Definition pack_ube (n : nat) (z : Z) : result bytes :=
  if fits_u n z then Ok (be_bytes n z) else Err StructError.
Definition pack_sle (n : nat) (z : Z) : result bytes :=
  if fits_s n z then Ok (le_bytes n z) else Err StructError.
Definition pack_sbe (n : nat) (z : Z) : result bytes :=
  if fits_s n z then Ok (be_bytes n z) else Err StructError.

(** [struct.unpack_from(fmt, buf, off)]: the [n] bytes at [off], or
    [struct.error] when the buffer is too short *)
Definition read_at (n : nat) (buf : bytes) (off : Z) : result bytes :=
  if (0 <=? off) && (off + Z.of_nat n <=? zlen buf)
  then Ok (slice buf off (off + Z.of_nat n)) else Err StructError.
Definition unpack_ule (n : nat) (buf : bytes) (off : Z) : result Z :=
  le_val <$> read_at n buf off.
Definition unpack_ube (n : nat) (buf : bytes) (off : Z) : result Z :=
  be_val <$> read_at n buf off.
Definition unpack_sle (n : nat) (buf : bytes) (off : Z) : result Z :=
  (to_signed n ∘ le_val) <$> read_at n buf off.
Definition unpack_sbe (n : nat) (buf : bytes) (off : Z) : result Z :=
  (to_signed n ∘ be_val) <$> read_at n buf off.

(** [struct.pack_into("<..", page, off, z)] on a [bytearray] *)
Definition pack_into_ule (n : nat) (page : bytes) (off z : Z) : result bytes :=
  d ← pack_ule n z;
  if (0 <=? off) && (off + Z.of_nat n <=? zlen page)
  then Ok (patch page off d) else Err StructError.

(** [buf[i]] on bytes *)
Definition byte_at (buf : bytes) (i : Z) : result Z :=
  match znth buf i with Some b => Ok (Z_of_byte b) | None => Err IndexError end.

Lemma fits_u_true n z : fits_u n z = true ↔ 0 <= z < 2 ^ (8 * Z.of_nat n).
Proof. unfold fits_u. rewrite andb_true_iff, Z.leb_le, Z.ltb_lt. done. Qed.
Lemma fits_s_true n z :
  fits_s n z = true ↔ - 2 ^ (8 * Z.of_nat n - 1) <= z < 2 ^ (8 * Z.of_nat n - 1).
Proof. unfold fits_s. rewrite andb_true_iff, Z.leb_le, Z.ltb_lt. done. Qed.

Lemma pack_ule_Ok_inv n z d :
  pack_ule n z = Ok d → d = le_bytes n z ∧ 0 <= z < 2 ^ (8 * Z.of_nat n).
Proof.
  unfold pack_ule. destruct (fits_u n z) eqn:E; [|discriminate].
  apply fits_u_true in E. intros [= <-]. done.
Qed.
Lemma pack_ube_Ok_inv n z d :
  pack_ube n z = Ok d → d = be_bytes n z ∧ 0 <= z < 2 ^ (8 * Z.of_nat n).
Proof.
  unfold pack_ube. destruct (fits_u n z) eqn:E; [|discriminate].
  apply fits_u_true in E. intros [= <-]. done.
Qed.
Lemma pack_sle_Ok_inv n z d :
  pack_sle n z = Ok d →
  d = le_bytes n z ∧ - 2 ^ (8 * Z.of_nat n - 1) <= z < 2 ^ (8 * Z.of_nat n - 1).
Proof.
  unfold pack_sle. destruct (fits_s n z) eqn:E; [|discriminate].
  apply fits_s_true in E. intros [= <-]. done.
Qed.
Lemma pack_sbe_Ok_inv n z d :
  pack_sbe n z = Ok d →
  d = be_bytes n z ∧ - 2 ^ (8 * Z.of_nat n - 1) <= z < 2 ^ (8 * Z.of_nat n - 1).
Proof.
  unfold pack_sbe. destruct (fits_s n z) eqn:E; [|discriminate].
  apply fits_s_true in E. intros [= <-]. done.
Qed.
Lemma pack_ule_ok n z :
  0 <= z < 2 ^ (8 * Z.of_nat n) → pack_ule n z = Ok (le_bytes n z).
Proof. intros H. unfold pack_ule. by rewrite (proj2 (fits_u_true n z) H). Qed.
Lemma pack_ube_ok n z :
  0 <= z < 2 ^ (8 * Z.of_nat n) → pack_ube n z = Ok (be_bytes n z).
Proof. intros H. unfold pack_ube. by rewrite (proj2 (fits_u_true n z) H). Qed.
Lemma pack_sle_ok n z :
  - 2 ^ (8 * Z.of_nat n - 1) <= z < 2 ^ (8 * Z.of_nat n - 1) →
  pack_sle n z = Ok (le_bytes n z).
Proof. intros H. unfold pack_sle. by rewrite (proj2 (fits_s_true n z) H). Qed.
Lemma pack_sbe_ok n z :
  - 2 ^ (8 * Z.of_nat n - 1) <= z < 2 ^ (8 * Z.of_nat n - 1) →
  pack_sbe n z = Ok (be_bytes n z).
Proof. intros H. unfold pack_sbe. by rewrite (proj2 (fits_s_true n z) H). Qed.

(** Reading what was just packed, anywhere inside a buffer *)
Lemma read_at_middle n pre d post off :
  off = zlen pre → zlen d = Z.of_nat n → read_at n (pre ++ d ++ post) off = Ok d.
Proof.
  intros -> Hd. unfold read_at. pose proof (zlen_nonneg pre).
  pose proof (zlen_nonneg post). rewrite !zlen_app.
  rewrite (proj2 (Z.leb_le 0 _)), (proj2 (Z.leb_le (_ + _) _)) by lia. simpl.
  by rewrite (slice_middle _ d) by lia.
Qed.
Lemma unpack_ule_middle n pre z post off :
  off = zlen pre → 0 <= z < 2 ^ (8 * Z.of_nat n) →
  unpack_ule n (pre ++ le_bytes n z ++ post) off = Ok z.
Proof.
  intros -> Hz. unfold unpack_ule. rewrite read_at_middle by (rewrite ?zlen_le_bytes; done).
  simpl. by rewrite le_val_le_bytes_small.
Qed.
Lemma unpack_ube_middle n pre z post off :
  off = zlen pre → 0 <= z < 2 ^ (8 * Z.of_nat n) →
  unpack_ube n (pre ++ be_bytes n z ++ post) off = Ok z.
Proof.
  intros -> Hz. unfold unpack_ube. rewrite read_at_middle by (rewrite ?zlen_be_bytes; done).
  simpl. by rewrite be_val_be_bytes_small.
Qed.
Lemma to_signed_le_bytes n z :
  (0 < n)%nat → - 2 ^ (8 * Z.of_nat n - 1) <= z < 2 ^ (8 * Z.of_nat n - 1) →
  to_signed n (le_val (le_bytes n z)) = z.
Proof. intros. rewrite le_val_le_bytes. by apply to_signed_mod. Qed.
Lemma unpack_sle_middle n pre z post off :
  off = zlen pre → (0 < n)%nat →
  - 2 ^ (8 * Z.of_nat n - 1) <= z < 2 ^ (8 * Z.of_nat n - 1) →
  unpack_sle n (pre ++ le_bytes n z ++ post) off = Ok z.
Proof.
  intros -> Hn Hz. unfold unpack_sle.
  rewrite read_at_middle by (rewrite ?zlen_le_bytes; done).
  simpl. by rewrite to_signed_le_bytes.
Qed.
Lemma unpack_sbe_middle n pre z post off :
  off = zlen pre → (0 < n)%nat →
  - 2 ^ (8 * Z.of_nat n - 1) <= z < 2 ^ (8 * Z.of_nat n - 1) →
  unpack_sbe n (pre ++ be_bytes n z ++ post) off = Ok z.
Proof.
  intros -> Hn Hz. unfold unpack_sbe.
  rewrite read_at_middle by (rewrite ?zlen_be_bytes; done).
  simpl. unfold be_val, be_bytes. by rewrite reverse_involutive, to_signed_le_bytes.
Qed.
Lemma unpack_ule_bound n buf off z :
  unpack_ule n buf off = Ok z → 0 <= z < 2 ^ (8 * Z.of_nat n).
Proof.
  unfold unpack_ule, read_at. destruct (_ && _) eqn:E; [|discriminate].
  bool_to_prop. intros [= <-].
  pose proof (le_val_bound (slice buf off (off + Z.of_nat n))) as Hb.
  rewrite zlen_slice in Hb by lia. by replace (off + Z.of_nat n - off) with (Z.of_nat n) in Hb by lia.
Qed.
Lemma unpack_ule_total n buf off :
  0 <= off → off + Z.of_nat n <= zlen buf →
  unpack_ule n buf off = Ok (le_val (slice buf off (off + Z.of_nat n))).
Proof.
  intros. unfold unpack_ule, read_at.
  rewrite (proj2 (Z.leb_le 0 _)), (proj2 (Z.leb_le (_ + _) _)) by lia. done.
Qed.

(** [pack_into] then [unpack_from] *)
Lemma pack_into_ule_ok n page off z :
  0 <= z < 2 ^ (8 * Z.of_nat n) → 0 <= off → off + Z.of_nat n <= zlen page →
  pack_into_ule n page off z = Ok (patch page off (le_bytes n z)).
Proof.
  intros. unfold pack_into_ule. rewrite pack_ule_ok by done. simpl.
  rewrite (proj2 (Z.leb_le 0 _)), (proj2 (Z.leb_le (_ + _) _)) by lia. done.
Qed.

(** Reading around and at a patch *)
Lemma read_at_patch_other n buf off d off' :
  0 <= off → off + zlen d <= zlen buf →
  off' + Z.of_nat n <= off ∨ off + zlen d <= off' →
  read_at n (patch buf off d) off' = read_at n buf off'.
Proof.
  intros Ho Hl Hd. pose proof (zlen_nonneg d). unfold read_at. rewrite zlen_patch by lia.
  destruct (_ && _) eqn:E; [|done]. bool_to_prop. f_equal.
  destruct Hd; [apply slice_patch_before|apply slice_patch_after]; lia.
Qed.
Lemma unpack_ule_patch_other n buf off d off' :
  0 <= off → off + zlen d <= zlen buf →
  off' + Z.of_nat n <= off ∨ off + zlen d <= off' →
  unpack_ule n (patch buf off d) off' = unpack_ule n buf off'.
Proof. intros. unfold unpack_ule. by rewrite read_at_patch_other. Qed.
Lemma unpack_ule_patch_same n buf off z :
  0 <= off → off + Z.of_nat n <= zlen buf → 0 <= z < 2 ^ (8 * Z.of_nat n) →
  unpack_ule n (patch buf off (le_bytes n z)) off = Ok z.
Proof.
  intros Ho Hl Hz. rewrite unpack_ule_total; rewrite ?zlen_patch; rewrite ?zlen_le_bytes; try lia.
  rewrite slice_patch_same; rewrite ?zlen_le_bytes; try lia. by rewrite le_val_le_bytes_small.
Qed.

#[export] Hint Rewrite zlen_le_bytes zlen_be_bytes : py.

#[global] Arguments le_bytes : simpl never.
#[global] Arguments be_bytes : simpl never.
#[global] Arguments le_val : simpl never.
#[global] Arguments slice : simpl never.
#[global] Arguments patch : simpl never.
#[global] Arguments ztake : simpl never.
#[global] Arguments zdrop : simpl never.
#[global] Arguments zreplicate : simpl never.
#[global] Arguments zlen : simpl never.
