(* ===== verification/Utf8.v ===== *)
(** Python [str] as a list of code points, and the strict UTF-8 codec
    ([str.encode("utf-8")], [bytes.decode("utf-8")]). *)
From S2P Require Import Prelude.
From S2P Require Import Bytes.
From Stdlib Require Import ZArith Ascii.
Local Open Scope Z_scope.

(** A Python string: its Unicode code points. *)
Abbreviation pystr := (list Z).

(** Literals: [u "abc"] *)
Fixpoint u (s : string) : pystr :=
  match s with
  | EmptyString => []
  | String c s => Z.of_N (N_of_ascii c) :: u s
  end.

Definition is_surrogate (c : Z) : bool := (0xD800 <=? c) && (c <=? 0xDFFF).
(** Code points that have a UTF-8 encoding *)
Definition scalar (c : Z) : bool :=
  (0 <=? c) && (c <=? 0x10FFFF) && negb (is_surrogate c).

Definition utf8_encode1 (c : Z) : result bytes :=
  if negb (scalar c) then Err UnicodeError
  else if c <? 0x80 then Ok [byte_of_Z c]
  else if c <? 0x800 then Ok [byte_of_Z (0xC0 + c / 64); byte_of_Z (0x80 + c mod 64)]
  else if c <? 0x10000 then
    Ok [byte_of_Z (0xE0 + c / 4096); byte_of_Z (0x80 + c / 64 mod 64);
        byte_of_Z (0x80 + c mod 64)]
  else
    Ok [byte_of_Z (0xF0 + c / 262144); byte_of_Z (0x80 + c / 4096 mod 64);
        byte_of_Z (0x80 + c / 64 mod 64); byte_of_Z (0x80 + c mod 64)].

Fixpoint utf8_encode (s : pystr) : result bytes :=
  match s with
  | [] => Ok []
  | c :: s => b ← utf8_encode1 c; bs ← utf8_encode s; Ok (b ++ bs)
  end.

(** A continuation byte's payload *)
Definition cont (b : byte) : option Z :=
  let v := Z_of_byte b in
  if (0x80 <=? v) && (v <=? 0xBF) then Some (v - 0x80) else None.

Definition decode2 (v : Z) (b1 : byte) : option Z :=
  p1 ← cont b1; let c := (v - 0xC0) * 64 + p1 in
  if (0x80 <=? c) && (c <? 0x800) then Some c else None.
Definition decode3 (v : Z) (b1 b2 : byte) : option Z :=
  p1 ← cont b1; p2 ← cont b2; let c := (v - 0xE0) * 4096 + p1 * 64 + p2 in
  if (0x800 <=? c) && (c <? 0x10000) && negb (is_surrogate c) then Some c else None.
Definition decode4 (v : Z) (b1 b2 b3 : byte) : option Z :=
  p1 ← cont b1; p2 ← cont b2; p3 ← cont b3;
  let c := (v - 0xF0) * 262144 + p1 * 4096 + p2 * 64 + p3 in
  if (0x10000 <=? c) && (c <=? 0x10FFFF) then Some c else None.

Fixpoint utf8_decode (bs : bytes) : result pystr :=
  match bs with
  | [] => Ok []
  | b0 :: r0 =>
      let v := Z_of_byte b0 in
      if v <? 0x80 then s ← utf8_decode r0; Ok (v :: s)
      else match r0 with
      | [] => Err UnicodeError
      | b1 :: r1 =>
          if (0xC0 <=? v) && (v <? 0xE0) then
            c ← of_option UnicodeError (decode2 v b1); s ← utf8_decode r1; Ok (c :: s)
          else match r1 with
          | [] => Err UnicodeError
          | b2 :: r2 =>
              if (0xE0 <=? v) && (v <? 0xF0) then
                c ← of_option UnicodeError (decode3 v b1 b2);
                s ← utf8_decode r2; Ok (c :: s)
              else match r2 with
              | [] => Err UnicodeError
              | b3 :: r3 =>
                  if (0xF0 <=? v) && (v <? 0xF8) then
                    c ← of_option UnicodeError (decode4 v b1 b2 b3);
                    s ← utf8_decode r3; Ok (c :: s)
                  else Err UnicodeError
              end
          end
      end
  end.

Lemma cont_byte p : 0 <= p < 64 → cont (byte_of_Z (0x80 + p)) = Some p.
Proof.
  intros. unfold cont. rewrite Z_of_byte_of_Z_small by lia.
  rewrite (proj2 (Z.leb_le _ _)), (proj2 (Z.leb_le (_ + _) _)) by lia. simpl. f_equal. lia.
Qed.

Lemma scalar_true c :
  scalar c = true ↔ 0 <= c <= 0x10FFFF ∧ ¬ (0xD800 <= c <= 0xDFFF).
Proof. unfold scalar, is_surrogate. rewrite !andb_true_iff, negb_true_iff, andb_false_iff. lia. Qed.

(** One encoded code point is read back, whatever follows it. *)
Lemma utf8_decode_encode1 c b rest :
  utf8_encode1 c = Ok b →
  utf8_decode (b ++ rest) = (s ← utf8_decode rest; Ok (c :: s)).
Proof.
  unfold utf8_encode1. destruct (scalar c) eqn:Es; [|discriminate].
  apply scalar_true in Es. cbn [negb].
  destruct (Z.ltb_spec c 0x80); [|destruct (Z.ltb_spec c 0x800);
    [|destruct (Z.ltb_spec c 0x10000)]]; intros [= <-].
  - cbn [app utf8_decode]. rewrite Z_of_byte_of_Z_small by lia.
    by rewrite (proj2 (Z.ltb_lt c 0x80)) by lia.
  - cbn [app utf8_decode].
    assert (192 <= 192 + c / 64 < 224) as Hv by (Z.to_euclidean_division_equations; lia).
    rewrite Z_of_byte_of_Z_small by lia.
    rewrite (proj2 (Z.ltb_ge _ 0x80)), (proj2 (Z.leb_le 0xC0 _)), (proj2 (Z.ltb_lt _ 0xE0))
      by lia.
    cbn [andb]. unfold decode2. rewrite cont_byte by (apply Z.mod_pos_bound; lia).
    cbn [mbind option_bind].
    replace ((192 + c / 64 - 192) * 64 + c mod 64) with c by (Z.to_euclidean_division_equations; lia).
    by rewrite (proj2 (Z.leb_le 0x80 _)), (proj2 (Z.ltb_lt _ 0x800)) by lia.
  - cbn [app utf8_decode].
    assert (224 <= 224 + c / 4096 < 240) as Hv by (Z.to_euclidean_division_equations; lia).
    rewrite Z_of_byte_of_Z_small by lia.
    rewrite (proj2 (Z.ltb_ge _ 0x80)) by lia.
    rewrite (proj2 (Z.ltb_ge (224 + _) 0xE0)), andb_false_r by lia.
    rewrite (proj2 (Z.leb_le 0xE0 _)), (proj2 (Z.ltb_lt _ 0xF0)) by lia.
    cbn [andb]. unfold decode3. rewrite !cont_byte by (apply Z.mod_pos_bound; lia).
    cbn [mbind option_bind].
    replace ((224 + c / 4096 - 224) * 4096 + c / 64 mod 64 * 64 + c mod 64) with c
      by (Z.to_euclidean_division_equations; lia).
    unfold is_surrogate.
    rewrite (proj2 (Z.leb_le 0x800 _)), (proj2 (Z.ltb_lt _ 0x10000)) by lia.
    destruct (Z.leb_spec 0xD800 c), (Z.leb_spec c 0xDFFF); try done; lia.
  - cbn [app utf8_decode].
    assert (240 <= 240 + c / 262144 < 248) as Hv by (Z.to_euclidean_division_equations; lia).
    rewrite Z_of_byte_of_Z_small by lia.
    rewrite (proj2 (Z.ltb_ge _ 0x80)) by lia.
    rewrite (proj2 (Z.ltb_ge (240 + _) 0xE0)), andb_false_r by lia.
    rewrite (proj2 (Z.ltb_ge (240 + _) 0xF0)), andb_false_r by lia.
    rewrite (proj2 (Z.leb_le 0xF0 _)), (proj2 (Z.ltb_lt _ 0xF8)) by lia.
    cbn [andb]. unfold decode4. rewrite !cont_byte by (apply Z.mod_pos_bound; lia).
    cbn [mbind option_bind].
    replace ((240 + c / 262144 - 240) * 262144 + c / 4096 mod 64 * 4096 + c / 64 mod 64 * 64
      + c mod 64) with c by (Z.to_euclidean_division_equations; lia).
    by rewrite (proj2 (Z.leb_le 0x10000 _)), (proj2 (Z.leb_le _ 0x10FFFF)) by lia.
Qed.

Lemma utf8_decode_encode s bs : utf8_encode s = Ok bs → utf8_decode bs = Ok s.
Proof.
  revert bs. induction s as [|c s IH]; intros bs H; simpl in H.
  - by inv_ok.
  - inv_ok. erewrite utf8_decode_encode1 by done. by rewrite (IH _ Hok0).
Qed.

Lemma utf8_encode_scalars s :
  Forall (λ c, scalar c = true) s → ∃ bs, utf8_encode s = Ok bs.
Proof.
  induction 1 as [|c s Hc _ [bs IH]]; simpl; [eauto|].
  unfold utf8_encode1. rewrite Hc, IH. cbn [negb].
  repeat destruct (_ <? _); simpl; eauto.
Qed.
