(* ===== verification/Text.v ===== *)
(** Python [str] operations on code-point lists: [strip], [lower]/[upper] as
    the keyword look-ups observe them, and decimal integer text. *)
From S2P Require Import Prelude.
From S2P Require Import Utf8.
From Stdlib Require Import ZArith.
Local Open Scope Z_scope.

(** [str.isspace] of one character (the Unicode white-space characters) *)
Definition py_isspace (c : Z) : bool :=
  ((9 <=? c) && (c <=? 13)) || ((28 <=? c) && (c <=? 32)) ||
  (c =? 0x85) || (c =? 0xA0) || (c =? 0x1680) ||
  ((0x2000 <=? c) && (c <=? 0x200A)) || (c =? 0x2028) || (c =? 0x2029) ||
  (c =? 0x202F) || (c =? 0x205F) || (c =? 0x3000).

Fixpoint lstrip (s : pystr) : pystr :=
  match s with
  | c :: s' => if py_isspace c then lstrip s' else s
  | [] => []
  end.
(** [str.strip()] *)
Definition strip (s : pystr) : pystr := reverse (lstrip (reverse (lstrip s))).

(** [str.lower()] on the ASCII range.  No other character lower-cases to a
    string over the letters of the type names looked up with it. *)
Definition lower1 (c : Z) : Z := if (65 <=? c) && (c <=? 90) then c + 32 else c.
Definition lower (s : pystr) : pystr := map lower1 s.

(** [str.upper()] restricted to the characters whose upper-case form is ASCII:
    the ASCII letters, dotless i, long s, sharp s and the Latin ligatures.
    Every other character upper-cases to a string with a non-ASCII character,
    which no keyword contains, and is left unchanged. *)
Definition upper1 (c : Z) : pystr :=
  if (97 <=? c) && (c <=? 122) then [c - 32]
  else if c =? 0x131 then [73]
  else if c =? 0x17F then [83]
  else if c =? 0xDF then [83; 83]
  else if c =? 0xFB00 then [70; 70]
  else if c =? 0xFB01 then [70; 73]
  else if c =? 0xFB02 then [70; 76]
  else if c =? 0xFB03 then [70; 70; 73]
  else if c =? 0xFB04 then [70; 70; 76]
  else if (c =? 0xFB05) || (c =? 0xFB06) then [83; 84]
  else [c].
Definition upper (s : pystr) : pystr := concat (map upper1 s).

Definition is_ascii_digit (c : Z) : bool := (48 <=? c) && (c <=? 57).

(** * Decimal text of integers *)

Fixpoint digits_aux (fuel : nat) (n : Z) (acc : pystr) : pystr :=
  match fuel with
  | O => acc
  | S fuel =>
      let acc := (48 + n mod 10) :: acc in
      if n <? 10 then acc else digits_aux fuel (n / 10) acc
  end.
(** The decimal digits of [n >= 0] *)
Definition digits (n : Z) : pystr := digits_aux (S (Z.to_nat (Z.log2 n))) n [].
(** [str(z)] *)
Definition str_of_Z (z : Z) : pystr := if z <? 0 then 45 :: digits (- z) else digits z.

(** The number a string of decimal digits denotes *)
Definition digits_val (s : pystr) : Z := fold_left (λ a c, 10 * a + (c - 48)) s 0.

Lemma digits_aux_acc fuel n acc : digits_aux fuel n acc = digits_aux fuel n [] ++ acc.
Proof.
  revert n acc. induction fuel as [|fuel IH]; intros; simpl; [done|].
  destruct (n <? 10); [done|].
  rewrite (IH _ (_ :: acc)), (IH _ [_]), <-app_assoc. done.
Qed.

Lemma digits_val_snoc s c : digits_val (s ++ [c]) = 10 * digits_val s + (c - 48).
Proof. unfold digits_val. by rewrite fold_left_app. Qed.

Lemma digits_aux_val fuel n :
  0 <= n < 2 ^ Z.of_nat fuel → digits_val (digits_aux fuel n []) = n.
Proof.
  revert n. induction fuel as [|fuel IH]; intros n Hn; simpl.
  - change (2 ^ Z.of_nat 0) with 1 in Hn. unfold digits_val. simpl. lia.
  - destruct (Z.ltb_spec n 10).
    + unfold digits_val. simpl. rewrite Z.mod_small by lia. lia.
    + rewrite digits_aux_acc, digits_val_snoc, IH.
      * Z.to_euclidean_division_equations. lia.
      * rewrite Nat2Z.inj_succ, Z.pow_succ_r in Hn by lia.
        Z.to_euclidean_division_equations. lia.
Qed.

Lemma digits_val_digits n : 0 <= n → digits_val (digits n) = n.
Proof.
  intros Hn. apply digits_aux_val. split; [done|].
  rewrite Nat2Z.inj_succ, Z2Nat.id by apply Z.log2_nonneg.
  destruct (Z.eq_dec n 0) as [->|]; [done|]. by apply Z.log2_spec; lia.
Qed.

Lemma digits_aux_ascii fuel n acc :
  0 <= n → Forall (λ c, is_ascii_digit c = true) acc →
  Forall (λ c, is_ascii_digit c = true) (digits_aux fuel n acc).
Proof.
  revert n acc. induction fuel as [|fuel IH]; intros n acc Hn Hacc; simpl; [done|].
  assert (Forall (λ c, is_ascii_digit c = true) ((48 + n mod 10) :: acc)).
  { constructor; [|done]. unfold is_ascii_digit.
    apply andb_true_iff. rewrite !Z.leb_le. Z.to_euclidean_division_equations. lia. }
  destruct (n <? 10); [done|]. apply IH; [|done]. apply Z.div_pos; lia.
Qed.
Lemma digits_ascii n : 0 <= n → Forall (λ c, is_ascii_digit c = true) (digits n).
Proof. intros. apply digits_aux_ascii; [done|constructor]. Qed.

Lemma digits_nonempty n : digits n ≠ [].
Proof.
  unfold digits. simpl. destruct (n <? 10); [done|].
  rewrite digits_aux_acc. by destruct (digits_aux _ _ _).
Qed.

Lemma digits_val_zeros n s : digits_val (replicate n 48 ++ s) = digits_val s.
Proof. induction n; [done|]. unfold digits_val in *. by simpl. Qed.
Lemma digits_val_app_zeros n s :
  digits_val (s ++ replicate n 48) = digits_val s * 10 ^ Z.of_nat n.
Proof.
  induction n as [|n IH].
  - simpl. rewrite app_nil_r. lia.
  - rewrite replicate_S_end, app_assoc, digits_val_snoc, IH, Nat2Z.inj_succ, Z.pow_succ_r by lia.
    lia.
Qed.

Lemma lstrip_nospace s : Forall (λ c, py_isspace c = false) s → lstrip s = s.
Proof. destruct 1 as [|c s Hc]; simpl; [done|]. by rewrite Hc. Qed.
Lemma strip_nospace s : Forall (λ c, py_isspace c = false) s → strip s = s.
Proof.
  intros H. unfold strip. rewrite (lstrip_nospace s) by done.
  rewrite lstrip_nospace by by apply Forall_reverse. apply reverse_involutive.
Qed.

(** The longest prefix of ASCII digits *)
Fixpoint span_digits (s : pystr) : pystr * pystr :=
  match s with
  | c :: s' => if is_ascii_digit c then let '(a, b) := span_digits s' in (c :: a, b) else ([], s)
  | [] => ([], [])
  end.

Lemma span_digits_app ds rest :
  Forall (λ c, is_ascii_digit c = true) ds →
  match rest with [] => True | c :: _ => is_ascii_digit c = false end →
  span_digits (ds ++ rest) = (ds, rest).
Proof.
  intros Hds Hrest. induction Hds as [|c ds Hc _ IH]; simpl.
  - destruct rest as [|c rest]; simpl; [done|]. by rewrite Hrest.
  - by rewrite Hc, IH.
Qed.

Lemma is_ascii_digit_true c : is_ascii_digit c = true ↔ 48 <= c <= 57.
Proof. unfold is_ascii_digit. rewrite andb_true_iff, !Z.leb_le. done. Qed.
