(* ===== verification/Float64.v ===== *)
(** Python [float]: an IEEE 754 binary64 word, kept as its 64 bits, with the
    arithmetic of the standard library's [SpecFloat]. *)
From S2P Require Import Prelude.
From Stdlib Require Import ZArith.
From Stdlib Require Export Floats.SpecFloat.
Local Open Scope Z_scope.

Definition prec : Z := 53.
Definition emax : Z := 1024.

(** The number a 64-bit word denotes (NaN payloads stay in the word). *)
Definition sf_of_bits (w : Z) : spec_float :=
  let s := Z.testbit w 63 in
  let e := w / 2 ^ 52 mod 2048 in
  let m := w mod 2 ^ 52 in
  if e =? 0 then
    match m with Zpos p => S754_finite s p (-1074) | _ => S754_zero s end
  else if e =? 2047 then (if m =? 0 then S754_infinity s else S754_nan)
  else match m + 2 ^ 52 with Zpos p => S754_finite s p (e - 1075) | _ => S754_nan end.

(** The word of a result of [SpecFloat] arithmetic *)
Definition bits_of_sf (x : spec_float) : Z :=
  let sign (s : bool) := if s then 2 ^ 63 else 0 in
  (match x with
  | S754_zero s => sign s
  | S754_infinity s => sign s + 2047 * 2 ^ 52
  | S754_nan => 0x7FF8000000000000
  | S754_finite s m e =>
      if Zpos m <? 2 ^ 52 then sign s + Zpos m
      else sign s + (e + 1075) * 2 ^ 52 + (Zpos m - 2 ^ 52)
  end) mod 2 ^ 64.

Lemma bits_of_sf_bound x : 0 <= bits_of_sf x < 2 ^ 64.
Proof. apply Z.mod_pos_bound. lia. Qed.

(** [float(z)]: correctly rounded; [OverflowError] beyond the largest float *)
Definition float_of_Z (z : Z) : result Z :=
  match binary_normalize prec emax z 0 false with
  | S754_infinity _ => Err OverflowError
  | x => Ok (bits_of_sf x)
  end.

Definition sf_of_Z_exact (z : Z) : spec_float :=
  match z with
  | Z0 => S754_zero false
  | Zpos p => S754_finite false p 0
  | Zneg p => S754_finite true p 0
  end.

(** The correctly rounded quotient of two integers ([int / int]) *)
Definition true_div (n d : Z) : spec_float :=
  SFdiv prec emax (sf_of_Z_exact n) (sf_of_Z_exact d).

Definition trunc_finite (s : bool) (m : positive) (e : Z) : Z :=
  let a := if 0 <=? e then Zpos m * 2 ^ e else Zpos m / 2 ^ (- e) in
  if s then - a else a.

(** [int(x)]: truncation towards zero *)
Definition int_of_sf (x : spec_float) : result Z :=
  match x with
  | S754_zero _ => Ok 0
  | S754_nan => Err ValueError
  | S754_infinity _ => Err OverflowError
  | S754_finite s m e => Ok (trunc_finite s m e)
  end.
Definition int_of_float (w : Z) : result Z := int_of_sf (sf_of_bits w).

(** [x.is_integer()] *)
Definition is_integer (w : Z) : bool :=
  match sf_of_bits w with
  | S754_zero _ => true
  | S754_finite _ m e => (0 <=? e) || (Zpos m mod 2 ^ (- e) =? 0)
  | _ => false
  end.

Example float_one : float_of_Z 1 = Ok 0x3FF0000000000000.
Proof. vm_compute. reflexivity. Qed.
Example float_third : bits_of_sf (true_div 1 3) = 0x3FD5555555555555.
Proof. vm_compute. reflexivity. Qed.
Example float_big : float_of_Z (2 ^ 53 + 1) = float_of_Z (2 ^ 53).
Proof. vm_compute. reflexivity. Qed.
Example float_neg_half : sf_of_bits 0xBFE0000000000000 = S754_finite true 4503599627370496 (-53).
Proof. vm_compute. reflexivity. Qed.
