(* ===== verification/TypeSys.v ===== *)
(** Component [types/system.py]: the on-disk type tags, the column descriptor
    and the SQL type names; and the Python values that flow through the codec
    and the executor. *)
From S2P Require Import Prelude.
From S2P Require Import Bytes.
From S2P Require Import Utf8.
From S2P Require Import Text.
From Stdlib Require Import ZArith.
Local Open Scope Z_scope.

(** * TypeTag, Column, parse_type_name *)

Inductive TypeTag : Type :=
  | Null | Int | Float | Text | Bool | Date | Time | Datetime | Decimal | Blob | Json.

Global Instance TypeTag_eq_dec : EqDecision TypeTag.
Proof. solve_decision. Defined.

(** [TypeTag.value] *)
Definition tag_value (t : TypeTag) : Z :=
  match t with
  | Null => 0x00 | Int => 0x01 | Float => 0x02 | Text => 0x03 | Bool => 0x04
  | Date => 0x05 | Time => 0x06 | Datetime => 0x07 | Decimal => 0x08
  | Blob => 0x09 | Json => 0x0A
  end.

Definition all_tags : list TypeTag :=
  [Null; Int; Float; Text; Bool; Date; Time; Datetime; Decimal; Blob; Json].

(** [TypeTag(b)]: the member with value [b]; [ValueError] otherwise *)
Definition TypeTag_of (b : Z) : result TypeTag :=
  of_option ValueError (list_find (λ t, tag_value t = b) all_tags ≫= λ p, Some p.2).

Record Column := mkColumn {
  col_name : pystr;
  col_tag : TypeTag;
  col_not_null : bool;
  col_primary_key : bool;
  col_unique : bool;
}.
Global Instance Column_eq_dec : EqDecision Column.
Proof. solve_decision. Defined.

Definition _TYPE_ALIASES : list (pystr * TypeTag) :=
  [ (u "int", Int); (u "integer", Int);
    (u "float", Float); (u "double", Float); (u "real", Float);
    (u "text", Text); (u "varchar", Text);
    (u "bool", Bool); (u "boolean", Bool);
    (u "date", Date); (u "time", Time); (u "datetime", Datetime);
    (u "timestamp", Datetime);
    (u "decimal", Decimal); (u "numeric", Decimal);
    (u "blob", Blob); (u "bytea", Blob);
    (u "json", Json) ].

(** Look-up in an association list with unique keys *)
Fixpoint assoc {V} (k : pystr) (l : list (pystr * V)) : option V :=
  match l with
  | [] => None
  | (k', v) :: l => if decide (k = k') then Some v else assoc k l
  end.

Definition parse_type_name (raw : pystr) : result TypeTag :=
  of_option ValueError (assoc (lower (strip raw)) _TYPE_ALIASES).

Lemma TypeTag_of_value t : TypeTag_of (tag_value t) = Ok t.
Proof. by destruct t. Qed.
Lemma TypeTag_of_inv b t : TypeTag_of b = Ok t → tag_value t = b.
Proof.
  unfold TypeTag_of. destruct (list_find _ _) as [[i t']|] eqn:E; simpl; [|discriminate].
  intros [= <-]. apply list_find_Some in E. naive_solver.
Qed.
Lemma tag_value_bound t : 0 <= tag_value t < 11.
Proof. destruct t; simpl; lia. Qed.

(** * Python values *)

(** [decimal.Decimal]: a sign, coefficient and exponent, or a special value *)
Inductive pydecimal : Type :=
  | DFinite (neg : bool) (coef : Z) (exp : Z)
  | DInfinity (neg : bool)
  | DNaN (neg signalling : bool) (payload : Z).

Inductive pyval : Type :=
  | PyNone
  | PyBool (b : bool)
  | PyInt (z : Z)
  | PyFloat (word : Z)                    (** the 64 bits of the float *)
  | PyStr (s : pystr)
  | PyBytes (b : bytes)
  | PyBytearray (b : bytes)
  | PyDate (ordinal : Z)                  (** [datetime.date], by [toordinal()] *)
  | PyTime (h m s us : Z)                 (** a naive [datetime.time] *)
  | PyDatetime (micros : Z) (utcoff : option Z)
      (** wall-clock microseconds since 1970-01-01T00:00, and the offset from
          UTC in microseconds of an aware [datetime.datetime] *)
  | PyDecimal (d : pydecimal)
  | PyList (l : list pyval)
  | PyTuple (l : list pyval)
  | PyDict (l : list (pyval * pyval))
  | PySet (l : list pyval)
  | PyTypedLiteral (t : TypeTag) (v : pyval)  (** an AST node kept in VALUES *).
