(* ===== verification/Codec.v ===== *)
(** Component [types/codec.py]: the on-disk value and row codec. *)
From S2P Require Import Prelude.
From S2P Require Import Bytes.
From S2P Require Import Utf8.
From S2P Require Import Text.
From S2P Require Import Float64.
From S2P Require Import TypeSys.
From Stdlib Require Import ZArith.
Local Open Scope Z_scope.

(** The [json] module, as far as the codec relies on it: compact [dumps] with
    [ensure_ascii=False], [loads], and the value [loads] gives back for what
    [dumps] accepted (tuples come back as lists, keys as strings). *)
Class JsonLib := {
  json_dumps : pyval → result pystr;
  json_loads : pystr → result pyval;
  json_norm : pyval → pyval;
}.
Class JsonLaws `{JsonLib} : Prop := {
  json_loads_dumps v s : json_dumps v = Ok s → json_loads s = Ok (json_norm v);
  json_loads_null : json_loads (u "null") = Ok PyNone;
}.

(** * Decimal text *)

Definition zeros (n : Z) : pystr := zreplicate n 48.

(** [format(d, "f")] *)
Definition decimal_format_f (d : pydecimal) : pystr :=
  match d with
  | DFinite neg coef exp =>
      let exp := if (coef =? 0) && (0 <? exp) then 0 else exp in
      let ds := digits coef in
      let dotplace := exp + zlen ds in
      let '(ip, fp) :=
        if dotplace <? 0 then ([48], zeros (- dotplace) ++ ds)
        else if zlen ds <? dotplace then (ds ++ zeros (dotplace - zlen ds), [])
        else (match ztake dotplace ds with [] => [48] | l => l end, zdrop dotplace ds) in
      (if neg : bool then [45] else []) ++ ip ++
      match fp with [] => [] | _ => 46 :: fp end
  | DInfinity neg => (if neg : bool then [45] else []) ++ u "Infinity"
  | DNaN neg sig payload =>
      (if neg : bool then [45] else []) ++ (if sig : bool then u "sNaN" else u "NaN") ++
      (if 0 <? payload then digits payload else [])
  end.

Definition parse_sign (s : pystr) : bool * pystr :=
  match s with
  | c :: s' => if c =? 45 then (true, s') else if c =? 43 then (false, s') else (false, s)
  | [] => (false, [])
  end.

(** An optional exponent, up to the end of the text *)
Definition parse_exponent (s : pystr) : option Z :=
  match s with
  | [] => Some 0
  | c :: s =>
      if (c =? 101) || (c =? 69) then
        let '(neg, s) := parse_sign s in
        let '(ds, rest) := span_digits s in
        match ds, rest with
        | _ :: _, [] => Some (if neg : bool then - digits_val ds else digits_val ds)
        | _, _ => None
        end
      else None
  end.

Definition parse_payload (s : pystr) : option Z :=
  match span_digits s with (ds, []) => Some (digits_val ds) | _ => None end.

(** [Decimal(text)], on ASCII text; [decimal.InvalidOperation] otherwise *)
Definition decimal_of_text (s : pystr) : result pydecimal :=
  let s := filter (λ c, c ≠ 95) (strip s) in
  let '(neg, s) := parse_sign s in
  let l := lower s in
  if decide (l = u "inf" ∨ l = u "infinity") then Ok (DInfinity neg)
  else if decide (take 3 l = u "nan") then
    of_option DecimalError (DNaN neg false <$> parse_payload (drop 3 s))
  else if decide (take 4 l = u "snan") then
    of_option DecimalError (DNaN neg true <$> parse_payload (drop 4 s))
  else
    let '(ip, s) := span_digits s in
    let '(fp, s) := match s with
                    | c :: s' => if c =? 46 then span_digits s' else ([], s)
                    | [] => ([], []) end in
    match ip ++ fp with
    | [] => Err DecimalError
    | ds => of_option DecimalError
              ((λ e, DFinite neg (digits_val ds) (e - zlen fp)) <$> parse_exponent s)
    end.

(** [float(d)] of a decimal *)
Definition float_of_decimal (d : pydecimal) : result Z :=
  match d with
  | DFinite neg coef exp =>
      let x := if 0 <=? exp then binary_normalize prec emax (coef * 10 ^ exp) 0 false
               else true_div coef (10 ^ (- exp)) in
      Ok (bits_of_sf (if neg : bool then SFopp x else x))
  | DInfinity neg => Ok (bits_of_sf (S754_infinity neg))
  | DNaN _ true _ => Err ValueError
  | DNaN _ false _ => Ok (bits_of_sf S754_nan)
  end.

(** * Dates and times *)

(** [datetime.date(1970, 1, 1).toordinal()], and the range of ordinals *)
Definition EPOCH_ORDINAL : Z := 719163.
Definition MAX_ORDINAL : Z := 3652059.
(** Microseconds of [datetime.min] and [datetime.max] since the epoch *)
Definition MIN_MICROS : Z := -62135596800000000.
Definition MAX_MICROS : Z := 253402300799999999.

Definition in_micros_range (us : Z) : bool := (MIN_MICROS <=? us) && (us <=? MAX_MICROS).

(** [int(delta.total_seconds() * 1_000_000)]: a correctly rounded division,
    a float multiplication and a truncation *)
Definition total_seconds_micros (us : Z) : result Z :=
  int_of_sf (SFmul prec emax (true_div us 1000000)
                   (binary_normalize prec emax 1000000 0 false)).

(** * value_size, encode_value *)

Section Codec.
Context `{JsonLib}.

Definition _TAG_SIZE : Z := 1.
Definition _LEN_SIZE : Z := 4.

Definition _check_int_range (v : pyval) : result unit :=
  match v with
  | PyInt z => if (z <? - 2 ^ 63) || (2 ^ 63 - 1 <? z) then Err OverflowError else Ok ()
  | _ => Err CodecError
  end.

Definition utf8_len (s : pystr) : result Z := zlen <$> utf8_encode s.

Definition value_size (v : pyval) (t : TypeTag) : result Z :=
  match t, v with
  | Null, PyNone => Ok _TAG_SIZE
  | Null, _ => Err CodecError
  | Json, PyNone => Ok (_TAG_SIZE + _LEN_SIZE + zlen (u "null"))
  | _, PyNone => Err CodecError
  | Int, _ => _ ← _check_int_range v; Ok (_TAG_SIZE + 8)
  | Float, _ => Ok (_TAG_SIZE + 8)
  | Bool, PyBool _ => Ok (_TAG_SIZE + 1)
  | Date, (PyDate _ | PyDatetime _ _) => Ok (_TAG_SIZE + 4)
  | Time, PyTime _ _ _ _ => Ok (_TAG_SIZE + 8)
  | Datetime, PyDatetime _ _ => Ok (_TAG_SIZE + 8)
  | Text, PyStr s => n ← utf8_len s; Ok (_TAG_SIZE + _LEN_SIZE + n)
  | Decimal, PyDecimal d =>
      n ← utf8_len (decimal_format_f d); Ok (_TAG_SIZE + _LEN_SIZE + n)
  | Blob, (PyBytes b | PyBytearray b) => Ok (_TAG_SIZE + _LEN_SIZE + zlen b)
  | Json, _ => s ← json_dumps v; n ← utf8_len s; Ok (_TAG_SIZE + _LEN_SIZE + n)
  | _, _ => Err CodecError
  end.

Definition tag_byte (t : TypeTag) : byte := byte_of_Z (tag_value t).

(** The argument conversion of [struct.pack("<d", v)] *)
Definition float_arg (v : pyval) : result Z :=
  let r := match v with
           | PyFloat w => Ok w
           | PyInt z => float_of_Z z
           | PyBool b => float_of_Z (Z.b2z b)
           | PyDecimal d => float_of_decimal d
           | _ => Err TypeError
           end in
  match r with Ok w => Ok w | Err _ => Err StructError end.

(** The length-prefixed payload [struct.pack("<I", len(p)) + p] *)
Definition with_len (p : bytes) : result bytes :=
  l ← pack_ule 4 (zlen p); Ok (l ++ p).

Definition days_of (v : pyval) : result Z :=
  match v with PyDate o => Ok (o - EPOCH_ORDINAL) | _ => Err TypeError end.

Definition time_micros (h m s us : Z) : Z := (h * 3600 + m * 60 + s) * 1000000 + us.

(** The naive UTC wall clock of a datetime *)
Definition utc_micros (us : Z) (off : option Z) : result Z :=
  match off with
  | None => Ok us
  | Some o => if in_micros_range (us - o) then Ok (us - o) else Err OverflowError
  end.

Definition encode_payload (v : pyval) (t : TypeTag) : result bytes :=
  match t, v with
  | Null, _ => Ok []
  | Int, PyInt z => pack_sle 8 z
  | Float, _ => w ← float_arg v; Ok (le_bytes 8 w)
  | Bool, PyBool b => Ok [if b then x01 else x00]
  | Date, _ => d ← days_of v; pack_sle 4 d
  | Time, PyTime h m s us => pack_ule 8 (time_micros h m s us)
  | Datetime, PyDatetime us off =>
      n ← utc_micros us off; us' ← total_seconds_micros n; pack_sle 8 us'
  | Text, PyStr s => p ← utf8_encode s; with_len p
  | Decimal, PyDecimal d => p ← utf8_encode (decimal_format_f d); with_len p
  | Blob, (PyBytes b | PyBytearray b) => with_len b
  | Json, PyNone => p ← utf8_encode (u "null"); with_len p
  | Json, _ => s ← json_dumps v; p ← utf8_encode s; with_len p
  | _, _ => Err CodecError
  end.

Definition encode_value (v : pyval) (t : TypeTag) : result bytes :=
  _ ← value_size v t; p ← encode_payload v t; Ok (tag_byte t :: p).

(** * decode_value *)

(** A length-prefixed field at [off]: its bytes (a slice, possibly short) and
    the offset after it *)
Definition read_len (buf : bytes) (off : Z) : result (bytes * Z) :=
  n ← unpack_ule 4 buf off;
  let off := off + _LEN_SIZE in Ok (slice buf off (off + n), off + n).

Definition time_of_micros (us : Z) : result pyval :=
  let seconds := us / 1000000 in
  let minutes := seconds / 60 in
  let hours := minutes / 60 in
  if hours <? 24
  then Ok (PyTime hours (minutes mod 60) (seconds mod 60) (us mod 1000000))
  else Err ValueError.

(** [decode_value] after the tag byte: one branch per tag *)
Definition decode_payload (t : TypeTag) (buf : bytes) (offset : Z) : result (pyval * Z) :=
  match t with
  | Null => Ok (PyNone, offset)
  | Int => z ← unpack_sle 8 buf offset; Ok (PyInt z, offset + 8)
  | Float => w ← unpack_ule 8 buf offset; Ok (PyFloat w, offset + 8)
  | Bool => b ← byte_at buf offset; Ok (PyBool (negb (b =? 0)), offset + 1)
  | Date =>
      d ← unpack_sle 4 buf offset;
      let o := EPOCH_ORDINAL + d in
      if (1 <=? o) && (o <=? MAX_ORDINAL) then Ok (PyDate o, offset + 4)
      else Err OverflowError
  | Time => us ← unpack_ule 8 buf offset; v ← time_of_micros us; Ok (v, offset + 8)
  | Datetime =>
      us ← unpack_sle 8 buf offset;
      if in_micros_range us then Ok (PyDatetime us None, offset + 8) else Err OverflowError
  | Text => '(p, o) ← read_len buf offset; s ← utf8_decode p; Ok (PyStr s, o)
  | Decimal =>
      '(p, o) ← read_len buf offset; s ← utf8_decode p;
      d ← decimal_of_text s; Ok (PyDecimal d, o)
  | Blob => '(p, o) ← read_len buf offset; Ok (PyBytes p, o)
  | Json =>
      '(p, o) ← read_len buf offset; s ← utf8_decode p; v ← json_loads s; Ok (v, o)
  end.

Definition decode_value (buf : bytes) (offset : Z) : result (pyval * Z) :=
  if zlen buf <=? offset then Err ValueError else
  tb ← byte_at buf offset;
  t ← TypeTag_of tb;
  decode_payload t buf (offset + 1).

(** * Rows *)

Fixpoint encode_fields (vts : list (pyval * TypeTag)) : result bytes :=
  match vts with
  | [] => Ok []
  | (v, t) :: vts => b ← encode_value v t; r ← encode_fields vts; Ok (b ++ r)
  end.

Definition encode_row (values : list pyval) (tags : list TypeTag) : result bytes :=
  if negb (zlen values =? zlen tags) then Err ValueError
  else encode_fields (zip values tags).

Fixpoint decode_fields (blob : bytes) (offset : Z) (tags : list TypeTag)
  : result (list pyval * Z) :=
  match tags with
  | [] => Ok ([], offset)
  | _ :: tags =>
      '(v, offset) ← decode_value blob offset;
      '(vs, offset) ← decode_fields blob offset tags;
      Ok (v :: vs, offset)
  end.

Definition decode_row (blob : bytes) (tags : list TypeTag) : result (list pyval) :=
  '(vs, offset) ← decode_fields blob 0 tags;
  if negb (offset =? zlen blob) then Err ValueError else Ok vs.

End Codec.

(** * The text of a decimal is read back *)

(** The decimal that [Decimal(format(d, "f"))] gives: positive exponents are
    written out as zeros. *)
Definition decimal_fixed (d : pydecimal) : pydecimal :=
  match d with
  | DFinite neg coef exp =>
      if 0 <? exp then DFinite neg (coef * 10 ^ exp) 0 else DFinite neg coef exp
  | _ => d
  end.

Definition wf_decimal (d : pydecimal) : bool :=
  match d with
  | DFinite _ coef _ => 0 <=? coef
  | DInfinity _ => true
  | DNaN _ _ payload => 0 <=? payload
  end.

Abbreviation all_digits s := (Forall (λ c, is_ascii_digit c = true) s).

Lemma all_digits_plain s :
  all_digits s → Forall (λ c, 45 <= c <= 57) s.
Proof. intros H. eapply Forall_impl; [exact H|]. intros c. simpl. rewrite is_ascii_digit_true. lia. Qed.

Lemma plain_text s :
  Forall (λ c, 45 <= c <= 57) s →
  filter (λ c, c ≠ 95) (strip s) = s ∧ lower s = s.
Proof.
  intros Hs. split.
  - rewrite strip_nospace.
    + induction Hs as [|c s Hc _ IH]; [done|]. rewrite filter_cons_True by lia. by rewrite IH.
    + eapply Forall_impl; [exact Hs|]. intros c Hc. simpl in *. unfold py_isspace.
      repeat (rewrite orb_false_iff || rewrite andb_false_iff || rewrite Z.leb_gt || rewrite Z.eqb_neq). lia.
  - induction Hs as [|c s Hc _ IH]; [done|]. unfold lower in *. simpl. rewrite IH.
    unfold lower1. destruct (Z.leb_spec 65 c); [lia|done].
Qed.

Lemma zeros_digits n : all_digits (zeros n).
Proof. unfold zeros, zreplicate. by apply Forall_replicate. Qed.

Lemma decimal_format_parts (neg : bool) coef exp :
  0 <= coef → ∃ ip fp,
    decimal_format_f (DFinite neg coef exp) =
      (if neg then [45] else []) ++ ip ++ match fp with [] => [] | _ => 46 :: fp end ∧
    all_digits ip ∧ all_digits fp ∧ ip ≠ [] ∧
    DFinite neg (digits_val (ip ++ fp)) (- zlen fp) = decimal_fixed (DFinite neg coef exp).
Proof.
  intros Hc. pose proof (digits_ascii coef Hc) as Hd. pose proof (digits_nonempty coef) as Hne.
  pose proof (digits_val_digits coef Hc) as Hv. unfold decimal_format_f, decimal_fixed.
  assert (0 < zlen (digits coef)) as Hl.
  { destruct (digits coef); [done|]. rewrite zlen_cons. pose proof (zlen_nonneg l). lia. }
  remember (if (coef =? 0) && (0 <? exp) then 0 else exp) as exp' eqn:He.
  assert ((coef = 0 ∧ 0 < exp ∧ exp' = 0) ∨ exp' = exp) as Hexp.
  { destruct (Z.eqb_spec coef 0), (Z.ltb_spec 0 exp); simpl in He; lia. }
  clear He. destruct (Z.ltb_spec (exp' + zlen (digits coef)) 0).
  - eexists _, _. split; [reflexivity|]. split_and!; [by repeat constructor| |done|].
    + apply Forall_app. split; [apply zeros_digits|done].
    + destruct (Z.ltb_spec 0 exp); [lia|]. rewrite zlen_app.
      assert (exp' = exp) as -> by lia. unfold zeros. rewrite zlen_replicate by lia.
      change ([48] ++ ?x) with (replicate 1 48 ++ x). rewrite digits_val_zeros.
      unfold zreplicate. rewrite digits_val_zeros, Hv. f_equal. lia.
  - destruct (Z.ltb_spec (zlen (digits coef)) (exp' + zlen (digits coef))).
    + eexists _, []. split; [reflexivity|]. split_and!; [|done| |].
      * apply Forall_app. split; [done|apply zeros_digits].
      * destruct (digits coef); done.
      * rewrite app_nil_r. unfold zeros, zreplicate. rewrite digits_val_app_zeros, Hv.
        rewrite Z2Nat.id by lia. destruct (Z.ltb_spec 0 exp); [|lia].
        replace exp with exp' by lia. f_equal. f_equal. f_equal. lia.
    + eexists _, _. split; [reflexivity|].
      pose proof (ztake_zdrop (exp' + zlen (digits coef)) (digits coef)) as Hs.
      split_and!.
      * destruct (ztake _ _) eqn:E; [by repeat constructor|]. rewrite <-E. by apply Forall_take.
      * by apply Forall_drop.
      * by destruct (ztake _ _).
      * assert (exp' <= 0) by lia.
        assert (digits_val ((match ztake (exp' + zlen (digits coef)) (digits coef) with
           [] => [48] | l => l end) ++ zdrop (exp' + zlen (digits coef)) (digits coef)) = coef) as ->.
        { destruct (ztake _ _) eqn:E; rewrite ?E in *; [|by rewrite Hs].
          change ([48] ++ ?x) with (replicate 1 48 ++ x). rewrite digits_val_zeros.
          simpl in Hs. by rewrite Hs. }
        rewrite zlen_zdrop by lia. destruct (Z.ltb_spec 0 exp).
        -- destruct Hexp as [(-> & _ & ->)|]; [|lia]. f_equal; lia.
        -- f_equal. lia.
Qed.

Lemma decimal_of_parts (neg : bool) (ip fp : pystr) :
  all_digits ip → all_digits fp → ip ≠ [] →
  decimal_of_text ((if neg then [45] else []) ++ ip ++ match fp with [] => [] | _ => 46 :: fp end)
  = Ok (DFinite neg (digits_val (ip ++ fp)) (- zlen fp)).
Proof.
  intros Hip Hfp Hne. set (frac := match fp with [] => [] | _ => 46 :: fp end).
  assert (Forall (λ c, 45 <= c <= 57) (ip ++ frac)) as Hpl.
  { apply Forall_app. split; [by apply all_digits_plain|]. unfold frac.
    destruct fp; [constructor|]. constructor; [lia|]. by apply all_digits_plain. }
  unfold decimal_of_text.
  destruct (plain_text ((if neg then [45] else []) ++ ip ++ frac)) as [-> _].
  { destruct neg; simpl app; [constructor; [lia|done]|done]. }
  assert (parse_sign ((if neg then [45] else []) ++ ip ++ frac) = (neg, ip ++ frac)) as ->.
  { destruct neg; [done|]. destruct ip as [|c ip]; [done|]. apply Forall_cons in Hip as [Hc _].
    apply is_ascii_digit_true in Hc. simpl.
    destruct (Z.eqb_spec c 45), (Z.eqb_spec c 43); try done; lia. }
  destruct (plain_text _ Hpl) as [_ ->]. destruct ip as [|c ip]; [done|].
  assert (48 <= c <= 57) as Hc. { apply Forall_cons in Hip as [Hc _]. by apply is_ascii_digit_true. }
  rewrite !decide_False.
  2-4: first [ intros [H|H] | intros H ]; vm_compute in H; congruence || (injection H; lia) || idtac.
  rewrite span_digits_app; [|done|unfold frac; by destruct fp].
  assert (match frac with c :: s' => if c =? 46 then span_digits s' else ([], frac) | [] => ([], []) end
          = (fp, [])) as ->.
  { unfold frac. destruct fp as [|d fp]; [done|]. change (46 =? 46) with true. cbv iota.
    rewrite <-(app_nil_r (d :: fp)) at 1. by apply span_digits_app. }
  simpl. done.
Qed.

Lemma word_text s :
  Forall (λ c, 45 <= c <= 122 ∧ c ≠ 95) s → filter (λ c, c ≠ 95) (strip s) = s.
Proof.
  intros Hs. rewrite strip_nospace.
  - induction Hs as [|c s Hc _ IH]; [done|]. rewrite filter_cons_True by lia. by rewrite IH.
  - eapply Forall_impl; [exact Hs|]. intros c Hc. simpl in *. unfold py_isspace.
    repeat (rewrite orb_false_iff || rewrite andb_false_iff || rewrite Z.leb_gt || rewrite Z.eqb_neq). lia.
Qed.

Lemma parse_payload_digits n :
  0 <= n → parse_payload (if 0 <? n then digits n else []) = Some n.
Proof.
  intros Hn. unfold parse_payload. destruct (Z.ltb_spec 0 n).
  - rewrite <-(app_nil_r (digits n)). rewrite span_digits_app; [|by apply digits_ascii|done].
    by rewrite digits_val_digits.
  - simpl. f_equal. unfold digits_val. simpl. lia.
Qed.

Lemma decimal_of_format d :
  wf_decimal d = true → decimal_of_text (decimal_format_f d) = Ok (decimal_fixed d).
Proof.
  destruct d as [neg coef exp|neg|neg sig n]; simpl wf_decimal.
  - intros Hc%Z.leb_le. destruct (decimal_format_parts neg coef exp Hc)
      as (ip & fp & -> & Hip & Hfp & Hne & <-). by apply decimal_of_parts.
  - intros _. destruct neg; vm_compute; reflexivity.
  - intros Hn%Z.leb_le. simpl decimal_format_f.
    remember (if 0 <? n then digits n else []) as ds eqn:Hds.
    assert (all_digits ds) as Hd.
    { subst ds. destruct (0 <? n); [by apply digits_ascii|constructor]. }
    assert (lower ds = ds) as Hlow by (by apply plain_text, all_digits_plain).
    assert (parse_payload ds = Some n) as Hp by (subst ds; by apply parse_payload_digits).
    unfold decimal_of_text. rewrite word_text.
    2: { rewrite !Forall_app. split_and!.
         - destruct neg; repeat constructor; lia.
         - destruct sig; repeat constructor; simpl; lia.
         - eapply Forall_impl; [exact (all_digits_plain _ Hd)|]. simpl. lia. }
    assert (∀ x, parse_sign ((if neg then [45] else []) ++ (if sig then u "sNaN" else u "NaN") ++ x)
      = (neg, (if sig then u "sNaN" else u "NaN") ++ x)) as ->.
    { intros x. by destruct neg, sig. }
    destruct sig; simpl u; simpl app; simpl lower; unfold lower in *; simpl map; rewrite Hlow.
    + rewrite !decide_False by (intros H; vm_compute in H; discriminate || (destruct H; discriminate)).
      rewrite decide_True by reflexivity. simpl drop. by rewrite drop_0, Hp.
    + rewrite decide_False by (intros H; vm_compute in H; discriminate || (destruct H; discriminate)).
      rewrite decide_True by reflexivity. simpl drop. by rewrite drop_0, Hp.
Qed.

(** * Round trips *)

Section RoundTrip.
Context `{JsonLaws}.

(** The value that comes back for [v] stored under [t]: numbers become floats
    in a FLOAT column, decimals are written without exponent, mutable buffers
    come back immutable, aware datetimes come back as naive UTC. *)
Definition canon (v : pyval) (t : TypeTag) : pyval :=
  match t, v with
  | Float, _ => match float_arg v with Ok w => PyFloat w | Err _ => v end
  | Decimal, PyDecimal d => PyDecimal (decimal_fixed d)
  | Blob, PyBytearray b => PyBytes b
  | Datetime, PyDatetime us off =>
      match utc_micros us off with Ok n => PyDatetime n None | Err _ => v end
  | Json, PyNone => PyNone
  | Json, _ => json_norm v
  | _, _ => v
  end.

(** The values Python can build *)
Definition wf_value (v : pyval) : bool :=
  match v with
  | PyFloat w => fits_u 8 w
  | PyDate o => (1 <=? o) && (o <=? MAX_ORDINAL)
  | PyTime h m s us =>
      ((0 <=? h) && (h <? 24)) && ((0 <=? m) && (m <? 60)) &&
      ((0 <=? s) && (s <? 60)) && ((0 <=? us) && (us <? 1000000))
  | PyDatetime us _ => in_micros_range us
  | PyDecimal d => wf_decimal d
  | _ => true
  end.

(** The datetimes whose microseconds survive the float arithmetic of the
    encoder *)
Definition storable (v : pyval) (t : TypeTag) : Prop :=
  match t, v with
  | Datetime, PyDatetime us off =>
      ∀ n, utc_micros us off = Ok n → total_seconds_micros n = Ok n
  | _, _ => True
  end.

Lemma float_of_Z_bound z w : float_of_Z z = Ok w → 0 <= w < 2 ^ 64.
Proof.
  unfold float_of_Z. destruct (binary_normalize _ _ _ _ _); intros [= <-]; apply bits_of_sf_bound.
Qed.

Lemma float_arg_bound v w : wf_value v = true → float_arg v = Ok w → 0 <= w < 2 ^ 64.
Proof.
  unfold float_arg. destruct v; simpl; try discriminate.
  - intros _. destruct (float_of_Z _) eqn:E; intros [= <-]. by apply float_of_Z_bound in E.
  - intros _. destruct (float_of_Z _) eqn:E; intros [= <-]. by apply float_of_Z_bound in E.
  - intros Hw [= <-]. by apply fits_u_true in Hw.
  - intros _. destruct d as [| |? []]; simpl; try discriminate;
      intros [= <-]; apply bits_of_sf_bound.
Qed.

Lemma with_len_inv p d :
  with_len p = Ok d → d = le_bytes 4 (zlen p) ++ p ∧ 0 <= zlen p < 2 ^ (8 * Z.of_nat 4).
Proof.
  unfold with_len. intros H1. inv_ok. apply pack_ule_Ok_inv in Hok as [-> ?]. done.
Qed.

Lemma read_len_middle pre p post off :
  off = zlen pre → 0 <= zlen p < 2 ^ (8 * Z.of_nat 4) →
  read_len (pre ++ (le_bytes 4 (zlen p) ++ p) ++ post) off
  = Ok (p, zlen pre + zlen (le_bytes 4 (zlen p) ++ p)).
Proof.
  intros -> Hp. unfold read_len. rewrite <-!app_assoc. rewrite unpack_ule_middle by done. rewrite bind_Ok. cbv zeta.
  unfold _LEN_SIZE. rewrite zlen_app, zlen_le_bytes, app_assoc.
  rewrite (slice_middle (pre ++ _) p) by (rewrite zlen_app, zlen_le_bytes; lia).
  do 2 f_equal. lia.
Qed.

Lemma byte_at_middle pre b post off :
  off = zlen pre → byte_at (pre ++ b :: post) off = Ok (Z_of_byte b).
Proof.
  intros ->. unfold byte_at, znth, zlen. destruct (Z.ltb_spec (Z.of_nat (length pre)) 0); [lia|].
  rewrite Nat2Z.id, lookup_app_r, Nat.sub_diag by lia. done.
Qed.

Lemma encode_value_inv v t bs :
  encode_value v t = Ok bs →
  ∃ n p, value_size v t = Ok n ∧ encode_payload v t = Ok p ∧ bs = tag_byte t :: p.
Proof. unfold encode_value. intros H1. inv_ok. eauto. Qed.

Lemma Z_of_tag_byte t : Z_of_byte (tag_byte t) = tag_value t.
Proof. by destruct t. Qed.

Lemma time_of_time_micros h m s us :
  wf_value (PyTime h m s us) = true →
  0 <= time_micros h m s us < 2 ^ (8 * Z.of_nat 8) ∧
  time_of_micros (time_micros h m s us) = Ok (PyTime h m s us).
Proof.
  unfold wf_value. intros Hw. bool_to_prop. unfold time_micros, time_of_micros. split; [lia|].
  assert (((h * 3600 + m * 60 + s) * 1000000 + us) / 1000000 = h * 3600 + m * 60 + s) as ->
    by (Z.to_euclidean_division_equations; lia).
  assert ((h * 3600 + m * 60 + s) / 60 = h * 60 + m) as -> by (Z.to_euclidean_division_equations; lia).
  assert ((h * 60 + m) / 60 = h) as -> by (Z.to_euclidean_division_equations; lia).
  destruct (Z.ltb_spec h 24); [|lia]. do 2 f_equal; Z.to_euclidean_division_equations; lia.
Qed.

Lemma decode_value_tag pre t post off :
  off = zlen pre →
  decode_value (pre ++ tag_byte t :: post) off
  = decode_payload t ((pre ++ [tag_byte t]) ++ post) (zlen (pre ++ [tag_byte t])).
Proof.
  intros ->. unfold decode_value. pose proof (zlen_nonneg post).
  rewrite (proj2 (Z.leb_gt _ _)) by (rewrite zlen_app, zlen_cons; lia).
  rewrite byte_at_middle by done. rewrite bind_Ok, Z_of_tag_byte, TypeTag_of_value, bind_Ok.
  rewrite <-app_assoc, zlen_app, zlen_cons, zlen_nil. simpl app.
  replace (1 + 0) with 1 by lia. reflexivity.
Qed.

Lemma utc_micros_range us off n :
  in_micros_range us = true → utc_micros us off = Ok n → in_micros_range n = true.
Proof.
  unfold utc_micros. intros Hr Hu. destruct off as [o|]; [|by injection Hu as <-].
  destruct (in_micros_range (us - o)) eqn:E; [|discriminate]. by injection Hu as <-.
Qed.

(** A packed length-prefixed text is read back by [read_len] and the decoder *)
Lemma decode_payload_len t p d s pre post v :
  with_len p = Ok d → utf8_encode s = Ok p →
  (t = Text ∧ v = PyStr s ∨
   t = Decimal ∧ (∃ x, decimal_of_text s = Ok x ∧ v = PyDecimal x) ∨
   t = Json ∧ json_loads s = Ok v) →
  decode_payload t (pre ++ d ++ post) (zlen pre) = Ok (v, zlen pre + zlen d).
Proof.
  intros Hd Hs Hcase. apply with_len_inv in Hd as [-> Hp].
  apply utf8_decode_encode in Hs.
  destruct Hcase as [[-> ->]|[[-> (x & Hx & ->)]|[-> Hv]]]; unfold decode_payload;
    rewrite read_len_middle by done; simpl; rewrite Hs; simpl; rewrite ?Hx, ?Hv; done.
Qed.

Lemma decode_payload_encode v t p pre post :
  wf_value v = true → storable v t → is_ok (value_size v t) = true →
  encode_payload v t = Ok p →
  decode_payload t (pre ++ p ++ post) (zlen pre) = Ok (canon v t, zlen pre + zlen p).
Proof.
  intros Hwf Hst Hsz Hp. destruct t; simpl in Hp.
  - injection Hp as <-. destruct v; try discriminate. simpl. do 2 f_equal. rewrite zlen_nil. lia.
  - destruct v; try discriminate. apply pack_sle_Ok_inv in Hp as [-> Hb]. unfold decode_payload.
    rewrite unpack_sle_middle by (done || lia). by rewrite zlen_le_bytes.
  - inv_ok. apply float_arg_bound in Hok as Hb; [|done]. unfold decode_payload.
    rewrite unpack_ule_middle by done. unfold canon. rewrite Hok. by rewrite zlen_le_bytes.
  - destruct v; try discriminate. inv_ok. eapply decode_payload_len; eauto.
  - destruct v; try discriminate. injection Hp as <-. unfold decode_payload. simpl app. rewrite byte_at_middle by done.
    by destruct b.
  - inv_ok. destruct v; try discriminate; simpl in Hok, Hwf. injection Hok as <-.
    unfold decode_payload.
    apply pack_sle_Ok_inv in Hp as [-> Hb].
    rewrite unpack_sle_middle by (done || lia). rewrite bind_Ok.
    replace (EPOCH_ORDINAL + (ordinal - EPOCH_ORDINAL)) with ordinal by lia.
    rewrite Hwf. by rewrite zlen_le_bytes.
  - destruct v; try discriminate. destruct (time_of_time_micros _ _ _ _ Hwf) as [Hb Ht].
    apply pack_ule_Ok_inv in Hp as [-> _]. unfold decode_payload.
    rewrite unpack_ule_middle by done. rewrite bind_Ok, Ht, bind_Ok. by rewrite zlen_le_bytes.
  - destruct v; try discriminate. inv_ok. simpl in Hst, Hwf. pose proof (Hst _ Hok) as Hn.
    rewrite Hn in Hok0. injection Hok0 as <-. apply pack_sle_Ok_inv in Hp as [-> Hb].
    unfold decode_payload. rewrite unpack_sle_middle by (done || lia). rewrite bind_Ok.
    rewrite (utc_micros_range _ _ _ Hwf Hok). simpl canon. rewrite Hok. by rewrite zlen_le_bytes.
  - destruct v; try discriminate. inv_ok. eapply decode_payload_len; eauto.
    right; left. split; [done|]. eexists. split; [by apply decimal_of_format|done].
  - assert (∃ b, with_len b = Ok p ∧ canon v Blob = PyBytes b) as (b & Hb & ->).
    { destruct v; try discriminate; eauto. }
    apply with_len_inv in Hb as [-> Hb]. unfold decode_payload.
    by rewrite read_len_middle by done.
  - assert (∃ s q, utf8_encode s = Ok q ∧ with_len q = Ok p ∧
              json_loads s = Ok (canon v Json)) as (s & q & Hq & Hl & Hv).
    { destruct v; [exists (u "null"), [x6e; x75; x6c; x6c]; split_and!; [done|exact Hp|apply json_loads_null]|..];
        inv_ok; (eexists _, _; split_and!; [eassumption|eassumption|by apply json_loads_dumps]). }
    eapply decode_payload_len; [exact Hl|exact Hq|]. by do 2 right.
Qed.

Lemma decode_value_middle v t bs pre post :
  wf_value v = true → storable v t → encode_value v t = Ok bs →
  decode_value (pre ++ bs ++ post) (zlen pre) = Ok (canon v t, zlen pre + zlen bs).
Proof.
  intros Hwf Hst Hbs. apply encode_value_inv in Hbs as (n & p & Hn & Hp & ->).
  simpl app. rewrite decode_value_tag by done.
  rewrite (decode_payload_encode v t p) by (rewrite ?Hn; done).
  do 2 f_equal. rewrite zlen_app, !zlen_cons, zlen_nil. lia.
Qed.

Lemma encode_payload_size v t n p :
  value_size v t = Ok n → encode_payload v t = Ok p → n = 1 + zlen p.
Proof.
  assert (∀ q d, with_len q = Ok d → zlen d = 4 + zlen q) as Hlen.
  { intros q d Hd. apply with_len_inv in Hd as [-> _]. by rewrite zlen_app, zlen_le_bytes. }
  assert (∀ k z d, pack_sle k z = Ok d → zlen d = Z.of_nat k) as Hs.
  { intros k z d Hd. apply pack_sle_Ok_inv in Hd as [-> _]. apply zlen_le_bytes. }
  assert (∀ k z d, pack_ule k z = Ok d → zlen d = Z.of_nat k) as Hu.
  { intros k z d Hd. apply pack_ule_Ok_inv in Hd as [-> _]. apply zlen_le_bytes. }
  unfold value_size, encode_payload, utf8_len, _TAG_SIZE, _LEN_SIZE.
  intros Hn Hp. destruct t, v; try discriminate; inv_ok;
    repeat match goal with
    | H : fmap _ _ = Ok _ |- _ => destruct (utf8_encode _) eqn:?; [|discriminate]; simpl in H
    | H : Ok _ = Ok _ |- _ => injection H as H; try subst
    | H : context [if _ then Err _ else _] |- _ => destruct (_ || _); [discriminate|]
    end; inv_ok; rewrite ?zlen_le_bytes; try reflexivity;
    repeat match goal with
    | H : with_len _ = Ok _ |- _ => apply Hlen in H
    | H : pack_sle _ _ = Ok _ |- _ => apply Hs in H
    | H : pack_ule _ _ = Ok _ |- _ => apply Hu in H
    | H : utf8_encode (u "null") = Ok _ |- _ => injection H as <-
    end; same_ok; rewrite ?zlen_cons, ?zlen_nil in *; lia.
Qed.

(** [value_size] announces the exact number of bytes [encode_value]
    produces. *)
Theorem value_size_encode_value v t bs :
  encode_value v t = Ok bs → value_size v t = Ok (zlen bs).
Proof.
  intros Hbs. apply encode_value_inv in Hbs as (n & p & Hn & Hp & ->).
  rewrite zlen_cons. rewrite Hn. f_equal. by eapply encode_payload_size.
Qed.

(** a value the encoder accepts is read back, wherever it lies in a
    buffer, as its canonical form, and the offset returned is the end of its
    bytes. *)
Theorem decode_value_encode_value v t bs pre post :
  wf_value v = true → storable v t → encode_value v t = Ok bs →
  decode_value (pre ++ bs ++ post) (zlen pre) = Ok (canon v t, zlen pre + zlen bs).
Proof. apply decode_value_middle. Qed.

Definition row_ok (values : list pyval) (tags : list TypeTag) : Prop :=
  Forall2 (λ v t, wf_value v = true ∧ storable v t) values tags.

Lemma decode_fields_encode vs ts bs pre post :
  row_ok vs ts → encode_fields (zip vs ts) = Ok bs →
  decode_fields (pre ++ bs ++ post) (zlen pre) ts
  = Ok (zip_with canon vs ts, zlen pre + zlen bs).
Proof.
  intros Hrow. revert pre bs. induction Hrow as [|v t vs ts [Hw Hs] _ IH]; intros pre bs Hbs; simpl in *.
  - inv_ok. rewrite zlen_nil. do 2 f_equal. lia.
  - inv_ok. rewrite <-app_assoc. rewrite (decode_value_middle v t) by done. simpl.
    rewrite app_assoc. rewrite <-zlen_app. rewrite (IH _ _ Hok0). simpl.
    do 2 f_equal. rewrite !zlen_app. lia.
Qed.

Lemma encode_row_inv vs ts bs :
  encode_row vs ts = Ok bs → zlen vs = zlen ts ∧ encode_fields (zip vs ts) = Ok bs.
Proof. unfold encode_row. destruct (Z.eqb_spec (zlen vs) (zlen ts)); simpl; [done|discriminate]. Qed.

Lemma decode_row_fields vs ts bs post :
  row_ok vs ts → encode_row vs ts = Ok bs →
  decode_fields (bs ++ post) 0 ts = Ok (zip_with canon vs ts, zlen bs).
Proof.
  intros Hok Hbs. apply encode_row_inv in Hbs as [_ Hbs].
  exact (decode_fields_encode vs ts bs [] post Hok Hbs).
Qed.

(** a row the encoder accepts is decoded, under the same tags, to the
    canonical forms of its values. *)
Theorem decode_row_encode_row vs ts bs :
  row_ok vs ts → encode_row vs ts = Ok bs →
  decode_row bs ts = Ok (zip_with canon vs ts).
Proof.
  intros Hok Hbs. unfold decode_row. rewrite <-(app_nil_r bs) at 1.
  rewrite (decode_row_fields vs) by done. simpl. by rewrite Z.eqb_refl.
Qed.

(** bytes left over after the last field are an error, whatever they
    are. *)
Theorem decode_row_trailing vs ts bs x post :
  row_ok vs ts → encode_row vs ts = Ok bs →
  decode_row (bs ++ x :: post) ts = Err ValueError.
Proof.
  intros Hok Hbs. unfold decode_row. rewrite (decode_row_fields vs) by done. simpl.
  rewrite zlen_app, zlen_cons. pose proof (zlen_nonneg post).
  destruct (Z.eqb_spec (zlen bs) (zlen bs + (1 + zlen post))); [lia|done].
Qed.
End RoundTrip.

(** * A small [json] module for the concrete runs: null, booleans and text of
    plain letters *)

Definition plain_letter (c : Z) : bool := (97 <=? c) && (c <=? 122).
Definition letters_json : JsonLib := {|
  json_dumps v :=
    match v with
    | PyNone => Ok (u "null")
    | PyBool true => Ok (u "true")
    | PyBool false => Ok (u "false")
    | PyStr s => if forallb plain_letter s then Ok (34 :: s ++ [34]) else Err ValueError
    | _ => Err TypeError
    end;
  json_loads s :=
    if decide (s = u "null") then Ok PyNone
    else if decide (s = u "true") then Ok (PyBool true)
    else if decide (s = u "false") then Ok (PyBool false)
    else match s with
         | q :: r => if (q =? 34) && bool_decide (last r = Some 34)
                     then Ok (PyStr (take (pred (length r)) r)) else Err JSONDecodeError
         | [] => Err JSONDecodeError
         end;
  json_norm v := v;
|}.

Lemma letters_json_laws : @JsonLaws letters_json.
Proof.
  split; [|reflexivity]. intros v s. simpl.
  destruct v as [|[]| | |t| | | | | | | | | | |]; intros Hd; simplify_eq/=; try reflexivity.
  destruct (forallb plain_letter t); simplify_eq.
  rewrite !decide_False by (vm_compute; discriminate).
  change (34 =? 34) with true. simpl andb. rewrite last_snoc, bool_decide_true by done.
  simpl. rewrite length_app. simpl. replace (pred (length t + 1)) with (length t) by lia.
  by rewrite take_app_length.
Qed.

Definition demo_row : list pyval :=
  [PyInt (-5); PyStr (u "hi"); PyDecimal (DFinite true 125 (-2));
   PyTime 23 59 59 999999; PyDatetime 1000000 (Some 3600000000); PyNone; PyBytearray [x00; xff]].
Definition demo_row_tags : list TypeTag := [Int; Text; Decimal; Time; Datetime; Json; Blob].
Definition demo_row_back : list pyval :=
  [PyInt (-5); PyStr (u "hi"); PyDecimal (DFinite true 125 (-2));
   PyTime 23 59 59 999999; PyDatetime (-3599000000) None; PyNone; PyBytes [x00; xff]].

Lemma demo_row_ok : row_ok demo_row demo_row_tags.
Proof.
  repeat constructor. intros n [= <-]. vm_compute. reflexivity.
Qed.

Lemma decode_value_encode_value_witness :
  @decode_value letters_json
    (@app byte [x00; x00] ([x08; x05; x00; x00; x00; x2d; x31; x2e; x32; x35] ++ [x07])) 2
  = Ok (PyDecimal (DFinite true 125 (-2)), 12).
Proof.
  exact (@decode_value_encode_value letters_json letters_json_laws
    (PyDecimal (DFinite true 125 (-2))) Decimal
    [x08; x05; x00; x00; x00; x2d; x31; x2e; x32; x35] [x00; x00] [x07] eq_refl I eq_refl).
Defined.

Lemma value_size_encode_value_witness :
  @value_size letters_json (PyStr (u "abc")) Json = Ok 10.
Proof.
  exact (@value_size_encode_value letters_json (PyStr (u "abc")) Json
    [x0a; x05; x00; x00; x00; x22; x61; x62; x63; x22] eq_refl).
Defined.

Lemma decode_row_encode_row_witness :
  ∃ bs, @encode_row letters_json demo_row demo_row_tags = Ok bs ∧
  @decode_row letters_json bs demo_row_tags = Ok demo_row_back.
Proof.
  eexists. split; [vm_compute; reflexivity|].
  refine (@decode_row_encode_row letters_json letters_json_laws demo_row demo_row_tags _ demo_row_ok _).
  vm_compute. reflexivity.
Defined.

Lemma decode_row_trailing_witness :
  @decode_row letters_json ([x00] ++ [xaa]) [Null] = Err ValueError.
Proof.
  refine (@decode_row_trailing letters_json letters_json_laws [PyNone] [Null] [x00] xaa [] _ eq_refl).
  repeat constructor.
Defined.

(** 498 microseconds past the epoch are stored as 497: the float product is
    just below 498 and is truncated. *)
Example datetime_loses_a_microsecond :
  @decode_value letters_json
    (match @encode_value letters_json (PyDatetime 498 None) Datetime with Ok b => b | Err _ => [] end) 0
  = Ok (PyDatetime 497 None, 9).
Proof. vm_compute. reflexivity. Qed.

(** [datetime.max] is rounded up to a moment outside the range of [datetime]. *)
Example datetime_max_unreadable :
  @decode_value letters_json
    (match @encode_value letters_json (PyDatetime MAX_MICROS None) Datetime with Ok b => b | Err _ => [] end) 0
  = Err OverflowError.
Proof. vm_compute. reflexivity. Qed.
