(* ===== verification/Coerce.v ===== *)
(** Component [types/coerce.py], with [encode_row_coerced] of
    [types/codec.py]: the implicit conversions allowed when a row is written. *)
From S2P Require Import Prelude.
From S2P Require Import Bytes.
From S2P Require Import Utf8.
From S2P Require Import Text.
From S2P Require Import Float64.
From S2P Require Import TypeSys.
From S2P Require Import Codec.
From Stdlib Require Import ZArith.
Local Open Scope Z_scope.

Section Coerce.
Context `{JsonLib}.

(** [isinstance(value, _JSON_OK)] *)
Definition _JSON_OK (v : pyval) : bool :=
  match v with
  | PyNone | PyBool _ | PyInt _ | PyFloat _ | PyStr _ | PyList _ | PyDict _ | PyTuple _ => true
  | _ => false
  end.

Definition encoded (v : pyval) (t : TypeTag) : result (bytes * TypeTag) :=
  b ← encode_value v t; Ok (b, t).

(** [Decimal(n)] of an int *)
Definition decimal_of_Z (n : Z) : pydecimal := DFinite (n <? 0) (Z.abs n) 0.

Definition coerce_value (value : pyval) (target_tag : TypeTag) : result (bytes * TypeTag) :=
  match target_tag, value with
  | Null, PyNone => encoded PyNone Null
  | Null, _ => Err TypeMismatchError
  | Json, PyNone => encoded PyNone Json
  | _, PyNone => Err TypeMismatchError
  | Int, PyBool _ => Err TypeMismatchError
  | Int, PyInt _ => encoded value Int
  | Int, PyFloat w =>
      if is_integer w then n ← int_of_float w; encoded (PyInt n) Int
      else Err TypeMismatchError
  | Float, PyBool _ => Err TypeMismatchError
  | Float, PyInt n => w ← float_of_Z n; encoded (PyFloat w) Float
  | Float, PyFloat _ => encoded value Float
  | Text, PyStr _ => encoded value Text
  | Bool, PyBool _ => encoded value Bool
  | Date, PyDate _ => encoded value Date
  | Time, PyTime _ _ _ _ => encoded value Time
  | Datetime, PyDatetime _ _ => encoded value Datetime
  | Decimal, PyBool _ => Err TypeMismatchError
  | Decimal, PyDecimal _ => encoded value Decimal
  | Decimal, PyInt n => encoded (PyDecimal (decimal_of_Z n)) Decimal
  | Blob, PyBytes b => encoded (PyBytes b) Blob
  | Blob, PyBytearray b => encoded (PyBytes b) Blob
  | Json, _ =>
      if _JSON_OK value then
        match json_dumps value with
        | Err (TypeError | ValueError | UnicodeError) => Err TypeMismatchError
        | Err e => Err e
        | Ok _ => encoded value Json
        end
      else Err TypeMismatchError
  | _, _ => Err TypeMismatchError
  end.

(** [getattr(v, "value", v)] *)
Definition unwrap (v : pyval) : pyval :=
  match v with PyTypedLiteral _ v => v | _ => v end.

Fixpoint coerce_fields (vts : list (pyval * TypeTag)) : result bytes :=
  match vts with
  | [] => Ok []
  | (v, t) :: vts =>
      b ← (match unwrap v with
           | PyNone => encode_value PyNone Null
           | v => '(blob, _) ← coerce_value v t; Ok blob
           end);
      r ← coerce_fields vts; Ok (b ++ r)
  end.

Definition encode_row_coerced (values : list pyval) (tags : list TypeTag) : result bytes :=
  if negb (zlen values =? zlen tags) then Err ValueError
  else coerce_fields (zip values tags).

(** * What is converted, and what it becomes *)

(** The value that is encoded in place of the one given *)
Definition widen (v : pyval) (t : TypeTag) : result pyval :=
  match t, v with
  | Int, PyFloat w => PyInt <$> int_of_float w
  | Float, PyInt n => PyFloat <$> float_of_Z n
  | Decimal, PyInt n => Ok (PyDecimal (decimal_of_Z n))
  | Blob, PyBytearray b => Ok (PyBytes b)
  | _, _ => Ok v
  end.

(** The pairs that are not rejected for their types alone *)
Definition accepts (v : pyval) (t : TypeTag) : bool :=
  match t, v with
  | Null, PyNone | Int, PyInt _ | Float, PyInt _ | Float, PyFloat _ | Text, PyStr _
  | Bool, PyBool _ | Date, PyDate _ | Time, PyTime _ _ _ _ | Datetime, PyDatetime _ _
  | Decimal, PyDecimal _ | Decimal, PyInt _ | Blob, PyBytes _ | Blob, PyBytearray _ => true
  | Int, PyFloat w => is_integer w
  | Json, _ => _JSON_OK v
  | _, _ => false
  end.


Lemma coerce_value_Ok_inv v t bs t' :
  coerce_value v t = Ok (bs, t') →
  t' = t ∧ ∃ v', widen v t = Ok v' ∧ encode_value v' t = Ok bs.
Proof.
  unfold coerce_value, encoded. intros Hc.
  destruct t, v; try discriminate; simpl widen in *;
    repeat match goal with
    | H : context [if ?b then _ else _] |- _ => destruct b; try discriminate
    | H : context [match json_dumps ?x with _ => _ end] |- _ =>
        destruct (json_dumps x) as [|[]]; try discriminate
    end; inv_ok; (split; [congruence|]); eexists; split; eauto.
  - by rewrite Hok.
  - by rewrite Hok.
Qed.

(** The widened value is one Python can build, so it is read back. *)
Lemma widen_wf v t v' : wf_value v = true → widen v t = Ok v' → wf_value v' = true.
Proof.
  intros Hw. destruct t, v; simpl; try (intros [= <-]; done).
  - destruct (int_of_float _); by intros [= <-].
  - destruct (float_of_Z z) eqn:E; intros [= <-]. apply fits_u_true. by apply float_of_Z_bound in E.
  - intros [= <-]. simpl. apply Z.leb_le. lia.
Qed.

(** The value a row gives back for [v] written to a column of type [t] *)
Definition stored (v : pyval) (t : TypeTag) : pyval :=
  match unwrap v with
  | PyNone => PyNone
  | v => match widen v t with Ok v' => canon v' t | Err _ => v end
  end.

(** The values whose stored form is read back: the datetimes among them have
    microseconds the encoder keeps. *)
Definition coerced_ok (v : pyval) (t : TypeTag) : Prop :=
  wf_value (unwrap v) = true ∧ storable (unwrap v) t.

Lemma widen_storable v t v' : storable v t → widen v t = Ok v' → storable v' t.
Proof.
  destruct t, v; simpl; intros Hs Hv; simplify_eq/=; try done.
Qed.
End Coerce.

Section CoerceRoundTrip.
Context `{JsonLaws}.

Lemma decode_coerced v t b pre post :
  coerced_ok v t →
  match unwrap v with
  | PyNone => encode_value PyNone Null
  | v => '(blob, _) ← coerce_value v t; Ok blob
  end = Ok b →
  decode_value (pre ++ b ++ post) (zlen pre) = Ok (stored v t, zlen pre + zlen b).
Proof.
  unfold coerced_ok, stored. generalize (unwrap v). clear v. intros v [Hw Hs] Hb.
  assert (v = PyNone ∨ v ≠ PyNone) as [->|Hv] by (destruct v; eauto).
  { by apply (decode_value_middle PyNone Null). }
  assert (∃ t', coerce_value v t = Ok (b, t')) as [t' Hc].
  { destruct v; try done; inv_ok; destruct a as [b' t']; inv_ok; eauto. }
  apply coerce_value_Ok_inv in Hc as (-> & v' & Hv' & Hb').
  rewrite (decode_value_middle v' t) by eauto using widen_wf, widen_storable.
  do 2 f_equal. destruct v; try done; by rewrite Hv'.
Qed.

Lemma decode_coerce_fields vs ts bs pre post :
  Forall2 coerced_ok vs ts → coerce_fields (zip vs ts) = Ok bs →
  decode_fields (pre ++ bs ++ post) (zlen pre) ts
  = Ok (zip_with stored vs ts, zlen pre + zlen bs).
Proof.
  intros Hrow. revert pre bs. induction Hrow as [|v t vs ts Hv _ IH]; intros pre bs Hbs; simpl in *.
  - inv_ok. rewrite zlen_nil. do 2 f_equal. lia.
  - apply bind_Ok_inv in Hbs as (b & Hb & Hbs). apply bind_Ok_inv in Hbs as (r & Hr & Hbs).
    injection Hbs as <-. rewrite <-app_assoc. rewrite (decode_coerced v t) by done. simpl.
    rewrite app_assoc, <-zlen_app, (IH _ _ Hr). simpl.
    do 2 f_equal. rewrite !zlen_app. lia.
Qed.

End CoerceRoundTrip.

(** * Concrete runs *)

(** A row with a widened int, a typed date, a NULL and a text *)
Definition demo_values : list pyval :=
  [PyInt 3; PyTypedLiteral Date (PyDate 738000); PyNone; PyStr (u "ab")].
Definition demo_tags : list TypeTag := [Float; Date; Int; Text].



(** An int beyond 2^53 does not survive the widening to FLOAT. *)
Example coerce_int_float_lossy :
  @coerce_value letters_json (PyInt (2 ^ 53 + 1)) Float = @coerce_value letters_json (PyInt (2 ^ 53)) Float.
Proof. vm_compute. reflexivity. Qed.
