(* ===== verification/Pager.v ===== *)
(** Component [storage/pager.py]: fixed-size pages over one file, with the
    header on page 0 and the list of free pages threaded through them.

    The file is the list of its bytes; every operation ends with [flush], so
    the bytes of the model are what a later [open] reads.  The field [_fp] is
    [None] exactly when [_closed] is set. *)
From S2P Require Import Prelude.
From S2P Require Import Bytes.
From Stdlib Require Import ZArith.
Local Open Scope Z_scope.

Definition PAGE_SIZE : Z := 4096.
Definition MAGIC : bytes := [x54; x31; x4e; x59; x44; x42; x30; x31].
Definition _HEADER_VERSION : Z := 1.
Definition _RESERVED_PAGES : Z := 4.
Definition _NO_FREE : Z := 0xFFFFFFFF.
Definition _HDR_MAGIC_OFF : Z := 0.
Definition _HDR_VERSION_OFF : Z := 8.
Definition _HDR_PAGE_SIZE_OFF : Z := 10.
Definition _HDR_NUM_PAGES_OFF : Z := 12.
Definition _HDR_FREE_HEAD_OFF : Z := 16.
Definition _HDR_LAST_LSN_OFF : Z := 20.

Record Pager := mkPager {
  pg_file : bytes;
  pg_num_pages : Z;
  pg_free_head : Z;
  pg_last_lsn : Z;
  pg_closed : bool;
}.

Definition set_file f (p : Pager) :=
  mkPager f p.(pg_num_pages) p.(pg_free_head) p.(pg_last_lsn) p.(pg_closed).
Definition set_num_pages n (p : Pager) :=
  mkPager p.(pg_file) n p.(pg_free_head) p.(pg_last_lsn) p.(pg_closed).
Definition set_free_head h (p : Pager) :=
  mkPager p.(pg_file) p.(pg_num_pages) h p.(pg_last_lsn) p.(pg_closed).
Definition set_lsn l (p : Pager) :=
  mkPager p.(pg_file) p.(pg_num_pages) p.(pg_free_head) l p.(pg_closed).
Definition set_closed (p : Pager) :=
  mkPager p.(pg_file) p.(pg_num_pages) p.(pg_free_head) p.(pg_last_lsn) true.

(** * Files *)

(** [fp.seek(off); fp.write(d)]: a gap past the end reads as zeros *)
Definition fwrite (f : bytes) (off : Z) (d : bytes) : bytes :=
  patch (f ++ zreplicate (off - zlen f) x00) off d.
(** [fp.seek(off); fp.read(n)] *)
Definition fread (f : bytes) (off n : Z) : bytes := slice f off (off + n).

Definition zero_page : bytes := zreplicate PAGE_SIZE x00.

(** * The header *)

(** The header fields written over the buffer of page 0 *)
Definition _protect_header (p : Pager) (data : bytes) : result bytes :=
  let buf := patch data _HDR_MAGIC_OFF MAGIC in
  buf ← pack_into_ule 2 buf _HDR_VERSION_OFF _HEADER_VERSION;
  buf ← pack_into_ule 2 buf _HDR_PAGE_SIZE_OFF PAGE_SIZE;
  buf ← pack_into_ule 4 buf _HDR_NUM_PAGES_OFF p.(pg_num_pages);
  buf ← pack_into_ule 4 buf _HDR_FREE_HEAD_OFF p.(pg_free_head);
  pack_into_ule 4 buf _HDR_LAST_LSN_OFF p.(pg_last_lsn).

Definition _write_header : M Pager unit :=
  p ← get;
  let current := fread p.(pg_file) 0 PAGE_SIZE in
  let current := if zlen current =? PAGE_SIZE then current else zero_page in
  buf ← lift (_protect_header p current);
  put (set_file (fwrite p.(pg_file) 0 buf) p).

Definition _read_header (f : bytes) : result Pager :=
  let header := fread f 0 PAGE_SIZE in
  if negb (bool_decide (slice header 0 8 = MAGIC)) then Err ValueError else
  version ← unpack_ule 2 header _HDR_VERSION_OFF;
  if negb (version =? _HEADER_VERSION) then Err ValueError else
  page_size ← unpack_ule 2 header _HDR_PAGE_SIZE_OFF;
  if negb (page_size =? PAGE_SIZE) then Err ValueError else
  num_pages ← unpack_ule 4 header _HDR_NUM_PAGES_OFF;
  free_head ← unpack_ule 4 header _HDR_FREE_HEAD_OFF;
  last_lsn ← unpack_ule 4 header _HDR_LAST_LSN_OFF;
  Ok (mkPager f num_pages free_head last_lsn false).

Definition _init_new : result Pager :=
  let '(r, p) := _write_header (mkPager [] _RESERVED_PAGES _NO_FREE 0 false) in
  _ ← r;
  let end_ := zlen p.(pg_file) in
  let target := p.(pg_num_pages) * PAGE_SIZE in
  Ok (if end_ <? target
      then set_file (fwrite p.(pg_file) end_ (zreplicate (target - end_) x00)) p
      else p).

(** [Pager(path)]; [None] when the file does not exist *)
Definition open_file (on_disk : option bytes) : result Pager :=
  match on_disk with
  | None => _init_new
  | Some f =>
      let size := zlen f in
      if (0 <? size) && negb (size mod PAGE_SIZE =? 0) then Err ValueError
      else if size =? 0 then _init_new
      else _read_header f
  end.

Definition _check_open : M Pager unit :=
  p ← get; assert (negb p.(pg_closed)) RuntimeError.

Definition close : M Pager unit :=
  p ← get;
  if p.(pg_closed) then mret () else
  catch _write_header (λ _, mret ());;
  modify set_closed.

Definition set_last_lsn (lsn : Z) : M Pager unit :=
  assert (0 <=? lsn) ValueError;;
  _check_open;;
  p ← get;
  if p.(pg_last_lsn) <? lsn
  then modify (set_lsn lsn);; _write_header
  else mret ().

(** * Pages *)

Definition read_page (pid : Z) : M Pager bytes :=
  _check_open;;
  p ← get;
  assert (0 <=? pid) IndexError;;
  assert (pid <? p.(pg_num_pages)) IndexError;;
  let data := fread p.(pg_file) (pid * PAGE_SIZE) PAGE_SIZE in
  assert (zlen data =? PAGE_SIZE) OSError;;
  mret data.

Definition _extend_to_unlocked (new_num_pages : Z) : M Pager unit :=
  p ← get;
  if new_num_pages <=? p.(pg_num_pages) then mret () else
  let gap_pages := new_num_pages - p.(pg_num_pages) in
  modify (λ p, set_file (fwrite p.(pg_file) (p.(pg_num_pages) * PAGE_SIZE)
                                (zreplicate (gap_pages * PAGE_SIZE) x00)) p);;
  modify (set_num_pages new_num_pages);;
  _write_header.

Definition write_page (pid : Z) (data : bytes) : M Pager unit :=
  _check_open;;
  assert (zlen data =? PAGE_SIZE) ValueError;;
  assert (0 <=? pid) IndexError;;
  p ← get;
  (if p.(pg_num_pages) <=? pid then _extend_to_unlocked (pid + 1) else mret ());;
  p ← get;
  data ← (if pid =? 0 then lift (_protect_header p data) else mret data);
  put (set_file (fwrite p.(pg_file) (pid * PAGE_SIZE) data) p).

Definition allocate_page : M Pager Z :=
  _check_open;;
  p ← get;
  if negb (p.(pg_free_head) =? _NO_FREE) then
    let pid := p.(pg_free_head) in
    next_free ← lift (unpack_ule 4 p.(pg_file) (pid * PAGE_SIZE));
    modify (set_free_head next_free);;
    modify (λ p, set_file (fwrite p.(pg_file) (pid * PAGE_SIZE) zero_page) p);;
    _write_header;;
    mret pid
  else
    let pid := p.(pg_num_pages) in
    _extend_to_unlocked (pid + 1);;
    mret pid.

Definition free_page (pid : Z) : M Pager unit :=
  _check_open;;
  p ← get;
  assert (0 <=? pid) ValueError;;
  assert (_RESERVED_PAGES <=? pid) ValueError;;
  assert (pid <? p.(pg_num_pages)) ValueError;;
  next ← lift (pack_ule 4 p.(pg_free_head));
  modify (λ p, set_file (fwrite p.(pg_file) (pid * PAGE_SIZE) next) p);;
  modify (set_free_head pid);;
  _write_header.

(** * File and page lemmas *)

Lemma fwrite_inside f off d :
  0 <= off → off + zlen d <= zlen f → fwrite f off d = patch f off d.
Proof.
  intros. pose proof (zlen_nonneg d). unfold fwrite, zreplicate.
  replace (Z.to_nat (off - zlen f)) with O by lia. simpl. by rewrite app_nil_r.
Qed.
Lemma fwrite_at_end f off d : off = zlen f → fwrite f off d = f ++ d.
Proof.
  intros ->. unfold fwrite, zreplicate. rewrite Z.sub_diag. simpl. rewrite app_nil_r.
  unfold patch. rewrite ztake_all by lia. pose proof (zlen_nonneg d).
  rewrite (zdrop_all f) by lia. by rewrite app_nil_r.
Qed.

Lemma patch_patch_adjacent {A} (l a b : list A) :
  zlen a + zlen b <= zlen l → patch (patch l 0 a) (zlen a) b = patch l 0 (a ++ b).
Proof.
  intros Hl. pose proof (zlen_nonneg a). pose proof (zlen_nonneg b).
  unfold patch. rewrite !ztake_0, !app_nil_l, !Z.add_0_l.
  rewrite ztake_app by done. rewrite zdrop_app_ge by lia. rewrite zdrop_zdrop by lia.
  rewrite <-app_assoc, zlen_app. do 3 f_equal. lia.
Qed.

(** Page [pid] of a file *)
Definition page (f : bytes) (pid : Z) : bytes := fread f (pid * PAGE_SIZE) PAGE_SIZE.

Lemma page_zlen f n pid :
  zlen f = n * PAGE_SIZE → 0 <= pid < n → zlen (page f pid) = PAGE_SIZE.
Proof. unfold page, fread, PAGE_SIZE. intros. rewrite zlen_slice by lia. lia. Qed.

Lemma page_patch f n pid d pid' :
  zlen f = n * PAGE_SIZE → 0 <= pid < n → 0 <= pid' < n → zlen d = PAGE_SIZE →
  page (patch f (pid * PAGE_SIZE) d) pid' = if decide (pid' = pid) then d else page f pid'.
Proof.
  unfold page, fread, PAGE_SIZE. intros Hf Hp Hp' Hd. case_decide as E; [subst|].
  - apply slice_patch_same; lia.
  - destruct (decide (pid' < pid)); [apply slice_patch_before|apply slice_patch_after]; lia.
Qed.

Lemma page_app_l f g n pid :
  zlen f = n * PAGE_SIZE → 0 <= pid < n → page (f ++ g) pid = page f pid.
Proof. unfold page, fread, PAGE_SIZE. intros. apply slice_app_l; lia. Qed.

Lemma page_app_zeros f n k pid :
  zlen f = n * PAGE_SIZE → n <= pid < n + k →
  page (f ++ zreplicate (k * PAGE_SIZE) x00) pid = zero_page.
Proof.
  unfold page, fread, zero_page, PAGE_SIZE. intros Hf Hp. rewrite slice_app_r by lia.
  apply list_eq. intros i. rewrite slice_lookup by lia. unfold zreplicate. case_decide.
  - rewrite !lookup_replicate_2 by lia. done.
  - rewrite lookup_ge_None_2; [done|]. rewrite length_replicate. lia.
Qed.

Lemma zlen_zero_page : zlen zero_page = PAGE_SIZE.
Proof. apply zlen_replicate. unfold PAGE_SIZE. lia. Qed.
Lemma zdrop_zero_page k : 0 <= k → zdrop k zero_page = zreplicate (PAGE_SIZE - k) x00.
Proof.
  intros. unfold zdrop, zero_page, zreplicate. rewrite drop_replicate. f_equal. lia.
Qed.
Lemma fread_page_0 f : fread f 0 PAGE_SIZE = page f 0.
Proof. reflexivity. Qed.
#[global] Opaque zero_page.

(** The first four bytes of a page *)
Lemma page_word f pid :
  0 <= pid →
  slice f (pid * PAGE_SIZE) (pid * PAGE_SIZE + 4) = slice (page f pid) 0 4.
Proof.
  unfold page, fread, PAGE_SIZE. intros. rewrite slice_slice by lia. by rewrite Z.add_0_r.
Qed.

(** * The header on disk mirrors the fields *)

Definition header_bytes (p : Pager) : bytes :=
  MAGIC ++ le_bytes 2 _HEADER_VERSION ++ le_bytes 2 PAGE_SIZE ++
  le_bytes 4 p.(pg_num_pages) ++ le_bytes 4 p.(pg_free_head) ++ le_bytes 4 p.(pg_last_lsn).

#[global] Arguments header_bytes : simpl never.

Lemma zlen_header_bytes p : zlen (header_bytes p) = 24.
Proof. unfold header_bytes. autorewrite with py. reflexivity. Qed.

(** The fields are in range and the file holds the pages they announce. *)
Record pager_wf (p : Pager) : Prop := {
  wf_open : p.(pg_closed) = false;
  wf_len : zlen p.(pg_file) = p.(pg_num_pages) * PAGE_SIZE;
  wf_num : 4 <= p.(pg_num_pages) < 2 ^ 32;
  wf_head : 0 <= p.(pg_free_head) < 2 ^ 32;
  wf_lsn : 0 <= p.(pg_last_lsn) < 2 ^ 32;
}.
(** ... and the header on page 0 holds them. *)
Definition pager_ok (p : Pager) : Prop :=
  pager_wf p ∧ slice p.(pg_file) 0 24 = header_bytes p.

Lemma pack_adjacent n (l a : bytes) z off :
  off = zlen a → zlen a + Z.of_nat n <= zlen l → 0 <= z < 2 ^ (8 * Z.of_nat n) →
  pack_into_ule n (patch l 0 a) off z = Ok (patch l 0 (a ++ le_bytes n z)).
Proof.
  intros -> Hl Hz. pose proof (zlen_nonneg a).
  rewrite pack_into_ule_ok; [|done|lia|rewrite zlen_patch; lia].
  f_equal. apply patch_patch_adjacent. rewrite zlen_le_bytes. lia.
Qed.

Lemma protect_header_ok p data :
  pager_wf p → 24 <= zlen data →
  _protect_header p data = Ok (patch data 0 (header_bytes p)).
Proof.
  intros [_ _ Hn Hh Hl] Hd. unfold _protect_header, header_bytes. cbv zeta.
  change _HDR_MAGIC_OFF with 0. unfold _HDR_VERSION_OFF, _HDR_PAGE_SIZE_OFF.
  unfold _HDR_NUM_PAGES_OFF, _HDR_FREE_HEAD_OFF, _HDR_LAST_LSN_OFF, _HEADER_VERSION, PAGE_SIZE.
  change (2 ^ 32) with (2 ^ (8 * Z.of_nat 4)) in *. assert (zlen MAGIC = 8) as HM by done.
  repeat first
    [ rewrite bind_Ok
    | rewrite pack_adjacent;
      [|autorewrite with py; rewrite ?HM; reflexivity
       |autorewrite with py; rewrite ?HM; lia
       |lia] ].
  by rewrite <-!app_assoc.
Qed.

Lemma patch_page0 (f h : bytes) n :
  zlen f = n * PAGE_SIZE → 1 <= n → zlen h <= PAGE_SIZE →
  fwrite f 0 (patch (fread f 0 PAGE_SIZE) 0 h) = patch f 0 h.
Proof.
  unfold fread, PAGE_SIZE. intros Hf Hn Hh. pose proof (zlen_nonneg h).
  assert (zlen (slice f 0 (0 + 4096)) = 4096) as Hs by (rewrite zlen_slice; lia).
  rewrite fwrite_inside by (rewrite ?zlen_patch; lia).
  apply list_eq. intros i. rewrite !patch_lookup by lia. rewrite zlen_patch by lia. rewrite Hs.
  repeat case_decide; try lia; try done.
  - f_equal. lia.
  - rewrite slice_lookup by lia. rewrite decide_True by lia. f_equal. lia.
Qed.

Lemma write_header_ok p :
  pager_wf p →
  _write_header p = (Ok (), set_file (patch p.(pg_file) 0 (header_bytes p)) p).
Proof.
  intros Hp. pose proof (wf_len p Hp) as Hl. pose proof (wf_num p Hp).
  unfold _write_header, get, lift, put, mbind, M_bind. cbv beta iota.
  assert (zlen (fread (pg_file p) 0 PAGE_SIZE) = PAGE_SIZE) as Hz.
  { unfold fread, PAGE_SIZE in *. rewrite zlen_slice; lia. }
  rewrite Hz, Z.eqb_refl. rewrite protect_header_ok by (done || (rewrite Hz; unfold PAGE_SIZE; lia)).
  by rewrite (patch_page0 _ _ _ Hl) by (rewrite ?zlen_header_bytes; unfold PAGE_SIZE; lia).
Qed.

Lemma write_header_pager_ok p p' r :
  pager_wf p → _write_header p = (r, p') →
  r = Ok () ∧ pager_ok p' ∧ p' = set_file p'.(pg_file) p ∧
  (∀ pid, 1 <= pid < p.(pg_num_pages) → page p'.(pg_file) pid = page p.(pg_file) pid).
Proof.
  intros Hp. rewrite write_header_ok by done. intros [= <- <-].
  destruct Hp as [Ho Hl Hn Hh Hs]. unfold PAGE_SIZE in Hl.
  assert (zlen (patch (pg_file p) 0 (header_bytes p)) = zlen (pg_file p)) as Hz.
  { apply zlen_patch; rewrite ?zlen_header_bytes; lia. }
  split_and!; try done.
  - split; [constructor; simpl; rewrite ?Hz; unfold PAGE_SIZE; lia || done|]. simpl.
    apply slice_patch_same; rewrite ?zlen_header_bytes; lia.
  - intros pid Hpid. unfold page, fread, PAGE_SIZE. simpl.
    apply slice_patch_after; rewrite ?zlen_header_bytes; lia.
Qed.

(** * Abstract specification: a store of pages *)

(** What a client sees: the pages, the bytes of page 0 that are the client's,
    the free pages (the next to be handed out first) and the LSN. *)
Record PageStore := mkStore {
  st_num : Z;
  st_pages : Z → bytes;
  st_rest : bytes;
  st_free : list Z;
  st_lsn : Z;
}.

Definition fupd {V} (k : Z) (v : V) (f : Z → V) : Z → V :=
  λ x, if decide (x = k) then v else f x.

(** Extending with zero pages *)
Definition st_extend (n : Z) (a : PageStore) : PageStore :=
  mkStore (Z.max n a.(st_num))
          (λ x, if (a.(st_num) <=? x) && (x <? n) then zero_page else a.(st_pages) x)
          a.(st_rest) a.(st_free) a.(st_lsn).
Definition st_write (pid : Z) (d : bytes) (a : PageStore) : PageStore :=
  if pid =? 0 then mkStore a.(st_num) a.(st_pages) (zdrop 24 d) a.(st_free) a.(st_lsn)
  else mkStore a.(st_num) (fupd pid d a.(st_pages)) a.(st_rest) a.(st_free) a.(st_lsn).

Definition header_of (num head lsn : Z) : bytes :=
  header_bytes (mkPager [] num head lsn false).
Definition free_head_of (fl : list Z) : Z := match fl with [] => _NO_FREE | pid :: _ => pid end.

Inductive op :=
  | OpRead (pid : Z) | OpWrite (pid : Z) (d : bytes) | OpAlloc | OpFree (pid : Z) | OpLsn (lsn : Z).
Inductive outcome := RUnit | RPage (d : bytes) | RPid (pid : Z).

Definition exec (o : op) : M Pager outcome :=
  match o with
  | OpRead pid => d ← read_page pid; mret (RPage d)
  | OpWrite pid d => write_page pid d;; mret RUnit
  | OpAlloc => pid ← allocate_page; mret (RPid pid)
  | OpFree pid => free_page pid;; mret RUnit
  | OpLsn lsn => set_last_lsn lsn;; mret RUnit
  end.

(** The promised result and effect of an operation *)
Definition spec (o : op) (a : PageStore) : result outcome * PageStore :=
  match o with
  | OpRead pid =>
      if (0 <=? pid) && (pid <? a.(st_num)) then
        (Ok (RPage (if pid =? 0
                    then header_of a.(st_num) (free_head_of a.(st_free)) a.(st_lsn) ++ a.(st_rest)
                    else a.(st_pages) pid)), a)
      else (Err IndexError, a)
  | OpWrite pid d =>
      if negb (zlen d =? PAGE_SIZE) then (Err ValueError, a)
      else if pid <? 0 then (Err IndexError, a)
      else (Ok RUnit, st_write pid d (st_extend (pid + 1) a))
  | OpAlloc =>
      match a.(st_free) with
      | pid :: fl =>
          (Ok (RPid pid), mkStore a.(st_num) (fupd pid zero_page a.(st_pages)) a.(st_rest) fl a.(st_lsn))
      | [] => (Ok (RPid a.(st_num)), st_extend (a.(st_num) + 1) a)
      end
  | OpFree pid =>
      if (pid <? _RESERVED_PAGES) || (a.(st_num) <=? pid) then (Err ValueError, a)
      else (Ok RUnit, mkStore a.(st_num) a.(st_pages) a.(st_rest) (pid :: a.(st_free)) a.(st_lsn))
  | OpLsn lsn =>
      if lsn <? 0 then (Err ValueError, a)
      else (Ok RUnit, mkStore a.(st_num) a.(st_pages) a.(st_rest) a.(st_free) (Z.max lsn a.(st_lsn)))
  end.

(** The client's side of the contract: free pages are not used or freed
    again, and the 32-bit fields of the header do not overflow. *)
Definition legal (o : op) (a : PageStore) : Prop :=
  match o with
  | OpRead pid => (pid ∉ a.(st_free))
  | OpWrite pid _ => (pid ∉ a.(st_free)) ∧ (pid + 1 < 2 ^ 32)
  | OpAlloc => a.(st_num) + 1 < 2 ^ 32
  | OpFree pid => pid ∉ a.(st_free)
  | OpLsn lsn => lsn < 2 ^ 32
  end.

(** The list of free pages that starts at [head] *)
Fixpoint free_chain (f : bytes) (head : Z) (fl : list Z) : Prop :=
  match fl with
  | [] => head = _NO_FREE
  | pid :: fl =>
      head = pid ∧ free_chain f (le_val (slice f (pid * PAGE_SIZE) (pid * PAGE_SIZE + 4))) fl
  end.

(** The fields and pages of [p] are those of the store [a]... *)
Record shows (p : Pager) (a : PageStore) : Prop := {
  sh_wf : pager_wf p;
  sh_num : p.(pg_num_pages) = a.(st_num);
  sh_lsn : p.(pg_last_lsn) = a.(st_lsn);
  sh_rest : zdrop 24 (page p.(pg_file) 0) = a.(st_rest);
  sh_chain : free_chain p.(pg_file) p.(pg_free_head) a.(st_free);
  sh_nodup : NoDup a.(st_free);
  sh_range : Forall (λ pid, _RESERVED_PAGES <= pid < a.(st_num)) a.(st_free);
  sh_pages : ∀ pid, 1 <= pid < a.(st_num) → pid ∉ a.(st_free) →
             page p.(pg_file) pid = a.(st_pages) pid;
}.
(** ... and the header on page 0 is the one of the fields. *)
Definition represents (p : Pager) (a : PageStore) : Prop :=
  shows p a ∧ slice p.(pg_file) 0 24 = header_bytes p.

(** The free list only depends on the first words of its pages. *)
Lemma free_chain_ext f f' head fl :
  Forall (λ pid, 0 <= pid ∧ page f' pid = page f pid) fl →
  free_chain f head fl → free_chain f' head fl.
Proof.
  intros Hfl. revert head. induction Hfl as [|pid fl [Hr Hp] _ IH]; intros head; simpl; [done|].
  intros [-> Hc]. split; [done|]. rewrite page_word by done. rewrite Hp.
  rewrite <-page_word by done. by apply IH.
Qed.

Lemma free_chain_head f head fl : free_chain f head fl → head = free_head_of fl.
Proof. destruct fl; simpl; naive_solver. Qed.

Lemma page_0_header p :
  pager_wf p → slice p.(pg_file) 0 24 = header_bytes p → page p.(pg_file) 0 = header_bytes p ++ zdrop 24 (page p.(pg_file) 0).
Proof.
  intros [_ Hl Hn _ _] Hh. rewrite <-Hh. unfold PAGE_SIZE in Hl.
  rewrite <-(ztake_zdrop 24 (page (pg_file p) 0)) at 1. f_equal.
  unfold page, fread, PAGE_SIZE. rewrite Z.mul_0_l, Z.add_0_l.
  assert (slice (pg_file p) 0 24 = slice (slice (pg_file p) 0 4096) 0 24) as ->
    by (rewrite slice_slice by lia; done).
  unfold slice at 2. by rewrite zdrop_0.
Qed.

(** * The operations implement the specification *)

Lemma shows_bounds p a :
  shows p a → 4 <= a.(st_num) < 2 ^ 32 ∧ zlen p.(pg_file) = a.(st_num) * 4096.
Proof. intros [[_ Hl Hn _ _] H _ _ _ _ _ _]. rewrite <-H. done. Qed.

(** A file that agrees on the pages shows the same store. *)
Lemma shows_file p a f :
  shows p a → zlen f = zlen p.(pg_file) →
  zdrop 24 (page f 0) = zdrop 24 (page p.(pg_file) 0) →
  (∀ pid, 1 <= pid < a.(st_num) → page f pid = page p.(pg_file) pid) →
  shows (set_file f p) a.
Proof.
  intros Hs Hf H0 Hp. destruct (shows_bounds p a Hs) as [Hb Hl]. destruct Hs. constructor; simpl; try done.
  - destruct sh_wf0. constructor; simpl; congruence || done.
  - congruence.
  - eapply (free_chain_ext (pg_file p)); [|done].
    eapply Forall_impl; [exact sh_range0|]. unfold _RESERVED_PAGES. simpl. intros pid Hr.
    split; [lia|apply Hp; lia].
  - intros pid Hr Hn. rewrite Hp by done. by apply sh_pages0.
Qed.

Lemma write_header_represents p a :
  shows p a → ∃ p', _write_header p = (Ok (), p') ∧ represents p' a.
Proof.
  intros Hs. pose proof (sh_wf p a Hs) as Hwf. destruct (shows_bounds p a Hs) as [Hb Hl].
  rewrite write_header_ok by done. eexists. split; [reflexivity|].
  assert (zlen (patch (pg_file p) 0 (header_bytes p)) = zlen (pg_file p)) as Hz.
  { apply zlen_patch; rewrite ?zlen_header_bytes; lia. }
  split.
  - apply shows_file; [done|done| |].
    + unfold page, fread, PAGE_SIZE. rewrite !zdrop_slice by lia.
      apply slice_patch_after; rewrite ?zlen_header_bytes; lia.
    + intros pid Hp. unfold page, fread, PAGE_SIZE.
      apply slice_patch_after; rewrite ?zlen_header_bytes; lia.
  - simpl. apply slice_patch_same; rewrite ?zlen_header_bytes; lia.
Qed.

Lemma header_inside (f d : bytes) off :
  24 <= off → off <= zlen f → slice (patch f off d) 0 24 = slice f 0 24.
Proof. intros. apply slice_patch_before; lia. Qed.

(** Overwriting one page that is not free *)
Lemma represents_write p a pid d :
  represents p a → 1 <= pid < a.(st_num) → pid ∉ a.(st_free) → zlen d = PAGE_SIZE →
  represents (set_file (fwrite p.(pg_file) (pid * PAGE_SIZE) d) p)
             (mkStore a.(st_num) (fupd pid d a.(st_pages)) a.(st_rest) a.(st_free) a.(st_lsn)).
Proof.
  intros [Hs Hh] Hp Hfr Hd. destruct (shows_bounds p a Hs) as [Hb Hl].
  rewrite fwrite_inside by (unfold PAGE_SIZE in *; lia).
  assert (zlen (patch (pg_file p) (pid * PAGE_SIZE) d) = zlen (pg_file p)) as Hz
    by (apply zlen_patch; unfold PAGE_SIZE in *; lia).
  destruct Hs. split.
  - constructor; simpl; try done.
    + destruct sh_wf0. constructor; simpl; congruence || done.
    + rewrite (page_patch _ a.(st_num)) by (done || lia). by rewrite decide_False by lia.
    + eapply (free_chain_ext (pg_file p)); [|done].
      apply Forall_forall. intros x Hx. rewrite Forall_forall in sh_range0.
      pose proof (sh_range0 x Hx). unfold _RESERVED_PAGES in *. split; [lia|].
      rewrite (page_patch _ a.(st_num)) by (done || lia). rewrite decide_False; [done|congruence].
    + intros x Hx Hnx. rewrite (page_patch _ a.(st_num)) by (done || lia). unfold fupd.
      case_decide; [done|]. by apply sh_pages0.
  - simpl. rewrite header_inside by (unfold PAGE_SIZE; lia). done.
Qed.

Lemma shows_extend p a n :
  shows p a → a.(st_num) < n < 2 ^ 32 →
  shows (set_num_pages n (set_file (fwrite p.(pg_file) (p.(pg_num_pages) * PAGE_SIZE)
           (zreplicate ((n - p.(pg_num_pages)) * PAGE_SIZE) x00)) p)) (st_extend n a).
Proof.
  intros Hs Hn. destruct (shows_bounds p a Hs) as [Hb Hl]. destruct Hs. rewrite sh_num0.
  rewrite fwrite_at_end by (unfold PAGE_SIZE; lia).
  assert (Z.max n (st_num a) = n) as Hmax by lia.
  constructor; simpl; rewrite ?Hmax; try done.
  - destruct sh_wf0. constructor; simpl; try done; [|lia].
    rewrite zlen_app, zlen_replicate by (unfold PAGE_SIZE; lia). unfold PAGE_SIZE. lia.
  - by rewrite (page_app_l _ _ a.(st_num)) by (done || lia).
  - eapply (free_chain_ext (pg_file p)); [|done].
    eapply Forall_impl; [exact sh_range0|]. unfold _RESERVED_PAGES. simpl. intros pid Hr.
    split; [lia|]. apply (page_app_l _ _ a.(st_num)); [done|lia].
  - eapply Forall_impl; [exact sh_range0|]. simpl. lia.
  - intros x Hx Hnx. destruct (Z.leb_spec (st_num a) x), (Z.ltb_spec x n); simpl; try lia.
    + apply (page_app_zeros _ a.(st_num)); [done|lia].
    + rewrite (page_app_l _ _ a.(st_num)) by (done || lia). apply sh_pages0; [lia|done].
Qed.

Lemma extend_represents p a n :
  represents p a → n < 2 ^ 32 →
  ∃ p', _extend_to_unlocked n p = (Ok (), p') ∧ represents p' (st_extend n a).
Proof.
  intros [Hs Hh] Hn. unfold _extend_to_unlocked, get, modify, mbind, M_bind. cbv beta iota.
  rewrite (sh_num p a Hs). destruct (Z.leb_spec n (st_num a)) as [Hle|Hlt].
  - exists p. split; [done|]. split; [|done]. destruct Hs. unfold st_extend.
    rewrite Z.max_r by done. constructor; simpl; try done. intros x Hx Hnx.
    destruct (Z.leb_spec (st_num a) x); simpl; [lia|]. by apply sh_pages0.
  - rewrite <-(sh_num p a Hs). apply write_header_represents. by apply shows_extend.
Qed.

Lemma check_open_ok p a : represents p a → _check_open p = (Ok (), p).
Proof. intros [[[Ho _ _ _ _] _ _ _ _ _ _ _] _]. unfold _check_open, mbind, M_bind, get, assert, lift. by rewrite Ho. Qed.

(** Rewriting the client's part of page 0 *)
Lemma represents_write0 p a d :
  represents p a → zlen d = PAGE_SIZE →
  ∃ d', _protect_header p d = Ok d' ∧
  represents (set_file (fwrite p.(pg_file) 0 d') p)
             (mkStore a.(st_num) a.(st_pages) (zdrop 24 d) a.(st_free) a.(st_lsn)).
Proof.
  intros [Hs Hh] Hd. destruct (shows_bounds p a Hs) as [Hb Hl]. unfold PAGE_SIZE in Hd.
  rewrite protect_header_ok by ((by apply sh_wf with a) || (rewrite Hd; lia)).
  eexists. split; [reflexivity|].
  assert (zlen (patch d 0 (header_bytes p)) = 4096) as Hz
    by (rewrite zlen_patch; rewrite ?zlen_header_bytes; lia).
  rewrite fwrite_inside by lia.
  assert (∀ x, 1 <= x < st_num a →
    page (patch (pg_file p) 0 (patch d 0 (header_bytes p))) x = page (pg_file p) x) as Hpages.
  { intros x Hx. unfold page, fread, PAGE_SIZE. apply slice_patch_after; lia. }
  assert (zlen (patch (pg_file p) 0 (patch d 0 (header_bytes p))) = zlen (pg_file p)) as Hz'
    by (apply zlen_patch; lia).
  destruct Hs. split; [constructor; simpl; try done|].
  - destruct sh_wf0. constructor; simpl; congruence || done.
  - unfold page, fread, PAGE_SIZE. rewrite zdrop_slice by lia.
    rewrite slice_patch_within by lia.
    unfold slice. rewrite !Z.sub_0_r. rewrite ztake_all.
    + unfold patch. rewrite ztake_0, app_nil_l, zlen_header_bytes.
      apply zdrop_app. by rewrite zlen_header_bytes.
    + rewrite zlen_zdrop by lia. lia.
  - eapply (free_chain_ext (pg_file p)); [|done].
    eapply Forall_impl; [exact sh_range0|]. unfold _RESERVED_PAGES. simpl. intros pid Hr.
    split; [lia|]. apply Hpages. lia.
  - intros x Hx Hnx. rewrite Hpages by done. by apply sh_pages0.
  - simpl. rewrite slice_patch_within by lia. rewrite !Z.sub_0_r.
    rewrite slice_patch_within by (rewrite ?zlen_header_bytes; lia).
    rewrite !Z.sub_0_r. apply slice_full. rewrite zlen_header_bytes. lia.
Qed.

Lemma exec_write_refines p a pid d :
  represents p a → legal (OpWrite pid d) a →
  ∃ p', exec (OpWrite pid d) p = ((spec (OpWrite pid d) a).1, p') ∧
        represents p' (spec (OpWrite pid d) a).2.
Proof.
  intros Hr [Hfr Hlt]. simpl. unfold write_page. mrun. rewrite (run_Ok _ _ _ _ _ (check_open_ok _ _ Hr)).
  mrun. destruct (Z.eqb_spec (zlen d) PAGE_SIZE) as [Hd|]; simpl negb; cbv iota; mrun; [|eauto].
  destruct (Z.leb_spec 0 pid), (Z.ltb_spec pid 0); try lia; mrun; [|eauto].
  destruct (extend_represents p a (pid + 1) Hr Hlt) as (p1 & Hx & Hr1).
  assert ((if pg_num_pages p <=? pid then _extend_to_unlocked (pid + 1) else mret ()) p
          = (Ok (), p1)) as Hx'.
  { destruct (Z.leb_spec (pg_num_pages p) pid); [done|]. revert Hx.
    unfold _extend_to_unlocked. mrun. destruct (Z.leb_spec (pid + 1) (pg_num_pages p)); [done|lia]. }
  rewrite (run_Ok _ _ _ _ _ Hx'). mrun. unfold st_write. destruct (Z.eqb_spec pid 0) as [->|].
  - destruct (represents_write0 _ _ d Hr1 Hd) as (d' & Hd' & Hr2). rewrite Hd'. mrun.
    eexists. split; [reflexivity|exact Hr2].
  - mrun. eexists. split; [reflexivity|]. simpl. apply (represents_write _ _ pid d Hr1); simpl; [lia|done|done].
Qed.

Lemma exec_read_refines p a pid :
  represents p a → legal (OpRead pid) a →
  exec (OpRead pid) p = ((spec (OpRead pid) a).1, p).
Proof.
  intros Hr Hfr. simpl. unfold read_page. mrun. rewrite (run_Ok _ _ _ _ _ (check_open_ok _ _ Hr)).
  mrun. destruct Hr as [Hs Hh]. destruct (shows_bounds p a Hs) as [Hb Hl]. rewrite (sh_num _ _ Hs).
  destruct (Z.leb_spec 0 pid); mrun; [|done].
  destruct (Z.ltb_spec pid (st_num a)); mrun; [|done]. cbv zeta.
  fold (page (pg_file p) pid). rewrite (page_zlen _ a.(st_num)) by done.
  rewrite Z.eqb_refl. mrun. simpl andb. cbv iota. destruct (Z.eqb_spec pid 0) as [->|].
  - rewrite page_0_header by (done || by apply sh_wf with a).
    rewrite (sh_rest _ _ Hs), <-(free_chain_head _ _ _ (sh_chain _ _ Hs)), <-(sh_num _ _ Hs),
      <-(sh_lsn _ _ Hs). done.
  - rewrite (sh_pages _ _ Hs) by (done || lia). done.
Qed.

Lemma exec_lsn_refines p a lsn :
  represents p a → legal (OpLsn lsn) a →
  ∃ p', exec (OpLsn lsn) p = ((spec (OpLsn lsn) a).1, p') ∧
        represents p' (spec (OpLsn lsn) a).2.
Proof.
  intros Hr Hlt. simpl in *. unfold set_last_lsn. mrun.
  destruct (Z.leb_spec 0 lsn), (Z.ltb_spec lsn 0); try lia; mrun; [|eauto].
  rewrite (run_Ok _ _ _ _ _ (check_open_ok _ _ Hr)). mrun.
  rewrite (sh_lsn _ _ (proj1 Hr)). destruct (Z.ltb_spec (st_lsn a) lsn); mrun.
  - assert (shows (set_lsn lsn p)
      (mkStore (st_num a) (st_pages a) (st_rest a) (st_free a) (Z.max lsn (st_lsn a)))) as Hs.
    { destruct Hr as [[[] ? ? ? ? ? ? ?] _]. rewrite Z.max_l by lia.
      constructor; simpl; try done. }
    destruct (write_header_represents _ _ Hs) as (p' & Hw & Hp').
    rewrite (run_Ok _ _ _ _ _ Hw). eexists. split; [reflexivity|exact Hp'].
  - exists p. rewrite Z.max_r by lia. by destruct a.
Qed.

Lemma exec_free_refines p a pid :
  represents p a → legal (OpFree pid) a →
  ∃ p', exec (OpFree pid) p = ((spec (OpFree pid) a).1, p') ∧
        represents p' (spec (OpFree pid) a).2.
Proof.
  intros Hr Hfr. simpl in *. unfold free_page. mrun. rewrite (run_Ok _ _ _ _ _ (check_open_ok _ _ Hr)).
  mrun. destruct Hr as [Hs Hh]. rewrite (sh_num _ _ Hs). unfold _RESERVED_PAGES.
  destruct (shows_bounds p a Hs) as [Hb Hl].
  destruct (Z.ltb_spec pid 4), (Z.leb_spec (st_num a) pid), (Z.leb_spec 0 pid),
    (Z.leb_spec 4 pid), (Z.ltb_spec pid (st_num a)); try lia; mrun;
    try (exists p; split; [reflexivity|by split]).
  pose proof (sh_wf _ _ Hs) as Hwf. destruct Hwf as [Ho Hlen Hn Hhd Hlsn].
  rewrite pack_ule_ok by done. mrun. simpl orb. cbv iota.
  set (p1 := set_free_head pid _).
  assert (shows p1 (mkStore (st_num a) (st_pages a) (st_rest a) (pid :: st_free a) (st_lsn a))) as Hs1.
  { subst p1. unfold PAGE_SIZE in *. set (w := le_bytes 4 (pg_free_head p)).
    assert (zlen w = 4) as Hw by apply zlen_le_bytes. rewrite fwrite_inside by lia.
    assert (zlen (patch (pg_file p) (pid * 4096) w) = zlen (pg_file p)) as Hz by (apply zlen_patch; lia).
    assert (∀ x, 0 <= x < st_num a → x ≠ pid →
      page (patch (pg_file p) (pid * 4096) w) x = page (pg_file p) x) as Hpages.
    { intros x Hx Hne. unfold page, fread, PAGE_SIZE.
      destruct (decide (x < pid)); [apply slice_patch_before|apply slice_patch_after]; lia. }
    destruct Hs. constructor; simpl; try done.
    - constructor; simpl; unfold PAGE_SIZE; try done; lia.
    - by rewrite Hpages by lia.
    - split; [done|]. unfold PAGE_SIZE. rewrite slice_patch_same by lia.
      subst w. rewrite le_val_le_bytes_small by done.
      eapply (free_chain_ext (pg_file p)); [|done]. apply Forall_forall. intros x Hx.
      rewrite Forall_forall in sh_range0. pose proof (sh_range0 x Hx). unfold _RESERVED_PAGES in *.
      split; [lia|]. apply Hpages; [lia|congruence].
    - by constructor.
    - constructor; [unfold _RESERVED_PAGES; lia|done].
    - intros x Hx Hnx. apply not_elem_of_cons in Hnx as [Hne Hnx].
      rewrite Hpages by (done || lia). by apply sh_pages0. }
  destruct (write_header_represents _ _ Hs1) as (p' & Hw & Hp').
  rewrite (run_Ok _ _ _ _ _ Hw). eexists. split; [reflexivity|exact Hp'].
Qed.

Lemma exec_alloc_refines p a :
  represents p a → legal OpAlloc a →
  ∃ p', exec OpAlloc p = ((spec OpAlloc a).1, p') ∧ represents p' (spec OpAlloc a).2.
Proof.
  intros Hr Hlt. simpl in *. unfold allocate_page. mrun. rewrite (run_Ok _ _ _ _ _ (check_open_ok _ _ Hr)).
  mrun. pose proof (sh_chain _ _ (proj1 Hr)) as Hc. pose proof (sh_range _ _ (proj1 Hr)) as Hrg.
  pose proof (sh_nodup _ _ (proj1 Hr)) as Hnd. destruct (shows_bounds _ _ (proj1 Hr)) as [Hb Hl].
  rewrite (free_chain_head _ _ _ Hc). destruct (st_free a) as [|pid fl] eqn:Hfl; simpl free_head_of.
  - rewrite Z.eqb_refl. simpl negb. cbv iota zeta. mrun.
    rewrite (sh_num _ _ (proj1 Hr)).
    destruct (extend_represents p a (st_num a + 1) Hr ltac:(lia)) as (p1 & Hx & Hr1).
    rewrite (run_Ok _ _ _ _ _ Hx). mrun. eauto.
  - apply Forall_cons in Hrg as [Hp Hrg]. apply NoDup_cons in Hnd as [Hnin Hnd]. unfold _RESERVED_PAGES in Hp.
    destruct (Z.eqb_spec pid _NO_FREE) as [->|_]; [unfold _NO_FREE in Hp; lia|].
    simpl negb. cbv iota zeta. destruct Hc as [Hhd Hc].
    rewrite unpack_ule_total by (unfold PAGE_SIZE; lia). mrun.
    set (next := le_val _) in *.
    assert (0 <= next < 2 ^ 32) as Hnext.
    { subst next. pose proof (le_val_bound (slice (pg_file p) (pid * PAGE_SIZE) (pid * PAGE_SIZE + 4))) as Hbd.
      rewrite zlen_slice in Hbd by (unfold PAGE_SIZE; lia).
      by replace (8 * (pid * PAGE_SIZE + 4 - pid * PAGE_SIZE)) with 32 in Hbd by lia. }
    clearbody next. set (p1 := set_file _ _).
    assert (shows p1 (mkStore (st_num a) (fupd pid zero_page (st_pages a)) (st_rest a) fl (st_lsn a))) as Hs1.
    { subst p1. destruct Hr as [Hs _]. simpl.
      pose proof zlen_zero_page as Hzp.
      rewrite fwrite_inside by (unfold PAGE_SIZE in *; lia).
      assert (zlen (patch (pg_file p) (pid * PAGE_SIZE) zero_page) = zlen (pg_file p)) as Hz
        by (apply zlen_patch; unfold PAGE_SIZE in *; lia).
      destruct Hs. constructor; simpl; try done.
      - destruct sh_wf0. constructor; simpl; congruence || done.
      - rewrite (page_patch _ a.(st_num)) by (done || lia). by rewrite decide_False by lia.
      - eapply (free_chain_ext (pg_file p)); [|exact Hc]. apply Forall_forall. intros x Hx.
        rewrite Forall_forall in Hrg. pose proof (Hrg x Hx). unfold _RESERVED_PAGES in *. split; [lia|].
        rewrite (page_patch _ a.(st_num)) by (done || lia). rewrite decide_False; [done|congruence].
      - intros x Hx Hnx. rewrite (page_patch _ a.(st_num)) by (done || lia). unfold fupd.
        case_decide; [done|]. apply sh_pages0; [done|]. rewrite Hfl. by apply not_elem_of_cons. }
    destruct (write_header_represents _ _ Hs1) as (p' & Hw & Hp').
    rewrite (run_Ok _ _ _ _ _ Hw). mrun. eexists. split; [reflexivity|exact Hp'].
Qed.

(** * Opening and closing *)

Definition empty_store : PageStore :=
  mkStore 4 (λ _, zero_page) (zreplicate 4072 x00) [] 0.

Definition fresh_pager : Pager :=
  let p := mkPager [] _RESERVED_PAGES _NO_FREE 0 false in
  set_file (patch zero_page 0 (header_bytes p) ++ zreplicate (3 * PAGE_SIZE) x00) p.

Lemma zlen_fresh_header p : zlen (patch zero_page 0 (header_bytes p)) = PAGE_SIZE.
Proof.
  rewrite zlen_patch; rewrite ?zlen_header_bytes, ?zlen_zero_page; unfold PAGE_SIZE; lia.
Qed.

Lemma fresh_wf : pager_wf fresh_pager.
Proof.
  constructor; [done| |simpl; unfold _RESERVED_PAGES; lia|done|done].
  unfold fresh_pager, set_file. cbn [pg_file pg_num_pages].
  rewrite zlen_app, zlen_fresh_header, zlen_replicate by (unfold PAGE_SIZE; lia).
  unfold PAGE_SIZE, _RESERVED_PAGES. lia.
Qed.

Lemma init_new_fresh : _init_new = Ok fresh_pager.
Proof.
  unfold _init_new. set (p0 := mkPager [] _RESERVED_PAGES _NO_FREE 0 false).
  assert (_write_header p0 = (Ok (), set_file (patch zero_page 0 (header_bytes p0)) p0)) as ->.
  { unfold _write_header. mrun. change (zlen (fread (pg_file p0) 0 PAGE_SIZE) =? PAGE_SIZE) with false.
    cbv iota zeta. rewrite (eq_refl : _protect_header p0 zero_page = _protect_header fresh_pager zero_page).
    rewrite (protect_header_ok fresh_pager) by (apply fresh_wf || (rewrite zlen_zero_page; unfold PAGE_SIZE; lia)).
    mrun. unfold put. by rewrite fwrite_at_end. }
  rewrite bind_Ok. simpl pg_file. simpl pg_num_pages.
  rewrite zlen_fresh_header.
  change (PAGE_SIZE <? _RESERVED_PAGES * PAGE_SIZE) with true. cbv iota.
  rewrite fwrite_at_end; [reflexivity|]. by rewrite zlen_fresh_header.
Qed.

Lemma fresh_represents : represents fresh_pager empty_store.
Proof.
  set (p0 := mkPager [] _RESERVED_PAGES _NO_FREE 0 false).
  assert (zlen (patch zero_page 0 (header_bytes p0)) = 1 * PAGE_SIZE) as Hz by apply zlen_fresh_header.
  split.
  - constructor; [apply fresh_wf|done|done| |done|constructor|constructor|].
    + unfold fresh_pager, set_file. cbn [pg_file]. rewrite (page_app_l _ _ 1) by (done || lia). unfold page, fread, PAGE_SIZE in *.
      rewrite slice_full by (rewrite zlen_fresh_header; unfold PAGE_SIZE; lia).
      unfold patch. rewrite ztake_0, app_nil_l.
      rewrite zdrop_app by (by rewrite zlen_header_bytes). rewrite zlen_header_bytes.
      by rewrite zdrop_zero_page.
    + intros pid Hp _. cbn [empty_store st_num] in Hp. unfold fresh_pager, set_file. cbn [pg_file]. apply (page_app_zeros _ 1); [done|lia].
  - unfold fresh_pager, set_file. cbn [pg_file]. rewrite slice_app_l by (rewrite ?zlen_fresh_header; unfold PAGE_SIZE; lia).
    apply slice_patch_same; rewrite ?zlen_header_bytes, ?zlen_zero_page; unfold PAGE_SIZE; lia.
Qed.

Lemma reopen p a : represents p a → open_file (Some p.(pg_file)) = Ok p.
Proof.
  intros [Hs Hh]. destruct (shows_bounds p a Hs) as [Hb Hl]. unfold open_file.
  rewrite Hl. destruct (Z.ltb_spec 0 (st_num a * 4096)); [|lia].
  unfold PAGE_SIZE. rewrite Z.mod_mul by done. simpl negb. simpl andb. cbv iota.
  destruct (Z.eqb_spec (st_num a * 4096) 0); [lia|]. unfold _read_header.
  rewrite fread_page_0.
  pose proof (sh_wf _ _ Hs) as Hwf. rewrite page_0_header by done.
  set (r := zdrop 24 _). unfold header_bytes.
  rewrite <-app_assoc, slice_prefix by done. rewrite bool_decide_true by done. cbv iota beta delta [negb].
  destruct Hwf as [Ho Hlen Hn Hhd Hlsn].
  unfold _HDR_VERSION_OFF, _HDR_PAGE_SIZE_OFF, _HDR_NUM_PAGES_OFF, _HDR_FREE_HEAD_OFF, _HDR_LAST_LSN_OFF.
  rewrite <-!app_assoc.
  rewrite (unpack_ule_middle 2 MAGIC _HEADER_VERSION _ 8) by (split; done).
  rewrite bind_Ok, Z.eqb_refl. cbv iota beta delta [negb]. rewrite (app_assoc MAGIC).
  rewrite (unpack_ule_middle 2 (MAGIC ++ _) PAGE_SIZE _ 10) by (split; done).
  rewrite bind_Ok, Z.eqb_refl. cbv iota beta delta [negb]. rewrite (app_assoc (MAGIC ++ _)).
  rewrite (unpack_ule_middle 4 ((MAGIC ++ _) ++ _) _ _ 12) by (done || lia).
  rewrite bind_Ok. rewrite (app_assoc ((MAGIC ++ _) ++ _)).
  rewrite (unpack_ule_middle 4 (((MAGIC ++ _) ++ _) ++ _) _ _ 16) by (done || lia).
  rewrite bind_Ok. rewrite (app_assoc (((MAGIC ++ _) ++ _) ++ _)).
  rewrite (unpack_ule_middle 4 ((((MAGIC ++ _) ++ _) ++ _) ++ _) _ _ 20) by (done || lia).
  rewrite bind_Ok.
  destruct p; simpl in *. by subst.
Qed.

Lemma exec_refines p a o :
  represents p a → legal o a →
  ∃ p', exec o p = ((spec o a).1, p') ∧ represents p' (spec o a).2.
Proof.
  destruct o as [pid|pid d| |pid|lsn]; intros Hr Hl.
  - exists p. split; [by apply exec_read_refines|]. simpl. by destruct (_ && _).
  - by apply exec_write_refines.
  - by apply exec_alloc_refines.
  - by apply exec_free_refines.
  - by apply exec_lsn_refines.
Qed.

(** A run of operations, each result observed *)
Fixpoint exec_all (os : list op) (p : Pager) : list (result outcome) * Pager :=
  match os with
  | [] => ([], p)
  | o :: os => let '(r, p) := exec o p in let '(rs, p) := exec_all os p in (r :: rs, p)
  end.
Fixpoint spec_all (os : list op) (a : PageStore) : list (result outcome) * PageStore :=
  match os with
  | [] => ([], a)
  | o :: os => let '(r, a) := spec o a in let '(rs, a) := spec_all os a in (r :: rs, a)
  end.
Fixpoint legal_all (os : list op) (a : PageStore) : Prop :=
  match os with
  | [] => True
  | o :: os => legal o a ∧ legal_all os (spec o a).2
  end.

Lemma exec_all_refines os p a :
  represents p a → legal_all os a →
  ∃ p', exec_all os p = ((spec_all os a).1, p') ∧ represents p' (spec_all os a).2.
Proof.
  revert p a. induction os as [|o os IH]; intros p a Hr Hl; simpl; [eauto|].
  destruct Hl as [Ho Hl]. destruct (exec_refines p a o Hr Ho) as (p1 & -> & Hr1).
  destruct (spec o a) as [r a1]. simpl in *.
  destruct (IH p1 a1 Hr1 Hl) as (p2 & -> & Hr2). destruct (spec_all os a1). eauto.
Qed.


(** C11: from a missing file, any run of operations that respects the contract
    gives the specified results, and at its end the bytes of the file alone
    give back the same pager when they are opened. *)
Theorem pager_durable os :
  legal_all os empty_store →
  ∃ p p', open_file None = Ok p ∧ exec_all os p = ((spec_all os empty_store).1, p') ∧
    represents p' (spec_all os empty_store).2 ∧ open_file (Some p'.(pg_file)) = Ok p'.
Proof.
  intros Hl. exists fresh_pager.
  destruct (exec_all_refines os _ _ fresh_represents Hl) as (p' & Hx & Hr).
  exists p'. split_and!; [apply init_new_fresh|done|done|by apply reopen with (spec_all os empty_store).2].
Qed.

Lemma close_ok p a :
  represents p a → close p = (Ok (), set_closed p).
Proof.
  intros [Hs Hh]. destruct (shows_bounds p a Hs) as [Hb Hl]. unfold close. mrun.
  pose proof (sh_wf _ _ Hs) as Hwf. rewrite (wf_open _ Hwf).
  unfold mbind, M_bind, catch. rewrite write_header_ok by done. unfold modify.
  rewrite <-Hh. rewrite patch_slice_id by lia. by destruct p.
Qed.

(** closing keeps the file as it is, closing again does nothing, and on a
    closed pager every operation is a [RuntimeError] that changes nothing,
    unless its arguments are rejected first. *)
Theorem close_is_final p a o :
  represents p a →
  close p = (Ok (), set_closed p) ∧
  close (set_closed p) = (Ok (), set_closed p) ∧
  exec o (set_closed p) =
    (Err (match o with OpLsn lsn => if lsn <? 0 then ValueError else RuntimeError
                     | _ => RuntimeError end), set_closed p).
Proof.
  intros Hr. split; [by apply close_ok with a|]. split; [reflexivity|].
  destruct o as [pid|pid d| |pid|lsn]; try reflexivity.
  simpl. unfold set_last_lsn. mrun. destruct (Z.leb_spec 0 lsn), (Z.ltb_spec lsn 0); try lia; reflexivity.
Qed.

(** what is not a database file is refused: a size that is not a whole
    number of pages, a wrong magic, version or page size. *)
Theorem open_file_rejects f :
  0 < zlen f →
  zlen f mod PAGE_SIZE ≠ 0 ∨ slice (page f 0) 0 8 ≠ MAGIC ∨
  unpack_ule 2 (page f 0) 8 ≠ Ok _HEADER_VERSION ∨ unpack_ule 2 (page f 0) 10 ≠ Ok PAGE_SIZE →
  open_file (Some f) = Err ValueError.
Proof.
  intros Hlen Hbad. unfold open_file. destruct (Z.ltb_spec 0 (zlen f)); [|lia].
  destruct (Z.eqb_spec (zlen f mod PAGE_SIZE) 0) as [Hm|]; [|done]. simpl negb. simpl andb. cbv iota.
  destruct (Z.eqb_spec (zlen f) 0); [lia|]. destruct Hbad as [|Hbad]; [done|]. unfold _read_header.
  rewrite fread_page_0.
  assert (PAGE_SIZE <= zlen f) as Hge.
  { unfold PAGE_SIZE in *. Z.to_euclidean_division_equations. lia. }
  assert (zlen (page f 0) = PAGE_SIZE) as Hz.
  { unfold page, fread, PAGE_SIZE in *. rewrite zlen_slice; lia. }
  case_bool_decide; [|done]. destruct Hbad as [|Hbad]; [done|]. cbv iota beta delta [negb].
  unfold _HDR_VERSION_OFF, _HDR_PAGE_SIZE_OFF.
  rewrite (unpack_ule_total 2 _ 8), (unpack_ule_total 2 _ 10) in Hbad
    by (rewrite ?Hz; unfold PAGE_SIZE; lia).
  rewrite (unpack_ule_total 2 _ 8) by (rewrite ?Hz; unfold PAGE_SIZE; lia). rewrite bind_Ok.
  destruct (Z.eqb_spec (le_val (slice (page f 0) 8 (8 + Z.of_nat 2))) _HEADER_VERSION) as [E|];
    [|done]. destruct Hbad as [Hbad|Hbad]; [by rewrite E in Hbad|]. cbv iota beta delta [negb].
  rewrite (unpack_ule_total 2 _ 10) by (rewrite ?Hz; unfold PAGE_SIZE; lia). rewrite bind_Ok.
  destruct (Z.eqb_spec (le_val (slice (page f 0) 10 (10 + Z.of_nat 2))) PAGE_SIZE) as [E'|]; [|done].
  by rewrite E' in Hbad.
Qed.

(** * Concrete runs *)

Definition demo_page : bytes := zreplicate PAGE_SIZE xab.
Definition demo_ops : list op :=
  [OpAlloc; OpWrite 4 demo_page; OpRead 4; OpFree 4; OpAlloc; OpWrite 6 demo_page; OpRead 5;
   OpLsn 7; OpRead 9].
Definition demo_results : list (result outcome) :=
  [Ok (RPid 4); Ok RUnit; Ok (RPage demo_page); Ok RUnit; Ok (RPid 4); Ok RUnit;
   Ok (RPage zero_page); Ok RUnit; Err IndexError].


Lemma demo_legal : legal_all demo_ops empty_store.
Proof.
  unfold demo_ops, legal_all, legal.
  repeat split; first [ vm_compute; reflexivity | intros Hin; vm_compute in Hin; inversion Hin ].
Qed.

Lemma pager_durable_witness :
  ∃ p p', open_file None = Ok p ∧ exec_all demo_ops p = (demo_results, p') ∧
    open_file (Some p'.(pg_file)) = Ok p'.
Proof.
  destruct (pager_durable demo_ops demo_legal) as (p & p' & H1 & H2 & _ & H4).
  exists p, p'. split; [exact H1|]. split; [|exact H4]. exact H2.
Defined.

Lemma close_is_final_witness :
  exec (OpRead 0) (set_closed fresh_pager) = (Err RuntimeError, set_closed fresh_pager).
Proof. apply (close_is_final fresh_pager empty_store (OpRead 0) fresh_represents). Defined.

Lemma open_file_rejects_witness : open_file (Some [x00]) = Err ValueError.
Proof.
  apply open_file_rejects; [vm_compute; reflexivity|]. left. vm_compute. discriminate.
Defined.

(** Freeing a page twice is not refused: the page is then handed out for ever. *)
Example double_free_reuses_page :
  (exec_all [OpAlloc; OpFree 4; OpFree 4; OpAlloc; OpAlloc] fresh_pager).1
  = [Ok (RPid 4); Ok RUnit; Ok RUnit; Ok (RPid 4); Ok (RPid 4)].
Proof. vm_compute. reflexivity. Qed.
