(* ===== verification/BufferPool.v ===== *)
(** Components [storage/buffer_pool.py] and [tx/snapshot.py]: the LRU cache of
    pages in front of a pager.  The pool is written against an interface of
    the pager, as the code is duck-typed; [Pager] implements it.  The
    read/write lock around every method is modelled in [RWLock]; here each
    method runs to its end. *)
From S2P Require Import Prelude.
From S2P Require Import Bytes.
From S2P Require Import Pager.
From Stdlib Require Import ZArith.
Local Open Scope Z_scope.

(** * What the pool uses of a pager, and what it relies on *)

Class PagerOps (P : Type) := {
  pi_read_page : Z → M P bytes;
  pi_write_page : Z → bytes → M P unit;
  pi_last_lsn : P → Z;
}.
(** [stores p m]: the pager [p] holds the pages [m] for its client. *)
Class PagerLaws (P : Type) `{PagerOps P} (stores : P → gmap Z bytes → Prop) : Prop := {
  pi_read_law p m pid d :
    stores p m → m !! pid = Some d → pi_read_page pid p = (Ok d, p);
  pi_write_law p m pid d :
    stores p m → is_Some (m !! pid) → zlen d = PAGE_SIZE →
    ∃ p', pi_write_page pid d p = (Ok (), p') ∧ stores p' (<[pid := d]> m) ∧
          pi_last_lsn p' = pi_last_lsn p;
  pi_size_law p m pid d : stores p m → m !! pid = Some d → zlen d = PAGE_SIZE;
}.

Global Instance Pager_ops : PagerOps Pager := {|
  pi_read_page := read_page;
  pi_write_page := write_page;
  pi_last_lsn := pg_last_lsn;
|}.

(** The client's pages of a file: allocated, not free, not page 0 *)
Definition pager_stores (p : Pager) (m : gmap Z bytes) : Prop :=
  ∃ a, represents p a ∧
    map_Forall (λ pid d, (1 <= pid < a.(st_num)) ∧ (pid ∉ a.(st_free)) ∧
                         a.(st_pages) pid = d ∧ zlen d = PAGE_SIZE) m.

Global Instance Pager_laws : PagerLaws Pager pager_stores.
Proof.
  split.
  - intros p m pid d (a & Hr & Hm) Hd. destruct (Hm pid d Hd) as (Hp & Hf & <- & _).
    pose proof (exec_read_refines p a pid Hr Hf) as Hx. revert Hx. simpl.
    destruct (Z.leb_spec 0 pid), (Z.ltb_spec pid (st_num a)), (Z.eqb_spec pid 0); try lia.
    simpl. unfold mbind, M_bind. cbn [pi_read_page Pager_ops].
    destruct (read_page pid p) as [[]]; intros Hx; by inversion Hx.
  - intros p m pid d (a & Hr & Hm) [d0 Hd0] Hd. destruct (Hm pid d0 Hd0) as (Hp & Hf & _ & _).
    destruct (exec_write_refines p a pid d Hr) as (p' & Hx & Hr').
    { split; [done|]. destruct (shows_bounds _ _ (proj1 Hr)). lia. }
    revert Hx Hr'. simpl. rewrite Hd, Z.eqb_refl. simpl negb. cbv iota.
    destruct (Z.ltb_spec pid 0); [lia|]. unfold st_write. destruct (Z.eqb_spec pid 0); [lia|].
    simpl. unfold mbind, M_bind. cbn [pi_write_page pi_last_lsn Pager_ops].
    destruct (write_page pid d p) as [[[]|] p1]; intros Hx Hr'; [|discriminate].
    injection Hx as <-. exists p1. split; [done|]. split.
    + eexists. split; [exact Hr'|]. cbn [snd st_num st_free st_pages]. intros x dx Hx.
      rewrite Z.max_r by lia. apply lookup_insert_Some in Hx as [[<- <-]|[Hne Hx]].
      * split_and!; try done; try lia. unfold fupd. by rewrite decide_True.
      * destruct (Hm x dx Hx) as (? & ? & ? & ?). split_and!; try done; try lia.
        unfold fupd. rewrite decide_False by congruence.
        destruct (Z.leb_spec (st_num a) x); [lia|]. done.
    + destruct (sh_lsn _ _ (proj1 Hr)). exact (sh_lsn _ _ (proj1 Hr')).
  - intros p m pid d (a & _ & Hm) Hd. apply (Hm pid d Hd).
Qed.

(** * Snapshot *)

Record Snapshot := mkSnapshot { lsn : Z }.
Definition is_visible (s : Snapshot) (page_lsn : Z) : bool := page_lsn <=? s.(lsn).
Definition is_newer (s : Snapshot) (page_lsn : Z) : bool := s.(lsn) <? page_lsn.

(** a page is newer than a snapshot exactly when it is not visible in it,
    and what is visible in a snapshot stays visible in every later one. *)
Theorem snapshot_visibility s s' page_lsn :
  s.(lsn) <= s'.(lsn) →
  is_newer s page_lsn = negb (is_visible s page_lsn) ∧
  (is_visible s page_lsn = true → is_visible s' page_lsn = true).
Proof.
  unfold is_newer, is_visible. intros Hle.
  destruct (Z.ltb_spec (lsn s) page_lsn), (Z.leb_spec page_lsn (lsn s)); try lia;
    (split; [done|]); intros; try done.
Qed.

(** * [OrderedDict] from page id to bytes, the oldest entry first *)

Abbreviation odict := (list (Z * bytes)).

Fixpoint od_get (k : Z) (l : odict) : option bytes :=
  match l with
  | [] => None
  | (k', v) :: l => if decide (k = k') then Some v else od_get k l
  end.
(** [pop(k, None)] *)
Definition od_del (k : Z) (l : odict) : odict := filter (λ kv, kv.1 ≠ k) l.
(** [d[k] = v]: in place when [k] is there, at the end otherwise *)
Fixpoint od_set (k : Z) (v : bytes) (l : odict) : odict :=
  match l with
  | [] => [(k, v)]
  | (k', v') :: l => if decide (k = k') then (k, v) :: l else (k', v') :: od_set k v l
  end.
(** [move_to_end(k)] of a key that is there *)
Definition od_to_end (k : Z) (l : odict) : odict :=
  match od_get k l with Some v => od_del k l ++ [(k, v)] | None => l end.

(** * The pool *)

Record Pool (P : Type) := mkPool {
  bp_pager : P;
  bp_capacity : Z;
  bp_cache : odict;
  bp_page_lsn : gmap Z Z;
  bp_dirty : gset Z;
  bp_hits : Z;
  bp_misses : Z;
}.
Arguments mkPool {P}.
Arguments bp_pager {P}.
Arguments bp_capacity {P}.
Arguments bp_cache {P}.
Arguments bp_page_lsn {P}.
Arguments bp_dirty {P}.
Arguments bp_hits {P}.
Arguments bp_misses {P}.

Section Pool.
Context {P : Type} `{PagerOps P}.
Local Abbreviation pool := (Pool P).

Definition with_pager (p : P) (s : pool) : pool :=
  mkPool p s.(bp_capacity) s.(bp_cache) s.(bp_page_lsn) s.(bp_dirty) s.(bp_hits) s.(bp_misses).
Definition with_cache (c : odict) (s : pool) : pool :=
  mkPool s.(bp_pager) s.(bp_capacity) c s.(bp_page_lsn) s.(bp_dirty) s.(bp_hits) s.(bp_misses).
Definition with_page_lsn (l : gmap Z Z) (s : pool) : pool :=
  mkPool s.(bp_pager) s.(bp_capacity) s.(bp_cache) l s.(bp_dirty) s.(bp_hits) s.(bp_misses).
Definition with_dirty (d : gset Z) (s : pool) : pool :=
  mkPool s.(bp_pager) s.(bp_capacity) s.(bp_cache) s.(bp_page_lsn) d s.(bp_hits) s.(bp_misses).
Definition count_hit (s : pool) : pool :=
  mkPool s.(bp_pager) s.(bp_capacity) s.(bp_cache) s.(bp_page_lsn) s.(bp_dirty) (s.(bp_hits) + 1) s.(bp_misses).
Definition count_miss (s : pool) : pool :=
  mkPool s.(bp_pager) s.(bp_capacity) s.(bp_cache) s.(bp_page_lsn) s.(bp_dirty) s.(bp_hits) (s.(bp_misses) + 1).

Definition on_pager {A} (m : M P A) : M pool A := zoom bp_pager with_pager m.

(** [BufferPool(pager, capacity)] *)
Definition new_pool (p : P) (capacity : Z) : result pool :=
  if capacity <=? 0 then Err ValueError else Ok (mkPool p capacity [] ∅ ∅ 0 0).

Definition pool_len (s : pool) : Z := zlen s.(bp_cache).

(** [_cache.pop(pid, None); _page_lsn.pop(pid, None); _dirty.discard(pid)] *)
Definition drop_entry (pid : Z) : M pool unit :=
  modify (λ s, with_cache (od_del pid s.(bp_cache)) s);;
  modify (λ s, with_page_lsn (delete pid s.(bp_page_lsn)) s);;
  modify (λ s, with_dirty (s.(bp_dirty) ∖ {[pid]}) s).

(** Make room when the pool is full: pop the least recently used page, and
    write it through if it is dirty. *)
Definition evict : M pool unit :=
  s ← get;
  if s.(bp_capacity) <=? zlen s.(bp_cache) then
    match s.(bp_cache) with
    | [] => raise KeyError
    | (evicted_pid, evicted_data) :: cache =>
        modify (with_cache cache);;
        (if decide (evicted_pid ∈ s.(bp_dirty)) then
           on_pager (pi_write_page evicted_pid evicted_data);;
           modify (λ s, with_dirty (s.(bp_dirty) ∖ {[evicted_pid]}) s)
         else mret ());;
        modify (λ s, with_page_lsn (delete evicted_pid s.(bp_page_lsn)) s)
    end
  else mret ().

Definition _admit (pid : Z) (data : bytes) (last_lsn : Z) : M pool unit :=
  evict;;
  modify (λ s, with_cache (od_set pid data s.(bp_cache)) s);;
  modify (λ s, with_page_lsn (<[pid := last_lsn]> s.(bp_page_lsn)) s).

(** The end of [fetch_page]: load from the pager *)
Definition fetch_miss (pid : Z) : M pool bytes :=
  modify count_miss;;
  data ← on_pager (pi_read_page pid);
  on_disk_lsn ← gets (λ s, pi_last_lsn s.(bp_pager));
  _admit pid data on_disk_lsn;;
  mret data.

Definition fetch_page (pid : Z) (snapshot : option Snapshot) : M pool bytes :=
  s ← get;
  match od_get pid s.(bp_cache) with
  | Some cached =>
      match snapshot with
      | Some snap =>
          let page_lsn := default 0 (s.(bp_page_lsn) !! pid) in
          if is_newer snap page_lsn then
            drop_entry pid;; fetch_miss pid
          else
            modify (with_cache (od_to_end pid s.(bp_cache)));;
            assert (bool_decide (is_Some (s.(bp_page_lsn) !! pid))) KeyError;;
            modify count_hit;; mret cached
      | None =>
          modify (with_cache (od_to_end pid s.(bp_cache)));;
          modify count_hit;; mret cached
      end
  | None => fetch_miss pid
  end.

Definition bp_write_page (pid : Z) (data : bytes) (last_lsn : Z) : M pool unit :=
  s ← get;
  (match od_get pid s.(bp_cache) with
   | Some _ =>
       modify (with_cache (od_to_end pid (od_set pid data s.(bp_cache))));;
       modify (with_page_lsn (<[pid := last_lsn]> s.(bp_page_lsn)))
   | None => _admit pid data last_lsn
   end);;
  modify (λ s, with_dirty ({[pid]} ∪ s.(bp_dirty)) s).

Definition mark_dirty (pid : Z) : M pool unit :=
  s ← get;
  assert (bool_decide (is_Some (od_get pid s.(bp_cache)))) ValueError;;
  modify (with_dirty ({[pid]} ∪ s.(bp_dirty))).

(** The loop of [flush_all], over the entries of the cache *)
Fixpoint flush_entries (l : odict) : M pool unit :=
  match l with
  | [] => mret ()
  | (pid, data) :: l =>
      s ← get;
      (if decide (pid ∈ s.(bp_dirty)) then
         on_pager (pi_write_page pid data);;
         modify (λ s, with_dirty (s.(bp_dirty) ∖ {[pid]}) s)
       else mret ());;
      flush_entries l
  end.
Definition flush_all : M pool unit := s ← get; flush_entries s.(bp_cache).

Definition invalidate (pid : Z) : M pool unit := drop_entry pid.

Definition stats (s : pool) : Z * Z := (s.(bp_hits), s.(bp_misses)).
End Pool.

(** * Ordered dictionaries *)

Abbreviation od_keys l := (map fst l).

Lemma od_get_None k (l : odict) : od_get k l = None ↔ k ∉ od_keys l.
Proof.
  induction l as [|[k' v] l IH]; simpl; [by rewrite elem_of_nil; naive_solver|].
  case_decide as E; [subst|]; rewrite elem_of_cons.
  - split; [discriminate|]. intros Hn. exfalso. apply Hn. by left.
  - rewrite IH. naive_solver.
Qed.
Lemma od_get_Some_keys k v (l : odict) : od_get k l = Some v → k ∈ od_keys l.
Proof.
  intros Hg. destruct (decide (k ∈ od_keys l)) as [|Hn]; [done|].
  apply od_get_None in Hn. congruence.
Qed.
Lemma od_get_del k k' (l : odict) :
  od_get k' (od_del k l) = if decide (k' = k) then None else od_get k' l.
Proof.
  unfold od_del. induction l as [|[a v] l IH]; [by case_decide|].
  destruct (decide (a = k)) as [->|Ha].
  - rewrite filter_cons_False by (simpl; auto). rewrite IH. simpl. by repeat case_decide.
  - rewrite filter_cons_True by done. simpl. rewrite IH. repeat case_decide; congruence.
Qed.
Lemma od_get_app k (l l' : odict) :
  od_get k (l ++ l') = match od_get k l with Some v => Some v | None => od_get k l' end.
Proof. induction l as [|[a v] l IH]; simpl; [done|]. by case_decide. Qed.
Lemma od_get_set k v k' (l : odict) :
  od_get k' (od_set k v l) = if decide (k' = k) then Some v else od_get k' l.
Proof.
  induction l as [|[a w] l IH]; simpl; [done|].
  destruct (decide (k = a)); simpl; [|rewrite IH]; repeat case_decide; congruence.
Qed.
Lemma od_get_to_end k k' (l : odict) : od_get k' (od_to_end k l) = od_get k' l.
Proof.
  unfold od_to_end. destruct (od_get k l) as [v|] eqn:E; [|done].
  rewrite od_get_app, od_get_del. simpl. repeat case_decide; subst; try done.
  by destruct (od_get k' l).
Qed.

Lemma od_keys_del k (l : odict) : od_keys (od_del k l) = filter (λ x, x ≠ k) (od_keys l).
Proof.
  unfold od_del. induction l as [|[a v] l IH]; [done|]. destruct (decide (a = k)) as [->|].
  - rewrite filter_cons_False by (simpl; auto). simpl. rewrite filter_cons_False by auto. done.
  - rewrite filter_cons_True by done. simpl. rewrite filter_cons_True by done. by rewrite <-IH.
Qed.
Lemma od_keys_set_in k v (l : odict) : k ∈ od_keys l → od_keys (od_set k v l) = od_keys l.
Proof.
  induction l as [|[a w] l IH]; simpl; [by intros ?%elem_of_nil|].
  rewrite elem_of_cons. intros Hk. case_decide; simpl; [by subst|]. f_equal. apply IH. naive_solver.
Qed.
Lemma od_set_new k v (l : odict) : k ∉ od_keys l → od_set k v l = l ++ [(k, v)].
Proof.
  induction l as [|[a w] l IH]; simpl; [done|]. rewrite elem_of_cons. intros Hk.
  case_decide; [naive_solver|]. f_equal. apply IH. naive_solver.
Qed.
(** Using a key moves it to the most recent end. *)
Definition touch (k : Z) (ks : list Z) : list Z := filter (λ x, x ≠ k) ks ++ [k].
Lemma od_keys_to_end k (l : odict) :
  k ∈ od_keys l → od_keys (od_to_end k l) = touch k (od_keys l).
Proof.
  intros Hk. unfold od_to_end, touch. destruct (od_get k l) as [v|] eqn:E.
  - rewrite map_app, od_keys_del. done.
  - by apply od_get_None in E.
Qed.
Lemma filter_ne_notin (k : Z) (ks : list Z) : k ∉ ks → filter (λ x, x ≠ k) ks = ks.
Proof.
  induction ks as [|a ks IH]; [done|]. rewrite elem_of_cons. intros Hk.
  rewrite filter_cons_True by naive_solver. f_equal. apply IH. naive_solver.
Qed.
Lemma NoDup_touch k ks : NoDup ks → NoDup (touch k ks).
Proof.
  intros Hn. unfold touch. apply NoDup_app. split_and!; [by apply NoDup_filter| |apply NoDup_singleton].
  intros x [Hx _]%list_elem_of_filter. by rewrite list_elem_of_singleton.
Qed.
Lemma length_touch_in k ks : NoDup ks → k ∈ ks → length (touch k ks) = length ks.
Proof.
  intros Hn Hk. unfold touch. rewrite length_app. simpl. revert Hk. induction Hn as [|a ks Ha Hn IH].
  - by intros ?%elem_of_nil.
  - rewrite elem_of_cons. intros [->|Hk].
    + rewrite filter_cons_False by auto. rewrite filter_ne_notin by done. simpl. lia.
    + rewrite filter_cons_True by congruence. simpl. rewrite IH by done. done.
Qed.

(** * The pool behaves as the pages themselves *)

Section Coherence.
Context {P : Type} {stores : P → gmap Z bytes → Prop} `{PagerLaws P stores}.
Local Abbreviation pool := (Pool P).

(** [holds s m M]: the pool [s] over a pager with pages [m] stands for the
    pages [M].  Each page is cached at most once and the capacity is kept;
    every cached page has an LSN; a dirty page is cached, and only the dirty
    pages may differ from the pager's. *)
Record holds (s : pool) (m M : gmap Z bytes) : Prop := {
  h_stores : stores s.(bp_pager) m;
  h_cap : 0 < s.(bp_capacity);
  h_nodup : NoDup (od_keys s.(bp_cache));
  h_len : zlen s.(bp_cache) <= s.(bp_capacity);
  h_lsn : ∀ pid, pid ∈ od_keys s.(bp_cache) → is_Some (s.(bp_page_lsn) !! pid);
  h_dirty : ∀ pid, pid ∈ s.(bp_dirty) → pid ∈ od_keys s.(bp_cache);
  h_cached : ∀ pid d, od_get pid s.(bp_cache) = Some d → M !! pid = Some d;
  h_clean : ∀ pid, pid ∉ s.(bp_dirty) → m !! pid = M !! pid;
  h_dom : ∀ pid, is_Some (M !! pid) → is_Some (m !! pid);
  h_size : map_Forall (λ _ d, zlen d = PAGE_SIZE) M;
}.

Lemma on_pager_ok {A} (c : M P A) (s : pool) a p' :
  c s.(bp_pager) = (Ok a, p') → on_pager c s = (Ok a, with_pager p' s).
Proof. unfold on_pager, zoom. by intros ->. Qed.

Lemma od_cons_nodup a v (l : odict) :
  NoDup (od_keys ((a, v) :: l)) → od_get a l = None ∧ NoDup (od_keys l).
Proof. simpl. intros [Ha Hn]%NoDup_cons. by rewrite od_get_None. Qed.

(** Writing one dirty page through *)
Lemma write_through s m M pid d :
  holds s m M → M !! pid = Some d →
  ∃ p', pi_write_page pid d s.(bp_pager) = (Ok (), p') ∧
    pi_last_lsn p' = pi_last_lsn s.(bp_pager) ∧
    holds (with_dirty (s.(bp_dirty) ∖ {[pid]}) (with_pager p' s)) (<[pid := d]> m) M.
Proof.
  intros Hh Hd. destruct Hh.
  destruct (pi_write_law (bp_pager s) m pid d) as (p' & Hw & Hs & Hl);
    [done|by apply h_dom0; rewrite Hd|by apply (h_size0 pid)|].
  exists p'. split_and!; [done|done|]. constructor; simpl; try done.
  - intros x Hx. apply h_dirty0. set_solver.
  - intros x Hx. destruct (decide (x = pid)) as [->|].
    + by rewrite lookup_insert_eq.
    + rewrite lookup_insert_ne by done. apply h_clean0. set_solver.
  - intros x Hx. destruct (decide (x = pid)) as [->|].
    + by rewrite lookup_insert_eq.
    + rewrite lookup_insert_ne by done. by apply h_dom0.
Qed.

Lemma evict_ok s m M :
  holds s m M → ∃ s' m', evict s = (Ok (), s') ∧ holds s' m' M ∧
    zlen s'.(bp_cache) < s'.(bp_capacity) ∧ s'.(bp_capacity) = s.(bp_capacity) ∧
    s'.(bp_hits) = s.(bp_hits) ∧ s'.(bp_misses) = s.(bp_misses) ∧
    pi_last_lsn s'.(bp_pager) = pi_last_lsn s.(bp_pager) ∧
    s'.(bp_cache) = (if s.(bp_capacity) <=? zlen s.(bp_cache) then tail s.(bp_cache) else s.(bp_cache)).
Proof.
  intros Hh. unfold evict. mrun.
  destruct (Z.leb_spec (bp_capacity s) (zlen (bp_cache s))) as [Hfull|]; [|by exists s, m].
  destruct (bp_cache s) as [|[epid ed] c] eqn:Hc.
  { destruct Hh. rewrite Hc in *. rewrite zlen_nil in *. lia. }
  mrun. cbn [bp_dirty with_cache tail].
  destruct (od_cons_nodup epid ed c) as [Hget Hnd]; [rewrite <-Hc; apply Hh|].
  assert (M !! epid = Some ed) as Hed.
  { apply (h_cached _ _ _ Hh). rewrite Hc. simpl. by rewrite decide_True. }
  set (s1 := with_cache c s).
  assert (∃ m1 s2, (if decide (epid ∈ bp_dirty s) then
      on_pager (pi_write_page epid ed);; modify (λ s, with_dirty (s.(bp_dirty) ∖ {[epid]}) s)
      else mret ()) s1 = (Ok (), s2) ∧ s2 = with_cache c (with_dirty (bp_dirty s ∖ {[epid]}) (with_pager s2.(bp_pager) s)) ∧
      pi_last_lsn s2.(bp_pager) = pi_last_lsn s.(bp_pager) ∧
      holds (with_dirty (bp_dirty s ∖ {[epid]}) (with_pager s2.(bp_pager) s)) m1 M) as (m1 & s2 & Hx & Hs2 & Hlsn & Hh2).
  { case_decide as Hd.
    - destruct (write_through s m M epid ed Hh Hed) as (p' & Hw & Hl & Hh').
      exists (<[epid := ed]> m), (with_cache c (with_dirty (bp_dirty s ∖ {[epid]}) (with_pager p' s))).
      split_and!; try done. rewrite (run_Ok _ _ _ _ _ (on_pager_ok _ s1 _ _ Hw)). reflexivity.
    - exists m, s1. assert (bp_dirty s ∖ {[epid]} = bp_dirty s) as Heq by set_solver.
      rewrite Heq. split_and!; try done. by destruct s. }
  rewrite (run_Ok _ _ _ _ _ Hx). unfold modify.
  eexists _, m1. split; [reflexivity|]. rewrite Hs2. clear Hx Hs2 s1.
  destruct Hh2. cbn in *. rewrite zlen_cons in *. rewrite Hc in *.
  split_and!; try done; [|cbn in *; rewrite zlen_cons in *; lia].
  constructor; cbn; try done.
  - rewrite zlen_cons in h_len0. lia.
  - intros x Hx. rewrite lookup_delete_ne; [apply h_lsn0; by right|].
    intros <-. apply od_get_None in Hget. done.
  - intros x Hx. pose proof (h_dirty0 x Hx) as Hin. apply elem_of_cons in Hin as [->|]; [set_solver|done].
  - intros x d Hx. apply h_cached0. simpl. rewrite decide_False; [done|]. intros ->. congruence.
Qed.

(** Admitting a page that is not cached: clean, with the pager's bytes; or
    dirty, with new bytes *)
Lemma admit_ok s m M pid d l (dirty : bool) :
  holds s m M → od_get pid s.(bp_cache) = None → is_Some (M !! pid) → zlen d = PAGE_SIZE →
  (dirty = false → M !! pid = Some d) →
  ∃ s' m', _admit pid d l s = (Ok (), s') ∧
    holds (if dirty then with_dirty ({[pid]} ∪ s'.(bp_dirty)) s' else s') m' (<[pid := d]> M) ∧
    s'.(bp_capacity) = s.(bp_capacity) ∧ s'.(bp_hits) = s.(bp_hits) ∧ s'.(bp_misses) = s.(bp_misses) ∧
    s'.(bp_cache) = (if s.(bp_capacity) <=? zlen s.(bp_cache) then tail s.(bp_cache) else s.(bp_cache)) ++ [(pid, d)].
Proof.
  intros Hh Hget Hin Hsz Hcl. destruct (evict_ok s m M Hh) as
    (s1 & m1 & He & Hh1 & Hlen & Hcap & Hhit & Hmiss & _ & Hc).
  assert (pid ∉ od_keys s1.(bp_cache)) as Hnew.
  { rewrite Hc. apply od_get_None in Hget. destruct (_ <=? _); [|done].
    destruct (bp_cache s) as [|[]]; simpl in *; [done|]. set_solver. }
  unfold _admit. rewrite (run_Ok _ _ _ _ _ He). mrun. unfold modify.
  eexists _, m1. split; [reflexivity|]. cbn. rewrite od_set_new by done.
  assert (pid ∉ bp_dirty s1) as Hnd by (intros ?%(h_dirty _ _ _ Hh1); done).
  split; [|split_and!; try done; by rewrite Hc].
  destruct Hh1. assert (od_get pid (bp_cache s1) = None) as Hg1 by (by apply od_get_None).
  assert (∀ x, is_Some (<[pid := d]> M !! x) → is_Some (m1 !! x)) as Hdom.
  { intros x. destruct (decide (x = pid)) as [->|].
    - intros _. by apply h_dom0.
    - rewrite lookup_insert_ne by done. apply h_dom0. }
  assert (map_Forall (λ _ d, zlen d = PAGE_SIZE) (<[pid := d]> M)) as Hsize.
  { intros x dx [[_ <-]|[_ Hx]]%lookup_insert_Some; [done|by apply (h_size0 x)]. }
  assert (∀ x dx, od_get x (bp_cache s1 ++ [(pid, d)]) = Some dx → <[pid := d]> M !! x = Some dx) as Hca.
  { intros x dx. rewrite od_get_app. destruct (od_get x (bp_cache s1)) eqn:E.
    - intros [= <-]. rewrite lookup_insert_ne by congruence. by apply h_cached0.
    - simpl. case_decide as Hx; [subst|done]. intros [= <-]. by rewrite lookup_insert_eq. }
  assert (NoDup (od_keys (bp_cache s1 ++ [(pid, d)]))) as Hndup.
  { rewrite map_app. apply NoDup_app. split_and!; [done| |apply NoDup_singleton].
    intros x Hx. simpl. rewrite list_elem_of_singleton. congruence. }
  assert (zlen (bp_cache s1 ++ [(pid, d)]) <= bp_capacity s1) as Hle
    by (rewrite zlen_app, zlen_cons, zlen_nil; lia).
  assert (∀ x, x ∈ od_keys (bp_cache s1 ++ [(pid, d)]) → is_Some (<[pid := l]> (bp_page_lsn s1) !! x)) as Hlsn.
  { intros x. destruct (decide (x = pid)) as [->|]; [by rewrite lookup_insert_eq|].
    rewrite lookup_insert_ne by done. rewrite map_app, elem_of_app. simpl. intros [Hx|Hx].
    - by apply h_lsn0.
    - rewrite list_elem_of_singleton in Hx. done. }
  destruct dirty; constructor; cbn; try done.
  - intros x. rewrite elem_of_union, elem_of_singleton, map_app, elem_of_app. simpl.
    rewrite list_elem_of_singleton. intros [->|Hx]; [by right|left; by apply h_dirty0].
  - intros x Hx. rewrite lookup_insert_ne by set_solver. apply h_clean0. set_solver.
  - intros x Hx. rewrite map_app, elem_of_app. left. by apply h_dirty0.
  - intros x Hx. rewrite h_clean0 by done. destruct (decide (x = pid)) as [->|].
    + rewrite lookup_insert_eq. by apply Hcl.
    + by rewrite lookup_insert_ne.
Qed.

(** The least recently used page is the first key; a use moves its key to the
    end, and makes room for a new one by dropping the first. *)
Definition lru_step (cap : Z) (pid : Z) (ks : list Z) : list Z :=
  if decide (pid ∈ ks) then touch pid ks
  else (if cap <=? zlen ks then tail ks else ks) ++ [pid].

Lemma zlen_od_keys (l : odict) : zlen (od_keys l) = zlen l.
Proof. unfold zlen. by rewrite length_map. Qed.
Lemma tail_od_keys (l : odict) : tail (od_keys l) = od_keys (tail l).
Proof. by destruct l. Qed.

Lemma lru_step_new (s : pool) pid d :
  od_get pid s.(bp_cache) = None →
  od_keys ((if s.(bp_capacity) <=? zlen s.(bp_cache) then tail s.(bp_cache) else s.(bp_cache)) ++ [(pid, d)])
  = lru_step s.(bp_capacity) pid (od_keys s.(bp_cache)).
Proof.
  intros Hg%od_get_None. unfold lru_step. rewrite decide_False by done.
  rewrite zlen_od_keys, map_app. destruct (_ <=? _); [by rewrite tail_od_keys|done].
Qed.

(** Moving an entry to the end changes nothing else. *)
Lemma holds_to_end s m M pid d :
  holds s m M → od_get pid s.(bp_cache) = Some d →
  holds (with_cache (od_to_end pid s.(bp_cache)) s) m M.
Proof.
  intros Hh Hg. pose proof (od_get_Some_keys _ _ _ Hg) as Hin. destruct Hh.
  assert (∀ x, x ∈ od_keys (od_to_end pid (bp_cache s)) ↔ x ∈ od_keys (bp_cache s)) as Hk.
  { intros x. rewrite od_keys_to_end by done. unfold touch.
    rewrite elem_of_app, list_elem_of_filter, list_elem_of_singleton.
    destruct (decide (x = pid)) as [->|]; naive_solver. }
  constructor; cbn; try done.
  - rewrite od_keys_to_end by done. by apply NoDup_touch.
  - rewrite <-zlen_od_keys, od_keys_to_end by done. unfold zlen.
    rewrite length_touch_in by done. fold (zlen (od_keys (bp_cache s))). by rewrite zlen_od_keys.
  - intros x. rewrite Hk. apply h_lsn0.
  - intros x. rewrite Hk. apply h_dirty0.
  - intros x dx. rewrite od_get_to_end. apply h_cached0.
Qed.

Lemma holds_count s m M :
  holds s m M → holds (count_hit s) m M ∧ holds (count_miss s) m M.
Proof. intros []. split; by constructor. Qed.

Lemma fetch_miss_ok s m M pid d :
  holds s m M → M !! pid = Some d → od_get pid s.(bp_cache) = None →
  ∃ s' m', fetch_miss pid s = (Ok d, s') ∧ holds s' m' M ∧
    s'.(bp_capacity) = s.(bp_capacity) ∧
    s'.(bp_hits) = s.(bp_hits) ∧ s'.(bp_misses) = s.(bp_misses) + 1 ∧
    od_keys s'.(bp_cache) = lru_step s.(bp_capacity) pid (od_keys s.(bp_cache)).
Proof.
  intros Hh Hd Hg. unfold fetch_miss. mrun.
  assert (pid ∉ bp_dirty s) as Hnd.
  { intros Hx%(h_dirty _ _ _ Hh). by apply od_get_None in Hg. }
  assert (pi_read_page pid (bp_pager (count_miss s)) = (Ok d, bp_pager (count_miss s))) as Hr.
  { apply (pi_read_law _ m); [apply Hh|]. by rewrite (h_clean _ _ _ Hh). }
  rewrite (run_Ok _ _ _ _ _ (on_pager_ok _ _ _ _ Hr)). mrun.
  destruct (admit_ok (count_miss s) m M pid d (pi_last_lsn (bp_pager s)) false) as
    (s1 & m1 & Ha & Hh1 & Hcap & Hhit & Hmiss & Hc); try done.
  - by apply holds_count.
  - by apply (h_size _ _ _ Hh pid).
  - cbn in Ha. replace (with_pager (bp_pager s) (count_miss s)) with (count_miss s) by (by destruct s).
    cbn. rewrite (run_Ok _ _ _ _ _ Ha). exists s1, m1. rewrite insert_id in Hh1 by done.
    split_and!; try done. rewrite Hc. by apply (lru_step_new s).
Qed.

(** * Use of the pool *)

Inductive use := UFetch (pid : Z) | UWrite (pid : Z) (d : bytes) (l : Z) | UFlush.

Definition pool_exec (x : use) : M pool (option bytes) :=
  match x with
  | UFetch pid => d ← fetch_page pid None; mret (Some d)
  | UWrite pid d l => bp_write_page pid d l;; mret None
  | UFlush => flush_all;; mret None
  end.
(** The same use of the pages themselves *)
Definition mem_exec (x : use) (M : gmap Z bytes) : option bytes * gmap Z bytes :=
  match x with
  | UFetch pid => (M !! pid, M)
  | UWrite pid d _ => (None, <[pid := d]> M)
  | UFlush => (None, M)
  end.
Definition use_ok (x : use) (M : gmap Z bytes) : Prop :=
  match x with
  | UFetch pid => is_Some (M !! pid)
  | UWrite pid d _ => is_Some (M !! pid) ∧ zlen d = PAGE_SIZE
  | UFlush => True
  end.
Definition lru_use (cap : Z) (x : use) (ks : list Z) : list Z :=
  match x with
  | UFetch pid | UWrite pid _ _ => lru_step cap pid ks
  | UFlush => ks
  end.

Lemma fetch_hit s m M pid d :
  holds s m M → od_get pid s.(bp_cache) = Some d →
  fetch_page pid None s = (Ok d, count_hit (with_cache (od_to_end pid s.(bp_cache)) s)).
Proof. intros Hh Hg. unfold fetch_page. mrun. rewrite Hg. mrun. reflexivity. Qed.

Lemma lru_step_in cap pid ks : pid ∈ ks → lru_step cap pid ks = touch pid ks.
Proof. intros. unfold lru_step. by rewrite decide_True. Qed.

Lemma fetch_ok s m M pid d :
  holds s m M → M !! pid = Some d →
  ∃ s' m', fetch_page pid None s = (Ok d, s') ∧ holds s' m' M ∧
    s'.(bp_capacity) = s.(bp_capacity) ∧
    od_keys s'.(bp_cache) = lru_step s.(bp_capacity) pid (od_keys s.(bp_cache)).
Proof.
  intros Hh Hd. destruct (od_get pid (bp_cache s)) as [d'|] eqn:Hg.
  - assert (d' = d) as -> by (apply (h_cached _ _ _ Hh) in Hg; congruence).
    rewrite (fetch_hit s m M pid d) by done. eexists _, m. split; [reflexivity|].
    split; [by apply holds_count, (holds_to_end _ _ _ _ d)|]. split; [done|].
    pose proof (od_get_Some_keys _ _ _ Hg). cbn. by rewrite od_keys_to_end, lru_step_in.
  - unfold fetch_page. mrun. rewrite Hg.
    destruct (fetch_miss_ok s m M pid d Hh Hd Hg) as (s' & m' & Hx & Hh' & Hc & _ & _ & Hk).
    eauto 10.
Qed.

Lemma holds_overwrite s m M pid d l :
  holds s m M → pid ∈ od_keys s.(bp_cache) → zlen d = PAGE_SIZE →
  holds (with_dirty ({[pid]} ∪ s.(bp_dirty))
          (with_page_lsn (<[pid := l]> s.(bp_page_lsn))
            (with_cache (od_set pid d s.(bp_cache)) s))) m (<[pid := d]> M).
Proof.
  intros Hh Hin Hsz. assert (is_Some (M !! pid)) as HM.
  { destruct (od_get pid (bp_cache s)) eqn:E; [|by apply od_get_None in E].
    apply (h_cached _ _ _ Hh) in E. by rewrite E. }
  destruct Hh. constructor; cbn; rewrite ?od_keys_set_in by done; try done.
  - rewrite <-zlen_od_keys, od_keys_set_in, zlen_od_keys by done. done.
  - intros x Hx. destruct (decide (x = pid)) as [->|]; [by rewrite lookup_insert_eq|].
    rewrite lookup_insert_ne by done. by apply h_lsn0.
  - intros x. rewrite elem_of_union, elem_of_singleton. intros [->|]; [done|by apply h_dirty0].
  - intros x dx. rewrite od_get_set. case_decide as E.
    + intros [= <-]. subst. by rewrite lookup_insert_eq.
    + rewrite lookup_insert_ne by done. apply h_cached0.
  - intros x Hx. rewrite lookup_insert_ne by set_solver. apply h_clean0. set_solver.
  - intros x. destruct (decide (x = pid)) as [->|]; [intros _; by apply h_dom0|].
    rewrite lookup_insert_ne by done. apply h_dom0.
  - intros x dx [[_ <-]|[_ Hx]]%lookup_insert_Some; [done|by apply (h_size0 x)].
Qed.

Lemma write_ok s m M pid d l :
  holds s m M → is_Some (M !! pid) → zlen d = PAGE_SIZE →
  ∃ s' m', bp_write_page pid d l s = (Ok (), s') ∧ holds s' m' (<[pid := d]> M) ∧
    s'.(bp_capacity) = s.(bp_capacity) ∧
    od_keys s'.(bp_cache) = lru_step s.(bp_capacity) pid (od_keys s.(bp_cache)).
Proof.
  intros Hh HM Hsz. unfold bp_write_page. mrun. destruct (od_get pid (bp_cache s)) as [d'|] eqn:Hg.
  - mrun. unfold modify. eexists _, m. split; [reflexivity|].
    pose proof (od_get_Some_keys _ _ _ Hg) as Hin.
    pose proof (holds_overwrite s m M pid d l Hh Hin Hsz) as Hh1.
    assert (od_get pid (od_set pid d (bp_cache s)) = Some d) as Hg1
      by (rewrite od_get_set; by rewrite decide_True).
    split; [exact (holds_to_end _ m _ pid d Hh1 Hg1)|]. split; [done|]. cbn.
    rewrite od_keys_to_end by (by rewrite od_keys_set_in). by rewrite od_keys_set_in, lru_step_in.
  - destruct (admit_ok s m M pid d l true) as (s1 & m1 & Ha & Hh1 & Hcap & _ & _ & Hc); try done.
    rewrite (run_Ok _ _ _ _ _ Ha). unfold modify. eexists _, m1. split; [reflexivity|].
    split; [exact Hh1|]. split; [done|]. cbn. rewrite Hc. by apply (lru_step_new s).
Qed.

Lemma flush_entries_ok l s m M :
  holds s m M → (∀ pid d, (pid, d) ∈ l → M !! pid = Some d) →
  ∃ p' m' D, flush_entries l s = (Ok (), with_dirty D (with_pager p' s)) ∧
    holds (with_dirty D (with_pager p' s)) m' M ∧
    pi_last_lsn p' = pi_last_lsn s.(bp_pager) ∧
    (∀ pid, pid ∈ D ↔ pid ∈ s.(bp_dirty) ∧ pid ∉ od_keys l).
Proof.
  revert s m. induction l as [|[pid d] l IH]; intros s m Hh Hl; simpl.
  - exists s.(bp_pager), m, s.(bp_dirty). destruct s. split_and!; try done.
    intros x. rewrite elem_of_nil. naive_solver.
  - mrun. assert (∀ x dx, (x, dx) ∈ l → M !! x = Some dx) as Hl' by (intros; apply Hl; by right).
    case_decide as Hd.
    + destruct (write_through s m M pid d Hh) as (p' & Hw & Hlsn & Hh1); [apply Hl; by left|].
      mrun. rewrite (run_Ok _ _ _ _ _ (on_pager_ok _ s _ _ Hw)). mrun.
      destruct (IH _ _ Hh1 Hl') as (p2 & m2 & D & Hx & Hh2 & Hlsn2 & HD).
      exists p2, m2, D. split_and!; [exact Hx|exact Hh2|by rewrite Hlsn2|].
      intros x. rewrite HD. cbn. rewrite elem_of_difference, elem_of_singleton, elem_of_cons. naive_solver.
    + mrun. destruct (IH _ _ Hh Hl') as (p2 & m2 & D & Hx & Hh2 & Hlsn2 & HD).
      exists p2, m2, D. split_and!; [exact Hx|exact Hh2|done|].
      intros x. rewrite HD, elem_of_cons. split; [|naive_solver].
      intros [? ?]. split; [done|]. intros [->|]; done.
Qed.

Lemma od_get_in pid d (l : odict) :
  NoDup (od_keys l) → (pid, d) ∈ l → od_get pid l = Some d.
Proof.
  induction l as [|[k v] l IH]; simpl; [by intros _ ?%elem_of_nil|].
  intros [Hk Hn]%NoDup_cons. rewrite elem_of_cons. intros [[= -> ->]|Hin].
  - by rewrite decide_True.
  - case_decide; [subst|by apply IH]. exfalso. apply Hk.
    apply list_elem_of_fmap. by exists (k, d).
Qed.

Lemma flush_all_ok s m M :
  holds s m M →
  ∃ p' m', flush_all s = (Ok (), with_dirty ∅ (with_pager p' s)) ∧
    holds (with_dirty ∅ (with_pager p' s)) m' M ∧ (∀ pid, m' !! pid = M !! pid).
Proof.
  intros Hh. unfold flush_all. mrun.
  destruct (flush_entries_ok (bp_cache s) s m M Hh) as (p' & m' & D & Hx & Hh' & _ & HD).
  { intros pid d Hin. apply (h_cached _ _ _ Hh). apply od_get_in; [apply Hh|done]. }
  assert (D = ∅) as ->.
  { apply set_eq. intros x. rewrite HD. pose proof (h_dirty _ _ _ Hh x). set_solver. }
  exists p', m'. split_and!; try done. intros pid. apply (h_clean _ _ _ Hh'). set_solver.
Qed.

Lemma pool_step s m M x :
  holds s m M → use_ok x M →
  ∃ s' m', pool_exec x s = (Ok (mem_exec x M).1, s') ∧ holds s' m' (mem_exec x M).2 ∧
    s'.(bp_capacity) = s.(bp_capacity) ∧
    od_keys s'.(bp_cache) = lru_use s.(bp_capacity) x (od_keys s.(bp_cache)).
Proof.
  intros Hh. destruct x as [pid|pid d l|]; simpl.
  - intros [d Hd]. destruct (fetch_ok s m M pid d Hh Hd) as (s' & m' & Hx & ? & ? & ?).
    rewrite (run_Ok _ _ _ _ _ Hx), Hd. by exists s', m'.
  - intros [HM Hsz]. destruct (write_ok s m M pid d l Hh HM Hsz) as (s' & m' & Hx & ? & ? & ?).
    rewrite (run_Ok _ _ _ _ _ Hx). by exists s', m'.
  - intros _. destruct (flush_all_ok s m M Hh) as (p' & m' & Hx & Hh' & _).
    rewrite (run_Ok _ _ _ _ _ Hx). by eexists _, m'.
Qed.

(** A run of uses, each result observed *)
Fixpoint pool_run (xs : list use) : M pool (list (option bytes)) :=
  match xs with
  | [] => mret []
  | x :: xs => r ← pool_exec x; rs ← pool_run xs; mret (r :: rs)
  end.
Fixpoint mem_run (xs : list use) (M : gmap Z bytes) : list (option bytes) * gmap Z bytes :=
  match xs with
  | [] => ([], M)
  | x :: xs => let '(r, M) := mem_exec x M in let '(rs, M) := mem_run xs M in (r :: rs, M)
  end.
Fixpoint uses_ok (xs : list use) (M : gmap Z bytes) : Prop :=
  match xs with
  | [] => True
  | x :: xs => use_ok x M ∧ uses_ok xs (mem_exec x M).2
  end.

Lemma pool_run_step xs s m M :
  holds s m M → uses_ok xs M →
  ∃ s' m', pool_run xs s = (Ok (mem_run xs M).1, s') ∧ holds s' m' (mem_run xs M).2 ∧
    od_keys s'.(bp_cache) = foldl (λ ks x, lru_use s.(bp_capacity) x ks) (od_keys s.(bp_cache)) xs.
Proof.
  revert s m M. induction xs as [|x xs IH]; intros s m M Hh; simpl; [by exists s, m|].
  intros [Hx Hxs]. destruct (pool_step s m M x Hh Hx) as (s1 & m1 & Hx1 & Hh1 & Hc1 & Hk1).
  destruct (mem_exec x M) as [r M1]. simpl in *. mrun. rewrite (run_Ok _ _ _ _ _ Hx1).
  destruct (IH s1 m1 M1 Hh1 Hxs) as (s2 & m2 & Hx2 & Hh2 & Hk2).
  destruct (mem_run xs M1) as [rs M2]. simpl in *. mrun. rewrite (run_Ok _ _ _ _ _ Hx2).
  exists s2, m2. split; [done|]. split; [done|]. by rewrite Hk2, Hc1, Hk1.
Qed.

(** ** The keys kept are the most recently used ones *)

Definition lastn (n : nat) (l : list Z) : list Z := drop (length l - n) l.
Definition recent (ks : list Z) (x : use) : list Z :=
  match x with UFetch pid | UWrite pid _ _ => touch pid ks | UFlush => ks end.

Lemma lru_step_lastn cap pid ks :
  0 < cap → NoDup ks →
  lru_step cap pid (lastn (Z.to_nat cap) ks) = lastn (Z.to_nat cap) (touch pid ks).
Proof.
  intros Hcap Hnd. set (n := Z.to_nat cap).
  pose proof (take_drop (length ks - n) ks) as Hks.
  assert (length (lastn n ks) = length ks `min` n)%nat as Hlen
    by (unfold lastn; rewrite length_drop; lia).
  fold (lastn n ks) in Hks. set (a := take (length ks - n) ks) in *. set (b := lastn n ks) in *.
  assert (length a = length ks - n)%nat as Ha by (subst a; rewrite length_take; lia).
  clearbody a b. rewrite <-Hks in Hnd. apply NoDup_app in Hnd as (Hna & Hdis & Hnb).
  unfold lru_step. case_decide as Hin.
  - assert (pid ∉ a) as Hnin by (intros Hx; by apply (Hdis pid)).
    assert (touch pid ks = a ++ touch pid b) as ->.
    { unfold touch. rewrite <-Hks, filter_app, (filter_ne_notin pid a), app_assoc by done. done. }
    unfold lastn. rewrite length_app, length_touch_in by done.
    replace (length a + length b - n)%nat with (length a) by (rewrite <-Hks, length_app in Ha; lia).
    by rewrite drop_app_length.
  - assert (touch pid ks = (filter (λ x, x ≠ pid) a ++ b) ++ [pid]) as ->.
    { unfold touch. by rewrite <-Hks, filter_app, (filter_ne_notin pid b) by done. }
    unfold lastn. rewrite !length_app. simpl length.
    pose proof (length_filter (λ x, x ≠ pid) a) as Hf.
    destruct (Z.leb_spec cap (zlen b)) as [Hfull|Hroom]; unfold zlen in *.
    + replace (length (filter (λ x, x ≠ pid) a) + length b + 1 - n)%nat
        with (length (filter (λ x, x ≠ pid) a) + 1)%nat by lia.
      rewrite <-app_assoc, drop_app_add. destruct b; [simpl in *; lia|done].
    + assert (a = []) as -> by (apply nil_length_inv; lia). simpl.
      by replace (length b + 1 - n)%nat with O by lia.
Qed.

Lemma recent_nodup xs ks : NoDup ks → NoDup (foldl recent ks xs).
Proof.
  revert ks. induction xs as [|x xs IH]; intros ks Hn; simpl; [done|].
  apply IH. destruct x; simpl; by try apply NoDup_touch.
Qed.

Lemma lru_run_lastn cap xs ks :
  0 < cap → NoDup ks →
  foldl (λ ks x, lru_use cap x ks) (lastn (Z.to_nat cap) ks) xs
  = lastn (Z.to_nat cap) (foldl recent ks xs).
Proof.
  intros Hcap. revert ks. induction xs as [|x xs IH]; intros ks Hn; simpl; [done|].
  rewrite <-IH by (destruct x; simpl; by try apply NoDup_touch).
  f_equal. destruct x; simpl; rewrite ?lru_step_lastn; done.
Qed.

Lemma new_pool_holds p cap M s :
  new_pool p cap = Ok s → stores p M → holds s M M.
Proof.
  unfold new_pool. destruct (Z.leb_spec cap 0); [discriminate|]. intros [= <-] Hs.
  constructor; cbn [bp_pager bp_capacity bp_cache bp_page_lsn bp_dirty]; try done.
  - constructor.
  - rewrite zlen_nil. lia.
  - by intros pid ?%elem_of_nil.
  - intros pid d. by apply (pi_size_law p M pid d).
Qed.


(** after [flush_all] nothing is dirty and the pager itself holds every
    page the pool stood for. *)
Theorem flush_all_writes_everything s m M :
  holds s m M →
  ∃ s', flush_all s = (Ok (), s') ∧ s'.(bp_dirty) = ∅ ∧ s'.(bp_cache) = s.(bp_cache) ∧
    stores s'.(bp_pager) M.
Proof.
  intros Hh. destruct (flush_all_ok s m M Hh) as (p' & m' & Hx & Hh' & Hm).
  eexists. split; [exact Hx|]. split_and!; [done|done|].
  assert (m' = M) as <- by by apply map_eq. apply (h_stores _ _ _ Hh').
Qed.

(** the cache keeps the most recently used pages: after any run of uses
    its keys are the last [capacity] of the distinct pages used, in order of
    their last use. *)
Theorem cache_is_lru p cap M s xs :
  new_pool p cap = Ok s → stores p M → uses_ok xs M →
  ∃ rs s', pool_run xs s = (Ok rs, s') ∧
    od_keys s'.(bp_cache) = lastn (Z.to_nat cap) (foldl recent [] xs).
Proof.
  intros Hn Hs Hx. pose proof (new_pool_holds p cap M s Hn Hs) as Hh.
  destruct (pool_run_step xs s M M Hh Hx) as (s' & m' & Hr & _ & Hk).
  eexists _, s'. split; [exact Hr|]. rewrite Hk. unfold new_pool in Hn.
  destruct (Z.leb_spec cap 0); [discriminate|]. injection Hn as <-. cbn.
  rewrite <-lru_run_lastn by (done || constructor). done.
Qed.

(** a page just fetched is fetched again without touching the pager: the
    second fetch counts a hit, gives the same bytes and leaves the pager as it
    is. *)
Theorem second_fetch_hits s m M pid d :
  holds s m M → M !! pid = Some d →
  ∃ s1 s2, fetch_page pid None s = (Ok d, s1) ∧ fetch_page pid None s1 = (Ok d, s2) ∧
    s2.(bp_pager) = s1.(bp_pager) ∧ stats s2 = ((stats s1).1 + 1, (stats s1).2) ∧
    s2.(bp_cache) = s1.(bp_cache).
Proof.
  intros Hh Hd. destruct (fetch_ok s m M pid d Hh Hd) as (s1 & m1 & Hx & Hh1 & _ & Hk).
  assert (od_get pid (bp_cache s1) = Some d) as Hg.
  { destruct (od_get pid (bp_cache s1)) as [d'|] eqn:E.
    - apply (h_cached _ _ _ Hh1) in E. congruence.
    - exfalso. apply od_get_None in E. apply E. rewrite Hk. unfold lru_step, touch.
      case_decide; apply elem_of_app; right; by left. }
  eexists s1, _. split; [exact Hx|]. split; [by apply (fetch_hit s1 m1 M)|].
  split_and!; [done|done|]. cbn.
  assert (∃ l, bp_cache s1 = l ++ [(pid, d)] ∧ pid ∉ od_keys l) as (l & Hl & Hnl).
  { pose proof (h_nodup _ _ _ Hh1) as Hnd. destruct (bp_cache s1) as [|kv l _] using rev_ind; [done|].
    exists l. rewrite map_app in Hk, Hnd. simpl in *. unfold lru_step, touch in Hk.
    assert (kv.1 = pid) as Hkv.
    { revert Hk. case_decide; intros Hk; by apply app_inj_tail in Hk as [_ ?]. }
    apply NoDup_app in Hnd as (_ & Hdis & _).
    assert (pid ∉ od_keys l) as Hnl by (intros Hi; apply (Hdis pid Hi); rewrite Hkv; by left).
    split; [|done]. f_equal. rewrite od_get_app in Hg. rewrite (proj2 (od_get_None pid l)) in Hg by done.
    destruct kv as [k v]. simpl in *. subst. rewrite decide_True in Hg by done. by injection Hg as ->. }
  unfold od_to_end. rewrite Hg, Hl. unfold od_del. rewrite filter_app.
  rewrite (filter_cons_False _ (pid, d)) by (simpl; auto). rewrite app_nil_r. f_equal.
  clear -Hnl. induction l as [|kv l IH]; [done|]. simpl in Hnl. rewrite not_elem_of_cons in Hnl.
  destruct Hnl as [? ?]. rewrite filter_cons_True by auto. by rewrite IH.
Qed.
End Coherence.

(** * Concrete runs, over the reserved pages of a fresh database *)

Definition demo_pages : gmap Z bytes := {[1 := zero_page; 2 := zero_page; 3 := zero_page]}.
Definition demo_pool : Pool Pager := mkPool fresh_pager 2 [] ∅ ∅ 0 0.
Definition demo_uses : list use := [UFetch 1; UWrite 2 demo_page 0; UFetch 3; UFetch 2; UFlush].

Lemma demo_stores : pager_stores fresh_pager demo_pages.
Proof.
  exists empty_store. split; [exact fresh_represents|].
  intros x d Hx. unfold demo_pages in Hx.
  rewrite !lookup_insert_Some, lookup_singleton_Some in Hx.
  pose proof zlen_zero_page.
  destruct Hx as [[<- <-]|[_ [[<- <-]|[_ [<- <-]]]]];
    (split_and!; try done; cbn [empty_store st_free]; by apply not_elem_of_nil).
Qed.
Lemma demo_uses_ok : uses_ok demo_uses demo_pages.
Proof.
  assert (zlen demo_page = PAGE_SIZE) by (by apply zlen_replicate).
  unfold demo_uses, demo_pages. simpl. split_and!; try done; by eexists.
Qed.
Lemma demo_holds : holds (stores := pager_stores) demo_pool demo_pages demo_pages.
Proof. by apply (new_pool_holds fresh_pager 2); [|apply demo_stores]. Qed.

Lemma snapshot_visibility_witness : is_newer (mkSnapshot 3) 5 = negb (is_visible (mkSnapshot 3) 5).
Proof. apply (snapshot_visibility (mkSnapshot 3) (mkSnapshot 4) 5). simpl. lia. Defined.


Lemma flush_all_writes_everything_witness :
  ∃ s', flush_all demo_pool = (Ok (), s') ∧ pager_stores s'.(bp_pager) demo_pages.
Proof.
  destruct (flush_all_writes_everything (stores := pager_stores) demo_pool demo_pages demo_pages demo_holds)
    as (s' & Hx & _ & _ & Hs). exists s'. split; [exact Hx|exact Hs].
Defined.

Lemma cache_is_lru_witness :
  ∃ rs s', pool_run demo_uses demo_pool = (Ok rs, s') ∧ map fst s'.(bp_cache) = [3; 2].
Proof.
  destruct (cache_is_lru (stores := pager_stores) fresh_pager 2 demo_pages demo_pool demo_uses)
    as (rs & s' & Hx & Hk); [reflexivity|exact demo_stores|exact demo_uses_ok|].
  exists rs, s'. split; [exact Hx|]. rewrite Hk. reflexivity.
Defined.

Lemma second_fetch_hits_witness :
  ∃ s1 s2, fetch_page 1 None demo_pool = (Ok zero_page, s1) ∧
           fetch_page 1 None s1 = (Ok zero_page, s2) ∧ s2.(bp_pager) = s1.(bp_pager).
Proof.
  destruct (second_fetch_hits (stores := pager_stores) demo_pool demo_pages demo_pages 1 zero_page demo_holds)
    as (s1 & s2 & H1 & H2 & H3 & _); [reflexivity|]. exists s1, s2. auto.
Defined.

(** A dirty page that is newer than the snapshot of a reader is dropped, not
    written: the reader gets the pager's old bytes and the write is lost. *)
Example stale_snapshot_loses_write :
  ((bp_write_page 1 demo_page 5;; fetch_page 1 (Some (mkSnapshot 3));;
    flush_all;; fetch_page 1 None) demo_pool).1 = Ok zero_page.
Proof. vm_compute. reflexivity. Qed.
