(* ===== verification/FreeSpace.v ===== *)
(** Component [storage/free_space.py]: the map from page to free bytes, a
    dict that is searched in insertion order. *)
From S2P Require Import Prelude.
From S2P Require Import Bytes.
From Stdlib Require Import ZArith.
Local Open Scope Z_scope.

(** The entries, in insertion order, each page at most once *)
Abbreviation FreeSpaceMap := (list (Z * Z)).

Fixpoint fsm_set (page_id free_bytes : Z) (l : FreeSpaceMap) : FreeSpaceMap :=
  match l with
  | [] => [(page_id, free_bytes)]
  | (k, v) :: l =>
      if k =? page_id then (k, free_bytes) :: l else (k, v) :: fsm_set page_id free_bytes l
  end.

Definition update (page_id free_bytes : Z) : M FreeSpaceMap unit :=
  assert (0 <=? free_bytes) ValueError;;
  modify (fsm_set page_id free_bytes).

Definition remove (page_id : Z) : M FreeSpaceMap unit :=
  modify (filter (λ e, e.1 ≠ page_id)).

Definition find_with_space (needed : Z) (l : FreeSpaceMap) : option Z :=
  fst <$> find (λ e, needed <=? e.2) l.

Fixpoint free_bytes (page_id : Z) (l : FreeSpaceMap) : option Z :=
  match l with
  | [] => None
  | (k, v) :: l => if k =? page_id then Some v else free_bytes page_id l
  end.

Definition fsm_len (l : FreeSpaceMap) : Z := zlen l.
Definition fsm_contains (page_id : Z) (l : FreeSpaceMap) : bool :=
  match free_bytes page_id l with Some _ => true | None => false end.

(** Entries are unique and non-negative. *)
Definition fsm_ok (l : FreeSpaceMap) : Prop := NoDup (map fst l) ∧ Forall (λ e, 0 <= e.2) l.

Lemma fsm_set_keys p v l x : x ∈ map fst (fsm_set p v l) ↔ x = p ∨ x ∈ map fst l.
Proof.
  induction l as [|[k w] l IH]; simpl.
  - rewrite list_elem_of_singleton, elem_of_nil. naive_solver.
  - destruct (Z.eqb_spec k p); simpl; rewrite !elem_of_cons; [naive_solver|rewrite IH; naive_solver].
Qed.

Lemma fsm_set_ok p v l : 0 <= v → fsm_ok l → fsm_ok (fsm_set p v l).
Proof.
  intros Hv [Hn Hf]. induction l as [|[k w] l IH]; simpl.
  - split; [apply NoDup_singleton|by repeat constructor].
  - apply NoDup_cons in Hn as [Hk Hn]. apply Forall_cons in Hf as [Hw Hf].
    destruct (IH Hn Hf) as [IHn IHf]. destruct (Z.eqb_spec k p) as [->|Hne].
    + split; [by apply NoDup_cons|by constructor].
    + split; [|by constructor]. simpl. apply NoDup_cons. split; [|done].
      rewrite fsm_set_keys. naive_solver.
Qed.

Lemma free_bytes_set p v l q :
  free_bytes q (fsm_set p v l) = if q =? p then Some v else free_bytes q l.
Proof.
  induction l as [|[k w] l IH]; simpl.
  - destruct (Z.eqb_spec p q), (Z.eqb_spec q p); try lia; done.
  - destruct (Z.eqb_spec k p) as [->|]; simpl; [|rewrite IH];
      repeat match goal with |- context [Z.eqb ?a ?b] => destruct (Z.eqb_spec a b); try lia end; done.
Qed.

Lemma free_bytes_in p v l : NoDup (map fst l) → (p, v) ∈ l ↔ free_bytes p l = Some v.
Proof.
  induction l as [|[k w] l IH]; simpl; [intros _; rewrite elem_of_nil; naive_solver|].
  intros [Hk Hn]%NoDup_cons. rewrite elem_of_cons, (IH Hn).
  destruct (Z.eqb_spec k p) as [->|Hne]; [|naive_solver].
  split; [|naive_solver]. intros [[= ->]|Hp]; [done|].
  apply (IH Hn) in Hp. exfalso. apply Hk. apply list_elem_of_fmap. by exists (p, v).
Qed.

(** [find_with_space] returns a page whose recorded free space suffices,
    the first one in insertion order, and [None] only when no page has room. *)
Theorem find_with_space_spec needed l :
  fsm_ok l →
  match find_with_space needed l with
  | Some p => ∃ v before after, l = before ++ (p, v) :: after ∧ needed <= v ∧
                free_bytes p l = Some v ∧ Forall (λ e, e.2 < needed) before
  | None => ∀ p v, free_bytes p l = Some v → v < needed
  end.
Proof.
  intros [Hn _]. unfold find_with_space.
  destruct (find _ l) as [[p v]|] eqn:E; simpl.
  - assert (∃ before after, l = before ++ (p, v) :: after ∧ needed <= v ∧
              Forall (λ e, e.2 < needed) before) as (b & a & Hl & Hv & Hb).
    { clear Hn. revert E. induction l as [|e l IH]; simpl; [discriminate|].
      destruct (Z.leb_spec needed e.2).
      - intros [= ->]. exists [], l. split_and!; [done|done|constructor].
      - intros Hf. destruct (IH Hf) as (b & a & -> & Hv & Hb).
        exists (e :: b), a. split_and!; [done|done|by constructor]. }
    exists v, b, a. split_and!; try done. apply free_bytes_in; [done|].
    rewrite Hl. apply elem_of_app. right. by left.
  - intros p v Hp%free_bytes_in; [|done]. pose proof (find_none _ _ E (p, v)) as Hf.
    apply list_elem_of_In in Hp. specialize (Hf Hp). simpl in Hf. by apply Z.leb_gt in Hf.
Qed.

Lemma find_with_space_spec_witness :
  find_with_space 20 [(4, 10); (5, 30); (6, 40)] = Some 5 ∧
  ∃ v before after, [(4, 10); (5, 30); (6, 40)] = before ++ (5, v) :: after ∧ 20 <= v.
Proof.
  split; [reflexivity|].
  destruct (find_with_space_spec 20 [(4, 10); (5, 30); (6, 40)]) as (v & b & a & H1 & H2 & _).
  - split.
    + apply (bool_decide_unpack _). vm_compute. exact I.
    + repeat constructor; simpl; lia.
  - exists v, b, a. split; assumption.
Defined.
