(* ===== verification/Heap.v ===== *)
(** Component [storage/heap.py]: slotted pages, linked into a chain, with the
    records of one table. *)
From S2P Require Import Prelude.
From S2P Require Import Bytes.
From S2P Require Import Pager.
From S2P Require Import BufferPool.
From S2P Require Import FreeSpace.
From Stdlib Require Import ZArith.
Local Open Scope Z_scope.

Definition HEADER_SIZE : Z := 12.
Definition DATA_START : Z := HEADER_SIZE.
Definition SLOT_SIZE : Z := 6.
Definition NO_NEXT : Z := 0xFFFFFFFF.

Record Rid := mkRid { page_id : Z; slot_id : Z }.
Global Instance Rid_eq_dec : EqDecision Rid.
Proof. solve_decision. Defined.

(** * Page headers and slots *)

Definition _read_header (pg : bytes) : result (Z * Z * Z) :=
  next_pid ← unpack_ule 4 pg 0;
  slot_count ← unpack_ule 2 pg 4;
  data_end ← unpack_ule 2 pg 6;
  Ok (next_pid, slot_count, data_end).

Definition _write_header (pg : bytes) (next_pid slot_count data_end : Z) : result bytes :=
  pg ← pack_into_ule 4 pg 0 next_pid;
  pg ← pack_into_ule 2 pg 4 slot_count;
  pack_into_ule 2 pg 6 data_end.

Definition _slot_offset (slot_id : Z) : Z := PAGE_SIZE - (slot_id + 1) * SLOT_SIZE.
Definition _slots_start (slot_count : Z) : Z := PAGE_SIZE - slot_count * SLOT_SIZE.

(** [struct] counts a negative offset from the end of the buffer. *)
Definition struct_off (size off len : Z) : Z :=
  if (off <? 0) && (off + size <=? 0) then off + len else off.

Definition _read_slot (pg : bytes) (slot_id : Z) : result (Z * Z * Z) :=
  let off := struct_off 5 (_slot_offset slot_id) (zlen pg) in
  d ← read_at 5 pg off;
  Ok (le_val (slice d 0 2), le_val (slice d 2 4), le_val (slice d 4 5)).

Definition _write_slot (pg : bytes) (slot_id rec_offset rec_length flags : Z) : result bytes :=
  let off := struct_off 5 (_slot_offset slot_id) (zlen pg) in
  a ← pack_ule 2 rec_offset; b ← pack_ule 2 rec_length; c ← pack_ule 1 flags;
  if (0 <=? off) && (off + 5 <=? zlen pg) then Ok (patch pg off (a ++ b ++ c))
  else Err StructError.

(** The changes [insert] and [delete] make to one page *)
Definition insert_record (pg encoded : bytes) : result (bytes * Z) :=
  '(next_pid, slot_count, data_end) ← _read_header pg;
  let new_slot_id := slot_count in
  let new_slot_count := slot_count + 1 in
  let new_data_end := data_end + zlen encoded in
  let pg := patch pg data_end encoded in
  pg ← _write_slot pg new_slot_id data_end (zlen encoded) 1;
  pg ← _write_header pg next_pid new_slot_count new_data_end;
  Ok (pg, new_slot_id).

(** * The heap *)

Class AllocOps (P : Type) := { pi_allocate_page : M P Z }.
Global Instance Pager_alloc : AllocOps Pager := {| pi_allocate_page := allocate_page |}.

(** A heap over a pager [P]; [W] is the state behind the [on_page_write]
    callback (the transaction manager and its log). *)
Record Heap (P W : Type) := mkHeap {
  hp_pager : P;
  hp_world : W;
  hp_table_id : Z;
  hp_head_pid : Z;
  hp_fsm : FreeSpaceMap;
}.
Arguments mkHeap {P W}.
Arguments hp_pager {P W}.
Arguments hp_world {P W}.
Arguments hp_table_id {P W}.
Arguments hp_head_pid {P W}.
Arguments hp_fsm {P W}.

Section Heap.
Context {P W : Type} `{PagerOps P, AllocOps P}.
(** [on_page_write]: [None], or the callback with the page id and its bytes
    before and after *)
Context (on_page_write : option (Z → bytes → bytes → M W unit)).
Local Abbreviation heap := (Heap P W).

Definition hp_set_pager (p : P) (h : heap) : heap :=
  mkHeap p h.(hp_world) h.(hp_table_id) h.(hp_head_pid) h.(hp_fsm).
Definition hp_set_world (w : W) (h : heap) : heap :=
  mkHeap h.(hp_pager) w h.(hp_table_id) h.(hp_head_pid) h.(hp_fsm).
Definition hp_set_fsm (f : FreeSpaceMap) (h : heap) : heap :=
  mkHeap h.(hp_pager) h.(hp_world) h.(hp_table_id) h.(hp_head_pid) f.

Definition the_pager {A} : M P A → M heap A := zoom hp_pager hp_set_pager.
Definition the_world {A} : M W A → M heap A := zoom hp_world hp_set_world.
Definition the_fsm {A} : M FreeSpaceMap A → M heap A := zoom hp_fsm hp_set_fsm.

Definition _write_page_logged (pid : Z) (pg : bytes) : M heap unit :=
  before ← the_pager (pi_read_page pid);
  (match on_page_write with
   | Some cb => the_world (cb pid before pg)
   | None => mret ()
   end);;
  the_pager (pi_write_page pid pg).

Definition _refresh_fsm (pid : Z) : M heap Z :=
  pg ← the_pager (pi_read_page pid);
  '(_, slot_count, data_end) ← lift (_read_header pg);
  let free := _slots_start slot_count - data_end in
  the_fsm (update pid free);;
  mret free.

Definition _append_overflow_page (tail_pid : Z) : M heap Z :=
  new_pid ← the_pager pi_allocate_page;
  tail_page ← the_pager (pi_read_page tail_pid);
  '(_, slot_count, data_end) ← lift (_read_header tail_page);
  tail_page ← lift (_write_header tail_page new_pid slot_count data_end);
  _write_page_logged tail_pid tail_page;;
  new_page ← the_pager (pi_read_page new_pid);
  new_page ← lift (_write_header new_page NO_NEXT 0 DATA_START);
  _write_page_logged new_pid new_page;;
  mret new_pid.

(** The [while True] of [insert]: the page to insert into *)
Fixpoint find_page (fuel : nat) (needed pid : Z) : M heap Z :=
  match fuel with
  | O => raise OutOfFuel
  | S fuel =>
      free ← _refresh_fsm pid;
      if needed <=? free then mret pid else
      pg ← the_pager (pi_read_page pid);
      next_pid ← lift (unpack_ule 4 pg 0);
      if next_pid =? NO_NEXT then
        new_pid ← _append_overflow_page pid;
        _refresh_fsm pid;;
        _refresh_fsm new_pid;;
        mret new_pid
      else find_page fuel needed next_pid
  end.

Definition insert (fuel : nat) (encoded : bytes) : M heap Rid :=
  let needed := SLOT_SIZE + zlen encoded in
  h ← get;
  pid ← find_page fuel needed h.(hp_head_pid);
  pg ← the_pager (pi_read_page pid);
  '(pg, new_slot_id) ← lift (insert_record pg encoded);
  _write_page_logged pid pg;;
  _refresh_fsm pid;;
  mret (mkRid pid new_slot_id).

Definition read (rid : Rid) : M heap (option bytes) :=
  pg ← the_pager (pi_read_page rid.(page_id));
  '(_, slot_count, _) ← lift (_read_header pg);
  if slot_count <=? rid.(slot_id) then mret None else
  '(rec_offset, rec_length, flags) ← lift (_read_slot pg rid.(slot_id));
  if (flags =? 0) || (rec_length =? 0) then mret None
  else mret (Some (slice pg rec_offset (rec_offset + rec_length))).

Definition delete (rid : Rid) : M heap unit :=
  pg ← the_pager (pi_read_page rid.(page_id));
  '(_, slot_count, _) ← lift (_read_header pg);
  if slot_count <=? rid.(slot_id) then mret () else
  pg ← lift (_write_slot pg rid.(slot_id) 0 0 0);
  _write_page_logged rid.(page_id) pg.

(** The slots of one page that [scan] yields: [n] slots from [i] on *)
Fixpoint scan_slots (pid : Z) (pg : bytes) (i : Z) (n : nat) : result (list Rid) :=
  match n with
  | O => Ok []
  | S n =>
      '(_, _, flags) ← _read_slot pg i;
      rs ← scan_slots pid pg (i + 1) n;
      Ok (if negb (flags =? 0) then mkRid pid i :: rs else rs)
  end.
Fixpoint scan_from (fuel : nat) (pid : Z) : M heap (list Rid) :=
  if pid =? NO_NEXT then mret [] else
  match fuel with
  | O => raise OutOfFuel
  | S fuel =>
      pg ← the_pager (pi_read_page pid);
      '(next_pid, slot_count, _) ← lift (_read_header pg);
      rs ← lift (scan_slots pid pg 0 (Z.to_nat slot_count));
      rest ← scan_from fuel next_pid;
      mret (rs ++ rest)
  end.
(** [list(heap.scan())] *)
Definition scan (fuel : nat) : M heap (list Rid) :=
  h ← get; scan_from fuel h.(hp_head_pid).

(** [Heap(pager, table_id, on_page_write)] *)
Definition new_heap (table_id : Z) : M (P * W) heap := λ s,
  let '(r, p) := (pid ← pi_allocate_page;
                  pg ← pi_read_page pid;
                  pg ← lift (_write_header pg NO_NEXT 0 DATA_START);
                  pi_write_page pid pg;;
                  mret pid) s.1 in
  match r with
  | Err e => (Err e, (p, s.2))
  | Ok pid =>
      let '(r, h) := _refresh_fsm pid (mkHeap p s.2 table_id pid []) in
      match r with Ok _ => (Ok h, (h.(hp_pager), s.2)) | Err e => (Err e, (h.(hp_pager), s.2)) end
  end.
End Heap.

(** * One page *)

(** Slot [i] of page [pg], whose data area ends at [de], holds [r]: nothing
    once deleted, or the bytes of a record. *)
Definition slot_holds (pg : bytes) (de i : Z) (r : option bytes) : Prop :=
  match r with
  | None => ∃ off len, _read_slot pg i = Ok (off, len, 0)
  | Some d => ∃ off, _read_slot pg i = Ok (off, zlen d, 1) ∧
                slice pg off (off + zlen d) = d ∧ DATA_START <= off ∧ off + zlen d <= de
  end.

(** A well-formed page: its header, and the records of its slots *)
Record hpage (pg : bytes) (next de : Z) (recs : list (option bytes)) : Prop := {
  hpg_len : zlen pg = PAGE_SIZE;
  hpg_header : _read_header pg = Ok (next, zlen recs, de);
  hpg_next : 0 <= next < 2 ^ 32;
  hpg_room : DATA_START <= de <= _slots_start (zlen recs);
  hpg_slots : ∀ i r, recs !! i = Some r → slot_holds pg de (Z.of_nat i) r;
}.

Ltac heap_consts :=
  unfold _slots_start, _slot_offset, DATA_START, HEADER_SIZE, SLOT_SIZE, PAGE_SIZE in *.

Lemma write_header_eq pg next sc de :
  zlen pg = PAGE_SIZE → 0 <= next < 2 ^ 32 → 0 <= sc < 2 ^ 16 → 0 <= de < 2 ^ 16 →
  _write_header pg next sc de
  = Ok (patch (patch (patch pg 0 (le_bytes 4 next)) 4 (le_bytes 2 sc)) 6 (le_bytes 2 de)).
Proof.
  intros Hl Hn Hs Hd. heap_consts. unfold _write_header.
  repeat (rewrite pack_into_ule_ok; [rewrite ?bind_Ok|lia|lia|];
    [|repeat (rewrite zlen_patch; rewrite ?zlen_le_bytes); lia]). done.
Qed.

Lemma write_header_header pg next sc de pg' :
  zlen pg = PAGE_SIZE → 0 <= next < 2 ^ 32 → 0 <= sc < 2 ^ 16 → 0 <= de < 2 ^ 16 →
  _write_header pg next sc de = Ok pg' →
  zlen pg' = PAGE_SIZE ∧ _read_header pg' = Ok (next, sc, de) ∧
  (∀ a b, DATA_START <= a → slice pg' a b = slice pg a b).
Proof.
  intros Hl Hn Hs Hd. rewrite write_header_eq by done. intros [= <-].
  heap_consts. set (p1 := patch pg 0 (le_bytes 4 next)).
  assert (zlen p1 = 4096) as H1 by (subst p1; rewrite zlen_patch; rewrite ?zlen_le_bytes; lia).
  set (p2 := patch p1 4 (le_bytes 2 sc)).
  assert (zlen p2 = 4096) as H2 by (subst p2; rewrite zlen_patch; rewrite ?zlen_le_bytes; lia).
  split_and!.
  - rewrite zlen_patch; rewrite ?zlen_le_bytes; lia.
  - unfold _read_header.
    rewrite (unpack_ule_patch_other 4) by (rewrite ?zlen_le_bytes; lia).
    subst p2. rewrite (unpack_ule_patch_other 4 p1) by (rewrite ?zlen_le_bytes; lia).
    subst p1. rewrite (unpack_ule_patch_same 4) by lia. rewrite bind_Ok.
    rewrite (unpack_ule_patch_other 2 _ 6 _ 4) by (rewrite ?zlen_le_bytes; lia).
    rewrite (unpack_ule_patch_same 2 _ 4) by lia. rewrite bind_Ok.
    rewrite (unpack_ule_patch_same 2 _ 6) by lia. done.
  - intros a b Ha. rewrite slice_patch_after by (rewrite ?zlen_le_bytes; lia).
    subst p2. rewrite slice_patch_after by (rewrite ?zlen_le_bytes; lia).
    subst p1. rewrite slice_patch_after by (rewrite ?zlen_le_bytes; lia). done.
Qed.

Lemma struct_off_pos size off len : 0 <= off → struct_off size off len = off.
Proof. intros. unfold struct_off. destruct (Z.ltb_spec off 0); [lia|done]. Qed.

(** Slots only depend on their own bytes. *)
Lemma read_slot_slice pg pg' i :
  zlen pg = PAGE_SIZE → zlen pg' = PAGE_SIZE → 0 <= i → 0 <= _slot_offset i →
  slice pg' (_slot_offset i) (_slot_offset i + 5) = slice pg (_slot_offset i) (_slot_offset i + 5) →
  _read_slot pg' i = _read_slot pg i.
Proof.
  intros Hl Hl' Hi Ho Hs. unfold _read_slot. rewrite !struct_off_pos by done. unfold read_at.
  rewrite Hl, Hl'. change (Z.of_nat 5) with 5. by rewrite Hs.
Qed.

Lemma write_slot_ok pg i off len flags :
  zlen pg = PAGE_SIZE → 0 <= i → 0 <= _slot_offset i →
  0 <= off < 2 ^ 16 → 0 <= len < 2 ^ 16 → 0 <= flags < 2 ^ 8 →
  ∃ pg', _write_slot pg i off len flags = Ok pg' ∧ zlen pg' = PAGE_SIZE ∧
    _read_slot pg' i = Ok (off, len, flags) ∧
    (∀ a b, b <= _slot_offset i ∨ _slot_offset i + 5 <= a → 0 <= a →
            slice pg' a b = slice pg a b).
Proof.
  intros Hl Hi Ho Hoff Hlen Hfl. unfold _write_slot. rewrite struct_off_pos by done.
  rewrite !pack_ule_ok by done. rewrite !bind_Ok.
  assert (_slot_offset i + 5 <= zlen pg) as Hb by (rewrite Hl; heap_consts; lia).
  rewrite (proj2 (Z.leb_le 0 _)), (proj2 (Z.leb_le (_ + _) _)) by done.
  set (d := le_bytes 2 off ++ le_bytes 2 len ++ le_bytes 1 flags).
  assert (zlen d = 5) as Hd by (subst d; autorewrite with py; reflexivity).
  eexists. split; [reflexivity|]. split_and!.
  - rewrite zlen_patch; lia.
  - unfold _read_slot. rewrite struct_off_pos by done. unfold read_at.
    rewrite zlen_patch by lia. change (Z.of_nat 5) with 5.
    rewrite (proj2 (Z.leb_le 0 _)), (proj2 (Z.leb_le (_ + _) _)) by done. simpl andb. cbv iota. rewrite bind_Ok.
    rewrite slice_patch_same by lia. subst d.
    rewrite slice_prefix by (by rewrite zlen_le_bytes).
    rewrite slice_middle by (rewrite !zlen_le_bytes; done).
    rewrite app_assoc. rewrite slice_app_r by (rewrite zlen_app, !zlen_le_bytes; lia).
    rewrite slice_full by (rewrite zlen_app, !zlen_le_bytes; lia).
    by rewrite !le_val_le_bytes_small.
  - intros a b [Hab|Hab] Ha; [apply slice_patch_before|apply slice_patch_after]; lia.
Qed.

Lemma slot_offset_room (recs : list (option bytes)) de i :
  DATA_START <= de <= _slots_start (zlen recs) → 0 <= i < zlen recs →
  0 <= _slot_offset i ∧ de <= _slot_offset i.
Proof. heap_consts. lia. Qed.

(** Slots and records are kept by a change that leaves their bytes alone. *)
Lemma slot_holds_ext pg pg' de de' i r :
  zlen pg = PAGE_SIZE → zlen pg' = PAGE_SIZE → 0 <= i → 0 <= _slot_offset i → de <= de' →
  (∀ a b, DATA_START <= a → b <= de → slice pg' a b = slice pg a b) →
  slice pg' (_slot_offset i) (_slot_offset i + 5) = slice pg (_slot_offset i) (_slot_offset i + 5) →
  slot_holds pg de i r → slot_holds pg' de' i r.
Proof.
  intros Hl Hl' Hi Ho Hde Hdata Hs. pose proof (read_slot_slice pg pg' i Hl Hl' Hi Ho Hs) as Hr.
  destruct r as [d|]; simpl; rewrite Hr; [|done].
  intros (off & H1 & H2 & H3 & H4). exists off. split_and!; try done; [|lia].
  rewrite Hdata by done. done.
Qed.

(** Rewriting the header with the same counts *)
Lemma set_next_ok pg next de recs next' :
  hpage pg next de recs → 0 <= next' < 2 ^ 32 →
  ∃ pg', _write_header pg next' (zlen recs) de = Ok pg' ∧ hpage pg' next' de recs.
Proof.
  intros [Hl Hh Hn Hr Hs] Hn'. pose proof (zlen_nonneg recs).
  assert (0 <= zlen recs < 2 ^ 16) as Hc by (heap_consts; lia).
  assert (0 <= de < 2 ^ 16) as Hd by (heap_consts; lia).
  eexists. split; [by apply write_header_eq|].
  destruct (write_header_header pg next' (zlen recs) de _ Hl Hn' Hc Hd (write_header_eq _ _ _ _ Hl Hn' Hc Hd))
    as (Hl' & Hh' & Hs').
  constructor; try done. intros i r Hi. pose proof (lookup_lt_Some _ _ _ Hi) as Hlt.
  destruct (slot_offset_room recs de (Z.of_nat i) Hr ltac:(unfold zlen; lia)) as [Ho Hde].
  eapply (slot_holds_ext pg _ de); [done|done|lia|done|lia|by intros; apply Hs'| |by apply Hs].
  apply Hs'. lia.
Qed.

(** A page initialised as the end of a chain *)
Lemma init_page_ok pg :
  zlen pg = PAGE_SIZE →
  ∃ pg', _write_header pg NO_NEXT 0 DATA_START = Ok pg' ∧ hpage pg' NO_NEXT DATA_START [].
Proof.
  intros Hl. assert (0 <= NO_NEXT < 2 ^ 32) as Hn by (unfold NO_NEXT; lia).
  assert (0 <= 0 < 2 ^ 16) as H0 by lia.
  assert (0 <= DATA_START < 2 ^ 16) as Hd by (heap_consts; lia).
  eexists. split; [by apply write_header_eq|].
  destruct (write_header_header pg _ 0 _ _ Hl Hn H0 Hd (write_header_eq _ _ _ _ Hl Hn H0 Hd))
    as (Hl' & Hh' & _).
  by constructor.
Qed.

Lemma slot_holds_lookup pg de recs next i r :
  hpage pg next de recs → recs !! i = Some r →
  slot_holds pg de (Z.of_nat i) r ∧ 0 <= _slot_offset (Z.of_nat i) ∧
  de <= _slot_offset (Z.of_nat i) ∧ (i < length recs)%nat.
Proof.
  intros [Hl Hh Hn Hr Hs] Hi. pose proof (lookup_lt_Some _ _ _ Hi) as Hlt.
  destruct (slot_offset_room recs de (Z.of_nat i) Hr ltac:(unfold zlen; lia)) as [Ho Hde].
  split_and!; auto.
Qed.

(** Appending a record: the page gains one slot with its bytes, and the other
    records are untouched. *)
Lemma insert_record_ok pg next de recs d :
  hpage pg next de recs → SLOT_SIZE + zlen d <= _slots_start (zlen recs) - de →
  ∃ pg', insert_record pg d = Ok (pg', zlen recs) ∧
         hpage pg' next (de + zlen d) (recs ++ [Some d]).
Proof.
  intros Hp Hfit. pose proof Hp as [Hl Hh Hn Hr _]. pose proof (zlen_nonneg recs). pose proof (zlen_nonneg d).
  unfold insert_record. rewrite Hh, bind_Ok.
  set (p1 := patch pg de d).
  assert (zlen p1 = PAGE_SIZE) as Hl1 by (subst p1; rewrite zlen_patch; heap_consts; lia).
  destruct (write_slot_ok p1 (zlen recs) de (zlen d) 1) as (p2 & Hw & Hl2 & Hslot & Hs2);
    try done; try (heap_consts; lia).
  rewrite Hw, bind_Ok.
  assert (0 <= zlen recs + 1 < 2 ^ 16) as Hc by (heap_consts; lia).
  assert (0 <= de + zlen d < 2 ^ 16) as Hde by (heap_consts; lia).
  pose proof (write_header_eq p2 next _ _ Hl2 Hn Hc Hde) as He. rewrite He, bind_Ok.
  destruct (write_header_header p2 _ _ _ _ Hl2 Hn Hc Hde He) as (Hl3 & Hh3 & Hs3).
  set (p3 := patch _ 6 _) in *. clearbody p3. exists p3. split; [done|].
  assert (∀ a b, DATA_START <= a → b <= de → slice p3 a b = slice pg a b) as Hold.
  { intros a b Ha Hb. rewrite Hs3 by done. rewrite Hs2 by (heap_consts; lia).
    apply slice_patch_before; heap_consts; lia. }
  constructor; try done.
  - by rewrite zlen_app, zlen_cons, zlen_nil.
  - rewrite zlen_app, zlen_cons, zlen_nil. heap_consts. lia.
  - intros i r Hi. apply lookup_app_Some in Hi as [Hi|[Hge Hi]].
    + destruct (slot_holds_lookup _ _ _ _ _ _ Hp Hi) as (Hs & Ho & Hde' & Hlt).
      apply (slot_holds_ext pg p3 de); [done|done|lia|done|lia|exact Hold| |exact Hs].
      rewrite Hs3 by (heap_consts; lia). rewrite Hs2 by (unfold zlen in *; heap_consts; lia).
      apply slice_patch_after; unfold zlen in *; heap_consts; lia.
    + assert (i = length recs ∧ r = Some d) as [-> ->].
      { destruct (i - length recs)%nat as [|k] eqn:E; simpl in Hi; [|done]. split; [lia|congruence]. }
      fold (zlen recs). exists de. split_and!; [|rewrite Hs3 by (heap_consts; lia)|lia|lia].
      * rewrite <-Hslot. apply read_slot_slice; try done; try (heap_consts; lia).
        apply Hs3. heap_consts. lia.
      * rewrite Hs2 by (heap_consts; lia). apply slice_patch_same; heap_consts; lia.
Qed.

(** Clearing a slot *)
Lemma clear_slot_ok pg next de recs i :
  hpage pg next de recs → 0 <= i < zlen recs →
  ∃ pg', _write_slot pg i 0 0 0 = Ok pg' ∧ hpage pg' next de (<[Z.to_nat i := None]> recs).
Proof.
  intros Hp Hi. pose proof Hp as [Hl Hh Hn Hr _].
  destruct (slot_offset_room recs de i Hr Hi) as [Ho Hde].
  destruct (write_slot_ok pg i 0 0 0) as (p2 & Hw & Hl2 & Hslot & Hs2); try done; try lia.
  exists p2. split; [done|].
  assert (zlen (<[Z.to_nat i := None]> recs) = zlen recs) as Hz
    by (unfold zlen; by rewrite length_insert).
  constructor; rewrite ?Hz; try done.
  - rewrite <-Hh. unfold _read_header, unpack_ule, read_at. rewrite Hl, Hl2.
    assert (∀ a b, 0 <= a → b <= 8 → slice p2 a b = slice pg a b) as Hhd.
    { intros a b Ha Hb. apply Hs2; [|done]. left. heap_consts. lia. }
    rewrite !Hhd by lia. done.
  - intros k r. rewrite list_lookup_insert_Some.
    intros [(<- & <- & Hk)|[Hne Hk]].
    + rewrite Z2Nat.id by lia. exists 0, 0. done.
    + destruct (slot_holds_lookup _ _ _ _ _ _ Hp Hk) as (Hs & Ho' & Hde' & Hlt).
      apply (slot_holds_ext pg p2 de); [done|done|lia|done|lia| | |exact Hs].
      * intros a b Ha Hb. apply Hs2; heap_consts; lia.
      * apply Hs2; [|lia]. heap_consts. lia.
Qed.

(** What [read] and [scan] see of a page *)
Lemma read_slot_some pg next de recs i d :
  hpage pg next de recs → recs !! i = Some (Some d) →
  ∃ off, _read_slot pg (Z.of_nat i) = Ok (off, zlen d, 1) ∧ slice pg off (off + zlen d) = d.
Proof. intros Hp Hi. destruct (slot_holds_lookup _ _ _ _ _ _ Hp Hi) as ((off & ? & ? & _) & _). eauto. Qed.
Lemma read_slot_none pg next de recs i :
  hpage pg next de recs → recs !! i = Some None →
  ∃ off len, _read_slot pg (Z.of_nat i) = Ok (off, len, 0).
Proof. intros Hp Hi. by destruct (slot_holds_lookup _ _ _ _ _ _ Hp Hi) as (? & _). Qed.

(** The live slots of a page *)
Fixpoint live_slots (pid i : Z) (recs : list (option bytes)) : list Rid :=
  match recs with
  | [] => []
  | r :: recs => match r with Some _ => [mkRid pid i] | None => [] end ++ live_slots pid (i + 1) recs
  end.

Lemma scan_slots_ok pg next de recs pid :
  hpage pg next de recs → scan_slots pid pg 0 (length recs) = Ok (live_slots pid 0 recs).
Proof.
  intros Hp.
  assert (∀ recs1 recs2, recs = recs1 ++ recs2 →
    scan_slots pid pg (Z.of_nat (length recs1)) (length recs2)
    = Ok (live_slots pid (Z.of_nat (length recs1)) recs2)) as Hgen.
  { intros recs1 recs2. revert recs1. induction recs2 as [|r recs2 IH]; intros recs1 Hr; [done|].
    assert (recs !! length recs1 = Some r) as Hi by (by rewrite Hr, list_lookup_middle).
    simpl. specialize (IH (recs1 ++ [r])). rewrite length_app, Nat2Z.inj_add in IH.
    simpl length in IH. change (Z.of_nat 1) with 1 in IH.
    rewrite <-app_assoc in IH. specialize (IH Hr). destruct r as [d|].
    - destruct (read_slot_some _ _ _ _ _ _ Hp Hi) as (off & -> & _). simpl. by rewrite IH.
    - destruct (read_slot_none _ _ _ _ _ Hp Hi) as (off & len & ->). simpl. by rewrite IH. }
  exact (Hgen [] recs eq_refl).
Qed.

(** * Page writes as a log of images *)

(** One logged write: the page, its bytes before and after *)
Abbreviation image := (Z * bytes * bytes)%type.

Fixpoint redo (m : gmap Z bytes) (ls : list image) : gmap Z bytes :=
  match ls with
  | [] => m
  | (pid, _, after) :: ls => redo (<[pid := after]> m) ls
  end.
(** Restoring the before images, the last write first *)
Definition undo (m : gmap Z bytes) (ls : list image) : gmap Z bytes :=
  foldl (λ m t, <[t.1.1 := t.1.2]> m) m (reverse ls).
(** Each before image is what the page held when it was written. *)
Fixpoint consistent (m : gmap Z bytes) (ls : list image) : Prop :=
  match ls with
  | [] => True
  | (pid, before, after) :: ls => m !! pid = Some before ∧ consistent (<[pid := after]> m) ls
  end.

Lemma redo_app m ls ls' : redo m (ls ++ ls') = redo (redo m ls) ls'.
Proof. revert m. induction ls as [|[[? ?] ?] ls IH]; intros; simpl; auto. Qed.
Lemma consistent_app m ls ls' :
  consistent m (ls ++ ls') ↔ consistent m ls ∧ consistent (redo m ls) ls'.
Proof.
  revert m. induction ls as [|[[? ?] ?] ls IH]; intros m; simpl; [naive_solver|].
  rewrite IH. naive_solver.
Qed.
Lemma undo_redo m ls : consistent m ls → undo (redo m ls) ls = m.
Proof.
  unfold undo. revert m. induction ls as [|[[pid before] after] ls IH]; intros m; simpl; [done|].
  intros [Hb Hc]. rewrite reverse_cons, foldl_app, IH by done. simpl.
  rewrite insert_insert_eq. by apply insert_id.
Qed.

(** * Allocation, and the chain of pages *)

(** Allocation, with room for some more pages *)
Class RoomLaws (P : Type) `{PagerOps P, AllocOps P} (stores : P → gmap Z bytes → Prop) (rooms : nat → P → Prop) : Prop := {
  rooms_alloc p m n : stores p m → rooms (S n) p →
    ∃ pid p', pi_allocate_page p = (Ok pid, p') ∧ m !! pid = None ∧ 0 < pid < NO_NEXT ∧
              stores p' (<[pid := zero_page]> m) ∧ rooms n p';
  rooms_mono p n n' : rooms n p → (n' <= n)%nat → rooms n' p;
  rooms_write p m n pid d p' : stores p m → rooms n p → is_Some (m !! pid) → zlen d = PAGE_SIZE →
    pi_write_page pid d p = (Ok (), p') → rooms n p';
}.

Definition pager_room (p : Pager) : Prop := p.(pg_num_pages) + 1 < 2 ^ 32.

Lemma pager_alloc p m : pager_stores p m → pager_room p →
  ∃ pid p', pi_allocate_page p = (Ok pid, p') ∧ m !! pid = None ∧ 0 <= pid < NO_NEXT ∧ pager_stores p' (<[pid := zero_page]> m).
Proof.
  intros (a & Hr & Hm) Hroom. unfold pager_room in Hroom.
  pose proof (shows_bounds _ _ (proj1 Hr)) as [Hb _]. rewrite (sh_num _ _ (proj1 Hr)) in Hroom.
  destruct (exec_alloc_refines p a Hr Hroom) as (p' & Hx & Hr').
  revert Hx Hr'. simpl. unfold mbind, M_bind. cbn [pi_allocate_page Pager_alloc].
  destruct (allocate_page p) as [[pid|] p1]; [|destruct (st_free a); simpl; intros; discriminate].
  pose proof (sh_range _ _ (proj1 Hr)) as Hrg. pose proof (sh_nodup _ _ (proj1 Hr)) as Hnd.
  destruct (st_free a) as [|pid' fl] eqn:Hfl; simpl; intros [= -> <-] Hr'.
  - exists (st_num a), p1. split_and!; try done; try (unfold NO_NEXT; lia).
    + destruct (m !! st_num a) as [d|] eqn:E; [|done]. apply Hm in E as (? & _). lia.
    + eexists. split; [exact Hr'|]. cbn [st_num st_free st_pages st_extend]. intros x d Hx.
      rewrite Z.max_l by lia. rewrite Hfl. apply lookup_insert_Some in Hx as [[<- <-]|[Hne Hx]].
      * split; [lia|]. split; [apply not_elem_of_nil|]. split; [|apply zlen_zero_page].
        destruct (Z.leb_spec (st_num a) (st_num a)), (Z.ltb_spec (st_num a) (st_num a + 1)); try lia. done.
      * destruct (Hm x d Hx) as (? & ? & ? & ?). split; [lia|]. split; [apply not_elem_of_nil|].
        split; [|done]. destruct (Z.leb_spec (st_num a) x); [lia|done].
  - apply Forall_cons in Hrg as [Hp Hrg]. apply NoDup_cons in Hnd as [Hnin Hnd].
    unfold _RESERVED_PAGES in Hp.
    exists pid', p1. split_and!; try done; try (unfold NO_NEXT; lia).
    + destruct (m !! pid') as [d|] eqn:E; [|done]. apply Hm in E as (_ & Hn & _).
      exfalso. apply Hn. by left.
    + eexists. split; [exact Hr'|]. cbn [st_num st_free st_pages]. intros x d Hx.
      apply lookup_insert_Some in Hx as [[<- <-]|[Hne Hx]].
      * split; [lia|]. split; [done|]. split; [|apply zlen_zero_page]. unfold fupd. by rewrite decide_True.
      * destruct (Hm x d Hx) as (? & Hnx & ? & ?). rewrite not_elem_of_cons in Hnx.
        destruct Hnx. split; [lia|]. split; [done|]. split; [|done].
        unfold fupd. by rewrite decide_False by congruence.
Qed.

Definition pager_rooms (n : nat) (p : Pager) : Prop := p.(pg_num_pages) + Z.of_nat n < 2 ^ 32.
#[global] Instance pager_room_laws : RoomLaws Pager pager_stores pager_rooms.
Proof.
  split.
  - intros p m n (a & Hr & Hm) Hroom. unfold pager_rooms in *.
    assert (pager_stores p m) as Hst by (by exists a).
    destruct (pager_alloc p m Hst) as (pid & p' & Ha & Hn & Hp & Hst'); [unfold pager_room; lia|].
    exists pid, p'. split; [done|]. split; [done|].
    assert (1 <= pid) as Hp1.
    { destruct Hst' as (a' & _ & Hm'). destruct (Hm' pid zero_page) as [? _]; [by rewrite lookup_insert_eq|lia]. }
    split; [lia|]. split; [done|].
    pose proof (shows_bounds _ _ (proj1 Hr)) as [Hb _].
    pose proof (sh_num _ _ (proj1 Hr)). destruct (exec_alloc_refines p a Hr) as (p1 & Hx & Hr'); [simpl; lia|].
    revert Hx Hr'. simpl. unfold mbind, M_bind. cbn [pi_allocate_page Pager_alloc] in Ha. rewrite Ha.
    intros [= _ <-] Hr'. rewrite (sh_num _ _ (proj1 Hr')). rewrite (sh_num _ _ (proj1 Hr)) in Hroom.
    destruct (st_free a); cbn [snd st_num st_extend]; lia.
  - unfold pager_rooms. lia.
  - intros p m n pid d p' (a & Hr & Hm) Hroom [d0 Hd0] Hd Hw. unfold pager_rooms in *.
    destruct (Hm pid d0 Hd0) as (Hp & Hf & _ & _).
    destruct (exec_write_refines p a pid d Hr) as (p1 & Hx & Hr').
    { split; [done|]. destruct (shows_bounds _ _ (proj1 Hr)). lia. }
    revert Hx Hr'. simpl. rewrite Hd, Z.eqb_refl. simpl negb. cbv iota.
    destruct (Z.ltb_spec pid 0); [lia|]. unfold st_write. destruct (Z.eqb_spec pid 0); [lia|].
    simpl. unfold mbind, M_bind. cbn [pi_write_page Pager_ops] in Hw. rewrite Hw.
    intros [= <-] Hr'. rewrite (sh_num _ _ (proj1 Hr')). rewrite (sh_num _ _ (proj1 Hr)) in Hroom.
    cbn [snd st_num]. lia.
Qed.

(** The records of a heap, page by page along the chain *)
Abbreviation records := (list (Z * list (option bytes))).

Fixpoint chain (m : gmap Z bytes) (pid : Z) (H : records) : Prop :=
  match H with
  | [] => pid = NO_NEXT
  | (p, recs) :: H =>
      pid = p ∧ 0 <= p < NO_NEXT ∧
      ∃ pg next de, m !! p = Some pg ∧ hpage pg next de recs ∧ chain m next H
  end.

Fixpoint rec_at (pid slot : Z) (H : records) : option (option bytes) :=
  match H with
  | [] => None
  | (p, recs) :: H => if pid =? p then znth recs slot else rec_at pid slot H
  end.

(** The chain only depends on its own pages. *)
Lemma chain_ext m m' pid H :
  (∀ x, x ∈ map fst H → m' !! x = m !! x) → chain m pid H → chain m' pid H.
Proof.
  revert pid. induction H as [|[p recs] H IH]; intros pid Hm; simpl; [done|].
  intros (-> & Hp & pg & next & de & Hg & Hh & Hc). split_and!; try lia.
  exists pg, next, de. split_and!; [|done|].
  - rewrite Hm by (simpl; by left). done.
  - apply IH; [|done]. intros x Hx. apply Hm. simpl. by right.
Qed.

Lemma chain_mapped m pid H x : chain m pid H → x ∈ map fst H → is_Some (m !! x) ∧ 0 <= x < NO_NEXT.
Proof.
  revert pid. induction H as [|[p recs] H IH]; intros pid; simpl; [by intros _ ?%elem_of_nil|].
  intros (-> & Hp & pg & next & de & Hg & Hh & Hc). rewrite elem_of_cons.
  intros [->|Hx]; [rewrite Hg; eauto|by apply (IH next)].
Qed.

(** * The operations on the chain *)

Section HeapSpec.
Context {P W : Type} {stores : P → gmap Z bytes → Prop} {rooms : nat → P → Prop}.
Context {POps : PagerOps P} {PLaws : PagerLaws P stores}.
Context {AOps : AllocOps P} {RLaws : RoomLaws P stores rooms}.
Context (on_page_write : option (Z → bytes → bytes → M W unit)).
Local Abbreviation heap := (Heap P W).

(** The callback on one image, and on a list of them *)
Definition cb_image (t : image) : M W unit :=
  match on_page_write with Some cb => cb t.1.1 t.1.2 t.2 | None => mret () end.
Fixpoint cb_all (ls : list image) : M W unit :=
  match ls with [] => mret () | t :: ls => cb_image t;; cb_all ls end.

(** [ready n w]: the callback takes [n] more images of whole pages *)
Context (ready : nat → W → Prop).
Context (cb_ready : ∀ n pid before after w,
  ready (S n) w → 0 <= pid < NO_NEXT → zlen before = PAGE_SIZE → zlen after = PAGE_SIZE →
  ∃ w', cb_image (pid, before, after) w = (Ok (), w') ∧ ready n w').
Context (ready_less : ∀ n w, ready (S n) w → ready n w).

(** From pages [m] to pages [m'], writing the images [ls] through the callback *)
Definition evolves (h : heap) (m : gmap Z bytes) (h' : heap) (m' : gmap Z bytes) (ls : list image) : Prop :=
  stores h'.(hp_pager) m' ∧ consistent m ls ∧ m' = redo m ls ∧
  cb_all ls h.(hp_world) = (Ok (), h'.(hp_world)) ∧
  h'.(hp_head_pid) = h.(hp_head_pid) ∧ h'.(hp_table_id) = h.(hp_table_id).

Lemma cb_all_app ls ls' w w' w'' :
  cb_all ls w = (Ok (), w') → cb_all ls' w' = (Ok (), w'') → cb_all (ls ++ ls') w = (Ok (), w'').
Proof.
  revert w. induction ls as [|t ls IH]; intros w; simpl; [by intros [= <-]|].
  unfold mbind, M_bind. destruct (cb_image t w) as [[[]|] w1]; [|discriminate]. intros Ha Hb.
  by apply IH.
Qed.

Lemma evolves_trans h m h1 m1 h2 m2 ls ls' :
  evolves h m h1 m1 ls → evolves h1 m1 h2 m2 ls' → evolves h m h2 m2 (ls ++ ls').
Proof.
  intros (Hs & Hc & -> & Hw & Hh & Ht) (Hs' & Hc' & -> & Hw' & Hh' & Ht').
  split; [done|]. split; [by apply consistent_app|]. split; [by rewrite redo_app|].
  split; [by eapply cb_all_app|]. split; congruence.
Qed.

Lemma evolves_fsm h m f : stores h.(hp_pager) m → evolves h m (hp_set_fsm f h) m [].
Proof. intros. by split_and!. Qed.

Lemma the_pager_ok {A} (c : M P A) (h : heap) a p' :
  c h.(hp_pager) = (Ok a, p') → the_pager c h = (Ok a, hp_set_pager p' h).
Proof. unfold the_pager, zoom. by intros ->. Qed.
Lemma hp_set_pager_id (h : heap) : hp_set_pager h.(hp_pager) h = h.
Proof. by destruct h. Qed.
Lemma read_ok (h : heap) m pid pg :
  stores h.(hp_pager) m → m !! pid = Some pg → the_pager (pi_read_page pid) h = (Ok pg, h).
Proof.
  intros Hs Hg. rewrite (the_pager_ok _ h pg h.(hp_pager)); [by rewrite hp_set_pager_id|].
  by eapply pi_read_law.
Qed.

Lemma refresh_fsm_ok (h : heap) m pid pg next de recs :
  stores h.(hp_pager) m → m !! pid = Some pg → hpage pg next de recs →
  ∃ f, _refresh_fsm pid h = (Ok (_slots_start (zlen recs) - de), hp_set_fsm f h).
Proof.
  intros Hs Hg Hp. unfold _refresh_fsm. rewrite (run_Ok _ _ _ _ _ (read_ok h m pid pg Hs Hg)).
  rewrite (hpg_header _ _ _ _ Hp). mrun. unfold update.
  pose proof (hpg_room _ _ _ _ Hp) as Hr.
  exists (fsm_set pid (_slots_start (zlen recs) - de) h.(hp_fsm)).
  rewrite (proj2 (Z.leb_le 0 _)) by lia. reflexivity.
Qed.

Lemma write_logged_ok n k (h : heap) m pid before after :
  stores h.(hp_pager) m → m !! pid = Some before → zlen after = PAGE_SIZE → 0 <= pid < NO_NEXT →
  rooms n h.(hp_pager) → ready (S k) h.(hp_world) →
  ∃ h', _write_page_logged on_page_write pid after h = (Ok (), h') ∧
        evolves h m h' (<[pid := after]> m) [(pid, before, after)] ∧ rooms n h'.(hp_pager) ∧ ready k h'.(hp_world).
Proof.
  intros Hs Hb Ha Hpid Hn Hk. unfold _write_page_logged.
  rewrite (run_Ok _ _ _ _ _ (read_ok h m pid before Hs Hb)).
  destruct (cb_ready k pid before after h.(hp_world) Hk Hpid) as (w' & Hw & Hk'); [by eapply pi_size_law|done|].
  assert ((match on_page_write with Some cb => the_world (cb pid before after) | None => mret () end) h
          = (Ok (), hp_set_world w' h)) as Hcb.
  { unfold cb_image in Hw. destruct on_page_write as [cb|].
    - unfold the_world, zoom. simpl in Hw. by rewrite Hw.
    - injection Hw as <-. by destruct h. }
  rewrite (run_Ok _ _ _ _ _ Hcb).
  destruct (pi_write_law h.(hp_pager) m pid after) as (p' & Hp & Hs' & _); [done|by rewrite Hb|done|].
  rewrite (the_pager_ok _ (hp_set_world w' h) _ _ Hp).
  eexists. split; [reflexivity|]. split; [|split; [|done]].
  - split_and!; try done. simpl. by rewrite (run_Ok _ _ _ _ _ Hw).
  - by eapply rooms_write; [exact Hs|done|by rewrite Hb|exact Ha|exact Hp].
Qed.

Lemma redo_other m ls x : x ∉ map (λ t : image, t.1.1) ls → redo m ls !! x = m !! x.
Proof.
  revert m. induction ls as [|[[p b] a] ls IH]; intros m; simpl; [done|].
  rewrite not_elem_of_cons. intros [Hx Hn]. rewrite IH by done. by rewrite lookup_insert_ne.
Qed.

(** A fresh page linked behind the tail *)
Lemma append_overflow_ok n k (h : heap) m tail pg de recs :
  stores h.(hp_pager) m → rooms (S n) h.(hp_pager) → ready (2 + k) h.(hp_world) → m !! tail = Some pg → 0 <= tail < NO_NEXT →
  hpage pg NO_NEXT de recs →
  ∃ new h' m' ls, _append_overflow_page on_page_write tail h = (Ok new, h') ∧
    m !! new = None ∧ 0 <= new < NO_NEXT ∧
    evolves h (<[new := zero_page]> m) h' m' ls ∧ rooms n h'.(hp_pager) ∧ ready k h'.(hp_world) ∧
    chain m' tail [(tail, recs); (new, [])] ∧
    (∃ pg2, m' !! new = Some pg2 ∧ hpage pg2 NO_NEXT DATA_START []) ∧
    (∀ x, x ≠ tail → x ≠ new → m' !! x = m !! x).
Proof.
  intros Hs Hroom Hk Hg Htail Hp. unfold _append_overflow_page.
  destruct (rooms_alloc h.(hp_pager) m n Hs Hroom) as (new & p1 & Ha & Hnone & Hnew & Hs1 & Hn1).
  rewrite (run_Ok _ _ _ _ _ (the_pager_ok _ h _ _ Ha)).
  assert (tail ≠ new) as Hne by congruence. set (h1 := hp_set_pager p1 h).
  set (m1 := <[new := zero_page]> m) in *.
  assert (m1 !! tail = Some pg) as Hg1 by (subst m1; by rewrite lookup_insert_ne).
  rewrite (run_Ok _ _ _ _ _ (read_ok h1 m1 tail pg Hs1 Hg1)).
  rewrite (hpg_header _ _ _ _ Hp). mrun.
  destruct (set_next_ok pg NO_NEXT de recs new Hp ltac:(unfold NO_NEXT in *; lia)) as (pg1 & Hw1 & Hp1).
  rewrite Hw1. mrun.
  destruct (write_logged_ok n (S k) h1 m1 tail pg pg1) as (h2 & Hx2 & Hev2 & Hn2 & Hk2); try done; [apply Hp1|].
  rewrite (run_Ok _ _ _ _ _ Hx2).
  assert (<[tail := pg1]> m1 !! new = Some zero_page) as Hg2
    by (rewrite lookup_insert_ne by done; subst m1; by rewrite lookup_insert_eq).
  pose proof Hev2 as (Hs2 & _).
  rewrite (run_Ok _ _ _ _ _ (read_ok h2 _ new _ Hs2 Hg2)).
  destruct (init_page_ok zero_page zlen_zero_page) as (pg2 & Hw2 & Hp2). rewrite Hw2. mrun.
  destruct (write_logged_ok n k h2 (<[tail := pg1]> m1) new zero_page pg2) as (h3 & Hx3 & Hev3 & Hn3 & Hk3); try done; [apply Hp2|lia|].
  rewrite (run_Ok _ _ _ _ _ Hx3). exists new, h3. eexists _, _. split; [reflexivity|].
  split; [done|]. split; [lia|]. split.
  { eapply (evolves_trans h m1 h2); [|exact Hev3].
    destruct Hev2 as (?&?&?&?&?&?). by split_and!. }
  split; [done|]. split; [done|]. split_and!.
  - simpl. split; [done|]. split; [done|]. exists pg1, new, de.
    split; [by rewrite lookup_insert_ne, lookup_insert_eq|]. split; [done|].
    split; [done|]. split; [lia|]. exists pg2, NO_NEXT, DATA_START.
    by rewrite lookup_insert_eq.
  - exists pg2. by rewrite lookup_insert_eq.
  - intros x Hx Hx'. subst m1. rewrite !lookup_insert_ne by done. done.
Qed.

(** The pages after room is made: the same, or one more at the end *)
Definition grown (m : gmap Z bytes) (H : records) (m0 : gmap Z bytes) (H' : records) : Prop :=
  (H' = H ∧ m0 = m) ∨
  (∃ new, H' = H ++ [(new, [])] ∧ m !! new = None ∧ 0 <= new < NO_NEXT ∧ m0 = <[new := zero_page]> m).

Lemma grown_other m H m0 H' x : grown m H m0 H' → x ∉ map fst H' → m0 !! x = m !! x.
Proof.
  intros [[-> ->]|(new & -> & _ & _ & ->)] Hx; [done|]. rewrite map_app, not_elem_of_app in Hx.
  simpl in Hx. rewrite not_elem_of_cons in Hx. by rewrite lookup_insert_ne by naive_solver.
Qed.

Lemma find_page_ok n k Hr fuel pid (h : heap) m needed :
  stores h.(hp_pager) m → rooms (S n) h.(hp_pager) → ready (2 + k) h.(hp_world) → chain m pid Hr → NoDup (map fst Hr) → Hr ≠ [] →
  (length Hr <= fuel)%nat → needed <= PAGE_SIZE - DATA_START →
  ∃ target h' m0 m' Hr' ls, find_page on_page_write fuel needed pid h = (Ok target, h') ∧
    grown m Hr m0 Hr' ∧ evolves h m0 h' m' ls ∧ rooms n h'.(hp_pager) ∧ ready k h'.(hp_world) ∧ chain m' pid Hr' ∧ NoDup (map fst Hr') ∧
    (∃ pg next de recs, m' !! target = Some pg ∧ hpage pg next de recs ∧ (target, recs) ∈ Hr' ∧
                        needed <= _slots_start (zlen recs) - de) ∧
    (∀ x, x ∉ map fst Hr' → m' !! x = m !! x).
Proof.
  intros Hs Hroom Hk. revert fuel pid h Hs Hroom Hk. induction Hr as [|[p recs] Hr IH]; [done|].
  intros fuel pid h Hs Hroom Hk (-> & Hp & pg & next & de & Hg & Hpg & Hc) Hnd _ Hf Hneed.
  destruct fuel as [|fuel]; simpl in Hf; [lia|]. simpl.
  destruct (refresh_fsm_ok h m p pg next de recs Hs Hg Hpg) as (f & Hfree).
  rewrite (run_Ok _ _ _ _ _ Hfree). set (h1 := hp_set_fsm f h).
  destruct (Z.leb_spec needed (_slots_start (zlen recs) - de)) as [Hfit|Hfull].
  - exists p, h1, m, m, ((p, recs) :: Hr), []. split; [reflexivity|].
    split; [by left|]. split; [by apply evolves_fsm|]. split; [by eapply (rooms_mono _ (S n)); [exact Hroom|lia]|].
    split; [by do 2 apply ready_less|]. split; [|split; [done|split; [|done]]].
    + simpl. split; [done|]. split; [done|]. by exists pg, next, de.
    + exists pg, next, de, recs. split; [done|]. split; [done|]. split; [by left|done].
  - rewrite (run_Ok _ _ _ _ _ (read_ok h1 m p pg Hs Hg)).
    assert (unpack_ule 4 pg 0 = Ok next) as Hn.
    { pose proof (hpg_header _ _ _ _ Hpg) as Hh. unfold _read_header in Hh. by inv_ok. }
    rewrite Hn. mrun. destruct Hr as [|[p2 recs2] Hr].
    + simpl in Hc. subst next. rewrite Z.eqb_refl.
      destruct (append_overflow_ok n k h1 m p pg de recs Hs Hroom Hk Hg Hp Hpg)
        as (new & h2 & m2 & ls & Ha & Hnone & Hnew & Hev & Hn2 & Hk2 & Hc2 & (pg2 & Hg2 & Hp2) & Hoth).
      rewrite (run_Ok _ _ _ _ _ Ha). pose proof Hev as (Hs2 & _).
      pose proof Hc2 as (_ & _ & pg1 & next1 & de1 & Hg1 & Hp1 & _).
      destruct (refresh_fsm_ok h2 m2 p pg1 next1 de1 recs Hs2 Hg1 Hp1) as (f2 & Hx2).
      rewrite (run_Ok _ _ _ _ _ Hx2).
      destruct (refresh_fsm_ok (hp_set_fsm f2 h2) m2 new pg2 NO_NEXT DATA_START [] Hs2 Hg2 Hp2) as (f3 & Hx3).
      rewrite (run_Ok _ _ _ _ _ Hx3).
      eexists new, _, (<[new := zero_page]> m), m2, [(p, recs); (new, [])], ls.
      split; [reflexivity|]. split; [right; by exists new|]. split; [exact Hev|].
      split; [exact Hn2|]. split; [exact Hk2|]. split; [exact Hc2|].
      split; [|split].
      * simpl. apply NoDup_cons. split; [|apply NoDup_singleton].
        rewrite list_elem_of_singleton. congruence.
      * exists pg2, NO_NEXT, DATA_START, []. split; [done|]. split; [done|].
        split; [right; by left|]. rewrite zlen_nil. heap_consts. lia.
      * intros x Hx. simpl in Hx. rewrite !not_elem_of_cons in Hx. apply Hoth; naive_solver.
    + pose proof Hc as (Hpn & Hpr & _). subst p2.
      destruct (Z.eqb_spec next NO_NEXT); [unfold NO_NEXT in *; lia|].
      simpl in Hnd. apply NoDup_cons in Hnd as [Hnin Hnd].
      destruct (IH fuel next h1 Hs Hroom Hk Hc Hnd ltac:(done) ltac:(simpl in *; lia) Hneed)
        as (t & h2 & m0 & m2 & Hr2 & ls & Hx & Hgr & Hev & Hn2 & Hk2 & Hc2 & Hnd2 & (pgt & nt & dt & rt & Ht1 & Ht2 & Ht3 & Ht4) & Hoth).
      assert (p ∉ map fst Hr2) as Hnin2.
      { destruct Hgr as [[-> _]|(new & -> & Hnone & _ & _)]; [done|].
        rewrite map_app, not_elem_of_app. split; [done|]. simpl. rewrite list_elem_of_singleton. congruence. }
      exists t, h2, m0, m2, ((p, recs) :: Hr2), ls. split; [exact Hx|].
      split; [|split; [|split; [exact Hn2|split; [exact Hk2|split; [|split; [|split]]]]]].
      * destruct Hgr as [[-> ->]|(new & -> & ? & ? & ->)]; [by left|right; by exists new].
      * exact Hev.
      * simpl. split; [done|]. split; [done|]. exists pg, next, de. split; [by rewrite Hoth|]. by split.
      * simpl. by apply NoDup_cons.
      * exists pgt, nt, dt, rt. split_and!; try done. by right.
      * intros y Hy. simpl in Hy. rewrite not_elem_of_cons in Hy. apply Hoth. naive_solver.
Qed.

(** Replacing the records of one page *)
Definition set_recs (t : Z) (recs' : list (option bytes)) (H : records) : records :=
  map (λ e, if e.1 =? t then (t, recs') else e) H.

Lemma set_recs_keys t recs' H : map fst (set_recs t recs' H) = map fst H.
Proof.
  unfold set_recs. rewrite map_map. apply map_ext. intros [p r]. simpl.
  destruct (Z.eqb_spec p t); simpl; congruence.
Qed.
Lemma set_recs_other t recs' H : t ∉ map fst H → set_recs t recs' H = H.
Proof.
  induction H as [|[p r] H IH]; simpl; [done|]. rewrite not_elem_of_cons. intros [Hp Ht].
  rewrite IH by done. destruct (Z.eqb_spec p t); [congruence|done].
Qed.

Lemma chain_update m pid Hr t pg next de recs pg' de' recs' :
  chain m pid Hr → NoDup (map fst Hr) → (t, recs) ∈ Hr →
  m !! t = Some pg → hpage pg next de recs → hpage pg' next de' recs' →
  chain (<[t := pg']> m) pid (set_recs t recs' Hr).
Proof.
  intros Hc Hnd Hin Hg Hp Hp'. revert pid Hc Hnd Hin. induction Hr as [|[p r] Hr IH]; intros pid.
  { intros _ _ ?%elem_of_nil. done. }
  intros (-> & Hpr & pg0 & next0 & de0 & Hg0 & Hp0 & Hc) [Hnin Hnd]%NoDup_cons. simpl in Hnin.
  rewrite elem_of_cons. simpl. intros [[= <- <-]|Hin].
  - rewrite Z.eqb_refl. split; [done|]. split; [done|]. rewrite set_recs_other by done.
    assert (pg0 = pg) as -> by congruence.
    assert (next0 = next) as ->.
    { pose proof (hpg_header _ _ _ _ Hp). pose proof (hpg_header _ _ _ _ Hp0). congruence. }
    exists pg', next, de'. rewrite lookup_insert_eq. split; [done|]. split; [done|].
    apply (chain_ext m); [|done]. intros x Hx. rewrite lookup_insert_ne; [done|]. by intros ->.
  - assert (p ≠ t) as Hne.
    { intros ->. apply Hnin. apply list_elem_of_fmap. by exists (t, recs). }
    destruct (Z.eqb_spec p t); [done|]. split; [done|]. split; [done|].
    exists pg0, next0, de0. rewrite lookup_insert_ne by done. split; [done|]. split; [done|]. by apply IH.
Qed.

Lemma rec_at_in pid slot Hr recs :
  NoDup (map fst Hr) → (pid, recs) ∈ Hr → rec_at pid slot Hr = znth recs slot.
Proof.
  induction Hr as [|[p r] Hr IH]; [by intros _ ?%elem_of_nil|].
  intros [Hn Hnd]%NoDup_cons. rewrite elem_of_cons. simpl. intros [[= <- <-]|Hin].
  - by rewrite Z.eqb_refl.
  - destruct (Z.eqb_spec pid p) as [->|]; [|by apply IH].
    exfalso. apply Hn. apply list_elem_of_fmap. by exists (p, recs).
Qed.
Lemma rec_at_notin pid slot Hr : pid ∉ map fst Hr → rec_at pid slot Hr = None.
Proof.
  induction Hr as [|[p r] Hr IH]; simpl; [done|]. rewrite not_elem_of_cons. intros [Hp Hn].
  destruct (Z.eqb_spec pid p); [done|by apply IH].
Qed.
Lemma rec_at_set_recs pid slot t recs' Hr :
  rec_at pid slot (set_recs t recs' Hr) =
  if (pid =? t) && bool_decide (t ∈ map fst Hr) then znth recs' slot else rec_at pid slot Hr.
Proof.
  induction Hr as [|[p r] Hr IH]; simpl.
  - by rewrite andb_false_r.
  - destruct (Z.eqb_spec p t) as [->|Hne]; simpl.
    + destruct (Z.eqb_spec pid t) as [->|]; simpl; [|rewrite IH; by destruct (Z.eqb_spec pid t)].
      rewrite bool_decide_true by (by left). done.
    + rewrite IH. destruct (Z.eqb_spec pid p), (Z.eqb_spec pid t); subst; simpl; try done.
      rewrite (bool_decide_ext (t ∈ p :: map fst Hr) (t ∈ map fst Hr)); [done|].
      rewrite elem_of_cons. naive_solver.
Qed.
Lemma rec_at_grown m Hr m0 Hr' pid slot :
  grown m Hr m0 Hr' → rec_at pid slot Hr' = rec_at pid slot Hr.
Proof.
  intros [[-> _]|(new & -> & _)]; [done|]. induction Hr as [|[p r] Hr IH]; simpl.
  - destruct (pid =? new); [|done]. unfold znth. by destruct (slot <? 0).
  - by rewrite IH.
Qed.
Lemma znth_app_old {A} (l : list A) x i : i ≠ zlen l → znth (l ++ [x]) i = znth l i.
Proof.
  unfold znth, zlen. intros Hi. destruct (Z.ltb_spec i 0); [done|].
  destruct (decide (Z.to_nat i < length l)%nat).
  - by rewrite lookup_app_l.
  - rewrite lookup_ge_None_2 by (rewrite length_app; simpl; lia).
    by rewrite lookup_ge_None_2 by lia.
Qed.
Lemma znth_app_new {A} (l : list A) x : znth (l ++ [x]) (zlen l) = Some x.
Proof.
  unfold znth, zlen. destruct (Z.ltb_spec (Z.of_nat (length l)) 0); [lia|].
  rewrite Nat2Z.id. by apply list_lookup_middle.
Qed.
Lemma znth_ge {A} (l : list A) : znth l (zlen l) = None.
Proof.
  unfold znth, zlen. destruct (Z.ltb_spec (Z.of_nat (length l)) 0); [lia|].
  apply lookup_ge_None_2. lia.
Qed.

(** The heap [h] over pages [m] holds the records [Hr]. *)
Definition heap_holds (h : heap) (m : gmap Z bytes) (Hr : records) : Prop :=
  stores h.(hp_pager) m ∧ chain m h.(hp_head_pid) Hr ∧ NoDup (map fst Hr) ∧ Hr ≠ [].

(** The longest record that fits in a fresh page *)
Definition MAX_RECORD : Z := PAGE_SIZE - DATA_START - SLOT_SIZE.

Lemma grown_nodup_ne m Hr m0 Hr' : grown m Hr m0 Hr' → Hr ≠ [] → Hr' ≠ [].
Proof. intros [[-> _]|(new & -> & _)]; [done|]. by destruct Hr. Qed.

Lemma insert_ok n k h m Hr fuel d :
  heap_holds h m Hr → rooms (S n) h.(hp_pager) → ready (3 + k) h.(hp_world) → zlen d <= MAX_RECORD → (length Hr <= fuel)%nat →
  ∃ rid h' m0 m' Hr' ls, insert on_page_write fuel d h = (Ok rid, h') ∧
    heap_holds h' m' Hr' ∧ evolves h m0 h' m' ls ∧ rooms n h'.(hp_pager) ∧ ready k h'.(hp_world) ∧ (length Hr' <= S (length Hr))%nat ∧
    (∀ x, x ∈ map fst Hr' → x ∈ map fst Hr ∨ m !! x = None) ∧ (∀ x, x ∈ map fst Hr → x ∈ map fst Hr') ∧
    (m0 = m ∨ ∃ new, m !! new = None ∧ m0 = <[new := zero_page]> m) ∧
    rec_at rid.(page_id) rid.(slot_id) Hr = None ∧
    rec_at rid.(page_id) rid.(slot_id) Hr' = Some (Some d) ∧
    (∀ rid', rid' ≠ rid → rec_at rid'.(page_id) rid'.(slot_id) Hr' = rec_at rid'.(page_id) rid'.(slot_id) Hr) ∧
    (∀ x, x ∉ map fst Hr' → m' !! x = m !! x).
Proof.
  intros (Hs & Hc & Hnd & Hne) Hroom Hk Hsz Hf. unfold insert. mrun.
  destruct (find_page_ok n (S k) Hr fuel _ h m (SLOT_SIZE + zlen d) Hs Hroom Hk Hc Hnd Hne Hf)
    as (t & h1 & m0 & m1 & Hr1 & ls & Hx & Hgr & Hev & Hn1 & Hk1 & Hc1 & Hnd1 & (pg & next & de & recs & Hg & Hp & Hin & Hfit) & Hoth).
  { unfold MAX_RECORD in Hsz. lia. }
  rewrite (run_Ok _ _ _ _ _ Hx). pose proof Hev as (Hs1 & _ & _ & _ & Hhead & _).
  rewrite (run_Ok _ _ _ _ _ (read_ok h1 m1 t pg Hs1 Hg)).
  destruct (insert_record_ok pg next de recs d Hp Hfit) as (pg' & Hins & Hp'). rewrite Hins. mrun.
  assert (t ∈ map fst Hr1) as Ht by (apply list_elem_of_fmap; by exists (t, recs)).
  destruct (chain_mapped m1 _ Hr1 t Hc1 Ht) as [_ Htr].
  destruct (write_logged_ok n k h1 m1 t pg pg') as (h2 & Hx2 & Hev2 & Hn2 & Hk2); try done; [apply Hp'|].
  rewrite (run_Ok _ _ _ _ _ Hx2). pose proof Hev2 as (Hs2 & _ & _ & _ & Hhead2 & _).
  destruct (refresh_fsm_ok h2 _ t pg' next (de + zlen d) (recs ++ [Some d]) Hs2
              ltac:(by rewrite lookup_insert_eq) Hp') as (f & Hx3).
  rewrite (run_Ok _ _ _ _ _ Hx3).
  eexists (mkRid t (zlen recs)), (hp_set_fsm f h2), m0, (<[t := pg']> m1), (set_recs t (recs ++ [Some d]) Hr1), _.
  split; [reflexivity|]. cbn [page_id slot_id].
  assert (∀ pid slot, rec_at pid slot Hr1 = rec_at pid slot Hr) as Hsame
    by (intros; by eapply rec_at_grown).
  split; [|split; [|split; [exact Hn2|split; [exact Hk2|split; [|split; [|split; [|split; [|split; [|split; [|split]]]]]]]]]].
  - split; [exact Hs2|]. split.
    + cbn [hp_head_pid hp_set_fsm]. rewrite Hhead2, Hhead. eapply chain_update; eauto.
    + rewrite set_recs_keys. split; [done|]. pose proof (grown_nodup_ne _ _ _ _ Hgr Hne). by destruct Hr1.
  - eapply evolves_trans; [exact Hev|]. destruct Hev2 as (?&?&?&?&?&?). by split_and!.
  - unfold set_recs. rewrite length_map. destruct Hgr as [[-> _]|(new & -> & _)]; [lia|]. rewrite length_app. simpl. lia.
  - rewrite set_recs_keys. intros y. destruct Hgr as [[-> _]|(new & -> & Hnone & _)]; [by left|].
    rewrite map_app, elem_of_app. intros [Hy|Hy]; [by left|right]. by apply list_elem_of_singleton in Hy as ->.
  - rewrite set_recs_keys. intros x. destruct Hgr as [[-> _]|(new & -> & _)]; [done|]. rewrite map_app, elem_of_app. by left.
  - destruct Hgr as [[_ ->]|(new & _ & ? & _ & ->)]; eauto.
  - rewrite <-Hsame. rewrite (rec_at_in _ _ _ recs) by done. apply znth_ge.
  - rewrite rec_at_set_recs, Z.eqb_refl, bool_decide_true by done. apply znth_app_new.
  - intros [pid slot] Hrid. cbn [page_id slot_id]. rewrite rec_at_set_recs, <-Hsame.
    destruct (Z.eqb_spec pid t) as [->|]; [|done]. rewrite bool_decide_true by done. simpl.
    rewrite (rec_at_in _ _ _ recs) by done. apply znth_app_old. congruence.
  - rewrite set_recs_keys. intros x Hxx. rewrite lookup_insert_ne by congruence. by apply Hoth.
Qed.

Lemma chain_page m pid Hr x recs :
  chain m pid Hr → (x, recs) ∈ Hr → ∃ pg next de, m !! x = Some pg ∧ hpage pg next de recs.
Proof.
  revert pid. induction Hr as [|[p r] Hr IH]; intros pid; [by intros _ ?%elem_of_nil|].
  intros (-> & _ & pg & next & de & Hg & Hp & Hc). rewrite elem_of_cons. intros [[= -> ->]|Hin]; eauto.
Qed.

Lemma page_of_keys (Hr : records) pid : pid ∈ map fst Hr → ∃ recs, (pid, recs) ∈ Hr.
Proof. intros ([p recs] & -> & Hin)%list_elem_of_fmap. eauto. Qed.

(** What [read] finds for a rid: the record, unless it is empty *)
Definition found (r : option (option bytes)) : option bytes :=
  match r with Some (Some d) => if zlen d =? 0 then None else Some d | _ => None end.

Lemma read_rid_ok h m Hr rid :
  heap_holds h m Hr → rid.(page_id) ∈ map fst Hr → 0 <= rid.(slot_id) →
  read rid h = (Ok (found (rec_at rid.(page_id) rid.(slot_id) Hr)), h).
Proof.
  intros (Hs & Hc & Hnd & Hne) Hin Hsl. destruct (page_of_keys _ _ Hin) as [recs Hr'].
  destruct (chain_page _ _ _ _ _ Hc Hr') as (pg & next & de & Hg & Hp).
  unfold read. rewrite (run_Ok _ _ _ _ _ (read_ok h m _ pg Hs Hg)). rewrite (hpg_header _ _ _ _ Hp). mrun.
  rewrite (rec_at_in _ _ _ recs) by done. rewrite znth_lookup by done.
  destruct (Z.leb_spec (zlen recs) (slot_id rid)) as [Hge|Hlt].
  - by rewrite lookup_ge_None_2 by (unfold zlen in *; lia).
  - destruct (lookup_lt_is_Some_2 recs (Z.to_nat (slot_id rid))) as [r Hrr]; [unfold zlen in *; lia|].
    rewrite Hrr. destruct r as [d|].
    + destruct (read_slot_some _ _ _ _ _ _ Hp Hrr) as (off & Hsl' & Hd).
      rewrite Z2Nat.id in Hsl' by done. rewrite Hsl'. mrun. simpl.
      destruct (Z.eqb_spec (zlen d) 0); [done|]. by rewrite Hd.
    + destruct (read_slot_none _ _ _ _ _ Hp Hrr) as (off & len & Hsl').
      rewrite Z2Nat.id in Hsl' by done. rewrite Hsl'. mrun. done.
Qed.

Lemma delete_ok n k h m Hr rid :
  heap_holds h m Hr → rooms n h.(hp_pager) → ready (S k) h.(hp_world) → rid.(page_id) ∈ map fst Hr → 0 <= rid.(slot_id) →
  ∃ h' m' Hr' ls, delete on_page_write rid h = (Ok (), h') ∧ heap_holds h' m' Hr' ∧
    evolves h m h' m' ls ∧ rooms n h'.(hp_pager) ∧ ready k h'.(hp_world) ∧ map fst Hr' = map fst Hr ∧ (∀ x, x ∉ map fst Hr → m' !! x = m !! x) ∧
    (∀ rid', rec_at rid'.(page_id) rid'.(slot_id) Hr' =
       if decide (rid' = rid) then (λ _, None) <$> rec_at rid.(page_id) rid.(slot_id) Hr
       else rec_at rid'.(page_id) rid'.(slot_id) Hr).
Proof.
  intros (Hs & Hc & Hnd & Hne) Hn Hk Hin Hsl. destruct (page_of_keys _ _ Hin) as [recs Hr'].
  destruct (chain_page _ _ _ _ _ Hc Hr') as (pg & next & de & Hg & Hp).
  unfold delete. rewrite (run_Ok _ _ _ _ _ (read_ok h m _ pg Hs Hg)). rewrite (hpg_header _ _ _ _ Hp). mrun.
  assert (rec_at (page_id rid) (slot_id rid) Hr = znth recs (slot_id rid)) as Hat by (by apply rec_at_in).
  destruct (Z.leb_spec (zlen recs) (slot_id rid)) as [Hge|Hlt].
  - exists h, m, Hr, []. split; [reflexivity|]. split; [done|]. split; [by split_and!|].
    split; [done|]. split; [by apply ready_less|]. split; [done|]. split; [done|].
    intros rid'. case_decide as E; [subst|done]. rewrite Hat.
    assert (znth recs (slot_id rid) = None) as ->; [|done].
    rewrite znth_lookup by done. apply lookup_ge_None_2. unfold zlen in *. lia.
  - destruct (clear_slot_ok pg next de recs (slot_id rid) Hp ltac:(lia)) as (pg' & Hw & Hp').
    rewrite Hw. mrun. destruct (chain_mapped m _ Hr _ Hc Hin) as [_ Htr].
    destruct (write_logged_ok n k h m (page_id rid) pg pg') as (h2 & Hx2 & Hev2 & Hn2 & Hk2); try done; [apply Hp'|].
    pose proof Hev2 as (Hs2 & _ & _ & _ & Hhead2 & _).
    eexists h2, _, (set_recs (page_id rid) (<[Z.to_nat (slot_id rid) := None]> recs) Hr), _.
    split; [exact Hx2|]. split; [|split; [exact Hev2|split; [exact Hn2|split; [exact Hk2|split; [by apply set_recs_keys|split; [intros x Hxx; apply lookup_insert_ne; congruence|]]]]]].
    + split; [exact Hs2|]. split; [rewrite Hhead2; eapply chain_update; eauto|].
      rewrite set_recs_keys. split; [done|]. by destruct Hr.
    + intros [p sl]. cbn [page_id slot_id]. rewrite rec_at_set_recs, bool_decide_true, andb_true_r by done.
      destruct (Z.eqb_spec p (page_id rid)) as [->|Hp2].
      * rewrite (rec_at_in _ sl _ recs) by done. rewrite Hat.
        case_decide as E; destruct rid as [p s0]; cbn [page_id slot_id] in *.
        -- injection E as ->. rewrite !znth_lookup by done.
           rewrite list_lookup_insert_eq by (unfold zlen in *; lia).
           destruct (lookup_lt_is_Some_2 recs (Z.to_nat s0)) as [r ->]; [unfold zlen in *; lia|done].
        -- unfold znth. destruct (Z.ltb_spec sl 0); [done|].
           apply list_lookup_insert_ne. intros Heq. apply E. f_equal. lia.
      * case_decide as E; [|done]. by destruct E.
Qed.

(** The live rids of a heap, in the order of [scan] *)
Definition live (Hr : records) : list Rid := mjoin (map (λ e, live_slots e.1 0 e.2) Hr).

Lemma scan_from_ok (h : heap) m Hr pid fuel :
  stores h.(hp_pager) m → chain m pid Hr → (length Hr <= fuel)%nat →
  scan_from fuel pid h = (Ok (live Hr), h).
Proof.
  intros Hs. revert pid fuel. induction Hr as [|[p recs] Hr IH]; intros pid fuel.
  - simpl. intros -> _. by destruct fuel.
  - intros (-> & Hp & pg & next & de & Hg & Hpg & Hc). simpl length. intros Hf.
    destruct fuel as [|fuel]; [lia|]. simpl.
    destruct (Z.eqb_spec p NO_NEXT); [lia|].
    rewrite (run_Ok _ _ _ _ _ (read_ok h m p pg Hs Hg)). rewrite (hpg_header _ _ _ _ Hpg). mrun.
    unfold zlen. rewrite Nat2Z.id, (scan_slots_ok _ _ _ _ _ Hpg). mrun.
    rewrite (run_Ok _ _ _ _ _ (IH next fuel Hc ltac:(lia))). done.
Qed.

(** [Heap(pager, table_id)] takes a page that was free. *)
Lemma new_heap_run p (w : W) m n table_id : stores p m → rooms (S n) p →
  ∃ h pg, new_heap table_id (p, w) = (Ok h, (h.(hp_pager), w)) ∧ m !! h.(hp_head_pid) = None ∧ 0 < h.(hp_head_pid) < NO_NEXT ∧
    stores h.(hp_pager) (<[h.(hp_head_pid) := pg]> m) ∧ rooms n h.(hp_pager) ∧ hpage pg NO_NEXT DATA_START [].
Proof.
  intros Hst Hr. destruct (rooms_alloc p m n Hst Hr) as (pid & p1 & Ha & Hn & Hp & Hst1 & Hr1).
  destruct (init_page_ok zero_page zlen_zero_page) as (pg & Hw & Hpg).
  assert (<[pid := zero_page]> m !! pid = Some zero_page) as Hz by (by rewrite lookup_insert_eq).
  destruct (pi_write_law p1 _ pid pg Hst1 ltac:(by rewrite Hz) (hpg_len _ _ _ _ Hpg)) as (p2 & Hw2 & Hst2 & _).
  pose proof (rooms_write p1 _ n pid pg p2 Hst1 Hr1 ltac:(by rewrite Hz) (hpg_len _ _ _ _ Hpg) Hw2) as Hr2.
  rewrite insert_insert_eq in Hst2. unfold new_heap. cbn [fst snd].
  rewrite (run_Ok _ _ _ _ _ Ha), (run_Ok _ _ _ _ _ (pi_read_law p1 _ pid zero_page Hst1 Hz)), Hw, run_lift_Ok, (run_Ok _ _ _ _ _ Hw2).
  change (M_ret P Z pid p2) with (Ok (A := Z) pid, p2). cbn [mret M_ret]. cbv iota beta.
  destruct (refresh_fsm_ok (mkHeap p2 w table_id pid []) (<[pid := pg]> m) pid pg NO_NEXT DATA_START [] Hst2) as (f & Hx);
    [by rewrite lookup_insert_eq|done|].
  rewrite Hx. eexists _, pg. split; [reflexivity|]. cbn [hp_head_pid hp_pager hp_set_fsm]. done.
Qed.

Lemma live_slots_in pid i recs r :
  r ∈ live_slots pid i recs ↔
  ∃ k d, recs !! k = Some (Some d) ∧ r = mkRid pid (i + Z.of_nat k).
Proof.
  revert i. induction recs as [|o recs IH]; intros i; simpl.
  - rewrite elem_of_nil. naive_solver.
  - rewrite elem_of_app, IH. split.
    + intros [Hr|(k & d & Hk & ->)].
      * destruct o as [d|]; [|by apply elem_of_nil in Hr].
        apply list_elem_of_singleton in Hr as ->. exists O, d. split; [done|]. f_equal. lia.
      * exists (S k), d. split; [done|]. f_equal. lia.
    + intros ([|k] & d & Hk & ->); simpl in Hk.
      * left. injection Hk as ->. apply list_elem_of_singleton. f_equal. lia.
      * right. exists k, d. split; [done|]. f_equal. lia.
Qed.

Lemma live_nodup (Hr : records) : NoDup (map fst Hr) → NoDup (live Hr).
Proof.
  unfold live. induction Hr as [|[p recs] Hr IH]; intros Hnd; [constructor|]. apply NoDup_cons in Hnd as [Hn Hnd]. cbn [fst] in Hn.
  change (NoDup (live_slots p 0 recs ++ mjoin (map (λ e, live_slots e.1 0 e.2) Hr))). apply NoDup_app. split; [|split; [|by apply IH]].
  - clear. generalize 0. induction recs as [|o recs IH]; intros i; [constructor|]. cbn [live_slots]. apply NoDup_app.
    split; [destruct o; [apply NoDup_singleton|constructor]|]. split; [|apply IH]. intros x Hx (k & d & _ & ->)%live_slots_in.
    destruct o; [|by apply elem_of_nil in Hx]. apply list_elem_of_singleton in Hx. injection Hx. lia.
  - intros x (k & d & _ & ->)%live_slots_in (l & Hx & ([p' recs'] & -> & Hin)%list_elem_of_fmap)%list_elem_of_join.
    apply live_slots_in in Hx as (k' & d' & _ & [= -> _]). apply Hn, list_elem_of_fmap. by exists (p', recs').
Qed.
Lemma live_in (Hr : records) rid :
  NoDup (map fst Hr) →
  rid ∈ live Hr ↔ 0 <= rid.(slot_id) ∧ ∃ d, rec_at rid.(page_id) rid.(slot_id) Hr = Some (Some d).
Proof.
  intros Hnd. unfold live. rewrite list_elem_of_join. destruct rid as [p sl]. cbn [page_id slot_id]. split.
  - intros (l & Hin & Hl). apply list_elem_of_fmap in Hl as ([p' recs] & -> & Hr').
    apply live_slots_in in Hin as (k & d & Hk & [= -> ->]). cbn [fst snd] in *. split; [lia|].
    rewrite (rec_at_in _ _ _ recs) by done. exists d. rewrite znth_lookup by lia.
    by rewrite Z.add_0_l, Nat2Z.id.
  - intros (Hsl & d & Hat).
    destruct (decide (p ∈ map fst Hr)) as [Hp|Hp]; [|by rewrite rec_at_notin in Hat].
    destruct (page_of_keys _ _ Hp) as [recs Hr']. exists (live_slots p 0 recs). split.
    + apply live_slots_in. rewrite (rec_at_in _ _ _ recs) in Hat by done. rewrite znth_lookup in Hat by done.
      exists (Z.to_nat sl), d. split; [done|]. f_equal. lia.
    + apply list_elem_of_fmap. by exists (p, recs).
Qed.

(** an insert of a record that fits in a page returns a rid that held
    nothing before, now holds exactly the record, and no other rid changes;
    pages outside of the heap keep their bytes. *)
Theorem heap_insert n k h m Hr fuel d :
  heap_holds h m Hr → rooms (S n) h.(hp_pager) → ready (3 + k) h.(hp_world) → zlen d <= MAX_RECORD → (length Hr <= fuel)%nat →
  ∃ rid h' m' Hr', insert on_page_write fuel d h = (Ok rid, h') ∧ heap_holds h' m' Hr' ∧
    rooms n h'.(hp_pager) ∧ ready k h'.(hp_world) ∧
    rec_at rid.(page_id) rid.(slot_id) Hr = None ∧
    rec_at rid.(page_id) rid.(slot_id) Hr' = Some (Some d) ∧
    (∀ rid', rid' ≠ rid → rec_at rid'.(page_id) rid'.(slot_id) Hr' = rec_at rid'.(page_id) rid'.(slot_id) Hr) ∧
    (∀ x, x ∉ map fst Hr' → m' !! x = m !! x).
Proof.
  intros Hh Hroom Hk Hsz Hf.
  destruct (insert_ok n k h m Hr fuel d Hh Hroom Hk Hsz Hf) as (rid & h' & _ & m' & Hr' & _ & ? & ? & _ & ? & ? & _ & _ & _ & _ & ? & ? & ? & ?).
  by exists rid, h', m', Hr'.
Qed.

(** [read] returns the record of the rid, and [None] for a deleted, a
    never used and an empty one; it changes nothing. *)
Theorem heap_read h m Hr rid :
  heap_holds h m Hr → rid.(page_id) ∈ map fst Hr → 0 <= rid.(slot_id) →
  read rid h = (Ok (found (rec_at rid.(page_id) rid.(slot_id) Hr)), h).
Proof. apply read_rid_ok. Qed.

(** [delete] empties the slot of its rid, or does nothing when there is no
    such slot, and no other rid changes. *)
Theorem heap_delete n k h m Hr rid :
  heap_holds h m Hr → rooms n h.(hp_pager) → ready (S k) h.(hp_world) → rid.(page_id) ∈ map fst Hr → 0 <= rid.(slot_id) →
  ∃ h' m' Hr', delete on_page_write rid h = (Ok (), h') ∧ heap_holds h' m' Hr' ∧
    rooms n h'.(hp_pager) ∧ ready k h'.(hp_world) ∧
    (∀ rid', rec_at rid'.(page_id) rid'.(slot_id) Hr' =
       if decide (rid' = rid) then (λ _, None) <$> rec_at rid.(page_id) rid.(slot_id) Hr
       else rec_at rid'.(page_id) rid'.(slot_id) Hr).
Proof.
  intros Hh Hn Hk Hin Hsl. destruct (delete_ok n k h m Hr rid Hh Hn Hk Hin Hsl) as (h' & m' & Hr' & _ & ? & ? & _ & ? & ? & _ & _ & ?).
  by exists h', m', Hr'.
Qed.


(** the images handed to the callback by an insert and by a delete undo
    it: writing the before images back, the last first, restores every page
    there was; and writing the after images gives the new pages. *)
Theorem heap_images_undo h m Hr fuel d rid :
  heap_holds h m Hr → rooms 1 h.(hp_pager) → ready 3 h.(hp_world) → zlen d <= MAX_RECORD → (length Hr <= fuel)%nat →
  rid.(page_id) ∈ map fst Hr → 0 <= rid.(slot_id) →
  (∃ rid' h' m' ls m0, insert on_page_write fuel d h = (Ok rid', h') ∧ stores h'.(hp_pager) m' ∧
     cb_all ls h.(hp_world) = (Ok (), h'.(hp_world)) ∧ (∀ x, is_Some (m !! x) → m0 !! x = m !! x) ∧
     redo m0 ls = m' ∧ undo m' ls = m0) ∧
  (∃ h' m' ls, delete on_page_write rid h = (Ok (), h') ∧ stores h'.(hp_pager) m' ∧
     cb_all ls h.(hp_world) = (Ok (), h'.(hp_world)) ∧ redo m ls = m' ∧ undo m' ls = m).
Proof.
  intros Hh Hroom Hk Hsz Hf Hin Hsl. split.
  - destruct (insert_ok O O h m Hr fuel d Hh Hroom Hk Hsz Hf)
      as (rid' & h' & m0 & m' & Hr' & ls & Hx & _ & (Hs & Hc & -> & Hw & _) & _ & _ & _ & _ & _ & Hm0 & _).
    exists rid', h', (redo m0 ls), ls, m0. split; [done|]. split; [done|]. split; [done|].
    split; [|split; [done|by apply undo_redo]].
    intros x [v Hv]. destruct Hm0 as [->|(new & Hn & ->)]; [done|].
    rewrite lookup_insert_ne; [done|]. congruence.
  - destruct (delete_ok 1 2 h m Hr rid Hh Hroom Hk Hin Hsl) as (h' & m' & Hr' & ls & Hx & _ & (Hs & Hc & -> & Hw & _) & _).
    exists h', (redo m ls), ls. split; [done|]. split; [done|]. split; [done|]. split; [done|by apply undo_redo].
Qed.
End HeapSpec.

(** * Concrete runs, on a heap created in a fresh database *)

(** A callback that keeps the images *)
Definition record_image (pid : Z) (before after : bytes) : M (list image) unit :=
  modify (λ w, w ++ [(pid, before, after)]).
Definition always (n : nat) (w : list image) : Prop := True.
Lemma record_ready n pid before after (w : list image) :
  always (S n) w → 0 <= pid < NO_NEXT → zlen before = PAGE_SIZE → zlen after = PAGE_SIZE →
  ∃ w', cb_image (Some record_image) (pid, before, after) w = (Ok (), w') ∧ always n w'.
Proof. intros. by eexists. Qed.
Lemma always_less n w : always (S n) w → always n w.
Proof. done. Qed.

Lemma fresh_room : pager_rooms 3 fresh_pager.
Proof. vm_compute. reflexivity. Qed.

Definition demo_heap : Heap Pager (list image) :=
  match new_heap 1 (fresh_pager, []) with
  | (Ok h, _) => h
  | (Err _, _) => mkHeap fresh_pager [] 1 0 []
  end.
Lemma demo_heap_room : pager_rooms 1 demo_heap.(hp_pager).
Proof. vm_compute. reflexivity. Qed.
Lemma demo_heap_holds :
  demo_heap.(hp_head_pid) = 4 ∧ ∃ m, heap_holds (stores := pager_stores) demo_heap m [(4, [])].
Proof.
  destruct (new_heap_run (rooms := pager_rooms) fresh_pager ([] : list image) demo_pages 2 1 demo_stores fresh_room)
    as (h & pg & Hx & Hnone & Hpos & Hst & Hr & Hpg).
  assert (demo_heap = h) as -> by (unfold demo_heap; by rewrite Hx).
  assert (hp_head_pid h = 4) as Hpid.
  { pose proof (f_equal (λ x, match x.1 with Ok h => hp_head_pid h | Err _ => 0 end) Hx) as He.
    cbn [fst] in He. rewrite <-He. vm_compute. reflexivity. }
  split; [done|]. exists (<[h.(hp_head_pid) := pg]> demo_pages). rewrite <-Hpid.
  split; [exact Hst|]. split; [|split; [apply NoDup_singleton|done]]. split; [done|]. split; [lia|].
  exists pg, NO_NEXT, DATA_START. exact (conj (lookup_insert_eq _ _ _) (conj Hpg eq_refl)).
Qed.

Definition demo_rec : bytes := [x01; x02; x03].

Lemma heap_insert_witness :
  ∃ rid h', insert (Some record_image) 1 demo_rec demo_heap = (Ok rid, h').
Proof.
  destruct demo_heap_holds as [_ [m Hh]].
  destruct (heap_insert (Some record_image) always record_ready always_less 0 0 demo_heap m [(4, [])] 1 demo_rec Hh demo_heap_room I)
    as (rid & h' & m' & Hr' & Hx & _); [vm_compute; discriminate|apply le_n|].
  exists rid, h'. exact Hx.
Defined.

Lemma heap_read_witness : read (mkRid 4 0) demo_heap = (Ok None, demo_heap).
Proof.
  destruct demo_heap_holds as [_ [m Hh]].
  refine (heap_read demo_heap m [(4, [])] (mkRid 4 0) Hh _ _); [by left|simpl; lia].
Defined.

Lemma heap_delete_witness : ∃ h', delete (Some record_image) (mkRid 4 0) demo_heap = (Ok (), h').
Proof.
  destruct demo_heap_holds as [_ [m Hh]].
  destruct (heap_delete (Some record_image) always record_ready always_less 1 0 demo_heap m [(4, [])] (mkRid 4 0) Hh demo_heap_room I)
    as (h' & m' & Hr' & Hx & _); [by left|simpl; lia|]. exists h'. exact Hx.
Defined.


Lemma heap_images_undo_witness :
  ∃ h' ls m m', delete (Some record_image) (mkRid 4 0) demo_heap = (Ok (), h') ∧ undo m' ls = m.
Proof.
  destruct demo_heap_holds as [_ [m Hh]].
  destruct (heap_images_undo (Some record_image) always record_ready always_less demo_heap m [(4, [])] 1 demo_rec (mkRid 4 0)
              Hh demo_heap_room I) as [_ (h' & m' & ls & Hx & _ & _ & _ & Hu)];
    [vm_compute; discriminate|apply le_n|by left|simpl; lia|].
  exists h', ls, m, m'. split; [exact Hx|exact Hu].
Defined.

(** Insert two records, delete the first, scan and read *)
Example demo_heap_run :
  (insert (Some record_image) 1 demo_rec demo_heap).1 = Ok (mkRid 4 0) ∧
  (let h := (insert (Some record_image) 1 demo_rec demo_heap).2 in
   let h := (insert (Some record_image) 1 [x09] h).2 in
   let h := (delete (Some record_image) (mkRid 4 0) h).2 in
   (scan 1 h).1 = Ok [mkRid 4 1] ∧ (read (mkRid 4 1) h).1 = Ok (Some [x09]) ∧
   (read (mkRid 4 0) h).1 = Ok None).
Proof. vm_compute. split_and!; reflexivity. Qed.

(** A record longer than [MAX_RECORD] but shorter than a page is written to a
    fresh page without room for its slot: the insert fails with the page
    already overwritten, and from then on every insert that reaches that page
    fails. *)
Example oversized_record_breaks_heap :
  let '(r0, h0) := insert (Some record_image) 1 (zreplicate 4000 xcd) demo_heap in
  let '(r1, h1) := insert (Some record_image) 2 (zreplicate 4080 xab) h0 in
  let '(r2, _) := insert (Some record_image) 3 (zreplicate 100 xef) h1 in
  (r0, r1, r2) = (Ok (mkRid 4 0), Err ValueError, Err ValueError).
Proof. vm_compute. reflexivity. Qed.

(** An empty record is a live rid of the scan, and reads back as [None]. *)
Example empty_record_reads_none :
  let h := (insert (Some record_image) 1 [] demo_heap).2 in
  (scan 1 h).1 = Ok [mkRid 4 0] ∧ (read (mkRid 4 0) h).1 = Ok None.
Proof. vm_compute. split; reflexivity. Qed.
