(* ===== verification/Wal.v ===== *)
(** Component [tx/wal.py]: the append-only log of frames

    [lsn u64 BE | type u8 | payload_len u32 BE | payload | crc32 u32 LE].

    The log file is the list of its bytes ([append] ends with [flush]); the
    optional cross-process lock around the write is not modelled. *)
From S2P Require Import Prelude.
From S2P Require Import Bytes.
From Stdlib Require Import ZArith.
Local Open Scope Z_scope.

(** * CRC-32 ([zlib.crc32]), one bit at a time *)

Definition CRC_POLY : Z := 0xEDB88320.
Definition crc_shift (c : Z) : Z :=
  if Z.odd c then Z.lxor (Z.shiftr c 1) CRC_POLY else Z.shiftr c 1.
Definition crc_byte (c : Z) (b : byte) : Z :=
  Nat.iter 8 crc_shift (Z.lxor c (Z_of_byte b)).
Definition _crc32 (blob : bytes) : Z :=
  Z.lxor (fold_left crc_byte blob 0xFFFFFFFF) 0xFFFFFFFF.

Example crc32_check : _crc32 [x31; x32; x33; x34; x35; x36; x37; x38; x39] = 0xCBF43926.
Proof. vm_compute. reflexivity. Qed.

(** * Frames *)

Definition _HEADER_SIZE : Z := 13.
Definition _CRC_SIZE : Z := 4.
Definition RT_BEGIN : Z := 1.
Definition RT_COMMIT : Z := 2.
Definition RT_ROLLBACK : Z := 3.
Definition RT_PAGE : Z := 4.
Definition RT_CKPT : Z := 5.

Record WALRecord := mkRecord { wr_lsn : Z; wr_type : Z; wr_payload : bytes }.

Record WAL := mkWAL { wal_file : bytes; wal_next_lsn : Z; wal_closed : bool }.

(** [struct.pack(">QBI", lsn, type, len(payload)) + payload] *)
Definition frame_body (lsn type : Z) (payload : bytes) : result bytes :=
  a ← pack_ube 8 lsn; b ← pack_ube 1 type; c ← pack_ube 4 (zlen payload);
  Ok (a ++ b ++ c ++ payload).

Definition append (type : Z) (payload : bytes) : M WAL Z :=
  w ← get;
  let lsn := w.(wal_next_lsn) in
  body ← lift (frame_body lsn type payload);
  crc ← lift (pack_ule 4 (_crc32 body));
  assert (negb w.(wal_closed)) ValueError;;
  put (mkWAL (w.(wal_file) ++ body ++ crc) (lsn + 1) w.(wal_closed));;
  mret lsn.

(** [struct.unpack(">QBI", header)] of the 13 bytes of a header *)
Definition unpack_header (header : bytes) : Z * Z * Z :=
  (be_val (slice header 0 8), be_val (slice header 8 9), be_val (slice header 9 13)).

(** The records from the current position on: those yielded, and the exception
    that ends the iteration, if any.  Every frame has at least 17 bytes, so
    the length of the file is fuel enough. *)
Fixpoint iter_frames (fuel : nat) (rest : bytes) (lsn : Z) : list WALRecord * option exn :=
  match fuel with
  | O => ([], Some OutOfFuel)
  | S fuel =>
      let header := ztake _HEADER_SIZE rest in
      if zlen header <? _HEADER_SIZE then ([], None) else
      let '(frame_lsn, frame_type, payload_len) := unpack_header header in
      let rest := zdrop _HEADER_SIZE rest in
      let payload := ztake payload_len rest in
      let rest := zdrop payload_len rest in
      let crc_bytes := ztake _CRC_SIZE rest in
      let rest := zdrop _CRC_SIZE rest in
      if (zlen payload <? payload_len) || (zlen crc_bytes <? _CRC_SIZE) then ([], None) else
      let expected := _crc32 (header ++ payload) in
      let stored := le_val crc_bytes in
      if negb (expected =? stored) then ([], Some WALCorruptionError) else
      let '(rs, e) := iter_frames fuel rest lsn in
      (if lsn <=? frame_lsn then mkRecord frame_lsn frame_type payload :: rs else rs, e)
  end.

Definition iter_from (lsn : Z) (w : WAL) : list WALRecord * option exn :=
  if w.(wal_closed) then ([], Some ValueError)
  else iter_frames (S (length w.(wal_file))) w.(wal_file) (if lsn <? 1 then 1 else lsn).

Fixpoint recover_frames (fuel : nat) (rest : bytes) (next_lsn : Z) : Z :=
  match fuel with
  | O => next_lsn
  | S fuel =>
      let header := ztake _HEADER_SIZE rest in
      if zlen header <? _HEADER_SIZE then next_lsn else
      let '(frame_lsn, _, payload_len) := unpack_header header in
      let rest := zdrop _HEADER_SIZE rest in
      let tail := ztake (payload_len + _CRC_SIZE) rest in
      let rest := zdrop (payload_len + _CRC_SIZE) rest in
      if zlen tail <? payload_len + _CRC_SIZE then next_lsn else
      let stored := le_val (zdrop payload_len tail) in
      let expected := _crc32 (header ++ ztake payload_len tail) in
      if negb (frame_lsn =? next_lsn) || negb (expected =? stored) then next_lsn
      else recover_frames fuel rest (next_lsn + 1)
  end.

Definition _recover_lsn (f : bytes) : Z := recover_frames (S (length f)) f 1.

(** [WAL(path)] on an existing file, and [WAL(path, mode="w+b")] *)
Definition open_wal (f : bytes) : WAL := mkWAL f (_recover_lsn f) false.
Definition create_wal : WAL := mkWAL [] 1 false.

Definition wal_close : M WAL unit :=
  modify (λ w, mkWAL w.(wal_file) w.(wal_next_lsn) true).
Definition fsync : M WAL unit := w ← get; assert (negb w.(wal_closed)) ValueError.
Definition wal_size (w : WAL) : result Z :=
  if w.(wal_closed) then Err ValueError else Ok (zlen w.(wal_file)).

(** The walk of [truncate_to]: the offset to cut at *)
Fixpoint truncate_at (fuel : nat) (rest : bytes) (offset lsn : Z) : option Z :=
  match fuel with
  | O => None
  | S fuel =>
      let header := ztake _HEADER_SIZE rest in
      if zlen header <? _HEADER_SIZE then None else
      let '(frame_lsn, _, payload_len) := unpack_header header in
      if lsn <=? frame_lsn then Some offset
      else truncate_at fuel (zdrop (payload_len + _CRC_SIZE) (zdrop _HEADER_SIZE rest))
             (offset + (_HEADER_SIZE + _CRC_SIZE + payload_len)) lsn
  end.

Definition truncate_to (lsn : Z) : M WAL unit :=
  w ← get;
  assert ((1 <=? lsn) && (lsn <=? w.(wal_next_lsn))) ValueError;;
  assert (negb w.(wal_closed)) ValueError;;
  match truncate_at (S (length w.(wal_file))) w.(wal_file) 0 lsn with
  | Some offset => put (mkWAL (ztake offset w.(wal_file)) lsn w.(wal_closed))
  | None => mret ()
  end.

(** * The CRC fits in 32 bits, and detects any change of one byte *)

Lemma Zlt_pow2_bits n z : 0 <= n → 0 <= z → (0 <= z < 2 ^ n ↔ ∀ i, n <= i → Z.testbit z i = false).
Proof.
  intros Hn Hz. split.
  - intros [_ Hlt] i Hi. destruct (Z.eq_dec z 0) as [->|]; [apply Z.testbit_0_l|].
    apply Z.bits_above_log2; [done|]. apply Z.log2_lt_pow2 in Hlt; lia.
  - intros Hb. split; [done|]. destruct (Z.eq_dec z 0) as [->|]; [by apply Z.pow_pos_nonneg|].
    apply Z.log2_lt_pow2; [lia|]. destruct (Z.lt_ge_cases (Z.log2 z) n) as [|Hge]; [done|].
    specialize (Hb (Z.log2 z) Hge). rewrite Z.bit_log2 in Hb by lia. done.
Qed.

Lemma lxor_range n a b : 0 <= n → 0 <= a < 2 ^ n → 0 <= b < 2 ^ n → 0 <= Z.lxor a b < 2 ^ n.
Proof.
  intros Hn Ha Hb. assert (0 <= Z.lxor a b) as H0 by (apply Z.lxor_nonneg; lia).
  apply Zlt_pow2_bits; [done|done|]. intros i Hi. rewrite Z.lxor_spec.
  apply Zlt_pow2_bits with (i := i) in Ha; [|done|lia|done].
  apply Zlt_pow2_bits with (i := i) in Hb; [|done|lia|done]. by rewrite Ha, Hb.
Qed.

Lemma lxor_inj_r a b c : Z.lxor a c = Z.lxor b c → a = b.
Proof.
  intros H. rewrite <-(Z.lxor_0_r a), <-(Z.lxor_0_r b), <-(Z.lxor_nilpotent c).
  by rewrite <-!Z.lxor_assoc, H.
Qed.
Lemma lxor_inj_l a b c : Z.lxor c a = Z.lxor c b → a = b.
Proof. rewrite !(Z.lxor_comm c). apply lxor_inj_r. Qed.

Lemma shiftr1 c : Z.shiftr c 1 = c / 2.
Proof. by rewrite Z.shiftr_div_pow2. Qed.

Lemma crc_shift_range c : 0 <= c < 2 ^ 32 → 0 <= crc_shift c < 2 ^ 32.
Proof.
  intros Hc. assert (0 <= Z.shiftr c 1 < 2 ^ 32) as Hs.
  { rewrite shiftr1. split; [apply Z.div_pos; lia|]. apply Z.div_lt_upper_bound; lia. }
  unfold crc_shift. destruct (Z.odd c); [|done]. apply lxor_range; unfold CRC_POLY; lia.
Qed.

(** The top bit of the result tells which branch was taken. *)
Lemma crc_shift_top c : 0 <= c < 2 ^ 32 → Z.testbit (crc_shift c) 31 = Z.odd c.
Proof.
  intros Hc. assert (Z.testbit (Z.shiftr c 1) 31 = false) as Hs.
  { rewrite Z.shiftr_spec by lia. apply (proj1 (Zlt_pow2_bits 32 c ltac:(lia) ltac:(lia))); lia. }
  unfold crc_shift. destruct (Z.odd c); [|done]. by rewrite Z.lxor_spec, Hs.
Qed.

Lemma crc_shift_inj c c' :
  0 <= c < 2 ^ 32 → 0 <= c' < 2 ^ 32 → crc_shift c = crc_shift c' → c = c'.
Proof.
  intros Hc Hc' He. assert (Z.odd c = Z.odd c') as Ho.
  { by rewrite <-(crc_shift_top c), <-(crc_shift_top c'), He. }
  assert (Z.shiftr c 1 = Z.shiftr c' 1) as Hs.
  { unfold crc_shift in He. rewrite Ho in He. destruct (Z.odd c'); [by eapply lxor_inj_r|done]. }
  rewrite !shiftr1 in Hs. rewrite (Z.div2_odd c), (Z.div2_odd c'), !Z.div2_div, Hs, Ho. done.
Qed.

Lemma crc_iter_range n c : 0 <= c < 2 ^ 32 → 0 <= Nat.iter n crc_shift c < 2 ^ 32.
Proof. intros Hc. induction n as [|n IH]; simpl; [done|]. by apply crc_shift_range. Qed.
Lemma crc_iter_inj n c c' :
  0 <= c < 2 ^ 32 → 0 <= c' < 2 ^ 32 → Nat.iter n crc_shift c = Nat.iter n crc_shift c' → c = c'.
Proof.
  intros Hc Hc'. induction n as [|n IH]; simpl; [done|]. intros He.
  apply IH. apply crc_shift_inj; auto using crc_iter_range.
Qed.

Lemma byte_32 b : 0 <= Z_of_byte b < 2 ^ 32.
Proof. pose proof (Z_of_byte_bound b). lia. Qed.

Lemma crc_byte_range c b : 0 <= c < 2 ^ 32 → 0 <= crc_byte c b < 2 ^ 32.
Proof.
  intros Hc. assert (0 <= Z.lxor c (Z_of_byte b) < 2 ^ 32) as Hx
    by (apply lxor_range; [lia|done|apply byte_32]).
  by apply (crc_iter_range 8).
Qed.
Lemma crc_byte_inj c c' b b' :
  0 <= c < 2 ^ 32 → 0 <= c' < 2 ^ 32 → crc_byte c b = crc_byte c' b' →
  Z.lxor c (Z_of_byte b) = Z.lxor c' (Z_of_byte b').
Proof.
  intros Hc Hc'. apply crc_iter_inj; apply lxor_range; try lia; apply byte_32.
Qed.

Lemma crc_fold_range bs c : 0 <= c < 2 ^ 32 → 0 <= fold_left crc_byte bs c < 2 ^ 32.
Proof.
  revert c. induction bs as [|b bs IH]; intros c Hc; simpl; [done|]. by apply IH, crc_byte_range.
Qed.
Lemma crc_fold_inj bs c c' :
  0 <= c < 2 ^ 32 → 0 <= c' < 2 ^ 32 → fold_left crc_byte bs c = fold_left crc_byte bs c' → c = c'.
Proof.
  revert c c'. induction bs as [|b bs IH]; intros c c' Hc Hc'; simpl; [done|].
  intros He. apply IH in He; [|by apply crc_byte_range..].
  apply crc_byte_inj in He; [|done|done]. by apply lxor_inj_r in He.
Qed.

Lemma crc32_range bs : 0 <= _crc32 bs < 2 ^ (8 * Z.of_nat 4).
Proof. unfold _crc32. apply (lxor_range 32); [lia|apply crc_fold_range; lia|lia]. Qed.

Lemma crc32_one_byte pre b b' post :
  b ≠ b' → _crc32 (pre ++ b :: post) ≠ _crc32 (pre ++ b' :: post).
Proof.
  intros Hb He. unfold _crc32 in He. apply lxor_inj_r in He.
  rewrite !fold_left_app in He. simpl in He.
  assert (0 <= fold_left crc_byte pre 4294967295 < 2 ^ 32) as Hp by (apply crc_fold_range; lia).
  apply crc_fold_inj in He; [|by apply crc_byte_range..].
  apply crc_byte_inj in He; [|done|done]. apply lxor_inj_l in He. by apply Z_of_byte_inj in He.
Qed.

(** * The log as a list of frames *)

Abbreviation entry := (Z * bytes)%type.

Definition header_of (lsn type len : Z) : bytes := be_bytes 8 lsn ++ be_bytes 1 type ++ be_bytes 4 len.
Definition body_of (lsn : Z) (e : entry) : bytes := header_of lsn e.1 (zlen e.2) ++ e.2.
Definition frame_of (lsn : Z) (e : entry) : bytes :=
  body_of lsn e ++ le_bytes 4 (_crc32 (body_of lsn e)).
Fixpoint frames_of (lsn : Z) (es : list entry) : bytes :=
  match es with [] => [] | e :: es => frame_of lsn e ++ frames_of (lsn + 1) es end.
Fixpoint records_of (lsn : Z) (es : list entry) : list WALRecord :=
  match es with [] => [] | e :: es => mkRecord lsn e.1 e.2 :: records_of (lsn + 1) es end.

Definition lsn_ok (lsn : Z) : Prop := 0 <= lsn < 2 ^ 64.
Definition entry_ok (e : entry) : Prop := 0 <= e.1 < 256 ∧ zlen e.2 < 2 ^ 32.
Definition log_ok (lsn : Z) (es : list entry) : Prop :=
  0 <= lsn ∧ lsn + zlen es <= 2 ^ 64 ∧ Forall entry_ok es.

#[global] Arguments header_of : simpl never.
#[global] Arguments body_of : simpl never.
#[global] Arguments frame_of : simpl never.
#[global] Arguments unpack_header : simpl never.
#[global] Arguments _crc32 : simpl never.

Lemma zlen_header lsn t n : zlen (header_of lsn t n) = 13.
Proof. unfold header_of. autorewrite with py. reflexivity. Qed.
Lemma zlen_frame lsn e : zlen (frame_of lsn e) = 17 + zlen e.2.
Proof. unfold frame_of, body_of. rewrite !zlen_app, zlen_header, zlen_le_bytes. lia. Qed.

Lemma unpack_header_of lsn t n :
  lsn_ok lsn → 0 <= t < 256 → 0 <= n < 2 ^ 32 → unpack_header (header_of lsn t n) = (lsn, t, n).
Proof.
  unfold lsn_ok. intros Hl Ht Hn. unfold unpack_header, header_of.
  rewrite slice_prefix by (by rewrite zlen_be_bytes).
  rewrite (slice_middle (be_bytes 8 lsn)) by (by rewrite !zlen_be_bytes).
  rewrite app_assoc. rewrite slice_app_r by (rewrite zlen_app, !zlen_be_bytes; lia).
  rewrite slice_full by (rewrite zlen_app, !zlen_be_bytes; lia).
  by rewrite !be_val_be_bytes_small.
Qed.

(** Reading one whole frame *)
Lemma ztake_header lsn t n rest : ztake _HEADER_SIZE (header_of lsn t n ++ rest) = header_of lsn t n.
Proof. apply ztake_app. by rewrite zlen_header. Qed.
Lemma zdrop_header lsn t n rest : zdrop _HEADER_SIZE (header_of lsn t n ++ rest) = rest.
Proof. apply zdrop_app. by rewrite zlen_header. Qed.

Lemma frame_app lsn e rest :
  frame_of lsn e ++ rest =
  header_of lsn e.1 (zlen e.2) ++ e.2 ++ le_bytes 4 (_crc32 (body_of lsn e)) ++ rest.
Proof. unfold frame_of, body_of. by rewrite <-!app_assoc. Qed.

Lemma iter_frame fuel lsn e rest from :
  lsn_ok lsn → entry_ok e →
  iter_frames (S fuel) (frame_of lsn e ++ rest) from =
  let '(rs, x) := iter_frames fuel rest from in
  (if from <=? lsn then mkRecord lsn e.1 e.2 :: rs else rs, x).
Proof.
  intros Hl [Ht Hn]. rewrite frame_app. pose proof (zlen_nonneg e.2). cbn [iter_frames]. cbv zeta.
  rewrite ztake_header, zdrop_header, zlen_header. change (13 <? _HEADER_SIZE) with false. cbv iota.
  rewrite unpack_header_of by (done || lia).
  rewrite ztake_app, zdrop_app by done.
  rewrite ztake_app, zdrop_app by (by rewrite zlen_le_bytes).
  rewrite zlen_le_bytes. change (Z.of_nat 4 <? _CRC_SIZE) with false. rewrite Z.ltb_irrefl. simpl orb. cbv iota.
  rewrite le_val_le_bytes_small by apply crc32_range. fold (body_of lsn e). by rewrite Z.eqb_refl.
Qed.

Lemma recover_frame fuel lsn e rest :
  lsn_ok lsn → entry_ok e →
  recover_frames (S fuel) (frame_of lsn e ++ rest) lsn = recover_frames fuel rest (lsn + 1).
Proof.
  intros Hl [Ht Hn]. rewrite frame_app. pose proof (zlen_nonneg e.2). cbn [recover_frames]. cbv zeta.
  rewrite ztake_header, zdrop_header, zlen_header. change (13 <? _HEADER_SIZE) with false. cbv iota.
  rewrite unpack_header_of by (done || lia).
  set (c := le_bytes 4 _). assert (zlen c = 4) as Hc by apply zlen_le_bytes.
  rewrite (app_assoc e.2 c rest). rewrite (ztake_app (e.2 ++ c)), (zdrop_app (e.2 ++ c)) by (rewrite zlen_app, Hc; done).
  rewrite zlen_app, Hc. unfold _CRC_SIZE. rewrite Z.ltb_irrefl.
  rewrite (zdrop_app e.2 c), (ztake_app e.2 c) by done. subst c.
  rewrite le_val_le_bytes_small by apply crc32_range. fold (body_of lsn e). by rewrite !Z.eqb_refl.
Qed.

Lemma truncate_frame fuel lsn e rest off cut :
  lsn_ok lsn → entry_ok e →
  truncate_at (S fuel) (frame_of lsn e ++ rest) off cut =
  if cut <=? lsn then Some off else truncate_at fuel rest (off + zlen (frame_of lsn e)) cut.
Proof.
  intros Hl [Ht Hn]. rewrite zlen_frame, frame_app. pose proof (zlen_nonneg e.2).
  cbn [truncate_at]. cbv zeta.
  rewrite ztake_header, zdrop_header, zlen_header. change (13 <? _HEADER_SIZE) with false. cbv iota.
  rewrite unpack_header_of by (done || lia). destruct (cut <=? lsn); [done|].
  rewrite app_assoc. rewrite zdrop_app by (rewrite zlen_app, zlen_le_bytes; done).
  f_equal.
Qed.

(** A strict prefix of a frame, at the end of the file *)
Definition torn (t : bytes) : Prop :=
  ∃ lsn e k, lsn_ok lsn ∧ entry_ok e ∧ 0 <= k < zlen (frame_of lsn e) ∧ t = ztake k (frame_of lsn e).

Lemma torn_nil : torn [].
Proof.
  exists 1, (0, []), 0. split_and!; try done; try (unfold entry_ok; simpl; lia).
Qed.

Lemma torn_header t :
  torn t → zlen (ztake _HEADER_SIZE t) < _HEADER_SIZE ∨
  ∃ lsn ty n, unpack_header (ztake _HEADER_SIZE t) = (lsn, ty, n) ∧ 0 <= n ∧
              _HEADER_SIZE <= zlen (ztake _HEADER_SIZE t) ∧
              zlen (zdrop _HEADER_SIZE t) < n + _CRC_SIZE.
Proof.
  intros (lsn & e & k & Hl & [Ht Hn] & Hk & ->). rewrite zlen_frame in Hk. pose proof (zlen_nonneg e.2).
  assert (zlen (ztake k (frame_of lsn e)) = k) as Hz by (rewrite zlen_ztake, zlen_frame; lia).
  unfold _HEADER_SIZE, _CRC_SIZE. destruct (decide (k < 13)).
  - left. rewrite zlen_ztake by lia. lia.
  - right. exists lsn, e.1, (zlen e.2). split_and!; [|done| |].
    + unfold frame_of, body_of. rewrite <-app_assoc.
      rewrite ztake_app_ge by (rewrite zlen_header; lia).
      rewrite ztake_app by (by rewrite zlen_header). apply unpack_header_of; [done|done|lia].
    + rewrite zlen_ztake by lia. lia.
    + rewrite zlen_zdrop by lia. lia.
Qed.

Lemma iter_torn fuel t from : torn t → iter_frames (S fuel) t from = ([], None).
Proof.
  intros Ht. cbn [iter_frames]. cbv zeta. destruct (torn_header t Ht) as [Hs|(lsn & ty & n & Hu & Hn & Hs & Hz)].
  - by rewrite (proj2 (Z.ltb_lt _ _)) by done.
  - rewrite (proj2 (Z.ltb_ge _ _)) by done. rewrite Hu.
    assert ((zlen (ztake n (zdrop _HEADER_SIZE t)) <? n)
      || (zlen (ztake _CRC_SIZE (zdrop n (zdrop _HEADER_SIZE t))) <? _CRC_SIZE) = true) as ->; [|done].
    revert Hz. generalize (zdrop _HEADER_SIZE t). intros z Hz.
    apply orb_true_iff. rewrite !Z.ltb_lt, !zlen_ztake, zlen_zdrop by (unfold _CRC_SIZE; lia).
    unfold _CRC_SIZE in *. lia.
Qed.

Lemma recover_torn fuel t lsn : torn t → recover_frames fuel t lsn = lsn.
Proof.
  intros Ht. destruct fuel; [done|]. cbn [recover_frames]. cbv zeta.
  destruct (torn_header t Ht) as [Hs|(l & ty & n & Hu & Hn & Hs & Hz)].
  - by rewrite (proj2 (Z.ltb_lt _ _)) by done.
  - rewrite (proj2 (Z.ltb_ge _ _)) by done. rewrite Hu.
    rewrite (proj2 (Z.ltb_lt _ _)); [done|].
    rewrite zlen_ztake by (unfold _CRC_SIZE; lia). lia.
Qed.

(** * The whole log *)

#[local] Opaque frame_of.

Lemma frames_length lsn es : (length es <= length (frames_of lsn es))%nat.
Proof.
  revert lsn. induction es as [|e es IH]; intros lsn; simpl; [lia|]. rewrite length_app.
  specialize (IH (lsn + 1)). pose proof (zlen_frame lsn e) as Hz. unfold zlen in Hz. lia.
Qed.
Lemma frames_app lsn es es' :
  frames_of lsn (es ++ es') = frames_of lsn es ++ frames_of (lsn + zlen es) es'.
Proof.
  revert lsn. induction es as [|e es IH]; intros lsn; simpl.
  - by rewrite zlen_nil, Z.add_0_r.
  - rewrite IH, zlen_cons, <-app_assoc. by rewrite <-Z.add_assoc.
Qed.
Lemma records_lsn lsn es r : r ∈ records_of lsn es → lsn <= r.(wr_lsn) < lsn + zlen es.
Proof.
  revert lsn. induction es as [|e es IH]; intros lsn; simpl; [by intros ?%elem_of_nil|].
  rewrite elem_of_cons, zlen_cons. pose proof (zlen_nonneg es).
  intros [->|Hr]; [simpl; lia|]. apply IH in Hr. lia.
Qed.
Lemma log_ok_cons lsn e es :
  log_ok lsn (e :: es) → lsn_ok lsn ∧ entry_ok e ∧ log_ok (lsn + 1) es.
Proof.
  unfold log_ok, lsn_ok. rewrite zlen_cons, Forall_cons. pose proof (zlen_nonneg es). intuition lia.
Qed.

(** The records an iteration from [from] yields *)
Definition from_lsn (from : Z) (rs : list WALRecord) : list WALRecord :=
  filter (λ r, from <= r.(wr_lsn)) rs.

Lemma iter_frames_ok es t lsn fuel from :
  log_ok lsn es → torn t → (length es < fuel)%nat →
  iter_frames fuel (frames_of lsn es ++ t) from = (from_lsn from (records_of lsn es), None).
Proof.
  revert lsn fuel. induction es as [|e es IH]; intros lsn fuel Hok Ht Hf.
  - destruct fuel; [lia|]. by apply iter_torn.
  - apply log_ok_cons in Hok as (Hl & He & Hok). destruct fuel as [|fuel]; [simpl in Hf; lia|].
    simpl frames_of. rewrite <-app_assoc, iter_frame by done.
    rewrite IH by (done || (simpl in Hf; lia)). simpl records_of. unfold from_lsn.
    destruct (Z.leb_spec from lsn).
    + by rewrite filter_cons_True by done.
    + rewrite filter_cons_False by (simpl; lia). done.
Qed.

Lemma recover_frames_ok es t lsn fuel :
  log_ok lsn es → torn t → (length es <= fuel)%nat →
  recover_frames fuel (frames_of lsn es ++ t) lsn = lsn + zlen es.
Proof.
  revert lsn fuel. induction es as [|e es IH]; intros lsn fuel Hok Ht Hf.
  - simpl. rewrite recover_torn by done. rewrite zlen_nil. lia.
  - apply log_ok_cons in Hok as (Hl & He & Hok). destruct fuel as [|fuel]; [simpl in Hf; lia|].
    simpl frames_of. rewrite <-app_assoc, recover_frame by done.
    rewrite IH by (done || (simpl in Hf; lia)). rewrite zlen_cons. lia.
Qed.

Lemma truncate_frames_ok es t lsn fuel off cut :
  log_ok lsn es → torn t → (length es <= fuel)%nat → lsn <= cut →
  truncate_at fuel (frames_of lsn es ++ t) off cut =
  if cut <? lsn + zlen es then Some (off + zlen (frames_of lsn (ztake (cut - lsn) es))) else
  truncate_at (fuel - length es) t (off + zlen (frames_of lsn es)) cut.
Proof.
  revert lsn fuel off. induction es as [|e es IH]; intros lsn fuel off Hok Ht Hf Hcut.
  - simpl. rewrite !zlen_nil, !Z.add_0_r, Nat.sub_0_r.
    destruct (Z.ltb_spec cut lsn); [lia|done].
  - apply log_ok_cons in Hok as (Hl & He & Hok). destruct fuel as [|fuel]; [simpl in Hf; lia|].
    simpl frames_of. rewrite <-app_assoc, truncate_frame by done. rewrite zlen_cons.
    pose proof (zlen_nonneg es). destruct (Z.leb_spec cut lsn).
    + destruct (Z.ltb_spec cut (lsn + (1 + zlen es))); [|lia].
      replace (cut - lsn) with 0 by lia. rewrite ztake_0. simpl. rewrite zlen_nil. f_equal. lia.
    + rewrite IH by (done || lia || (simpl in Hf; lia)).
      replace (lsn + 1 + zlen es) with (lsn + (1 + zlen es)) by lia.
      destruct (Z.ltb_spec cut (lsn + (1 + zlen es))).
      * assert (ztake (cut - lsn) (e :: es) = e :: ztake (cut - (lsn + 1)) es) as ->.
        { unfold ztake. replace (Z.to_nat (cut - lsn)) with (S (Z.to_nat (cut - (lsn + 1)))) by lia. done. }
        simpl. rewrite zlen_app. f_equal. lia.
      * simpl. rewrite zlen_app. f_equal. lia.
Qed.

(** The log [w] holds the entries [es], numbered from 1, and at its end a torn
    frame [t] (or nothing). *)
Record wal_holds (w : WAL) (es : list entry) (t : bytes) : Prop := {
  wh_file : w.(wal_file) = frames_of 1 es ++ t;
  wh_torn : torn t;
  wh_next : w.(wal_next_lsn) = 1 + zlen es;
  wh_open : w.(wal_closed) = false;
  wh_ok : log_ok 1 es;
}.

Lemma frame_body_ok lsn e : lsn_ok lsn → entry_ok e → frame_body lsn e.1 e.2 = Ok (body_of lsn e).
Proof.
  intros Hl [Ht Hn]. pose proof (zlen_nonneg e.2). unfold frame_body.
  rewrite !pack_ube_ok by (done || (change (2 ^ (8 * Z.of_nat 4)) with (2 ^ 32); lia)).
  rewrite !bind_Ok. unfold body_of, header_of. by rewrite <-!app_assoc.
Qed.

Lemma append_ok w es e :
  wal_holds w es [] → entry_ok e → 2 + zlen es <= 2 ^ 64 →
  ∃ w', append e.1 e.2 w = (Ok (1 + zlen es), w') ∧ wal_holds w' (es ++ [e]) [].
Proof.
  intros [Hf _ Hn Ho (Hz & Hz' & Hes)] He Hlim. pose proof (zlen_nonneg es). unfold append. mrun.
  rewrite Hn, frame_body_ok by (done || (unfold lsn_ok; lia)). mrun.
  rewrite pack_ule_ok by apply crc32_range. mrun. rewrite Ho. mrun.
  eexists. split; [reflexivity|]. constructor; simpl; try done.
  - rewrite Hf, !app_nil_r, frames_app. simpl. by rewrite app_nil_r.
  - apply torn_nil.
  - rewrite zlen_app, zlen_cons, zlen_nil. lia.
  - split_and!; [done|rewrite zlen_app, zlen_cons, zlen_nil; lia|].
    apply Forall_app. split; [done|by constructor].
Qed.

Lemma iter_from_ok w es t l :
  wal_holds w es t →
  iter_from l w = (from_lsn (Z.max 1 l) (records_of 1 es), None).
Proof.
  intros [Hf Ht Hn Ho Hok]. unfold iter_from. rewrite Ho, Hf.
  rewrite iter_frames_ok; [|done|done|].
  - do 2 f_equal. destruct (Z.ltb_spec l 1); lia.
  - pose proof (frames_length 1 es). rewrite length_app. lia.
Qed.

Lemma open_wal_ok es t :
  log_ok 1 es → torn t → wal_holds (open_wal (frames_of 1 es ++ t)) es t.
Proof.
  intros Hok Ht. constructor; try done. simpl. unfold _recover_lsn.
  apply recover_frames_ok; [done|done|].
  pose proof (frames_length 1 es). rewrite length_app. lia.
Qed.

(** an append to a log without a torn tail returns the next LSN, and the
    log then iterates, from any LSN on, over its entries in order with their
    LSNs 1, 2, 3, ..., the appended one last. *)
Theorem append_then_iterate w es e l :
  wal_holds w es [] → entry_ok e → 2 + zlen es <= 2 ^ 64 →
  ∃ w', append e.1 e.2 w = (Ok (1 + zlen es), w') ∧ wal_holds w' (es ++ [e]) [] ∧
    iter_from l w' = (from_lsn (Z.max 1 l) (records_of 1 (es ++ [e])), None).
Proof.
  intros Hw He Hlim. destruct (append_ok w es e Hw He Hlim) as (w' & Hx & Hw').
  exists w'. split; [done|]. split; [done|]. by apply iter_from_ok with [].
Qed.

(** C23: after a crash in the middle of an append, wherever the frame was cut,
    the log opens with the LSN of the torn frame as the next one, and iterates
    over every complete frame without an error. *)
Theorem crash_keeps_complete_frames es e k :
  log_ok 1 (es ++ [e]) → 0 <= k < zlen (frame_of (1 + zlen es) e) →
  let w := open_wal (frames_of 1 es ++ ztake k (frame_of (1 + zlen es) e)) in
  w.(wal_next_lsn) = 1 + zlen es ∧ iter_from 1 w = (records_of 1 es, None).
Proof.
  intros (_ & Hlim & Hes) Hk w. rewrite zlen_app, zlen_cons, zlen_nil in Hlim.
  apply Forall_app in Hes as [Hes He]. apply Forall_cons in He as [He _]. pose proof (zlen_nonneg es).
  assert (torn (ztake k (frame_of (1 + zlen es) e))) as Ht.
  { exists (1 + zlen es), e, k. split_and!; try done; unfold lsn_ok; lia. }
  assert (wal_holds w es (ztake k (frame_of (1 + zlen es) e))) as Hw
    by (apply open_wal_ok; [split_and!; [lia|lia|done]|done]).
  split; [by apply Hw|]. rewrite (iter_from_ok _ _ _ 1 Hw). f_equal.
  unfold from_lsn. change (Z.max 1 1) with 1. clear -es.
  assert (Forall (λ r, 1 <= r.(wr_lsn)) (records_of 1 es)) as Hall.
  { apply Forall_forall. intros r Hr. apply records_lsn in Hr. lia. }
  induction Hall as [|r rs Hr _ IH]; [done|]. by rewrite filter_cons_True, IH.
Qed.

(** [truncate_to] removes exactly the frames from its LSN on: the log
    then holds the entries before it, and an LSN out of range is an error that
    changes nothing. *)
Theorem truncate_to_spec w es t l :
  wal_holds w es t →
  if (1 <=? l) && (l <=? zlen es) then
    ∃ w', truncate_to l w = (Ok (), w') ∧ wal_holds w' (ztake (l - 1) es) []
  else (l < 1 ∨ 1 + zlen es < l → truncate_to l w = (Err ValueError, w)).
Proof.
  intros [Hf Ht Hn Ho Hok]. unfold truncate_to. mrun. rewrite Hn, Ho.
  destruct (Z.leb_spec 1 l), (Z.leb_spec l (zlen es)), (Z.leb_spec l (1 + zlen es)); simpl andb; cbv iota;
    try lia; mrun; try (intros; lia); try done.
  rewrite Hf. pose proof (frames_length 1 es). rewrite truncate_frames_ok; [|done|done|rewrite length_app; lia|lia].
  destruct (Z.ltb_spec l (1 + zlen es)); [|lia].
  eexists. split; [reflexivity|].
  assert (es = ztake (l - 1) es ++ zdrop (l - 1) es) as Hsplit by (by rewrite ztake_zdrop).
  assert (zlen (ztake (l - 1) es) = l - 1) as Hz by (rewrite zlen_ztake; lia).
  constructor; simpl; try done.
  - rewrite Z.add_0_l, app_nil_r. rewrite Hsplit at 2. rewrite frames_app, <-app_assoc.
    by apply ztake_app.
  - apply torn_nil.
  - rewrite Hz. lia.
  - destruct Hok as (? & ? & Hes). split_and!; [done|lia|]. by apply Forall_take.
Qed.

(** Iteration after a good prefix *)
Lemma iter_frames_app es rest lsn fuel from :
  log_ok lsn es → (length es <= fuel)%nat →
  iter_frames fuel (frames_of lsn es ++ rest) from =
  let '(rs, x) := iter_frames (fuel - length es) rest from in
  (from_lsn from (records_of lsn es) ++ rs, x).
Proof.
  revert lsn fuel. induction es as [|e es IH]; intros lsn fuel Hok Hf.
  - simpl. rewrite Nat.sub_0_r. by destruct (iter_frames _ _ _).
  - apply log_ok_cons in Hok as (Hl & He & Hok). destruct fuel as [|fuel]; [simpl in Hf; lia|].
    simpl frames_of. rewrite <-app_assoc, iter_frame by done.
    rewrite IH by (done || (simpl in Hf; lia)). simpl Nat.sub.
    destruct (iter_frames (fuel - length es) rest from) as [rs x]. simpl records_of. unfold from_lsn.
    destruct (Z.leb_spec from lsn).
    + by rewrite filter_cons_True by done.
    + rewrite filter_cons_False by (simpl; lia). done.
Qed.

(** a completed frame in which one byte of its payload was altered is
    never taken for a record: the iteration yields the records before it and
    raises [WALCorruptionError]. *)
Theorem altered_byte_is_detected es ty pre b b' post rest :
  log_ok 1 (es ++ [(ty, pre ++ b :: post)]) → b ≠ b' →
  let lsn := 1 + zlen es in
  let bad := header_of lsn ty (zlen (pre ++ b :: post)) ++ (pre ++ b' :: post) ++
             le_bytes 4 (_crc32 (body_of lsn (ty, pre ++ b :: post))) in
  iter_from 1 (mkWAL (frames_of 1 es ++ bad ++ rest) lsn false)
  = (from_lsn 1 (records_of 1 es), Some WALCorruptionError).
Proof.
  intros (_ & Hlim & Hes) Hb lsn bad. rewrite zlen_app, zlen_cons, zlen_nil in Hlim.
  apply Forall_app in Hes as [Hes He]. apply Forall_cons in He as [[Ht Hn] _]. simpl in Ht, Hn.
  pose proof (zlen_nonneg es). pose proof (frames_length 1 es) as Hfl.
  unfold iter_from. cbn [wal_closed wal_file]. change (1 <? 1) with false. cbv iota.
  set (fuel := S (length (frames_of 1 es ++ bad ++ rest))).
  assert (length es < fuel)%nat as Hfuel by (subst fuel; rewrite length_app; lia). clearbody fuel.
  assert (log_ok 1 es) as Hok1 by (split_and!; [lia|lia|done]).
  assert (length es <= fuel)%nat as Hle by lia.
  rewrite (iter_frames_app es _ 1 fuel 1 Hok1 Hle).
  destruct (fuel - length es)%nat as [|f] eqn:Ef; [lia|].
  assert (iter_frames (S f) (bad ++ rest) 1 = ([], Some WALCorruptionError)) as ->; [|by rewrite app_nil_r].
  subst bad. rewrite <-!(app_assoc (header_of _ _ _)). cbn [iter_frames]. cbv zeta.
  rewrite ztake_header, zdrop_header, zlen_header. change (13 <? _HEADER_SIZE) with false. cbv iota.
  pose proof (zlen_nonneg (pre ++ b :: post)).
  rewrite unpack_header_of; [|unfold lsn_ok; lia|done|change (2 ^ 32) with (2 ^ 32) in *; lia].
  rewrite <-app_assoc.
  assert (zlen (pre ++ b :: post) = zlen (pre ++ b' :: post)) as Hz by (by rewrite !zlen_app, !zlen_cons).
  rewrite ztake_app, zdrop_app by done. rewrite Hz, Z.ltb_irrefl.
  rewrite ztake_app by (by rewrite zlen_le_bytes). rewrite zlen_le_bytes.
  change (Z.of_nat 4 <? _CRC_SIZE) with false. simpl orb. cbv iota.
  rewrite le_val_le_bytes_small by apply crc32_range.
  destruct (Z.eqb_spec (_crc32 (header_of lsn ty (zlen (pre ++ b' :: post)) ++ pre ++ b' :: post))
    (_crc32 (body_of lsn (ty, pre ++ b :: post)))) as [Heq|]; [|done].
  exfalso. unfold body_of in Heq. cbn [fst snd] in Heq. rewrite Hz, !app_assoc in Heq.
  symmetry in Heq. revert Heq. by apply crc32_one_byte.
Qed.

(** * Concrete runs *)

Definition demo_entries : list entry := [(RT_BEGIN, [x01]); (RT_PAGE, [x02; x03]); (RT_COMMIT, [x01])].
Definition demo_entry : entry := (RT_CKPT, [x09]).
Lemma demo_log_ok : log_ok 1 (demo_entries ++ [demo_entry]).
Proof.
  split; [lia|]. split; [vm_compute; discriminate|].
  repeat (apply Forall_cons_2; [split; [split; vm_compute; congruence|vm_compute; reflexivity]|]).
  apply Forall_nil_2.
Qed.
Lemma demo_log_ok' : log_ok 1 demo_entries.
Proof.
  split; [lia|]. split; [vm_compute; discriminate|].
  repeat (apply Forall_cons_2; [split; [split; vm_compute; congruence|vm_compute; reflexivity]|]).
  apply Forall_nil_2.
Qed.
Lemma demo_wal_holds : wal_holds (open_wal (frames_of 1 demo_entries ++ [])) demo_entries [].
Proof. apply open_wal_ok; [exact demo_log_ok'|exact torn_nil]. Qed.

Lemma append_then_iterate_witness :
  ∃ w', append RT_CKPT [x09] (open_wal (frames_of 1 demo_entries ++ [])) = (Ok 4, w') ∧
    iter_from 3 w' = ([mkRecord 3 RT_COMMIT [x01]; mkRecord 4 RT_CKPT [x09]], None).
Proof.
  destruct (append_then_iterate _ _ demo_entry 3 demo_wal_holds) as (w' & Hx & _ & Hi);
    [split; vm_compute; [split; discriminate || reflexivity|reflexivity]|vm_compute; discriminate|].
  exists w'. split; [exact Hx|]. rewrite Hi. vm_compute. reflexivity.
Defined.

Lemma crash_keeps_complete_frames_witness :
  iter_from 1 (open_wal (frames_of 1 demo_entries ++ ztake 15 (frame_of 4 demo_entry)))
  = (records_of 1 demo_entries, None).
Proof.
  apply (crash_keeps_complete_frames demo_entries demo_entry 15 demo_log_ok).
  split; vm_compute; [discriminate|reflexivity].
Defined.

Lemma truncate_to_spec_witness :
  ∃ w', truncate_to 2 (open_wal (frames_of 1 demo_entries ++ [])) = (Ok (), w') ∧
        wal_holds w' [(RT_BEGIN, [x01])] [].
Proof. exact (truncate_to_spec _ _ _ 2 demo_wal_holds). Defined.

Lemma altered_byte_is_detected_witness :
  iter_from 1 (mkWAL (frames_of 1 demo_entries ++
      (header_of 4 RT_CKPT 1 ++ [xff] ++ le_bytes 4 (_crc32 (body_of 4 (RT_CKPT, [x09])))) ++ []) 4 false)
  = (from_lsn 1 (records_of 1 demo_entries), Some WALCorruptionError).
Proof.
  apply (altered_byte_is_detected demo_entries RT_CKPT [] x09 xff [] [] demo_log_ok).
  vm_compute. discriminate.
Defined.

(** A log that was reopened with a torn tail is not cut back: the next frame is
    appended after the garbage, and is lost. *)
Example append_after_torn_tail_is_lost :
  let w := open_wal (frames_of 1 demo_entries ++ ztake 15 (frame_of 4 demo_entry)) in
  let '(r, w') := append RT_CKPT [x0a] w in
  r = Ok 4 ∧ (iter_from 1 w').2 = Some WALCorruptionError ∧ (open_wal w'.(wal_file)).(wal_next_lsn) = 4.
Proof. vm_compute. split_and!; reflexivity. Qed.
