(* ===== verification/Recovery.v ===== *)
(** Component [tx/recovery.py]: the page records of the log, and the replay of
    the log on startup. *)
From S2P Require Import Prelude.
From S2P Require Import Bytes.
From S2P Require Import Pager.
From S2P Require Import BufferPool.
From S2P Require Import Heap.
From S2P Require Import Wal.
From stdpp Require Import sorting.
From Stdlib Require Import ZArith.
Local Open Scope Z_scope.

(** * Page records *)

Definition _PAGE_RECORD_HEADER : Z := 20.

Record _PageTouch := mkTouch {
  pt_tx_id : Z;
  pt_page_id : Z;
  pt_before : bytes;
  pt_after : bytes;
}.

Definition _decode_page_record (payload : bytes) : result _PageTouch :=
  if zlen payload <? _PAGE_RECORD_HEADER then Err PageRecordDecodeError else
  let header := ztake _PAGE_RECORD_HEADER payload in
  let tx_id := be_val (slice header 0 8) in
  let page_id := be_val (slice header 8 12) in
  let before_len := be_val (slice header 12 16) in
  let after_len := be_val (slice header 16 20) in
  let expected_total := _PAGE_RECORD_HEADER + before_len + after_len in
  if negb (expected_total =? zlen payload) then Err PageRecordDecodeError else
  if negb (before_len =? PAGE_SIZE) || negb (after_len =? PAGE_SIZE)
  then Err PageRecordDecodeError else
  let before := slice payload _PAGE_RECORD_HEADER (_PAGE_RECORD_HEADER + before_len) in
  let after := slice payload (_PAGE_RECORD_HEADER + before_len)
                             (_PAGE_RECORD_HEADER + before_len + after_len) in
  Ok (mkTouch tx_id page_id before after).

Definition _encode_page_record (tx_id page_id : Z) (before after : bytes) : result bytes :=
  if negb (zlen before =? PAGE_SIZE) || negb (zlen after =? PAGE_SIZE) then Err ValueError else
  a ← pack_ube 8 tx_id; b ← pack_ube 4 page_id;
  c ← pack_ube 4 PAGE_SIZE; d ← pack_ube 4 PAGE_SIZE;
  Ok (a ++ b ++ c ++ d ++ before ++ after).

(** * Analysis *)

Inductive tx_status := COMMITTED | ROLLED_BACK | UNKNOWN.
Global Instance tx_status_eq_dec : EqDecision tx_status.
Proof. solve_decision. Defined.

(** A dict in insertion order; a key that is set again keeps its place. *)
Section Dict.
Context {K V : Type} `{EqDecision K}.
Fixpoint dict_set (k : K) (v : V) (l : list (K * V)) : list (K * V) :=
  match l with
  | [] => [(k, v)]
  | (k', v') :: l => if decide (k' = k) then (k', v) :: l else (k', v') :: dict_set k v l
  end.
End Dict.

Record analysis := mkAnalysis {
  an_records_scanned : Z;
  an_page_records : Z;
  an_page_touches : list (Z * Z * _PageTouch);
  an_tx_state : gmap Z tx_status;
}.

(** [struct.unpack(">Q", payload)] *)
Definition unpack_tx_id (payload : bytes) : result Z :=
  if zlen payload =? 8 then Ok (be_val payload) else Err StructError.

(** One record of the analysis loop *)
Definition analyse (st : analysis) (r : WALRecord) : result analysis :=
  let st := mkAnalysis (st.(an_records_scanned) + 1) st.(an_page_records)
              st.(an_page_touches) st.(an_tx_state) in
  let set_state f :=
    tx_id ← unpack_tx_id r.(wr_payload);
    Ok (mkAnalysis st.(an_records_scanned) st.(an_page_records) st.(an_page_touches)
          (f tx_id st.(an_tx_state))) in
  if r.(wr_type) =? RT_BEGIN then
    set_state (λ tx m, match m !! tx with Some _ => m | None => <[tx := UNKNOWN]> m end)
  else if r.(wr_type) =? RT_COMMIT then set_state (λ tx m, <[tx := COMMITTED]> m)
  else if r.(wr_type) =? RT_ROLLBACK then set_state (λ tx m, <[tx := ROLLED_BACK]> m)
  else if r.(wr_type) =? RT_PAGE then
    touch ← _decode_page_record r.(wr_payload);
    Ok (mkAnalysis st.(an_records_scanned) (st.(an_page_records) + 1)
          (dict_set (touch.(pt_tx_id), touch.(pt_page_id)) touch st.(an_page_touches))
          st.(an_tx_state))
  else Ok st.

Fixpoint analyse_all (st : analysis) (rs : list WALRecord) : result analysis :=
  match rs with
  | [] => Ok st
  | r :: rs => st ← analyse st r; analyse_all st rs
  end.

(** The transactions in one state, in ascending order *)
Definition txs_in (s : tx_status) (m : gmap Z tx_status) : list Z :=
  merge_sort Z.le (map fst (filter (λ e, e.2 = s) (map_to_list m))).

(** * The images to write *)

(** One touch of the loop over [page_touches.items()], on
    [(committed_after, unknown_before)] *)
Definition classify (tx_state : gmap Z tx_status) (acc : gmap Z bytes * gmap Z bytes)
    (e : Z * Z * _PageTouch) : gmap Z bytes * gmap Z bytes :=
  let '(tx_id, page_id, touch) := e in
  let state := default UNKNOWN (tx_state !! tx_id) in
  if bool_decide (state = COMMITTED) || (tx_id =? 0)
  then (<[page_id := touch.(pt_after)]> acc.1, acc.2)
  else (acc.1, match acc.2 !! page_id with
               | Some _ => acc.2
               | None => <[page_id := touch.(pt_before)]> acc.2
               end).
Definition images (st : analysis) : gmap Z bytes * gmap Z bytes :=
  foldl (classify st.(an_tx_state)) (∅, ∅) st.(an_page_touches).

(** [sorted(d.items())]: the keys are distinct *)
Definition by_page (a b : Z * bytes) : Prop := a.1 <= b.1.
Global Instance by_page_dec a b : Decision (by_page a b).
Proof. unfold by_page. apply _. Defined.
Definition sorted_items (m : gmap Z bytes) : list (Z * bytes) := merge_sort by_page (map_to_list m).

Record stats := mkStats {
  s_records_scanned : Z;
  s_page_records : Z;
  s_redo : Z;
  s_undo : Z;
  s_committed : list Z;
  s_uncommitted : list Z;
}.

Section Replay.
Context {P : Type} `{PagerOps P}.

Fixpoint write_items (l : list (Z * bytes)) : M P unit :=
  match l with
  | [] => mret ()
  | (page_id, data) :: l => pi_write_page page_id data;; write_items l
  end.

(** [Recovery(wal, pager).replay()] *)
Definition replay (wal : WAL) : M P stats :=
  let '(records, error) := iter_from 1 wal in
  st ← lift (analyse_all (mkAnalysis 0 0 [] ∅) records);
  (match error with Some e => raise e | None => mret () end);;
  let '(committed_after, unknown_before) := images st in
  let undo := filter (λ kv, committed_after !! kv.1 = None) (sorted_items unknown_before) in
  write_items (sorted_items committed_after);;
  write_items undo;;
  mret (mkStats st.(an_records_scanned) st.(an_page_records)
          (Z.of_nat (size committed_after)) (zlen undo)
          (txs_in COMMITTED st.(an_tx_state)) (txs_in UNKNOWN st.(an_tx_state))).
End Replay.

(** * The page record is read back *)

Definition page_payload (tx_id : Z) (i : image) : bytes :=
  (be_bytes 8 tx_id ++ be_bytes 4 i.1.1 ++ be_bytes 4 PAGE_SIZE ++ be_bytes 4 PAGE_SIZE) ++ i.1.2 ++ i.2.

(** Images that fit in a page record *)
Definition image_ok (i : image) : Prop :=
  0 <= i.1.1 < 2 ^ 32 ∧ zlen i.1.2 = PAGE_SIZE ∧ zlen i.2 = PAGE_SIZE.

Lemma encode_page_record_ok tx_id i :
  0 <= tx_id < 2 ^ 64 → image_ok i →
  _encode_page_record tx_id i.1.1 i.1.2 i.2 = Ok (page_payload tx_id i).
Proof.
  intros Ht (Hp & Hb & Ha). unfold _encode_page_record, page_payload. rewrite Hb, Ha, Z.eqb_refl. simpl negb. simpl orb.
  cbv iota. unfold PAGE_SIZE. rewrite !pack_ube_ok by lia. rewrite !bind_Ok. by rewrite <-!app_assoc.
Qed.

Lemma decode_page_payload tx_id i :
  0 <= tx_id < 2 ^ 64 → image_ok i →
  _decode_page_record (page_payload tx_id i) = Ok (mkTouch tx_id i.1.1 i.1.2 i.2).
Proof.
  intros Ht (Hp & Hb & Ha). unfold _decode_page_record, page_payload.
  set (h := be_bytes 8 tx_id ++ _).
  assert (zlen h = 20) as Hh by (subst h; rewrite !zlen_app, !zlen_be_bytes; done).
  assert (zlen (h ++ i.1.2 ++ i.2) = 20 + PAGE_SIZE + PAGE_SIZE) as Hz
    by (rewrite !zlen_app, Hh, Hb, Ha; lia).
  rewrite Hz. unfold _PAGE_RECORD_HEADER.
  destruct (Z.ltb_spec (20 + PAGE_SIZE + PAGE_SIZE) 20) as [Hx|_]; [unfold PAGE_SIZE in Hx; lia|].
  cbv zeta. rewrite ztake_app by done.
  assert (be_val (slice h 0 8) = tx_id) as ->.
  { subst h. rewrite slice_prefix by (by rewrite zlen_be_bytes). by apply be_val_be_bytes_small. }
  assert (be_val (slice h 8 12) = i.1.1) as ->.
  { subst h. rewrite slice_middle by (by rewrite !zlen_be_bytes). by apply be_val_be_bytes_small. }
  assert (be_val (slice h 12 16) = PAGE_SIZE) as ->.
  { subst h. rewrite (app_assoc (be_bytes 8 tx_id)).
    rewrite slice_middle by (by rewrite ?zlen_app, !zlen_be_bytes).
    apply be_val_be_bytes_small. unfold PAGE_SIZE. lia. }
  assert (be_val (slice h 16 20) = PAGE_SIZE) as ->.
  { subst h. rewrite (app_assoc (be_bytes 8 tx_id)), (app_assoc (be_bytes 8 tx_id ++ _)).
    rewrite slice_app_r by (rewrite !zlen_app, !zlen_be_bytes; lia).
    rewrite slice_full by (rewrite !zlen_app, !zlen_be_bytes; lia).
    apply be_val_be_bytes_small. unfold PAGE_SIZE. lia. }
  rewrite !Z.eqb_refl. cbv iota beta delta [negb orb]. do 2 f_equal.
  - apply slice_middle; rewrite ?Hh, ?Hb; done.
  - rewrite app_assoc. rewrite slice_app_r by (rewrite zlen_app, Hh, Hb; lia).
    rewrite zlen_app, Hh, Hb, Z.sub_diag. apply slice_full. rewrite Ha. lia.
Qed.

(** What decodes is the encoding of what was decoded. *)
Lemma decode_page_record_exact payload t :
  _decode_page_record payload = Ok t →
  _encode_page_record t.(pt_tx_id) t.(pt_page_id) t.(pt_before) t.(pt_after) = Ok payload.
Proof.
  unfold _decode_page_record. destruct (Z.ltb_spec (zlen payload) _PAGE_RECORD_HEADER) as [|Hl]; [done|].
  cbv zeta. unfold _PAGE_RECORD_HEADER in *.
  set (hd := ztake 20 payload).
  destruct (Z.eqb_spec (20 + be_val (slice hd 12 16) + be_val (slice hd 16 20)) (zlen payload)) as [Ht|]; [|done].
  destruct (Z.eqb_spec (be_val (slice hd 12 16)) PAGE_SIZE) as [Hbl|]; [|done].
  destruct (Z.eqb_spec (be_val (slice hd 16 20)) PAGE_SIZE) as [Hal|]; [|done].
  cbv iota beta delta [negb orb]. rewrite Hbl, Hal in Ht |- *. intros [= <-]. cbn [pt_tx_id pt_page_id pt_before pt_after].
  unfold _encode_page_record. pose proof (zlen_nonneg payload).
  assert (PAGE_SIZE = 4096) as HP by reflexivity.
  rewrite !zlen_slice by lia. rewrite Z.add_simpl_l, (Z.add_simpl_l (20 + PAGE_SIZE)), Z.eqb_refl.
  cbv iota beta delta [negb orb].
  assert (∀ n a b, 0 <= a → b = a + Z.of_nat n → b <= 20 → pack_ube n (be_val (slice hd a b)) = Ok (slice hd a b)) as Hpk.
  { intros n a b H0 -> H1. assert (zlen (slice hd a (a + Z.of_nat n)) = Z.of_nat n) as Hz
      by (subst hd; rewrite zlen_slice; rewrite ?zlen_ztake by lia; lia).
    rewrite pack_ube_ok by (pose proof (be_val_bound (slice hd a (a + Z.of_nat n))) as Hb; by rewrite Hz in Hb). f_equal. by apply be_bytes_be_val_n. }
  assert (pack_ube 4 PAGE_SIZE = Ok (slice hd 12 16)) as H12 by (rewrite <-Hbl; apply Hpk; lia).
  assert (pack_ube 4 PAGE_SIZE = Ok (slice hd 16 20)) as H16 by (rewrite <-Hal; apply Hpk; lia).
  assert (slice hd 16 20 = slice hd 12 16) as Heq by congruence.
  rewrite (Hpk 8%nat 0 8), (Hpk 4%nat 8 12), H12, !bind_Ok by lia. f_equal.
  transitivity (slice hd 0 20 ++ slice payload 20 (zlen payload)).
  - rewrite <-(slice_join hd 0 8 20), <-(slice_join hd 8 12 20), <-(slice_join hd 12 16 20) by lia.
    rewrite Heq, <-!app_assoc, slice_join, Ht by lia. done.
  - subst hd. rewrite slice_full by (rewrite zlen_ztake; lia).
    transitivity (ztake 20 payload ++ zdrop 20 payload); [|apply ztake_zdrop].
    f_equal. unfold slice. apply ztake_all. rewrite zlen_zdrop by lia. lia.
Qed.

(** a page record is read back, and it is 20 bytes longer than its two
    page images; conversely, what the decoder accepts is to the byte the
    encoding of what it returns. *)
Theorem page_record_roundtrip tx_id page_id before after payload :
  (_encode_page_record tx_id page_id before after = Ok payload →
   _decode_page_record payload = Ok (mkTouch tx_id page_id before after) ∧
   zlen payload = _PAGE_RECORD_HEADER + PAGE_SIZE + PAGE_SIZE) ∧
  (∀ t, _decode_page_record payload = Ok t →
   _encode_page_record t.(pt_tx_id) t.(pt_page_id) t.(pt_before) t.(pt_after) = Ok payload).
Proof.
  split; [|by apply decode_page_record_exact].
  unfold _encode_page_record.
  destruct (Z.eqb_spec (zlen before) PAGE_SIZE) as [Hb|]; [|done].
  destruct (Z.eqb_spec (zlen after) PAGE_SIZE) as [Ha|]; [|done]. simpl negb. simpl orb. cbv iota.
  intros He. inv_ok.
  repeat match goal with H : pack_ube _ _ = Ok _ |- _ => apply pack_ube_Ok_inv in H as [-> ?] end.
  pose proof (decode_page_payload tx_id (page_id, before, after)) as Hd.
  unfold page_payload in Hd. cbn [fst snd] in Hd. rewrite <-!app_assoc in Hd. split.
  - apply Hd; [done|]. unfold image_ok; cbn [fst snd]; split; [lia|done].
  - rewrite !zlen_app, !zlen_be_bytes, Hb, Ha. unfold _PAGE_RECORD_HEADER. lia.
Qed.

Lemma zlen_page_payload tx_id i :
  image_ok i → zlen (page_payload tx_id i) = 20 + 2 * PAGE_SIZE.
Proof. intros (_ & Hb & Ha). unfold page_payload. rewrite !zlen_app, !zlen_be_bytes, Hb, Ha. lia. Qed.

(** What decodes has whole pages. *)
Lemma decode_sizes payload t :
  _decode_page_record payload = Ok t → zlen t.(pt_before) = PAGE_SIZE ∧ zlen t.(pt_after) = PAGE_SIZE.
Proof.
  unfold _decode_page_record. destruct (Z.ltb_spec (zlen payload) _PAGE_RECORD_HEADER); [done|].
  set (hd := ztake _ payload). set (bl := be_val (slice hd 12 16)). set (al := be_val (slice hd 16 20)).
  destruct (Z.eqb_spec (_PAGE_RECORD_HEADER + bl + al) (zlen payload)) as [Ht|]; [|done].
  destruct (Z.eqb_spec bl PAGE_SIZE) as [->|]; [|done].
  destruct (Z.eqb_spec al PAGE_SIZE) as [->|]; [|done]. simpl. intros [= <-]. simpl.
  unfold _PAGE_RECORD_HEADER, PAGE_SIZE in *. rewrite !zlen_slice by lia. lia.
Qed.

(** * The writes of a replay *)

Section ReplaySpec.
Context {P : Type} {stores : P → gmap Z bytes → Prop} `{PagerLaws P stores}.

Lemma write_items_ok l p m :
  stores p m → Forall (λ kv, is_Some (m !! kv.1) ∧ zlen kv.2 = PAGE_SIZE) l →
  ∃ p', write_items l p = (Ok (), p') ∧ stores p' (foldl (λ m kv, <[kv.1 := kv.2]> m) m l).
Proof.
  revert p m. induction l as [|[pid d] l IH]; intros p m Hs; simpl; [by exists p|].
  intros [[Hm Hd] Hl]%Forall_cons. cbn [fst snd] in *.
  destruct (pi_write_law p m pid d Hs Hm Hd) as (p1 & Hw & Hs1 & _).
  rewrite (run_Ok _ _ _ _ _ Hw). apply (IH p1 _ Hs1).
  eapply Forall_impl; [exact Hl|]. intros kv [Hk Hz]. split; [|done].
  destruct (decide (kv.1 = pid)) as [->|]; [by rewrite lookup_insert_eq|by rewrite lookup_insert_ne].
Qed.

Lemma foldl_insert_lookup (l : list (Z * bytes)) (g m : gmap Z bytes) x :
  NoDup (map fst l) → (∀ d, (x, d) ∈ l ↔ g !! x = Some d) →
  foldl (λ m kv, <[kv.1 := kv.2]> m) m l !! x =
  match g !! x with Some d => Some d | None => m !! x end.
Proof.
  intros Hnd Hin. revert g m Hin. induction l as [|[k v] l IH]; intros g m Hin; simpl.
  - destruct (g !! x) as [d|]; [|done]. pose proof (proj2 (Hin d) eq_refl) as E. by apply elem_of_nil in E.
  - apply NoDup_cons in Hnd as [Hk Hnd]. simpl in Hk. destruct (decide (x = k)) as [->|Hne].
    + assert (g !! k = Some v) as -> by (apply Hin; by left).
      rewrite (IH Hnd ∅).
      * rewrite lookup_empty. by rewrite lookup_insert_eq.
      * intros d. rewrite lookup_empty. split; [|done]. intros Hkd. exfalso. apply Hk.
        apply list_elem_of_fmap. by exists (k, d).
    + rewrite (IH Hnd g).
      * by rewrite lookup_insert_ne.
      * intros d. rewrite <-Hin, elem_of_cons. naive_solver.
Qed.

Lemma sorted_items_spec (g : gmap Z bytes) :
  NoDup (map fst (sorted_items g)) ∧ ∀ x d, (x, d) ∈ sorted_items g ↔ g !! x = Some d.
Proof.
  unfold sorted_items. pose proof (merge_sort_Permutation by_page (map_to_list g)) as Hp. split.
  - change (map fst) with (fmap (M := list) (fst : Z * bytes → Z)). rewrite (fmap_Permutation fst _ _ Hp).
    apply NoDup_fst_map_to_list.
  - intros x d. rewrite Hp. apply elem_of_map_to_list.
Qed.

(** The pages after a replay with images [ca] and [ub] *)
Definition replayed (ca ub m : gmap Z bytes) (x : Z) : option bytes :=
  match ca !! x with
  | Some d => Some d
  | None => match ub !! x with Some d => Some d | None => m !! x end
  end.

(** The counters of a replay *)
Definition stats_of (st : analysis) : stats :=
  let '(ca, ub) := images st in
  mkStats st.(an_records_scanned) st.(an_page_records) (Z.of_nat (size ca))
    (zlen (filter (λ kv, ca !! kv.1 = None) (sorted_items ub)))
    (txs_in COMMITTED st.(an_tx_state)) (txs_in UNKNOWN st.(an_tx_state)).

(** Analysis succeeds and every page of the images exists *)
Lemma replay_ok wal p m rs st :
  stores p m → iter_from 1 wal = (rs, None) → analyse_all (mkAnalysis 0 0 [] ∅) rs = Ok st →
  map_Forall (λ x d, is_Some (m !! x) ∧ zlen d = PAGE_SIZE) (images st).1 →
  map_Forall (λ x d, is_Some (m !! x) ∧ zlen d = PAGE_SIZE) (images st).2 →
  ∃ p' m', replay wal p = (Ok (stats_of st), p') ∧ stores p' m' ∧
    (∀ x, m' !! x = replayed (images st).1 (images st).2 m x).
Proof.
  intros Hs Hi Ha Hca Hub. unfold replay, stats_of. rewrite Hi, Ha. mrun.
  destruct (images st) as [ca ub]. cbn [fst snd] in *.
  destruct (write_items_ok (sorted_items ca) p m Hs) as (p1 & Hw1 & Hs1).
  { apply Forall_forall. intros [x d]. rewrite (proj2 (sorted_items_spec ca)). apply (Hca x d). }
  rewrite (run_Ok _ _ _ _ _ Hw1).
  set (m1 := foldl _ m _) in Hs1.
  assert (∀ x, m1 !! x = match ca !! x with Some d => Some d | None => m !! x end) as Hm1.
  { intros x. destruct (sorted_items_spec ca) as [Hnd Hin]. by apply foldl_insert_lookup. }
  set (undo := filter (λ kv, ca !! kv.1 = None) (sorted_items ub)).
  destruct (sorted_items_spec ub) as [Hnd Hin].
  assert (∀ x d, (x, d) ∈ undo ↔ ca !! x = None ∧ ub !! x = Some d) as Hundo.
  { intros x d. subst undo. by rewrite list_elem_of_filter, Hin. }
  assert (NoDup (map fst undo)) as Hndu.
  { eapply sublist_NoDup; [exact Hnd|]. apply (fmap_sublist fst), sublist_filter. }
  destruct (write_items_ok undo p1 m1 Hs1) as (p2 & Hw2 & Hs2).
  { apply Forall_forall. intros [x d] [_ Hx]%Hundo.
    destruct (Hub x d Hx) as [Hm Hd]. split; [|done]. cbn [fst]. rewrite Hm1. by destruct (ca !! x). }
  rewrite (run_Ok _ _ _ _ _ Hw2). eexists p2, _. split; [reflexivity|]. split; [exact Hs2|].
  intros x. unfold replayed.
  rewrite (foldl_insert_lookup undo (if decide (ca !! x = None) then ub else ∅) m1 x Hndu).
  - rewrite Hm1. case_decide as Hc; [by rewrite Hc|]. rewrite lookup_empty. by destruct (ca !! x).
  - intros d. rewrite Hundo. case_decide; [naive_solver|]. rewrite lookup_empty. naive_solver.
Qed.

(** replay is idempotent: a second replay of the same log succeeds, finds
    the same transactions and leaves the pages as the first one did. *)
Theorem replay_idempotent wal p m rs st :
  stores p m → iter_from 1 wal = (rs, None) → analyse_all (mkAnalysis 0 0 [] ∅) rs = Ok st →
  map_Forall (λ x d, is_Some (m !! x) ∧ zlen d = PAGE_SIZE) (images st).1 →
  map_Forall (λ x d, is_Some (m !! x) ∧ zlen d = PAGE_SIZE) (images st).2 →
  ∃ s p1 m1 p2, replay wal p = (Ok s, p1) ∧ stores p1 m1 ∧
    replay wal p1 = (Ok s, p2) ∧ stores p2 m1.
Proof.
  intros Hs Hi Ha Hca Hub.
  destruct (replay_ok wal p m rs st Hs Hi Ha Hca Hub) as (p1 & m1 & Hx1 & Hs1 & Hm1).
  assert (∀ x, is_Some (m !! x) → is_Some (m1 !! x)) as Hdom.
  { intros x Hx. rewrite Hm1. unfold replayed. by repeat case_match. }
  destruct (replay_ok wal p1 m1 rs st Hs1 Hi Ha) as (p2 & m2 & Hx2 & Hs2 & Hm2).
  { intros x d Hx. destruct (Hca x d Hx). auto. }
  { intros x d Hx. destruct (Hub x d Hx). auto. }
  exists (stats_of st), p1, m1, p2. split; [done|]. split; [done|]. split; [done|].
  assert (m2 = m1) as <-; [|done]. apply map_eq. intros x. rewrite Hm2. unfold replayed.
  rewrite !Hm1. unfold replayed. by repeat case_match.
Qed.
End ReplaySpec.

(** * Serial histories *)

(** One transaction: its id, the page images it logged in order, and how it
    ended (committed, rolled back, or not at all) *)
Record txn := mkTxn { tx_no : Z; tx_writes : list image; tx_end : option bool }.
Definition tx_committed (t : txn) : bool := match t.(tx_end) with Some true => true | _ => false end.

(** Its frames in the log *)
Definition tx_id_payload (n : Z) : bytes := be_bytes 8 n.
Definition tx_entries (t : txn) : list entry :=
  (RT_BEGIN, tx_id_payload t.(tx_no)) ::
  map (λ i, (RT_PAGE, page_payload t.(tx_no) i)) t.(tx_writes) ++
  match t.(tx_end) with
  | Some true => [(RT_COMMIT, tx_id_payload t.(tx_no))]
  | Some false => [(RT_ROLLBACK, tx_id_payload t.(tx_no))]
  | None => []
  end.
Definition history_entries (h : list txn) : list entry := mjoin (map tx_entries h).

Definition pids (ls : list image) : list Z := map (λ i : image, i.1.1) ls.

(** The pages after the committed transactions *)
Definition after_tx (m : gmap Z bytes) (t : txn) : gmap Z bytes :=
  if tx_committed t then redo m t.(tx_writes) else m.
Definition final (m : gmap Z bytes) (h : list txn) : gmap Z bytes := foldl after_tx m h.

(** The transactions ran one after the other: each before image is what the
    page held; a transaction that did not commit left no trace for the next
    one, and wrote each page once. *)
Fixpoint serial (m : gmap Z bytes) (h : list txn) : Prop :=
  match h with
  | [] => True
  | t :: h =>
      consistent m t.(tx_writes) ∧ (tx_committed t = false → NoDup (pids t.(tx_writes))) ∧
      serial (after_tx m t) h
  end.
Definition tx_ok (t : txn) : Prop := 0 < t.(tx_no) < 2 ^ 64 ∧ Forall image_ok t.(tx_writes).

Lemma history_log_ok h :
  Forall tx_ok h → 1 + zlen (history_entries h) <= 2 ^ 64 → log_ok 1 (history_entries h).
Proof.
  intros Hok Hl. split; [lia|]. split; [done|]. apply Forall_forall. intros e He.
  unfold history_entries in He. apply list_elem_of_join in He as (es & He & Hes).
  apply list_elem_of_fmap in Hes as (t & -> & Ht).
  rewrite Forall_forall in Hok. destruct (Hok t Ht) as [_ Hw]. rewrite Forall_forall in Hw.
  assert (∀ ty n, 0 <= ty < 256 → entry_ok (ty, tx_id_payload n)) as Hid.
  { intros ty n Hty. unfold entry_ok, tx_id_payload. cbn [fst snd]. rewrite zlen_be_bytes. lia. }
  unfold tx_entries in He. rewrite elem_of_cons, elem_of_app in He.
  destruct He as [->|[He|He]]; [by apply Hid| |].
  - apply list_elem_of_fmap in He as (i & -> & Hi). split; cbn [fst snd]; [done|].
    rewrite zlen_page_payload by auto. unfold PAGE_SIZE. lia.
  - destruct (tx_end t) as [[]|]; rewrite ?list_elem_of_singleton in He; try subst e;
      try (by apply Hid); by apply elem_of_nil in He.
Qed.

(** ** Analysis of a history *)

#[local] Arguments analyse : simpl never.

Definition touch_of (n : Z) (i : image) : _PageTouch := mkTouch n i.1.1 i.1.2 i.2.
Definition add_touch (n : Z) (L : list (Z * Z * _PageTouch)) (i : image) :=
  dict_set (n, i.1.1) (touch_of n i) L.
Definition touches_of (t : txn) : list (Z * Z * _PageTouch) :=
  foldl (add_touch t.(tx_no)) [] t.(tx_writes).
Definition status_of (t : txn) : tx_status :=
  match t.(tx_end) with Some true => COMMITTED | Some false => ROLLED_BACK | None => UNKNOWN end.
Definition states_of (h : list txn) (m : gmap Z tx_status) : gmap Z tx_status :=
  foldl (λ m t, <[t.(tx_no) := status_of t]> m) m h.

(** [analyse] ignores the LSN of a record. *)
Fixpoint analyse_entries (st : analysis) (es : list entry) : result analysis :=
  match es with
  | [] => Ok st
  | e :: es => st ← analyse st (mkRecord 0 e.1 e.2); analyse_entries st es
  end.
Lemma analyse_records es lsn st : analyse_all st (records_of lsn es) = analyse_entries st es.
Proof.
  revert lsn st. induction es as [|e es IH]; intros lsn st; [done|]. simpl.
  change (analyse st (mkRecord lsn e.1 e.2)) with (analyse st (mkRecord 0 e.1 e.2)).
  destruct (analyse st _); simpl; [apply IH|done].
Qed.
Lemma analyse_entries_app st es es' :
  analyse_entries st (es ++ es') = (st' ← analyse_entries st es; analyse_entries st' es').
Proof.
  revert st. induction es as [|e es IH]; intros st; [done|]. simpl.
  destruct (analyse st _); simpl; [apply IH|done].
Qed.

Lemma unpack_tx_id_payload n : 0 <= n < 2 ^ 64 → unpack_tx_id (tx_id_payload n) = Ok n.
Proof.
  intros Hn. unfold unpack_tx_id, tx_id_payload. rewrite zlen_be_bytes.
  change (Z.of_nat 8 =? 8) with true. cbv iota. by rewrite be_val_be_bytes_small.
Qed.

Lemma dict_set_notin {K V} `{EqDecision K} (k : K) (v : V) l l' :
  k ∉ map fst l → dict_set k v (l ++ l') = l ++ dict_set k v l'.
Proof.
  induction l as [|[k' v'] l IH]; simpl; [done|]. rewrite not_elem_of_cons. intros [Hk Hn].
  rewrite decide_False by congruence. by rewrite IH.
Qed.
Lemma dict_set_keys {K V} `{EqDecision K} (k : K) (v : V) l x :
  x ∈ map fst (dict_set k v l) ↔ x = k ∨ x ∈ map fst l.
Proof.
  induction l as [|[k' v'] l IH]; simpl.
  - rewrite list_elem_of_singleton, elem_of_nil. naive_solver.
  - case_decide as E; simpl; rewrite !elem_of_cons; [subst; naive_solver|rewrite IH; naive_solver].
Qed.

Definition no_tx (n : Z) (L : list (Z * Z * _PageTouch)) : Prop := ∀ k, k ∈ map fst L → k.1 ≠ n.

Lemma add_touches_app n ws L T :
  no_tx n L → foldl (add_touch n) (L ++ T) ws = L ++ foldl (add_touch n) T ws.
Proof.
  intros Hn. revert T. induction ws as [|w ws IH]; intros T; simpl; [done|].
  rewrite <-IH. f_equal. apply dict_set_notin. intros Hin. by apply Hn in Hin.
Qed.
Lemma touches_of_keys t k : k ∈ map fst (touches_of t) → k.1 = t.(tx_no) ∧ k.2 ∈ pids t.(tx_writes).
Proof.
  unfold touches_of, pids.
  assert (∀ ws L, k ∈ map fst (foldl (add_touch (tx_no t)) L ws) →
    k ∈ map fst L ∨ k.1 = tx_no t ∧ k.2 ∈ map (λ i : image, i.1.1) ws) as Hgen.
  { intros ws. induction ws as [|w ws IH]; intros L; simpl; [by left|].
    intros [Hk|[Hk1 Hk2]]%IH; [|right; split; [done|by right]].
    apply dict_set_keys in Hk as [->|Hk]; [right; split; [done|by left]|by left]. }
  intros [Hk|Hk]%Hgen; [by apply elem_of_nil in Hk|done].
Qed.

Lemma analyse_pages n ws st :
  0 <= n < 2 ^ 64 → Forall image_ok ws →
  ∃ st', analyse_entries st (map (λ i, (RT_PAGE, page_payload n i)) ws) = Ok st' ∧
    st'.(an_page_touches) = foldl (add_touch n) st.(an_page_touches) ws ∧
    st'.(an_tx_state) = st.(an_tx_state).
Proof.
  intros Hn Hws. revert st. induction Hws as [|w ws Hw _ IH]; intros st; [by exists st|].
  cbn [map analyse_entries fst snd foldl].
  unfold analyse. cbn [wr_type wr_payload].
  change (RT_PAGE =? RT_BEGIN) with false. change (RT_PAGE =? RT_COMMIT) with false.
  change (RT_PAGE =? RT_ROLLBACK) with false. change (RT_PAGE =? RT_PAGE) with true. cbv iota.
  rewrite decode_page_payload by done. rewrite !bind_Ok.
  destruct (IH (mkAnalysis (an_records_scanned st + 1) (an_page_records st + 1)
     (add_touch n (an_page_touches st) w) (an_tx_state st)))
    as (st' & Hx & Ht & Hs). exists st'. split; [exact Hx|]. by rewrite Ht, Hs.
Qed.

Lemma analyse_begin st n :
  0 <= n < 2 ^ 64 → st.(an_tx_state) !! n = None →
  analyse st (mkRecord 0 RT_BEGIN (tx_id_payload n)) =
  Ok (mkAnalysis (st.(an_records_scanned) + 1) st.(an_page_records) st.(an_page_touches)
        (<[n := UNKNOWN]> st.(an_tx_state))).
Proof.
  intros Hn Hs. unfold analyse. cbn [wr_type wr_payload].
  change (RT_BEGIN =? RT_BEGIN) with true. cbv iota beta zeta.
  rewrite unpack_tx_id_payload by done. rewrite bind_Ok. cbn [an_tx_state]. by rewrite Hs.
Qed.
Lemma analyse_commit st n :
  0 <= n < 2 ^ 64 →
  analyse st (mkRecord 0 RT_COMMIT (tx_id_payload n)) =
  Ok (mkAnalysis (st.(an_records_scanned) + 1) st.(an_page_records) st.(an_page_touches)
        (<[n := COMMITTED]> st.(an_tx_state))).
Proof.
  intros Hn. unfold analyse. cbn [wr_type wr_payload].
  change (RT_COMMIT =? RT_BEGIN) with false. change (RT_COMMIT =? RT_COMMIT) with true.
  cbv iota beta zeta. by rewrite unpack_tx_id_payload.
Qed.
Lemma analyse_rollback st n :
  0 <= n < 2 ^ 64 →
  analyse st (mkRecord 0 RT_ROLLBACK (tx_id_payload n)) =
  Ok (mkAnalysis (st.(an_records_scanned) + 1) st.(an_page_records) st.(an_page_touches)
        (<[n := ROLLED_BACK]> st.(an_tx_state))).
Proof.
  intros Hn. unfold analyse. cbn [wr_type wr_payload].
  change (RT_ROLLBACK =? RT_BEGIN) with false. change (RT_ROLLBACK =? RT_COMMIT) with false.
  change (RT_ROLLBACK =? RT_ROLLBACK) with true.
  cbv iota beta zeta. by rewrite unpack_tx_id_payload.
Qed.

Lemma analyse_tx t st :
  tx_ok t → st.(an_tx_state) !! t.(tx_no) = None → no_tx t.(tx_no) st.(an_page_touches) →
  ∃ st', analyse_entries st (tx_entries t) = Ok st' ∧
    st'.(an_page_touches) = st.(an_page_touches) ++ touches_of t ∧
    st'.(an_tx_state) = <[t.(tx_no) := status_of t]> st.(an_tx_state).
Proof.
  intros [Hn Hws] Hnone Hno. unfold tx_entries. cbn [analyse_entries app fst snd].
  rewrite analyse_begin by (done || lia). rewrite bind_Ok, analyse_entries_app.
  destruct (analyse_pages (tx_no t) (tx_writes t) (mkAnalysis (an_records_scanned st + 1)
    (an_page_records st) (an_page_touches st) (<[tx_no t := UNKNOWN]> (an_tx_state st))))
    as (st1 & -> & Ht1 & Hs1); [lia|done|]. cbn [an_page_touches an_tx_state] in *.
  rewrite bind_Ok. rewrite <-(app_nil_r (an_page_touches st)) in Ht1.
  rewrite add_touches_app in Ht1 by done. fold (touches_of t) in Ht1. unfold status_of.
  destruct (tx_end t) as [[]|]; cbn [analyse_entries fst snd].
  - rewrite analyse_commit, bind_Ok by lia. eexists. split; [reflexivity|].
    cbn [an_page_touches an_tx_state]. split; [done|]. by rewrite Hs1, insert_insert_eq.
  - rewrite analyse_rollback, bind_Ok by lia. eexists. split; [reflexivity|].
    cbn [an_page_touches an_tx_state]. split; [done|]. by rewrite Hs1, insert_insert_eq.
  - exists st1. by rewrite Hs1.
Qed.

Lemma states_of_lookup h m n :
  n ∉ map tx_no h → states_of h m !! n = m !! n.
Proof.
  revert m. induction h as [|t h IH]; intros m; simpl; [done|]. rewrite not_elem_of_cons.
  intros [Hn Hh]. rewrite IH by done. by rewrite lookup_insert_ne.
Qed.

Lemma history_entries_cons t h : history_entries (t :: h) = tx_entries t ++ history_entries h.
Proof. reflexivity. Qed.

Lemma analyse_history h st :
  Forall tx_ok h → NoDup (map tx_no h) →
  (∀ t, t ∈ h → st.(an_tx_state) !! t.(tx_no) = None ∧ no_tx t.(tx_no) st.(an_page_touches)) →
  ∃ st', analyse_entries st (history_entries h) = Ok st' ∧
    st'.(an_page_touches) = st.(an_page_touches) ++ mjoin (map touches_of h) ∧
    st'.(an_tx_state) = states_of h st.(an_tx_state).
Proof.
  intros Hok. revert st. induction Hok as [|t h Ht _ IH]; intros st Hnd Hfr.
  - exists st. split; [done|]. split; [by rewrite app_nil_r|done].
  - apply NoDup_cons in Hnd as [Hnin Hnd]. destruct (Hfr t) as [Hs Hn]; [by left|].
    rewrite history_entries_cons, analyse_entries_app.
    destruct (analyse_tx t st Ht Hs Hn) as (st1 & -> & Ht1 & Hs1). rewrite bind_Ok.
    destruct (IH st1) as (st2 & Hx & Ht2 & Hs2); [done| |].
    + intros t' Ht'. assert (tx_no t' ≠ tx_no t) as Hne.
      { intros Heq. apply Hnin. rewrite <-Heq. apply list_elem_of_fmap. by exists t'. }
      destruct (Hfr t') as [Hs' Hn']; [by right|]. rewrite Hs1, Ht1. split.
      * by rewrite lookup_insert_ne.
      * intros k. rewrite map_app, elem_of_app. intros [Hk|Hk]; [by apply Hn'|].
        apply touches_of_keys in Hk as [-> _]. done.
    + exists st2. split; [exact Hx|]. rewrite Ht2, Ht1, Hs2, Hs1, <-app_assoc. done.
Qed.

(** ** The images of a history *)

(** The after images, as one map update per touch *)
Definition put_after (m : gmap Z bytes) (e : Z * Z * _PageTouch) : gmap Z bytes :=
  <[e.1.2 := e.2.(pt_after)]> m.

Lemma put_after_comm T m p a :
  p ∉ map (λ e : Z * Z * _PageTouch, e.1.2) T →
  foldl put_after (<[p := a]> m) T = <[p := a]> (foldl put_after m T).
Proof.
  revert m. induction T as [|e T IH]; intros m; simpl; [done|].
  rewrite not_elem_of_cons. intros [He HT]. rewrite <-IH by done. f_equal.
  unfold put_after. by rewrite insert_insert_ne by congruence.
Qed.

(** All the touches of one transaction, keyed by page *)
Definition keyed (n : Z) (T : list (Z * Z * _PageTouch)) : Prop :=
  NoDup (map (λ e : Z * Z * _PageTouch, e.1.2) T) ∧ Forall (λ e, e.1.1 = n) T.

Lemma dict_set_keyed n p v T x :
  keyed n T →
  x ∈ map (λ e : Z * Z * _PageTouch, e.1.2) (dict_set (n, p) v T) ↔
  x = p ∨ x ∈ map (λ e : Z * Z * _PageTouch, e.1.2) T.
Proof.
  intros [_ HF]. induction HF as [|[[k q] t] T Hk _ IH]; simpl.
  - rewrite list_elem_of_singleton, elem_of_nil. naive_solver.
  - simpl in Hk. subst k. destruct (decide ((n, q) = (n, p))) as [[= ->]|Hne]; simpl; rewrite !elem_of_cons.
    + naive_solver.
    + rewrite IH. naive_solver.
Qed.
Lemma add_touch_keyed n T i : keyed n T → keyed n (add_touch n T i).
Proof.
  intros HK. unfold add_touch. generalize (touch_of n i). generalize i.1.1. intros p v.
  induction T as [|[[k q] t] T IH]; simpl.
  - split; [apply NoDup_singleton|by repeat constructor].
  - destruct HK as [Hn HF]. apply NoDup_cons in Hn as [Hq Hn]. apply Forall_cons in HF as [Hk HF].
    simpl in Hk. subst k. destruct (IH (conj Hn HF)) as [IHn IHF].
    destruct (decide ((n, q) = (n, p))) as [|Hne].
    + split; [by apply NoDup_cons|by constructor].
    + split; [|by constructor]. simpl. apply NoDup_cons. split; [|done].
      rewrite (dict_set_keyed n p v T q (conj Hn HF)). intros [->|]; done.
Qed.
Lemma touches_keyed t : keyed t.(tx_no) (touches_of t).
Proof.
  unfold touches_of.
  assert (∀ ws T, keyed (tx_no t) T → keyed (tx_no t) (foldl (add_touch (tx_no t)) T ws)) as Hg.
  { intros ws. induction ws as [|w ws IH]; intros T HT; simpl; [done|]. by apply IH, add_touch_keyed. }
  apply Hg. split; constructor.
Qed.

Lemma put_after_add n T m i :
  keyed n T → foldl put_after m (add_touch n T i) = <[i.1.1 := i.2]> (foldl put_after m T).
Proof.
  unfold add_touch. intros HK. change i.2 with (pt_after (touch_of n i)).
  generalize (touch_of n i). generalize i.1.1. intros p v. revert m.
  induction T as [|[[k q] t] T IH]; intros m; simpl; [done|].
  destruct HK as [Hn HF]. apply NoDup_cons in Hn as [Hq Hn]. apply Forall_cons in HF as [Hk HF].
  simpl in Hk. subst k. simpl in Hq. destruct (decide ((n, q) = (n, p))) as [[= ->]|Hne]; simpl.
  - change (put_after m (n, p, v)) with (<[p := v.(pt_after)]> m).
    change (put_after m (n, p, t)) with (<[p := t.(pt_after)]> m).
    rewrite !put_after_comm by done. by rewrite insert_insert_eq.
  - by rewrite (IH (conj Hn HF)).
Qed.

(** Writing the last after image of each page is writing them all in order. *)
Lemma put_after_touches t m : foldl put_after m (touches_of t) = redo m t.(tx_writes).
Proof.
  unfold touches_of.
  assert (∀ ws T, keyed (tx_no t) T →
    foldl put_after m (foldl (add_touch (tx_no t)) T ws) = redo (foldl put_after m T) ws) as Hg.
  { intros ws. induction ws as [|[[p b] a] ws IH]; intros T HT; simpl; [done|].
    rewrite IH by by apply add_touch_keyed. by rewrite (put_after_add (tx_no t) T m (p, b, a) HT). }
  apply Hg. split; constructor.
Qed.

Lemma classify_committed S t acc :
  S !! t.(tx_no) = Some COMMITTED →
  foldl (classify S) acc (touches_of t) = (redo acc.1 t.(tx_writes), acc.2).
Proof.
  intros HS. rewrite <-put_after_touches. pose proof (touches_keyed t) as [_ HF].
  revert acc. induction HF as [|[[k q] e] T Hk _ IH]; intros [ca ub]; [done|].
  simpl in Hk. subst k.
  assert (classify S (ca, ub) (tx_no t, q, e) = (<[q := e.(pt_after)]> ca, ub)) as Hc
    by (unfold classify; by rewrite HS).
  cbn [foldl]. rewrite Hc, IH. done.
Qed.

(** A transaction that wrote each page once *)
Lemma touches_once t :
  NoDup (pids t.(tx_writes)) →
  touches_of t = map (λ i, (t.(tx_no), i.1.1, touch_of t.(tx_no) i)) t.(tx_writes).
Proof.
  unfold touches_of. intros Hnd.
  assert (∀ ws T, NoDup (pids ws) → (∀ i, i ∈ ws → (tx_no t, i.1.1) ∉ map fst T) →
    foldl (add_touch (tx_no t)) T ws = T ++ map (λ i, (tx_no t, i.1.1, touch_of (tx_no t) i)) ws) as Hg.
  { intros ws. induction ws as [|w ws IH]; intros T Hn HT; simpl; [by rewrite app_nil_r|].
    unfold pids in Hn. simpl in Hn. apply NoDup_cons in Hn as [Hw Hn].
    assert (add_touch (tx_no t) T w = T ++ [(tx_no t, w.1.1, touch_of (tx_no t) w)]) as ->.
    { unfold add_touch. rewrite <-(app_nil_r T) at 1. rewrite dict_set_notin by (apply HT; by left). done. }
    rewrite IH; [by rewrite <-app_assoc|done|].
    intros i Hi. rewrite map_app, elem_of_app. simpl. rewrite list_elem_of_singleton.
    intros [Hk|[= Hk]]; [apply (HT i); [by right|done]|].
    apply Hw. rewrite <-Hk. apply list_elem_of_fmap. by exists i. }
  rewrite Hg; [done|done|]. intros i _. apply not_elem_of_nil.
Qed.

(** The before images an uncommitted transaction adds *)
Definition add_before (ub : gmap Z bytes) (i : image) : gmap Z bytes :=
  match ub !! i.1.1 with Some _ => ub | None => <[i.1.1 := i.1.2]> ub end.

Lemma classify_uncommitted S t acc :
  S !! t.(tx_no) = Some (status_of t) → tx_committed t = false → 0 < t.(tx_no) →
  NoDup (pids t.(tx_writes)) →
  foldl (classify S) acc (touches_of t) = (acc.1, foldl add_before acc.2 t.(tx_writes)).
Proof.
  intros HS Hc Hn Hnd. rewrite touches_once by done. clear Hnd. revert acc.
  induction (tx_writes t) as [|w ws IH]; intros [ca ub]; simpl; [done|].
  rewrite HS. simpl.
  assert (bool_decide (status_of t = COMMITTED) || (tx_no t =? 0) = false) as ->.
  { apply orb_false_iff. split; [|apply Z.eqb_neq; lia]. apply bool_decide_eq_false.
    unfold status_of, tx_committed in *. by destruct (tx_end t) as [[]|]. }
  by rewrite IH.
Qed.

(** ** The invariant of the images, transaction by transaction *)

Definition touched (h : list txn) : list Z := mjoin (map (λ t, pids t.(tx_writes)) h).

(** [m0] are the pages before the history, [s] those after the part of it that
    touched the pages [seen]. *)
Record sound (m0 s ca ub : gmap Z bytes) (seen : list Z) : Prop := {
  sd_after x a : ca !! x = Some a → s !! x = Some a ∧ x ∈ seen ∧ zlen a = PAGE_SIZE;
  sd_same x : ca !! x = None → s !! x = m0 !! x;
  sd_before x b : ub !! x = Some b → x ∈ seen ∧ zlen b = PAGE_SIZE ∧
                                     (ca !! x = None → m0 !! x = Some b);
  sd_seen x : x ∈ seen → is_Some (ca !! x) ∨ is_Some (ub !! x);
}.

Lemma redo_in x ws : x ∈ pids ws → ∃ i, i ∈ ws ∧ ∀ m, redo m ws !! x = Some i.2.
Proof.
  induction ws as [|[[p b] a] ws IH]; simpl; [by intros ?%elem_of_nil|].
  destruct (decide (x ∈ pids ws)) as [Hin|Hn].
  - intros _. destruct (IH Hin) as (i & Hi & Hm). exists i. split; [by right|]. intros m. apply Hm.
  - rewrite elem_of_cons. intros [->|]; [|done]. exists (p, b, a). split; [by left|]. intros m.
    rewrite redo_other by done. simpl. by rewrite lookup_insert_eq.
Qed.

Lemma add_before_lookup s ws ub x :
  NoDup (pids ws) → consistent s ws →
  foldl add_before ub ws !! x =
  match ub !! x with Some b => Some b | None => if decide (x ∈ pids ws) then s !! x else None end.
Proof.
  revert s ub. induction ws as [|[[p b] a] ws IH]; intros s ub.
  - intros _ _. simpl. by destruct (ub !! x).
  - cbn [foldl pids map consistent fst]. fold (pids ws). intros [Hp Hn]%NoDup_cons [Hb Hc]. rewrite (IH (<[p := a]> s)) by done.
    unfold add_before. cbn [fst snd]. destruct (ub !! p) as [b'|] eqn:Eu.
    + destruct (ub !! x) as [|] eqn:Ex; [done|]. assert (x ≠ p) by congruence.
      rewrite lookup_insert_ne by done. repeat case_decide; try done; rewrite elem_of_cons in *; naive_solver.
    + destruct (decide (x = p)) as [->|Hne].
      * rewrite lookup_insert_eq, Eu. rewrite decide_True by by left. done.
      * rewrite !lookup_insert_ne by done. destruct (ub !! x); [done|].
        repeat case_decide; try done; rewrite elem_of_cons in *; naive_solver.
Qed.

Lemma consistent_size s ws x :
  consistent s ws → NoDup (pids ws) → Forall image_ok ws → x ∈ pids ws →
  ∃ b, s !! x = Some b ∧ zlen b = PAGE_SIZE.
Proof.
  revert s. induction ws as [|[[p b] a] ws IH]; intros s; simpl; [by intros _ _ _ ?%elem_of_nil|].
  intros [Hb Hc] [Hp Hn]%NoDup_cons [(_ & Hz & _) Hok]%Forall_cons. rewrite elem_of_cons.
  intros [->|Hx]; [by exists b|]. destruct (IH _ Hc Hn Hok Hx) as (b' & Hb' & ?).
  rewrite lookup_insert_ne in Hb' by congruence. by exists b'.
Qed.

Lemma sound_step m0 s ca ub seen t S :
  sound m0 s ca ub seen → tx_ok t → S !! t.(tx_no) = Some (status_of t) →
  consistent s t.(tx_writes) → (tx_committed t = false → NoDup (pids t.(tx_writes))) →
  let acc := foldl (classify S) (ca, ub) (touches_of t) in
  sound m0 (after_tx s t) acc.1 acc.2 (seen ++ pids t.(tx_writes)).
Proof.
  intros Hs [Hn Hws] HS Hc Hnd acc. subst acc. unfold after_tx.
  assert (∀ i, i ∈ tx_writes t → zlen i.2 = PAGE_SIZE) as Hsz.
  { intros i Hi. rewrite Forall_forall in Hws. by apply Hws. }
  destruct (tx_committed t) eqn:Ec.
  - rewrite classify_committed by (rewrite HS; unfold status_of, tx_committed in *; by destruct (tx_end t) as [[]|]).
    cbn [fst snd].
    assert (∀ x, x ∈ pids (tx_writes t) ∨ (x ∉ pids (tx_writes t) ∧
      redo ca (tx_writes t) !! x = ca !! x ∧ redo s (tx_writes t) !! x = s !! x)) as Hcase.
    { intros x. destruct (decide (x ∈ pids (tx_writes t))); [by left|right]. by rewrite !redo_other. }
    constructor; intros x; rewrite ?elem_of_app.
    + intros a Ha. rewrite elem_of_app. destruct (Hcase x) as [Hin|(Hn' & E1 & E2)].
      * destruct (redo_in x _ Hin) as (i & Hi & Hm). rewrite Hm in Ha. rewrite Hm. injection Ha as <-. auto.
      * rewrite E1 in Ha. rewrite E2. destruct (sd_after _ _ _ _ _ Hs x a Ha) as (?&?&?). auto.
    + intros Ha. destruct (Hcase x) as [Hin|(Hn' & E1 & E2)].
      * destruct (redo_in x _ Hin) as (i & Hi & Hm). by rewrite Hm in Ha.
      * rewrite E1 in Ha. rewrite E2. by apply (sd_same _ _ _ _ _ Hs).
    + intros b Hb. rewrite elem_of_app. destruct (sd_before _ _ _ _ _ Hs x b Hb) as (?&?&Hm0). split_and!; auto.
      intros Ha. destruct (Hcase x) as [Hin|(Hn' & E1 & E2)].
      * destruct (redo_in x _ Hin) as (i & Hi & Hm). by rewrite Hm in Ha.
      * rewrite E1 in Ha. by apply Hm0.
    + intros Hin. destruct (Hcase x) as [Hin'|(Hn' & E1 & E2)].
      * destruct (redo_in x _ Hin') as (i & Hi & Hm). left. by rewrite Hm.
      * rewrite E1. destruct Hin; [|done]. by apply (sd_seen _ _ _ _ _ Hs).
  - rewrite classify_uncommitted by (auto; lia). cbn [fst snd]. specialize (Hnd eq_refl).
    pose proof (λ x, add_before_lookup s (tx_writes t) ub x Hnd Hc) as Hub.
    constructor; intros x; rewrite ?elem_of_app.
    + intros a Ha. rewrite elem_of_app. destruct (sd_after _ _ _ _ _ Hs x a Ha) as (?&?&?). auto.
    + apply (sd_same _ _ _ _ _ Hs).
    + intros b. rewrite Hub, elem_of_app. destruct (ub !! x) as [b'|] eqn:Eu.
      * intros [= <-]. destruct (sd_before _ _ _ _ _ Hs x b' Eu) as (?&?&?). auto.
      * case_decide as Hin; [|done]. intros Hb. destruct (consistent_size s _ x Hc Hnd Hws Hin) as (b'&Hb'&Hz).
        assert (b' = b) as -> by congruence. split_and!; auto. intros Ha.
        by rewrite <-(sd_same _ _ _ _ _ Hs x Ha).
    + rewrite Hub. intros [Hin|Hin].
      * destruct (sd_seen _ _ _ _ _ Hs x Hin) as [?|[b Hb]]; [by left|right; by rewrite Hb].
      * right. destruct (ub !! x); [done|]. rewrite decide_True by done.
        destruct (consistent_size s _ x Hc Hnd Hws Hin) as (b' & -> & _). done.
Qed.

Lemma sound_history m0 s ca ub seen h S :
  sound m0 s ca ub seen → Forall tx_ok h → (∀ t, t ∈ h → S !! t.(tx_no) = Some (status_of t)) →
  serial s h →
  let acc := foldl (classify S) (ca, ub) (mjoin (map touches_of h)) in
  sound m0 (final s h) acc.1 acc.2 (seen ++ touched h).
Proof.
  revert s ca ub seen. induction h as [|t h IH]; intros s ca ub seen Hs Hok HS Hser.
  - unfold touched. simpl. by rewrite app_nil_r.
  - apply Forall_cons in Hok as [Ht Hok]. destruct Hser as (Hc & Hnd & Hser).
    change (mjoin (map touches_of (t :: h))) with (touches_of t ++ mjoin (map touches_of h)).
    rewrite foldl_app. change (touched (t :: h)) with (pids (tx_writes t) ++ touched h).
    rewrite app_assoc. change (final s (t :: h)) with (final (after_tx s t) h).
    pose proof (sound_step m0 s ca ub seen t S Hs Ht (HS t ltac:(by left)) Hc Hnd) as Hs1.
    cbv zeta in Hs1. destruct (foldl (classify S) (ca, ub) (touches_of t)) as [ca1 ub1].
    apply IH; try done. intros t' Ht'. apply HS. by right.
Qed.

Lemma states_of_in h m t :
  NoDup (map tx_no h) → t ∈ h → states_of h m !! t.(tx_no) = Some (status_of t).
Proof.
  revert m. induction h as [|t' h IH]; intros m; [by intros _ ?%elem_of_nil|].
  intros [Hn Hnd]%NoDup_cons. rewrite elem_of_cons. intros [->|Hin].
  - change (states_of (t' :: h) m) with (states_of h (<[tx_no t' := status_of t']> m)).
    rewrite states_of_lookup by done. by rewrite lookup_insert_eq.
  - by apply IH.
Qed.
Lemma txs_in_spec s m n : n ∈ txs_in s m ↔ m !! n = Some s.
Proof.
  unfold txs_in. rewrite merge_sort_Permutation, list_elem_of_fmap. split.
  - intros ([n' s'] & -> & [Hs Hin]%list_elem_of_filter). simpl in Hs. subst.
    by apply elem_of_map_to_list in Hin.
  - intros Hm. exists (n, s). split; [done|]. apply list_elem_of_filter. split; [done|].
    by apply elem_of_map_to_list.
Qed.
Lemma from_lsn_all es : from_lsn (Z.max 1 1) (records_of 1 es) = records_of 1 es.
Proof.
  unfold from_lsn. change (Z.max 1 1) with 1.
  assert (Forall (λ r, 1 <= r.(wr_lsn)) (records_of 1 es)) as Hall.
  { apply Forall_forall. intros r Hr. apply records_lsn in Hr. lia. }
  induction Hall as [|r rs Hr _ IH]; [done|]. by rewrite filter_cons_True, IH.
Qed.

Lemma sound_nil m0 : sound m0 m0 ∅ ∅ [].
Proof. split; intros x; rewrite ?lookup_empty; try done. by intros ?%elem_of_nil. Qed.

(** What the analysis of the log of a serial history finds *)
Lemma history_analysed wal t h m0 (m : gmap Z bytes) :
  wal_holds wal (history_entries h) t → Forall tx_ok h → NoDup (map tx_no h) → serial m0 h →
  (∀ x, x ∈ touched h → is_Some (m !! x)) →
  ∃ st, iter_from 1 wal = (records_of 1 (history_entries h), None) ∧
    analyse_all (mkAnalysis 0 0 [] ∅) (records_of 1 (history_entries h)) = Ok st ∧
    an_tx_state st = states_of h ∅ ∧
    sound m0 (final m0 h) (images st).1 (images st).2 (touched h) ∧
    map_Forall (λ x d, is_Some (m !! x) ∧ zlen d = PAGE_SIZE) (images st).1 ∧
    map_Forall (λ x d, is_Some (m !! x) ∧ zlen d = PAGE_SIZE) (images st).2.
Proof.
  intros Hwal Hok Hnd Hser Hin.
  pose proof (iter_from_ok wal _ t 1 Hwal) as Hi. rewrite from_lsn_all in Hi.
  destruct (analyse_history h (mkAnalysis 0 0 [] ∅) Hok Hnd) as (st & Ha & Ht & Hs).
  { intros t' _. split; [apply lookup_empty|]. by intros k ?%elem_of_nil. }
  cbn [an_page_touches an_tx_state app] in Ht, Hs.
  pose proof (sound_history m0 m0 ∅ ∅ [] h (an_tx_state st) (sound_nil m0) Hok) as Hsd.
  cbv zeta in Hsd. rewrite <-Ht in Hsd. fold (images st) in Hsd.
  specialize (Hsd ltac:(intros t' Ht'; rewrite Hs; by apply states_of_in) Hser).
  exists st. split; [exact Hi|]. split; [by rewrite analyse_records|]. split; [exact Hs|]. split; [exact Hsd|].
  split.
  - intros x d Hd. destruct (sd_after _ _ _ _ _ Hsd x d Hd) as (_ & Hseen & ?). split; [by apply Hin|done].
  - intros x d Hd. destruct (sd_before _ _ _ _ _ Hsd x d Hd) as (Hseen & ? & _). split; [by apply Hin|done].
Qed.

Section SerialSpec.
Context {P : Type} {stores : P → gmap Z bytes → Prop} `{PagerLaws P stores}.

(** Replay of the log of a serial history *)
Lemma replay_history wal t h m0 m p :
  wal_holds wal (history_entries h) t → Forall tx_ok h → NoDup (map tx_no h) → serial m0 h →
  stores p m → (∀ x, x ∈ touched h → is_Some (m !! x)) → (∀ x, x ∉ touched h → m !! x = m0 !! x) →
  ∃ s p', replay wal p = (Ok s, p') ∧ stores p' (final m0 h) ∧
    (∀ n, n ∈ s.(s_committed) ↔ ∃ t, t ∈ h ∧ tx_no t = n ∧ tx_committed t = true).
Proof.
  intros Hwal Hok Hnd Hser Hst Hin Hout.
  destruct (history_analysed wal t h m0 m Hwal Hok Hnd Hser Hin) as (st & Hi & Ha & Hs & Hsd & Hca & Hub).
  destruct (replay_ok wal p m _ st Hst Hi Ha Hca Hub) as (p' & m' & Hx & Hs' & Hm').
  exists (stats_of st), p'. split; [done|].
  assert (m' = final m0 h) as <-.
  { apply map_eq. intros x. rewrite Hm'. unfold replayed.
    destruct ((images st).1 !! x) as [a|] eqn:Ea.
    - destruct (sd_after _ _ _ _ _ Hsd x a Ea) as (? & _). congruence.
    - rewrite (sd_same _ _ _ _ _ Hsd x Ea). destruct ((images st).2 !! x) as [b|] eqn:Eb.
      + destruct (sd_before _ _ _ _ _ Hsd x b Eb) as (_ & _ & Hb). symmetry. auto.
      + apply Hout. intros Hin_t. destruct (sd_seen _ _ _ _ _ Hsd x Hin_t) as [[? ?]|[? ?]]; congruence. }
  split; [done|]. intros n. unfold stats_of. destruct (images st) as [ca ub]. cbn [s_committed].
  rewrite txs_in_spec, Hs. split.
  - intros Hn. destruct (decide (n ∈ map tx_no h)) as [Hnin|Hnin].
    + apply list_elem_of_fmap in Hnin as (t' & -> & Ht'). exists t'. split; [done|]. split; [done|].
      rewrite states_of_in in Hn by done. unfold status_of, tx_committed in *.
      by destruct (tx_end t') as [[]|].
    + by rewrite states_of_lookup in Hn.
  - intros (t' & Ht' & <- & Hc). rewrite states_of_in by done. f_equal.
    unfold status_of, tx_committed in *. by destruct (tx_end t') as [[]|].
Qed.

End SerialSpec.

(** * Concrete runs, over the reserved pages of a fresh database *)

Definition pageA : bytes := zreplicate PAGE_SIZE xaa.
Definition pageB : bytes := zreplicate PAGE_SIZE xbb.
Definition pageC : bytes := zreplicate PAGE_SIZE xcc.

Lemma zlen_pages : zlen pageA = PAGE_SIZE ∧ zlen pageB = PAGE_SIZE ∧ zlen pageC = PAGE_SIZE.
Proof. split_and!; by apply zlen_replicate. Qed.

(** Transaction 1 commits page 1; 2 rolls back page 2; 3 crashes on page 1 *)
Definition demo_history : list txn :=
  [ mkTxn 1 [(1, zero_page, pageA); (1, pageA, pageB)] (Some true);
    mkTxn 2 [(2, zero_page, pageC)] (Some false);
    mkTxn 3 [(1, pageB, pageC)] None ].

Lemma demo_history_ok : Forall tx_ok demo_history.
Proof.
  destruct zlen_pages as (HA & HB & HC). pose proof zlen_zero_page as H0.
  unfold demo_history. repeat constructor; cbn [tx_no tx_writes fst snd]; try done; lia.
Qed.
Lemma demo_serial : serial demo_pages demo_history.
Proof.
  unfold demo_history. cbn [serial]. unfold after_tx, tx_committed. cbn [tx_end tx_writes consistent redo].
  unfold demo_pages. split_and!; try done; intros; apply NoDup_singleton.
Qed.
Lemma demo_history_log_ok : log_ok 1 (history_entries demo_history).
Proof. apply history_log_ok; [apply demo_history_ok|]. vm_compute. discriminate. Qed.

Definition history_wal (h : list txn) : WAL := open_wal (frames_of 1 (history_entries h) ++ []).
Lemma history_wal_holds h :
  log_ok 1 (history_entries h) → wal_holds (history_wal h) (history_entries h) [].
Proof. intros. by apply open_wal_ok; [|exact torn_nil]. Qed.

Lemma page_record_roundtrip_witness :
  ∃ payload, _encode_page_record 7 1 pageA pageB = Ok payload ∧
    _decode_page_record payload = Ok (mkTouch 7 1 pageA pageB) ∧ zlen payload = 8212.
Proof.
  destruct zlen_pages as (HA & HB & _).
  assert (_encode_page_record 7 1 pageA pageB = Ok (page_payload 7 (1, pageA, pageB))) as He.
  { apply (encode_page_record_ok 7 (1, pageA, pageB)); [done|]. split; [done|]. by split. }
  eexists. split; [exact He|]. exact (proj1 (page_record_roundtrip 7 1 pageA pageB _) He).
Defined.

Lemma demo_history_nodup : NoDup (map tx_no demo_history).
Proof. unfold demo_history. cbn [map tx_no]. apply (bool_decide_unpack _). vm_compute. exact I. Qed.
Lemma demo_history_pages x : x ∈ touched demo_history → is_Some (demo_pages !! x).
Proof.
  intros Hx. unfold touched, demo_history in Hx.
  cbn [map mjoin list_join tx_writes pids app fst] in Hx.
  rewrite !elem_of_cons, elem_of_nil in Hx.
  destruct Hx as [->|[->|[->|[->|[]]]]]; by eexists.
Qed.

Lemma replay_idempotent_witness :
  ∃ s p1 m1 p2, replay (history_wal demo_history) fresh_pager = (Ok s, p1) ∧ pager_stores p1 m1 ∧
    replay (history_wal demo_history) p1 = (Ok s, p2) ∧ pager_stores p2 m1.
Proof.
  destruct (history_analysed (history_wal demo_history) [] demo_history demo_pages demo_pages
              (history_wal_holds _ demo_history_log_ok) demo_history_ok demo_history_nodup
              demo_serial demo_history_pages) as (st & Hi & Ha & _ & _ & Hca & Hub).
  exact (replay_idempotent (stores := pager_stores) _ fresh_pager demo_pages _ st demo_stores Hi Ha Hca Hub).
Defined.


(** ** What replay does outside serial histories *)

(** The images replay would write for a list of log entries *)
Definition images_of (es : list entry) : result (gmap Z bytes * gmap Z bytes) :=
  st ← analyse_entries (mkAnalysis 0 0 [] ∅) es; Ok (images st).

(** A transaction that crashed after writing a page twice: the later touch
    replaced the earlier one, so UNDO restores the image of the middle
    ([pageA]), not the one before the transaction ([zero_page]). *)
Example undo_restores_intermediate_image :
  images_of (tx_entries (mkTxn 1 [(1, zero_page, pageA); (1, pageA, pageB)] None)) = Ok (∅, {[1 := pageA]}).
Proof. vm_compute. reflexivity. Qed.

(** A transaction that ended with a ROLLBACK record is undone like a crashed
    one: its before image is written over whatever the page holds now. *)
Example rolled_back_is_undone_again :
  images_of (tx_entries (mkTxn 1 [(1, zero_page, pageA)] (Some false))) = Ok (∅, {[1 := zero_page]}).
Proof. vm_compute. reflexivity. Qed.

(** Transaction ids start at 1 again in each process: a later transaction 1
    that commits makes the crashed transaction 1 count as committed. *)
Example reused_tx_id_commits_crashed_writes :
  images_of (tx_entries (mkTxn 1 [(1, zero_page, pageA)] None) ++
             tx_entries (mkTxn 1 [(2, zero_page, pageB)] (Some true))) =
  Ok ({[1 := pageA; 2 := pageB]}, ∅).
Proof. vm_compute. reflexivity. Qed.

(** The page writes outside transactions share the id 0, whose touch of a page
    keeps its place in the dict: a transaction that committed before the last
    of them still wins. *)
Example autocommit_write_loses_to_earlier_commit :
  images_of ([(RT_PAGE, page_payload 0 (1, zero_page, pageA))] ++
             tx_entries (mkTxn 1 [(1, pageA, pageB)] (Some true)) ++
             [(RT_PAGE, page_payload 0 (1, pageB, pageC))]) = Ok ({[1 := pageB]}, ∅).
Proof. vm_compute. reflexivity. Qed.
