(* ===== verification/Lock.v ===== *)
(** Components [concurrent/rwlock.py] and [tx/lock.py]: the reader/writer lock
    as a system of threads, and the reentrant write lock over it. *)
From S2P Require Import Prelude.
From stdpp Require Import gmap fin_maps.
From Stdlib Require Import ZArith Lia.
Local Open Scope Z_scope.

(** * RWLock: the critical sections under its condition *)

Record RWLock := mkRW {
  rw_readers : Z;
  rw_writer : option Z;
  rw_writers_waiting : Z;
  rw_prefer_writer : bool;
}.
Definition new_rwlock (prefer_writer : bool) : RWLock := mkRW 0 None 0 prefer_writer.

Definition is_writer_held (l : RWLock) : bool := bool_decide (is_Some l.(rw_writer)).

(** The conditions of the two [while] loops *)
Definition read_blocked (l : RWLock) : bool :=
  is_writer_held l || (l.(rw_prefer_writer) && (0 <? l.(rw_writers_waiting))).
Definition write_blocked (l : RWLock) : bool := (0 <? l.(rw_readers)) || is_writer_held l.

(** One round of the loop of [acquire_read]: [false] when it waits *)
Definition try_read : M RWLock bool :=
  l ← get;
  if read_blocked l then mret false else
  put (mkRW (l.(rw_readers) + 1) l.(rw_writer) l.(rw_writers_waiting) l.(rw_prefer_writer));;
  mret true.

(** [acquire_write] counts the thread before its loop, and no more when it
    leaves (the [finally]) *)
Definition count_waiting (n : Z) : M RWLock unit :=
  modify (λ l, mkRW l.(rw_readers) l.(rw_writer) (l.(rw_writers_waiting) + n) l.(rw_prefer_writer)).
Definition try_write (me : Z) : M RWLock bool :=
  l ← get;
  if write_blocked l then mret false else
  put (mkRW l.(rw_readers) (Some me) l.(rw_writers_waiting) l.(rw_prefer_writer));;
  count_waiting (-1);;
  mret true.

(** The releases: whether the waiting threads are notified *)
Definition release_read : M RWLock bool :=
  l ← get;
  assert (negb ((l.(rw_readers) <=? 0) || is_writer_held l)) RuntimeError;;
  let readers := l.(rw_readers) - 1 in
  put (mkRW readers l.(rw_writer) l.(rw_writers_waiting) l.(rw_prefer_writer));;
  mret (readers =? 0).
Definition release_write (me : Z) : M RWLock bool :=
  l ← get;
  assert (bool_decide (l.(rw_writer) = Some me)) RuntimeError;;
  put (mkRW l.(rw_readers) None l.(rw_writers_waiting) l.(rw_prefer_writer));;
  mret true.

(** * Threads *)

(** A thread that is not in the map is outside of the lock.  A waiting thread
    is awake when it was notified (or its wait ended otherwise) and has yet to
    look at the condition of its loop again. *)
Inductive phase := ReadWait (awake : bool) | Reading | WriteWait (awake : bool) | Writing.
Global Instance phase_eq_dec : EqDecision phase.
Proof. solve_decision. Defined.

Record Sys := mkSys { sy_lock : RWLock; sy_threads : gmap Z phase }.

Definition wake (p : phase) : phase :=
  match p with ReadWait _ => ReadWait true | WriteWait _ => WriteWait true | p => p end.
Definition notify (b : bool) (ts : gmap Z phase) : gmap Z phase := if b then wake <$> ts else ts.

Inductive event :=
  | StartRead (t : Z)      (* calls [acquire_read] *)
  | StartWrite (t : Z)     (* calls [acquire_write] *)
  | WakeUp (t : Z)         (* [wait] returns without a notification: its timeout, or spuriously *)
  | Retry (t : Z)          (* awake: the next round of the loop *)
  | GiveUp (t : Z)         (* awake, still blocked, and the deadline has passed *)
  | ReleaseRead (t : Z)    (* a reader calls [release_read] *)
  | ReleaseWrite (t : Z).  (* any thread calls [release_write] *)

(** The phase of the thread after a round of a loop *)
Definition after_try (t : Z) (won lost : phase) (r : result bool * RWLock) (ts : gmap Z phase) : option Sys :=
  match r with
  | (Ok b, l) => Some (mkSys l (<[t := if b : bool then won else lost]> ts))
  | (Err _, _) => None
  end.

Definition sys_step (e : event) (s : Sys) : option Sys :=
  let l := s.(sy_lock) in
  let ts := s.(sy_threads) in
  match e with
  | StartRead t =>
      match ts !! t with
      | None => after_try t Reading (ReadWait false) (try_read l) ts
      | _ => None
      end
  | StartWrite t =>
      match ts !! t with
      | None => after_try t Writing (WriteWait false) ((count_waiting 1;; try_write t) l) ts
      | _ => None
      end
  | WakeUp t =>
      match ts !! t with
      | Some (ReadWait _ | WriteWait _) => Some (mkSys l (alter wake t ts))
      | _ => None
      end
  | Retry t =>
      match ts !! t with
      | Some (ReadWait true) => after_try t Reading (ReadWait false) (try_read l) ts
      | Some (WriteWait true) => after_try t Writing (WriteWait false) (try_write t l) ts
      | _ => None
      end
  | GiveUp t =>
      match ts !! t with
      | Some (ReadWait true) => if read_blocked l then Some (mkSys l (delete t ts)) else None
      | Some (WriteWait true) =>
          if write_blocked l then Some (mkSys (count_waiting (-1) l).2 (delete t ts)) else None
      | _ => None
      end
  | ReleaseRead t =>
      match ts !! t, release_read l with
      | Some Reading, (Ok b, l') => Some (mkSys l' (notify b (delete t ts)))
      | _, _ => None
      end
  | ReleaseWrite t =>
      match release_write t l with
      | (Ok b, l') => Some (mkSys l' (notify b (delete t ts)))
      | (Err _, _) => Some s (* RuntimeError, nothing changed *)
      end
  end.

Definition step (s s' : Sys) : Prop := ∃ e, sys_step e s = Some s'.
Definition start (prefer_writer : bool) : Sys := mkSys (new_rwlock prefer_writer) ∅.
Definition reachable (s : Sys) : Prop := ∃ b, rtc step (start b) s.

Fixpoint run_events (es : list event) (s : Sys) : option Sys :=
  match es with [] => Some s | e :: es => s ← sys_step e s; run_events es s end.

(** * Counting threads *)

Definition count (f : phase → bool) (ts : gmap Z phase) : Z :=
  map_fold (λ _ p n, if f p then n + 1 else n) 0 ts.

Lemma count_insert f ts t p :
  ts !! t = None → count f (<[t := p]> ts) = (if f p then 1 else 0) + count f ts.
Proof.
  intros Hn. unfold count. rewrite map_fold_insert_L; [destruct (f p); lia| |done].
  intros. by destruct (f z1), (f z2).
Qed.
Lemma count_delete f ts t p :
  ts !! t = Some p → count f (delete t ts) = count f ts - (if f p then 1 else 0).
Proof.
  intros Hp. rewrite <-(insert_delete_id ts t p Hp) at 2.
  rewrite count_insert by apply lookup_delete_eq. destruct (f p); lia.
Qed.
Lemma count_replace f ts t p q :
  ts !! t = Some p →
  count f (<[t := q]> ts) = count f ts - (if f p then 1 else 0) + (if f q then 1 else 0).
Proof.
  intros Hp. rewrite <-insert_delete_eq, count_insert by apply lookup_delete_eq.
  rewrite (count_delete f ts t p Hp). destruct (f p), (f q); lia.
Qed.
Lemma count_nonneg f ts : 0 <= count f ts.
Proof.
  unfold count. apply (map_fold_weak_ind (λ n _, 0 <= n)); [lia|].
  intros. destruct (f x); lia.
Qed.
Lemma count_pos f ts : 0 < count f ts ↔ ∃ t p, ts !! t = Some p ∧ f p = true.
Proof.
  induction ts as [|t p ts Hn IH] using map_ind.
  - split; [done|]. by intros (t & p & Hp & _).
  - rewrite count_insert by done. pose proof (count_nonneg f ts). split.
    + destruct (f p) eqn:Hf.
      * intros _. exists t, p. by rewrite lookup_insert_eq.
      * rewrite Z.add_0_l. intros (t' & p' & Hp & Hf')%IH. exists t', p'. split; [|done].
        rewrite lookup_insert_ne by congruence. done.
    + intros (t' & p' & Hp & Hf). apply lookup_insert_Some in Hp as [[-> ->]|[Hne Hp]].
      * rewrite Hf. lia.
      * assert (0 < count f ts) by (apply IH; eauto). destruct (f p); lia.
Qed.
Lemma count_wake f ts : (∀ p, f (wake p) = f p) → count f (wake <$> ts) = count f ts.
Proof.
  intros Hf. induction ts as [|t p ts Hn IH] using map_ind; [by rewrite fmap_empty|].
  rewrite fmap_insert, !count_insert, Hf, IH by (rewrite ?lookup_fmap, ?Hn; done). done.
Qed.

Definition is_reading (p : phase) : bool := match p with Reading => true | _ => false end.
Definition is_write_wait (p : phase) : bool := match p with WriteWait _ => true | _ => false end.

(** * The invariant *)

Record lock_ok (s : Sys) : Prop := {
  lk_readers : s.(sy_lock).(rw_readers) = count is_reading s.(sy_threads);
  lk_waiting : s.(sy_lock).(rw_writers_waiting) = count is_write_wait s.(sy_threads);
  lk_writer t : s.(sy_lock).(rw_writer) = Some t ↔ s.(sy_threads) !! t = Some Writing;
  lk_exclusive : is_Some s.(sy_lock).(rw_writer) → s.(sy_lock).(rw_readers) = 0;
  (* when nobody is inside, every waiting writer is awake, and a reader sleeps
     only when there is one *)
  lk_awake : write_blocked s.(sy_lock) = false →
    (∀ t, s.(sy_threads) !! t ≠ Some (WriteWait false)) ∧
    (∀ t, s.(sy_threads) !! t = Some (ReadWait false) → 0 < s.(sy_lock).(rw_writers_waiting));
}.

Lemma start_ok b : lock_ok (start b).
Proof. by split. Qed.

Lemma writer_held l : is_writer_held l = true ↔ is_Some l.(rw_writer).
Proof. apply bool_decide_eq_true. Qed.
Lemma writer_free l : is_writer_held l = false ↔ l.(rw_writer) = None.
Proof. unfold is_writer_held. rewrite bool_decide_eq_false. destruct (rw_writer l); split; try done.
  intros H. destruct H. by eexists. Qed.
Lemma write_free l : write_blocked l = false ↔ l.(rw_readers) <= 0 ∧ l.(rw_writer) = None.
Proof. unfold write_blocked. by rewrite orb_false_iff, Z.ltb_ge, writer_free. Qed.

(** The phase of one thread changes from [o] to [n] (absent: [None]) while the
    counters follow. *)
Definition weight (f : phase → bool) (o : option phase) : Z :=
  match o with Some p => if f p then 1 else 0 | None => 0 end.
Definition set_phase (t : Z) (n : option phase) (ts : gmap Z phase) : gmap Z phase :=
  match n with Some p => <[t := p]> ts | None => delete t ts end.

Lemma count_set f ts t n : count f (set_phase t n ts) = count f ts - weight f (ts !! t) + weight f n.
Proof.
  destruct n as [p|], (ts !! t) as [q|] eqn:Hq; simpl.
  - by rewrite (count_replace f ts t q p Hq).
  - rewrite count_insert by done. lia.
  - rewrite (count_delete f ts t q Hq). lia.
  - rewrite delete_id by done. lia.
Qed.
Lemma lookup_set_phase t n ts t' : set_phase t n ts !! t' = if decide (t = t') then n else ts !! t'.
Proof.
  destruct n; simpl; case_decide as Ht; subst;
    rewrite ?lookup_insert_eq, ?lookup_insert_ne, ?lookup_delete_eq, ?lookup_delete_ne; done.
Qed.

Lemma set_phase_ok s t n l :
  lock_ok s →
  l.(rw_readers) = s.(sy_lock).(rw_readers) - weight is_reading (s.(sy_threads) !! t) + weight is_reading n →
  l.(rw_writers_waiting) = s.(sy_lock).(rw_writers_waiting)
    - weight is_write_wait (s.(sy_threads) !! t) + weight is_write_wait n →
  (l.(rw_writer) = s.(sy_lock).(rw_writer) ∧ n ≠ Some Writing ∧ s.(sy_threads) !! t ≠ Some Writing ∨
   l.(rw_writer) = Some t ∧ n = Some Writing ∧ s.(sy_lock).(rw_writer) = None) →
  (is_Some l.(rw_writer) → l.(rw_readers) = 0) →
  (write_blocked l = false → write_blocked s.(sy_lock) = false ∧
     n ≠ Some (WriteWait false) ∧
     (l.(rw_writers_waiting) = s.(sy_lock).(rw_writers_waiting) ∨ 0 < l.(rw_writers_waiting)) ∧
     (n = Some (ReadWait false) → 0 < l.(rw_writers_waiting))) →
  lock_ok (mkSys l (set_phase t n s.(sy_threads))).
Proof.
  intros [Hr Hw Hwr Hex Haw] Hr' Hw' Hwr' Hex' Haw'. split; cbn [sy_lock sy_threads].
  - rewrite count_set. lia.
  - rewrite count_set. lia.
  - intros t'. rewrite lookup_set_phase. destruct Hwr' as [(-> & Hn & Ht)|(-> & -> & Hnone)].
    + rewrite Hwr. case_decide; subst; naive_solver.
    + case_decide; subst; [naive_solver|]. rewrite <-Hwr, Hnone. naive_solver.
  - done.
  - intros Hb. destruct (Haw' Hb) as (Hb0 & Hn & Hwn & Hn'). destruct (Haw Hb0) as [H1 H2].
    split; intros t'; rewrite lookup_set_phase; case_decide; subst; auto.
    intros Ht'. pose proof (H2 t' Ht'). lia.
Qed.

(** Everybody is woken up when the last reader or the writer leaves. *)
Lemma notify_ok s t l :
  lock_ok s → s.(sy_threads) !! t = Some Reading ∨ s.(sy_threads) !! t = Some Writing →
  l.(rw_readers) = s.(sy_lock).(rw_readers) - weight is_reading (s.(sy_threads) !! t) →
  l.(rw_writers_waiting) = s.(sy_lock).(rw_writers_waiting) →
  l.(rw_writer) = None → s.(sy_lock).(rw_writer) = None ∨ s.(sy_lock).(rw_writer) = Some t →
  lock_ok (mkSys l (notify true (delete t s.(sy_threads)))).
Proof.
  intros [Hr Hw Hwr Hex Haw] Ht Hr' Hw' Hn Ho. split; cbn [sy_lock sy_threads notify].
  - rewrite count_wake by (by intros []). change (delete t s.(sy_threads)) with (set_phase t None s.(sy_threads)).
    rewrite count_set. simpl. lia.
  - rewrite count_wake by (by intros []). change (delete t s.(sy_threads)) with (set_phase t None s.(sy_threads)).
    rewrite count_set. destruct Ht as [-> | ->]; simpl; lia.
  - intros t'. rewrite Hn, lookup_fmap. split; [done|]. destruct (decide (t = t')) as [<-|Hne].
    + by rewrite lookup_delete_eq.
    + rewrite lookup_delete_ne by done. destruct (s.(sy_threads) !! t') as [[]|] eqn:Ht'; simpl; try done.
      apply Hwr in Ht'. destruct Ho; congruence.
  - rewrite Hn. by intros [].
  - intros _. split; intros t'; rewrite lookup_fmap; destruct (_ !! t') as [[]|]; done.
Qed.

Lemma try_read_eq l :
  try_read l = if read_blocked l then (Ok false, l)
    else (Ok true, mkRW (l.(rw_readers) + 1) l.(rw_writer) l.(rw_writers_waiting) l.(rw_prefer_writer)).
Proof. unfold try_read. mrun. by destruct (read_blocked l). Qed.
Lemma try_write_eq me l :
  try_write me l = if write_blocked l then (Ok false, l)
    else (Ok true, mkRW l.(rw_readers) (Some me) (l.(rw_writers_waiting) - 1) l.(rw_prefer_writer)).
Proof. unfold try_write, count_waiting. mrun. by destruct (write_blocked l). Qed.

(** ** Every step keeps it *)

Lemma enter_read_ok s t :
  lock_ok s → s.(sy_threads) !! t = None ∨ s.(sy_threads) !! t = Some (ReadWait true) →
  ∀ s', after_try t Reading (ReadWait false) (try_read s.(sy_lock)) s.(sy_threads) = Some s' → lock_ok s'.
Proof.
  intros Hs Ht s'. rewrite try_read_eq. destruct (read_blocked (sy_lock s)) eqn:Hb; intros [= <-].
  - apply (set_phase_ok s t (Some (ReadWait false))); try done.
    + destruct Ht as [-> | ->]; simpl; lia.
    + destruct Ht as [-> | ->]; simpl; lia.
    + left. destruct Ht as [-> | ->]; done.
    + apply Hs.
    + intros Hf. split; [done|]. split; [done|]. split; [by left|]. intros _.
      apply write_free in Hf as [_ Hw]. unfold read_blocked, is_writer_held in Hb.
      rewrite Hw in Hb. simpl in Hb. apply andb_prop in Hb as [_ Hb]. by apply Z.ltb_lt.
  - unfold read_blocked in Hb. apply orb_false_iff in Hb as [Hb _]. apply writer_free in Hb.
    apply (set_phase_ok s t (Some Reading)); simpl; try done.
    + destruct Ht as [-> | ->]; simpl; lia.
    + destruct Ht as [-> | ->]; simpl; lia.
    + left. destruct Ht as [-> | ->]; done.
    + rewrite Hb. by intros [].
    + rewrite write_free. simpl. intros [Hr _]. pose proof (count_nonneg is_reading (sy_threads s)).
      rewrite (lk_readers s Hs) in Hr. lia.
Qed.

Lemma try_write_ok s t l :
  lock_ok s → s.(sy_threads) !! t = None ∨ s.(sy_threads) !! t = Some (WriteWait true) →
  l = mkRW s.(sy_lock).(rw_readers) s.(sy_lock).(rw_writer)
        (s.(sy_lock).(rw_writers_waiting) - weight is_write_wait (s.(sy_threads) !! t) + 1)
        s.(sy_lock).(rw_prefer_writer) →
  ∀ s', after_try t Writing (WriteWait false) (try_write t l) s.(sy_threads) = Some s' → lock_ok s'.
Proof.
  intros Hs Ht -> s'. rewrite try_write_eq. destruct (write_blocked _) eqn:Hb; intros [= <-].
  - apply (set_phase_ok s t (Some (WriteWait false))); simpl; try done.
    + destruct Ht as [-> | ->]; simpl; lia.
    + left. destruct Ht as [-> | ->]; done.
    + apply Hs.
    + by rewrite Hb.
  - apply write_free in Hb as [Hr Hw]. simpl in Hr, Hw.
    apply (set_phase_ok s t (Some Writing)); simpl; try done.
    + destruct Ht as [-> | ->]; simpl; lia.
    + lia.
    + by right.
    + intros _. pose proof (lk_readers s Hs). pose proof (count_nonneg is_reading (sy_threads s)). lia.
    + intros [? ?]%write_free. done.
Qed.

Lemma step_ok s e s' : lock_ok s → sys_step e s = Some s' → lock_ok s'.
Proof.
  intros Hs. destruct e as [t|t|t|t|t|t|t]; simpl.
  - destruct (sy_threads s !! t) as [p|] eqn:Ht; [done|]. apply enter_read_ok; auto.
  - destruct (sy_threads s !! t) as [p|] eqn:Ht; [done|]. unfold count_waiting. mrun.
    apply (try_write_ok s t); auto. rewrite Ht. simpl. f_equal. lia.
  - destruct (sy_threads s !! t) as [p|] eqn:Ht; [|done].
    assert (alter wake t (sy_threads s) = set_phase t (Some (wake p)) (sy_threads s)) as ->.
    { simpl. apply map_eq. intros t'. destruct (decide (t = t')) as [<-|].
      - by rewrite lookup_alter_eq, lookup_insert_eq, Ht.
      - by rewrite lookup_alter_ne, lookup_insert_ne. }
    destruct p as [b| |b|]; try done; intros [= <-].
    + apply (set_phase_ok s t (Some (ReadWait true)));
        rewrite ?Ht; simpl; try done; try lia; try apply Hs; naive_solver.
    + apply (set_phase_ok s t (Some (WriteWait true)));
        rewrite ?Ht; simpl; try done; try lia; try apply Hs; naive_solver.
  - destruct (sy_threads s !! t) as [[[]| |[]|]|] eqn:Ht; try done.
    + apply enter_read_ok; auto.
    + apply (try_write_ok s t); auto. rewrite Ht. simpl. destruct (sy_lock s). simpl. f_equal. lia.
  - destruct (sy_threads s !! t) as [[[]| |[]|]|] eqn:Ht; try done.
    + destruct (read_blocked (sy_lock s)); [|done]. intros [= <-].
      apply (set_phase_ok s t None); rewrite ?Ht; simpl; try done; try lia; try apply Hs; naive_solver.
    + destruct (write_blocked (sy_lock s)) eqn:Hb; [|done]. intros [= <-].
      apply (set_phase_ok s t None); rewrite ?Ht; simpl; try done; try lia; try apply Hs; [naive_solver|].
      unfold write_blocked, is_writer_held in *. simpl. by rewrite Hb.
  - destruct (sy_threads s !! t) as [[| | |]|] eqn:Ht; try done.
    destruct (release_read (sy_lock s)) as [[b|] l] eqn:Hrel; [|done]. intros [= <-].
    unfold release_read in Hrel. revert Hrel. mrun.
    destruct (Z.leb_spec (rw_readers (sy_lock s)) 0) as [|Hpos]; [done|].
    destruct (is_writer_held (sy_lock s)) eqn:Hw; [done|]. apply writer_free in Hw. simpl. mrun.
    intros [= <- <-]. destruct (Z.eqb_spec (rw_readers (sy_lock s) - 1) 0) as [Hz|Hz].
    + apply notify_ok; rewrite ?Ht; simpl; auto; lia.
    + apply (set_phase_ok s t None); rewrite ?Ht; simpl; try done; try lia; [by left| |].
      * rewrite Hw. by intros [].
      * rewrite write_free. simpl. lia.
  - unfold release_write. mrun. case_bool_decide as Hw; mrun; [|by intros [= <-]].
    intros [= <-]. apply notify_ok; try done; simpl.
    + right. by apply (lk_writer s Hs).
    + rewrite (proj1 (lk_writer s Hs t) Hw). simpl. lia.
    + by right.
Qed.

Lemma reachable_ok s : reachable s → lock_ok s.
Proof.
  intros [b Hr]. remember (start b) as s0 eqn:H0. assert (lock_ok s0) as Hok by (subst; apply start_ok).
  clear H0. induction Hr as [|s1 s2 s3 [e He] _ IH]; [done|]. apply IH. by apply (step_ok s1 e).
Qed.

(** C27: mutual exclusion of the reader/writer lock, in any interleaving of any
    number of threads with time-outs: at most one thread writes, nobody reads
    meanwhile, the lock knows who writes, and its counters are the numbers of
    readers inside and of writers in line. *)
Theorem rwlock_exclusion s :
  reachable s →
  (∀ t, s.(sy_threads) !! t = Some Writing →
    s.(sy_lock).(rw_writer) = Some t ∧
    ∀ t', s.(sy_threads) !! t' ≠ Some Reading ∧ (s.(sy_threads) !! t' = Some Writing → t' = t)) ∧
  s.(sy_lock).(rw_readers) = count is_reading s.(sy_threads) ∧
  s.(sy_lock).(rw_writers_waiting) = count is_write_wait s.(sy_threads).
Proof.
  intros [Hr Hw Hwr Hex _]%reachable_ok. split; [|done]. intros t Ht. apply Hwr in Ht as Hl.
  split; [done|]. intros t'. split.
  - intros Hrd. assert (0 < count is_reading (sy_threads s)) by (apply count_pos; eauto).
    rewrite <-Hr, Hex in H by (by eexists). lia.
  - intros Ht'%Hwr. congruence.
Qed.

(** C28: no lost wake-up: in every reachable state where threads wait and
    nobody is inside, a waiting thread is awake and gets the lock when it runs
    next. *)
Theorem rwlock_progress s :
  reachable s →
  (∃ t b, s.(sy_threads) !! t = Some (ReadWait b) ∨ s.(sy_threads) !! t = Some (WriteWait b)) →
  (∀ t, s.(sy_threads) !! t ≠ Some Reading ∧ s.(sy_threads) !! t ≠ Some Writing) →
  ∃ t s', sys_step (Retry t) s = Some s' ∧
    (s'.(sy_threads) !! t = Some Reading ∨ s'.(sy_threads) !! t = Some Writing).
Proof.
  intros Hs Hwait Hnone. apply reachable_ok in Hs as [Hr Hw Hwr Hex Haw].
  assert (¬ 0 < count is_reading (sy_threads s)) as Hnr.
  { intros (t & p & Ht & Hp)%count_pos. destruct p; try done. by apply (proj1 (Hnone t)). }
  pose proof (count_nonneg is_reading (sy_threads s)).
  assert (rw_writer (sy_lock s) = None) as Hnw.
  { destruct (rw_writer (sy_lock s)) as [t|] eqn:Ho; [|done]. exfalso. apply (proj2 (Hnone t)). by apply Hwr. }
  assert (write_blocked (sy_lock s) = false) as Hb by (apply write_free; split; [lia|done]).
  destruct (Haw Hb) as [Hnsw Hnsr].
  destruct (decide (0 < rw_writers_waiting (sy_lock s))) as [Hpos|Hzero].
  - rewrite Hw in Hpos. apply count_pos in Hpos as (t & p & Ht & Hp). destruct p as [| |[]|]; try done.
    + exists t. eexists. cbn [sys_step]. rewrite Ht, try_write_eq, Hb. split; [reflexivity|].
      right. apply lookup_insert_eq.
    + by apply Hnsw in Ht.
  - destruct Hwait as (t & b & [Ht|Ht]).
    + destruct b; [|by apply Hnsr in Ht]. exists t. eexists. cbn [sys_step].
      assert (read_blocked (sy_lock s) = false) as Hrb.
      { unfold read_blocked. rewrite (proj2 (writer_free _) Hnw). simpl.
        destruct (Z.ltb_spec 0 (rw_writers_waiting (sy_lock s))); [lia|]. by rewrite andb_false_r. }
      rewrite Ht, try_read_eq, Hrb. split; [reflexivity|]. left. apply lookup_insert_eq.
    + exfalso. apply Hzero. rewrite Hw. apply count_pos. by exists t, (WriteWait b).
Qed.

(** Two readers and a writer: the writer waits for the first reader, the
    second reader behind it; then the first reader leaves. *)
Definition demo_events : list event :=
  [StartRead 1; StartWrite 2; StartRead 3; ReleaseRead 1; Retry 3].

Lemma run_events_reachable b es s : run_events es (start b) = Some s → reachable s.
Proof.
  intros Hr. exists b. revert Hr. generalize (start b). induction es as [|e es IH]; simpl; intros s0 Hr.
  - injection Hr as <-. apply rtc_refl.
  - destruct (sys_step e s0) as [s1|] eqn:He; [|done].
    apply rtc_l with s1; [by exists e|]. by apply IH.
Qed.

Lemma rwlock_exclusion_witness :
  ∃ s, run_events [StartWrite 2; StartRead 1] (start true) = Some s ∧
       s.(sy_threads) !! 2 = Some Writing ∧ s.(sy_threads) !! 1 ≠ Some Reading.
Proof.
  eexists. split; [reflexivity|]. split; [reflexivity|].
  apply (rwlock_exclusion _ (run_events_reachable true [StartWrite 2; StartRead 1] _ eq_refl)) with (t := 2).
  reflexivity.
Defined.

Lemma rwlock_progress_witness :
  ∃ s t s', run_events demo_events (start true) = Some s ∧
    sys_step (Retry t) s = Some s' ∧
    (s'.(sy_threads) !! t = Some Reading ∨ s'.(sy_threads) !! t = Some Writing).
Proof.
  eexists. destruct (rwlock_progress _ (run_events_reachable true demo_events _ eq_refl)) as (t & s' & Hx).
  - exists 2, true. right. reflexivity.
  - assert (map_Forall (λ _ p, p ≠ Reading ∧ p ≠ Writing)
      ({[2 := WriteWait true; 3 := ReadWait false]} : gmap Z phase)) as Hf.
    { apply (bool_decide_unpack _). vm_compute. exact I. }
    intros t. split; intros Ht; by apply (Hf t) in Ht as [? ?].
  - exists t, s'. split; [reflexivity|exact Hx].
Defined.

(** A writer that gives up notifies nobody: thread 3 sleeps on although the
    condition it waits for holds, until the reader 1 leaves. *)
Example writer_timeout_leaves_reader_asleep :
  ∃ s, run_events [StartRead 1; StartWrite 2; StartRead 3; WakeUp 2; GiveUp 2] (start true) = Some s ∧
       s.(sy_threads) !! 3 = Some (ReadWait false) ∧ read_blocked s.(sy_lock) = false.
Proof. eexists. split; [reflexivity|]. split; reflexivity. Qed.

(** * WriteLock: the reentrant write side *)

Record WriteLock := mkWL {
  wl_rwlock : RWLock;
  wl_stacks : gmap Z Z;  (* thread -> depth *)
}.
Definition new_write_lock : WriteLock := mkWL (new_rwlock true) ∅.
Definition on_rwlock {A} (m : M RWLock A) : M WriteLock A :=
  zoom wl_rwlock (λ l w, mkWL l w.(wl_stacks)) m.
Definition set_depth (me : Z) (d : Z) : M WriteLock unit :=
  modify (λ w, mkWL w.(wl_rwlock) (if d =? 0 then delete me w.(wl_stacks) else <[me := d]> w.(wl_stacks))).

(** [acquire], when it does not wait; [false] when the thread waits for the
    lock, with nothing done *)
Definition wl_acquire (me : Z) : M WriteLock bool :=
  w ← get;
  match w.(wl_stacks) !! me with
  | Some depth => set_depth me (depth + 1);; mret true
  | None =>
      if write_blocked w.(wl_rwlock) then mret false else
      on_rwlock (count_waiting 1;; try_write me);;
      set_depth me 1;;
      mret true
  end.

Definition wl_release (me : Z) : M WriteLock unit :=
  w ← get;
  match w.(wl_stacks) !! me with
  | None => raise RuntimeError
  | Some depth =>
      let new_depth := depth - 1 in
      set_depth me new_depth;;
      if new_depth =? 0 then _ ← on_rwlock (release_write me); mret () else mret ()
  end.

(** What the lock promises: an owner and how often it entered *)
Definition owner := option (Z * Z).
Definition spec_acquire (me : Z) (o : owner) : bool * owner :=
  match o with
  | None => (true, Some (me, 1))
  | Some (t, d) => if decide (t = me) then (true, Some (t, d + 1)) else (false, o)
  end.
Definition spec_release (me : Z) (o : owner) : result unit * owner :=
  match o with
  | Some (t, d) => if decide (t = me) then (Ok (), if decide (d = 1) then None else Some (t, d - 1))
                   else (Err RuntimeError, o)
  | None => (Err RuntimeError, o)
  end.
Definition owned (w : WriteLock) (o : owner) : Prop :=
  w = mkWL (mkRW 0 (fst <$> o) 0 true) (match o with Some (t, d) => {[t := d]} | None => ∅ end) ∧
  match o with Some (_, d) => 1 <= d | None => True end.

Lemma new_write_lock_owned : owned new_write_lock None.
Proof. done. Qed.

Lemma wl_acquire_spec w o me :
  owned w o → ∃ w', wl_acquire me w = (Ok (spec_acquire me o).1, w') ∧ owned w' (spec_acquire me o).2.
Proof.
  intros [-> Hd]. unfold wl_acquire, set_depth. mrun. cbn [wl_stacks wl_rwlock].
  destruct o as [[t d]|]; simpl in *.
  - destruct (decide (t = me)) as [->|Hne].
    + rewrite lookup_singleton_eq. mrun. destruct (Z.eqb_spec (d + 1) 0); [lia|].
      eexists. split; [reflexivity|]. split; [|simpl; lia]. f_equal. apply insert_insert_eq.
    + rewrite lookup_singleton_ne by done. eexists. split; [reflexivity|]. by split.
  - rewrite lookup_empty. eexists. split; [reflexivity|]. by split.
Qed.

Lemma wl_release_spec w o me :
  owned w o → ∃ w', wl_release me w = ((spec_release me o).1, w') ∧ owned w' (spec_release me o).2.
Proof.
  intros [-> Hd]. unfold wl_release, set_depth. mrun. cbn [wl_stacks wl_rwlock].
  destruct o as [[t d]|]; simpl in *.
  - destruct (decide (t = me)) as [->|Hne].
    + rewrite lookup_singleton_eq. mrun. destruct (decide (d = 1)) as [->|Hd1]; simpl.
      * unfold on_rwlock, zoom, release_write, mbind, M_bind, get, assert. simpl.
        rewrite bool_decide_true by done. simpl.
        eexists. split; [reflexivity|]. split; [|done]. f_equal. apply delete_singleton_eq.
      * destruct (Z.eqb_spec (d - 1) 0); [lia|]. eexists. split; [reflexivity|].
        split; [|simpl; lia]. f_equal. apply insert_insert_eq.
    + rewrite lookup_singleton_ne by done. eexists. split; [reflexivity|]. by split.
  - rewrite lookup_empty. eexists. split; [reflexivity|]. by split.
Qed.

(** the write lock is reentrant: it implements an owner and a depth; the
    owner enters again at once, other threads wait, the lock is free after as
    many releases as acquisitions, and a thread that does not own it cannot
    release it. *)
Theorem write_lock_reentrant w o me :
  owned w o →
  (∃ w', wl_acquire me w = (Ok (spec_acquire me o).1, w') ∧ owned w' (spec_acquire me o).2) ∧
  (∃ w', wl_release me w = ((spec_release me o).1, w') ∧ owned w' (spec_release me o).2).
Proof. intros Ho. split; [by apply wl_acquire_spec|by apply wl_release_spec]. Qed.

Lemma write_lock_reentrant_witness :
  ∃ w, wl_acquire 7 new_write_lock = (Ok true, w) ∧ owned w (Some (7, 1)).
Proof. exact (proj1 (write_lock_reentrant new_write_lock None 7 new_write_lock_owned)). Defined.
