(* ===== verification/Deadlock.v ===== *)
(** Component [concurrent/deadlock.py]: the wait-for graph and its cycle
    detector. *)
From S2P Require Import Prelude.
From stdpp Require Import gmap fin_maps.
From Stdlib Require Import ZArith Lia.
Local Open Scope Z_scope.

(** waiter -> holder: one outgoing edge per waiter *)
Abbreviation DeadlockDetector := (gmap Z Z).

Definition add_wait (waiter holder : Z) (w : DeadlockDetector) : DeadlockDetector := <[waiter := holder]> w.

(** The edge of [tx_id], then every edge that points to it *)
Definition remove (tx_id : Z) (w : DeadlockDetector) : DeadlockDetector :=
  filter (λ e, e.2 ≠ tx_id) (delete tx_id w).

Definition has_edge (waiter : Z) (w : DeadlockDetector) : bool := bool_decide (is_Some (w !! waiter)).

(** [path.index(node)] and [path[idx:]]: the path from the first [node] on *)
Fixpoint suffix_from (node : Z) (path : list Z) : list Z :=
  match path with
  | [] => []
  | x :: path' => if decide (x = node) then path else suffix_from node path'
  end.

(** The outer option is the fuel. *)
Fixpoint _dfs_cycle (fuel : nat) (w : DeadlockDetector) (node : Z) (path : list Z) : option (option (list Z)) :=
  match fuel with
  | O => None
  | S fuel =>
      if decide (node ∈ path) then Some (Some (suffix_from node path ++ [node])) else
      match w !! node with
      | None => Some None
      | Some holder => _dfs_cycle fuel w holder (path ++ [node])
      end
  end.

Definition maximum (l : list Z) : Z := match l with [] => 0 | x :: l => foldl Z.max x l end.

(** The loop over the starting nodes *)
Fixpoint best_victim (fuel : nat) (w : DeadlockDetector) (starts : list Z) (victim : Z) : option Z :=
  match starts with
  | [] => Some victim
  | start :: starts =>
      r ← _dfs_cycle fuel w start [];
      best_victim fuel w starts
        (match r with Some cycle => if victim <? maximum cycle then maximum cycle else victim | None => victim end)
  end.

(** [None]: out of fuel; [victim or None] *)
Definition detect_cycle (w : DeadlockDetector) : option (option Z) :=
  if decide (w = ∅) then Some None else
  victim ← best_victim (S (S (size w))) w (map fst (map_to_list w)) 0;
  Some (if victim =? 0 then None else Some victim).

(** * Cycles *)

(** [n] steps along the edges *)
Fixpoint follow (w : DeadlockDetector) (n : nat) (x : Z) : option Z :=
  match n with
  | O => Some x
  | S n => y ← w !! x; follow w n y
  end.
Definition on_cycle (w : DeadlockDetector) (x : Z) : Prop := ∃ n, follow w (S n) x = Some x.

Lemma follow_add w n m x : follow w (n + m) x = y ← follow w n x; follow w m y.
Proof. revert x. induction n as [|n IH]; intros x; simpl; [done|]. by destruct (w !! x) as [y|]; simpl. Qed.
Lemma follow_snoc w n x : follow w (S n) x = y ← follow w n x; w !! y.
Proof.
  replace (S n) with (n + 1)%nat by lia. rewrite follow_add.
  destruct (follow w n x) as [y|]; simpl; [|done]. by destruct (w !! y).
Qed.
Lemma follow_fix w n x k : follow w n x = Some x → follow w (k * n) x = Some x.
Proof. intros Hn. induction k as [|k IH]; simpl; [done|]. by rewrite follow_add, Hn. Qed.

(** A path of the graph: each node waits for the next, the last for [node] *)
Fixpoint path_to (w : DeadlockDetector) (path : list Z) (node : Z) : Prop :=
  match path with
  | [] => True
  | x :: path' => w !! x = Some (match path' with [] => node | y :: _ => y end) ∧ path_to w path' node
  end.

Lemma path_to_snoc w path node holder :
  path_to w path node → w !! node = Some holder → path_to w (path ++ [node]) holder.
Proof.
  induction path as [|x path IH]; simpl; [by intros|]. intros [Hx Hp] Hn.
  split; [|by apply IH]. rewrite Hx. by destruct path.
Qed.
Lemma path_follow w path node x l :
  path_to w (x :: l) node → path = x :: l → follow w (length path) x = Some node.
Proof.
  intros Hp ->. revert x Hp. induction l as [|y l IH]; intros x; simpl.
  - intros [-> _]. done.
  - intros [-> Hp]. simpl. apply (IH y Hp).
Qed.
Lemma path_suffix w path node node' : path_to w path node → path_to w (suffix_from node' path) node.
Proof. induction path as [|x path IH]; simpl; [done|]. intros [? ?]. case_decide; [by split|auto]. Qed.
Lemma suffix_from_head node path : node ∈ path → ∃ l, suffix_from node path = node :: l.
Proof.
  induction path as [|x path IH]; [by intros ?%elem_of_nil|]. simpl. rewrite elem_of_cons.
  case_decide as Hx; [subst; by eexists|]. intros [->|Hin]; [done|]. by apply IH.
Qed.

Lemma path_reaches w l x e y :
  path_to w (x :: l) e → y ∈ x :: l → ∃ k, (k < S (length l))%nat ∧ follow w k x = Some y.
Proof.
  revert x. induction l as [|z l IH]; intros x Hp Hy.
  - apply list_elem_of_singleton in Hy as ->. exists 0%nat. split; [simpl; lia|done].
  - rewrite elem_of_cons in Hy. destruct Hy as [->|Hy]; [exists 0%nat; split; [simpl; lia|done]|].
    destruct Hp as [Hx Hp]. destruct (IH z Hp Hy) as (k & Hk & Hf).
    exists (S k). split; [simpl in *; lia|]. simpl. by rewrite Hx.
Qed.

(** Every node of a closed path is on a cycle. *)
Lemma closed_path_cycle w l x y : path_to w (x :: l) x → y ∈ x :: l → on_cycle w y.
Proof.
  intros Hp Hy. pose proof (path_follow w _ x x l Hp eq_refl) as Hc. simpl length in Hc.
  destruct (path_reaches w l x x y Hp Hy) as (k & Hk & Hf).
  exists (length l). replace (S (length l)) with ((S (length l) - k) + k)%nat by lia.
  assert (follow w (S (length l) - k) y = Some x) as Hyx.
  { replace (S (length l)) with (k + (S (length l) - k))%nat in Hc by lia.
    rewrite follow_add, Hf in Hc. exact Hc. }
  rewrite follow_add, Hyx. exact Hf.
Qed.

(** ** The search *)

Lemma path_waiters w path node x : path_to w path node → x ∈ path → is_Some (w !! x).
Proof.
  induction path as [|y path IH]; [by intros _ ?%elem_of_nil|].
  intros [Hy Hp] [->|Hx]%elem_of_cons; [by eexists|auto].
Qed.
Lemma path_short w path node : path_to w path node → NoDup path → (length path <= size w)%nat.
Proof.
  intros Hp Hnd. rewrite <-(size_dom (D := gset Z) (M := gmap Z) w), <-(size_list_to_set (C := gset Z) path Hnd).
  apply subseteq_size. intros x Hx. apply elem_of_list_to_set in Hx. apply elem_of_dom.
  by apply (path_waiters w path node).
Qed.

(** A path without repetition has at most as many nodes as there are waiters,
    so the search ends: it closes a cycle that [node] leads to, or reaches a
    transaction that waits for nobody. *)
Lemma dfs_cycle_spec w fuel node path :
  path_to w path node → NoDup path → (size w + 1 < fuel + length path)%nat →
  (∃ x l m, _dfs_cycle fuel w node path = Some (Some ((x :: l) ++ [x])) ∧
     path_to w (x :: l) x ∧ follow w m node = Some x) ∨
  (_dfs_cycle fuel w node path = Some None ∧ ∃ n, follow w n node = None).
Proof.
  revert node path. induction fuel as [|fuel IH]; intros node path Hp Hnd Hf.
  { pose proof (path_short w path node Hp Hnd). lia. }
  cbn [_dfs_cycle]. case_decide as Hin.
  - left. destruct (suffix_from_head node path Hin) as [l Hl]. exists node, l, 0%nat.
    rewrite Hl. split; [done|]. split; [|done]. rewrite <-Hl. by apply path_suffix.
  - destruct (w !! node) as [holder|] eqn:Hh.
    + destruct (IH holder (path ++ [node])) as [(x & l & m & Hd & Hc & Hm)|(Hd & n & Hn)].
      * by apply path_to_snoc.
      * apply NoDup_app. split; [done|]. split; [|apply NoDup_singleton].
        intros y Hy ->%list_elem_of_singleton. done.
      * rewrite length_app. simpl. lia.
      * left. exists x, l, (S m). split; [done|]. split; [done|]. simpl. by rewrite Hh.
      * right. split; [done|]. exists (S n). simpl. by rewrite Hh.
    + right. split; [done|]. exists 1%nat. simpl. by rewrite Hh.
Qed.

Lemma path_next w x l e z y : path_to w (x :: l) e → z ∈ x :: l → w !! z = Some y → y ∈ e :: x :: l.
Proof.
  revert x. induction l as [|x' l IH]; intros x [Hx Hp] Hz Hy.
  - apply list_elem_of_singleton in Hz as ->. rewrite Hx in Hy. injection Hy as <-. apply list_elem_of_here.
  - apply elem_of_cons in Hz as [->|Hz].
    + rewrite Hx in Hy. injection Hy as <-. rewrite !elem_of_cons. auto.
    + specialize (IH x' Hp Hz Hy). rewrite !elem_of_cons in *. tauto.
Qed.
Lemma closed_path_orbit w x l m y : path_to w (x :: l) x → follow w m x = Some y → y ∈ x :: l.
Proof.
  intros Hp. revert y. induction m as [|m IH]; intros y.
  { simpl. intros [= ->]. apply list_elem_of_here. }
  rewrite follow_snoc. destruct (follow w m x) as [z|]; [|done]. simpl. intros Hy.
  pose proof (path_next w x l x z y Hp (IH z eq_refl) Hy) as Hin. rewrite !elem_of_cons in *. tauto.
Qed.

Lemma cycle_returns w x m : on_cycle w x → ∃ k y, follow w m x = Some y ∧ follow w k y = Some x.
Proof.
  intros [n Hn]. assert (follow w (m * S n) x = Some x) as Hm by (by apply follow_fix).
  replace (m * S n)%nat with (m + m * n)%nat in Hm by lia. rewrite follow_add in Hm.
  destruct (follow w m x) as [y|]; [|done]. by exists (m * n)%nat, y.
Qed.

(** What a search that starts at a node on a cycle returns *)
Lemma dfs_cycle_start w start :
  ∃ r, _dfs_cycle (S (S (size w))) w start [] = Some r ∧
    match r with
    | Some cycle => ∃ x l, cycle = (x :: l) ++ [x] ∧ (∀ y, y ∈ cycle → on_cycle w y) ∧
                           (on_cycle w start → start ∈ cycle)
    | None => ¬ on_cycle w start
    end.
Proof.
  destruct (dfs_cycle_spec w (S (S (size w))) start []) as [(x & l & m & -> & Hp & Hm)|(-> & n & Hn)];
    [done|apply NoDup_nil_2|simpl; lia| |]; eexists; (split; [reflexivity|]).
  - exists x, l. split; [done|]. split.
    + intros y Hy. rewrite elem_of_app, list_elem_of_singleton in Hy.
      apply (closed_path_cycle w l x); [done|]. destruct Hy as [Hy| ->]; [done|apply list_elem_of_here].
    + intros Hc. destruct (cycle_returns w start m Hc) as (k & y & Hy & Hk).
      rewrite elem_of_app. left. apply (closed_path_orbit w x l k); [done|congruence].
  - intros Hc. destruct (cycle_returns w start n Hc) as (k & y & Hy & _). congruence.
Qed.

Lemma foldl_max l x : x <= foldl Z.max x l ∧ (∀ y, y ∈ l → y <= foldl Z.max x l) ∧ foldl Z.max x l ∈ x :: l.
Proof.
  revert x. induction l as [|z l IH]; intros x; simpl.
  - split; [lia|]. split; [by intros y ?%elem_of_nil|apply list_elem_of_here].
  - destruct (IH (Z.max x z)) as (H1 & H2 & H3). split; [lia|]. split.
    + intros y [->|Hy]%elem_of_cons; [lia|auto].
    + rewrite !elem_of_cons in *. destruct H3 as [->|H3]; [|auto].
      destruct (Z.max_spec x z) as [[_ ->]|[_ ->]]; auto.
Qed.
Lemma maximum_spec x l : maximum (x :: l) ∈ x :: l ∧ ∀ y, y ∈ x :: l → y <= maximum (x :: l).
Proof.
  destruct (foldl_max l x) as (H1 & H2 & H3). split; [done|].
  intros y [->|Hy]%elem_of_cons; [done|by apply H2].
Qed.

Lemma best_victim_spec w starts victim :
  ∃ v, best_victim (S (S (size w))) w starts victim = Some v ∧ victim <= v ∧
    (v = victim ∨ on_cycle w v) ∧ ∀ x, x ∈ starts → on_cycle w x → x <= v.
Proof.
  revert victim. induction starts as [|start starts IH]; intros victim.
  { exists victim. split; [done|]. split; [lia|]. split; [by left|]. by intros x ?%elem_of_nil. }
  cbn [best_victim]. destruct (dfs_cycle_start w start) as (r & -> & Hr). simpl mbind.
  destruct r as [cycle|].
  - destruct Hr as (x & l & -> & Hcyc & Hst).
    destruct (maximum_spec x (l ++ [x])) as [Hmax Hle]. change ((x :: l) ++ [x]) with (x :: (l ++ [x])) in *.
    set (mx := maximum _) in *.
    destruct (IH (if victim <? mx then mx else victim)) as (v & Hv & Hge & Hor & Hall).
    exists v. split; [done|]. destruct (Z.ltb_spec victim mx) as [Hlt|Hlt].
    + split; [lia|]. split.
      * right. destruct Hor as [->|]; [auto|done].
      * intros y [->|Hy]%elem_of_cons Hc; [|auto]. specialize (Hle _ (Hst Hc)). lia.
    + split; [lia|]. split; [done|].
      intros y [->|Hy]%elem_of_cons Hc; [|auto]. specialize (Hle _ (Hst Hc)). lia.
  - destruct (IH victim) as (v & Hv & Hge & Hor & Hall). exists v. split; [done|]. split; [done|].
    split; [done|]. intros y [->|Hy]%elem_of_cons Hc; [by destruct Hr|auto].
Qed.

Lemma detect_cycle_ok w :
  ∃ r, detect_cycle w = Some r ∧
    match r with
    | Some v => on_cycle w v ∧ ∀ x, on_cycle w x → x <= v
    | None => ∀ x, on_cycle w x → x <= 0
    end.
Proof.
  unfold detect_cycle. destruct (decide (w = ∅)) as [->|Hne].
  { exists None. split; [done|]. intros x [n Hn]. discriminate Hn. }
  destruct (best_victim_spec w (map fst (map_to_list w)) 0) as (v & -> & Hge & Hor & Hall). simpl.
  assert (∀ x, on_cycle w x → x <= v) as Hle.
  { intros x Hc. apply Hall; [|done]. destruct Hc as [n Hn]. simpl in Hn.
    destruct (w !! x) as [h|] eqn:Hh; [|done]. apply list_elem_of_fmap. exists (x, h).
    split; [done|]. by apply elem_of_map_to_list. }
  eexists. split; [reflexivity|]. destruct (Z.eqb_spec v 0) as [->|Hv]; [done|].
  split; [|done]. by destruct Hor.
Qed.
Lemma remove_spec w tx a b : remove tx w !! a = Some b ↔ w !! a = Some b ∧ a ≠ tx ∧ b ≠ tx.
Proof. unfold remove. rewrite map_lookup_filter_Some, lookup_delete_Some. simpl. naive_solver. Qed.

(** What a second [begin] does to the graph of a single writer *)
Lemma detect_cycle_pair a b : a ≠ b → detect_cycle (add_wait a b ∅) = Some None.
Proof.
  intros Hne. destruct (detect_cycle_ok (add_wait a b ∅)) as ([v|] & -> & Hv); [|done].
  exfalso. destruct Hv as [[n Hn] _]. unfold add_wait in Hn. cbn [follow] in Hn.
  destruct (decide (v = a)) as [->|Hva].
  - rewrite lookup_insert_eq in Hn. simpl in Hn. destruct n; [naive_solver|].
    cbn [follow] in Hn. by rewrite lookup_insert_ne, lookup_empty in Hn by done.
  - by rewrite lookup_insert_ne, lookup_empty in Hn by done.
Qed.
Lemma remove_pair a b : remove a (add_wait a b ∅) = ∅.
Proof.
  apply map_eq. intros x. rewrite lookup_empty. apply eq_None_not_Some. intros [y Hy].
  apply remove_spec in Hy as (Hy & Hx & _). unfold add_wait in Hy.
  by rewrite lookup_insert_ne, lookup_empty in Hy by done.
Qed.

(** C29: the detector ends, and answers exactly: the victim it names is on a
    cycle of waiting transactions and is the youngest of all that are; when it
    names none, no transaction (their ids are positive) is on a cycle.  After
    [remove] no edge involves the transaction, and every other edge is kept. *)
Theorem detect_cycle_spec w tx :
  (∃ r, detect_cycle w = Some r ∧
    match r with
    | Some v => on_cycle w v ∧ ∀ x, on_cycle w x → x <= v
    | None => ∀ x, on_cycle w x → x <= 0
    end) ∧
  (∀ a b, remove tx w !! a = Some b ↔ w !! a = Some b ∧ a ≠ tx ∧ b ≠ tx).
Proof. split; [apply detect_cycle_ok|]. intros a b. apply remove_spec. Qed.

(** Two cycles, 1-2 and 3-4-5; 6 waits for the second *)
Example detect_cycle_two : detect_cycle {[1 := 2; 2 := 1; 3 := 4; 4 := 5; 5 := 3; 6 := 3]} = Some (Some 5).
Proof. vm_compute. reflexivity. Qed.
Example detect_cycle_chain : detect_cycle {[1 := 2; 2 := 3; 4 := 3]} = Some None.
Proof. vm_compute. reflexivity. Qed.
