(* ===== verification/TxManager.v ===== *)
(** Components [tx/manager.py] and [tx/checkpoint.py]: the transaction manager
    over the log, the page file, the write lock and the wait-for graph. *)
From S2P Require Import Prelude.
From S2P Require Import Bytes.
From S2P Require Import Pager.
From S2P Require Import BufferPool.
From S2P Require Import Heap.
From S2P Require Import Wal.
From S2P Require Import Recovery.
From S2P Require Import Lock.
From S2P Require Import Deadlock.
From Stdlib Require Import ZArith Lia.
From stdpp Require Import gmap.
Local Open Scope Z_scope.

(** * What the manager uses of a pager besides its pages *)

Class LsnOps (P : Type) := { pi_set_last_lsn : Z → M P unit }.
Class LsnLaws (P : Type) `{PagerOps P, LsnOps P} (stores : P → gmap Z bytes → Prop) : Prop := {
  pi_set_last_lsn_law p m l :
    stores p m → 0 <= l < 2 ^ 32 →
    ∃ p', pi_set_last_lsn l p = (Ok (), p') ∧ stores p' m ∧
          pi_last_lsn p' = Z.max l (pi_last_lsn p);
}.

Global Instance Pager_lsn : LsnOps Pager := {| pi_set_last_lsn := set_last_lsn |}.
Global Instance Pager_lsn_laws : LsnLaws Pager pager_stores.
Proof.
  split. intros p m l (a & Hr & Hm) Hl. destruct (exec_lsn_refines p a l Hr) as (p' & Hx & Hr').
  { simpl. lia. }
  revert Hx. simpl in Hr' |- *. unfold mbind, M_bind.
  destruct (set_last_lsn l p) as [[[]|] p1]; intros Hx; [|destruct (Z.ltb_spec l 0); [lia|discriminate]].
  destruct (Z.ltb_spec l 0); [lia|]. injection Hx as <-. exists p1. split; [done|].
  split; [by eexists|]. rewrite (sh_lsn _ _ (proj1 Hr)). exact (sh_lsn _ _ (proj1 Hr')).
Qed.

(** * The manager *)

(** [tc_manager] identifies the manager object; a manager never gives an id
    twice, so the context of a transaction is determined by its fields. *)
Record TransactionContext := mkContext {
  tc_tx_id : Z;
  tc_begin_lsn : Z;
  tc_snapshot : Snapshot;
  tc_manager : Z;
}.
Global Instance context_eq_dec : EqDecision TransactionContext.
Proof. assert (EqDecision Snapshot) by solve_decision. solve_decision. Defined.

Record Manager (P : Type) := mkManager {
  mg_id : Z;
  mg_pager : P;
  mg_wal : WAL;
  mg_lock : WriteLock;
  mg_deadlock : DeadlockDetector;
  mg_next_tx_id : Z;
  mg_active_tx : option TransactionContext;
  mg_held : bool;
  mg_logged_pages : list (Z * bytes);  (* page id, before image *)
}.
Arguments mkManager {P} _ _ _ _ _ _ _ _ _.
Arguments mg_id {P} _.
Arguments mg_pager {P} _.
Arguments mg_wal {P} _.
Arguments mg_lock {P} _.
Arguments mg_deadlock {P} _.
Arguments mg_next_tx_id {P} _.
Arguments mg_active_tx {P} _.
Arguments mg_held {P} _.
Arguments mg_logged_pages {P} _.

Section Manager.
Context {P : Type} `{PagerOps P, LsnOps P}.

Definition new_manager (id : Z) (pager : P) (wal : WAL) : Manager P :=
  mkManager id pager wal new_write_lock ∅ 1 None false [].

Definition with_pager_of (p : P) (g : Manager P) : Manager P :=
  mkManager g.(mg_id) p g.(mg_wal) g.(mg_lock) g.(mg_deadlock) g.(mg_next_tx_id) g.(mg_active_tx)
    g.(mg_held) g.(mg_logged_pages).
Definition with_wal (w : WAL) (g : Manager P) : Manager P :=
  mkManager g.(mg_id) g.(mg_pager) w g.(mg_lock) g.(mg_deadlock) g.(mg_next_tx_id) g.(mg_active_tx)
    g.(mg_held) g.(mg_logged_pages).
Definition with_lock (l : WriteLock) (g : Manager P) : Manager P :=
  mkManager g.(mg_id) g.(mg_pager) g.(mg_wal) l g.(mg_deadlock) g.(mg_next_tx_id) g.(mg_active_tx)
    g.(mg_held) g.(mg_logged_pages).
Definition with_deadlock (d : DeadlockDetector) (g : Manager P) : Manager P :=
  mkManager g.(mg_id) g.(mg_pager) g.(mg_wal) g.(mg_lock) d g.(mg_next_tx_id) g.(mg_active_tx)
    g.(mg_held) g.(mg_logged_pages).
Definition with_next_tx_id (n : Z) (g : Manager P) : Manager P :=
  mkManager g.(mg_id) g.(mg_pager) g.(mg_wal) g.(mg_lock) g.(mg_deadlock) n g.(mg_active_tx)
    g.(mg_held) g.(mg_logged_pages).
Definition with_active_tx (t : option TransactionContext) (g : Manager P) : Manager P :=
  mkManager g.(mg_id) g.(mg_pager) g.(mg_wal) g.(mg_lock) g.(mg_deadlock) g.(mg_next_tx_id) t
    g.(mg_held) g.(mg_logged_pages).
Definition with_held (b : bool) (g : Manager P) : Manager P :=
  mkManager g.(mg_id) g.(mg_pager) g.(mg_wal) g.(mg_lock) g.(mg_deadlock) g.(mg_next_tx_id)
    g.(mg_active_tx) b g.(mg_logged_pages).
Definition with_logged_pages (l : list (Z * bytes)) (g : Manager P) : Manager P :=
  mkManager g.(mg_id) g.(mg_pager) g.(mg_wal) g.(mg_lock) g.(mg_deadlock) g.(mg_next_tx_id)
    g.(mg_active_tx) g.(mg_held) l.

Definition the_pager_of {A} (m : M P A) : M (Manager P) A := zoom mg_pager with_pager_of m.
Definition the_wal {A} (m : M WAL A) : M (Manager P) A := zoom mg_wal with_wal m.
Definition the_lock {A} (m : M WriteLock A) : M (Manager P) A := zoom mg_lock with_lock m.

Definition _encode_tx_id (tx_id : Z) : result bytes := pack_ube 8 tx_id.

Definition _acquire_snapshot : M (Manager P) Snapshot := gets (λ g, mkSnapshot (pi_last_lsn g.(mg_pager))).

(** The pre-flight check of [begin] *)
Definition check_deadlock : M (Manager P) unit :=
  g ← get;
  match g.(mg_active_tx) with
  | None => mret ()
  | Some active =>
      let new_tx_id := g.(mg_next_tx_id) in
      let d := add_wait new_tx_id active.(tc_tx_id) g.(mg_deadlock) in
      let victim := detect_cycle d in
      modify (with_deadlock (Deadlock.remove new_tx_id d));;
      match victim with
      | None => raise OutOfFuel
      | Some None => mret ()
      | Some (Some _) => raise DeadlockError
      end
  end.

(** What [begin] does with the lock *)
Definition begin_locked (me : Z) : M (Manager P) TransactionContext :=
  g ← get;
  match g.(mg_active_tx) with
  | Some _ => the_lock (wl_release me);; raise NestedTransactionError
  | None =>
      let tx_id := g.(mg_next_tx_id) in
      modify (with_next_tx_id (tx_id + 1));;
      snapshot ← _acquire_snapshot;
      payload ← lift (_encode_tx_id tx_id);
      begin_lsn ← the_wal (append RT_BEGIN payload);
      let tx := mkContext tx_id begin_lsn snapshot g.(mg_id) in
      modify (with_active_tx (Some tx));;
      modify (with_held true);;
      modify (with_logged_pages []);;
      mret tx
  end.

(** [begin] in the thread [me]: [None] when the thread has to wait for the lock
    (it runs [begin_locked] when it gets it) *)
Definition begin (me : Z) : M (Manager P) (option TransactionContext) :=
  check_deadlock;;
  acquired ← the_lock (wl_acquire me);
  if acquired : bool then tx ← begin_locked me; mret (Some tx) else mret None.

Definition log_page_write (page_id : Z) (before after : bytes) : M (Manager P) unit :=
  g ← get;
  let tx_id := match g.(mg_active_tx) with Some tx => tx.(tc_tx_id) | None => 0 end in
  payload ← lift (_encode_page_record tx_id page_id before after);
  the_wal (append RT_PAGE payload);;
  modify (with_logged_pages (g.(mg_logged_pages) ++ [(page_id, before)])).

Definition logged_pages (g : Manager P) : list Z := map fst g.(mg_logged_pages).

Definition _release_lock (me : Z) : M (Manager P) unit :=
  g ← get;
  modify (with_held false);;
  if g.(mg_held) then the_lock (wl_release me) else mret ().

(** The last lines of [commit] and [rollback] *)
Definition close_tx (me : Z) (tx : TransactionContext) : M (Manager P) unit :=
  modify (λ g, with_deadlock (Deadlock.remove tx.(tc_tx_id) g.(mg_deadlock)) g);;
  modify (with_logged_pages []);;
  modify (with_active_tx None);;
  _release_lock me.

Definition commit (me : Z) (tx : TransactionContext) : M (Manager P) unit :=
  g ← get;
  assert (bool_decide (g.(mg_active_tx) = Some tx)) ValueError;;
  payload ← lift (_encode_tx_id tx.(tc_tx_id));
  commit_lsn ← the_wal (append RT_COMMIT payload);
  the_wal fsync;;
  catch (the_pager_of (pi_set_last_lsn commit_lsn)) (λ _, mret ());;
  close_tx me tx.

Fixpoint restore (l : list (Z * bytes)) : M (Manager P) unit :=
  match l with
  | [] => mret ()
  | (page_id, before) :: l => the_pager_of (pi_write_page page_id before);; restore l
  end.

Definition rollback (me : Z) (tx : TransactionContext) : M (Manager P) unit :=
  g ← get;
  assert (bool_decide (g.(mg_active_tx) = Some tx)) ValueError;;
  payload ← lift (_encode_tx_id tx.(tc_tx_id));
  the_wal (append RT_ROLLBACK payload);;
  the_wal fsync;;
  restore (reverse g.(mg_logged_pages));;
  close_tx me tx.

(** [with mgr.transaction() as tx: body]: [None] when [begin] waits *)
Definition transaction {A} (me : Z) (body : TransactionContext → M (Manager P) A)
    : M (Manager P) (option A) :=
  tx ← begin me;
  match tx with
  | None => mret None
  | Some tx =>
      r ← catch (a ← body tx; mret (Ok a)) (λ e, mret (Err e));
      match r with
      | Err e => rollback me tx;; raise e
      | Ok a => commit me tx;; mret (Some a)
      end
  end.
End Manager.

(** * Checkpoint *)

Definition _encode_lsn (lsn : Z) : result bytes := pack_ube 8 lsn.
Definition checkpoint_run : M WAL Z :=
  w ← get;
  let lsn := w.(wal_next_lsn) in
  payload ← lift (_encode_lsn lsn);
  append RT_CKPT payload;;
  mret lsn.

(** * Transactions *)

Section Spec.
Context {P : Type} {stores : P → gmap Z bytes → Prop} `{PagerLaws P stores} `{LsnOps P} `{!LsnLaws P stores}.

(** A client's page write, in the order of [Heap._write_page_logged]: the log
    first *)
Definition logged_write (pid : Z) (after : bytes) : M (Manager P) unit :=
  before ← the_pager_of (pi_read_page pid);
  log_page_write pid before after;;
  the_pager_of (pi_write_page pid after).
Fixpoint logged_writes (ws : list (Z * bytes)) : M (Manager P) unit :=
  match ws with
  | [] => mret ()
  | (pid, after) :: ws => logged_write pid after;; logged_writes ws
  end.

(** The images these writes log *)
Fixpoint images_from (m : gmap Z bytes) (ws : list (Z * bytes)) : list image :=
  match ws with
  | [] => []
  | (pid, after) :: ws => (pid, default [] (m !! pid), after) :: images_from (<[pid := after]> m) ws
  end.
Definition writes_ok (m : gmap Z bytes) (ws : list (Z * bytes)) : Prop :=
  Forall (λ w, is_Some (m !! w.1) ∧ 0 <= w.1 < 2 ^ 32 ∧ zlen w.2 = PAGE_SIZE) ws.

(** Between transactions: the log holds the history [h], the file the pages
    [m], the lock is free, and the next id is new. *)
Record idle (g : Manager P) (h : list txn) (m : gmap Z bytes) : Prop := {
  id_wal : wal_holds g.(mg_wal) (history_entries h) [];
  id_pages : stores g.(mg_pager) m;
  id_lock : owned g.(mg_lock) None;
  id_deadlock : g.(mg_deadlock) = ∅;
  id_next : ∀ t, t ∈ h → t.(tx_no) < g.(mg_next_tx_id);
  id_pos : 0 < g.(mg_next_tx_id) < 2 ^ 64;
  id_active : g.(mg_active_tx) = None;
  id_held : g.(mg_held) = false;
}.

(** Inside of a transaction of the thread [me] that has logged [ls] *)
Record open_tx (g : Manager P) (h : list txn) (me : Z) (tx : TransactionContext) (ls : list image)
    (m : gmap Z bytes) : Prop := {
  op_wal : wal_holds g.(mg_wal) (history_entries (h ++ [mkTxn tx.(tc_tx_id) ls None])) [];
  op_pages : stores g.(mg_pager) m;
  op_lock : owned g.(mg_lock) (Some (me, 1));
  op_deadlock : g.(mg_deadlock) = ∅;
  op_next : g.(mg_next_tx_id) = tx.(tc_tx_id) + 1;
  op_fresh : ∀ t, t ∈ h → t.(tx_no) < tx.(tc_tx_id);
  op_pos : 0 < tx.(tc_tx_id) < 2 ^ 64;
  op_active : g.(mg_active_tx) = Some tx;
  op_held : g.(mg_held) = true;
  op_logged : g.(mg_logged_pages) = map (λ i : image, (i.1.1, i.1.2)) ls;
  op_images : Forall image_ok ls;
}.

Lemma history_snoc h t : history_entries (h ++ [t]) = history_entries h ++ tx_entries t.
Proof. unfold history_entries. rewrite map_app, join_app. simpl. by rewrite app_nil_r. Qed.
Lemma tx_entries_page n ls i : tx_entries (mkTxn n (ls ++ [i]) None) = tx_entries (mkTxn n ls None) ++ [(RT_PAGE, page_payload n i)].
Proof. unfold tx_entries. cbn [tx_no tx_writes tx_end]. by rewrite map_app, !app_nil_r. Qed.
Lemma tx_entries_end n ls c :
  tx_entries (mkTxn n ls (Some c)) =
  tx_entries (mkTxn n ls None) ++ [(if c then RT_COMMIT else RT_ROLLBACK, tx_id_payload n)].
Proof. unfold tx_entries. cbn [tx_no tx_writes tx_end]. rewrite app_nil_r. by destruct c. Qed.

Lemma entry_ok_id ty n : 0 <= ty < 256 → entry_ok (ty, tx_id_payload n).
Proof. intros Hty. unfold entry_ok, tx_id_payload. cbn [fst snd]. rewrite zlen_be_bytes. lia. Qed.

(** One append, whatever the manager *)
Lemma the_wal_append ty payload es (g : Manager P) :
  wal_holds g.(mg_wal) es [] → entry_ok (ty, payload) → 2 + zlen es <= 2 ^ 64 →
  ∃ w, the_wal (append ty payload) g = (Ok (1 + zlen es), with_wal w g) ∧
       wal_holds w (es ++ [(ty, payload)]) [].
Proof.
  intros Hw He Hl. destruct (append_ok _ es (ty, payload) Hw He Hl) as (w & Hx & Hw').
  exists w. split; [|done]. unfold the_wal, zoom. cbn [fst snd] in Hx. by rewrite Hx.
Qed.

Lemma the_lock_acquire me o (g : Manager P) :
  owned g.(mg_lock) o →
  ∃ l, the_lock (wl_acquire me) g = (Ok (spec_acquire me o).1, with_lock l g) ∧ owned l (spec_acquire me o).2.
Proof.
  intros Ho. destruct (wl_acquire_spec _ o me Ho) as (l & Hx & Hl). exists l.
  split; [|done]. unfold the_lock, zoom. by rewrite Hx.
Qed.
Lemma the_lock_release me o (g : Manager P) :
  owned g.(mg_lock) o →
  ∃ l, the_lock (wl_release me) g = ((spec_release me o).1, with_lock l g) ∧ owned l (spec_release me o).2.
Proof.
  intros Ho. destruct (wl_release_spec _ o me Ho) as (l & Hx & Hl). exists l.
  split; [|done]. unfold the_lock, zoom. by rewrite Hx.
Qed.
Lemma encode_tx_id_ok n : 0 <= n < 2 ^ 64 → _encode_tx_id n = Ok (tx_id_payload n).
Proof. intros. unfold _encode_tx_id. by rewrite pack_ube_ok. Qed.

Lemma begin_ok g h m me :
  idle g h m → 2 + zlen (history_entries h) <= 2 ^ 64 →
  ∃ tx g', begin me g = (Ok (Some tx), g') ∧ open_tx g' h me tx [] m ∧
    tx.(tc_tx_id) = g.(mg_next_tx_id) ∧ tx.(tc_snapshot) = mkSnapshot (pi_last_lsn g.(mg_pager)).
Proof.
  intros [Hw Hp Hl Hd Hn Hpos Ha Hh] Hlim. unfold begin, check_deadlock. mrun. rewrite Ha. mrun.
  destruct (the_lock_acquire me None g Hl) as (l & Hx & Hl'). rewrite (run_Ok _ _ _ _ _ Hx). cbn [spec_acquire fst].
  unfold begin_locked, _acquire_snapshot. mrun. cbn [mg_active_tx with_lock mg_next_tx_id]. rewrite Ha. mrun.
  rewrite encode_tx_id_ok by lia. mrun.
  set (g1 := with_next_tx_id _ _).
  destruct (the_wal_append RT_BEGIN (tx_id_payload (mg_next_tx_id g)) (history_entries h) g1) as (w & Hx' & Hw');
    [done|by apply entry_ok_id|done|].
  rewrite (run_Ok _ _ _ _ _ Hx'). mrun. eexists _, _. split; [reflexivity|].
  split; [|done]. constructor; cbn; try done. by rewrite history_snoc.
Qed.

Lemma the_pager_run {A} (c : M P A) (g : Manager P) r p' :
  c g.(mg_pager) = (r, p') → the_pager_of c g = (r, with_pager_of p' g).
Proof. intros Hc. unfold the_pager_of, zoom. by rewrite Hc. Qed.

Lemma logged_write_ok g h me tx ls m pid after :
  open_tx g h me tx ls m → 2 + zlen (history_entries (h ++ [mkTxn tx.(tc_tx_id) ls None])) <= 2 ^ 64 →
  is_Some (m !! pid) → 0 <= pid < 2 ^ 32 → zlen after = PAGE_SIZE →
  ∃ g', logged_write pid after g = (Ok (), g') ∧
    open_tx g' h me tx (ls ++ [(pid, default [] (m !! pid), after)]) (<[pid := after]> m).
Proof.
  intros [Hw Hp Hl Hd Hn Hf Hpos Ha Hh Hlg Him] Hlim [before Hb] Hpid Hz.
  pose proof (pi_size_law _ _ _ _ Hp Hb) as Hbz. rewrite Hb. simpl default.
  unfold logged_write.
  rewrite (run_Ok _ _ _ _ _ (the_pager_run _ g _ _ (pi_read_law _ _ _ _ Hp Hb))).
  replace (with_pager_of (mg_pager g) g) with g by (by destruct g).
  unfold log_page_write. mrun. rewrite Ha.
  assert (image_ok (pid, before, after)) as Hi by (by split).
  pose proof (encode_page_record_ok (tc_tx_id tx) (pid, before, after) ltac:(lia) Hi) as He.
  cbn [fst snd] in He. rewrite He. mrun.
  destruct (the_wal_append RT_PAGE (page_payload (tc_tx_id tx) (pid, before, after)) _ g Hw) as (w & Hx & Hw'); [|done|].
  { split; cbn [fst snd]; [done|]. rewrite zlen_page_payload by done. unfold PAGE_SIZE. lia. }
  rewrite (run_Ok _ _ _ _ _ Hx). mrun.
  destruct (pi_write_law _ _ pid after Hp) as (p' & Hx' & Hs' & _); [by eexists|done|].
  match goal with |- context [the_pager_of _ ?g1] => rewrite (the_pager_run _ g1 _ _ Hx') end.
  eexists. split; [reflexivity|]. constructor; cbn; try done.
  - by rewrite history_snoc, tx_entries_page, app_assoc, <-history_snoc.
  - by rewrite Hlg, map_app.
  - apply Forall_app. by split; [|constructor].
Qed.

Lemma tx_entries_length n ls : zlen (tx_entries (mkTxn n ls None)) = 1 + zlen ls.
Proof.
  unfold tx_entries. cbn [tx_no tx_writes tx_end]. rewrite app_nil_r, zlen_cons.
  unfold zlen. rewrite length_map. lia.
Qed.

Lemma logged_writes_ok ws : ∀ g h me tx ls m,
  open_tx g h me tx ls m → writes_ok m ws →
  3 + zlen (history_entries h) + zlen ls + zlen ws <= 2 ^ 64 →
  ∃ g', logged_writes ws g = (Ok (), g') ∧
    open_tx g' h me tx (ls ++ images_from m ws) (redo m (images_from m ws)).
Proof.
  induction ws as [|[pid after] ws IH]; intros g h me tx ls m Ho Hok Hlim.
  { exists g. split; [done|]. by rewrite app_nil_r. }
  unfold writes_ok in Hok. apply Forall_cons in Hok as ((Hb & Hpid & Hz) & Hok).
  rewrite zlen_cons in Hlim. pose proof (zlen_nonneg ws).
  destruct (logged_write_ok g h me tx ls m pid after Ho) as (g1 & Hx & Ho1); [|done|done|done|].
  { rewrite history_snoc, zlen_app, tx_entries_length. lia. }
  destruct (IH g1 h me tx _ _ Ho1) as (g2 & Hx2 & Ho2).
  { eapply Forall_impl; [exact Hok|]. intros w (Hm & ?). split; [|done].
    destruct (decide (w.1 = pid)) as [->|]; [rewrite lookup_insert_eq|rewrite lookup_insert_ne by done]; by eauto. }
  { rewrite zlen_app, zlen_cons, zlen_nil. lia. }
  exists g2. cbn [logged_writes]. rewrite (run_Ok _ _ _ _ _ Hx). split; [exact Hx2|].
  cbn [images_from redo]. by rewrite cons_middle, app_assoc.
Qed.

(** The pages after the writes *)
Definition pages_after (m : gmap Z bytes) (ws : list (Z * bytes)) : gmap Z bytes :=
  foldl (λ m w, <[w.1 := w.2]> m) m ws.
Lemma images_from_ok (ws : list (Z * bytes)) : ∀ m : gmap Z bytes, writes_ok m ws →
  consistent m (images_from m ws) ∧ redo m (images_from m ws) = pages_after m ws ∧
  pids (images_from m ws) = map (fst : Z * bytes → Z) ws.
Proof.
  induction ws as [|[pid after] ws IH]; intros m Hok; [done|].
  apply Forall_cons in Hok as (([before Hb] & Hpid & Hz) & Hok).
  cbn [fst snd] in Hb. cbn [images_from consistent redo pages_after foldl]. rewrite Hb.
  destruct (IH (<[pid := after]> m)) as (Hc & Hr & Hp).
  { eapply Forall_impl; [exact Hok|]. intros w (Hm & ?). split; [|done].
    destruct (decide (w.1 = pid)) as [->|]; [rewrite lookup_insert_eq|rewrite lookup_insert_ne by done]; by eauto. }
  split; [done|]. split; [done|]. unfold pids in *. simpl. by rewrite Hp.
Qed.

(** The end of a transaction *)
Lemma close_tx_ok (g : Manager P) me tx :
  owned g.(mg_lock) (Some (me, 1)) → g.(mg_deadlock) = ∅ → g.(mg_held) = true →
  ∃ g' : Manager P, close_tx me tx g = (Ok (), g') ∧ g'.(mg_wal) = g.(mg_wal) ∧ g'.(mg_pager) = g.(mg_pager) ∧
    owned g'.(mg_lock) None ∧ g'.(mg_deadlock) = ∅ ∧ g'.(mg_next_tx_id) = g.(mg_next_tx_id) ∧
    g'.(mg_active_tx) = None ∧ g'.(mg_held) = false.
Proof.
  intros Hl Hd Hh. unfold close_tx, _release_lock. mrun.
  cbn [mg_held with_active_tx with_logged_pages with_deadlock]. rewrite Hh.
  match goal with |- context [the_lock _ ?g1] => destruct (the_lock_release me (Some (me, 1)) g1 Hl) as (l & Hx & Hl') end.
  rewrite Hx. eexists. split.
  { f_equal. unfold spec_release. by rewrite decide_True. }
  split; [done|]. split; [done|]. split.
  - cbn [mg_lock with_lock]. unfold spec_release in Hl'. rewrite !decide_True in Hl' by done. exact Hl'.
  - split; [|done]. cbn. rewrite Hd. apply map_eq. intros x. rewrite lookup_empty.
    apply eq_None_not_Some. intros [y Hy]. apply remove_spec in Hy as (Hy & _). by rewrite lookup_empty in Hy.
Qed.

Lemma fsync_ok w es t : wal_holds w es t → fsync w = (Ok (), w).
Proof. intros [_ _ _ Ho _]. unfold fsync. mrun. by rewrite Ho. Qed.
Lemma the_wal_fsync (g : Manager P) es t : wal_holds g.(mg_wal) es t → the_wal fsync g = (Ok (), g).
Proof. intros Hw. unfold the_wal, zoom. rewrite (fsync_ok _ _ _ Hw). by destruct g. Qed.

Lemma idle_after (g : Manager P) h me tx ls m m' w p (g' : Manager P) c :
  open_tx g h me tx ls m → wal_holds w (history_entries (h ++ [mkTxn tx.(tc_tx_id) ls (Some c)])) [] →
  stores p m' → tx.(tc_tx_id) + 1 < 2 ^ 64 →
  g'.(mg_wal) = w ∧ g'.(mg_pager) = p ∧ owned g'.(mg_lock) None ∧ g'.(mg_deadlock) = ∅ ∧
    g'.(mg_next_tx_id) = g.(mg_next_tx_id) ∧ g'.(mg_active_tx) = None ∧ g'.(mg_held) = false →
  idle g' (h ++ [mkTxn tx.(tc_tx_id) ls (Some c)]) m'.
Proof.
  intros Ho Hw Hp Hlim (<- & <- & Hl & Hd & Hn & Ha & Hh). destruct Ho. constructor; try done.
  - rewrite Hn, op_next0. intros t [Ht| ->%list_elem_of_singleton]%elem_of_app; [|simpl; lia].
    specialize (op_fresh0 t Ht). lia.
  - rewrite Hn, op_next0. lia.
Qed.

Lemma commit_ok g h me tx ls m :
  open_tx g h me tx ls m → 2 + zlen (history_entries h) + zlen ls < 2 ^ 32 → tx.(tc_tx_id) + 1 < 2 ^ 64 →
  ∃ g', commit me tx g = (Ok (), g') ∧ idle g' (h ++ [mkTxn tx.(tc_tx_id) ls (Some true)]) m ∧
    g'.(mg_next_tx_id) = tx.(tc_tx_id) + 1.
Proof.
  intros Ho Hlim Hid. pose proof Ho as [Hw Hp Hl Hd Hn Hf Hpos Ha Hh Hlg Him].
  unfold commit. mrun. rewrite Ha, bool_decide_true by done. mrun.
  rewrite encode_tx_id_ok by lia. mrun.
  assert (zlen (history_entries (h ++ [mkTxn (tc_tx_id tx) ls None])) = zlen (history_entries h) + 1 + zlen ls) as Hz.
  { rewrite history_snoc, zlen_app, tx_entries_length. lia. }
  pose proof (zlen_nonneg (history_entries h)). pose proof (zlen_nonneg ls).
  destruct (the_wal_append RT_COMMIT (tx_id_payload (tc_tx_id tx)) _ g Hw) as (w & Hx & Hw');
    [by apply entry_ok_id|lia|].
  rewrite (run_Ok _ _ _ _ _ Hx), (run_Ok _ _ _ _ _ (the_wal_fsync (with_wal w g) _ _ Hw')).
  destruct (pi_set_last_lsn_law (mg_pager g) m
              (1 + zlen (history_entries (h ++ [mkTxn (tc_tx_id tx) ls None]))) Hp) as (p' & Hx2 & Hp' & _); [lia|].
  rewrite (run_Ok _ _ _ () (with_pager_of p' (with_wal w g))).
  2:{ unfold catch. by rewrite (the_pager_run _ (with_wal w g) _ _ Hx2). }
  destruct (close_tx_ok (with_pager_of p' (with_wal w g)) me tx Hl Hd Hh) as (g' & Hx3 & Hg').
  exists g'. split; [done|]. split; [|destruct Hg' as (_ & _ & _ & _ & -> & _); exact Hn].
  eapply idle_after; try done.
  rewrite history_snoc, tx_entries_end, app_assoc, <-history_snoc. exact Hw'.
Qed.

Lemma restore_ok l : ∀ (g : Manager P) m,
  stores g.(mg_pager) m → Forall (λ e, is_Some (m !! e.1) ∧ zlen e.2 = PAGE_SIZE) l →
  ∃ p', restore l g = (Ok (), with_pager_of p' g) ∧ stores p' (foldl (λ m e, <[e.1 := e.2]> m) m l).
Proof.
  induction l as [|[pid before] l IH]; intros g m Hp Hok.
  { exists g.(mg_pager). split; [by destruct g|done]. }
  apply Forall_cons in Hok as ((Hm & Hz) & Hok). cbn [restore foldl fst snd].
  destruct (pi_write_law _ _ pid before Hp Hm Hz) as (p1 & Hx & Hp1 & _).
  rewrite (run_Ok _ _ _ _ _ (the_pager_run _ g _ _ Hx)).
  destruct (IH (with_pager_of p1 g) _ Hp1) as (p2 & Hx2 & Hp2).
  { eapply Forall_impl; [exact Hok|]. intros e (He & ?). split; [|done].
    destruct (decide (e.1 = pid)) as [->|]; [rewrite lookup_insert_eq|rewrite lookup_insert_ne by done]; by eauto. }
  exists p2. split; [|done]. by rewrite Hx2.
Qed.

Lemma redo_dom ls : ∀ (m : gmap Z bytes) x, consistent m ls → is_Some (redo m ls !! x) ↔ is_Some (m !! x).
Proof.
  induction ls as [|[[pid b] a] ls IH]; intros m x; simpl; [done|]. intros [Hb Hc]. rewrite IH by done.
  destruct (decide (x = pid)) as [->|]; [rewrite lookup_insert_eq|by rewrite lookup_insert_ne].
  rewrite Hb. split; by eauto.
Qed.
Lemma consistent_in ls : ∀ (m : gmap Z bytes) i, consistent m ls → i ∈ ls → is_Some (m !! i.1.1).
Proof.
  induction ls as [|[[pid b] a] ls IH]; intros m i; [by intros _ ?%elem_of_nil|].
  intros [Hb Hc] [->|Hi]%elem_of_cons; [by eexists|]. specialize (IH _ i Hc Hi).
  destruct (decide (i.1.1 = pid)) as [->|]; [by eexists|by rewrite lookup_insert_ne in IH].
Qed.
Lemma undo_restore m ls :
  undo m ls = foldl (λ m (e : Z * bytes), <[e.1 := e.2]> m) m (reverse (map (λ i : image, (i.1.1, i.1.2)) ls)).
Proof.
  unfold undo. set (f := λ i : image, (i.1.1, i.1.2)).
  change (map f ls) with (f <$> ls). rewrite <-fmap_reverse.
  generalize (reverse ls). intros l. revert m. induction l as [|i l IH]; intros m; simpl; auto.
Qed.

Lemma rollback_ok g h me tx ls m0 :
  open_tx g h me tx ls (redo m0 ls) → consistent m0 ls →
  3 + zlen (history_entries h) + zlen ls <= 2 ^ 64 → tx.(tc_tx_id) + 1 < 2 ^ 64 →
  ∃ g', rollback me tx g = (Ok (), g') ∧ idle g' (h ++ [mkTxn tx.(tc_tx_id) ls (Some false)]) m0 ∧
    g'.(mg_next_tx_id) = tx.(tc_tx_id) + 1.
Proof.
  intros Ho Hc Hlim Hid. pose proof Ho as [Hw Hp Hl Hd Hn Hf Hpos Ha Hh Hlg Him].
  unfold rollback. mrun. rewrite Ha, bool_decide_true by done. mrun.
  rewrite encode_tx_id_ok by lia. mrun.
  destruct (the_wal_append RT_ROLLBACK (tx_id_payload (tc_tx_id tx)) _ g Hw) as (w & Hx & Hw');
    [by apply entry_ok_id|rewrite history_snoc, zlen_app, tx_entries_length; lia|].
  rewrite (run_Ok _ _ _ _ _ Hx), (run_Ok _ _ _ _ _ (the_wal_fsync (with_wal w g) _ _ Hw')), Hlg.
  destruct (restore_ok (reverse (map (λ i : image, (i.1.1, i.1.2)) ls)) (with_wal w g) _ Hp) as (p' & Hx2 & Hp').
  { apply Forall_reverse, Forall_forall. intros e (i & -> & Hi)%list_elem_of_fmap. cbn [fst snd]. split.
    - apply redo_dom; [done|]. by apply (consistent_in ls).
    - rewrite Forall_forall in Him. by destruct (Him i Hi) as (_ & Hz & _). }
  rewrite (run_Ok _ _ _ _ _ Hx2). rewrite <-undo_restore, undo_redo in Hp' by done.
  destruct (close_tx_ok (with_pager_of p' (with_wal w g)) me tx Hl Hd Hh) as (g' & Hx3 & Hg').
  exists g'. split; [done|]. split; [|destruct Hg' as (_ & _ & _ & _ & -> & _); exact Hn].
  eapply idle_after; try done.
  rewrite history_snoc, tx_entries_end, app_assoc, <-history_snoc. exact Hw'.
Qed.

(** A transaction from its start to just before its end *)
Lemma body_ok g h m me ws :
  idle g h m → writes_ok m ws → 3 + zlen (history_entries h) + zlen ws <= 2 ^ 64 →
  ∃ tx g1 g2, begin me g = (Ok (Some tx), g1) ∧ tx.(tc_tx_id) = g.(mg_next_tx_id) ∧
    logged_writes ws g1 = (Ok (), g2) ∧
    open_tx g2 h me tx (images_from m ws) (pages_after m ws).
Proof.
  intros Hi Hok Hlim. pose proof (zlen_nonneg ws).
  destruct (begin_ok g h m me Hi) as (tx & g1 & Hx & Ho & Htx & _); [lia|].
  destruct (logged_writes_ok ws g1 h me tx [] m Ho Hok) as (g2 & Hx2 & Ho2); [rewrite zlen_nil; lia|].
  exists tx, g1, g2. split; [done|]. split; [done|]. split; [done|].
  destruct (images_from_ok ws m Hok) as (_ & Hr & _). by rewrite app_nil_l, Hr in Ho2.
Qed.
Lemma zlen_images_from m ws : zlen (images_from m ws) = zlen ws.
Proof. revert m. induction ws as [|[pid a] ws IH]; intros m; [done|]. cbn [images_from]. by rewrite !zlen_cons, IH. Qed.

Lemma transaction_commits g h m me ws :
  idle g h m → writes_ok m ws →
  3 + zlen (history_entries h) + zlen ws < 2 ^ 32 → g.(mg_next_tx_id) + 1 < 2 ^ 64 →
  ∃ g', transaction me (λ _, logged_writes ws) g = (Ok (Some ()), g') ∧
    idle g' (h ++ [mkTxn g.(mg_next_tx_id) (images_from m ws) (Some true)]) (pages_after m ws) ∧
    g'.(mg_next_tx_id) = g.(mg_next_tx_id) + 1.
Proof.
  intros Hi Hok Hlim Hid. destruct (body_ok g h m me ws Hi Hok) as (tx & g1 & g2 & Hx & Htx & Hx2 & Ho); [lia|].
  destruct (commit_ok g2 h me tx _ _ Ho) as (g3 & Hx3 & Hi3); [rewrite zlen_images_from; lia|lia|].
  exists g3. rewrite <-Htx. split; [|done]. unfold transaction. rewrite (run_Ok _ _ _ _ _ Hx).
  rewrite (run_Ok _ _ g1 (Ok ()) g2).
  2:{ unfold catch, mbind, M_bind. by rewrite Hx2. }
  by rewrite (run_Ok _ _ _ _ _ Hx3).
Qed.

Lemma transaction_aborts g h m me ws e :
  idle g h m → writes_ok m ws →
  3 + zlen (history_entries h) + zlen ws <= 2 ^ 64 → g.(mg_next_tx_id) + 1 < 2 ^ 64 →
  ∃ g', transaction (A := unit) me (λ _, logged_writes ws;; raise e) g = (Err e, g') ∧
    idle g' (h ++ [mkTxn g.(mg_next_tx_id) (images_from m ws) (Some false)]) m ∧
    g'.(mg_next_tx_id) = g.(mg_next_tx_id) + 1.
Proof.
  intros Hi Hok Hlim Hid. destruct (body_ok g h m me ws Hi Hok) as (tx & g1 & g2 & Hx & Htx & Hx2 & Ho); [lia|].
  destruct (images_from_ok ws m Hok) as (Hc & Hr & _). rewrite <-Hr in Ho.
  destruct (rollback_ok g2 h me tx _ m Ho Hc) as (g3 & Hx3 & Hi3); [rewrite zlen_images_from; lia|lia|].
  exists g3. rewrite <-Htx. split; [|done]. unfold transaction. rewrite (run_Ok _ _ _ _ _ Hx).
  rewrite (run_Ok _ _ g1 (Err e) g2).
  2:{ unfold catch, mbind, M_bind. by rewrite Hx2. }
  by rewrite (run_Ok _ _ _ _ _ Hx3).
Qed.

(** C5: a transaction is all or nothing.  Between transactions, a [with]
    block over any page writes commits them: its writes are on the pages and
    its BEGIN, PAGE and COMMIT records at the end of the log.  The same writes
    followed by an exception leave every page as it was, the records with a
    ROLLBACK in the log, and the exception goes on.  Either way the lock is
    free again and the next id is new. *)
Theorem transaction_atomic g h m me ws e :
  idle g h m → writes_ok m ws →
  3 + zlen (history_entries h) + zlen ws < 2 ^ 32 → g.(mg_next_tx_id) + 1 < 2 ^ 64 →
  let t := mkTxn g.(mg_next_tx_id) (images_from m ws) in
  (∃ g', transaction me (λ _, logged_writes ws) g = (Ok (Some ()), g') ∧
    idle g' (h ++ [t (Some true)]) (pages_after m ws) ∧ g'.(mg_next_tx_id) = g.(mg_next_tx_id) + 1) ∧
  (∃ g', transaction (A := unit) me (λ _, logged_writes ws;; raise e) g = (Err e, g') ∧
    idle g' (h ++ [t (Some false)]) m ∧ g'.(mg_next_tx_id) = g.(mg_next_tx_id) + 1).
Proof.
  intros Hi Hok Hlim Hid t. split; [by apply transaction_commits|]. apply transaction_aborts; [done..|lia|done].
Qed.

(** ** One writer at a time *)

Lemma owned_unique w w' o : owned w o → owned w' o → w' = w.
Proof. by intros [-> _] [-> _]. Qed.
Lemma with_lock_same l o (g : Manager P) : owned g.(mg_lock) o → owned l o → with_lock l g = g.
Proof. intros Hg Hl. rewrite (owned_unique _ _ _ Hg Hl). by destruct g. Qed.

Lemma check_deadlock_open g h me tx ls m : open_tx g h me tx ls m → check_deadlock g = (Ok (), g).
Proof.
  intros [Hw Hp Hl Hd Hn Hf Hpos Ha Hh Hlg Him]. unfold check_deadlock. mrun. rewrite Ha, Hd, Hn.
  rewrite detect_cycle_pair, remove_pair by lia. mrun. unfold with_deadlock. rewrite <-Hd. by destruct g.
Qed.


(** ** A session, a crash, and the recovery *)

(** A transaction of a session: its thread, its page writes, and whether its
    body ends normally *)
Definition job := (Z * list (Z * bytes) * bool)%type.
Definition run_job (j : job) : M (Manager P) unit :=
  let '(me, ws, ok) := j in
  if ok : bool then _ ← transaction me (λ _, logged_writes ws); mret ()
  else catch (_ ← transaction (A := unit) me (λ _, logged_writes ws;; raise GeneralException); mret ())
             (λ _, mret ()).
Fixpoint run_jobs (js : list job) : M (Manager P) unit :=
  match js with [] => mret () | j :: js => run_job j;; run_jobs js end.

(** The pages of the committed transactions *)
Definition job_pages (m : gmap Z bytes) (j : job) : gmap Z bytes :=
  let '(me, ws, ok) := j in if ok : bool then pages_after m ws else m.
Definition committed_pages (m : gmap Z bytes) (js : list job) : gmap Z bytes := foldl job_pages m js.
(** The log records of a job: one per write, BEGIN and COMMIT or ROLLBACK *)
Definition job_size (j : job) : Z := 2 + zlen j.1.2.
Definition total_size (js : list job) : Z := foldr (λ j n, job_size j + n) 0 js.

(** An aborted job writes each page once (see [Recovery]). *)
Definition job_ok (m : gmap Z bytes) (j : job) : Prop :=
  writes_ok m j.1.2 ∧ (j.2 = false → NoDup (map fst j.1.2)).

(** Between transactions, after a serial history from the pages [m0] *)
Record session (g : Manager P) (m0 : gmap Z bytes) (h : list txn) (m : gmap Z bytes) : Prop := {
  se_idle : idle g h m;
  se_ok : Forall tx_ok h;
  se_nodup : NoDup (map tx_no h);
  se_serial : serial m0 h;
  se_final : m = final m0 h;
}.

Lemma serial_snoc h t : ∀ m, serial m (h ++ [t]) ↔
  serial m h ∧ consistent (final m h) t.(tx_writes) ∧ (tx_committed t = false → NoDup (pids t.(tx_writes))).
Proof. induction h as [|t' h IH]; intros m; simpl; [naive_solver|]. rewrite IH. naive_solver. Qed.
Lemma final_snoc h t m : final m (h ++ [t]) = after_tx (final m h) t.
Proof. unfold final. by rewrite foldl_app. Qed.

Definition whole_pages (m : gmap Z bytes) : Prop := map_Forall (λ _ d, zlen d = PAGE_SIZE) m.
Lemma stores_whole p m : stores p m → whole_pages m.
Proof. intros Hp x d Hd. by apply (pi_size_law p m x d). Qed.
Lemma images_from_image_ok ws : ∀ m, whole_pages m → writes_ok m ws → Forall image_ok (images_from m ws).
Proof.
  induction ws as [|[pid after] ws IH]; intros m Hm Hok; [by apply Forall_nil|].
  apply Forall_cons in Hok as (([before Hb] & Hpid & Hz) & Hok). cbn [fst snd] in *. cbn [images_from]. rewrite Hb.
  apply Forall_cons. split.
  - split; [done|]. split; [by apply (Hm pid)|done].
  - apply IH.
    + by apply map_Forall_insert_2.
    + eapply Forall_impl; [exact Hok|]. intros w (Hw & ?). split; [|done].
      destruct (decide (w.1 = pid)) as [->|]; [rewrite lookup_insert_eq|rewrite lookup_insert_ne by done]; by eauto.
Qed.
Lemma history_length h : zlen h <= zlen (history_entries h).
Proof.
  induction h as [|t h IH]; [done|]. rewrite history_entries_cons, zlen_app, zlen_cons.
  unfold tx_entries at 1. rewrite zlen_cons. pose proof (zlen_nonneg (map (λ i, (RT_PAGE, page_payload (tx_no t) i)) (tx_writes t) ++
    match tx_end t with Some true => [(RT_COMMIT, tx_id_payload (tx_no t))] | Some false => [(RT_ROLLBACK, tx_id_payload (tx_no t))] | None => [] end)). lia.
Qed.

Lemma zlen_tx_entries_end n ls c : zlen (tx_entries (mkTxn n ls (Some c))) = 2 + zlen ls.
Proof. rewrite tx_entries_end, zlen_app, tx_entries_length, zlen_cons, zlen_nil. lia. Qed.

(** A session goes on with one more transaction, however it ends. *)
Lemma session_snoc g m0 h m ws c :
  session g m0 h m → writes_ok m ws → (c ≠ Some true → NoDup (map fst ws)) →
  let t := mkTxn g.(mg_next_tx_id) (images_from m ws) c in
  Forall tx_ok (h ++ [t]) ∧ NoDup (map tx_no (h ++ [t])) ∧ serial m0 (h ++ [t]) ∧
  final m0 (h ++ [t]) = if tx_committed t then pages_after m ws else m.
Proof.
  intros [Hi Hok Hnd Hser Hfin] Hw Hc t. destruct (images_from_ok ws m Hw) as (Hcons & Hredo & Hpids).
  split; [|split; [|split]].
  - apply Forall_app. split; [done|]. constructor; [|done]. split; [apply Hi|].
    apply images_from_image_ok; [|done]. apply stores_whole with g.(mg_pager), Hi.
  - rewrite map_app. apply NoDup_app. split; [done|]. split; [|apply NoDup_singleton].
    intros n (t' & -> & Ht')%list_elem_of_fmap Hn%list_elem_of_singleton.
    pose proof (id_next _ _ _ Hi t' Ht'). simpl in Hn. lia.
  - apply serial_snoc. rewrite <-Hfin. split; [done|]. split; [done|].
    unfold tx_committed. cbn [tx_writes tx_end t]. rewrite Hpids. destruct c as [[]|]; [done|auto..].
  - rewrite final_snoc, <-Hfin. unfold after_tx. cbn [tx_writes t]. by rewrite Hredo.
Qed.

Lemma run_job_ok g m0 h m j :
  session g m0 h m → job_ok m j →
  1 + zlen (history_entries h) + job_size j < 2 ^ 32 → g.(mg_next_tx_id) <= zlen h + 1 →
  ∃ g' h', run_job j g = (Ok (), g') ∧ session g' m0 h' (job_pages m j) ∧
    zlen (history_entries h') = zlen (history_entries h) + job_size j ∧ g'.(mg_next_tx_id) <= zlen h' + 1.
Proof.
  destruct j as [[me ws] ok]. unfold job_ok, job_size. cbn [fst snd]. intros Hs [Hw Hnd] Hlim Hnext.
  pose proof (history_length h). pose proof (zlen_nonneg ws). pose proof (se_idle _ _ _ _ Hs) as Hi.
  destruct ok; cbn [run_job job_pages].
  - destruct (transaction_commits g h m me ws Hi Hw) as (g' & Hx & Hi' & Hn'); [lia..|].
    destruct (session_snoc g m0 h m ws (Some true) Hs Hw) as (S1 & S2 & S3 & S4); [done|].
    eexists g', _. rewrite (run_Ok _ _ _ _ _ Hx). split; [reflexivity|]. split; [by constructor|].
    rewrite history_snoc, !zlen_app, zlen_tx_entries_end, zlen_images_from, zlen_cons, zlen_nil. lia.
  - destruct (transaction_aborts g h m me ws GeneralException Hi Hw) as (g' & Hx & Hi' & Hn'); [lia..|].
    destruct (session_snoc g m0 h m ws (Some false) Hs Hw) as (S1 & S2 & S3 & S4); [auto|].
    eexists g', _. unfold catch. rewrite (run_Err _ _ _ _ _ Hx). split; [reflexivity|]. split; [by constructor|].
    rewrite history_snoc, !zlen_app, zlen_tx_entries_end, zlen_images_from, zlen_cons, zlen_nil. lia.
Qed.

Fixpoint jobs_ok (m : gmap Z bytes) (js : list job) : Prop :=
  match js with [] => True | j :: js => job_ok m j ∧ jobs_ok (job_pages m j) js end.

Lemma run_jobs_ok js : ∀ g m0 h m,
  session g m0 h m → jobs_ok m js →
  1 + zlen (history_entries h) + total_size js < 2 ^ 32 → g.(mg_next_tx_id) <= zlen h + 1 →
  ∃ g' h', run_jobs js g = (Ok (), g') ∧ session g' m0 h' (committed_pages m js) ∧
    zlen (history_entries h') = zlen (history_entries h) + total_size js ∧ g'.(mg_next_tx_id) <= zlen h' + 1.
Proof.
  induction js as [|j js IH]; intros g m0 h m Hs Hok Hlim Hn.
  { exists g, h. split; [done|]. split; [done|]. simpl. lia. }
  destruct Hok as [Hj Hok]. cbn [total_size foldr] in Hlim. fold (total_size js) in Hlim.
  assert (∀ js, 0 <= total_size js) as Hpos.
  { intros l. induction l as [|[[? ws] ?] l IHl]; [done|]. simpl. unfold job_size. simpl. pose proof (zlen_nonneg ws). lia. }
  specialize (Hpos js).
  destruct (run_job_ok g m0 h m j Hs Hj) as (g1 & h1 & Hx1 & Hs1 & Hz1 & Hn1); [lia|done|].
  destruct (IH g1 m0 h1 _ Hs1 Hok) as (g2 & h2 & Hx2 & Hs2 & Hz2 & Hn2); [lia|done|].
  exists g2, h2. cbn [run_jobs]. rewrite (run_Ok _ _ _ _ _ Hx1). split; [done|]. split; [done|].
  cbn [total_size foldr]. fold (total_size js). lia.
Qed.

Lemma new_session id p m0 :
  stores p m0 → session (new_manager id p create_wal) m0 [] m0.
Proof.
  intros Hp. constructor; try done; [|apply NoDup_nil_2].
  constructor; try done; [|by intros t ?%elem_of_nil].
  apply (open_wal_ok [] []); [|apply torn_nil]. split; [done|]. by split.
Qed.

(** Pages that no transaction touched *)
Lemma final_other h : ∀ m x, x ∉ touched h → final m h !! x = m !! x.
Proof.
  induction h as [|t h IH]; intros m x Hx; [done|]. unfold touched in Hx. cbn [map mjoin list_join] in Hx.
  rewrite elem_of_app in Hx. unfold final. cbn [foldl]. fold (final (after_tx m t) h).
  rewrite IH by (unfold touched; tauto). unfold after_tx. destruct (tx_committed t); [|done].
  apply redo_other. unfold pids in Hx. tauto.
Qed.
Lemma serial_mapped h : ∀ m x, serial m h →
  (x ∈ touched h → is_Some (m !! x)) ∧ (is_Some (final m h !! x) ↔ is_Some (m !! x)).
Proof.
  induction h as [|t h IH]; intros m x; [split; [by intros ?%elem_of_nil|done]|].
  intros (Hc & _ & Hs). destruct (IH _ x Hs) as [S1 S2].
  assert (is_Some (after_tx m t !! x) ↔ is_Some (m !! x)) as Ha.
  { unfold after_tx. destruct (tx_committed t); [by apply redo_dom|done]. }
  split.
  - unfold touched. cbn [map mjoin list_join]. rewrite elem_of_app. intros [Hx|Hx].
    + apply list_elem_of_fmap in Hx as (i & -> & Hi). by apply (consistent_in (tx_writes t)).
    + apply Ha, S1. exact Hx.
  - unfold final. cbn [foldl]. fold (final (after_tx m t) h). by rewrite S2.
Qed.

Lemma recover_open_ok g m0 h m me ws :
  session g m0 h m → writes_ok m ws → NoDup (map fst ws) →
  3 + zlen (history_entries h) + zlen ws <= 2 ^ 64 → g.(mg_next_tx_id) <= zlen h + 1 →
  ∃ tx g1 g2 s p', begin me g = (Ok (Some tx), g1) ∧ logged_writes ws g1 = (Ok (), g2) ∧
    replay (open_wal g2.(mg_wal).(wal_file)) g2.(mg_pager) = (Ok s, p') ∧ stores p' m.
Proof.
  intros Hs Hw Hnd Hlim Hn. pose proof (se_idle _ _ _ _ Hs) as Hi.
  destruct (body_ok g h m me ws Hi Hw Hlim) as (tx & g1 & g2 & Hx & Htx & Hx2 & Ho).
  destruct (session_snoc g m0 h m ws None Hs Hw) as (S1 & S2 & S3 & S4); [done|].
  set (h' := h ++ [mkTxn (mg_next_tx_id g) (images_from m ws) None]) in *. cbn in S4.
  destruct (op_wal _ _ _ _ _ _ Ho) as [Hf Ht _ _ Hlo]. rewrite Htx in Hf, Hlo. fold h' in Hf, Hlo.
  pose proof (open_wal_ok _ [] Hlo torn_nil) as Hwal. rewrite <-Hf in Hwal.
  destruct (images_from_ok ws m Hw) as (Hcons & Hredo & Hpids).
  destruct (replay_history _ [] h' m0 (pages_after m ws) g2.(mg_pager) Hwal S1 S2 S3) as (s & p' & Hr & Hp' & _).
  - apply Ho.
  - intros x Hx'. rewrite <-Hredo. apply redo_dom; [done|]. rewrite (se_final _ _ _ _ Hs).
    apply (serial_mapped h m0 x (se_serial _ _ _ _ Hs)). exact (proj1 (serial_mapped h' m0 x S3) Hx').
  - intros x Hx'. unfold touched, h' in Hx'. rewrite map_app, join_app, elem_of_app in Hx'.
    rewrite <-Hredo, redo_other, (se_final _ _ _ _ Hs).
    + apply final_other. unfold touched. tauto.
    + intros Hin. apply Hx'. right. cbn. rewrite app_nil_r. exact Hin.
  - exists tx, g1, g2, s, p'. split; [done|]. split; [done|]. split; [done|]. by rewrite <-S4.
Qed.

(** C4: crash recovery, end to end.  From a new log over any page file, let
    any number of transactions of any threads run, each committed or aborted
    by an exception, and let a last one crash after some of its writes; the
    pages it wrote are on disk.  Reopening the log and replaying it over the
    page file leaves exactly the writes of the committed transactions.  (The
    transactions that do not commit write each page once, and the log has less
    than 2^32 records.) *)
Theorem crash_recovery id p m0 js me ws :
  stores p m0 → jobs_ok m0 js → writes_ok (committed_pages m0 js) ws → NoDup (map fst ws) →
  3 + total_size js + zlen ws < 2 ^ 32 →
  ∃ g tx g1 g2 s p',
    run_jobs js (new_manager id p create_wal) = (Ok (), g) ∧
    begin me g = (Ok (Some tx), g1) ∧ logged_writes ws g1 = (Ok (), g2) ∧
    replay (open_wal g2.(mg_wal).(wal_file)) g2.(mg_pager) = (Ok s, p') ∧
    stores p' (committed_pages m0 js).
Proof.
  intros Hp Hok Hw Hnd Hlim. pose proof (zlen_nonneg ws).
  destruct (run_jobs_ok js _ m0 [] m0 (new_session id p m0 Hp) Hok) as (g & h & Hx & Hs & Hz & Hn);
    [simpl; change (zlen (history_entries [])) with 0; lia|done|].
  change (zlen (history_entries [])) with 0 in Hz.
  destruct (recover_open_ok g m0 h _ me ws Hs Hw Hnd) as (tx & g1 & g2 & s & p' & Hr); [lia|done|].
  by exists g, tx, g1, g2, s, p'.
Qed.
End Spec.

(** * Checkpoint records *)

(** A checkpoint record changes nothing for recovery. *)
Lemma checkpoint_run_ok w es :
  wal_holds w es [] → 2 + zlen es <= 2 ^ 64 →
  ∃ w', checkpoint_run w = (Ok (1 + zlen es), w') ∧
        wal_holds w' (es ++ [(RT_CKPT, be_bytes 8 (1 + zlen es))]) [].
Proof.
  intros Hw Hl. pose proof (zlen_nonneg es). unfold checkpoint_run, _encode_lsn. mrun.
  rewrite (wh_next _ _ _ Hw), pack_ube_ok by (change (8 * Z.of_nat 8) with 64; lia). mrun.
  destruct (append_ok w es (RT_CKPT, be_bytes 8 (1 + zlen es)) Hw) as (w' & Hx & Hw'); [|done|].
  - split; cbn [fst snd]; [done|]. by rewrite zlen_be_bytes.
  - cbn [fst snd] in Hx. rewrite (run_Ok _ _ _ _ _ Hx). by exists w'.
Qed.
Lemma analyse_checkpoint st es lsn payload :
  analyse_entries st (es ++ [(RT_CKPT, payload)]) =
  st' ← analyse_entries st es; analyse st' (mkRecord lsn RT_CKPT payload).
Proof. rewrite analyse_entries_app. by destruct (analyse_entries st es) as [[]|]. Qed.

(** * Concrete runs, on the pages of a fresh database *)

Definition demo_manager : Manager Pager := new_manager 0 fresh_pager create_wal.
Lemma demo_session : session (stores := pager_stores) demo_manager demo_pages [] demo_pages.
Proof. exact (new_session 0 fresh_pager demo_pages demo_stores). Qed.

Definition demo_writes : list (Z * bytes) := [(1, pageA); (2, pageC)].
Lemma demo_writes_ok : writes_ok demo_pages demo_writes.
Proof.
  destruct zlen_pages as (HA & HB & HC). unfold writes_ok, demo_writes.
  repeat (apply Forall_cons; split; [split; [by eexists|split; [done|done]]|]). by apply Forall_nil.
Qed.

Lemma transaction_atomic_witness :
  ∃ g', transaction 7 (λ _, logged_writes demo_writes) demo_manager = (Ok (Some ()), g') ∧
    idle (stores := pager_stores) g' [mkTxn 1 (images_from demo_pages demo_writes) (Some true)]
      (<[2 := pageC]> (<[1 := pageA]> demo_pages)).
Proof.
  destruct (transaction_atomic (stores := pager_stores) demo_manager [] demo_pages 7 demo_writes KeyError
              (se_idle _ _ _ _ demo_session) demo_writes_ok eq_refl eq_refl) as [(g' & Hx & Hi & _) _].
  exists g'. split; [exact Hx|exact Hi].
Defined.


(** One transaction commits page 1, one aborts, and one crashes. *)
Lemma crash_recovery_witness :
  ∃ g tx g1 g2 s p',
    run_jobs [(7, [(1, pageB)], true); (8, [(1, pageC)], false)] demo_manager = (Ok (), g) ∧
    begin 7 g = (Ok (Some tx), g1) ∧ logged_writes demo_writes g1 = (Ok (), g2) ∧
    replay (open_wal g2.(mg_wal).(wal_file)) g2.(mg_pager) = (Ok s, p') ∧
    pager_stores p' (<[1 := pageB]> demo_pages).
Proof.
  destruct zlen_pages as (HA & HB & HC).
  apply (crash_recovery (stores := pager_stores) 0 fresh_pager demo_pages
           [(7, [(1, pageB)], true); (8, [(1, pageC)], false)] 7 demo_writes demo_stores).
  - cbn [jobs_ok]. split; [|split; [|done]].
    + split; [|done]. apply Forall_cons. split; [|by apply Forall_nil]. split; [by eexists|done].
    + split; [|intros _; apply NoDup_singleton].
      apply Forall_cons. split; [|by apply Forall_nil]. split; [by eexists|done].
  - unfold demo_writes. repeat (apply Forall_cons; split; [split; [by eexists|split; [done|done]]|]). by apply Forall_nil.
  - apply (bool_decide_unpack _). vm_compute. exact I.
  - vm_compute. reflexivity.
Defined.

(** [begin] takes the lock before it appends to the log: when the append
    raises, the lock stays taken, and every other thread waits for ever. *)
Example failed_begin_keeps_the_lock :
  let g := with_wal (wal_close create_wal).2 demo_manager in
  let '(r, g') := begin 7 g in
  r = Err ValueError ∧ g'.(mg_active_tx) = None ∧ (begin 8 g').1 = Ok None.
Proof. vm_compute. split_and!; reflexivity. Qed.

(** The header of the page file has 32 bits for the LSN, the log 64: the
    commit with LSN 2^32 succeeds (the exception is dropped), and from then on
    every operation that rewrites the header fails. *)
Example lsn_overflow_breaks_the_pager :
  let '(r, p) := set_last_lsn (2 ^ 32) fresh_pager in
  r = Err StructError ∧ (allocate_page p).1 = Err StructError.
Proof. vm_compute. split; reflexivity. Qed.
