(* ===== verification/Tokens.v ===== *)
(** Component [sql/tokens.py]: the SQL tokenizer. *)
From S2P Require Import Prelude.
From S2P Require Import Bytes.
From S2P Require Import Utf8.
From S2P Require Import Text.
From S2P Require Import Float64.
From S2P Require Import TypeSys.
From Stdlib Require Import ZArith Lia.
Local Open Scope Z_scope.

(** * What the tokenizer asks the Unicode database of the interpreter *)

(** [str.isalpha], [str.isdigit], [str.isalnum] of one character, and
    [unicodedata.decimal], the value of the characters [int] accepts as digits *)
Class UniLib := {
  uc_isalpha : Z → bool;
  uc_isdigit : Z → bool;
  uc_isalnum : Z → bool;
  uc_decimal : Z → option Z;
}.
Definition ascii_letter (c : Z) : bool := ((65 <=? c) && (c <=? 90)) || ((97 <=? c) && (c <=? 122)).
(** Documented: the ASCII range, and that alphabetic characters and digits are
    alphanumeric and decimal characters are digits *)
Class UniLaws `{UniLib} : Prop := {
  uc_ascii_alpha c : 0 <= c < 128 → uc_isalpha c = ascii_letter c;
  uc_ascii_digit c : 0 <= c < 128 → uc_isdigit c = is_ascii_digit c;
  uc_ascii_alnum c : 0 <= c < 128 → uc_isalnum c = ascii_letter c || is_ascii_digit c;
  uc_ascii_decimal c : 0 <= c < 128 → uc_decimal c = if is_ascii_digit c then Some (c - 48) else None;
}.

Section Tokenizer.
Context `{UniLib}.

(** [int(text)] and [float(text)] of a text of [isdigit] characters (and one
    period): characters that are digits but not decimal, and integers longer
    than the interpreter's limit of 4300 digits, are refused. *)
Fixpoint decimals (s : pystr) : result (list Z) :=
  match s with
  | [] => Ok []
  | c :: s => d ← of_option ValueError (uc_decimal c); ds ← decimals s; Ok (d :: ds)
  end.
Definition number_of (ds : list Z) : Z := fold_left (λ a d, 10 * a + d) ds 0.
Definition int_of_text (s : pystr) : result Z :=
  ds ← decimals s; if 4300 <? zlen s then Err ValueError else Ok (number_of ds).
Definition float_of_text (whole frac : pystr) : result Z :=
  a ← decimals whole; b ← decimals frac;
  Ok (bits_of_sf (true_div (number_of (a ++ b)) (10 ^ zlen frac))).

(** * Tokens *)

Inductive TokenKind :=
  | KEYWORD | IDENT | INT_LIT | FLOAT_LIT | STRING_LIT | BOOL_LIT | NULL_LIT
  | OP | LPAREN | RPAREN | COMMA | SEMI | DOT | EOF.
#[global] Instance TokenKind_eq_dec : EqDecision TokenKind.
Proof. solve_decision. Defined.

Record Token := mkToken { tk_kind : TokenKind; tk_value : pyval; tk_line : Z; tk_col : Z }.

Definition KEYWORDS : list pystr := map u [
  "CREATE"; "TABLE"; "DROP"; "ALTER"; "IF"; "EXISTS";
  "INSERT"; "INTO"; "VALUES"; "UPDATE"; "SET"; "DELETE";
  "SELECT"; "FROM"; "WHERE"; "ORDER"; "BY"; "GROUP"; "HAVING";
  "LIMIT"; "OFFSET"; "ASC"; "DESC"; "AS"; "ON";
  "AND"; "OR"; "NOT"; "IS"; "NULL"; "LIKE"; "IN"; "BETWEEN";
  "TRUE"; "FALSE";
  "JOIN"; "LEFT"; "RIGHT"; "INNER"; "OUTER"; "FULL";
  "CROSS"; "USING";
  "INT"; "INTEGER"; "FLOAT"; "DOUBLE"; "REAL"; "TEXT"; "VARCHAR";
  "BOOL"; "BOOLEAN"; "DATE"; "TIME"; "DATETIME"; "TIMESTAMP";
  "DECIMAL"; "NUMERIC"; "BLOB"; "BYTEA"; "JSON";
  "PRIMARY"; "KEY"; "UNIQUE"; "DEFAULT"; "CHECK"; "INDEX";
  "COUNT"; "SUM"; "AVG"; "MIN"; "MAX"]%string.

Definition _MULTI_CHAR_OPS : list pystr := map u [">="; "<="; "!="]%string.

(** The rest of the source and the position of its first character *)
Definition cursor := (pystr * Z * Z)%type.

(** A line comment: the column stays where the comment started. *)
Fixpoint skip_line (s : pystr) : pystr :=
  match s with [] => [] | c :: s' => if c =? 10 then s else skip_line s' end.

(** The inside of a block comment *)
Fixpoint skip_block (s : pystr) (line col : Z) : result cursor :=
  match s with
  | [] => Err (ParseError line col)
  | c :: s1 =>
      let one := if c =? 10 then skip_block s1 (line + 1) 1 else skip_block s1 line (col + 1) in
      match s1 with
      | d :: s2 =>
          if (c =? 42) && (d =? 47) then Ok (s2, line, col + 2)
          else if (c =? 47) && (d =? 42) then skip_block s2 line (col + 2)
          else one
      | [] => one
      end
  end.

(** The inside of a string literal: its characters and what follows the
    closing quote *)
Fixpoint string_lit (s : pystr) (line col : Z) : option (pystr * cursor) :=
  match s with
  | [] => None
  | c :: s1 =>
      if c =? 39 then
        match s1 with
        | d :: s2 =>
            if d =? 39 then '(buf, k) ← string_lit s2 line (col + 2); Some (39 :: buf, k)
            else Some ([], (s1, line, col + 1))
        | [] => Some ([], (s1, line, col + 1))
        end
      else
        '(buf, k) ← (if c =? 10 then string_lit s1 (line + 1) 1 else string_lit s1 line (col + 1));
        Some (c :: buf, k)
  end.

Definition is_word (c : Z) : bool := uc_isalnum c || (c =? 95).
Fixpoint span (p : Z → bool) (s : pystr) : pystr * pystr :=
  match s with
  | [] => ([], [])
  | c :: s' => if p c then let '(a, b) := span p s' in (c :: a, b) else ([], s)
  end.

Definition mem (x : pystr) (l : list pystr) : bool := bool_decide (x ∈ l).

Definition word_token (text : pystr) (line col : Z) : Token :=
  let up := upper text in
  if mem up KEYWORDS then
    if bool_decide (up = u "TRUE") then mkToken BOOL_LIT (PyBool true) line col
    else if bool_decide (up = u "FALSE") then mkToken BOOL_LIT (PyBool false) line col
    else if bool_decide (up = u "NULL") then mkToken NULL_LIT PyNone line col
    else mkToken KEYWORD (PyStr up) line col
  else mkToken IDENT (PyStr text) line col.

(** A number, from its first digit on *)
Definition number_token (s : pystr) (line col : Z) : result (Token * cursor) :=
  let '(whole, s1) := span uc_isdigit s in
  let int :=
    z ← int_of_text whole;
    Ok (mkToken INT_LIT (PyInt z) line col, (s1, line, col + zlen whole)) in
  match s1 with
  | d :: s2 =>
      if d =? 46 then
        let '(frac, s3) := span uc_isdigit s2 in
        w ← float_of_text whole frac;
        Ok (mkToken FLOAT_LIT (PyFloat w) line col, (s3, line, col + zlen whole + 1 + zlen frac))
      else int
  | [] => int
  end.

Definition starts_with (p s : pystr) : bool := bool_decide (ztake (zlen p) s = p).

Definition single_ops : pystr := u "+-*/<>=".
Definition separators : list (Z * TokenKind) :=
  [(40, LPAREN); (41, RPAREN); (44, COMMA); (59, SEMI); (46, DOT)].

(** Operators and separators *)
Definition symbol_token (c : Z) (s : pystr) (line col : Z) : result (Token * cursor) :=
  match list_find (λ op, starts_with op s = true) _MULTI_CHAR_OPS with
  | Some (_, op) => Ok (mkToken OP (PyStr op) line col, (zdrop (zlen op) s, line, col + zlen op))
  | None =>
      if bool_decide (c ∈ single_ops) then Ok (mkToken OP (PyStr [c]) line col, (zdrop 1 s, line, col + 1))
      else match list_find (λ p, p.1 = c) separators with
           | Some (_, (_, k)) => Ok (mkToken k (PyStr [c]) line col, (zdrop 1 s, line, col + 1))
           | None => Err (ParseError line col)
           end
  end.

(** One round of the loop of [tokenize] *)
Definition lex_step (c : Z) (s' : pystr) (line col : Z) : result (option Token * cursor) :=
  let s := c :: s' in
  if bool_decide (c ∈ [32; 9; 13]) then Ok (None, (s', line, col + 1)) else
  if c =? 10 then Ok (None, (s', line + 1, 1)) else
  if starts_with (u "--") s then Ok (None, (skip_line s, line, col)) else
  if starts_with (u "/*") s then k ← skip_block (zdrop 2 s) line (col + 2); Ok (None, k) else
  if c =? 39 then
    '(buf, k) ← of_option (ParseError line col) (string_lit s' line (col + 1));
    Ok (Some (mkToken STRING_LIT (PyStr buf) line col), k)
  else if uc_isalpha c || (c =? 95) then
    let '(more, rest) := span is_word s' in
    let text := c :: more in
    Ok (Some (word_token text line col), (rest, line, col + zlen text))
  else if uc_isdigit c then '(t, k) ← number_token s line col; Ok (Some t, k)
  else '(t, k) ← symbol_token c s line col; Ok (Some t, k).

Fixpoint lex (fuel : nat) (k : cursor) : result (list Token) :=
  let '(s, line, col) := k in
  match s with
  | [] => Ok [mkToken EOF PyNone line col]
  | c :: s' =>
      match fuel with
      | O => Err OutOfFuel
      | S fuel =>
          '(t, k) ← lex_step c s' line col;
          ts ← lex fuel k;
          Ok (match t with Some t => t :: ts | None => ts end)
      end
  end.

Definition tokenize (sql : pystr) : result (list Token) := lex (length sql) (sql, 1, 1).
End Tokenizer.

(** * Positions *)

(** The position after some text, newlines counted *)
Definition step_pos (p : Z * Z) (c : Z) : Z * Z := if c =? 10 then (p.1 + 1, 1) else (p.1, p.2 + 1).
Definition advance (p : Z * Z) (s : pystr) : Z * Z := foldl step_pos p s.
Definition pos_of (pre : pystr) : Z * Z := advance (1, 1) pre.

Lemma advance_app p a b : advance p (a ++ b) = advance (advance p a) b.
Proof. apply foldl_app. Qed.
Lemma advance_cons p c s : advance p (c :: s) = advance (step_pos p c) s.
Proof. done. Qed.
Lemma advance_plain s : ∀ l c, Forall (λ x, x ≠ 10) s → advance (l, c) s = (l, c + zlen s).
Proof.
  induction s as [|x s IH]; intros l c Hs; [unfold zlen; simpl; f_equal; lia|].
  apply Forall_cons in Hs as [Hx Hs]. rewrite advance_cons. unfold step_pos.
  destruct (Z.eqb_spec x 10); [done|]. cbn [fst snd]. rewrite IH by done. rewrite zlen_cons. f_equal. lia.
Qed.

Lemma span_spec p s a b : span p s = (a, b) → s = a ++ b ∧ Forall (λ c, p c = true) a ∧ span p a = (a, []) ∧
  match b with [] => True | c :: _ => p c = false end.
Proof.
  revert a b. induction s as [|c s IH]; intros a b; simpl; [by intros [= <- <-]|].
  destruct (p c) eqn:Hc; [|intros [= <- <-]; by rewrite Hc].
  destruct (span p s) as [a' b'] eqn:Hs. intros [= <- <-]. destruct (IH a' b' eq_refl) as (-> & Ha & Hsp & Hb).
  split; [done|]. split; [by constructor|]. split; [|done]. simpl. by rewrite Hc, Hsp.
Qed.
Lemma span_app p a b : Forall (λ c, p c = true) a → match b with [] => True | c :: _ => p c = false end →
  span p (a ++ b) = (a, b).
Proof.
  intros Ha Hb. induction Ha as [|c a Hc _ IH]; simpl.
  - destruct b as [|c b]; [done|]. simpl. by rewrite Hb.
  - by rewrite Hc, IH.
Qed.

Lemma starts_with_app p s : starts_with p (p ++ s) = true.
Proof. apply bool_decide_eq_true. by apply ztake_app. Qed.
Lemma starts_with_inv p s : starts_with p s = true → s = p ++ zdrop (zlen p) s.
Proof. intros Hp%bool_decide_eq_true. rewrite <-Hp at 1. symmetry. apply ztake_zdrop. Qed.
Lemma starts_with_short p s : zlen s < zlen p → starts_with p s = false.
Proof.
  intros Hl. apply bool_decide_eq_false. intros Hp. rewrite ztake_all in Hp by lia. subst. lia.
Qed.

Lemma string_lit_spec n : ∀ s line col buf rest l2 c2, (length s <= n)%nat →
  string_lit s line col = Some (buf, (rest, l2, c2)) →
  ∃ body, s = body ++ rest ∧ body ≠ [] ∧ (l2, c2) = advance (line, col) body ∧
    ∀ l c, string_lit body l c = Some (buf, ([], (advance (l, c) body).1, (advance (l, c) body).2)).
Proof.
  induction n as [|n IH]; intros s line col buf rest l2 c2 Hn.
  { destruct s; [done|simpl in Hn; lia]. }
  destruct s as [|x s1]; [done|]. simpl. destruct (Z.eqb_spec x 39) as [->|Hx].
  - destruct s1 as [|d s2].
    + intros [= <- <- <- <-]. by exists [39].
    + destruct (Z.eqb_spec d 39) as [->|Hd].
      * destruct (string_lit s2 line (col + 2)) as [[buf' [[r l'] c']]|] eqn:Hs; [|done].
        simpl. intros [= <- <- <- <-]. destruct (IH s2 _ _ _ _ _ _ ltac:(simpl in Hn; lia) Hs) as (body & -> & Hne & Hadv & Hal).
        exists (39 :: 39 :: body). split; [done|]. split; [done|]. rewrite !advance_cons.
        assert (∀ p, step_pos (step_pos p 39) 39 = (p.1, p.2 + 2)) as Hstep.
        { intros []. unfold step_pos. cbn [fst snd]. f_equal. change (39 =? 10) with false. cbv iota. cbn [snd]. lia. }
        rewrite Hstep. split; [done|]. intros l c. rewrite !advance_cons, Hstep. cbn [string_lit].
        rewrite Z.eqb_refl. cbn [fst snd]. by rewrite Hal.
      * intros [= <- <- <- <-]. by exists [39].
  - destruct (Z.eqb_spec x 10) as [->|Hx10].
    + destruct (string_lit s1 (line + 1) 1) as [[buf' [[r l'] c']]|] eqn:Hs; [|done].
      simpl. intros [= <- <- <- <-]. destruct (IH s1 _ _ _ _ _ _ ltac:(simpl in Hn; lia) Hs) as (body & -> & Hne & Hadv & Hal).
      exists (10 :: body). split; [done|]. split; [done|]. split; [exact Hadv|]. intros l c. simpl. by rewrite Hal.
    + destruct (string_lit s1 line (col + 1)) as [[buf' [[r l'] c']]|] eqn:Hs; [|done].
      simpl. intros [= <- <- <- <-]. destruct (IH s1 _ _ _ _ _ _ ltac:(simpl in Hn; lia) Hs) as (body & -> & Hne & Hadv & Hal).
      exists (x :: body). split; [done|]. split; [done|].
      assert (∀ l c, step_pos (l, c) x = (l, c + 1)) as Hstep.
      { intros l c. unfold step_pos. by destruct (Z.eqb_spec x 10). }
      rewrite advance_cons, Hstep. split; [done|]. intros l c. rewrite advance_cons, Hstep. simpl.
      destruct (Z.eqb_spec x 39); [done|]. destruct (Z.eqb_spec x 10); [done|]. by rewrite Hal.
Qed.

Lemma skip_line_spec s : ∃ taken, s = taken ++ skip_line s ∧ Forall (λ x, x ≠ 10) taken ∧
  match skip_line s with [] => True | c :: _ => c = 10 end.
Proof.
  induction s as [|c s (taken & Heq & Hp & Hr)]; [by exists []|]. simpl.
  destruct (Z.eqb_spec c 10) as [->|Hc]; [by exists []|].
  exists (c :: taken). split; [simpl; by rewrite <-Heq|]. split; [by constructor|done].
Qed.

Lemma skip_block_spec n : ∀ s line col rest l2 c2, (length s <= n)%nat →
  skip_block s line col = Ok (rest, l2, c2) →
  ∃ body, s = body ++ rest ∧ (l2, c2) = advance (line, col) body.
Proof.
  assert (∀ p x y, x ≠ 10 → y ≠ 10 → step_pos (step_pos p x) y = (p.1, p.2 + 2)) as Hstep2.
  { intros [] x y Hx Hy. unfold step_pos. cbn [fst snd].
    destruct (Z.eqb_spec x 10), (Z.eqb_spec y 10); try done. cbn [fst snd]. f_equal. lia. }
  induction n as [|n IH]; intros s line col rest l2 c2 Hn.
  { destruct s; [done|simpl in Hn; lia]. }
  destruct s as [|x s1]; [done|]. cbn [skip_block].
  assert ((if x =? 10 then skip_block s1 (line + 1) 1 else skip_block s1 line (col + 1)) = Ok (rest, l2, c2) →
    ∃ body, x :: s1 = body ++ rest ∧ (l2, c2) = advance (line, col) body) as Hone.
  { destruct (Z.eqb_spec x 10) as [->|Hx]; intros Hs;
      destruct (IH s1 _ _ _ _ _ ltac:(simpl in Hn; lia) Hs) as (body & -> & Hadv).
    - by exists (10 :: body).
    - exists (x :: body). split; [done|]. rewrite advance_cons. unfold step_pos at 1.
      by destruct (Z.eqb_spec x 10). }
  destruct s1 as [|d s2]; [exact Hone|].
  destruct ((x =? 42) && (d =? 47)) eqn:H1.
  { apply andb_prop in H1 as [->%Z.eqb_eq ->%Z.eqb_eq].
    intros [= <- <- <-]. exists [42; 47]. split; [done|]. unfold advance. cbn [foldl].
    rewrite Hstep2 by lia. done. }
  destruct ((x =? 47) && (d =? 42)) eqn:H2; [|exact Hone].
  apply andb_prop in H2 as [->%Z.eqb_eq ->%Z.eqb_eq].
  intros Hs. destruct (IH s2 _ _ _ _ _ ltac:(simpl in Hn; lia) Hs) as (body & -> & Hadv).
  exists (47 :: 42 :: body). split; [done|]. by rewrite !advance_cons, Hstep2.
Qed.

(** The same token at another position *)
Definition moved (t : Token) (l c : Z) : Token := mkToken t.(tk_kind) t.(tk_value) l c.

Section Lexemes.
Context `{UniLaws}.

Lemma digit_plain c : uc_isdigit c = true → c ≠ 10.
Proof. intros Hd ->. by rewrite uc_ascii_digit in Hd by lia. Qed.
Lemma word_plain c : is_word c = true → c ≠ 10.
Proof. intros Hd ->. unfold is_word in Hd. by rewrite uc_ascii_alnum in Hd by lia. Qed.

(** A number token is the number token of its own text. *)
Lemma number_token_spec s line col t rest l2 c2 :
  number_token s line col = Ok (t, (rest, l2, c2)) →
  match s with [] => False | c :: _ => uc_isdigit c = true end →
  ∃ body, s = body ++ rest ∧ body ≠ [] ∧ Forall (λ x, x ≠ 10) body ∧ (l2, c2) = (line, col + zlen body) ∧
    tk_kind t ≠ EOF ∧ t = moved t line col ∧
    ∀ l c, number_token body l c = Ok (moved t l c, ([], l, c + zlen body)).
Proof.
  unfold number_token. destruct (span uc_isdigit s) as [whole s1] eqn:Hs.
  apply span_spec in Hs as (-> & Hw & Hsw & Hs1). intros Hx Hd0.
  assert (whole ≠ []) as Hne by (intros ->; simpl in Hd0; destruct s1; [done|congruence]).
  revert Hx. clear Hd0.
  assert (Forall (λ x, x ≠ 10) whole) as Hpl by (eapply Forall_impl; [exact Hw|]; apply digit_plain).
  assert ((z ← int_of_text whole; Ok (mkToken INT_LIT (PyInt z) line col, (s1, line, col + zlen whole))) =
    Ok (t, (rest, l2, c2)) → ∃ body, whole ++ s1 = body ++ rest ∧ body ≠ [] ∧ Forall (λ x, x ≠ 10) body ∧
      (l2, c2) = (line, col + zlen body) ∧ tk_kind t ≠ EOF ∧ t = moved t line col ∧
      ∀ l c, (let '(whole, s1) := span uc_isdigit body in
        let int := z ← int_of_text whole; Ok (mkToken INT_LIT (PyInt z) l c, (s1, l, c + zlen whole)) in
        match s1 with
        | d :: s2 => if d =? 46 then
            let '(frac, s3) := span uc_isdigit s2 in
            w ← float_of_text whole frac;
            Ok (mkToken FLOAT_LIT (PyFloat w) l c, (s3, l, c + zlen whole + 1 + zlen frac)) else int
        | [] => int
        end) = Ok (moved t l c, ([], l, c + zlen body))) as Hint.
  { intros Hx. destruct (int_of_text whole) as [z|] eqn:Hz; [|done]. simpl in Hx. injection Hx as <- <- <- <-.
    exists whole. do 6 (split; [done|]).
    intros l c. rewrite Hsw. cbv zeta iota. by rewrite Hz. }
  destruct s1 as [|d s2]; [exact Hint|]. destruct (Z.eqb_spec d 46) as [->|Hd]; [|exact Hint]. clear Hint.
  destruct (span uc_isdigit s2) as [frac s3] eqn:Hs2. apply span_spec in Hs2 as (-> & Hf & Hsf & Hs3).
  destruct (float_of_text whole frac) as [w|] eqn:Hfl; [|done]. simpl. intros [= <- <- <- <-].
  assert (Forall (λ x, x ≠ 10) frac) as Hpf by (eapply Forall_impl; [exact Hf|]; apply digit_plain).
  exists (whole ++ 46 :: frac). rewrite <-app_assoc. split; [done|]. split; [by destruct whole|].
  split; [apply Forall_app; split; [done|by constructor]|].
  rewrite zlen_app, zlen_cons. split; [f_equal; lia|]. split; [done|]. split; [done|].
  intros l c. rewrite (span_app uc_isdigit whole (46 :: frac)) by (done || by rewrite uc_ascii_digit by lia).
  cbv zeta. rewrite Z.eqb_refl, Hsf, Hfl. simpl. unfold moved. do 3 f_equal. lia.
Qed.

Lemma multi_op_cases s i op : list_find (λ op, starts_with op s = true) _MULTI_CHAR_OPS = Some (i, op) →
  s = op ++ zdrop (zlen op) s ∧
  list_find (λ o, starts_with o op = true) _MULTI_CHAR_OPS = Some (i, op) ∧ zlen op = 2 ∧
  Forall (λ x, x ≠ 10) op ∧ match op with [] => False | c :: _ => c = 62 ∨ c = 60 ∨ c = 33 end.
Proof.
  intros Hf. apply list_find_Some in Hf as (Hop & Hs & _). split; [by apply starts_with_inv|].
  unfold _MULTI_CHAR_OPS in Hop. destruct i as [|[|[|i]]]; cbn in Hop; try (injection Hop as <-); try done.
  all: split; [vm_compute; reflexivity|]; split; [reflexivity|]; split; [|cbn; auto];
    apply (bool_decide_unpack _); vm_compute; exact I.
Qed.
Lemma multi_op_single c : list_find (λ op, starts_with op [c] = true) _MULTI_CHAR_OPS = None.
Proof.
  apply list_find_None. apply Forall_forall. intros op Hop.
  assert (zlen op = 2) as Hl.
  { unfold _MULTI_CHAR_OPS in Hop. cbn in Hop. rewrite !elem_of_cons, elem_of_nil in Hop.
    by destruct Hop as [->|[->|[->|[]]]]. }
  rewrite starts_with_short; [done|]. rewrite zlen_cons, zlen_nil. lia.
Qed.

Lemma symbol_token_spec c s' line col t rest l2 c2 :
  symbol_token c (c :: s') line col = Ok (t, (rest, l2, c2)) →
  ∃ more, s' = more ++ rest ∧ Forall (λ x, x ≠ 10) (c :: more) ∧ (l2, c2) = (line, col + zlen (c :: more)) ∧
    tk_kind t ≠ EOF ∧ t = moved t line col ∧
    (∀ l k, symbol_token c (c :: more) l k = Ok (moved t l k, ([], l, k + zlen (c :: more)))) ∧
    (more = [] ∨ c = 62 ∨ c = 60 ∨ c = 33).
Proof.
  unfold symbol_token. destruct (list_find _ _MULTI_CHAR_OPS) as [[i op]|] eqn:Hm.
  - intros [= <- <- <- <-]. apply multi_op_cases in Hm as (Heq & Hm & Hl & Hpl & Hhd).
    destruct op as [|o more]; [done|]. cbn [app] in Heq. injection Heq as <- Heq.
    exists more. split; [exact Heq|]. split; [done|]. split; [done|]. split; [done|]. split; [done|].
    split; [|auto]. intros l k. rewrite Hm, zdrop_all by lia. done.
  - assert (∀ k, list_find (λ op, starts_with op [c] = true) _MULTI_CHAR_OPS = k → k = None) as Hnone
      by (intros k <-; apply multi_op_single).
    assert (zdrop 1 (c :: s') = s' ∧ zdrop 1 [c] = [] ∧ zlen [c] = 1) as (Hd & Hd1 & Hz) by done.
    rewrite Hd. case_bool_decide as Hop.
    + intros [= <- <- <- <-]. exists []. split; [done|].
      split.
      { constructor; [|done]. intros ->. revert Hop. apply (bool_decide_unpack _). vm_compute. exact I. }
      split; [by rewrite Hz|]. split; [done|]. split; [done|]. split; [|by left].
      intros l k. rewrite (Hnone _ eq_refl). by rewrite Hd1, Hz.
    + destruct (list_find _ separators) as [[i [x k]]|] eqn:Hs; [|done]. intros [= <- <- <- <-].
      exists []. split; [done|]. pose proof Hs as (Hsep & Hx & _)%list_find_Some. cbn [fst] in Hx. subst x.
      assert (c ≠ 10 ∧ k ≠ EOF) as [Hc Hk].
      { unfold separators in Hsep. destruct i as [|[|[|[|[|i]]]]]; cbn in Hsep; try discriminate Hsep; by injection Hsep as <- <-. }
      split; [by constructor|]. split; [by rewrite Hz|]. split; [done|]. split; [done|]. split; [|by left].
      intros l k'. rewrite (Hnone _ eq_refl). by rewrite Hd1, Hz.
Qed.

(** ** One round of the loop *)

Lemma lex_step_token c s' line col t rest l2 c2 :
  lex_step c s' line col = Ok (Some t, (rest, l2, c2)) →
  ∃ more, s' = more ++ rest ∧ (l2, c2) = advance (line, col) (c :: more) ∧ c ≠ 10 ∧
    tk_kind t ≠ EOF ∧ t = moved t line col ∧
    ∀ l k, lex_step c more l k =
      Ok (Some (moved t l k), ([], (advance (l, k) (c :: more)).1, (advance (l, k) (c :: more)).2)).
Proof.
  unfold lex_step. case_bool_decide as Hws; [done|]. destruct (Z.eqb_spec c 10) as [|Hnl]; [done|].
  destruct (starts_with (u "--") (c :: s')) eqn:Hlc; [done|].
  destruct (starts_with (u "/*") (c :: s')) eqn:Hbc; [by destruct (skip_block _ _ _)|].
  destruct (Z.eqb_spec c 39) as [->|Hq].
  { destruct (string_lit s' line (col + 1)) as [[buf [[r l'] c']]|] eqn:Hs; [|done].
    intros [= <- <- <- <-]. destruct (string_lit_spec (length s') s' _ _ _ _ _ _ ltac:(lia) Hs) as (body & -> & Hne & Hadv & Hal).
    exists body. split; [done|]. rewrite advance_cons. split; [done|]. split; [done|]. split; [done|]. split; [done|].
    intros l k. rewrite advance_cons. change (step_pos (l, k) 39) with (l, k + 1). rewrite Hal.
    assert (∀ p : pystr, (∃ x y, p = [x; y] ∧ x ≠ 39) → starts_with p (39 :: body) = false) as Hsw.
    { intros p (x & y & -> & Hx). apply bool_decide_eq_false. destruct body; [done|]. by intros [= <-]. }
    rewrite !Hsw by (by eexists _, _). done. }
  destruct (uc_isalpha c || (c =? 95)) eqn:Hal.
  { destruct (span is_word s') as [more rest'] eqn:Hs. apply span_spec in Hs as (-> & Hw & Hsw & _).
    intros [= <- <- <- <-]. exists more. split; [done|].
    assert (Forall (λ x, x ≠ 10) (c :: more)) as Hpl.
    { constructor; [done|]. eapply Forall_impl; [exact Hw|]. apply word_plain. }
    rewrite advance_plain by done. split; [done|]. split; [done|].
    split; [unfold word_token; by repeat case_match|]. split; [unfold word_token; by repeat case_match|].
    intros l k. rewrite advance_plain by done. cbn [fst snd].
    assert (∀ p : pystr, (∃ x y, p = [x; y] ∧ x ≠ c) → starts_with p (c :: more) = false) as Hsw'.
    { intros p (x & y & -> & Hx). apply bool_decide_eq_false. destruct more; [done|]. by intros [= <-]. }
    assert (c ≠ 45 ∧ c ≠ 47) as [? ?].
    { apply orb_prop in Hal as [Ha|Ha%Z.eqb_eq]; [|lia].
      split; intros ->; rewrite uc_ascii_alpha in Ha by lia; done. }
    rewrite !Hsw' by (by eexists _, _). rewrite Hsw. f_equal. unfold word_token. by repeat case_match. }
  destruct (uc_isdigit c) eqn:Hdg.
  { destruct (number_token (c :: s') line col) as [[t' [[r l'] c']]|] eqn:Hn; [|done]. intros [= <- <- <- <-].
    apply number_token_spec in Hn as (body & Heq & Hne & Hpl & Hpos & Hk & Hmv & Hnum); [|done].
    destruct body as [|c0 more]; [done|]. cbn [app] in Heq. injection Heq as <- Heq.
    exists more. split; [exact Heq|]. rewrite advance_plain by done. split; [done|]. split; [done|].
    split; [done|]. split; [done|]. intros l k. rewrite advance_plain by done.
    assert (∀ p : pystr, (∃ x y, p = [x; y] ∧ x ≠ c) → starts_with p (c :: more) = false) as Hsw'.
    { intros p (x & y & -> & Hx). apply bool_decide_eq_false. destruct more; [done|]. by intros [= <-]. }
    assert (c ≠ 45 ∧ c ≠ 47) as [? ?].
    { split; intros ->; rewrite uc_ascii_digit in Hdg by lia; done. }
    rewrite !Hsw' by (by eexists _, _). by rewrite Hnum. }
  destruct (symbol_token c (c :: s') line col) as [[t' [[r l'] c']]|] eqn:Hn; [|done]. intros [= <- <- <- <-].
  apply symbol_token_spec in Hn as (more & -> & Hpl & Hpos & Hk & Hmv & Hsym & Hmore).
  exists more. split; [done|]. rewrite advance_plain by done. split; [done|]. split; [done|].
  split; [done|]. split; [done|]. intros l k. rewrite advance_plain by done.
  assert (∀ p : pystr, (∃ x y, p = [x; y] ∧ x ≠ 62 ∧ x ≠ 60 ∧ x ≠ 33) → starts_with p (c :: more) = false) as Hsw'.
  { intros p (x & y & -> & Hx). apply bool_decide_eq_false. destruct Hmore as [->|Hc]; [done|].
    destruct more; [done|]. intros [= <-]. lia. }
  rewrite !Hsw' by (by eexists _, _). by rewrite Hsym.
Qed.

(** A round that emits nothing: white space or a comment *)
Lemma lex_step_skip c s' line col rest l2 c2 :
  lex_step c s' line col = Ok (None, (rest, l2, c2)) →
  ∃ taken, c :: s' = taken ++ rest ∧ taken ≠ [] ∧
    ((l2, c2) = advance (line, col) taken ∨
     c ≠ 10 ∧ l2 = (advance (line, col) taken).1 ∧ match rest with [] => True | x :: _ => x = 10 end).
Proof.
  unfold lex_step. case_bool_decide as Hws.
  { intros [= <- <- <-]. exists [c]. split; [done|]. split; [done|]. left. cbn. unfold step_pos.
    destruct (Z.eqb_spec c 10) as [->|]; [|done]. revert Hws. apply (bool_decide_unpack _). vm_compute. exact I. }
  destruct (Z.eqb_spec c 10) as [->|Hnl].
  { intros [= <- <- <-]. exists [10]. split; [done|]. split; [done|]. by left. }
  destruct (starts_with (u "--") (c :: s')) eqn:Hlc.
  { intros [= <- <- <-]. destruct (skip_line_spec (c :: s')) as (taken & Heq & Hpl & Hr).
    exists taken. split; [exact Heq|]. split.
    - intros ->. cbn [app] in Heq. rewrite <-Heq in Hr. done.
    - right. split; [done|]. split; [by rewrite advance_plain|done]. }
  destruct (starts_with (u "/*") (c :: s')) eqn:Hbc.
  { destruct (skip_block (zdrop 2 (c :: s')) line (col + 2)) as [[[r l'] c']|] eqn:Hs; [|done].
    intros [= <- <- <-]. apply starts_with_inv in Hbc.
    destruct (skip_block_spec _ _ _ _ _ _ _ (Nat.le_refl _) Hs) as (body & Heq & Hadv).
    change (zlen (u "/*")) with 2 in Hbc. rewrite Heq in Hbc.
    exists (u "/*" ++ body). split; [rewrite Hbc; by rewrite app_assoc|]. split; [done|]. left.
    rewrite advance_app, (advance_plain (u "/*")); [done|]. apply (bool_decide_unpack _). vm_compute. exact I. }
  destruct (c =? 39); [by destruct (string_lit _ _ _) as [[? ?]|]|].
  destruct (uc_isalpha c || (c =? 95)); [by destruct (span _ _)|].
  destruct (uc_isdigit c); [by destruct (number_token _ _ _) as [[? ?]|]|].
  by destruct (symbol_token _ _ _ _) as [[? ?]|].
Qed.

(** The exceptions of a round *)
Lemma decimals_error s e : decimals s = Err e → e = ValueError.
Proof.
  revert e. induction s as [|x s IH]; [done|]. intros e. cbn [decimals].
  destruct (uc_decimal x); [|by intros [= <-]]. destruct (decimals s); [done|]. intros [= <-]. by apply IH.
Qed.
Lemma number_token_error s line col e : number_token s line col = Err e → e = ValueError.
Proof.
  assert (∀ whole, int_of_text whole = Err e → e = ValueError) as Hint.
  { intros whole. unfold int_of_text. destruct (decimals whole) eqn:Hd.
    - cbn. destruct (_ <? _); by intros [= <-].
    - intros [= <-]. by apply decimals_error in Hd. }
  unfold number_token. destruct (span _ _) as [whole s1].
  assert (∀ k : cursor, (z ← int_of_text whole; Ok (mkToken INT_LIT (PyInt z) line col, k)) = Err e → e = ValueError) as Hi.
  { intros k. destruct (int_of_text whole) eqn:Hz; [done|]. intros [= <-]. by apply (Hint whole). }
  destruct s1 as [|d s2]; [apply Hi|]. destruct (d =? 46); [|apply Hi].
  destruct (span _ _) as [frac s3]. unfold float_of_text. clear Hi.
  destruct (decimals whole) eqn:Hd; [|intros [= <-]; by apply decimals_error in Hd].
  destruct (decimals frac) eqn:Hd'; [done|]. intros [= <-]. by apply decimals_error in Hd'.
Qed.
Lemma skip_block_error n : ∀ s l k e, (length s <= n)%nat → skip_block s l k = Err e → ∃ l k, e = ParseError l k.
Proof.
  induction n as [|n IH]; intros s l k e.
  { destruct s; [intros _ [= <-]; by eexists _, _|simpl; lia]. }
  destruct s as [|x s1]; [intros _ [= <-]; by eexists _, _|]. cbn [skip_block length]. intros Hn.
  assert ((if x =? 10 then skip_block s1 (l + 1) 1 else skip_block s1 l (k + 1)) = Err e → ∃ l k, e = ParseError l k) as Hone.
  { destruct (x =? 10); apply IH; lia. }
  destruct s1 as [|d s2]; [exact Hone|]. destruct ((x =? 42) && (d =? 47)); [done|].
  destruct ((x =? 47) && (d =? 42)); [|exact Hone]. apply IH. simpl in Hn. lia.
Qed.
Lemma lex_step_error c s' line col e :
  lex_step c s' line col = Err e → e = ValueError ∨ ∃ l k, e = ParseError l k.
Proof.
  unfold lex_step. case_bool_decide; [done|]. destruct (c =? 10); [done|].
  destruct (starts_with (u "--") _); [done|].
  destruct (starts_with (u "/*") _).
  { destruct (skip_block _ _ _) as [|e'] eqn:Hs; [done|]. intros [= <-]. right.
    by apply (skip_block_error _ _ _ _ _ (Nat.le_refl _) Hs). }
  destruct (c =? 39).
  { destruct (string_lit _ _ _) as [[? ?]|]; [done|]. intros [= <-]. right. by eexists _, _. }
  destruct (uc_isalpha c || (c =? 95)); [by destruct (span _ _)|].
  destruct (uc_isdigit c).
  { destruct (number_token _ _ _) as [[? ?]|] eqn:Hn; [done|]. intros [= <-]. left.
    by apply number_token_error in Hn. }
  unfold symbol_token. destruct (list_find _ _) as [[? ?]|]; [done|]. case_bool_decide; [done|].
  destruct (list_find _ _) as [[? [? ?]]|]; [done|]. intros [= <-]. right. by eexists _, _.
Qed.

(** ** The whole text *)

(** Where the loop is: exact, or on the column of a line comment that the text
    just left, in front of the newline or at the end *)
Definition at_cursor (sql : pystr) (k : cursor) : Prop :=
  let '(s, line, col) := k in
  ∃ pre, sql = pre ++ s ∧
    (pos_of pre = (line, col) ∨ (pos_of pre).1 = line ∧ match s with [] => True | x :: _ => x = 10 end).

(** The token sits in the source where it says, and is the token its text lexes to. *)
Definition sits (sql : pystr) (t : Token) : Prop :=
  ∃ pre lexeme post, sql = pre ++ lexeme ++ post ∧ lexeme ≠ [] ∧
    (tk_line t, tk_col t) = pos_of pre ∧ tk_kind t ≠ EOF ∧
    tokenize lexeme = Ok [moved t 1 1; mkToken EOF PyNone (pos_of lexeme).1 (pos_of lexeme).2].

Lemma lex_step_lexeme c more t :
  (∀ l k, lex_step c more l k = Ok (Some (moved t l k), ([], (advance (l, k) (c :: more)).1, (advance (l, k) (c :: more)).2))) →
  tokenize (c :: more) = Ok [moved t 1 1; mkToken EOF PyNone (pos_of (c :: more)).1 (pos_of (c :: more)).2].
Proof. intros Hl. unfold tokenize. cbn [length lex]. rewrite Hl. by destruct (length more). Qed.

Lemma lex_ok fuel : ∀ sql k toks, lex fuel k = Ok toks → at_cursor sql k →
  ∃ ts eof, toks = ts ++ [eof] ∧ tk_kind eof = EOF ∧ tk_value eof = PyNone ∧ Forall (sits sql) ts.
Proof.
  induction fuel as [|fuel IH]; intros sql [[s line] col] toks; (destruct s as [|c s']; simpl;
    [intros [= <-] _; by exists [], (mkToken EOF PyNone line col)|]); [done|].
  destruct (lex_step c s' line col) as [[ot [[rest l2] c2]]|] eqn:Hs; [|done]. cbn.
  destruct (lex fuel (rest, l2, c2)) as [ts|] eqn:Hl; [|done]. cbn. intros [= <-] (pre & -> & Hpos).
  destruct ot as [t|].
  - apply lex_step_token in Hs as (more & -> & Hadv & Hc & Hk & Hmv & Hal).
    destruct Hpos as [Hpos|[_ ?]]; [|done].
    destruct (IH (pre ++ c :: more ++ rest) _ _ Hl) as (ts' & eof & -> & He & Hv & Hts).
    { exists (pre ++ c :: more). split; [by rewrite <-app_assoc|]. left.
      unfold pos_of in *. by rewrite advance_app, Hpos. }
    exists (t :: ts'), eof. split; [done|]. split; [done|]. split; [done|]. constructor; [|done].
    exists pre, (c :: more), rest. split; [done|]. split; [done|]. split; [by rewrite Hmv, Hpos|].
    split; [done|]. by apply lex_step_lexeme.
  - apply lex_step_skip in Hs as (taken & Heq & Hne & Hadv).
    apply (IH (pre ++ c :: s') _ _ Hl). exists (pre ++ taken). rewrite Heq. split; [by rewrite app_assoc|].
    unfold pos_of in *. rewrite advance_app. destruct Hpos as [Hpos|[Hline ->]].
    + rewrite Hpos. destruct Hadv as [<-|(_ & -> & Hr)]; [by left|by right].
    + destruct taken as [|x taken]; [done|]. cbn [app] in Heq. injection Heq as <- Heq.
      destruct Hadv as [Hadv|(? & _)]; [|done]. left. rewrite Hadv, !advance_cons.
      assert (step_pos (advance (1, 1) pre) 10 = step_pos (line, col) 10) as ->; [|done].
      unfold step_pos. cbn. by rewrite Hline.
Qed.

Lemma lex_error fuel : ∀ k e, (length k.1.1 <= fuel)%nat → lex fuel k = Err e → e = ValueError ∨ ∃ l c, e = ParseError l c.
Proof.
  induction fuel as [|fuel IH]; intros [[s line] col] e Hf; (destruct s as [|c s']; [done|]); simpl in Hf; [lia|].
  simpl. destruct (lex_step c s' line col) as [[ot [[rest l2] c2]]|e'] eqn:Hs;
    [|intros [= <-]; by apply lex_step_error in Hs].
  cbn. destruct (lex fuel (rest, l2, c2)) as [ts|e'] eqn:Hl; [done|]. intros [= <-].
  apply (IH (rest, l2, c2)); [|done]. cbn. destruct ot as [t|].
  - apply lex_step_token in Hs as (more & -> & _). rewrite length_app in Hf. lia.
  - apply lex_step_skip in Hs as (taken & Heq & Hne & _). apply (f_equal length) in Heq.
    rewrite length_app in Heq. simpl in Heq. destruct taken; [done|]. simpl in Heq. lia.
Qed.

(** the tokenizer ends on every text.  It raises only ParseError or (for a
    number too long, or of digits that are not decimal) ValueError; otherwise
    its tokens end with the one EOF, and each of the others sits in the source
    at exactly the line and column it carries, where stands a text that alone
    lexes to just this token. *)
Theorem tokenize_positions sql :
  match tokenize sql with
  | Err e => e = ValueError ∨ ∃ l c, e = ParseError l c
  | Ok toks => ∃ ts eof, toks = ts ++ [eof] ∧ tk_kind eof = EOF ∧ Forall (sits sql) ts
  end.
Proof.
  destruct (tokenize sql) as [toks|e] eqn:Ht; unfold tokenize in Ht.
  - destruct (lex_ok _ sql _ _ Ht) as (ts & eof & ? & ? & _ & ?).
    + exists []. split; [done|]. by left.
    + by exists ts, eof.
  - by apply (lex_error _ _ _ (Nat.le_refl _) Ht).
Qed.

(** ** Rendering tokens *)

Fixpoint double_quotes (s : pystr) : pystr :=
  match s with [] => [] | c :: s => if c =? 39 then 39 :: 39 :: double_quotes s else c :: double_quotes s end.
Definition spell (t : Token) : pystr :=
  match t.(tk_kind), t.(tk_value) with
  | STRING_LIT, PyStr s => 39 :: double_quotes s ++ [39]
  | INT_LIT, PyInt z => digits z
  | BOOL_LIT, PyBool b => if b then u "TRUE" else u "FALSE"
  | NULL_LIT, _ => u "NULL"
  | _, PyStr s => s
  | _, _ => []
  end.
Definition render (ts : list Token) : pystr := concat (map (λ t, spell t ++ [32]) ts).

(** A word: a letter or underscore, then letters, digits and underscores *)
Definition wordlike (s : pystr) : bool :=
  match s with [] => false | c :: s => (uc_isalpha c || (c =? 95)) && forallb is_word s end.
(** The tokens that the tokenizer emits (but for floats, whose text it forgets) *)
Definition wf_token (t : Token) : bool :=
  match t.(tk_kind), t.(tk_value) with
  | KEYWORD, PyStr s => mem s KEYWORDS && negb (mem s (map u ["TRUE"; "FALSE"; "NULL"]%string))
  | IDENT, PyStr s => wordlike s && negb (mem (upper s) KEYWORDS)
  | INT_LIT, PyInt z => (0 <=? z) && (zlen (digits z) <=? 4300)
  | STRING_LIT, PyStr _ => true
  | BOOL_LIT, PyBool _ => true
  | NULL_LIT, PyNone => true
  | OP, PyStr s => mem s _MULTI_CHAR_OPS || mem s (map (λ c, [c]) single_ops)
  | LPAREN, PyStr s => bool_decide (s = u "(")
  | RPAREN, PyStr s => bool_decide (s = u ")")
  | COMMA, PyStr s => bool_decide (s = u ",")
  | SEMI, PyStr s => bool_decide (s = u ";")
  | DOT, PyStr s => bool_decide (s = u ".")
  | _, _ => false
  end.

(** The text of a token, up to a space, lexes to the token. *)
Definition spells (text : pystr) (t : Token) : Prop :=
  match text with
  | [] => False
  | c :: more => ∀ post l k, ∃ l' k',
      lex_step c (more ++ 32 :: post) l k = Ok (Some (moved t l k), (32 :: post, l', k'))
  end.

Lemma string_lit_double s post : ∀ l k, ∃ l' k',
  string_lit (double_quotes s ++ 39 :: 32 :: post) l k = Some (s, (32 :: post, l', k')).
Proof.
  induction s as [|c s IH]; intros l k; [by eexists _, _|]. simpl.
  destruct (Z.eqb_spec c 39) as [->|Hc].
  - simpl. destruct (IH l (k + 2)) as (l' & k' & ->). by eexists _, _.
  - simpl. destruct (Z.eqb_spec c 39); [done|]. destruct (c =? 10).
    + destruct (IH (l + 1) 1) as (l' & k' & ->). by eexists _, _.
    + destruct (IH l (k + 1)) as (l' & k' & ->). by eexists _, _.
Qed.

(** A first character that starts neither white space, comment nor string *)
Lemma lex_step_word c more post l k :
  uc_isalpha c || (c =? 95) = true → Forall (λ x, is_word x = true) more →
  lex_step c (more ++ 32 :: post) l k =
    Ok (Some (word_token (c :: more) l k), (32 :: post, l, k + zlen (c :: more))).
Proof.
  intros Hc Hm. unfold lex_step.
  assert (∀ x, 0 <= x < 128 → ascii_letter x || (x =? 95) = false → c ≠ x) as Hne.
  { intros x Hx Hl ->. rewrite uc_ascii_alpha in Hc by done. congruence. }
  assert (c ≠ 32 ∧ c ≠ 9 ∧ c ≠ 13 ∧ c ≠ 10 ∧ c ≠ 39 ∧ c ≠ 45 ∧ c ≠ 47) as (? & ? & ? & ? & ? & ? & ?)
    by (split_and!; apply Hne; done).
  rewrite bool_decide_false by (rewrite !elem_of_cons, elem_of_nil; lia).
  destruct (Z.eqb_spec c 10); [done|].
  assert (∀ x y, c ≠ x → starts_with [x; y] (c :: more ++ 32 :: post) = false) as Hsw.
  { intros x y Hx. apply bool_decide_eq_false. destruct (more ++ 32 :: post); [done|]. by intros [= <-]. }
  change (u "--") with [45; 45]. change (u "/*") with [47; 42].
  rewrite !Hsw by done. destruct (Z.eqb_spec c 39); [done|].
  rewrite Hc. rewrite (span_app is_word more (32 :: post) Hm); [done|]. unfold is_word. by rewrite uc_ascii_alnum by lia.
Qed.

Lemma decimals_digits s : Forall (λ c, is_ascii_digit c = true) s → decimals s = Ok (map (λ c, c - 48) s).
Proof.
  induction 1 as [|c s Hc _ IH]; [done|]. cbn [decimals map].
  pose proof Hc as Hb%is_ascii_digit_true. rewrite uc_ascii_decimal, Hc by lia. cbn. by rewrite IH.
Qed.
Lemma number_of_digits s : number_of (map (λ c, c - 48) s) = digits_val s.
Proof.
  unfold number_of, digits_val. generalize 0. induction s as [|c s IH]; intros a; [done|]. apply IH.
Qed.
Lemma int_of_digits z : 0 <= z → zlen (digits z) <= 4300 → int_of_text (digits z) = Ok z.
Proof.
  intros Hz Hl. unfold int_of_text. rewrite decimals_digits, bind_Ok by (by apply digits_ascii).
  destruct (Z.ltb_spec 4300 (zlen (digits z))); [lia|]. by rewrite number_of_digits, digits_val_digits.
Qed.

Lemma spells_int z : 0 <= z → zlen (digits z) <= 4300 → ∀ l0 k0, spells (digits z) (mkToken INT_LIT (PyInt z) l0 k0).
Proof.
  intros Hz Hl l0 k0. pose proof (digits_ascii z Hz) as Hd. pose proof (int_of_digits z Hz Hl) as Hi.
  pose proof (digits_nonempty z) as Hne. destruct (digits z) as [|c more]; [done|].
  intros post l k. unfold lex_step. apply Forall_cons in Hd as [Hc Hm].
  pose proof Hc as Hb%is_ascii_digit_true.
  rewrite bool_decide_false by (rewrite !elem_of_cons, elem_of_nil; lia).
  destruct (Z.eqb_spec c 10); [lia|].
  assert (∀ x y, c ≠ x → starts_with [x; y] (c :: more ++ 32 :: post) = false) as Hsw.
  { intros x y Hx. apply bool_decide_eq_false. destruct (more ++ 32 :: post); [done|]. by intros [= <-]. }
  change (u "--") with [45; 45]. change (u "/*") with [47; 42]. rewrite !Hsw by lia.
  destruct (Z.eqb_spec c 39); [lia|]. rewrite uc_ascii_alpha by lia.
  assert (ascii_letter c || (c =? 95) = false) as ->.
  { unfold ascii_letter. repeat match goal with |- context [Z.leb ?a ?b] => destruct (Z.leb_spec a b) end;
      destruct (Z.eqb_spec c 95); try lia; done. }
  rewrite uc_ascii_digit, Hc by lia. unfold number_token.
  assert (Forall (λ x, uc_isdigit x = true) (c :: more)) as Hall.
  { apply Forall_cons_2; [by rewrite uc_ascii_digit by lia|]. eapply Forall_impl; [exact Hm|].
    intros x Hx. pose proof Hx as Hbx%is_ascii_digit_true. by rewrite uc_ascii_digit by lia. }
  rewrite (app_comm_cons more), (span_app uc_isdigit (c :: more) (32 :: post) Hall) by (by rewrite uc_ascii_digit by lia).
  cbv zeta. change (32 =? 46) with false. cbv iota. rewrite Hi. by eexists _, _.
Qed.

(** Operators and separators *)
Definition symbols : list (pystr * TokenKind) :=
  map (λ s, (s, OP)) (_MULTI_CHAR_OPS ++ map (λ c, [c]) single_ops) ++ map (λ p, ([p.1], p.2)) separators.
Lemma spells_symbol text kind l0 k0 : (text, kind) ∈ symbols → spells text (mkToken kind (PyStr text) l0 k0).
Proof.
  intros Hin. unfold symbols in Hin. cbn in Hin. rewrite !elem_of_cons, elem_of_nil in Hin.
  repeat destruct Hin as [[= -> ->]|Hin]; [..|destruct Hin].
  all: intros post l k; eexists _, _; unfold lex_step, moved; cbn [tk_kind tk_value app].
  all: rewrite !uc_ascii_alpha, !uc_ascii_digit by lia; reflexivity.
Qed.

Lemma wordlike_ascii s : forallb ascii_letter s = true → s ≠ [] → wordlike s = true.
Proof.
  intros Hs. assert (∀ x, ascii_letter x = true → uc_isalpha x = true ∧ is_word x = true) as Hx.
  { intros x Hx. assert (0 <= x < 128).
    { unfold ascii_letter in Hx. apply orb_prop in Hx as [Hx|Hx]; bool_to_prop; lia. }
    rewrite uc_ascii_alpha, Hx by done. unfold is_word. by rewrite uc_ascii_alnum, Hx by done. }
  destruct s as [|c s]; [done|]. simpl in *. apply andb_prop in Hs as [Hc Hs]. intros _.
  apply Hx in Hc as [-> _]. simpl. apply forallb_forall. intros x Hin. apply Hx.
  by apply (proj1 (forallb_forall _ _) Hs).
Qed.
Lemma spells_word s t : wordlike s = true → (∀ l k, word_token s l k = moved t l k) → spells s t.
Proof.
  destruct s as [|c more]; [done|]. simpl. intros [Hc Hm]%andb_prop Ht post l k.
  rewrite lex_step_word; [by rewrite Ht; eexists _, _|done|].
  apply Forall_forall. intros x Hx. apply (proj1 (forallb_forall _ _) Hm). by apply list_elem_of_In.
Qed.
Lemma keywords_ok s : s ∈ KEYWORDS → upper s = s ∧ forallb ascii_letter s = true ∧ s ≠ [].
Proof.
  intros Hs. assert (Forall (λ s, upper s = s ∧ forallb ascii_letter s = true ∧ s ≠ []) KEYWORDS) as Hall.
  { apply (bool_decide_unpack _). vm_compute. exact I. }
  rewrite Forall_forall in Hall. by apply Hall.
Qed.

Lemma spell_ok t : wf_token t = true → spells (spell t) t ∧ moved t t.(tk_line) t.(tk_col) = t.
Proof.
  destruct t as [kind value l0 k0]. intros Hwf. split; [|done].
  unfold wf_token, spell in *. cbn [tk_kind tk_value] in *.
  destruct kind, value; try discriminate Hwf; try (apply spells_symbol; apply bool_decide_eq_true in Hwf as ->;
    apply (bool_decide_unpack _); vm_compute; exact I).
  - apply andb_prop in Hwf as [Hk Hn]. apply bool_decide_eq_true in Hk as Hin.
    destruct (keywords_ok _ Hin) as (Hup & Hal & Hne). apply spells_word; [by apply wordlike_ascii|].
    intros l k. unfold word_token. rewrite Hup, Hk. apply negb_true_iff, bool_decide_eq_false in Hn.
    cbn [map] in Hn. rewrite !elem_of_cons in Hn. rewrite !bool_decide_false by tauto. done.
  - apply andb_prop in Hwf as [Hw Hn]. apply spells_word; [done|]. intros l k. unfold word_token.
    apply negb_true_iff in Hn. by rewrite Hn.
  - bool_to_prop. by apply spells_int.
  - intros post l k. unfold lex_step. cbn [app]. rewrite <-app_assoc. cbn [app].
    destruct (string_lit_double s post l (k + 1)) as (l' & k' & Hs).
    rewrite !bool_decide_false by (rewrite ?elem_of_cons, ?elem_of_nil; lia).
    assert (∀ x y, x ≠ 39 → starts_with [x; y] (39 :: double_quotes s ++ 39 :: 32 :: post) = false) as Hsw.
    { intros x y Hx. apply bool_decide_eq_false. destruct (double_quotes s ++ 39 :: 32 :: post); [done|].
      by intros [= <-]. }
    change (39 =? 10) with false. change (u "--") with [45; 45]. change (u "/*") with [47; 42].
    rewrite !Hsw by done. change (39 =? 39) with true. cbv iota. rewrite Hs. by eexists _, _.
  - destruct b; (apply spells_word; [by apply wordlike_ascii|]; intros l k; reflexivity).
  - apply spells_word; [by apply wordlike_ascii|]. intros l k. reflexivity.
  - apply spells_symbol. apply orb_prop in Hwf as [Hwf|Hwf]; apply bool_decide_eq_true in Hwf;
      unfold symbols; rewrite elem_of_app; left; apply list_elem_of_fmap; exists s; (split; [done|]);
      rewrite elem_of_app; auto.
Qed.

Definition same_token (t t' : Token) : Prop := tk_kind t = tk_kind t' ∧ tk_value t = tk_value t'.

Lemma lex_render ts : ∀ fuel l k, Forall (λ t, wf_token t = true) ts → (length (render ts) <= fuel)%nat →
  ∃ toks l' k', lex fuel (render ts, l, k) = Ok (toks ++ [mkToken EOF PyNone l' k']) ∧ Forall2 same_token ts toks.
Proof.
  induction ts as [|t ts IH]; intros fuel l k Hwf Hf.
  { exists [], l, k. split; [by destruct fuel|constructor]. }
  apply Forall_cons in Hwf as [Ht Hwf]. destruct (spell_ok t Ht) as [Hs _].
  unfold render in *. cbn [map concat] in *. fold (render ts) in *. rewrite <-app_assoc in *.
  destruct (spell t) as [|c more]; [done|]. destruct (Hs (render ts) l k) as (l1 & k1 & Hx).
  cbn [app length] in *. rewrite length_app in Hf. cbn [length] in Hf.
  destruct fuel as [|[|fuel]]; [lia|lia|].
  destruct (IH fuel l1 (k1 + 1) Hwf) as (toks & l' & k' & Hl & Hsame); [unfold render in *; lia|].
  exists (moved t l k :: toks), l', k'. split; [|by constructor].
  cbn [lex]. rewrite Hx, bind_Ok. cbn [lex].
  assert (lex_step 32 (render ts) l1 k1 = Ok (None, (render ts, l1, k1 + 1))) as -> by done.
  rewrite bind_Ok. unfold render in *. by rewrite Hl.
Qed.

(** the tokenizer reads back what is rendered: the texts of any tokens
    (keywords, identifiers, strings with quotes and newlines in them,
    integers, operators, separators) with spaces between lex to these tokens,
    in order, and the EOF. *)
Theorem tokenize_render ts :
  Forall (λ t, wf_token t = true) ts →
  ∃ toks eof, tokenize (render ts) = Ok (toks ++ [eof]) ∧ tk_kind eof = EOF ∧ Forall2 same_token ts toks.
Proof.
  intros Hwf. destruct (lex_render ts (length (render ts)) 1 1 Hwf (Nat.le_refl _)) as (toks & l & k & Hl & Hs).
  by exists toks, (mkToken EOF PyNone l k).
Qed.
End Lexemes.

(** The interpreter's database on the ASCII range, for concrete runs *)
Definition ascii_unilib : UniLib := {|
  uc_isalpha := ascii_letter;
  uc_isdigit := is_ascii_digit;
  uc_isalnum c := ascii_letter c || is_ascii_digit c;
  uc_decimal c := if is_ascii_digit c then Some (c - 48) else None;
|}.
Lemma ascii_unilib_laws : @UniLaws ascii_unilib.
Proof. by split. Qed.

Example tokenize_demo :
  (map (λ t, (tk_kind t, tk_value t)) <$> @tokenize ascii_unilib (u "select a.b -- x
   from t where n >= 1.5 and s = 'it''s' /* * */ or null;")) =
  Ok [(KEYWORD, PyStr (u "SELECT")); (IDENT, PyStr (u "a")); (DOT, PyStr (u ".")); (IDENT, PyStr (u "b"));
      (KEYWORD, PyStr (u "FROM")); (IDENT, PyStr (u "t")); (KEYWORD, PyStr (u "WHERE"));
      (IDENT, PyStr (u "n")); (OP, PyStr (u ">=")); (FLOAT_LIT, PyFloat 0x3FF8000000000000);
      (KEYWORD, PyStr (u "AND")); (IDENT, PyStr (u "s")); (OP, PyStr (u "=")); (STRING_LIT, PyStr (u "it's"));
      (KEYWORD, PyStr (u "OR")); (NULL_LIT, PyNone); (SEMI, PyStr (u ";")); (EOF, PyNone)].
Proof. vm_compute. reflexivity. Qed.

Lemma tokenize_positions_witness :
  match @tokenize ascii_unilib (u "a /* ") with Err e => e = ValueError ∨ ∃ l c, e = ParseError l c | _ => False end.
Proof. exact (@tokenize_positions ascii_unilib ascii_unilib_laws (u "a /* ")). Defined.

Definition demo_tokens : list Token :=
  [ mkToken KEYWORD (PyStr (u "SELECT")) 0 0; mkToken IDENT (PyStr (u "x_1")) 0 0; mkToken OP (PyStr (u "<=")) 0 0;
    mkToken INT_LIT (PyInt 120) 0 0; mkToken STRING_LIT (PyStr (u "it's")) 0 0; mkToken NULL_LIT PyNone 0 0 ].
Lemma tokenize_render_witness :
  ∃ toks eof, @tokenize ascii_unilib (u "SELECT x_1 <= 120 'it''s' NULL ") = Ok (toks ++ [eof]) ∧
    tk_kind eof = EOF ∧ Forall2 same_token demo_tokens toks.
Proof.
  apply (@tokenize_render ascii_unilib ascii_unilib_laws demo_tokens).
  apply (bool_decide_unpack _). vm_compute. exact I.
Defined.

(** A character that is a digit but not decimal makes [int] fail, and the
    exception is not a ParseError. *)
Example superscript_is_not_a_parse_error (lib : UniLib) :
  uc_isalpha 0xB2 = false → uc_isdigit 0xB2 = true → uc_decimal 0xB2 = None → tokenize [0xB2] = Err ValueError.
Proof.
  intros Ha Hd Hn. unfold tokenize. cbn [length lex]. unfold lex_step. rewrite Ha, Hd.
  unfold number_token. cbn [span]. rewrite Hd. unfold int_of_text. cbn [decimals]. by rewrite Hn.
Qed.
