(* ===== verification/Ast.v ===== *)
(** Component [sql/ast.py]: the nodes the parser builds. *)
From S2P Require Import Prelude.
From S2P Require Import Bytes.
From S2P Require Import Utf8.
From S2P Require Import Text.
From S2P Require Import TypeSys.
From Stdlib Require Import ZArith.
Local Open Scope Z_scope.

(** * Expressions *)

Inductive expr :=
  | Literal (value : pyval)
  | ColumnRef (name : pystr) (table : option pystr)
  | BinaryOp (op : pystr) (left right : expr)
  | UnaryOp (op : pystr) (operand : expr)
  | TypedLiteral (tag : TypeTag) (value : pyval).

(** An entry of the column list of a SELECT *)
Inductive select_item :=
  | Star
  | Aggregate (func column : pystr)
  | Item (e : expr).

(** * Table references *)

Inductive JoinKind := INNER | LEFT.
Global Instance JoinKind_eq_dec : EqDecision JoinKind.
Proof. solve_decision. Defined.

Inductive TableRef :=
  | Table (name : pystr) (alias : option pystr)
  | Join (left right : TableRef) (kind : JoinKind) (on_expr : option expr) (using_ : list pystr)
      (nullable_right : bool).

(** * Statements *)

Record Assignment := mkAssignment { as_column : pystr; as_value : expr }.
Record OrderBy := mkOrderBy { ob_column : pystr; ob_descending : bool }.

Record SelectStmt := mkSelect {
  sel_columns : list select_item;
  sel_from : TableRef;
  sel_where : option expr;
  sel_order_by : list OrderBy;
  sel_limit : option pyval;
  sel_offset : option pyval;
  sel_group_by : list pystr;
}.

Inductive Statement :=
  | CreateTable (name : pystr) (columns : list Column)
  | DropTable (name : pystr) (if_exists : bool)
  | CreateIndex (name table : pystr) (columns : list pystr) (unique : bool)
  | Insert (table : pystr) (columns : option (list pystr)) (values : list (list pyval))
  | Select (s : SelectStmt)
  | Update (table : pystr) (set_clauses : list Assignment) (where_ : option expr)
  | Delete (table : pystr) (where_ : option expr).

(** [Select.table]: the bare name when the FROM clause is one table *)
Definition select_table (s : SelectStmt) : result pystr :=
  match s.(sel_from) with Table name _ => Ok name | Join _ _ _ _ _ _ => Err AttributeError end.
