(* ===== verification/Parser.v ===== *)
(** Component [sql/parser.py]: the recursive-descent parser, as computations on
    the tokens not consumed yet; that it ends on every token stream and how it
    fails. *)
From S2P Require Import Prelude.
From S2P Require Import Bytes.
From S2P Require Import Utf8.
From S2P Require Import Text.
From S2P Require Import TypeSys.
From S2P Require Import Codec.
From S2P Require Import Tokens.
From S2P Require Import Ast.
From Stdlib Require Import ZArith Lia.
Local Open Scope Z_scope.

(** [datetime.date.fromisoformat], [time.fromisoformat] and
    [datetime.fromisoformat] of the interpreter, whose accepted formats depend
    on its version *)
Class IsoLib := {
  date_fromisoformat : pystr → result pyval;
  time_fromisoformat : pystr → result pyval;
  datetime_fromisoformat : pystr → result pyval;
}.

(** * The cursor *)

(** The state is [_toks[_pos:]]; an index past the end is an [IndexError]. *)
Abbreviation P := (M (list Token)).

Definition _peek : P Token := λ s,
  match s with [] => (Err IndexError, s) | t :: _ => (Ok t, s) end.
Definition _advance : P Token := λ s,
  match s with [] => (Err IndexError, s) | t :: s' => (Ok t, s') end.

Definition kind_is (k : TokenKind) (t : Token) : bool := bool_decide (t.(tk_kind) = k).
(** [tok.value == s] and [tok.value in l] *)
Definition value_in (l : list pystr) (t : Token) : bool :=
  match t.(tk_value) with PyStr s => mem s l | _ => false end.
Definition is_kw (kw : pystr) (t : Token) : bool := kind_is KEYWORD t && value_in [kw] t.
(** The value of an IDENT, KEYWORD, OP or STRING_LIT token, which is a string *)
Definition tok_str (t : Token) : pystr := match t.(tk_value) with PyStr s => s | _ => [] end.

(** [raise ParseError(tok.line, tok.col, ...)] *)
Definition fail_at {A} (t : Token) : P A := raise (ParseError t.(tk_line) t.(tk_col)).
Definition expect (p : Token → bool) : P Token :=
  t ← _peek; if p t then _advance else fail_at t.
Definition accept (p : Token → bool) : P bool :=
  t ← _peek; if p t then _ ← _advance; mret true else mret false.

Definition _at_end : P bool := t ← _peek; mret (kind_is EOF t).
Definition _expect_kind (k : TokenKind) : P Token := expect (kind_is k).
Definition _expect_keyword (kw : pystr) : P Token := expect (is_kw kw).
Definition _expect_ident : P Token := expect (kind_is IDENT).
Definition _match_kind (k : TokenKind) : P bool := accept (kind_is k).
Definition _match_keyword (kw : pystr) : P bool := accept (is_kw kw).
Definition is_null (t : Token) : bool := kind_is NULL_LIT t || is_kw (u "NULL") t.
Definition _match_null : P bool := accept is_null.
Definition _expect_keyword_one_of (choices : list pystr) : P Token :=
  expect (λ t, kind_is KEYWORD t && value_in choices t).

Definition is_op (ops : list pystr) (t : Token) : bool := kind_is OP t && value_in ops t.
Definition _match_op_in (ops : list pystr) : P (option pystr) :=
  t ← _peek;
  if is_op ops t then _ ← _advance; mret (Some (tok_str t)) else mret None.

(** [item (',' item)*]: the loops that collect comma-separated items *)
Fixpoint comma_more {A} (fuel : nat) (item : P A) : P (list A) :=
  match fuel with
  | O => raise OutOfFuel
  | S fuel =>
      more ← _match_kind COMMA;
      if more : bool then x ← item; xs ← comma_more fuel item; mret (x :: xs) else mret []
  end.
Definition comma_list {A} (item : P A) : P (list A) :=
  x ← item; n ← gets length; xs ← comma_more (S n) item; mret (x :: xs).

Definition _COMPARISON_OPS : list pystr := map u ["="; "!="; "<"; "<="; ">"; ">="]%string.
Definition _ADDITIVE_OPS : list pystr := map u ["+"; "-"]%string.
Definition _MULTIPLICATIVE_OPS : list pystr := map u ["*"; "/"]%string.
Definition _JOIN_MAX_DEPTH : Z := 5.

(** * Literals *)

(** The value of a hexadecimal digit *)
Definition hex_val (c : Z) : option Z :=
  if (48 <=? c) && (c <=? 57) then Some (c - 48)
  else if (97 <=? c) && (c <=? 102) then Some (c - 87)
  else if (65 <=? c) && (c <=? 70) then Some (c - 55)
  else None.
(** [bytes.fromhex]: pairs of digits, ASCII white space between pairs skipped *)
Fixpoint fromhex (s : pystr) : result bytes :=
  match s with
  | [] => Ok []
  | c :: s' =>
      if ((9 <=? c) && (c <=? 13)) || (c =? 32) then fromhex s'
      else match s' with
           | [] => Err ValueError
           | d :: s'' =>
               h ← of_option ValueError (hex_val c);
               l ← of_option ValueError (hex_val d);
               bs ← fromhex s''; Ok (byte_of_Z (16 * h + l) :: bs)
           end
  end.

Section Parser.
Context `{IsoLib} `{JsonLib}.

Definition _TYPED_LITERAL_PARSERS : list (pystr * (TypeTag * (pystr → result pyval))) :=
  [ (u "DATE", (Date, date_fromisoformat));
    (u "TIME", (Time, time_fromisoformat));
    (u "DATETIME", (Datetime, λ s, datetime_fromisoformat (map (λ c, if c =? 32 then 84 else c) s)));
    (u "DECIMAL", (Decimal, λ s, PyDecimal <$> decimal_of_text s));
    (u "BLOB", (Blob, λ s, PyBytes <$> fromhex s));
    (u "JSON", (Json, json_loads)) ].

(** [except (ValueError, TypeError, json.JSONDecodeError)]; [UnicodeError] is a
    [ValueError] *)
Definition caught (e : exn) : bool :=
  bool_decide (e ∈ [ValueError; TypeError; JSONDecodeError; UnicodeError]).

Definition _parse_typed_literal (keyword : pystr) : P expr :=
  _ ← _advance;
  '(tag, value_parser) ← lift (of_option KeyError (assoc keyword _TYPED_LITERAL_PARSERS));
  str_tok ← _peek;
  if negb (kind_is STRING_LIT str_tok) then fail_at str_tok else
  _ ← _advance;
  match value_parser (tok_str str_tok) with
  | Ok value => mret (TypedLiteral tag value)
  | Err e => if caught e then fail_at str_tok else raise e
  end.

Definition literal_kinds : list TokenKind := [INT_LIT; FLOAT_LIT; STRING_LIT; BOOL_LIT; NULL_LIT].
Definition is_literal (t : Token) : bool := bool_decide (t.(tk_kind) ∈ literal_kinds).

Definition _parse_literal : P expr :=
  t ← _peek;
  if is_literal t then
    _ ← _advance; mret (Literal (if kind_is NULL_LIT t then PyNone else t.(tk_value)))
  else fail_at t.

(** * Expressions *)

Definition is_typed_keyword (t : Token) : bool :=
  kind_is KEYWORD t && value_in (map fst _TYPED_LITERAL_PARSERS) t.

(** [operand (op operand)*], folded to the left *)
Fixpoint fold_ops (fuel : nat) (match_op : P (option pystr)) (operand : P expr) (left : expr) : P expr :=
  match fuel with
  | O => raise OutOfFuel
  | S fuel =>
      op ← match_op;
      match op with
      | None => mret left
      | Some op => right ← operand; fold_ops fuel match_op operand (BinaryOp op left right)
      end
  end.
Definition left_assoc (match_op : P (option pystr)) (operand : P expr) : P expr :=
  left ← operand; n ← gets length; fold_ops (S n) match_op operand left.
Definition _match_keyword_op (kw : pystr) : P (option pystr) :=
  m ← _match_keyword kw; mret (if m : bool then Some kw else None).

(** A prefix operator, right-recursive *)
Fixpoint prefix_op (p : Token → bool) (op : pystr) (inner : P expr) (s : list Token) : result expr * list Token :=
  match s with
  | [] => (Err IndexError, s)
  | t :: s' =>
      if p t then
        match prefix_op p op inner s' with
        | (Ok operand, s'') => (Ok (UnaryOp op operand), s'')
        | (Err e, s'') => (Err e, s'')
        end
      else inner s
  end.

Section Ladder.
(** [parse_expr], which a parenthesis enters again *)
Variable sub_expr : P expr.

Definition _parse_primary_ : P expr :=
  tok ← _peek;
  if is_typed_keyword tok then _parse_typed_literal (tok_str tok) else
  if is_literal tok then _parse_literal else
  if kind_is LPAREN tok then
    _ ← _advance; inner ← sub_expr; _ ← _expect_kind RPAREN; mret inner
  else if kind_is IDENT tok then
    _ ← _advance;
    dot ← _match_kind DOT;
    if dot : bool then
      col_tok ← expect (kind_is IDENT);
      mret (ColumnRef (tok_str col_tok) (Some (tok_str tok)))
    else mret (ColumnRef (tok_str tok) None)
  else fail_at tok.

Definition _parse_unary : P expr := prefix_op (is_op [u "-"]) (u "-") _parse_primary_.
Definition _parse_multiplicative : P expr := left_assoc (_match_op_in _MULTIPLICATIVE_OPS) _parse_unary.
Definition _parse_additive : P expr := left_assoc (_match_op_in _ADDITIVE_OPS) _parse_multiplicative.
Definition _parse_comparison : P expr :=
  left ← _parse_additive;
  is_ ← _match_keyword (u "IS");
  if is_ : bool then
    negated ← _match_keyword (u "NOT");
    null ← _match_null;
    if negb null then tok ← _peek; fail_at tok else
    mret (UnaryOp (if negated : bool then u "IS NOT NULL" else u "IS NULL") left)
  else
    op ← _match_op_in _COMPARISON_OPS;
    match op with
    | Some op => right ← _parse_additive; mret (BinaryOp op left right)
    | None => mret left
    end.
Definition _parse_not : P expr := prefix_op (is_kw (u "NOT")) (u "NOT") _parse_comparison.
Definition _parse_and : P expr := left_assoc (_match_keyword_op (u "AND")) _parse_not.
Definition _parse_or : P expr := left_assoc (_match_keyword_op (u "OR")) _parse_and.
End Ladder.

(** The nesting of parentheses is bounded by the number of tokens left. *)
Fixpoint expr_fuel (fuel : nat) : P expr :=
  match fuel with O => raise OutOfFuel | S fuel => _parse_or (expr_fuel fuel) end.
Definition parse_expr : P expr := n ← gets length; expr_fuel (S n).
Definition _parse_primary : P expr := _parse_primary_ parse_expr.

(** * DDL *)

(** [VARCHAR(50)]: skip to the matching parenthesis or the end *)
Fixpoint skip_size (depth : Z) (s : list Token) : result unit * list Token :=
  if depth <=? 0 then (Ok (), s) else
  match s with
  | [] => (Err IndexError, s)
  | t :: s' =>
      if kind_is EOF t then (Ok (), s)
      else skip_size (if kind_is LPAREN t then depth + 1 else if kind_is RPAREN t then depth - 1 else depth) s'
  end.

(** NOT NULL, PRIMARY KEY and UNIQUE, in any order and number *)
Fixpoint column_constraints (fuel : nat) (not_null primary_key unique : bool) : P (bool * bool * bool) :=
  match fuel with
  | O => raise OutOfFuel
  | S fuel =>
      tok ← _peek;
      if is_kw (u "NOT") tok then
        _ ← _advance;
        null ← _match_null;
        if negb null then nxt ← _peek; fail_at nxt else column_constraints fuel true primary_key unique
      else if is_kw (u "PRIMARY") tok then
        _ ← _advance; _ ← _expect_keyword (u "KEY"); column_constraints fuel not_null true unique
      else if is_kw (u "UNIQUE") tok then
        _ ← _advance; column_constraints fuel not_null primary_key true
      else mret (not_null, primary_key, unique)
  end.

Definition _parse_column_def : P Column :=
  name_tok ← _expect_ident;
  type_tok ← _advance;
  if negb (kind_is KEYWORD type_tok) then fail_at type_tok else
  match parse_type_name (tok_str type_tok) with
  | Err _ => fail_at type_tok
  | Ok tag =>
      size ← _match_kind LPAREN;
      _ ← (if size : bool then skip_size 1 else mret ());
      n ← gets length;
      '(nn, pk, un) ← column_constraints (S n) false false false;
      mret (mkColumn (tok_str name_tok) tag nn pk un)
  end.

Definition _parse_create_table : P Statement :=
  _ ← _expect_keyword (u "TABLE");
  name_tok ← _expect_ident;
  _ ← _expect_kind LPAREN;
  cols ← comma_list _parse_column_def;
  _ ← _expect_kind RPAREN;
  _ ← _match_kind SEMI;
  mret (CreateTable (tok_str name_tok) cols).

Definition _parse_create_index : P Statement :=
  unique ← accept (is_kw (u "UNIQUE"));
  _ ← _expect_keyword (u "INDEX");
  name_tok ← _expect_ident;
  _ ← _expect_keyword (u "ON");
  table_tok ← _expect_ident;
  _ ← _expect_kind LPAREN;
  col_tok ← _expect_ident;
  _ ← _expect_kind RPAREN;
  _ ← _match_kind SEMI;
  mret (CreateIndex (tok_str name_tok) (tok_str table_tok) [tok_str col_tok] unique).

Definition _parse_create_or_index : P Statement :=
  _ ← _expect_keyword (u "CREATE");
  nxt ← _peek;
  if is_kw (u "TABLE") nxt then _parse_create_table
  else if kind_is KEYWORD nxt && value_in (map u ["INDEX"; "UNIQUE"]%string) nxt then _parse_create_index
  else fail_at nxt.

Definition _parse_drop_table : P Statement :=
  _ ← _expect_keyword (u "DROP");
  _ ← _expect_keyword (u "TABLE");
  if_exists ← _match_keyword (u "IF");
  _ ← (if if_exists : bool then _ ← _expect_keyword (u "EXISTS"); mret () else mret ());
  name_tok ← _expect_ident;
  _ ← _match_kind SEMI;
  mret (DropTable (tok_str name_tok) if_exists).

Definition parse_ddl : P Statement :=
  tok ← _peek;
  if is_kw (u "CREATE") tok then _parse_create_or_index
  else if is_kw (u "DROP") tok then _parse_drop_table
  else fail_at tok.

(** * INSERT *)

Definition ident_name : P pystr := t ← _expect_ident; mret (tok_str t).
(** [_parse_ident_list], also the column lists of INSERT and USING *)
Definition _parse_ident_list : P (list pystr) := comma_list ident_name.

(** A value that is not a literal raises a ParseError at "line" the class name
    of the node. *)
Definition _parse_value : P pyval :=
  node ← _parse_primary;
  match node with
  | TypedLiteral tag v => mret (PyTypedLiteral tag v)
  | Literal v => mret v
  | ColumnRef _ _ => raise (NodeParseError "ColumnRef")
  | BinaryOp _ _ _ => raise (NodeParseError "BinaryOp")
  | UnaryOp _ _ => raise (NodeParseError "UnaryOp")
  end.

Definition _parse_value_tuple : P (list pyval) :=
  _ ← _expect_kind LPAREN;
  vals ← comma_list _parse_value;
  _ ← _expect_kind RPAREN;
  mret vals.

Definition _parse_insert : P Statement :=
  _ ← _expect_keyword (u "INSERT");
  _ ← _expect_keyword (u "INTO");
  name_tok ← _expect_ident;
  paren ← _match_kind LPAREN;
  columns ← (if paren : bool then
               cols ← _parse_ident_list; _ ← _expect_kind RPAREN; mret (Some cols)
             else mret None);
  _ ← _expect_keyword (u "VALUES");
  values ← comma_list _parse_value_tuple;
  _ ← _match_kind SEMI;
  mret (Insert (tok_str name_tok) columns values).

(** * SELECT *)

Definition _AGGREGATE_FUNCS : list pystr := map u ["COUNT"; "SUM"; "AVG"; "MIN"; "MAX"]%string.

Definition _parse_aggregate : P select_item :=
  func_tok ← _expect_keyword_one_of _AGGREGATE_FUNCS;
  _ ← _expect_kind LPAREN;
  arg_tok ← _peek;
  column ← (if is_op [u "*"] arg_tok then _ ← _advance; mret (u "*")
            else if kind_is IDENT arg_tok then _ ← _advance; mret (tok_str arg_tok)
            else fail_at arg_tok);
  _ ← _expect_kind RPAREN;
  mret (Aggregate (tok_str func_tok) column).

Definition _parse_select_item : P select_item :=
  tok ← _peek;
  if kind_is KEYWORD tok && value_in _AGGREGATE_FUNCS tok then _parse_aggregate
  else e ← parse_expr; mret (Item e).

Definition _parse_select_columns : P (list select_item) :=
  tok ← _peek;
  if is_op [u "*"] tok then _ ← _advance; mret [Star] else comma_list _parse_select_item.

Definition alias_followers : list pystr := map u [
  "AS"; "ON"; "USING"; "WHERE"; "GROUP"; "ORDER";
  "LIMIT"; "LEFT"; "INNER"; "JOIN"; "RIGHT"; "FULL"; "CROSS"; "OUTER"]%string.
(** An identifier after a table name is its alias when one of these follows *)
Definition _is_alias_position : P bool := λ s,
  match s with
  | [] => (Err IndexError, s)
  | t :: rest =>
      (Ok (kind_is IDENT t &&
           match rest with
           | [] => true
           | nxt :: _ => (kind_is KEYWORD nxt && value_in alias_followers nxt) || kind_is SEMI nxt || kind_is EOF nxt
           end), s)
  end.

Definition _parse_table_ref : P TableRef :=
  name_tok ← _expect_ident;
  _ ← _match_keyword (u "AS");
  nxt ← _peek;
  position ← _is_alias_position;
  if kind_is IDENT nxt && position then
    alias ← _advance; mret (Table (tok_str name_tok) (Some (tok_str alias)))
  else mret (Table (tok_str name_tok) None).

Definition _parse_join_condition : P (option expr * list pystr) :=
  on ← _match_keyword (u "ON");
  if on : bool then e ← parse_expr; mret (Some e, []) else
  using_ ← _match_keyword (u "USING");
  if using_ : bool then
    _ ← _expect_kind LPAREN; cols ← _parse_ident_list; _ ← _expect_kind RPAREN; mret (None, cols)
  else tok ← _peek; fail_at tok.

Definition join_kind : P JoinKind :=
  inner ← _match_keyword (u "INNER");
  if inner : bool then mret INNER else
  left ← _match_keyword (u "LEFT");
  if left : bool then _ ← _match_keyword (u "OUTER"); mret LEFT else
  right ← _match_keyword (u "RIGHT");
  if right : bool then tok ← _peek; fail_at tok else
  full ← _match_keyword (u "FULL");
  if full : bool then tok ← _peek; fail_at tok else
  cross ← _match_keyword (u "CROSS");
  if cross : bool then tok ← _peek; fail_at tok else mret INNER.

Definition _parse_one_join (left : TableRef) : P TableRef :=
  kind ← join_kind;
  _ ← _expect_keyword (u "JOIN");
  right ← _parse_table_ref;
  '(on_expr, using_cols) ← _parse_join_condition;
  mret (Join left right kind on_expr using_cols (bool_decide (kind = LEFT))).

Definition join_starts : list pystr := map u ["INNER"; "JOIN"; "LEFT"; "CROSS"]%string.
Definition _peek_is_join_start : P bool :=
  tok ← _peek; mret (kind_is KEYWORD tok && value_in join_starts tok).

Fixpoint join_loop (fuel : nat) (left : TableRef) (depth : Z) : P TableRef :=
  match fuel with
  | O => raise OutOfFuel
  | S fuel =>
      more ← _peek_is_join_start;
      if negb more then mret left
      else if _JOIN_MAX_DEPTH <? depth + 1 then tok ← _peek; fail_at tok
      else join ← _parse_one_join left; join_loop fuel join (depth + 1)
  end.
Definition _parse_from_clause (depth : Z) : P TableRef :=
  left ← _parse_table_ref; n ← gets length; join_loop (S n) left depth.

Definition _parse_order_by_item : P OrderBy :=
  col_tok ← _expect_ident;
  dot ← _match_kind DOT;
  col_name ← (if dot : bool then ident_name else mret (tok_str col_tok));
  desc ← _match_keyword (u "DESC");
  _ ← (if desc : bool then mret false else _match_keyword (u "ASC"));
  mret (mkOrderBy col_name desc).
Definition _parse_order_by_list : P (list OrderBy) := comma_list _parse_order_by_item.

(** [if self._match_keyword(kw): x = m] *)
Definition clause {A} (kw : pystr) (dflt : A) (m : P A) : P A :=
  present ← _match_keyword kw; if present : bool then m else mret dflt.
Definition int_value : P (option pyval) := t ← _expect_kind INT_LIT; mret (Some t.(tk_value)).
Definition where_clause : P (option expr) := clause (u "WHERE") None (e ← parse_expr; mret (Some e)).

Definition _parse_select : P Statement :=
  _ ← _expect_keyword (u "SELECT");
  columns ← _parse_select_columns;
  _ ← _expect_keyword (u "FROM");
  from_ref ← _parse_from_clause 0;
  where_ ← where_clause;
  group_by ← clause (u "GROUP") [] (_ ← _expect_keyword (u "BY"); _parse_ident_list);
  order_by ← clause (u "ORDER") [] (_ ← _expect_keyword (u "BY"); _parse_order_by_list);
  '(limit, offset) ← clause (u "LIMIT") (None, None)
    (limit ← int_value; offset ← clause (u "OFFSET") None int_value; mret (limit, offset));
  _ ← _match_kind SEMI;
  mret (Select (mkSelect columns from_ref where_ order_by limit offset group_by)).

(** * UPDATE and DELETE *)

Definition _parse_assignment : P Assignment :=
  col_tok ← _expect_ident;
  _ ← _expect_kind OP;
  value ← parse_expr;
  mret (mkAssignment (tok_str col_tok) value).

Definition _parse_update : P Statement :=
  _ ← _expect_keyword (u "UPDATE");
  table_tok ← _expect_ident;
  _ ← _expect_keyword (u "SET");
  set_clauses ← comma_list _parse_assignment;
  where_ ← where_clause;
  _ ← _match_kind SEMI;
  mret (Update (tok_str table_tok) set_clauses where_).

Definition _parse_delete : P Statement :=
  _ ← _expect_keyword (u "DELETE");
  _ ← _expect_keyword (u "FROM");
  table_tok ← _expect_ident;
  where_ ← where_clause;
  _ ← _match_kind SEMI;
  mret (Delete (tok_str table_tok) where_).

Definition parse_dml : P Statement :=
  tok ← _peek;
  if is_kw (u "INSERT") tok then _parse_insert
  else if is_kw (u "SELECT") tok then _parse_select
  else if is_kw (u "UPDATE") tok then _parse_update
  else if is_kw (u "DELETE") tok then _parse_delete
  else fail_at tok.

(** * Entry points *)

(** [parse_expr(tokens)]: an expression up to the EOF *)
Definition parse_expr_tokens (tokens : list Token) : result expr :=
  fst ((expr ← parse_expr;
   at_end ← _at_end;
   if at_end : bool then mret expr else tok ← _peek; fail_at tok) tokens).

Definition _DDL_LEAD_KEYWORDS : list pystr := map u ["CREATE"; "DROP"]%string.
Definition dispatch : P Statement :=
  first ← _peek;
  if kind_is KEYWORD first && value_in _DDL_LEAD_KEYWORDS first then parse_ddl else parse_dml.

(** [parse] on the tokens of the text: nothing but the EOF may be left *)
Definition parse_tokens (tokens : list Token) : result Statement :=
  let '(r, rest) := dispatch tokens in
  stmt ← r;
  match rest with
  | tok :: _ :: _ => Err (ParseError tok.(tk_line) tok.(tk_col))
  | _ => Ok stmt
  end.

Context `{UniLib}.
Definition parse_ddl_string (sql : pystr) : result Statement := tokens ← tokenize sql; (parse_ddl tokens).1.
Definition parse_dml_string (sql : pystr) : result Statement := tokens ← tokenize sql; (parse_dml tokens).1.
Definition parse (sql : pystr) : result Statement := tokens ← tokenize sql; parse_tokens tokens.
End Parser.

(** * Running the parser *)

(** A test that the EOF does not pass *)
Definition not_eof (p : Token → bool) : Prop := ∀ t, p t = true → t.(tk_kind) ≠ EOF.
(** Kinds of tokens are not the EOF's. *)
Lemma kind_not_eof k : k ≠ EOF → not_eof (kind_is k).
Proof. intros Hk t Ht%bool_decide_eq_true. by rewrite Ht. Qed.
Lemma kind_and_not_eof k q : k ≠ EOF → not_eof (λ t, kind_is k t && q t).
Proof. intros Hk t [Ht _]%andb_prop. by apply (kind_not_eof k). Qed.
Lemma null_not_eof : not_eof is_null.
Proof. intros t [Ht|Ht]%orb_prop; [by apply (kind_not_eof NULL_LIT)|by apply (kind_and_not_eof KEYWORD (value_in [u "NULL"]))]. Qed.

Create HintDb runs.
#[export] Hint Resolve kind_and_not_eof null_not_eof : runs.
#[export] Hint Extern 1 (not_eof (kind_is _)) => (apply kind_not_eof; discriminate) : runs.
#[export] Hint Extern 1 (not_eof (is_kw _)) => (apply kind_and_not_eof; discriminate) : runs.
#[export] Hint Extern 1 (not_eof (is_op _)) => (apply kind_and_not_eof; discriminate) : runs.
#[export] Hint Extern 1 (not_eof (λ _, kind_is _ _ && _)) => (apply kind_and_not_eof; discriminate) : runs.

(** Every computation of the parser keeps an invariant [Inv] of the remaining
    tokens and does not put tokens back; those that are [strict] consume some.
    What it raises satisfies [E]. *)
Section Runs.
Context `{IsoLib} `{JsonLib} (Inv : list Token → Prop) (E : exn → Prop).

(** The exceptions of the values of typed literals that the parser lets out *)
Definition escapes (e : exn) : Prop :=
  ∃ kw tag p s, assoc kw _TYPED_LITERAL_PARSERS = Some (tag, p) ∧ p s = Err e ∧ caught e = false.

Context (Inv_nil : Inv [] → E IndexError)
  (Inv_tl : ∀ t s, Inv (t :: s) → t.(tk_kind) ≠ EOF → Inv s)
  (E_parse : ∀ t s, Inv (t :: s) → E (ParseError t.(tk_line) t.(tk_col))) (E_node : ∀ n, E (NodeParseError n))
  (E_escapes : ∀ e, escapes e → E e).

Definition consumed (strict : bool) {A} (s : list Token) (_ : A) (s' : list Token) : Prop :=
  Inv s' ∧ (length s' + (if strict then 1 else 0) <= length s)%nat.
(** From [s] and everything shorter *)
Definition runs (strict : bool) {A} (m : P A) (s : list Token) : Prop :=
  Inv s → wp E m (consumed strict s) s.

Lemma wp_peek (Q : Token → list Token → Prop) s :
  Inv s → (∀ t s', s = t :: s' → Q t s) → wp E _peek Q s.
Proof. intros Hs HQ. destruct s as [|t s']; [by apply Inv_nil|]. by apply (HQ t s'). Qed.
Lemma wp_accept p (Q : bool → list Token → Prop) s :
  not_eof p → Inv s → (∀ s', Inv s' → (length s' < length s)%nat → Q true s') →
  Q false s → wp E (accept p) Q s.
Proof.
  intros Hp Hs HQ HQ'. apply wp_bind, wp_peek; [done|]. intros t s' ->. destruct (p t) eqn:Ht; [|done].
  apply HQ; [|simpl; lia]. apply (Inv_tl t); [done|]. by apply Hp.
Qed.
Lemma wp_expect p (Q : Token → list Token → Prop) s :
  not_eof p → Inv s →
  (∀ t s', p t = true → Inv s' → (length s' < length s)%nat → Q t s') → wp E (expect p) Q s.
Proof.
  intros Hp Hs HQ. apply wp_bind, wp_peek; [done|]. intros t s' ->. destruct (p t) eqn:Ht; [|by apply (E_parse t s')].
  apply HQ; [done| |simpl; lia]. apply (Inv_tl t); [done|]. by apply Hp.
Qed.
(** Consuming the token just seen *)
Lemma wp_advance (Q : Token → list Token → Prop) t s :
  t.(tk_kind) ≠ EOF → Inv (t :: s) → (Inv s → Q t s) → wp E _advance Q (t :: s).
Proof. intros Ht Hs HQ. apply HQ. by apply (Inv_tl t). Qed.
Lemma wp_alias (Q : bool → list Token → Prop) t s :
  (∀ b, Q b (t :: s)) → wp E _is_alias_position Q (t :: s).
Proof. intros HQ. apply HQ. Qed.
Lemma wp_fail_at {A} t s0 (Q : A → list Token → Prop) s : Inv (t :: s0) → wp E (fail_at t) Q s.
Proof. apply E_parse. Qed.
Lemma wp_match_op ops (Q : option pystr → list Token → Prop) s :
  Inv s → (∀ op s', Inv s' → (length s' < length s)%nat → Q (Some op) s') → Q None s →
  wp E (_match_op_in ops) Q s.
Proof.
  intros Hs HQ HQ'. apply wp_bind, wp_peek; [done|]. intros t s' ->. destruct (is_op ops t) eqn:Ht; [|done].
  apply HQ; [|simpl; lia]. apply (Inv_tl t); [done|]. apply andb_prop in Ht as [Ht _].
  apply bool_decide_eq_true in Ht as ->. done.
Qed.
Lemma wp_keyword_op kw (Q : option pystr → list Token → Prop) s :
  Inv s → (∀ s', Inv s' → (length s' < length s)%nat → Q (Some kw) s') → Q None s →
  wp E (_match_keyword_op kw) Q s.
Proof.
  intros Hs HQ HQ'. apply wp_bind, wp_accept; [|done| |done].
  - intros t [Ht _]%andb_prop. apply bool_decide_eq_true in Ht as ->. done.
  - intros s' ??. by apply wp_ret, HQ.
Qed.

(** Using a computation that [runs]; [n] bounds the tokens left. *)
Lemma wp_runs {A} strict (m : P A) (Q : A → list Token → Prop) s :
  runs strict m s → Inv s → (∀ a s', Inv s' → (length s' + (if strict then 1 else 0) <= length s)%nat → Q a s') →
  wp E m Q s.
Proof. intros Hr Hs HQ. eapply wp_mono; [by apply Hr|]. intros a s' [??]. by apply HQ. Qed.

Ltac no_eof :=
  let Heof := fresh "Heof" in
  intros Heof; unfold is_kw, is_op, is_literal, is_typed_keyword, kind_is in *; rewrite Heof in *; discriminate.
Ltac run_known :=
  first [ solve [eauto with runs]
        | match goal with H : context [runs] |- _ => solve [apply H; first [assumption|simpl in *; lia]] end ].
Ltac run_step :=
  match goal with
  | |- runs _ _ _ => let Hs := fresh "Hs" in intros Hs
  | |- consumed _ _ _ _ => split; [assumption|simpl in *; lia]
  | |- wp _ (mbind _ _) _ _ => apply wp_bind
  | |- wp _ (mret _) _ _ => apply wp_ret
  | |- wp _ (fail_at _) _ _ => eapply wp_fail_at; eassumption
  | |- wp _ (gets _) _ _ => apply wp_gets
  | |- wp _ _peek _ _ => apply wp_peek; [assumption|intros ? ? ?; simplify_eq]
  | |- wp _ _advance _ (_ :: _) => apply wp_advance; [no_eof|assumption|intros ?]
  | |- wp _ _is_alias_position _ (_ :: _) => apply wp_alias; intros ?
  | |- wp _ (accept _) _ _ => apply wp_accept; [solve [eauto with runs]|assumption|intros ? ? ?|]
  | |- wp _ (expect _) _ _ => apply wp_expect; [solve [eauto with runs]|assumption|intros ? ? ? ? ?]
  | |- wp _ (_match_op_in _) _ _ => apply wp_match_op; [assumption|intros ? ? ? ?|]
  | |- wp _ (_match_keyword_op _) _ _ => apply wp_keyword_op; [assumption|intros ? ? ?|]
  | |- wp _ (if ?b then _ else _) _ _ => destruct b eqn:?
  | |- wp _ (match ?x with _ => _ end) _ _ => destruct x eqn:?; simplify_eq
  | |- wp _ (_expect_kind _) _ _ => unfold _expect_kind
  | |- wp _ (_expect_keyword _) _ _ => unfold _expect_keyword
  | |- wp _ (_expect_keyword_one_of _) _ _ => unfold _expect_keyword_one_of
  | |- wp _ _expect_ident _ _ => unfold _expect_ident
  | |- wp _ (_match_kind _) _ _ => unfold _match_kind
  | |- wp _ (_match_keyword _) _ _ => unfold _match_keyword
  | |- wp _ _match_null _ _ => unfold _match_null
  | |- wp _ _ _ _ => eapply wp_runs; [run_known|assumption|intros ? ? ? ?; cbv iota in *]
  end; cbn beta iota.
Ltac run := repeat run_step.

(** ** Loops *)

Lemma comma_more_runs {A} (item : P A) n : ∀ fuel s,
  (∀ s, (length s <= n)%nat → runs false item s) → (length s < fuel)%nat → (length s <= n)%nat →
  runs false (comma_more fuel item) s.
Proof.
  induction fuel as [|fuel IH]; intros s Hitem Hf Hn; [lia|]. cbn [comma_more]. run.
Qed.
Lemma comma_list_runs {A} strict (item : P A) s :
  (∀ s, runs strict item s) → runs strict (comma_list item) s.
Proof.
  intros Hitem Hs. unfold comma_list. apply wp_bind.
  eapply wp_runs; [apply Hitem|done|]. intros x s1 Hs1 Hl1. run.
  eapply wp_runs; [apply (comma_more_runs _ (length s1)); [|lia..]|done|].
  - intros s' _ Hs'. eapply wp_mono; [by apply Hitem|]. intros a s2 [? ?]. split; [done|]. destruct strict; lia.
  - intros xs s2 Hs2 Hl2. run. 
Qed.

Section Ladder.
Context (sub_expr : P expr) (n : nat) (Hsub : ∀ s, (length s < n)%nat → runs true sub_expr s).

Lemma fold_ops_runs match_op operand : ∀ fuel left s,
  (∀ s, (length s <= n)%nat → runs true operand s) → (length s < fuel)%nat → (length s <= n)%nat →
  (∀ s Q, Inv s → (∀ op s', Inv s' → (length s' < length s)%nat → Q (Some op) s') → Q None s → wp E match_op Q s) →
  runs false (fold_ops fuel match_op operand left) s.
Proof.
  induction fuel as [|fuel IH]; intros left s Hopd Hf Hn Hop; [lia|]. intros Hs. cbn [fold_ops].
  apply wp_bind, Hop; [done| |run]. intros op s1 Hs1 Hl1. run.
Qed.
Lemma left_assoc_runs match_op operand s :
  (∀ s, (length s <= n)%nat → runs true operand s) → (length s <= n)%nat →
  (∀ s Q, Inv s → (∀ op s', Inv s' → (length s' < length s)%nat → Q (Some op) s') → Q None s → wp E match_op Q s) →
  runs true (left_assoc match_op operand) s.
Proof.
  intros Hopd Hn Hop. unfold left_assoc. run.
  eapply wp_runs; [apply fold_ops_runs; [done|lia|lia|done]|done|]. intros e s2 Hs2 Hl2. run.
Qed.
Lemma prefix_op_runs p op inner : ∀ s,
  not_eof p → (∀ s, (length s <= n)%nat → runs true inner s) → (length s <= n)%nat → runs true (prefix_op p op inner) s.
Proof.
  induction s as [|t s IH]; intros Hp Hin Hn Hs; [by apply Inv_nil|]. unfold wp. cbn [prefix_op].
  destruct (p t) eqn:Ht; [|by apply Hin].
  assert (Inv s) as Hs1 by (apply (Inv_tl t); auto). simpl in Hn.
  specialize (IH Hp Hin ltac:(lia) Hs1). unfold wp in IH.
  destruct (prefix_op p op inner s) as [[e|e] s']; [|done]. destruct IH as [??]. split; [done|]. simpl. lia.
Qed.

Lemma typed_literal_runs t s :
  is_typed_keyword t = true → runs true (_parse_typed_literal (tok_str t)) (t :: s).
Proof.
  intros Ht Hs. apply wp_bind, wp_advance; [no_eof|done|]. intros Hs1.
  assert (∃ tag p, assoc (tok_str t) _TYPED_LITERAL_PARSERS = Some (tag, p)) as (tag & p & Hp).
  { unfold is_typed_keyword, value_in, mem, tok_str in *. apply andb_prop in Ht as [_ Ht].
    destruct (tk_value t); try done. apply bool_decide_eq_true in Ht. cbn in Ht.
    rewrite !elem_of_cons, elem_of_nil in Ht. destruct_or?; subst; try done; by eexists _, _. }
  rewrite Hp. change (lift (of_option KeyError (Some (tag, p)))) with (mret (M := P) (tag, p)). run.
  - apply wp_raise, E_escapes. by eexists _, _, _, _.
Qed.
Lemma literal_runs s : runs true _parse_literal s.
Proof. unfold _parse_literal. run. Qed.
#[local] Hint Resolve typed_literal_runs literal_runs : runs.

Lemma primary_runs s : (length s <= n)%nat → runs true (_parse_primary_ sub_expr) s.
Proof. intros Hn. unfold _parse_primary_. run. Qed.
Lemma unary_runs s : (length s <= n)%nat → runs true (_parse_unary sub_expr) s.
Proof. intros Hn. apply prefix_op_runs; auto using primary_runs with runs. Qed.
Lemma multiplicative_runs s : (length s <= n)%nat → runs true (_parse_multiplicative sub_expr) s.
Proof. intros Hn. apply left_assoc_runs; auto using unary_runs, wp_match_op. Qed.
Lemma additive_runs s : (length s <= n)%nat → runs true (_parse_additive sub_expr) s.
Proof. intros Hn. apply left_assoc_runs; auto using multiplicative_runs, wp_match_op. Qed.
#[local] Hint Extern 2 (runs _ (_parse_additive _) _) => (apply additive_runs; simpl in *; lia) : runs.
Lemma comparison_runs s : (length s <= n)%nat → runs true (_parse_comparison sub_expr) s.
Proof. intros Hn. unfold _parse_comparison. run. Qed.
Lemma not_runs s : (length s <= n)%nat → runs true (_parse_not sub_expr) s.
Proof. intros Hn. apply prefix_op_runs; auto using comparison_runs with runs. Qed.
Lemma and_runs s : (length s <= n)%nat → runs true (_parse_and sub_expr) s.
Proof. intros Hn. apply left_assoc_runs; auto using not_runs, wp_keyword_op. Qed.
Lemma or_runs s : (length s <= n)%nat → runs true (_parse_or sub_expr) s.
Proof. intros Hn. apply left_assoc_runs; auto using and_runs, wp_keyword_op. Qed.
End Ladder.

Lemma expr_fuel_runs fuel : ∀ s, (length s < fuel)%nat → runs true (expr_fuel fuel) s.
Proof. induction fuel as [|fuel IH]; intros s Hf; [lia|]. apply (or_runs _ (length s)); [|lia]. intros. apply IH. lia. Qed.
Lemma parse_expr_runs s : runs true parse_expr s.
Proof. intros Hs. unfold parse_expr. run. eapply wp_runs; [apply expr_fuel_runs; lia|done|]. by run. Qed.
Lemma parse_primary_runs s : runs true _parse_primary s.
Proof. apply (primary_runs _ (length s)); [|lia]. intros. apply parse_expr_runs. Qed.
#[local] Hint Resolve parse_expr_runs parse_primary_runs : runs.

(** ** Statements *)

Lemma skip_size_runs s : ∀ depth, runs false (skip_size depth) s.
Proof.
  induction s as [|t s IH]; intros depth Hs; unfold wp; cbn [skip_size]; (destruct (depth <=? 0); [split; [done|lia]|]).
  - by apply Inv_nil.
  - destruct (kind_is EOF t) eqn:Ht; [split; [done|lia]|].
    assert (Inv s) as Hs1 by (apply (Inv_tl t); [done|by apply bool_decide_eq_false in Ht]).
    eapply wp_mono; [by apply IH|]. intros ? s' [??]. split; [done|]. simpl. lia.
Qed.
Lemma column_constraints_runs fuel : ∀ nn pk un s,
  (length s < fuel)%nat → runs false (column_constraints fuel nn pk un) s.
Proof. induction fuel as [|fuel IH]; intros nn pk un s Hf; [lia|]. cbn [column_constraints]. run. Qed.
#[local] Hint Extern 2 (runs _ (column_constraints _ _ _ _) _) => (apply column_constraints_runs; lia) : runs.
#[local] Hint Resolve comma_list_runs skip_size_runs : runs.
Lemma column_def_runs s : runs true _parse_column_def s.
Proof.
  unfold _parse_column_def. run. destruct s' as [|type_tok s2]; [by apply Inv_nil|].
  change (wp E (if negb (kind_is KEYWORD type_tok) then fail_at type_tok else
    match parse_type_name (tok_str type_tok) with
    | Err _ => fail_at type_tok
    | Ok tag =>
        size ← _match_kind LPAREN;
        _ ← (if size : bool then skip_size 1 else mret ());
        n ← gets length;
        '(nn, pk, un) ← column_constraints (S n) false false false;
        mret (mkColumn (tok_str t) tag nn pk un)
    end) (consumed true s) s2).
  destruct (kind_is KEYWORD type_tok) eqn:Hk; [|by apply (wp_fail_at _ s2)]. cbn [negb].
  assert (Inv s2) as Hs2 by (apply (Inv_tl type_tok); [done|no_eof]). cbn [length] in *. run.
Qed.
#[local] Hint Resolve column_def_runs : runs.
Lemma create_runs s : runs true _parse_create_or_index s.
Proof. unfold _parse_create_or_index, _parse_create_table, _parse_create_index. run. Qed.
Lemma drop_table_runs s : runs true _parse_drop_table s.
Proof. unfold _parse_drop_table. run. Qed.
#[local] Hint Resolve create_runs drop_table_runs : runs.
Lemma ddl_runs s : runs true parse_ddl s.
Proof. unfold parse_ddl. run. Qed.

Lemma ident_name_runs s : runs true ident_name s.
Proof. unfold ident_name. run. Qed.
#[local] Hint Resolve ident_name_runs : runs.
Lemma ident_list_runs s : runs true _parse_ident_list s.
Proof. unfold _parse_ident_list. run. Qed.
Lemma value_runs s : runs true _parse_value s.
Proof. unfold _parse_value. run. all: apply wp_raise, E_node. Qed.
#[local] Hint Resolve ident_list_runs value_runs : runs.
Lemma value_tuple_runs s : runs true _parse_value_tuple s.
Proof. unfold _parse_value_tuple. run. Qed.
#[local] Hint Resolve value_tuple_runs : runs.
Lemma insert_runs s : runs true _parse_insert s.
Proof. unfold _parse_insert. run. Qed.
Lemma select_item_runs s : runs true _parse_select_item s.
Proof. unfold _parse_select_item, _parse_aggregate. run. Qed.
#[local] Hint Resolve select_item_runs : runs.
Lemma select_columns_runs s : runs true _parse_select_columns s.
Proof. unfold _parse_select_columns. run. Qed.
Lemma table_ref_runs s : runs true _parse_table_ref s.
Proof. unfold _parse_table_ref. run. Qed.
Lemma join_condition_runs s : runs true _parse_join_condition s.
Proof. unfold _parse_join_condition. run. Qed.
Lemma join_kind_runs s : runs false join_kind s.
Proof. unfold join_kind. run. Qed.
#[local] Hint Resolve select_columns_runs table_ref_runs join_condition_runs join_kind_runs : runs.
Lemma one_join_runs left s : runs true (_parse_one_join left) s.
Proof. unfold _parse_one_join. run. Qed.
#[local] Hint Resolve one_join_runs : runs.
Lemma join_loop_runs fuel : ∀ left depth s, (length s < fuel)%nat → runs false (join_loop fuel left depth) s.
Proof. induction fuel as [|fuel IH]; intros left depth s Hf; [lia|]. cbn [join_loop]. unfold _peek_is_join_start. run. Qed.
#[local] Hint Extern 2 (runs _ (join_loop _ _ _) _) => (apply join_loop_runs; lia) : runs.
Lemma from_clause_runs depth s : runs true (_parse_from_clause depth) s.
Proof. unfold _parse_from_clause. run. Qed.
Lemma order_by_item_runs s : runs true _parse_order_by_item s.
Proof. unfold _parse_order_by_item. run. Qed.
Lemma int_value_runs s : runs true int_value s.
Proof. unfold int_value. run. Qed.
#[local] Hint Resolve from_clause_runs order_by_item_runs int_value_runs : runs.
Lemma order_by_list_runs s : runs true _parse_order_by_list s.
Proof. unfold _parse_order_by_list. run. Qed.
#[local] Hint Resolve order_by_list_runs : runs.
Lemma where_runs s : runs false where_clause s.
Proof. unfold where_clause, clause. run. Qed.
#[local] Hint Resolve where_runs : runs.
Lemma select_runs s : runs true _parse_select s.
Proof. unfold _parse_select, clause. run. Qed.
Lemma assignment_runs s : runs true _parse_assignment s.
Proof. unfold _parse_assignment. run. Qed.
#[local] Hint Resolve assignment_runs : runs.
Lemma update_runs s : runs true _parse_update s.
Proof. unfold _parse_update. run. Qed.
Lemma delete_runs s : runs true _parse_delete s.
Proof. unfold _parse_delete. run. Qed.
#[local] Hint Resolve insert_runs select_runs update_runs delete_runs : runs.
Lemma dml_runs s : runs true parse_dml s.
Proof. unfold parse_dml. run. Qed.
#[local] Hint Resolve ddl_runs dml_runs : runs.
Lemma dispatch_runs s : runs true dispatch s.
Proof. unfold dispatch. run. Qed.
End Runs.

(** ** Totality and errors *)

(** Documented: [fromisoformat] raises ValueError, [json.loads] JSONDecodeError. *)
Class LiteralLaws `{IsoLib} `{JsonLib} : Prop := {
  date_error s e : date_fromisoformat s = Err e → e = ValueError;
  time_error s e : time_fromisoformat s = Err e → e = ValueError;
  datetime_error s e : datetime_fromisoformat s = Err e → e = ValueError;
  json_error s e : json_loads s = Err e → e = JSONDecodeError;
}.

(** The tokens end with their only EOF. *)
Definition ended (s : list Token) : Prop :=
  ∃ ts eof, s = ts ++ [eof] ∧ tk_kind eof = EOF ∧ Forall (λ t, tk_kind t ≠ EOF) ts.

Lemma ended_tl t s : ended (t :: s) → tk_kind t ≠ EOF → ended s.
Proof.
  intros (ts & eof & Hs & He & Hts) Ht. destruct ts as [|t' ts]; simplify_eq/=.
  apply Forall_cons in Hts as [_ Hts]. by exists ts, eof.
Qed.
Lemma not_ended_nil : ¬ ended [].
Proof. by intros ([|] & ? & ? & _). Qed.
Lemma tokenize_ended `{UniLaws} sql toks : tokenize sql = Ok toks → ended toks.
Proof.
  intros Ht. destruct (lex_ok _ sql _ _ Ht) as (ts & eof & -> & He & _ & Hts).
  { exists []. split; [done|]. by left. }
  exists ts, eof. split; [done|]. split; [done|]. eapply Forall_impl; [exact Hts|].
  by intros t (pre & lexeme & post & _ & _ & _ & Hk & _).
Qed.

(** What can come out of the parser on the tokens [toks] *)
Definition parser_error (toks : list Token) (e : exn) : Prop :=
  (∃ t, t ∈ toks ∧ e = ParseError t.(tk_line) t.(tk_col)) ∨ (∃ node, e = NodeParseError node) ∨ e = DecimalError.

Section Total.
Context `{LiteralLaws}.

Lemma of_option_error {A} e (o : option A) e' : of_option e o = Err e' → e' = e.
Proof. destruct o; [done|]. by intros [= <-]. Qed.
Lemma fromhex_error n : ∀ s e, (length s <= n)%nat → fromhex s = Err e → e = ValueError.
Proof.
  induction n as [|n IH]; intros [|c s] e Hn; simpl in *; try (done || lia).
  destruct (_ || _); [apply IH; lia|]. destruct s as [|d s]; [by intros [= <-]|].
  destruct (of_option _ (hex_val c)) eqn:Hc; [|intros [= <-]; by eapply of_option_error].
  destruct (of_option _ (hex_val d)) eqn:Hd; [|intros [= <-]; by eapply of_option_error]. cbn.
  destruct (fromhex s) eqn:Hf; [done|]. intros [= <-]. apply (IH s); [simpl in Hn; lia|done].
Qed.
Lemma decimal_error s e : decimal_of_text s = Err e → e = DecimalError.
Proof.
  unfold decimal_of_text. repeat case_match; try done; try (by apply of_option_error); by intros [= <-].
Qed.
Lemma escapes_decimal e : escapes e → e = DecimalError.
Proof.
  intros (kw & tag & p & s & Hp & Hs & Hc). unfold _TYPED_LITERAL_PARSERS in Hp. cbn [assoc] in Hp.
  repeat (case_decide; [simplify_eq/=|]); try done.
  all: first [ apply date_error in Hs | apply time_error in Hs | apply datetime_error in Hs | apply json_error in Hs
             | destruct (decimal_of_text s) eqn:Hd; [done|apply decimal_error in Hd]
             | destruct (fromhex s) eqn:Hd; [done|apply (fromhex_error _ _ _ (Nat.le_refl _)) in Hd] ];
    simplify_eq/=; done.
Qed.

Definition suffix_of (toks s : list Token) : Prop := ended s ∧ ∃ pre, toks = pre ++ s.
Lemma dispatch_error toks :
  ended toks → wp (parser_error toks) dispatch (λ _, suffix_of toks) toks.
Proof.
  intros He. eapply wp_mono; [apply (dispatch_runs (suffix_of toks))|].
  - by intros [?%not_ended_nil _].
  - intros t s [Hs (pre & ->)] Ht. split; [by eapply ended_tl|]. exists (pre ++ [t]). by rewrite <-app_assoc.
  - intros t s [_ (pre & ->)]. left. exists t. split; [|done]. rewrite elem_of_app, elem_of_cons. auto.
  - intros node. right. left. by exists node.
  - intros e ->%escapes_decimal. by right; right.
  - split; [done|by exists []].
  - by intros _ s [? _].
Qed.
Lemma parse_tokens_error toks e : ended toks → parse_tokens toks = Err e → parser_error toks e.
Proof.
  intros He. pose proof (dispatch_error toks He) as Hd. unfold wp, parse_tokens in *.
  destruct (dispatch toks) as [[stmt|e'] rest]; [|by intros [= <-]]. cbn.
  destruct Hd as [_ (pre & Hpre)]. destruct rest as [|tok [|tok' rest]]; [done..|]. intros [= <-].
  left. exists tok. split; [|done]. rewrite Hpre, elem_of_app, elem_of_cons. auto.
Qed.

Context `{UniLaws}.

(** C31: the parser is total: on every text it ends (no loop runs out of
    tokens, no index passes the end of the token list) and gives a statement
    or raises: the tokenizer's ParseError or ValueError, a ParseError at the
    line and column of one of the tokens, the ParseError that names a node class
    (a VALUES entry that is not a literal), or decimal's exception for a DECIMAL
    text that is no number, which is not turned into a ParseError. *)
Theorem parse_total sql :
  match parse sql with
  | Ok _ => True
  | Err e =>
      match tokenize sql with
      | Err e' => e = e' ∧ (e = ValueError ∨ ∃ l c, e = ParseError l c)
      | Ok toks => parser_error toks e
      end
  end.
Proof.
  unfold parse. destruct (tokenize sql) as [toks|e] eqn:Ht; cbn.
  - destruct (parse_tokens toks) eqn:Hp; [done|]. by apply parse_tokens_error; [eapply tokenize_ended|].
  - split; [done|]. by apply (lex_error _ _ _ (Nat.le_refl _) Ht).
Qed.
End Total.

(** ** Concrete runs *)

(** ISO dates only, by ordinal; times and datetimes refused *)
Definition demo_iso : IsoLib := {|
  date_fromisoformat s := if bool_decide (s = u "2026-07-09") then Ok (PyDate 739806) else Err ValueError;
  time_fromisoformat _ := Err ValueError;
  datetime_fromisoformat _ := Err ValueError;
|}.
Lemma demo_literal_laws : @LiteralLaws demo_iso letters_json.
Proof.
  split; simpl; intros s e.
  - case_match; naive_solver.
  - naive_solver.
  - naive_solver.
  - repeat (case_decide; [done|]). repeat case_match; naive_solver.
Qed.
Definition demo_parse : pystr → result Statement := @parse demo_iso letters_json ascii_unilib.

Lemma parse_total_witness : demo_parse (u "SELECT FROM") = Err (ParseError 1 8) ∧
  match demo_parse (u "SELECT FROM") with
  | Ok _ => True
  | Err e =>
      match @tokenize ascii_unilib (u "SELECT FROM") with
      | Err e' => e = e' ∧ (e = ValueError ∨ ∃ l c, e = ParseError l c)
      | Ok toks => parser_error toks e
      end
  end.
Proof.
  split; [vm_compute; reflexivity|].
  exact (@parse_total demo_iso letters_json demo_literal_laws ascii_unilib ascii_unilib_laws (u "SELECT FROM")).
Defined.

(** The typed literals' exceptions that are no ValueError escape. *)
Example decimal_text_escapes : demo_parse (u "SELECT DECIMAL 'abc' FROM t") = Err DecimalError.
Proof. vm_compute. reflexivity. Qed.
Example date_text_caught : demo_parse (u "SELECT DATE 'abc' FROM t") = Err (ParseError 1 13).
Proof. vm_compute. reflexivity. Qed.
(** The "line" of the error is the name of a class. *)
Example values_node_error : demo_parse (u "INSERT INTO t VALUES (a)") = Err (NodeParseError "ColumnRef").
Proof. vm_compute. reflexivity. Qed.
(** SET takes any operator for the equals sign. *)
Example assignment_any_operator :
  demo_parse (u "UPDATE t SET a < 5") = Ok (Update (u "t") [mkAssignment (u "a") (Literal (PyInt 5))] None).
Proof. vm_compute. reflexivity. Qed.
(** A negative number is not a literal of VALUES. *)
Example negative_value_refused : demo_parse (u "INSERT INTO t VALUES (-1)") = Err (ParseError 1 23).
Proof. vm_compute. reflexivity. Qed.
(** The sixth join is refused. *)
Example six_joins_refused :
  demo_parse (u "SELECT * FROM a JOIN b USING (x) JOIN c USING (x) JOIN d USING (x) JOIN e USING (x) JOIN f USING (x) JOIN g USING (x)")
  = Err (ParseError 1 102).
Proof. vm_compute. reflexivity. Qed.
