(* ===== verification/Grammar.v ===== *)
(** Component [sql/parser.py], its language: the expression grammar with its
    precedences as an inductive relation, which the parser decides; and a
    printer of statements that the parser reads back. *)
From S2P Require Import Prelude.
From S2P Require Import Bytes.
From S2P Require Import Utf8.
From S2P Require Import Text.
From S2P Require Import TypeSys.
From S2P Require Import Codec.
From S2P Require Import Tokens.
From S2P Require Import Ast.
From S2P Require Import Parser.
From Stdlib Require Import ZArith Lia.
Local Open Scope Z_scope.

(** * The grammar *)

(** A token without its position *)
Abbreviation sig := (TokenKind * pyval)%type.
Definition sig_of (t : Token) : sig := (t.(tk_kind), t.(tk_value)).
Definition kw_sig (s : string) : sig := (KEYWORD, PyStr (u s)).
Definition op_sig (s : pystr) : sig := (OP, PyStr s).
Definition val_str (v : pyval) : pystr := match v with PyStr s => s | _ => [] end.
Definition null_sig (s : sig) : Prop := s.1 = NULL_LIT ∨ s = kw_sig "NULL".

(** From the loosest to the tightest *)
Inductive level := LOr | LAnd | LNot | LComparison | LAdditive | LMultiplicative | LUnary | LPrimary.

Section Grammar.
Context `{IsoLib} `{JsonLib}.

Inductive gram : level → list sig → expr → Prop :=
  | g_or_one ts e : gram LAnd ts e → gram LOr ts e
  | g_or ts1 e1 ts2 e2 : gram LOr ts1 e1 → gram LAnd ts2 e2 →
      gram LOr (ts1 ++ kw_sig "OR" :: ts2) (BinaryOp (u "OR") e1 e2)
  | g_and_one ts e : gram LNot ts e → gram LAnd ts e
  | g_and ts1 e1 ts2 e2 : gram LAnd ts1 e1 → gram LNot ts2 e2 →
      gram LAnd (ts1 ++ kw_sig "AND" :: ts2) (BinaryOp (u "AND") e1 e2)
  | g_not_one ts e : gram LComparison ts e → gram LNot ts e
  | g_not ts e : gram LNot ts e → gram LNot (kw_sig "NOT" :: ts) (UnaryOp (u "NOT") e)
  | g_comparison_one ts e : gram LAdditive ts e → gram LComparison ts e
  | g_is_null ts e null : gram LAdditive ts e → null_sig null →
      gram LComparison (ts ++ [kw_sig "IS"; null]) (UnaryOp (u "IS NULL") e)
  | g_is_not_null ts e null : gram LAdditive ts e → null_sig null →
      gram LComparison (ts ++ [kw_sig "IS"; kw_sig "NOT"; null]) (UnaryOp (u "IS NOT NULL") e)
  | g_comparison ts1 e1 op ts2 e2 : gram LAdditive ts1 e1 → op ∈ _COMPARISON_OPS → gram LAdditive ts2 e2 →
      gram LComparison (ts1 ++ op_sig op :: ts2) (BinaryOp op e1 e2)
  | g_additive_one ts e : gram LMultiplicative ts e → gram LAdditive ts e
  | g_additive ts1 e1 op ts2 e2 : gram LAdditive ts1 e1 → op ∈ _ADDITIVE_OPS → gram LMultiplicative ts2 e2 →
      gram LAdditive (ts1 ++ op_sig op :: ts2) (BinaryOp op e1 e2)
  | g_multiplicative_one ts e : gram LUnary ts e → gram LMultiplicative ts e
  | g_multiplicative ts1 e1 op ts2 e2 :
      gram LMultiplicative ts1 e1 → op ∈ _MULTIPLICATIVE_OPS → gram LUnary ts2 e2 →
      gram LMultiplicative (ts1 ++ op_sig op :: ts2) (BinaryOp op e1 e2)
  | g_unary_one ts e : gram LPrimary ts e → gram LUnary ts e
  | g_minus ts e : gram LUnary ts e → gram LUnary (op_sig (u "-") :: ts) (UnaryOp (u "-") e)
  | g_typed kw tag p text v : assoc kw _TYPED_LITERAL_PARSERS = Some (tag, p) → p (val_str text) = Ok v →
      gram LPrimary [(KEYWORD, PyStr kw); (STRING_LIT, text)] (TypedLiteral tag v)
  | g_literal k v : k ∈ literal_kinds → gram LPrimary [(k, v)] (Literal (if bool_decide (k = NULL_LIT) then PyNone else v))
  | g_paren l ts e r : gram LOr ts e → gram LPrimary ((LPAREN, l) :: ts ++ [(RPAREN, r)]) e
  | g_column c : gram LPrimary [(IDENT, c)] (ColumnRef (val_str c) None)
  | g_qualified t d c :
      gram LPrimary [(IDENT, t); (DOT, d); (IDENT, c)] (ColumnRef (val_str c) (Some (val_str t))).

(** * The parser only reads expressions of the grammar *)

Definition yields (l : level) (m : P expr) : Prop := ∀ s,
  wp (λ _, True) m (λ e s', ∃ used, s = used ++ s' ∧ gram l (map sig_of used) e) s.

Lemma kind_sig k t : kind_is k t = true → sig_of t = (k, t.(tk_value)).
Proof. intros Hk%bool_decide_eq_true. unfold sig_of. by rewrite Hk. Qed.
Lemma value_in_sig l t : value_in l t = true → ∃ s, s ∈ l ∧ t.(tk_value) = PyStr s.
Proof.
  unfold value_in, mem. destruct (tk_value t) as [| | | |s| | | | | | | | | | |]; try done.
  intros Hs%bool_decide_eq_true. by exists s.
Qed.
Lemma kw_sig_inv kw t : is_kw (u kw) t = true → sig_of t = kw_sig kw.
Proof.
  intros [Hk%kind_sig Hv%value_in_sig]%andb_prop. destruct Hv as (s & Hs & Hv). rewrite Hk, Hv.
  by apply list_elem_of_singleton in Hs as ->.
Qed.
Lemma op_sig_inv ops t : is_op ops t = true → sig_of t = op_sig (tok_str t) ∧ tok_str t ∈ ops.
Proof.
  intros [Hk%kind_sig Hv%value_in_sig]%andb_prop. destruct Hv as (s & Hs & Hv). unfold tok_str. by rewrite Hk, Hv.
Qed.
Lemma null_sig_inv t : is_null t = true → null_sig (sig_of t).
Proof. intros [Hk%kind_sig|Hk%(kw_sig_inv "NULL")]%orb_prop; rewrite Hk; [by left|by right]. Qed.

Lemma wp_peek_any E (Q : Token → list Token → Prop) s :
  E IndexError → (∀ t s', s = t :: s' → Q t s) → wp E _peek Q s.
Proof. intros HE HQ. destruct s as [|t s']; [done|]. by apply (HQ t s'). Qed.
Lemma wp_accept_any p (Q : bool → list Token → Prop) s :
  (∀ t s', s = t :: s' → p t = true → Q true s') → (∀ t s', s = t :: s' → p t = false → Q false s) →
  wp (λ _, True) (accept p) Q s.
Proof.
  intros HQ HQ'. apply wp_bind, wp_peek_any; [done|]. intros t s' ->.
  destruct (p t) eqn:Ht; [by apply (HQ t s')|by apply (HQ' t s')].
Qed.
Lemma wp_match_op_any ops (Q : option pystr → list Token → Prop) s :
  (∀ t s', s = t :: s' → is_op ops t = true → Q (Some (tok_str t)) s') →
  (∀ t s', s = t :: s' → is_op ops t = false → Q None s) →
  wp (λ _, True) (_match_op_in ops) Q s.
Proof.
  intros HQ HQ'. apply wp_bind, wp_peek_any; [done|]. intros t s' ->.
  destruct (is_op ops t) eqn:Ht; [by apply (HQ t s')|by apply (HQ' t s')].
Qed.
Lemma wp_keyword_op_any kw (Q : option pystr → list Token → Prop) s :
  (∀ t s', s = t :: s' → is_kw kw t = true → Q (Some kw) s') →
  (∀ t s', s = t :: s' → is_kw kw t = false → Q None s) →
  wp (λ _, True) (_match_keyword_op kw) Q s.
Proof. intros HQ HQ'. apply wp_bind, wp_accept_any; auto. Qed.

Lemma left_assoc_yields lo hi match_op operand (spells_op : pystr → sig → Prop) :
  yields lo operand →
  (∀ ts e, gram lo ts e → gram hi ts e) →
  (∀ ts1 e1 op o ts2 e2, gram hi ts1 e1 → spells_op op o → gram lo ts2 e2 → gram hi (ts1 ++ o :: ts2) (BinaryOp op e1 e2)) →
  (∀ s Q, (∀ op t s', s = t :: s' → spells_op op (sig_of t) → Q (Some op) s') → Q None s → wp (λ _, True) match_op Q s) →
  yields hi (left_assoc match_op operand).
Proof.
  intros Hopd Hone Hmore Hop s. apply wp_bind. eapply wp_mono; [apply Hopd|].
  intros e s1 (used & -> & Hg). apply wp_bind, wp_gets. apply Hone in Hg. revert used e s1 Hg.
  assert (∀ fuel used e s1, gram hi (map sig_of used) e →
    wp (λ _, True) (fold_ops fuel match_op operand e)
      (λ e s', ∃ used', used ++ s1 = used' ++ s' ∧ gram hi (map sig_of used') e) s1) as Hloop; [|intros; by apply Hloop].
  induction fuel as [|fuel IH]; intros used e s1 Hg; [done|]. cbn [fold_ops].
  apply wp_bind, Hop; [|by exists used]. intros op t s2 -> Ht. cbn beta iota.
  apply wp_bind. eapply wp_mono; [apply Hopd|]. intros e2 s3 (used2 & -> & Hg2).
  eapply wp_mono; [apply (IH (used ++ t :: used2))|].
  - rewrite map_app. cbn [map]. by apply Hmore.
  - intros e' s' (used' & Hused & Hg'). exists used'. split; [|done]. by rewrite <-Hused, <-app_assoc.
Qed.
Lemma prefix_op_yields lo hi p op inner :
  yields lo inner → (∀ ts e, gram lo ts e → gram hi ts e) →
  (∀ t ts e, p t = true → gram hi ts e → gram hi (sig_of t :: ts) (UnaryOp op e)) →
  yields hi (prefix_op p op inner).
Proof.
  intros Hin Hone Hmore s. induction s as [|t s IH]; [done|]. unfold wp. cbn [prefix_op].
  destruct (p t) eqn:Ht.
  - unfold wp in IH. destruct (prefix_op p op inner s) as [[e|e] s']; [|done].
    destruct IH as (used & -> & Hg). exists (t :: used). split; [done|]. by apply Hmore.
  - eapply wp_mono in Hin; [exact Hin|]. intros e s' (used & Hs & Hg). exists used. auto.
Qed.

Section Ladder.
Context (sub_expr : P expr) (Hsub : yields LOr sub_expr).

Lemma typed_literal_yields t s :
  is_typed_keyword t = true →
  wp (λ _, True) (_parse_typed_literal (tok_str t))
    (λ e s', ∃ used, t :: s = used ++ s' ∧ gram LPrimary (map sig_of used) e) (t :: s).
Proof.
  intros [Hk%kind_sig Hv%value_in_sig]%andb_prop. destruct Hv as (kw & _ & Hv).
  apply wp_bind. change (wp (λ _, True) (x ← lift (of_option KeyError (assoc (tok_str t) _TYPED_LITERAL_PARSERS));
    let '(tag, value_parser) := x in
    str_tok ← _peek;
    if negb (kind_is STRING_LIT str_tok) then fail_at str_tok else
    _ ← _advance;
    match value_parser (tok_str str_tok) with
    | Ok value => mret (TypedLiteral tag value)
    | Err e => if caught e then fail_at str_tok else raise e
    end) (λ e s', ∃ used, t :: s = used ++ s' ∧ gram LPrimary (map sig_of used) e) s).
  destruct (assoc (tok_str t) _TYPED_LITERAL_PARSERS) as [[tag p]|] eqn:Hp; [|done].
  apply wp_bind, wp_ret. apply wp_bind, wp_peek_any; [done|]. intros st s' ->.
  destruct (kind_is STRING_LIT st) eqn:Hst; [|done]. cbn [negb].
  apply wp_bind. change (wp (λ _, True) (match p (tok_str st) with
    | Ok value => mret (TypedLiteral tag value)
    | Err e => if caught e then fail_at st else raise e
    end) (λ e s'', ∃ used, t :: st :: s' = used ++ s'' ∧ gram LPrimary (map sig_of used) e) s').
  destruct (p (tok_str st)) as [v|] eqn:Hpv; [|by case_match]. apply wp_ret. exists [t; st]. split; [done|].
  cbn [map]. apply kind_sig in Hst. rewrite Hk, Hst, Hv. unfold tok_str in Hp. rewrite Hv in Hp. by eapply g_typed.
Qed.

Lemma primary_yields : yields LPrimary (_parse_primary_ sub_expr).
Proof.
  intros s. apply wp_bind, wp_peek_any; [done|]. intros t s' ->.
  destruct (is_typed_keyword t) eqn:Htk; [by apply typed_literal_yields|].
  destruct (is_literal t) eqn:Hlit.
  { apply wp_bind, wp_peek_any; [done|]. intros ? ? [= <- <-]. rewrite Hlit. exists [t]. split; [done|].
    apply bool_decide_eq_true in Hlit. by apply g_literal. }
  destruct (kind_is LPAREN t) eqn:Hpar.
  { apply wp_bind. change (wp (λ _, True) (inner ← sub_expr; _ ← _expect_kind RPAREN; mret inner)
      (λ e s'', ∃ used, t :: s' = used ++ s'' ∧ gram LPrimary (map sig_of used) e) s').
    apply wp_bind. eapply wp_mono; [apply Hsub|]. intros e s1 (used & -> & Hg).
    apply wp_bind. unfold _expect_kind, expect. apply wp_bind, wp_peek_any; [done|]. intros r s2 ->.
    destruct (kind_is RPAREN r) eqn:Hr; [|done]. exists (t :: used ++ [r]). split; [cbn; by rewrite <-app_assoc|].
    apply kind_sig in Hpar, Hr. cbn [map]. rewrite map_app. cbn [map]. rewrite Hpar, Hr. by apply g_paren. }
  destruct (kind_is IDENT t) eqn:Hid; [|done]. apply kind_sig in Hid.
  apply wp_bind. change (wp (λ _, True) (dot ← _match_kind DOT;
      if dot : bool then
        col_tok ← expect (kind_is IDENT);
        mret (ColumnRef (tok_str col_tok) (Some (tok_str t)))
      else mret (ColumnRef (tok_str t) None))
      (λ e s'', ∃ used, t :: s' = used ++ s'' ∧ gram LPrimary (map sig_of used) e) s').
  apply wp_bind, wp_accept_any.
  - intros d s1 -> Hd%kind_sig. apply wp_bind. unfold expect. apply wp_bind, wp_peek_any; [done|]. intros c s2 ->.
    destruct (kind_is IDENT c) eqn:Hc; [|done]. apply kind_sig in Hc. exists [t; d; c]. split; [done|].
    cbn [map]. rewrite Hid, Hd, Hc. apply g_qualified.
  - intros d s1 _ _. exists [t]. split; [done|]. cbn [map]. rewrite Hid. apply g_column.
Qed.
Lemma unary_yields : yields LUnary (_parse_unary sub_expr).
Proof.
  apply (prefix_op_yields LPrimary); [apply primary_yields|by constructor|].
  intros t ts e [-> Ht]%op_sig_inv. apply list_elem_of_singleton in Ht as ->. by constructor.
Qed.
Lemma match_op_is ops s (Q : option pystr → list Token → Prop) :
  (∀ op t s', s = t :: s' → op ∈ ops ∧ sig_of t = op_sig op → Q (Some op) s') → Q None s →
  wp (λ _, True) (_match_op_in ops) Q s.
Proof. intros HQ HQ'. apply wp_match_op_any; [|done]. intros t s' -> [??]%op_sig_inv. by apply (HQ _ t). Qed.
Lemma keyword_op_is kw s (Q : option pystr → list Token → Prop) :
  (∀ op t s', s = t :: s' → op = u kw ∧ sig_of t = kw_sig kw → Q (Some op) s') → Q None s →
  wp (λ _, True) (_match_keyword_op (u kw)) Q s.
Proof. intros HQ HQ'. apply wp_keyword_op_any; [|done]. intros t s' -> ?%kw_sig_inv. by apply (HQ _ t). Qed.

Lemma multiplicative_yields : yields LMultiplicative (_parse_multiplicative sub_expr).
Proof.
  apply (left_assoc_yields LUnary _ _ _ (λ op o, op ∈ _MULTIPLICATIVE_OPS ∧ o = op_sig op));
    [apply unary_yields|by constructor| |apply match_op_is].
  intros ts1 e1 op o ts2 e2 ? [? ->] ?. by constructor.
Qed.
Lemma additive_yields : yields LAdditive (_parse_additive sub_expr).
Proof.
  apply (left_assoc_yields LMultiplicative _ _ _ (λ op o, op ∈ _ADDITIVE_OPS ∧ o = op_sig op));
    [apply multiplicative_yields|by constructor| |apply match_op_is].
  intros ts1 e1 op o ts2 e2 ? [? ->] ?. by constructor.
Qed.
Lemma comparison_yields : yields LComparison (_parse_comparison sub_expr).
Proof.
  intros s. apply wp_bind. eapply wp_mono; [apply additive_yields|]. intros e s1 (used & -> & Hg).
  apply wp_bind, wp_accept_any.
  - intros i s2 -> Hi%(kw_sig_inv "IS"). apply wp_bind, wp_accept_any.
    + intros n s3 -> Hn%(kw_sig_inv "NOT"). apply wp_bind, wp_accept_any; [|intros ? ? -> _; done].
      intros l s4 -> Hl%null_sig_inv. exists (used ++ [i; n; l]). split; [by rewrite <-app_assoc|].
      rewrite map_app. cbn [map]. rewrite Hi, Hn. by apply g_is_not_null.
    + intros n s3 -> _. apply wp_bind, wp_accept_any; [|intros ? ? -> _; done].
      intros l s4 [= <- <-] Hl%null_sig_inv. exists (used ++ [i; n]). split; [by rewrite <-app_assoc|].
      rewrite map_app. cbn [map]. rewrite Hi. by apply g_is_null.
  - intros t s2 -> _. apply wp_bind, wp_match_op_any.
    + intros o s3 [= <- <-] [Ho Hin]%op_sig_inv. cbn beta iota. apply wp_bind.
      eapply wp_mono; [apply additive_yields|]. intros e2 s4 (used2 & -> & Hg2).
      exists (used ++ t :: used2). split; [by rewrite <-app_assoc|].
      rewrite map_app. cbn [map]. rewrite Ho. by apply g_comparison.
    + intros o s3 _ _. exists used. split; [done|]. by constructor.
Qed.
Lemma not_yields : yields LNot (_parse_not sub_expr).
Proof.
  apply (prefix_op_yields LComparison); [apply comparison_yields|by constructor|].
  intros t ts e ->%(kw_sig_inv "NOT"). by constructor.
Qed.
Lemma and_yields : yields LAnd (_parse_and sub_expr).
Proof.
  apply (left_assoc_yields LNot _ _ _ (λ op o, op = u "AND" ∧ o = kw_sig "AND"));
    [apply not_yields|by constructor| |apply keyword_op_is].
  intros ts1 e1 op o ts2 e2 ? [-> ->] ?. by constructor.
Qed.
Lemma or_yields : yields LOr (_parse_or sub_expr).
Proof.
  apply (left_assoc_yields LAnd _ _ _ (λ op o, op = u "OR" ∧ o = kw_sig "OR"));
    [apply and_yields|by constructor| |apply keyword_op_is].
  intros ts1 e1 op o ts2 e2 ? [-> ->] ?. by constructor.
Qed.
End Ladder.

Lemma parse_expr_yields : yields LOr parse_expr.
Proof.
  intros s. apply wp_bind, wp_gets.
  assert (∀ fuel, yields LOr (expr_fuel fuel)) as Hf; [|apply Hf].
  induction fuel as [|fuel IH]; [done|]. by apply or_yields.
Qed.

(** * More fuel changes nothing *)

Definition shrinks (strict : bool) {A} (m : P A) (s : list Token) : Prop :=
  ∀ a s', m s = (Ok a, s') → (length s' + (if strict then 1 else 0) <= length s)%nat.

Lemma runs_shrinks strict {A} (m : P A) s : runs (λ _, True) (λ _, True) strict m s → shrinks strict m s.
Proof. intros Hr a s' Hm. specialize (Hr I). unfold wp in Hr. rewrite Hm in Hr. by destruct Hr. Qed.
Lemma match_op_shrinks ops s : shrinks false (_match_op_in ops) s.
Proof.
  apply runs_shrinks. intros _. apply (wp_match_op (λ _, True)); try done; intros; (split; [done|lia]).
Qed.
Lemma keyword_op_shrinks kw s : shrinks false (_match_keyword_op kw) s.
Proof.
  apply runs_shrinks. intros _. apply (wp_keyword_op (λ _, True)); try done; intros; (split; [done|lia]).
Qed.

Lemma accept_false p s s' : accept p s = (Ok false, s') → s' = s.
Proof.
  unfold accept, mbind, M_bind. destruct s as [|t s]; cbn [_peek _advance]; [done|].
  destruct (p t); by intros [=].
Qed.

Section Agree.
Context (n : nat).
Definition agree {A} (m1 m2 : P A) : Prop := ∀ s, (length s <= n)%nat → m1 s = m2 s.

Lemma fold_ops_agree match_op op1 op2 : ∀ f1 f2 e s,
  agree op1 op2 → (∀ s, (length s <= n)%nat → shrinks true op1 s) → (∀ s, shrinks false match_op s) →
  (length s < f1)%nat → (length s < f2)%nat → (length s <= n)%nat →
  fold_ops f1 match_op op1 e s = fold_ops f2 match_op op2 e s.
Proof.
  induction f1 as [|f1 IH]; intros f2 e s Hop Hsh Hm Hf1 Hf2 Hn; [lia|]. destruct f2 as [|f2]; [lia|].
  cbn [fold_ops]. unfold mbind, M_bind. destruct (match_op s) as [[[op|]|] s1] eqn:Hms; [|done..].
  pose proof (Hm s _ _ Hms) as Hl1. cbv iota in Hl1. rewrite <-Hop by lia.
  destruct (op1 s1) as [[e2|] s2] eqn:Ho1; [|done]. pose proof (Hsh s1 ltac:(lia) _ _ Ho1). cbv iota in *.
  apply IH; auto; lia.
Qed.
Lemma left_assoc_agree match_op op1 op2 :
  agree op1 op2 → (∀ s, (length s <= n)%nat → shrinks true op1 s) → (∀ s, shrinks false match_op s) →
  agree (left_assoc match_op op1) (left_assoc match_op op2).
Proof.
  intros Hop Hsh Hm s Hn. unfold left_assoc, mbind, M_bind. rewrite <-Hop by done.
  destruct (op1 s) as [[e|] s1] eqn:Ho1; [|done]. pose proof (Hsh s Hn _ _ Ho1). cbv iota in *.
  unfold gets. apply fold_ops_agree; auto; lia.
Qed.
Lemma prefix_op_agree p op i1 i2 : agree i1 i2 → agree (prefix_op p op i1) (prefix_op p op i2).
Proof.
  intros Hi s. induction s as [|t s IH]; intros Hn; [done|]. cbn [prefix_op].
  destruct (p t); [|by apply Hi]. simpl in Hn. by rewrite IH by lia.
Qed.

Context (sub1 sub2 : P expr) (Hagree : ∀ s, (length s < n)%nat → sub1 s = sub2 s)
  (Hsub : ∀ s, (length s < n)%nat → runs (λ _, True) (λ _, True) true sub1 s).

Lemma primary_agree : agree (_parse_primary_ sub1) (_parse_primary_ sub2).
Proof.
  intros s Hn. destruct s as [|t s]; [done|]. unfold _parse_primary_. unfold mbind, M_bind. cbn [_peek].
  destruct (is_typed_keyword t); [done|]. destruct (is_literal t); [done|].
  destruct (kind_is LPAREN t); [|done]. cbn [_advance]. by rewrite <-Hagree by (simpl in *; lia).
Qed.
Ltac sh H := intros; apply runs_shrinks; eapply H; eauto.
Lemma unary_agree : agree (_parse_unary sub1) (_parse_unary sub2).
Proof. apply prefix_op_agree, primary_agree. Qed.
Lemma multiplicative_agree : agree (_parse_multiplicative sub1) (_parse_multiplicative sub2).
Proof. apply left_assoc_agree; [apply unary_agree|sh unary_runs|apply match_op_shrinks]. Qed.
Lemma additive_agree : agree (_parse_additive sub1) (_parse_additive sub2).
Proof. apply left_assoc_agree; [apply multiplicative_agree|sh multiplicative_runs|apply match_op_shrinks]. Qed.
Lemma additive_shrinks s : (length s <= n)%nat → shrinks true (_parse_additive sub1) s.
Proof. intros Hn. apply runs_shrinks. eapply additive_runs; eauto. Qed.
Lemma comparison_agree : agree (_parse_comparison sub1) (_parse_comparison sub2).
Proof.
  intros s Hn. unfold _parse_comparison, mbind, M_bind. rewrite <-additive_agree by done.
  destruct (_parse_additive sub1 s) as [[e|] s1] eqn:Ha; [|done]. pose proof (additive_shrinks s Hn _ _ Ha).
  destruct (_match_keyword (u "IS") s1) as [[[]|] s2] eqn:Hi; [done| |done].
  apply accept_false in Hi as ->.
  destruct (_match_op_in _COMPARISON_OPS s1) as [[[op|]|] s3] eqn:Ho; [|done..].
  pose proof (match_op_shrinks _ _ _ _ Ho). cbv iota in *. by rewrite <-additive_agree by lia.
Qed.
Lemma not_agree : agree (_parse_not sub1) (_parse_not sub2).
Proof. apply prefix_op_agree, comparison_agree. Qed.
Lemma and_agree : agree (_parse_and sub1) (_parse_and sub2).
Proof. apply left_assoc_agree; [apply not_agree|sh not_runs|apply keyword_op_shrinks]. Qed.
Lemma or_agree : agree (_parse_or sub1) (_parse_or sub2).
Proof. apply left_assoc_agree; [apply and_agree|sh and_runs|apply keyword_op_shrinks]. Qed.
End Agree.

Lemma expr_fuel_agree f1 : ∀ f2 s, (length s < f1)%nat → (length s < f2)%nat → expr_fuel f1 s = expr_fuel f2 s.
Proof.
  induction f1 as [|f1 IH]; intros f2 s H1 H2; [lia|]. destruct f2 as [|f2]; [lia|]. cbn [expr_fuel].
  apply (or_agree (length s)); [|intros; apply expr_fuel_runs; auto; lia|done].
  intros s' Hs'. apply IH; lia.
Qed.
(** The equation the source has for [parse_expr] *)
Lemma parse_expr_unfold s : parse_expr s = _parse_or parse_expr s.
Proof.
  unfold parse_expr at 1. rewrite run_gets. cbn [expr_fuel].
  apply (or_agree (length s)); [|intros; apply expr_fuel_runs; auto; lia|done].
  intros s' Hs'. unfold parse_expr. rewrite run_gets. apply expr_fuel_agree; lia.
Qed.

(** * The parser reads every expression of the grammar *)

(** The tokens with which an expression that ends before them could go on *)
Definition absorbs (l : level) (t : Token) : bool :=
  let dot := kind_is DOT t in
  let mul := dot || is_op _MULTIPLICATIVE_OPS t in
  let add := mul || is_op _ADDITIVE_OPS t in
  let cmp := add || is_kw (u "IS") t || is_op _COMPARISON_OPS t in
  let and_ := cmp || is_kw (u "AND") t in
  match l with
  | LPrimary | LUnary => dot
  | LMultiplicative => mul
  | LAdditive => add
  | LComparison | LNot => cmp
  | LAnd => and_
  | LOr => and_ || is_kw (u "OR") t
  end.
Definition stops (l : level) (rest : list Token) : Prop :=
  match rest with [] => False | t :: _ => absorbs l t = false end.

Definition ops_loop (match_op : P (option pystr)) (operand : P expr) (e : expr) : P expr :=
  λ s, fold_ops (S (length s)) match_op operand e s.
Lemma left_assoc_one match_op operand e s rest :
  operand s = (Ok e, rest) → left_assoc match_op operand s = ops_loop match_op operand e rest.
Proof. intros Ho. unfold left_assoc. by rewrite (run_Ok _ _ _ _ _ Ho). Qed.
Lemma ops_loop_stop match_op operand e rest : match_op rest = (Ok None, rest) → ops_loop match_op operand e rest = (Ok e, rest).
Proof. intros Hm. unfold ops_loop. cbn [fold_ops]. by rewrite (run_Ok _ _ _ _ _ Hm). Qed.
Lemma ops_loop_more match_op operand e1 op e2 o s rest :
  (∀ s, shrinks true operand s) → (∀ s, shrinks false match_op s) →
  match_op (o :: s) = (Ok (Some op), s) → operand s = (Ok e2, rest) →
  ops_loop match_op operand e1 (o :: s) = ops_loop match_op operand (BinaryOp op e1 e2) rest.
Proof.
  intros Hsh Hm Ho He. unfold ops_loop. change (S (length (o :: s))) with (S (S (length s))).
  assert (length rest < S (length rest))%nat as Hf by lia. revert Hf. generalize (S (length rest)) as f2. intros f2 Hf.
  set (fuel := S (length s)). cbn [fold_ops]. rewrite (run_Ok _ _ _ _ _ Ho). cbn beta iota.
  rewrite (run_Ok _ _ _ _ _ He). pose proof (Hsh s _ _ He). cbv iota in *.
  apply (fold_ops_agree (length rest)); auto; [by intros ? _|unfold fuel; lia].
Qed.

Lemma match_op_stop ops t s : is_op ops t = false → _match_op_in ops (t :: s) = (Ok None, t :: s).
Proof. intros Ht. unfold _match_op_in, mbind, M_bind. cbn [_peek]. by rewrite Ht. Qed.
Lemma match_op_go ops op t s :
  sig_of t = op_sig op → op ∈ ops → _match_op_in ops (t :: s) = (Ok (Some op), s).
Proof.
  intros Ht Hin. destruct t as [k v l c]. injection Ht as -> ->. unfold _match_op_in, mbind, M_bind. cbn [_peek].
  unfold is_op, value_in, mem. cbn [tk_value]. by rewrite bool_decide_true.
Qed.
Lemma accept_go p t s : p t = true → accept p (t :: s) = (Ok true, s).
Proof. intros Ht. unfold accept, mbind, M_bind. cbn [_peek]. by rewrite Ht. Qed.
Lemma accept_stop p t s : p t = false → accept p (t :: s) = (Ok false, t :: s).
Proof. intros Ht. unfold accept, mbind, M_bind. cbn [_peek]. by rewrite Ht. Qed.
Lemma expect_go p t s : p t = true → expect p (t :: s) = (Ok t, s).
Proof. intros Ht. unfold expect, mbind, M_bind. cbn [_peek]. by rewrite Ht. Qed.
Lemma kw_sig_go kw t : sig_of t = kw_sig kw → is_kw (u kw) t = true.
Proof.
  destruct t as [k v l c]. intros [= -> ->]. unfold is_kw, value_in, mem. cbn [tk_value].
  rewrite bool_decide_true; [done|]. by apply list_elem_of_singleton.
Qed.
Lemma keyword_op_go kw t s : sig_of t = kw_sig kw → _match_keyword_op (u kw) (t :: s) = (Ok (Some (u kw)), s).
Proof. intros Ht. unfold _match_keyword_op, _match_keyword. by rewrite (run_Ok _ _ _ _ _ (accept_go _ _ _ (kw_sig_go _ _ Ht))). Qed.
Lemma keyword_op_stop kw t s : is_kw kw t = false → _match_keyword_op kw (t :: s) = (Ok None, t :: s).
Proof. intros Ht. unfold _match_keyword_op, _match_keyword. by rewrite (run_Ok _ _ _ _ _ (accept_stop _ _ _ Ht)). Qed.
Lemma kind_go k v t : sig_of t = (k, v) → kind_is k t = true ∧ t.(tk_value) = v.
Proof. destruct t as [k' v' l c]. intros [= -> ->]. split; [by apply bool_decide_eq_true|done]. Qed.
Lemma null_go t : null_sig (sig_of t) → is_null t = true.
Proof.
  unfold is_null, null_sig. destruct t as [k v l c]. cbn. intros [->|[= -> ->]]; [done|]. apply orb_true_iff. right.
  by apply (kw_sig_go "NULL").
Qed.

Abbreviation or_loop := (ops_loop (_match_keyword_op (u "OR")) (_parse_and parse_expr)).
Abbreviation and_loop := (ops_loop (_match_keyword_op (u "AND")) (_parse_not parse_expr)).
Abbreviation additive_loop := (ops_loop (_match_op_in _ADDITIVE_OPS) (_parse_multiplicative parse_expr)).
Abbreviation multiplicative_loop := (ops_loop (_match_op_in _MULTIPLICATIVE_OPS) (_parse_unary parse_expr)).

(** What running a level on the tokens of an expression comes to; the
    left-recursive levels then go on with their loop. *)
Definition reads (l : level) (ts : list sig) (e : expr) : Prop := ∀ used rest, map sig_of used = ts →
  match l with
  | LOr => stops LAnd rest → _parse_or parse_expr (used ++ rest) = or_loop e rest
  | LAnd => stops LNot rest → _parse_and parse_expr (used ++ rest) = and_loop e rest
  | LNot => stops LNot rest → _parse_not parse_expr (used ++ rest) = (Ok e, rest)
  | LComparison => stops LComparison rest → _parse_comparison parse_expr (used ++ rest) = (Ok e, rest)
  | LAdditive => stops LMultiplicative rest → _parse_additive parse_expr (used ++ rest) = additive_loop e rest
  | LMultiplicative => stops LUnary rest → _parse_multiplicative parse_expr (used ++ rest) = multiplicative_loop e rest
  | LUnary => stops LUnary rest → _parse_unary parse_expr (used ++ rest) = (Ok e, rest)
  | LPrimary => stops LPrimary rest → _parse_primary_ parse_expr (used ++ rest) = (Ok e, rest)
  end.

(** The levels are nested. *)
Ltac stop := unfold stops, absorbs in *; repeat match goal with |- context [match ?r with [] => _ | _ => _ end] => is_var r; destruct r end;
  cbv zeta in *; rewrite ?orb_false_iff in *; intuition done.

Lemma or_reads ts e : reads LOr ts e → ∀ used rest, map sig_of used = ts → stops LOr rest →
  _parse_or parse_expr (used ++ rest) = (Ok e, rest).
Proof.
  intros Hr used rest Hu Hs. rewrite (Hr used rest Hu) by stop. destruct rest as [|t rest]; [done|].
  apply ops_loop_stop, keyword_op_stop. stop.
Qed.
Lemma and_reads ts e : reads LAnd ts e → ∀ used rest, map sig_of used = ts → stops LAnd rest →
  _parse_and parse_expr (used ++ rest) = (Ok e, rest).
Proof.
  intros Hr used rest Hu Hs. rewrite (Hr used rest Hu) by stop. destruct rest as [|t rest]; [done|].
  apply ops_loop_stop, keyword_op_stop. stop.
Qed.
Lemma additive_reads ts e : reads LAdditive ts e → ∀ used rest, map sig_of used = ts → stops LAdditive rest →
  _parse_additive parse_expr (used ++ rest) = (Ok e, rest).
Proof.
  intros Hr used rest Hu Hs. rewrite (Hr used rest Hu) by stop. destruct rest as [|t rest]; [done|].
  apply ops_loop_stop, match_op_stop. stop.
Qed.
Lemma multiplicative_reads ts e : reads LMultiplicative ts e → ∀ used rest, map sig_of used = ts →
  stops LMultiplicative rest → _parse_multiplicative parse_expr (used ++ rest) = (Ok e, rest).
Proof.
  intros Hr used rest Hu Hs. rewrite (Hr used rest Hu) by stop. destruct rest as [|t rest]; [done|].
  apply ops_loop_stop, match_op_stop. stop.
Qed.

(** The first token tells the prefix operators apart. *)
Lemma gram_first l ts e : gram l ts e → ∃ s ts', ts = s :: ts' ∧
  match l with
  | LOr | LAnd | LNot => True
  | LPrimary => s ≠ kw_sig "NOT" ∧ s ≠ op_sig (u "-")
  | _ => s ≠ kw_sig "NOT"
  end.
Proof.
  induction 1; destruct_and?;
    repeat match goal with H : ∃ _, _ |- _ => destruct H as (? & ? & -> & ?) end;
    try (by eexists _, _); try (eexists _, _; by intuition).
  - eexists _, _. split; [done|]. split; [|done]. intros [= ->]. done.
  - eexists _, _. split; [done|]. unfold literal_kinds in *. split; intros [= -> ->];
      by rewrite !elem_of_cons, elem_of_nil in *; intuition.
Qed.

Lemma map_app_inv (used : list Token) l1 l2 : map sig_of used = l1 ++ l2 →
  ∃ u1 u2, used = u1 ++ u2 ∧ map sig_of u1 = l1 ∧ map sig_of u2 = l2.
Proof. intros Hu%map_eq_app. naive_solver. Qed.
Lemma map_cons_inv (used : list Token) x l : map sig_of used = x :: l →
  ∃ t used', used = t :: used' ∧ sig_of t = x ∧ map sig_of used' = l.
Proof. intros Hu%map_eq_cons. naive_solver. Qed.
Ltac tokens :=
  repeat match goal with
  | H : map sig_of ?x = _ ++ _ |- _ => is_var x; apply map_app_inv in H as (? & ? & -> & ? & ?)
  | H : map sig_of ?x = _ :: _ |- _ => is_var x; apply map_cons_inv in H as (? & ? & -> & ? & ?)
  | H : map sig_of ?x = [] |- _ => is_var x; apply map_eq_nil in H as ->
  end.

Lemma runs_any {A} strict (m : P A) s :
  (∀ Inv E (Hn : Inv [] → E IndexError) (Ht : ∀ t s, Inv (t :: s) → t.(tk_kind) ≠ EOF → Inv s)
     (Hp : ∀ t s, Inv (t :: s) → E (ParseError t.(tk_line) t.(tk_col))) (Hm : ∀ n, E (NodeParseError n))
     (He : ∀ e, escapes e → E e), runs Inv E strict m s) → shrinks strict m s.
Proof. intros Hr. by apply runs_shrinks, Hr. Qed.
Lemma operand_shrinks s :
  shrinks true (_parse_unary parse_expr) s ∧ shrinks true (_parse_multiplicative parse_expr) s ∧
  shrinks true (_parse_not parse_expr) s ∧ shrinks true (_parse_and parse_expr) s.
Proof.
  repeat split; apply runs_any; intros;
    [eapply unary_runs|eapply multiplicative_runs|eapply not_runs|eapply and_runs]; eauto using parse_expr_runs.
Qed.
(** An operator stops what is tighter than it. *)
Lemma op_stops l op t rest :
  sig_of t = op_sig op → op ∈ (match l with LMultiplicative => _ADDITIVE_OPS | LAdditive => _COMPARISON_OPS
                               | LUnary => _MULTIPLICATIVE_OPS | _ => [] end) → stops l (t :: rest).
Proof.
  destruct t as [k v li c]. intros [= -> ->] Hop.
  destruct l; try (by apply not_elem_of_nil in Hop);
  cbn in Hop; rewrite !elem_of_cons, elem_of_nil in Hop; destruct_or? Hop; subst; done.
Qed.
Lemma kw_stops l kw t rest :
  sig_of t = kw_sig kw → kw = match l with LAnd => "OR" | LNot => "AND" | _ => "IS" end%string →
  l ∈ [LAnd; LNot; LAdditive] → stops l (t :: rest).
Proof.
  destruct t as [k v li c]. intros [= -> ->] -> Hl. rewrite !elem_of_cons, elem_of_nil in Hl.
  destruct_or? Hl; subst; done.
Qed.

Lemma prefix_op_go p op inner t s e rest :
  p t = true → prefix_op p op inner s = (Ok e, rest) → prefix_op p op inner (t :: s) = (Ok (UnaryOp op e), rest).
Proof. intros Ht Hs. cbn [prefix_op]. by rewrite Ht, Hs. Qed.
Lemma prefix_op_skip p op inner t s : p t = false → prefix_op p op inner (t :: s) = inner (t :: s).
Proof. intros Ht. cbn [prefix_op]. by rewrite Ht. Qed.
Lemma not_kw kw t : sig_of t ≠ kw_sig kw → is_kw (u kw) t = false.
Proof. intros Ht. destruct (is_kw (u kw) t) eqn:Hk; [|done]. by apply kw_sig_inv in Hk. Qed.
Lemma not_op op t : sig_of t ≠ op_sig op → is_op [op] t = false.
Proof.
  intros Ht. destruct (is_op [op] t) eqn:Hk; [|done]. apply op_sig_inv in Hk as [Hk Hin].
  apply list_elem_of_singleton in Hin. by rewrite Hin in Hk.
Qed.
Lemma value_in_go l s t : t.(tk_value) = PyStr s → s ∈ l → value_in l t = true.
Proof. intros Hv Hs. unfold value_in, mem. rewrite Hv. by apply bool_decide_eq_true. Qed.
Lemma assoc_key {V} (k : pystr) (l : list (pystr * V)) v : assoc k l = Some v → k ∈ map fst l.
Proof.
  induction l as [|[k' v'] l IH]; [done|]. cbn. case_decide; [intros; subst; left|]. intros. right. auto.
Qed.

Ltac sigs := repeat match goal with H : sig_of (mkToken _ _ _ _) = _ |- _ => injection H as ? ?; subst end.

(** One lemma per kind of primary expression *)
Lemma typed_reads kw tag p text v : assoc kw _TYPED_LITERAL_PARSERS = Some (tag, p) → p (val_str text) = Ok v →
  reads LPrimary [(KEYWORD, PyStr kw); (STRING_LIT, text)] (TypedLiteral tag v).
Proof.
  intros Hp Hv used rest Hu _. tokens. destruct x as [k1 v1 l1 c1], x1 as [k2 v2 l2 c2]. sigs.
  unfold _parse_primary_, mbind, M_bind. cbn [_peek app].
  assert (is_typed_keyword (mkToken KEYWORD (PyStr kw) l1 c1) = true) as ->.
  { unfold is_typed_keyword. apply andb_true_iff. split; [done|]. eapply value_in_go; [done|]. by eapply assoc_key. }
  unfold _parse_typed_literal, mbind, M_bind. cbn [_advance]. unfold tok_str at 1. cbn [tk_value].
  rewrite Hp. unfold lift, of_option. cbn. unfold tok_str. cbn [tk_value]. unfold val_str in Hv. by rewrite Hv.
Qed.
Lemma literal_reads k v : k ∈ literal_kinds →
  reads LPrimary [(k, v)] (Literal (if bool_decide (k = NULL_LIT) then PyNone else v)).
Proof.
  intros Hk used rest Hu _. tokens. destruct x as [k1 v1 l1 c1]. sigs.
  unfold literal_kinds in Hk. rewrite !elem_of_cons, elem_of_nil in Hk.
  destruct_or? Hk; subst; try done; reflexivity.
Qed.
Lemma paren_reads l ts e r : reads LOr ts e → reads LPrimary ((LPAREN, l) :: ts ++ [(RPAREN, r)]) e.
Proof.
  intros Hr used rest Hu _. tokens. destruct x as [k1 v1 l1 c1], x0 as [k2 v2 l2 c2]. sigs.
  cbn [app]. rewrite <-app_assoc. cbn [app]. unfold _parse_primary_. unfold mbind at 1, M_bind at 1. cbn [_peek app].
  change (is_typed_keyword (mkToken LPAREN l l1 c1)) with false. change (is_literal (mkToken LPAREN l l1 c1)) with false.
  change (kind_is LPAREN (mkToken LPAREN l l1 c1)) with true. cbv iota.
  unfold mbind at 1, M_bind at 1. cbn [_advance].
  rewrite (run_Ok _ _ _ e (mkToken RPAREN r l2 c2 :: rest)); [reflexivity|]. rewrite parse_expr_unfold.
  by apply (or_reads _ _ Hr _ ([mkToken RPAREN r l2 c2] ++ rest)).
Qed.
Lemma column_reads c : reads LPrimary [(IDENT, c)] (ColumnRef (val_str c) None).
Proof.
  intros used [|t rest] Hu Hs; [done|]. tokens. destruct x as [k1 v1 l1 c1]. sigs.
  change ((dot ← accept (kind_is DOT);
    if dot : bool then
      col_tok ← expect (kind_is IDENT); mret (ColumnRef (tok_str col_tok) (Some (val_str c)))
    else mret (ColumnRef (val_str c) None)) (t :: rest) = (Ok (ColumnRef (val_str c) None), t :: rest)).
  by rewrite (run_Ok _ _ _ _ _ (accept_stop _ _ _ Hs)).
Qed.
Lemma qualified_reads t d c :
  reads LPrimary [(IDENT, t); (DOT, d); (IDENT, c)] (ColumnRef (val_str c) (Some (val_str t))).
Proof.
  intros used rest Hu _. tokens. destruct x as [k1 v1 l1 c1], x1 as [k2 v2 l2 c2], x0 as [k3 v3 l3 c3]. by sigs.
Qed.

(** The three forms of a comparison *)
Lemma comparison_stop ts e used rest :
  reads LAdditive ts e → map sig_of used = ts → stops LComparison rest →
  _parse_comparison parse_expr (used ++ rest) = (Ok e, rest).
Proof.
  intros Hr Hu Hs. unfold _parse_comparison.
  rewrite (run_Ok _ _ _ _ _ (additive_reads _ _ Hr used rest Hu ltac:(stop))).
  destruct rest as [|t rest]; [done|]. assert (is_kw (u "IS") t = false ∧ is_op _COMPARISON_OPS t = false) as [Hi Ho] by stop.
  unfold _match_keyword. rewrite (run_Ok _ _ _ _ _ (accept_stop _ t rest Hi)). cbv iota.
  by rewrite (run_Ok _ _ _ _ _ (match_op_stop _ _ _ Ho)).
Qed.
Lemma comparison_is ts e used i null rest :
  reads LAdditive ts e → map sig_of used = ts → sig_of i = kw_sig "IS" → null_sig (sig_of null) →
  _parse_comparison parse_expr (used ++ i :: null :: rest) = (Ok (UnaryOp (u "IS NULL") e), rest).
Proof.
  intros Hr Hu Hi Hn. unfold _parse_comparison.
  rewrite (run_Ok _ _ _ _ _ (additive_reads _ _ Hr used (i :: null :: rest) Hu ltac:(eapply kw_stops; [exact Hi|done|set_solver]))).
  unfold _match_keyword, _match_null. rewrite (run_Ok _ _ _ _ _ (accept_go _ i (null :: rest) (kw_sig_go _ _ Hi))). cbv iota.
  assert (is_kw (u "NOT") null = false) as Hnn.
  { apply not_kw. destruct Hn as [Hn|Hn]; [|by rewrite Hn]. by intros [= ? _]; cbn in Hn; congruence. }
  rewrite (run_Ok _ _ _ _ _ (accept_stop _ null rest Hnn)).
  by rewrite (run_Ok _ _ _ _ _ (accept_go _ null rest (null_go _ Hn))).
Qed.
Lemma comparison_is_not ts e used i n null rest :
  reads LAdditive ts e → map sig_of used = ts → sig_of i = kw_sig "IS" → sig_of n = kw_sig "NOT" → null_sig (sig_of null) →
  _parse_comparison parse_expr (used ++ i :: n :: null :: rest) = (Ok (UnaryOp (u "IS NOT NULL") e), rest).
Proof.
  intros Hr Hu Hi Hn Hl. unfold _parse_comparison.
  rewrite (run_Ok _ _ _ _ _ (additive_reads _ _ Hr used (i :: n :: null :: rest) Hu ltac:(eapply kw_stops; [exact Hi|done|set_solver]))).
  unfold _match_keyword, _match_null. rewrite (run_Ok _ _ _ _ _ (accept_go _ i (n :: null :: rest) (kw_sig_go _ _ Hi))). cbv iota.
  rewrite (run_Ok _ _ _ _ _ (accept_go _ n (null :: rest) (kw_sig_go _ _ Hn))).
  by rewrite (run_Ok _ _ _ _ _ (accept_go _ null rest (null_go _ Hl))).
Qed.
Lemma comparison_op ts1 e1 used1 op o ts2 e2 used2 rest :
  reads LAdditive ts1 e1 → map sig_of used1 = ts1 → sig_of o = op_sig op → op ∈ _COMPARISON_OPS →
  reads LAdditive ts2 e2 → map sig_of used2 = ts2 → stops LComparison rest →
  _parse_comparison parse_expr (used1 ++ o :: used2 ++ rest) = (Ok (BinaryOp op e1 e2), rest).
Proof.
  intros Hr1 Hu1 Ho Hop Hr2 Hu2 Hs. unfold _parse_comparison.
  rewrite (run_Ok _ _ _ _ _ (additive_reads _ _ Hr1 used1 (o :: used2 ++ rest) Hu1 ltac:(by eapply op_stops))).
  assert (is_kw (u "IS") o = false) as Hi by (apply not_kw; rewrite Ho; done).
  unfold _match_keyword. rewrite (run_Ok _ _ _ _ _ (accept_stop _ o _ Hi)). cbv iota.
  rewrite (run_Ok _ _ _ _ _ (match_op_go _ _ _ _ Ho Hop)). cbv iota.
  by rewrite (run_Ok _ _ _ _ _ (additive_reads _ _ Hr2 used2 rest Hu2 ltac:(stop))).
Qed.

Lemma gram_reads l ts e : gram l ts e → reads l ts e.
Proof.
  induction 1.
  17: by eapply typed_reads. 17: by apply literal_reads. 17: by apply paren_reads.
  17: apply column_reads. 17: apply qualified_reads.
  all: intros used rest Hu; cbn beta iota; intros Hstop; tokens; subst.
  - apply left_assoc_one. by eapply and_reads.
  - rewrite <-app_assoc. cbn [app]. rewrite (IHgram1 _ _ eq_refl) by (by eapply kw_stops; [eassumption|done|set_solver]).
    apply ops_loop_more; [apply operand_shrinks|apply keyword_op_shrinks|by apply keyword_op_go|].
    by eapply and_reads.
  - apply left_assoc_one. by apply (IHgram _ _ eq_refl).
  - rewrite <-app_assoc. cbn [app]. rewrite (IHgram1 _ _ eq_refl) by (by eapply kw_stops; [eassumption|done|set_solver]).
    apply ops_loop_more; [apply operand_shrinks|apply keyword_op_shrinks|by apply keyword_op_go|].
    by apply (IHgram2 _ _ eq_refl).
  - destruct (gram_first _ _ _ H1) as (s & ts' & Hts & Hs). destruct used as [|t used]; [done|].
    injection Hts as <- _. cbn [app]. unfold _parse_not. rewrite prefix_op_skip by (by apply not_kw).
    by apply (IHgram (t :: used) _ eq_refl).
  - cbn [app]. unfold _parse_not. apply prefix_op_go; [by apply kw_sig_go|]. by apply (IHgram _ _ eq_refl).
  - by eapply comparison_stop.
  - rewrite <-app_assoc. cbn [app]. by eapply comparison_is.
  - rewrite <-app_assoc. cbn [app]. by eapply comparison_is_not.
  - rewrite <-app_assoc. cbn [app]. by eapply comparison_op.
  - apply left_assoc_one. by eapply multiplicative_reads.
  - rewrite <-app_assoc. cbn [app]. rewrite (IHgram1 _ _ eq_refl) by (by eapply op_stops).
    apply ops_loop_more; [apply operand_shrinks|apply match_op_shrinks|by apply match_op_go|].
    by eapply multiplicative_reads.
  - apply left_assoc_one. by apply (IHgram _ _ eq_refl).
  - rewrite <-app_assoc. cbn [app]. rewrite (IHgram1 _ _ eq_refl) by (by eapply op_stops).
    apply ops_loop_more; [apply operand_shrinks|apply match_op_shrinks|by apply match_op_go|].
    by apply (IHgram2 _ _ eq_refl).
  - destruct (gram_first _ _ _ H1) as (s & ts' & Hts & Hs). destruct used as [|t used]; [done|].
    injection Hts as <- _. cbn [app]. unfold _parse_unary. rewrite prefix_op_skip by (apply not_op; tauto).
    by apply (IHgram (t :: used) _ eq_refl).
  - cbn [app]. unfold _parse_unary. apply prefix_op_go; [|by apply (IHgram _ _ eq_refl)].
    destruct x. by sigs.
Qed.

Lemma parse_expr_reads used rest e :
  gram LOr (map sig_of used) e → stops LOr rest → parse_expr (used ++ rest) = (Ok e, rest).
Proof. intros Hg Hs. rewrite parse_expr_unfold. by eapply or_reads; [apply gram_reads|..]. Qed.
Lemma parse_primary_reads used rest e :
  gram LPrimary (map sig_of used) e → stops LPrimary rest → _parse_primary (used ++ rest) = (Ok e, rest).
Proof. intros Hg Hs. by apply (gram_reads _ _ _ Hg used rest eq_refl). Qed.

End Grammar.

(** [a OR 1 + 2 * -b < 3] *)
Definition demo_expr_tokens : list Token := map (λ s, mkToken s.1 s.2 0 0)
  [ (IDENT, PyStr (u "a")); kw_sig "OR"; (INT_LIT, PyInt 1); op_sig (u "+"); (INT_LIT, PyInt 2); op_sig (u "*");
    op_sig (u "-"); (IDENT, PyStr (u "b")); op_sig (u "<"); (INT_LIT, PyInt 3) ].
Definition demo_expr : expr :=
  BinaryOp (u "OR") (ColumnRef (u "a") None)
    (BinaryOp (u "<")
       (BinaryOp (u "+") (Literal (PyInt 1))
          (BinaryOp (u "*") (Literal (PyInt 2)) (UnaryOp (u "-") (ColumnRef (u "b") None))))
       (Literal (PyInt 3))).
