(* ===== verification/Printer.v ===== *)
(** A printer of SQL statements, the inverse of [sql/parser.py]: what it prints
    is text that the tokenizer and the parser read back. *)
From S2P Require Import Prelude.
From S2P Require Import Bytes.
From S2P Require Import Utf8.
From S2P Require Import Text.
From S2P Require Import TypeSys.
From S2P Require Import Codec.
From S2P Require Import Tokens.
From S2P Require Import Ast.
From S2P Require Import Parser.
From S2P Require Import Grammar.
From Stdlib Require Import ZArith Lia.
Local Open Scope Z_scope.

(** * Printing to tokens *)

Definition ident (s : pystr) : sig := (IDENT, PyStr s).
Definition lpar : sig := (LPAREN, PyStr (u "(")).
Definition rpar : sig := (RPAREN, PyStr (u ")")).
Definition comma : sig := (COMMA, PyStr (u ",")).
Definition dot : sig := (DOT, PyStr (u ".")).
Definition star : sig := op_sig (u "*").
Definition null_lit : sig := (NULL_LIT, PyNone).

Definition print_value (v : pyval) : sig :=
  match v with
  | PyNone => null_lit
  | PyBool _ => (BOOL_LIT, v)
  | PyInt _ => (INT_LIT, v)
  | _ => (STRING_LIT, v)
  end.
Definition is_atom (e : expr) : bool :=
  match e with Literal _ | ColumnRef _ _ => true | _ => false end.
Definition bracket (atom : bool) (ts : list sig) : list sig := if atom then ts else lpar :: ts ++ [rpar].

Fixpoint print_expr (e : expr) : list sig :=
  match e with
  | Literal v => [print_value v]
  | ColumnRef n None => [ident n]
  | ColumnRef n (Some t) => [ident t; dot; ident n]
  | BinaryOp op l r =>
      bracket (is_atom l) (print_expr l) ++
      (if mem op [u "AND"; u "OR"] then KEYWORD else OP, PyStr op) :: bracket (is_atom r) (print_expr r)
  | UnaryOp op x =>
      let ts := bracket (is_atom x) (print_expr x) in
      if bool_decide (op = u "IS NULL") then ts ++ [kw_sig "IS"; null_lit]
      else if bool_decide (op = u "IS NOT NULL") then ts ++ [kw_sig "IS"; kw_sig "NOT"; null_lit]
      else (if bool_decide (op = u "NOT") then KEYWORD else OP, PyStr op) :: ts
  | TypedLiteral _ _ => []
  end.

(** Comma-separated *)
Fixpoint sep (xs : list (list sig)) : list sig :=
  match xs with [] => [] | [x] => x | x :: xs => x ++ comma :: sep xs end.
Definition opt (b : bool) (ts : list sig) : list sig := if b then ts else [].

Definition print_type (t : TypeTag) : string :=
  match t with
  | Int => "INT" | Float => "FLOAT" | Text => "TEXT" | Bool => "BOOL" | Date => "DATE" | Time => "TIME"
  | Datetime => "DATETIME" | Decimal => "DECIMAL" | Blob => "BLOB" | _ => "JSON"
  end.
Definition print_column (c : Column) : list sig :=
  ident c.(col_name) :: kw_sig (print_type c.(col_tag)) ::
  opt c.(col_not_null) [kw_sig "NOT"; null_lit] ++
  opt c.(col_primary_key) [kw_sig "PRIMARY"; kw_sig "KEY"] ++
  opt c.(col_unique) [kw_sig "UNIQUE"].

Definition print_names (ns : list pystr) : list sig := sep (map (λ n, [ident n]) ns).
Definition print_row (vs : list pyval) : list sig := lpar :: sep (map (λ v, [print_value v]) vs) ++ [rpar].
Definition print_item (i : select_item) : list sig :=
  match i with
  | Star => [star]
  | Aggregate f c => [(KEYWORD, PyStr f); lpar; if bool_decide (c = u "*") then star else ident c; rpar]
  | Item e => print_expr e
  end.
Fixpoint print_from (f : TableRef) : list sig :=
  match f with
  | Table n a => ident n :: match a with Some a => [ident a] | None => [] end
  | Join l r k on us _ =>
      print_from l ++ match k with INNER => [kw_sig "JOIN"] | LEFT => [kw_sig "LEFT"; kw_sig "JOIN"] end ++
      print_from r ++
      match on with
      | Some e => kw_sig "ON" :: print_expr e
      | None => kw_sig "USING" :: lpar :: print_names us ++ [rpar]
      end
  end.
Definition print_order (o : OrderBy) : list sig := ident o.(ob_column) :: opt o.(ob_descending) [kw_sig "DESC"].
Definition print_where (w : option expr) : list sig :=
  match w with Some e => kw_sig "WHERE" :: print_expr e | None => [] end.
Definition print_opt_value (k : string) (v : option pyval) (more : list sig) : list sig :=
  match v with Some v => kw_sig k :: print_value v :: more | None => [] end.
Definition print_assignment (a : Assignment) : list sig :=
  ident a.(as_column) :: op_sig (u "=") :: print_expr a.(as_value).

Definition print_select (s : SelectStmt) : list sig :=
  kw_sig "SELECT" :: sep (map print_item s.(sel_columns)) ++
  kw_sig "FROM" :: print_from s.(sel_from) ++
  print_where s.(sel_where) ++
  match s.(sel_group_by) with [] => [] | g => kw_sig "GROUP" :: kw_sig "BY" :: print_names g end ++
  match s.(sel_order_by) with [] => [] | o => kw_sig "ORDER" :: kw_sig "BY" :: sep (map print_order o) end ++
  print_opt_value "LIMIT" s.(sel_limit) (print_opt_value "OFFSET" s.(sel_offset) []).

Definition print_statement (st : Statement) : list sig :=
  match st with
  | CreateTable n cs => kw_sig "CREATE" :: kw_sig "TABLE" :: ident n :: lpar :: sep (map print_column cs) ++ [rpar]
  | DropTable n e => kw_sig "DROP" :: kw_sig "TABLE" :: opt e [kw_sig "IF"; kw_sig "EXISTS"] ++ [ident n]
  | CreateIndex n t cs un =>
      kw_sig "CREATE" :: opt un [kw_sig "UNIQUE"] ++
      [kw_sig "INDEX"; ident n; kw_sig "ON"; ident t; lpar] ++ print_names cs ++ [rpar]
  | Insert t cs rows =>
      kw_sig "INSERT" :: kw_sig "INTO" :: ident t ::
      match cs with Some cs => lpar :: print_names cs ++ [rpar] | None => [] end ++
      kw_sig "VALUES" :: sep (map print_row rows)
  | Select s => print_select s
  | Update t sets w => kw_sig "UPDATE" :: ident t :: kw_sig "SET" :: sep (map print_assignment sets) ++ print_where w
  | Delete t w => kw_sig "DELETE" :: kw_sig "FROM" :: ident t :: print_where w
  end.

(** The text: the tokens with spaces between *)
Definition token_of (s : sig) : Token := mkToken s.1 s.2 0 0.
Definition print (st : Statement) : pystr := render (map token_of (print_statement st)).

(** * The statements that can be printed *)

Section Printable.
Context `{UniLib}.

Definition ok_name (s : pystr) : bool := wordlike s && negb (mem (upper s) KEYWORDS).
Definition ok_value (v : pyval) : bool :=
  match v with
  | PyNone | PyBool _ | PyStr _ => true
  | PyInt z => (0 <=? z) && (zlen (digits z) <=? 4300)
  | _ => false
  end.
Definition binary_ops : list pystr :=
  [u "AND"; u "OR"] ++ _COMPARISON_OPS ++ _ADDITIVE_OPS ++ _MULTIPLICATIVE_OPS.
Definition unary_ops : list pystr := map u ["NOT"; "-"; "IS NULL"; "IS NOT NULL"]%string.
Fixpoint ok_expr (e : expr) : bool :=
  match e with
  | Literal v => ok_value v
  | ColumnRef n t => ok_name n && match t with Some t => ok_name t | None => true end
  | BinaryOp op l r => mem op binary_ops && ok_expr l && ok_expr r
  | UnaryOp op x => mem op unary_ops && ok_expr x
  | TypedLiteral _ _ => false
  end.
Definition nonempty {A} (l : list A) : bool := match l with [] => false | _ => true end.
Definition ok_names (ns : list pystr) : bool := nonempty ns && forallb ok_name ns.
Definition ok_column (c : Column) : bool := ok_name c.(col_name) && negb (bool_decide (c.(col_tag) = Null)).
Definition ok_item (i : select_item) : bool :=
  match i with
  | Star => false
  | Aggregate f c => mem f _AGGREGATE_FUNCS && (bool_decide (c = u "*") || ok_name c)
  | Item e => ok_expr e
  end.
Definition ok_items (is_ : list select_item) : bool :=
  match is_ with [Star] => true | _ => nonempty is_ && forallb ok_item is_ end.
(** Joins lean to the left, at most five. *)
Fixpoint ok_from (depth : nat) (f : TableRef) : bool :=
  match f with
  | Table n a => ok_name n && match a with Some a => ok_name a | None => true end
  | Join l r k on us nr =>
      match depth with
      | O => false
      | S depth =>
          ok_from depth l && match r with Table _ _ => ok_from 0 r | _ => false end &&
          Bool.eqb nr (bool_decide (k = LEFT)) &&
          match on with Some e => ok_expr e && negb (nonempty us) | None => ok_names us end
      end
  end.
Definition ok_where (w : option expr) : bool := match w with Some e => ok_expr e | None => true end.
Definition ok_count (v : option pyval) : bool :=
  match v with Some (PyInt z) => ok_value (PyInt z) | Some _ => false | None => true end.
Definition ok_select (s : SelectStmt) : bool :=
  ok_items s.(sel_columns) && ok_from 5 s.(sel_from) && ok_where s.(sel_where) &&
  forallb ok_name s.(sel_group_by) && forallb (λ o, ok_name o.(ob_column)) s.(sel_order_by) &&
  ok_count s.(sel_limit) && ok_count s.(sel_offset) &&
  match s.(sel_limit), s.(sel_offset) with None, Some _ => false | _, _ => true end.
Definition ok_statement (st : Statement) : bool :=
  match st with
  | CreateTable n cs => ok_name n && nonempty cs && forallb ok_column cs
  | DropTable n _ => ok_name n
  | CreateIndex n t cs _ => ok_name n && ok_name t && match cs with [c] => ok_name c | _ => false end
  | Insert t cs rows =>
      ok_name t && match cs with Some cs => ok_names cs | None => true end &&
      nonempty rows && forallb (λ r, nonempty r && forallb ok_value r) rows
  | Select s => ok_select s
  | Update t sets w =>
      ok_name t && nonempty sets && forallb (λ a, ok_name a.(as_column) && ok_expr a.(as_value)) sets && ok_where w
  | Delete t w => ok_name t && ok_where w
  end.
End Printable.

(** * Reading printed tokens back *)

Section Prints.
Context `{IsoLib} `{JsonLib}.

(** [m] reads the tokens [ts], before any token that satisfies [F], as [a]. *)
Definition prints {A} (F : sig → bool) (m : P A) (ts : list sig) (a : A) : Prop :=
  ∀ used t rest, map sig_of used = ts → F (sig_of t) = true → m (used ++ t :: rest) = (Ok a, t :: rest).
(** What comes first in [ts], or after it, satisfies [F]. *)
Definition starts (F : sig → bool) (ts : list sig) (G : sig → bool) : Prop :=
  match ts with x :: _ => F x = true | [] => ∀ x, G x = true → F x = true end.

Lemma prints_ret {A} F (a : A) : prints F (mret a) [] a.
Proof. intros used t rest Hu _. by apply map_eq_nil in Hu as ->. Qed.
Lemma prints_bind {A B} F G (m : P A) (f : A → P B) ts1 ts2 a b :
  prints F m ts1 a → prints G (f a) ts2 b → starts F ts2 G → prints G (m ≫= f) (ts1 ++ ts2) b.
Proof.
  intros Hm Hf Hs used t rest Hu Ht. apply map_app_inv in Hu as (u1 & u2 & -> & Hu1 & Hu2).
  rewrite <-app_assoc. destruct u2 as [|t2 u2].
  - cbn [map] in Hu2. subst ts2. cbn [app]. rewrite (run_Ok _ _ _ _ _ (Hm u1 t rest Hu1 (Hs _ Ht))).
    by apply (Hf []).
  - cbn [app]. cbn [map] in Hu2. rewrite <-Hu2 in Hs.
    rewrite (run_Ok _ _ _ _ _ (Hm u1 t2 (u2 ++ t :: rest) Hu1 Hs)). by apply (Hf (t2 :: u2)).
Qed.
Lemma prints_weaken {A} F G (m : P A) ts a : prints F m ts a → (∀ x, G x = true → F x = true) → prints G m ts a.
Proof. intros Hm HG used t rest Hu Ht. apply Hm; auto. Qed.

(** One token consumed whatever follows; [any] *)
Definition any : sig → bool := λ _, true.
Lemma token_of_sig t : ∃ l c, t = mkToken (sig_of t).1 (sig_of t).2 l c.
Proof. destruct t as [k v l c]. by exists l, c. Qed.
Lemma prints_expect {A} p x (f : Token → P A) F ts a :
  p (token_of x) = true → (∀ l c, p (mkToken x.1 x.2 l c) = p (token_of x)) →
  (∀ l c, prints F (f (mkToken x.1 x.2 l c)) ts a) → prints F (expect p ≫= f) (x :: ts) a.
Proof.
  intros Hp Hpos Hf used t rest Hu Ht. apply map_cons_inv in Hu as (y & u & -> & Hy & Hu). cbn [app].
  destruct (token_of_sig y) as (l & c & Hty). rewrite Hy in Hty. subst y.
  rewrite (run_Ok _ _ _ _ _ (expect_go p _ _ (eq_trans (Hpos l c) Hp))). by apply Hf.
Qed.
Lemma prints_accept {A} p x (f : bool → P A) F ts a :
  p (token_of x) = true → (∀ l c, p (mkToken x.1 x.2 l c) = p (token_of x)) →
  prints F (f true) ts a → prints F (accept p ≫= f) (x :: ts) a.
Proof.
  intros Hp Hpos Hf used t rest Hu Ht. apply map_cons_inv in Hu as (y & u & -> & Hy & Hu). cbn [app].
  destruct (token_of_sig y) as (l & c & Hty). rewrite Hy in Hty. subst y.
  rewrite (run_Ok _ _ _ _ _ (accept_go p _ _ (eq_trans (Hpos l c) Hp))). by apply Hf.
Qed.
Lemma prints_reject {A} p (f : bool → P A) F ts a :
  starts (λ x, negb (p (token_of x))) ts F → (∀ t, p t = p (token_of (sig_of t))) →
  prints F (f false) ts a → prints F (accept p ≫= f) ts a.
Proof.
  intros Hs Hpos Hf used t rest Hu Ht. destruct used as [|y used]; cbn [app map] in *; subst ts.
  - assert (p t = false) as Hp by (apply negb_true_iff; rewrite Hpos; by apply Hs).
    rewrite (run_Ok _ _ _ _ _ (accept_stop p t rest Hp)). by apply (Hf []).
  - assert (p y = false) as Hp by (apply negb_true_iff; rewrite Hpos; exact Hs).
    rewrite (run_Ok _ _ _ _ _ (accept_stop p y _ Hp)). by apply (Hf (y :: used)).
Qed.
Lemma prints_peek {A} (f : Token → P A) F x ts a :
  (∀ l c, prints F (f (mkToken x.1 x.2 l c)) (x :: ts) a) → prints F (_peek ≫= f) (x :: ts) a.
Proof.
  intros Hf used t rest Hu Ht. apply map_cons_inv in Hu as (y & u & -> & Hy & Hu).
  destruct (token_of_sig y) as (l & c & Hty). rewrite Hy in Hty. subst y. apply (Hf l c); [|done].
  cbn [map]. destruct x. by rewrite Hu.
Qed.

(** ** Comma-separated lists *)

Lemma sep_cons x xs : sep (x :: xs) = x ++ concat (map (λ y, comma :: y) xs).
Proof.
  revert x. induction xs as [|y xs IH]; intros x; [by rewrite app_nil_r|].
  change (sep (x :: y :: xs)) with (x ++ comma :: sep (y :: xs)). by rewrite IH.
Qed.
Definition not_comma (x : sig) : bool := negb (bool_decide (x.1 = COMMA)).
Definition before_comma (F : sig → bool) : sig → bool := λ x, not_comma x && F x.

Lemma comma_more_prints {A B} F (item : P A) (f : B → list sig) (g : B → A) xs : ∀ fuel,
  Forall (λ x, prints F item (f x) (g x)) xs → F comma = true → (length xs < fuel)%nat →
  prints (before_comma F) (comma_more fuel item) (concat (map (λ x, comma :: f x) xs)) (map g xs).
Proof.
  induction xs as [|x xs IH]; intros fuel Hxs Hc Hf; (destruct fuel as [|fuel]; [simpl in Hf; lia|]);
    cbn [comma_more map concat].
  - apply prints_reject; [|by intros []|apply prints_ret]. intros [k v] [Hk _]%andb_prop. exact Hk.
  - apply Forall_cons in Hxs as [Hx Hxs]. cbn [app]. apply prints_accept; [done|done|].
    eapply (prints_bind F); [exact Hx| |].
    + rewrite <-(app_nil_r (concat _)). eapply prints_bind; [apply IH; [done|done|simpl in Hf; lia]|apply prints_ret|].
      by intros ?.
    + destruct xs as [|y xs]; [|exact Hc]. by intros y [_ Hy]%andb_prop.
Qed.
Lemma comma_list_prints {A B} F (item : P A) (f : B → list sig) (g : B → A) xs :
  nonempty xs = true → Forall (λ x, prints F item (f x) (g x)) xs → F comma = true →
  prints (before_comma F) (comma_list item) (sep (map f xs)) (map g xs).
Proof.
  intros Hne Hxs Hc. destruct xs as [|x xs]; [done|]. cbn [map]. rewrite sep_cons, map_map.
  apply Forall_cons in Hxs as [Hx Hxs]. eapply prints_bind; [exact Hx| |].
  - intros used t rest Hu Ht. rewrite run_gets.
    assert (length xs <= length used)%nat as Hl.
    { rewrite <-(length_map sig_of), Hu. clear. induction xs as [|x xs IH]; [done|]. cbn. rewrite length_app. lia. }
    rewrite (run_Ok _ _ _ _ _ (comma_more_prints F item f g xs (S (length (used ++ t :: rest))) Hxs Hc ltac:(rewrite length_app; lia) _ _ _ Hu Ht)).
    done.
  - destruct xs as [|y xs]; [|exact Hc]. by intros y [_ Hy]%andb_prop.
Qed.
Lemma comma_list_same {A} F (item : P A) (f : A → list sig) xs :
  nonempty xs = true → (∀ x, x ∈ xs → prints F item (f x) x) → F comma = true →
  prints (before_comma F) (comma_list item) (sep (map f xs)) xs.
Proof.
  intros Hne Hxs Hc. pose proof (comma_list_prints F item f (λ x, x) xs Hne) as Hp. rewrite map_id in Hp.
  apply Hp; [by apply Forall_forall|done].
Qed.

(** ** Expressions *)

Lemma gram_one l ts e : gram l ts e →
  match l with
  | LOr => True | LAnd => gram LOr ts e | LNot => gram LAnd ts e | LComparison => gram LNot ts e
  | LAdditive => gram LComparison ts e | LMultiplicative => gram LAdditive ts e
  | LUnary => gram LMultiplicative ts e | LPrimary => gram LUnary ts e
  end.
Proof. destruct l; by constructor. Qed.
Lemma gram_up l ts e : gram l ts e → gram LOr ts e.
Proof. intros Hg. destruct l; try exact Hg; repeat (apply gram_one in Hg; cbn beta iota in Hg; try exact Hg). Qed.
Lemma gram_primary l ts e : gram LPrimary ts e → gram l ts e.
Proof. intros Hg. destruct l; repeat first [exact Hg|constructor]. Qed.

Context `{UniLib}.

Lemma elem_of_mem (x : pystr) l : mem x l = true → x ∈ l.
Proof. apply bool_decide_eq_true. Qed.

Lemma print_value_gram v : ok_value v = true → gram LPrimary [print_value v] (Literal v).
Proof.
  intros Hv. destruct v; try done;
    [apply (g_literal NULL_LIT)|apply (g_literal BOOL_LIT)|apply (g_literal INT_LIT)|apply (g_literal STRING_LIT)];
    unfold literal_kinds; set_solver.
Qed.
Lemma bracket_gram e : gram LOr (print_expr e) e ∧ (is_atom e = true → gram LPrimary (print_expr e) e) →
  ∀ l, gram l (bracket (is_atom e) (print_expr e)) e.
Proof.
  intros [Hor Hat] l. apply gram_primary. unfold bracket. destruct (is_atom e); [by apply Hat|].
  by apply g_paren.
Qed.
Lemma print_expr_gram e : ok_expr e = true →
  gram LOr (print_expr e) e ∧ (is_atom e = true → gram LPrimary (print_expr e) e).
Proof.
  induction e as [v|n t|op l IHl r IHr|op x IHx|]; cbn [ok_expr]; intros Hok; [| | | |done].
  - apply print_value_gram in Hok. split; [by eapply gram_up|done].
  - assert (gram LPrimary (print_expr (ColumnRef n t)) (ColumnRef n t)) as Hg; [|split; [by eapply gram_up|done]].
    destruct t as [t|]; [apply (g_qualified (PyStr t))|apply (g_column (PyStr n))].
  - apply andb_prop in Hok as [[Hop Hl]%andb_prop Hr]. specialize (IHl Hl). specialize (IHr Hr).
    split; [|done]. cbn [print_expr].
    pose proof (bracket_gram l IHl) as Bl. pose proof (bracket_gram r IHr) as Br.
    apply elem_of_mem in Hop. unfold binary_ops in Hop. rewrite !elem_of_app in Hop.
    destruct Hop as [Hop|[Hop|[Hop|Hop]]].
    + rewrite !elem_of_cons, elem_of_nil in Hop. destruct Hop as [->|[->|[]]].
      * by apply (gram_up LAnd), g_and.
      * by apply g_or.
    + assert (mem op [u "AND"; u "OR"] = false) as ->.
      { cbn in Hop. rewrite !elem_of_cons, elem_of_nil in Hop. by destruct_or? Hop; subst. }
      by apply (gram_up LComparison), g_comparison.
    + assert (mem op [u "AND"; u "OR"] = false) as ->.
      { cbn in Hop. rewrite !elem_of_cons, elem_of_nil in Hop. by destruct_or? Hop; subst. }
      by apply (gram_up LAdditive), g_additive.
    + assert (mem op [u "AND"; u "OR"] = false) as ->.
      { cbn in Hop. rewrite !elem_of_cons, elem_of_nil in Hop. by destruct_or? Hop; subst. }
      by apply (gram_up LMultiplicative), g_multiplicative.
  - apply andb_prop in Hok as [Hop Hx]. pose proof (bracket_gram x (IHx Hx)) as Bx. split; [|done].
    apply elem_of_mem in Hop. unfold unary_ops in Hop. cbn [map] in Hop. rewrite !elem_of_cons, elem_of_nil in Hop.
    destruct Hop as [->|[->|[->|[->|[]]]]]; cbn [print_expr].
    + by apply (gram_up LNot), g_not.
    + by apply (gram_up LUnary), g_minus.
    + apply (gram_up LComparison), g_is_null; [done|by left].
    + apply (gram_up LComparison), g_is_not_null; [done|by left].
Qed.

(** Neither [*] nor an aggregate starts an expression. *)
Definition starts_expr (x : sig) : bool :=
  negb (is_op [u "*"] (token_of x)) && negb (kind_is KEYWORD (token_of x) && value_in _AGGREGATE_FUNCS (token_of x)).
Lemma gram_starts l ts e : gram l ts e → ∃ x ts', ts = x :: ts' ∧ starts_expr x = true.
Proof.
  induction 1; repeat match goal with H : ∃ _, _ |- _ => destruct H as (? & ? & -> & ?) end;
    try (by eexists _, _).
  - eexists _, _. split; [done|]. unfold _TYPED_LITERAL_PARSERS in *.
    match goal with H : assoc _ _ = _ |- _ => apply assoc_key in H; cbn [map fst] in H;
      rewrite !elem_of_cons, elem_of_nil in H; by destruct_or? H; subst end.
  - eexists _, _. split; [done|]. unfold literal_kinds in *.
    match goal with H : _ ∈ _ |- _ => rewrite !elem_of_cons, elem_of_nil in H; by destruct_or? H; subst end.
Qed.

(** What may follow an expression *)
Definition after_expr : sig → bool := λ x, negb (absorbs LOr (token_of x)).
Lemma absorbs_sig l t : absorbs l t = absorbs l (token_of (sig_of t)).
Proof. by destruct t. Qed.
Lemma parse_expr_prints e : ok_expr e = true → prints after_expr parse_expr (print_expr e) e.
Proof.
  intros Hok used t rest Hu Ht. apply parse_expr_reads.
  - rewrite Hu. by apply print_expr_gram.
  - unfold stops. rewrite absorbs_sig. by apply negb_true_iff.
Qed.
Lemma parse_value_prints v : ok_value v = true → prints after_expr _parse_value [print_value v] v.
Proof.
  intros Hok used t rest Hu Ht. unfold _parse_value.
  rewrite (run_Ok _ _ _ (Literal v) (t :: rest)); [done|]. apply parse_primary_reads.
  - rewrite Hu. by apply print_value_gram.
  - unfold stops. rewrite absorbs_sig. apply negb_true_iff in Ht. unfold absorbs in *. cbv zeta in *.
    rewrite !orb_false_iff in Ht. tauto.
Qed.

(** ** Statements *)

Definition at_eof : sig → bool := λ x, bool_decide (x.1 = EOF).
(** The side condition of [prints_bind] where the next token is known *)
Ltac next := unfold starts; first [reflexivity | intros [k v] Hk; apply bool_decide_eq_true in Hk; cbn in Hk; subst; reflexivity
                                  | intros ? ?; reflexivity | intros ? ?; assumption].
(** Consume what is printed with fixed tokens. *)
Ltac token :=
  first [ apply prints_ret
        | apply prints_expect; [reflexivity|reflexivity|intros ? ?]
        | apply prints_accept; [reflexivity|reflexivity|]
        | apply prints_reject; [solve [next]|solve [by intros []]|] ]; cbn beta iota.

Lemma ident_name_prints n : prints any ident_name [ident n] n.
Proof. unfold ident_name. repeat token. Qed.
Lemma names_prints ns : nonempty ns = true → prints (before_comma any) _parse_ident_list (print_names ns) ns.
Proof.
  intros Hne. apply comma_list_same; [done| |done]. intros n _. apply ident_name_prints.
Qed.
(** [( a, b )], after the parenthesis *)
Lemma closed_names_prints {A} ns (f : list pystr → A) :
  nonempty ns = true →
  prints any (cols ← _parse_ident_list; _ ← _expect_kind RPAREN; mret (f cols)) (print_names ns ++ [rpar]) (f ns).
Proof. intros Hne. eapply prints_bind; [by apply names_prints|by repeat token|done]. Qed.

Definition after_column : sig → bool := λ x, bool_decide (x.1 ∈ [COMMA; RPAREN]).
Lemma column_prints c : ok_column c = true → prints after_column _parse_column_def (print_column c) c.
Proof.
  intros [_ Htag]%andb_prop. destruct c as [n tag nn pk un]. apply negb_true_iff, bool_decide_eq_false in Htag.
  cbn in Htag. intros used [k v l0 c0] rest Hu Ht.
  apply bool_decide_eq_true in Ht. cbn in Ht. rewrite !elem_of_cons, elem_of_nil in Ht.
  apply map_cons_inv in Hu as ([] & u1 & -> & Hx1 & Hu). apply map_cons_inv in Hu as ([] & u2 & -> & Hx2 & Hu).
  injection Hx1 as -> ->. injection Hx2 as -> ->. unfold opt in Hu.
  destruct tag; try done; destruct nn, pk, un; cbn [app col_not_null col_primary_key col_unique] in Hu;
    repeat (apply map_cons_inv in Hu as ([] & ? & -> & Hx & Hu); injection Hx as -> ->); apply map_eq_nil in Hu as ->;
    destruct Ht as [->|[->|[]]]; reflexivity.
Qed.
Lemma forallb_elem {A} (p : A → bool) l x : forallb p l = true → x ∈ l → p x = true.
Proof. intros Hl Hx. by apply (proj1 (forallb_forall _ _) Hl), list_elem_of_In. Qed.

Definition create_body : P Statement :=
  nxt ← _peek;
  if is_kw (u "TABLE") nxt then _parse_create_table
  else if kind_is KEYWORD nxt && value_in (map u ["INDEX"; "UNIQUE"]%string) nxt then _parse_create_index
  else fail_at nxt.
Lemma create_prints ts st :
  prints at_eof create_body ts st → prints at_eof parse_ddl (kw_sig "CREATE" :: ts) st.
Proof.
  intros Hc. unfold parse_ddl. apply prints_peek. intros ? ?.
  change (prints at_eof (_ ← _expect_keyword (u "CREATE"); create_body) (kw_sig "CREATE" :: ts) st). by token.
Qed.
Lemma create_table_prints n cs : nonempty cs = true → forallb ok_column cs = true →
  prints at_eof parse_ddl (print_statement (CreateTable n cs)) (CreateTable n cs).
Proof.
  intros Hne Hcs. apply create_prints, prints_peek. intros ? ?. change (prints at_eof _parse_create_table
    (kw_sig "TABLE" :: ident n :: lpar :: sep (map print_column cs) ++ [rpar]) (CreateTable n cs)).
  unfold _parse_create_table. do 3 token. eapply prints_bind.
  - apply (comma_list_same after_column); [done| |done]. intros col Hcol. apply column_prints. by eapply forallb_elem.
  - repeat token.
  - done.
Qed.
Lemma create_index_prints n t c un :
  prints at_eof parse_ddl (print_statement (CreateIndex n t [c] un)) (CreateIndex n t [c] un).
Proof.
  apply create_prints. destruct un; apply prints_peek; intros ? ?;
    match goal with |- prints _ _ ?ts ?st => change (prints at_eof _parse_create_index ts st) end;
    unfold _parse_create_index; repeat token.
Qed.
Lemma drop_table_prints n e : prints at_eof parse_ddl (print_statement (DropTable n e)) (DropTable n e).
Proof.
  unfold parse_ddl. apply prints_peek. intros ? ?. change (prints at_eof _parse_drop_table
    (print_statement (DropTable n e)) (DropTable n e)). unfold _parse_drop_table.
  destruct e; do 3 token; [eapply (prints_bind any _ _ _ [kw_sig "EXISTS"])|eapply (prints_bind any _ _ _ [])]; try (by repeat token).
Qed.

(** ** INSERT, UPDATE, DELETE *)

Definition after_where : sig → bool := λ x, after_expr x && negb (is_kw (u "WHERE") (token_of x)).
Lemma where_prints w : ok_where w = true → prints after_where where_clause (print_where w) w.
Proof.
  intros Hw. unfold where_clause, clause. destruct w as [e|]; cbn [print_where].
  - token. rewrite <-(app_nil_r (print_expr e)). eapply prints_bind; [by apply parse_expr_prints|apply prints_ret|].
    by intros x [? _]%andb_prop.
  - apply prints_reject; [|by intros []|apply prints_ret]. by intros x [_ ?]%andb_prop.
Qed.
Lemma row_prints r : nonempty r = true → forallb ok_value r = true → prints any _parse_value_tuple (print_row r) r.
Proof.
  intros Hne Hr. unfold _parse_value_tuple, print_row. token. eapply prints_bind.
  - apply (comma_list_same after_expr); [done| |done]. intros v Hv. apply parse_value_prints. by eapply forallb_elem.
  - repeat token.
  - done.
Qed.
Lemma insert_prints t cs rows : ok_statement (Insert t cs rows) = true →
  prints at_eof parse_dml (print_statement (Insert t cs rows)) (Insert t cs rows).
Proof.
  cbn [ok_statement]. intros [[[_ Hcs]%andb_prop Hne]%andb_prop Hrows]%andb_prop.
  unfold parse_dml. apply prints_peek. intros ? ?. match goal with |- prints _ _ ?ts ?st => change (prints at_eof _parse_insert ts st) end.
  unfold _parse_insert. cbn [print_statement].
  assert (∀ cols, prints at_eof (_ ← _expect_keyword (u "VALUES"); values ← comma_list _parse_value_tuple;
    _ ← _match_kind SEMI; mret (Insert t cols values)) (kw_sig "VALUES" :: sep (map print_row rows)) (Insert t cols rows)) as Htl.
  { intros cols. token. rewrite <-(app_nil_r (sep _)). eapply (prints_bind (before_comma any)); [|by repeat token|next].
    apply (comma_list_same any); [done| |done]. intros r Hr. eapply forallb_elem in Hrows; [|exact Hr].
    apply andb_prop in Hrows as [??]. by apply row_prints. }
  destruct cs as [cs|]; do 3 token.
  - apply andb_prop in Hcs as [Hcs _]. token.
    apply (prints_bind any _ _ _ (print_names cs ++ [rpar]) _ (Some cs)); [by apply closed_names_prints|apply Htl|done].
  - token. apply (prints_bind any _ _ _ [] _ None); [apply prints_ret|apply Htl|done].
Qed.
Lemma assignment_prints a : ok_expr a.(as_value) = true → prints after_expr _parse_assignment (print_assignment a) a.
Proof.
  intros Ha. unfold _parse_assignment, print_assignment. do 2 token. rewrite <-(app_nil_r (print_expr _)).
  eapply prints_bind; [by apply parse_expr_prints| |by intros ?]. destruct a. apply prints_ret.
Qed.
Lemma update_prints t sets w : ok_statement (Update t sets w) = true →
  prints at_eof parse_dml (print_statement (Update t sets w)) (Update t sets w).
Proof.
  cbn [ok_statement]. intros [[[_ Hne]%andb_prop Hsets]%andb_prop Hw]%andb_prop.
  unfold parse_dml. apply prints_peek. intros ? ?.
  match goal with |- prints _ _ ?ts ?st => change (prints at_eof _parse_update ts st) end.
  unfold _parse_update. cbn [print_statement]. do 3 token.
  eapply (prints_bind (before_comma after_expr)); [apply comma_list_same; [done| |done]| |by destruct w; next].
  - intros a Ha. eapply forallb_elem in Hsets; [|exact Ha]. apply andb_prop in Hsets as [_ ?]. by apply assignment_prints.
  - rewrite <-(app_nil_r (print_where w)). eapply prints_bind; [by apply where_prints|by repeat token|next].
Qed.
Lemma delete_prints t w : ok_statement (Delete t w) = true →
  prints at_eof parse_dml (print_statement (Delete t w)) (Delete t w).
Proof.
  cbn [ok_statement]. intros [_ Hw]%andb_prop. unfold parse_dml. apply prints_peek. intros ? ?.
  match goal with |- prints _ _ ?ts ?st => change (prints at_eof _parse_delete ts st) end.
  unfold _parse_delete. cbn [print_statement]. do 3 token.
  rewrite <-(app_nil_r (print_where w)). eapply prints_bind; [by apply where_prints|by repeat token|next].
Qed.

(** ** SELECT *)

Lemma aggregate_prints f c : mem f _AGGREGATE_FUNCS = true →
  prints any _parse_aggregate (print_item (Aggregate f c)) (Aggregate f c).
Proof.
  intros Hf. unfold _parse_aggregate. cbn [print_item]. apply prints_expect; [exact Hf|done|]. intros ? ?. token.
  destruct (bool_decide (c = u "*")) eqn:Hc.
  - apply bool_decide_eq_true in Hc as ->. apply prints_peek. intros ? ?.
    apply (prints_bind any _ _ _ [star] [rpar] (u "*")); [|by repeat token|done].
    intros used t rest Hu _. by apply map_cons_inv in Hu as ([] & u' & -> & [= -> ->] & ->%map_eq_nil).
  - apply prints_peek. intros ? ?. apply (prints_bind any _ _ _ [ident c] [rpar] c); [|by repeat token|done].
    intros used t rest Hu _. by apply map_cons_inv in Hu as ([] & u' & -> & [= -> ->] & ->%map_eq_nil).
Qed.
Lemma item_prints i : ok_item i = true → prints after_expr _parse_select_item (print_item i) i.
Proof.
  intros Hi. unfold _parse_select_item. destruct i as [|f c|e]; [done| |].
  - apply andb_prop in Hi as [Hf _]. apply prints_peek. intros ? ?.
    match goal with |- context [if ?b then _ else _] => assert (b = true) as -> by exact Hf end.
    eapply prints_weaken; [by apply aggregate_prints|done].
  - cbn [ok_item] in Hi. destruct (gram_starts _ _ _ (proj1 (print_expr_gram e Hi))) as (x & ts' & Hts & Hx).
    cbn [print_item]. rewrite Hts. apply prints_peek. intros l c. apply andb_prop in Hx as [_ Hx%negb_true_iff].
    match goal with |- context [if ?b then _ else _] => assert (b = false) as -> by exact Hx end.
    rewrite <-Hts, <-(app_nil_r (print_expr e)).
    eapply prints_bind; [by apply parse_expr_prints|apply prints_ret|by intros ?].
Qed.
Lemma item_starts i : ok_item i = true → ∃ x ts, print_item i = x :: ts ∧ is_op [u "*"] (token_of x) = false.
Proof.
  destruct i as [|f c|e]; [done|by eexists _, _|]. cbn [ok_item]. intros Hi.
  destruct (gram_starts _ _ _ (proj1 (print_expr_gram e Hi))) as (x & ts' & Hts & Hx).
  exists x, ts'. split; [done|]. apply andb_prop in Hx as [Hx%negb_true_iff _]. exact Hx.
Qed.
Lemma columns_prints cols : ok_items cols = true →
  prints (before_comma after_expr) _parse_select_columns (sep (map print_item cols)) cols.
Proof.
  intros Hc. unfold _parse_select_columns.
  assert (nonempty cols && forallb ok_item cols = true →
    prints (before_comma after_expr) _parse_select_columns (sep (map print_item cols)) cols) as Hitems.
  { intros [Hne Hall]%andb_prop. destruct cols as [|i cols]; [done|].
    destruct (item_starts i) as (x & ts & Hts & Hx); [by apply andb_prop in Hall as [? _]|].
    assert (∃ ts', sep (map print_item (i :: cols)) = x :: ts') as [ts' Hsep].
    { cbn [map]. rewrite sep_cons, Hts. by eexists. }
    rewrite Hsep. apply prints_peek. intros l c.
    match goal with |- context [if ?b then _ else _] => assert (b = false) as -> by exact Hx end.
    rewrite <-Hsep. apply comma_list_same; [done| |done]. intros i' Hi'. apply item_prints. by eapply forallb_elem. }
  destruct cols as [|[| |] [|]]; try (by apply Hitems).
  cbn. apply prints_peek. intros ? ?. cbn. intros used t rest Hu _.
  by apply map_cons_inv in Hu as ([] & u' & -> & [= -> ->] & ->%map_eq_nil).
Qed.

(** The keywords that follow a table: not AS *)
Definition after_table : sig → bool := λ x,
  (kind_is KEYWORD (token_of x) && value_in (map u ["ON"; "USING"; "WHERE"; "GROUP"; "ORDER"; "LIMIT"; "LEFT"; "JOIN"]%string) (token_of x))
  || bool_decide (x.1 = EOF).
Lemma after_table_cases k v : after_table (k, v) = true →
  k = EOF ∨ k = KEYWORD ∧ ∃ s, v = PyStr (u s) ∧ s ∈ ["ON"; "USING"; "WHERE"; "GROUP"; "ORDER"; "LIMIT"; "LEFT"; "JOIN"]%string.
Proof.
  unfold after_table. intros [[Hk Hv]%andb_prop|Hk]%orb_prop.
  - right. apply bool_decide_eq_true in Hk. apply value_in_sig in Hv as (s & Hs & Hv). cbn in Hk, Hv. split; [done|].
    apply list_elem_of_fmap in Hs as (s' & -> & Hs'). by exists s'.
  - left. by apply bool_decide_eq_true in Hk.
Qed.
Lemma table_prints n a :
  prints after_table _parse_table_ref (print_from (Table n a)) (Table n a).
Proof.
  intros used [k v l c] rest Hu Ht. apply after_table_cases in Ht. cbn [print_from] in Hu. cbn in Ht.
  apply map_cons_inv in Hu as ([] & u1 & -> & [= -> ->] & Hu).
  destruct a as [a|]; [apply map_cons_inv in Hu as ([] & u2 & -> & [= -> ->] & Hu)|]; apply map_eq_nil in Hu as ->;
    (destruct Ht as [->|[-> (s & -> & Hs)]]; [done|]);
    rewrite !elem_of_cons, elem_of_nil in Hs; destruct_or? Hs; subst; done.
Qed.
Definition print_condition (on : option expr) (us : list pystr) : list sig :=
  match on with Some e => kw_sig "ON" :: print_expr e | None => kw_sig "USING" :: lpar :: print_names us ++ [rpar] end.
Lemma condition_prints on us :
  match on with Some e => ok_expr e && negb (nonempty us) | None => ok_names us end = true →
  prints after_expr _parse_join_condition (print_condition on us) (on, us).
Proof.
  intros Hok. unfold _parse_join_condition. destruct on as [e|]; cbn [print_condition].
  - apply andb_prop in Hok as [He Hus]. destruct us; [|done]. token. rewrite <-(app_nil_r (print_expr e)).
    eapply prints_bind; [by apply parse_expr_prints|apply prints_ret|by intros ?].
  - apply andb_prop in Hok as [Hne _]. do 3 token. eapply prints_weaken; [|done].
    eapply (prints_bind _ any); [by apply names_prints|by repeat token|done].
Qed.
Definition print_kind (k : JoinKind) : list sig := match k with INNER => [] | LEFT => [kw_sig "LEFT"] end.
Definition before_join : sig → bool := λ x, is_kw (u "JOIN") (token_of x).
Lemma join_kind_prints k : prints before_join join_kind (print_kind k) k.
Proof.
  intros used [k' v l c] rest Hu [Hk Hv]%andb_prop. apply bool_decide_eq_true in Hk. cbn in Hk.
  apply value_in_sig in Hv as (s & Hs & Hv). cbn in Hv. apply list_elem_of_singleton in Hs. subst.
  destruct k; cbn [print_kind] in Hu.
  - by apply map_eq_nil in Hu as ->.
  - by apply map_cons_inv in Hu as ([] & u' & -> & [= -> ->] & ->%map_eq_nil).
Qed.
Lemma one_join_prints left n a k on us nr :
  match on with Some e => ok_expr e && negb (nonempty us) | None => ok_names us end = true →
  nr = bool_decide (k = LEFT) →
  prints after_expr (_parse_one_join left)
    (print_kind k ++ kw_sig "JOIN" :: print_from (Table n a) ++ print_condition on us)
    (Join left (Table n a) k on us nr).
Proof.
  intros Hok ->. unfold _parse_one_join. eapply prints_bind; [apply join_kind_prints| |done]. token.
  eapply prints_bind; [apply table_prints| |by destruct on].
  rewrite <-(app_nil_r (print_condition on us)). eapply prints_bind; [by apply condition_prints|apply prints_ret|by intros ?].
Qed.

Lemma after_table_expr x : after_table x = true → after_expr x = true.
Proof.
  destruct x as [k v]. intros [->|[-> (s & -> & Hs)]]%after_table_cases; [done|].
  rewrite !elem_of_cons, elem_of_nil in Hs. by destruct_or? Hs; subst.
Qed.
Fixpoint joins (f : TableRef) : nat := match f with Table _ _ => 0 | Join l _ _ _ _ _ => S (joins l) end.
Lemma join_step left n a k on us nr depth fuel used t rest :
  match on with Some e => ok_expr e && negb (nonempty us) | None => ok_names us end = true →
  nr = bool_decide (k = LEFT) → depth + 1 <= 5 →
  map sig_of used = print_kind k ++ kw_sig "JOIN" :: print_from (Table n a) ++ print_condition on us →
  after_table (sig_of t) = true →
  join_loop (S fuel) left depth (used ++ t :: rest) =
  join_loop fuel (Join left (Table n a) k on us nr) (depth + 1) (t :: rest).
Proof.
  intros Hok Hnr Hd Hu Ht. cbn [join_loop].
  assert (∃ t1 u1, used = t1 :: u1 ∧ kind_is KEYWORD t1 && value_in join_starts t1 = true) as (t1 & u1 & -> & Ht1).
  { destruct k; apply map_cons_inv in Hu as (t1 & u1 & -> & Ht1 & _); exists t1, u1; (split; [done|]);
      destruct t1; injection Ht1 as -> ->; done. }
  unfold _peek_is_join_start. rewrite run_assoc.
  rewrite (run_Ok _peek _ ((t1 :: u1) ++ t :: rest) t1 ((t1 :: u1) ++ t :: rest)) by done.
  rewrite run_ret. rewrite Ht1. cbn [negb]. unfold _JOIN_MAX_DEPTH. destruct (Z.ltb_spec 5 (depth + 1)); [lia|].
  rewrite (run_Ok _ _ _ _ _ (one_join_prints left n a k on us nr Hok Hnr _ t rest Hu (after_table_expr _ Ht))). done.
Qed.
Lemma from_steps f : ∀ d, ok_from d f = true → (d <= 5)%nat → ∀ used t rest,
  map sig_of used = print_from f → after_table (sig_of t) = true →
  (joins f <= d)%nat ∧ ∃ t0 s1, _parse_table_ref (used ++ t :: rest) = (Ok t0, s1) ∧
    (joins f + S (length rest) <= length s1)%nat ∧
    ∀ fuel, join_loop (joins f + fuel) t0 0 s1 = join_loop fuel f (Z.of_nat (joins f)) (t :: rest).
Proof.
  induction f as [n a|l IHl r _ k on us nr]; intros d Hok Hd used t rest Hu Ht.
  - split; [cbn; lia|]. exists (Table n a), (t :: rest). split; [by apply table_prints|]. split; [simpl; lia|done].
  - destruct d as [|d]; [done|]. cbn [ok_from] in Hok.
    apply andb_prop in Hok as [[[Hl Hr]%andb_prop Hnr]%andb_prop Hon].
    destruct r as [n a|]; [|done]. cbn [print_from] in Hu. apply map_app_inv in Hu as (u1 & u2 & -> & Hu1 & Hu2).
    assert (map sig_of u2 = print_kind k ++ kw_sig "JOIN" :: print_from (Table n a) ++ print_condition on us) as Hu2'.
    { rewrite Hu2. by destruct k. }
    assert (∃ t2 u2', u2 = t2 :: u2' ∧ after_table (sig_of t2) = true) as (t2 & u2' & -> & Ht2).
    { destruct k; apply map_cons_inv in Hu2' as (t2 & u2' & -> & Hs & _); exists t2, u2'; by rewrite Hs. }
    rewrite <-app_assoc. cbn [app].
    destruct (IHl d Hl ltac:(lia) u1 t2 (u2' ++ t :: rest) Hu1 Ht2) as (Hjd & t0 & s1 & Hp & Hlen & Hrun).
    cbn [joins]. split; [lia|]. exists t0, s1. split; [done|].
    assert (∀ fuel, join_loop (S (joins l) + fuel) t0 0 s1 =
      join_loop fuel (Join l (Table n a) k on us nr) (Z.of_nat (S (joins l))) (t :: rest)) as Hall.
    { intros fuel. replace (S (joins l) + fuel)%nat with (joins l + S fuel)%nat by lia. rewrite Hrun.
      rewrite Nat2Z.inj_succ, <-Z.add_1_r.
      apply (join_step l n a k on us nr _ _ (t2 :: u2') t rest Hon); [by apply eqb_prop|lia|done|done]. }
    split; [|exact Hall]. rewrite length_app in Hlen. cbn [length] in Hlen. lia.
Qed.
Definition after_from : sig → bool := λ x,
  after_table x && negb (kind_is KEYWORD (token_of x) && value_in join_starts (token_of x)).
Lemma from_prints f : ok_from 5 f = true → prints after_from (_parse_from_clause 0) (print_from f) f.
Proof.
  intros Hok used t rest Hu [Ht Hj%negb_true_iff]%andb_prop.
  destruct (from_steps f 5 Hok ltac:(lia) used t rest Hu Ht) as (_ & t0 & s1 & Hp & Hlen & Hrun).
  unfold _parse_from_clause. rewrite (run_Ok _ _ _ _ _ Hp), run_gets.
  replace (S (length s1)) with (joins f + S (length s1 - joins f))%nat by lia. rewrite Hrun. cbn [join_loop].
  unfold _peek_is_join_start. rewrite run_assoc, (run_Ok _peek _ (t :: rest) t (t :: rest)), run_ret by done.
  assert (kind_is KEYWORD t && value_in join_starts t = false) as -> by (by destruct t). done.
Qed.

Lemma order_prints o : prints (λ x, bool_decide (x.1 = COMMA) || is_kw (u "LIMIT") (token_of x) || at_eof x)
  _parse_order_by_item (print_order o) o.
Proof.
  intros used [k v l c] rest Hu Ht. destruct o as [n desc]. cbn [print_order ob_column] in Hu.
  apply map_cons_inv in Hu as ([] & u1 & -> & [= -> ->] & Hu). unfold opt in Hu. cbn [ob_descending] in Hu.
  unfold at_eof in Ht. cbn [sig_of fst tk_kind] in Ht.
  assert (k = COMMA ∨ k = EOF ∨ k = KEYWORD ∧ v = PyStr (u "LIMIT")) as Hk.
  { apply orb_prop in Ht as [[Ht%bool_decide_eq_true|Ht]%orb_prop|Ht%bool_decide_eq_true]; [by left| |by right; left].
    right; right. apply (kw_sig_inv "LIMIT") in Ht. by injection Ht as -> ->. }
  destruct desc; [apply map_cons_inv in Hu as ([] & u2 & -> & [= -> ->] & Hu)|]; apply map_eq_nil in Hu as ->;
    destruct Hk as [->|[->|[-> ->]]]; done.
Qed.

Lemma count_prints v : ok_count (Some v) = true → prints any int_value [print_value v] (Some v).
Proof. destruct v; try done. intros _. unfold int_value. repeat token. Qed.
Lemma limit_prints lim off :
  ok_count lim = true → ok_count off = true → match lim, off with None, Some _ => false | _, _ => true end = true →
  prints at_eof (clause (u "LIMIT") (None, None)
    (limit ← int_value; offset ← clause (u "OFFSET") None int_value; mret (limit, offset)))
    (print_opt_value "LIMIT" lim (print_opt_value "OFFSET" off [])) (lim, off).
Proof.
  intros Hl Ho Hlo. unfold clause at 1. destruct lim as [l|].
  - cbn [print_opt_value]. token. eapply (prints_bind any _ _ _ [print_value l]); [by apply count_prints| |by destruct off].
    rewrite <-(app_nil_r (print_opt_value _ _ _)). eapply (prints_bind at_eof); [|apply prints_ret|by intros ?].
    unfold clause. destruct off as [o|]; cbn [print_opt_value].
    + token. eapply prints_weaken; [by apply count_prints|done].
    + by repeat token.
  - destruct off; [done|]. by repeat token.
Qed.

Lemma select_prints s : ok_select s = true → prints at_eof parse_dml (print_statement (Select s)) (Select s).
Proof.
  unfold ok_select. intros [[[[[[[Hc Hf]%andb_prop Hw]%andb_prop Hg]%andb_prop Ho]%andb_prop Hl]%andb_prop Hoff]%andb_prop Hlo]%andb_prop.
  unfold parse_dml. apply prints_peek. intros ? ?.
  match goal with |- prints _ _ ?ts ?st => change (prints at_eof _parse_select ts st) end.
  destruct s as [cols from w o lim off g].
  cbn [print_statement print_select sel_columns sel_from sel_where sel_order_by sel_limit sel_offset sel_group_by] in *.
  unfold _parse_select. cbn [print_select sel_columns sel_from sel_where sel_order_by sel_limit sel_offset sel_group_by].
  token. eapply prints_bind; [by apply columns_prints| |done]. token.
  eapply prints_bind; [by apply from_prints| |destruct w, g, o, lim, off; try done; next].
  eapply prints_bind; [by apply where_prints| |destruct g, o, lim, off; try done; next].
  eapply (prints_bind (before_comma (λ x, negb (is_kw (u "GROUP") (token_of x))))); [| |destruct o, lim, off; try done; next].
  { unfold clause. destruct g as [|n g].
    - apply prints_reject; [|by intros []|apply prints_ret]. by intros x [_ ?]%andb_prop.
    - do 2 token. eapply prints_weaken; [by apply names_prints|]. intros x [Hx _]%andb_prop. unfold before_comma. by rewrite Hx. }
  eapply (prints_bind (before_comma (λ x, negb (is_kw (u "ORDER") (token_of x)) &&
    (bool_decide (x.1 = COMMA) || is_kw (u "LIMIT") (token_of x) || at_eof x)))); [| |destruct lim, off; try done; next].
  { unfold clause. destruct o as [|ob o].
    - apply prints_reject; [|by intros []|apply prints_ret]. by intros x [_ [? _]%andb_prop]%andb_prop.
    - do 2 token. eapply prints_weaken; [apply comma_list_same; [done|intros; apply order_prints|done]|].
      intros x [Hx [_ Hx']%andb_prop]%andb_prop. unfold before_comma. by rewrite Hx, Hx'. }
  rewrite <-(app_nil_r (print_opt_value _ _ _)).
  eapply prints_bind; [by apply limit_prints| |by intros ?]. cbn beta iota. by repeat token.
Qed.

(** ** The text *)

Lemma dispatch_prints st : ok_statement st = true → prints at_eof dispatch (print_statement st) st.
Proof.
  intros Hok. unfold dispatch.
  destruct st; apply prints_peek; intros ? ?; cbn [fst snd].
  1-3: match goal with |- prints _ _ ?ts ?st => change (prints at_eof parse_ddl ts st) end.
  4-7: match goal with |- prints _ _ ?ts ?st => change (prints at_eof parse_dml ts st) end.
  - cbn [ok_statement] in Hok. apply andb_prop in Hok as [[_ ?]%andb_prop ?]. by apply create_table_prints.
  - apply drop_table_prints.
  - cbn [ok_statement] in Hok. apply andb_prop in Hok as [_ Hc]. destruct columns as [|col [|]]; [done| |done].
    apply create_index_prints.
  - by apply insert_prints.
  - by apply select_prints.
  - by apply update_prints.
  - by apply delete_prints.
Qed.

(** Every printed token is one that the tokenizer emits. *)
Definition wf_sig (x : sig) : Prop := wf_token (token_of x) = true.
Abbreviation wf := (Forall wf_sig).
Lemma wf_sep {A} (f : A → list sig) xs : (∀ x, x ∈ xs → wf (f x)) → wf (sep (map f xs)).
Proof.
  intros Hf. destruct xs as [|x xs]; [constructor|]. cbn [map]. rewrite sep_cons, map_map.
  apply Forall_app_2; [apply Hf; set_solver|]. apply Forall_concat, Forall_fmap, Forall_forall. intros y Hy. cbn.
  constructor; [done|]. apply Hf. set_solver.
Qed.
Lemma wf_name n : ok_name n = true → wf_sig (ident n).
Proof. done. Qed.
Lemma wf_value v : ok_value v = true → wf_sig (print_value v).
Proof. by destruct v. Qed.
Lemma wf_bracket b ts : wf ts → wf (bracket b ts).
Proof. intros Hts. unfold bracket. destruct b; [done|]. constructor; [done|]. apply Forall_app_2; [done|by repeat constructor]. Qed.
Lemma wf_expr e : ok_expr e = true → wf (print_expr e).
Proof.
  induction e as [v|n t|op l IHl r IHr|op x IHx|]; cbn [ok_expr print_expr]; intros Hok; [| | | |done].
  - constructor; [by apply wf_value|constructor].
  - apply andb_prop in Hok as [Hn Ht]. destruct t; repeat constructor; by apply wf_name.
  - apply andb_prop in Hok as [[Hop Hl]%andb_prop Hr]. apply Forall_app_2; [by apply wf_bracket, IHl|].
    constructor; [|by apply wf_bracket, IHr]. apply elem_of_mem in Hop. cbn in Hop.
    rewrite !elem_of_cons, elem_of_nil in Hop. by destruct_or? Hop; subst.
  - apply andb_prop in Hok as [Hop Hx]. apply elem_of_mem in Hop. unfold unary_ops in Hop. cbn [map] in Hop.
    rewrite !elem_of_cons, elem_of_nil in Hop. pose proof (wf_bracket (is_atom x) _ (IHx Hx)) as Hb.
    destruct Hop as [->|[->|[->|[->|[]]]]]; cbn [print_expr]; vm_compute bool_decide; cbv iota;
      first [constructor; [done|exact Hb] | apply Forall_app_2; [exact Hb|by repeat constructor]].
Qed.
Lemma wf_names ns : forallb ok_name ns = true → wf (print_names ns).
Proof. intros Hns. apply wf_sep. intros n Hn. constructor; [|constructor]. apply wf_name. by eapply forallb_elem. Qed.
Lemma wf_column c : ok_column c = true → wf (print_column c).
Proof.
  intros [Hn Ht]%andb_prop. unfold print_column. constructor; [by apply wf_name|].
  destruct c as [n tag nn pk un]. cbn. constructor; [by destruct tag|]. destruct nn, pk, un; by repeat constructor.
Qed.
Lemma wf_item i : ok_item i = true → wf (print_item i).
Proof.
  destruct i as [|f c|e]; [done| |apply wf_expr]. cbn [ok_item]. intros [Hf Hc]%andb_prop. cbn [print_item].
  apply elem_of_mem in Hf. cbn in Hf. rewrite !elem_of_cons, elem_of_nil in Hf.
  constructor; [by destruct_or? Hf; subst|]. constructor; [done|]. constructor; [|by repeat constructor].
  destruct (bool_decide (c = u "*")); [done|]. by apply wf_name.
Qed.
Lemma wf_from f : ∀ d, ok_from d f = true → wf (print_from f).
Proof.
  induction f as [n a|l IHl r IHr k on us nr]; intros d Hok; cbn [ok_from print_from] in *.
  - apply andb_prop in Hok as [Hn Ha]. constructor; [by apply wf_name|]. destruct a; repeat constructor. by apply wf_name.
  - destruct d as [|d]; [done|]. apply andb_prop in Hok as [[[Hl Hr]%andb_prop _]%andb_prop Hon].
    apply Forall_app_2; [by eapply IHl|]. apply Forall_app_2; [destruct k; by repeat constructor|].
    apply Forall_app_2; [destruct r; [by eapply IHr|done]|]. destruct on as [e|].
    + apply andb_prop in Hon as [He _]. constructor; [done|by apply wf_expr].
    + apply andb_prop in Hon as [_ Hus]. constructor; [done|]. constructor; [done|].
      apply Forall_app_2; [by apply wf_names|by repeat constructor].
Qed.
Lemma wf_where w : ok_where w = true → wf (print_where w).
Proof. destruct w; [|constructor]. intros. constructor; [done|by apply wf_expr]. Qed.
Lemma wf_count k v more : ok_count v = true → wf_sig (kw_sig k) → wf more → wf (print_opt_value k v more).
Proof. destruct v as [v|]; [|constructor]. intros Hv Hk Hm. constructor; [done|]. constructor; [|done]. apply wf_value. by destruct v. Qed.
Lemma wf_items cols : ok_items cols = true → wf (sep (map print_item cols)).
Proof.
  intros Hc. assert (cols = [Star] ∨ forallb ok_item cols = true) as [->|Hall].
  { destruct cols as [|[| |] [|]]; auto; apply andb_prop in Hc as [_ ?]; auto. }
  - by repeat constructor.
  - apply wf_sep. intros i Hi. apply wf_item. by eapply forallb_elem.
Qed.
Lemma wf_select s : ok_select s = true → wf (print_select s).
Proof.
  unfold ok_select. intros [[[[[[[Hc Hf]%andb_prop Hw]%andb_prop Hg]%andb_prop Ho]%andb_prop Hl]%andb_prop Hoff]%andb_prop _]%andb_prop.
  unfold print_select. constructor; [done|]. apply Forall_app_2; [by apply wf_items|]. constructor; [done|].
  apply Forall_app_2; [by eapply wf_from|]. apply Forall_app_2; [by apply wf_where|].
  apply Forall_app_2; [destruct (sel_group_by s) eqn:Hgs; [constructor|do 2 (constructor; [done|]); by apply wf_names]|].
  apply Forall_app_2.
  - destruct (sel_order_by s) as [|ob obs] eqn:Hos; [constructor|]. do 2 (constructor; [done|]). apply wf_sep.
    intros x Hx. eapply forallb_elem in Ho; [|exact Hx]. constructor; [by apply wf_name|]. destruct x as [n []]; by repeat constructor.
  - apply wf_count; [done|done|]. apply wf_count; [done|done|constructor].
Qed.
Ltac wf := repeat first [ done | assumption | apply Forall_nil_2 | apply Forall_cons_2 | apply Forall_app_2
  | apply wf_name | apply wf_names | apply wf_where | apply wf_expr | apply wf_items ].
Lemma wf_statement st : ok_statement st = true → wf (print_statement st).
Proof.
  destruct st as [n cs|n e|n t cs un|t cs rows|s|t sets w|t w]; cbn [ok_statement print_statement]; intros Hok.
  - apply andb_prop in Hok as [[Hn _]%andb_prop Hcs]. wf. apply wf_sep. intros c Hc. apply wf_column. by eapply forallb_elem.
  - destruct e; wf.
  - apply andb_prop in Hok as [[Hn Ht]%andb_prop Hc]. destruct cs as [|c [|]]; [done| |done]. destruct un; wf.
  - apply andb_prop in Hok as [[[Ht Hcs]%andb_prop _]%andb_prop Hrows]. wf.
    + destruct cs; [apply andb_prop in Hcs as [_ ?]|]; wf.
    + apply wf_sep. intros r Hr. eapply forallb_elem in Hrows; [|exact Hr]. apply andb_prop in Hrows as [_ Hr'].
      unfold print_row. wf. apply wf_sep. intros v Hv. wf. apply wf_value. by eapply forallb_elem.
  - by apply wf_select.
  - apply andb_prop in Hok as [[[Ht _]%andb_prop Hsets]%andb_prop Hw]. wf. apply wf_sep. intros a Ha.
    eapply forallb_elem in Hsets; [|exact Ha]. apply andb_prop in Hsets as [? ?]. unfold print_assignment. wf.
  - apply andb_prop in Hok as [Ht Hw]. wf.
Qed.

(** C6: the parser reads back what is printed: every statement of the SQL
    subset, of any size, printed to text (keywords, quoted strings, brackets
    around the operands of operators, commas, clauses), is the result of [parse]
    on that text. *)
Theorem parse_print `{!UniLaws} st : ok_statement st = true → parse (print st) = Ok st.
Proof.
  intros Hok. unfold parse, print, tokenize.
  destruct (lex_render (map token_of (print_statement st)) (length (render (map token_of (print_statement st)))) 1 1)
    as (toks & l & c & Hlex & Hsame); [|done|].
  { apply Forall_fmap. eapply Forall_impl; [by apply wf_statement|]. by intros x. }
  rewrite Hlex. cbn. unfold parse_tokens.
  assert (map sig_of toks = print_statement st) as Hs.
  { clear Hlex. revert toks Hsame. induction (print_statement st) as [|x xs IH]; intros toks Hsame;
      [by apply Forall2_nil_inv_l in Hsame as ->|]. apply Forall2_cons_inv_l in Hsame as (t & ts & [Hk Hv] & Hsame & ->).
    cbn [map]. rewrite (IH _ Hsame). destruct t, x. cbn in *. by subst. }
  by rewrite (dispatch_prints st Hok toks (mkToken EOF PyNone l c) [] Hs eq_refl).
Qed.
End Prints.

(** [SELECT a, COUNT( * ) FROM t u LEFT JOIN v ON u.x = v.y WHERE (NOT b) AND c IS
    NOT NULL GROUP BY a ORDER BY a DESC LIMIT 5 OFFSET 6] *)
Definition demo_select : Statement := Select {|
  sel_columns := [Item (ColumnRef (u "a") None); Aggregate (u "COUNT") (u "*")];
  sel_from := Join (Table (u "t") (Some (u "u"))) (Table (u "v") None) LEFT
    (Some (BinaryOp (u "=") (ColumnRef (u "x") (Some (u "u"))) (ColumnRef (u "y") (Some (u "v"))))) [] true;
  sel_where := Some (BinaryOp (u "AND") (UnaryOp (u "NOT") (ColumnRef (u "b") None))
    (UnaryOp (u "IS NOT NULL") (ColumnRef (u "c") None)));
  sel_order_by := [mkOrderBy (u "a") true];
  sel_limit := Some (PyInt 5);
  sel_offset := Some (PyInt 6);
  sel_group_by := [u "a"] |}.
Lemma parse_print_witness : @ok_statement ascii_unilib demo_select = true ∧ demo_parse (print demo_select) = Ok demo_select.
Proof.
  split; [vm_compute; reflexivity|].
  refine (@parse_print demo_iso letters_json ascii_unilib ascii_unilib_laws demo_select _). vm_compute. reflexivity.
Defined.
