(* ===== verification/Protocol.v ===== *)
(** Components [protocol/frame.py], [protocol/codec.py] and
    [protocol/errors.py]: the frames of the wire protocol, the reader that
    reassembles them from a byte stream, and the SQLSTATE codes. *)
From S2P Require Import Prelude.
From S2P Require Import Bytes.
From S2P Require Import Utf8.
From S2P Require Import Text.
From S2P Require Import TypeSys.
From Stdlib Require Import ZArith Lia.
Local Open Scope Z_scope.

(** * Frames *)

Definition MAX_FRAME_LEN : Z := 0xFFFFFF.
Definition _HEADER_SIZE : Z := 4 + 1 + 1.

Record Frame := mkFrame { fr_len : Z; fr_type : Z; fr_flags : Z; fr_payload : bytes }.
#[global] Instance Frame_eq_dec : EqDecision Frame.
Proof. solve_decision. Defined.

Definition is_byte (z : Z) : bool := (0 <=? z) && (z <=? 0xFF).
(** [bytes([...])] *)
Definition byte_list (l : list Z) : result bytes :=
  if forallb is_byte l then Ok (map byte_of_Z l) else Err ValueError.

(** The constructor with [__post_init__] *)
Definition new_frame (len type flags : Z) (payload : bytes) : result Frame :=
  if (type <? 0) || (0xFF <? type) then Err ValueError else
  if (flags <? 0) || (0xFF <? flags) then Err ValueError else
  if (len <? 0) || (MAX_FRAME_LEN <? len) then Err ValueError else
  if (len =? 0) && bool_decide (payload ≠ []) then Ok (mkFrame (zlen payload) type flags payload)
  else if negb (len =? zlen payload) then Err ValueError
  else Ok (mkFrame len type flags payload).

Definition to_bytes (f : Frame) : result bytes :=
  if MAX_FRAME_LEN <? zlen f.(fr_payload) then Err ProtocolError else
  len ← pack_ube 4 (zlen f.(fr_payload));
  tf ← byte_list [f.(fr_type); f.(fr_flags)];
  Ok (len ++ tf ++ f.(fr_payload)).

Definition from_bytes (data : bytes) : result Frame :=
  if zlen data <? _HEADER_SIZE then Err ProtocolError else
  length ← unpack_ube 4 (slice data 0 4) 0;
  if MAX_FRAME_LEN <? length then Err ProtocolError else
  if zlen data <? _HEADER_SIZE + length then Err ProtocolError else
  type_byte ← byte_at data 4;
  flags_byte ← byte_at data 5;
  new_frame length type_byte flags_byte (slice data _HEADER_SIZE (_HEADER_SIZE + length)).

(** * The reader *)

(** [_stream]: what [read] will still return, [None] without a stream *)
Record FrameReader := mkReader { rd_stream : option bytes; rd_buffer : bytes }.

Definition _read_byte : M FrameReader bool := λ r,
  match r.(rd_stream) with
  | None => (Err IncompleteFrameError, r)
  | Some [] => (Ok false, r)
  | Some (b :: s) => (Ok true, mkReader (Some s) (r.(rd_buffer) ++ [b]))
  end.
(** [while len(self._buffer) < n: if not self._read_byte(): ...], for the [k]
    bytes that are missing *)
Fixpoint fill (k : nat) : M FrameReader bool :=
  match k with
  | O => mret true
  | S k => ok ← _read_byte; if ok : bool then fill k else mret false
  end.
Definition fill_to (n : Z) : M FrameReader bool := λ r, fill (Z.to_nat (n - zlen r.(rd_buffer))) r.

(** [Frame.from_bytes(bytes(self._buffer[:target])); del self._buffer[:target]] *)
Definition take_frame (target : Z) : M FrameReader Frame :=
  r ← get;
  parsed ← lift (from_bytes (ztake target r.(rd_buffer)));
  modify (λ r, mkReader r.(rd_stream) (zdrop target r.(rd_buffer)));;
  mret parsed.
Definition buffered_length : M FrameReader Z :=
  r ← get;
  length ← lift (unpack_ube 4 (slice r.(rd_buffer) 0 4) 0);
  if MAX_FRAME_LEN <? length then raise ProtocolError else mret length.

Definition read_frame : M FrameReader (option Frame) :=
  r ← get;
  match r.(rd_stream) with
  | None =>
      if zlen r.(rd_buffer) <? _HEADER_SIZE then raise IncompleteFrameError else
      length ← buffered_length;
      if zlen r.(rd_buffer) <? _HEADER_SIZE + length then raise IncompleteFrameError else
      f ← take_frame (_HEADER_SIZE + length); mret (Some f)
  | Some _ =>
      ok ← fill_to 4;
      if negb ok then
        r ← get;
        if bool_decide (r.(rd_buffer) = []) then mret None else raise IncompleteFrameError
      else
        length ← buffered_length;
        ok ← fill_to (_HEADER_SIZE + length);
        if negb ok then raise IncompleteFrameError else
        f ← take_frame (_HEADER_SIZE + length); mret (Some f)
  end.

Definition feed (data : bytes) : M FrameReader (option Frame) :=
  modify (λ r, mkReader r.(rd_stream) (r.(rd_buffer) ++ data));;
  r ← get;
  if zlen r.(rd_buffer) <? _HEADER_SIZE then mret None else
  length ← buffered_length;
  if zlen r.(rd_buffer) <? _HEADER_SIZE + length then mret None else
  f ← take_frame (_HEADER_SIZE + length); mret (Some f).

Definition buffered_bytes (r : FrameReader) : Z := zlen r.(rd_buffer).

(** [FrameWriter.write_frame] on the bytes written so far *)
Definition write_frame (f : Frame) : M bytes unit :=
  bs ← lift (to_bytes f); modify (λ out, out ++ bs).

(** * SQLSTATE *)

Inductive sqlstate_class := ConnectionException | DataException | TransactionException | SyntaxError | GeneralError.
Definition SQLSTATE_MAP : list (pystr * sqlstate_class) :=
  [ (u "08000", ConnectionException); (u "22000", DataException); (u "25000", TransactionException);
    (u "42000", SyntaxError); (u "HY000", GeneralError) ].
Definition map_sqlstate (code : pystr) : sqlstate_class := default GeneralError (assoc code SQLSTATE_MAP).

(** * Encoding and decoding *)

(** A frame as [new_frame] builds it and [to_bytes] accepts it *)
Definition ok_frame (f : Frame) : Prop :=
  is_byte f.(fr_type) = true ∧ is_byte f.(fr_flags) = true ∧
  f.(fr_len) = zlen f.(fr_payload) ∧ f.(fr_len) <= MAX_FRAME_LEN.
Definition enc (f : Frame) : bytes :=
  be_bytes 4 (zlen f.(fr_payload)) ++ [byte_of_Z f.(fr_type); byte_of_Z f.(fr_flags)] ++ f.(fr_payload).

Lemma is_byte_true z : is_byte z = true → 0 <= z < 256.
Proof. unfold is_byte. intros. bool_to_prop. lia. Qed.
Lemma new_frame_ok len type flags payload f : new_frame len type flags payload = Ok f → zlen payload <= MAX_FRAME_LEN → ok_frame f.
Proof.
  unfold new_frame, ok_frame, is_byte. intros Hf Hl.
  destruct ((type <? 0) || (255 <? type)) eqn:Ht; [done|]. destruct ((flags <? 0) || (255 <? flags)) eqn:Hg; [done|].
  destruct ((len <? 0) || _) eqn:Hn; [done|]. apply orb_false_iff in Ht as [??], Hg as [??], Hn as [??]. bool_to_prop.
  destruct (_ && _); [injection Hf as <-|destruct (Z.eqb_spec len (zlen payload)); [|done]; injection Hf as <-]; cbn;
    (split; [apply andb_true_iff; split; lia|]; split; [apply andb_true_iff; split; lia|]; split; [done|lia]).
Qed.
Lemma to_bytes_enc f : ok_frame f → to_bytes f = Ok (enc f).
Proof.
  intros (Ht & Hf & Hl & Hm). unfold to_bytes, enc. pose proof (zlen_nonneg f.(fr_payload)) as Hp.
  destruct (Z.ltb_spec MAX_FRAME_LEN (zlen f.(fr_payload))); [lia|].
  rewrite pack_ube_ok by (unfold MAX_FRAME_LEN in *; lia). unfold byte_list. cbn. by rewrite Ht, Hf.
Qed.
Lemma to_bytes_limit f : MAX_FRAME_LEN < zlen f.(fr_payload) → to_bytes f = Err ProtocolError.
Proof. intros Hl. unfold to_bytes. destruct (Z.ltb_spec MAX_FRAME_LEN (zlen f.(fr_payload))); [done|lia]. Qed.

Lemma zlen_enc f : zlen (enc f) = _HEADER_SIZE + zlen f.(fr_payload).
Proof. unfold enc, _HEADER_SIZE. autorewrite with py. lia. Qed.
(** The first bytes of an encoded frame, whatever follows *)
Lemma enc_length f x : ok_frame f → unpack_ube 4 (slice (enc f ++ x) 0 4) 0 = Ok (zlen f.(fr_payload)).
Proof.
  intros (_ & _ & Hl & Hm). pose proof (zlen_nonneg f.(fr_payload)) as Hp. unfold enc.
  rewrite <-app_assoc. unfold slice. rewrite zdrop_0, ztake_app by (by rewrite zlen_be_bytes).
  rewrite <-(app_nil_r (be_bytes 4 _)). apply (unpack_ube_middle 4 []); [done|]. unfold MAX_FRAME_LEN in *. lia.
Qed.
Lemma byte_at_cons b l i : 0 < i → byte_at (b :: l) i = byte_at l (i - 1).
Proof.
  intros Hi. unfold byte_at, znth. destruct (Z.ltb_spec i 0); [lia|]. destruct (Z.ltb_spec (i - 1) 0); [lia|].
  by replace (Z.to_nat i) with (S (Z.to_nat (i - 1))) by lia.
Qed.
Lemma byte_at_app l d i : i = zlen l → 0 <= i → byte_at (l ++ d) i = byte_at d 0.
Proof.
  intros -> Hi. unfold byte_at, znth. destruct (Z.ltb_spec (zlen l) 0); [lia|]. cbn.
  unfold zlen. rewrite Nat2Z.id, lookup_app_r by lia. by rewrite Nat.sub_diag.
Qed.
Lemma byte_at_0 b l : byte_at (b :: l) 0 = Ok (Z_of_byte b).
Proof. done. Qed.
Lemma from_bytes_enc f : ok_frame f → from_bytes (enc f) = Ok f.
Proof.
  intros Hf. pose proof Hf as (Ht & Hg & Hl & Hm). pose proof (zlen_nonneg f.(fr_payload)) as Hp.
  unfold from_bytes. rewrite zlen_enc. destruct (Z.ltb_spec (_HEADER_SIZE + zlen (fr_payload f)) _HEADER_SIZE); [lia|].
  rewrite <-(app_nil_r (enc f)) at 1. rewrite (enc_length f [] Hf), bind_Ok.
  destruct (Z.ltb_spec MAX_FRAME_LEN (zlen f.(fr_payload))); [lia|]. rewrite Z.ltb_irrefl.
  assert (byte_at (enc f) 4 = Ok f.(fr_type)) as ->.
  { unfold enc. rewrite byte_at_app by (rewrite ?zlen_be_bytes; lia). cbn [app]. rewrite byte_at_0.
    apply is_byte_true in Ht. by rewrite Z_of_byte_of_Z_small. }
  assert (byte_at (enc f) 5 = Ok f.(fr_flags)) as ->.
  { unfold enc. change [byte_of_Z (fr_type f); byte_of_Z (fr_flags f)] with ([byte_of_Z (fr_type f)] ++ [byte_of_Z (fr_flags f)]).
    rewrite <-app_assoc, app_assoc. rewrite byte_at_app by (rewrite ?zlen_app, ?zlen_be_bytes, ?zlen_cons, ?zlen_nil; lia). cbn [app]. rewrite byte_at_0.
    apply is_byte_true in Hg. by rewrite Z_of_byte_of_Z_small. }
  rewrite !bind_Ok.
  assert (slice (enc f) _HEADER_SIZE (_HEADER_SIZE + zlen (fr_payload f)) = f.(fr_payload)) as ->.
  { unfold enc. rewrite app_assoc. unfold slice. rewrite zdrop_app by (rewrite zlen_app, zlen_be_bytes; done).
    apply ztake_all. lia. }
  unfold new_frame. apply is_byte_true in Ht, Hg.
  destruct (Z.ltb_spec (fr_type f) 0), (Z.ltb_spec 255 (fr_type f)); try lia.
  destruct (Z.ltb_spec (fr_flags f) 0), (Z.ltb_spec 255 (fr_flags f)); try lia. cbn [orb].
  destruct (Z.ltb_spec (zlen (fr_payload f)) 0), (Z.ltb_spec MAX_FRAME_LEN (zlen (fr_payload f))); try lia. cbn [orb].
  rewrite Z.eqb_refl. cbn [negb]. destruct (_ && _); by destruct f; cbn in *; subst.
Qed.

(** * What the reader does with the bytes it has not consumed *)

(** The first frame of the bytes [p], when [need] of them are enough to judge
    the length field *)
Inductive pending := Short | Malformed | Got (f : Frame) (rest : bytes).
Definition next_frame (need : Z) (p : bytes) : pending :=
  if zlen p <? need then Short else
  let n := be_val (ztake 4 p) in
  if MAX_FRAME_LEN <? n then Malformed else
  if zlen p <? _HEADER_SIZE + n then Short else
  Got (mkFrame n (Z_of_byte (default x00 (p !! 4%nat))) (Z_of_byte (default x00 (p !! 5%nat)))
         (slice p _HEADER_SIZE (_HEADER_SIZE + n)))
      (zdrop (_HEADER_SIZE + n) p).

Lemma length_field p : 4 <= zlen p → unpack_ube 4 (slice p 0 4) 0 = Ok (be_val (ztake 4 p)).
Proof.
  intros Hp. unfold slice. rewrite zdrop_0. change (4 - 0) with 4. unfold unpack_ube.
  pose proof (read_at_middle 4 [] (ztake 4 p) []) as H. rewrite app_nil_r in H. cbn [app] in H.
  rewrite H; [done|done|rewrite zlen_ztake; lia].
Qed.
Lemma byte_at_ztake p i n : 0 <= i → i < n → n <= zlen p →
  byte_at (ztake n p) i = Ok (Z_of_byte (default x00 (p !! Z.to_nat i))).
Proof.
  intros Hi Hin Hn. unfold byte_at, znth. destruct (Z.ltb_spec i 0); [lia|].
  unfold ztake. rewrite lookup_take_lt by lia.
  destruct (p !! Z.to_nat i) as [b|] eqn:Hb; [done|]. apply lookup_ge_None in Hb. unfold zlen in Hn. lia.
Qed.
Lemma from_bytes_ztake p n :
  n = be_val (ztake 4 p) → 4 <= zlen p → n <= MAX_FRAME_LEN → _HEADER_SIZE + n <= zlen p →
  from_bytes (ztake (_HEADER_SIZE + n) p) =
  Ok (mkFrame n (Z_of_byte (default x00 (p !! 4%nat))) (Z_of_byte (default x00 (p !! 5%nat)))
        (slice p _HEADER_SIZE (_HEADER_SIZE + n))).
Proof.
  intros Hn Hp Hm Hl. pose proof (be_val_bound (ztake 4 p)) as Hb. rewrite <-Hn in Hb.
  assert (zlen (ztake (_HEADER_SIZE + n) p) = _HEADER_SIZE + n) as Hlen by (rewrite zlen_ztake; unfold _HEADER_SIZE in *; lia).
  unfold from_bytes. rewrite Hlen. destruct (Z.ltb_spec (_HEADER_SIZE + n) _HEADER_SIZE); [lia|].
  rewrite length_field by (unfold _HEADER_SIZE in *; lia).
  assert (ztake 4 (ztake (_HEADER_SIZE + n) p) = ztake 4 p) as ->.
  { unfold ztake, _HEADER_SIZE. rewrite take_take. f_equal. lia. }
  rewrite <-Hn, bind_Ok. destruct (Z.ltb_spec MAX_FRAME_LEN n); [lia|]. rewrite Z.ltb_irrefl.
  rewrite !byte_at_ztake by (unfold _HEADER_SIZE in *; lia). rewrite !bind_Ok.
  assert (slice (ztake (_HEADER_SIZE + n) p) _HEADER_SIZE (_HEADER_SIZE + n) = slice p _HEADER_SIZE (_HEADER_SIZE + n)) as ->.
  { rewrite <-(slice_app_l (ztake (_HEADER_SIZE + n) p) (zdrop (_HEADER_SIZE + n) p)) by (done || lia).
    by rewrite ztake_zdrop. }
  change (Z.to_nat 4) with 4%nat. change (Z.to_nat 5) with 5%nat.
  set (payload := slice p _HEADER_SIZE (_HEADER_SIZE + n)).
  assert (zlen payload = n) as Hpl by (unfold payload; rewrite zlen_slice; unfold _HEADER_SIZE in *; lia).
  pose proof (Z_of_byte_bound (default x00 (p !! 4%nat))). pose proof (Z_of_byte_bound (default x00 (p !! 5%nat))).
  unfold new_frame.
  repeat match goal with |- context [?a <? ?b] => destruct (Z.ltb_spec a b); [lia|] end. cbn [orb].
  rewrite Hpl, Z.eqb_refl. cbn [negb]. by destruct (_ && _).
Qed.

Lemma fill_spec k : ∀ s b, fill k (mkReader (Some s) b) =
  if decide (k <= length s)%nat then (Ok true, mkReader (Some (drop k s)) (b ++ take k s))
  else (Ok false, mkReader (Some []) (b ++ s)).
Proof.
  induction k as [|k IH]; intros s b.
  - rewrite decide_True by lia. cbn. by rewrite app_nil_r.
  - cbn [fill]. destruct s as [|x s].
    + rewrite decide_False by (simpl; lia). unfold mbind, M_bind. cbn. by rewrite app_nil_r.
    + unfold mbind, M_bind. cbn [_read_byte rd_stream rd_buffer]. rewrite IH. simpl.
      destruct (decide (k <= length s)%nat); [rewrite decide_True by lia|rewrite decide_False by lia];
        by rewrite <-app_assoc.
Qed.
Lemma fill_to_spec n s b :
  fill_to n (mkReader (Some s) b) =
  if n <=? zlen (b ++ s)
  then (Ok true, mkReader (Some (zdrop (Z.max n (zlen b) - zlen b) s)) (ztake (Z.max n (zlen b)) (b ++ s)))
  else (Ok false, mkReader (Some []) (b ++ s)).
Proof.
  unfold fill_to. cbn [rd_buffer]. rewrite fill_spec. rewrite zlen_app. unfold zlen, zdrop, ztake.
  destruct (Z.leb_spec n (Z.of_nat (length b) + Z.of_nat (length s))); case_decide; try lia; [|done].
  rewrite take_app_ge by lia.
  by replace (Z.to_nat (Z.max n (Z.of_nat (length b))) - length b)%nat with (Z.to_nat (n - Z.of_nat (length b))) by lia;
  replace (Z.to_nat (Z.max n (Z.of_nat (length b)) - Z.of_nat (length b))) with (Z.to_nat (n - Z.of_nat (length b))) by lia.
Qed.

Lemma buffered_length_run {A} s b (k : Z → M FrameReader A) : 4 <= zlen b →
  (buffered_length ≫= k) (mkReader s b) =
  if MAX_FRAME_LEN <? be_val (ztake 4 b) then (Err ProtocolError, mkReader s b) else k (be_val (ztake 4 b)) (mkReader s b).
Proof.
  intros Hb. unfold buffered_length. mrun. cbn [rd_buffer]. rewrite length_field by done. mrun.
  by destruct (_ <? _).
Qed.
Lemma take_frame_run s b n : n = be_val (ztake 4 b) → 4 <= zlen b → n <= MAX_FRAME_LEN → _HEADER_SIZE + n <= zlen b →
  (f ← take_frame (_HEADER_SIZE + n); mret (Some f)) (mkReader s b) =
  (Ok (Some (mkFrame n (Z_of_byte (default x00 (b !! 4%nat))) (Z_of_byte (default x00 (b !! 5%nat)))
        (slice b _HEADER_SIZE (_HEADER_SIZE + n)))), mkReader s (zdrop (_HEADER_SIZE + n) b)).
Proof.
  intros. unfold take_frame. mrun. cbn [rd_buffer]. rewrite from_bytes_ztake by done. by mrun.
Qed.

Lemma feed_next data s b : let p := b ++ data in
  feed data (mkReader s b) =
  match next_frame _HEADER_SIZE p with
  | Short => (Ok None, mkReader s p)
  | Malformed => (Err ProtocolError, mkReader s p)
  | Got f rest => (Ok (Some f), mkReader s rest)
  end.
Proof.
  intros p. unfold feed, next_frame. mrun. cbn [rd_stream rd_buffer]. fold p.
  destruct (Z.ltb_spec (zlen p) _HEADER_SIZE) as [|Hp]; [done|]. unfold _HEADER_SIZE in Hp.
  rewrite buffered_length_run by lia. cbv zeta. destruct (Z.ltb_spec MAX_FRAME_LEN (be_val (ztake 4 p))); [done|].
  destruct (Z.ltb_spec (zlen p) (_HEADER_SIZE + be_val (ztake 4 p))); [done|].
  rewrite take_frame_run by (done || lia). done.
Qed.
Lemma read_frame_next s b : let p := b ++ s in
  match next_frame 4 p with
  | Short => read_frame (mkReader (Some s) b) =
      (if bool_decide (p = []) then Ok None else Err IncompleteFrameError, mkReader (Some []) p)
  | Malformed => ∃ s' b', b' ++ s' = p ∧ read_frame (mkReader (Some s) b) = (Err ProtocolError, mkReader (Some s') b')
  | Got f rest => ∃ s' b', b' ++ s' = rest ∧ read_frame (mkReader (Some s) b) = (Ok (Some f), mkReader (Some s') b')
  end.
Proof.
  intros p. unfold read_frame. rewrite run_get. cbn [rd_stream]. unfold next_frame.
  pose proof (zlen_nonneg b) as Hb0.
  destruct (Z.ltb_spec (zlen p) 4) as [Hp|Hp].
  { pose proof (fill_to_spec 4 s b) as Hf. fold p in Hf. destruct (Z.leb_spec 4 (zlen p)); [lia|].
    rewrite (run_Ok _ _ _ _ _ Hf). cbn [negb]. mrun. cbn [rd_buffer]. fold p. by destruct (bool_decide (p = [])). }
  set (m := Z.max 4 (zlen b)).
  assert (fill_to 4 (mkReader (Some s) b) = (Ok true, mkReader (Some (zdrop (m - zlen b) s)) (ztake m p))) as Hf.
  { rewrite fill_to_spec. fold p m. destruct (Z.leb_spec 4 (zlen p)); [done|lia]. }
  rewrite (run_Ok _ _ _ _ _ Hf). cbn [negb].
  assert (m <= zlen p) as Hmp by (unfold m, p in *; rewrite zlen_app in *; pose proof (zlen_nonneg s); lia).
  assert (zlen (ztake m p) = m) as Hm by (rewrite zlen_ztake; unfold m in *; lia).
  assert (ztake m p ++ zdrop (m - zlen b) s = p) as Hsplit.
  { rewrite <-(ztake_zdrop m p) at 2. f_equal. unfold p. rewrite zdrop_app_ge by (unfold m; lia). done. }
  assert (ztake 4 (ztake m p) = ztake 4 p) as H4.
  { unfold ztake. rewrite take_take. f_equal. unfold m. lia. }
  rewrite buffered_length_run by (unfold m in *; lia). rewrite H4. cbv zeta.
  destruct (Z.ltb_spec MAX_FRAME_LEN (be_val (ztake 4 p))); [by eexists _, _|].
  set (n := be_val (ztake 4 p)) in *. pose proof (be_val_bound (ztake 4 p)) as Hn. fold n in Hn.
  pose proof (fill_to_spec (_HEADER_SIZE + n) (zdrop (m - zlen b) s) (ztake m p)) as Hf2. rewrite Hsplit in Hf2.
  destruct (Z.ltb_spec (zlen p) (_HEADER_SIZE + n)).
  { destruct (Z.leb_spec (_HEADER_SIZE + n) (zlen p)); [lia|]. rewrite (run_Ok _ _ _ _ _ Hf2). cbn [negb]. mrun.
    rewrite bool_decide_false; [done|]. intros Hp0. rewrite Hp0, zlen_nil in Hp. lia. }
  destruct (Z.leb_spec (_HEADER_SIZE + n) (zlen p)); [|lia]. rewrite (run_Ok _ _ _ _ _ Hf2). cbn [negb].
  rewrite Hm in *. set (m2 := Z.max (_HEADER_SIZE + n) m) in *.
  assert (m2 <= zlen p) as Hm2 by lia. assert (0 <= m2) as Hm20 by (unfold _HEADER_SIZE, m2, m in *; lia).
  assert (ztake 4 (ztake m2 p) = ztake 4 p) as H42.
  { unfold ztake. rewrite take_take. f_equal. unfold m2, m. lia. }
  assert (zlen (ztake m2 p) = m2) as Hlm2 by (rewrite zlen_ztake; lia).
  rewrite take_frame_run; rewrite ?H42, ?Hlm2; [|done|unfold m2, m in *; lia|lia|unfold m2; lia].
  unfold _HEADER_SIZE in *.
  assert (∀ i : nat, (i < 6)%nat → ztake m2 p !! i = p !! i) as Hlk.
  { intros i Hi. unfold ztake. apply lookup_take_lt. unfold m2, m in *. lia. }
  rewrite !Hlk by lia.
  assert (slice (ztake m2 p) (4 + 1 + 1) (4 + 1 + 1 + n) = slice p (4 + 1 + 1) (4 + 1 + 1 + n)) as ->.
  { rewrite <-(slice_app_l (ztake m2 p) (zdrop m2 p)) by (done || lia). by rewrite ztake_zdrop. }
  eexists _, _. split; [|done]. rewrite zdrop_zdrop by (unfold m2, m in *; lia).
  replace (m2 - m + (m - zlen b)) with (m2 - zlen b) by lia.
  trans (zdrop (4 + 1 + 1 + n) (ztake m2 p ++ zdrop m2 p)); [|by rewrite ztake_zdrop].
  rewrite zdrop_app_le by (rewrite ?Hlm2; lia). f_equal.
  unfold p. rewrite zdrop_app_ge by lia. done.
Qed.

(** [feed] and [read_frame] take the first frame of what was received and not
    yet consumed: the buffered bytes followed by [data] for [feed], by the rest
    of the stream for [read_frame].  Too little data keeps every byte, a length
    over the limit raises [ProtocolError], and [read_frame] returns [None] only
    at the end of a stream of which no byte is pending. *)
Theorem reader_refines (r : FrameReader) (data s : bytes) :
  feed data r =
    match next_frame _HEADER_SIZE (r.(rd_buffer) ++ data) with
    | Short => (Ok None, mkReader r.(rd_stream) (r.(rd_buffer) ++ data))
    | Malformed => (Err ProtocolError, mkReader r.(rd_stream) (r.(rd_buffer) ++ data))
    | Got f rest => (Ok (Some f), mkReader r.(rd_stream) rest)
    end ∧
  (r.(rd_stream) = Some s →
   match next_frame 4 (r.(rd_buffer) ++ s) with
   | Short => read_frame r =
       (if bool_decide (r.(rd_buffer) ++ s = []) then Ok None else Err IncompleteFrameError,
        mkReader (Some []) (r.(rd_buffer) ++ s))
   | Malformed => ∃ s' b', b' ++ s' = r.(rd_buffer) ++ s ∧ read_frame r = (Err ProtocolError, mkReader (Some s') b')
   | Got f rest => ∃ s' b', b' ++ s' = rest ∧ read_frame r = (Ok (Some f), mkReader (Some s') b')
   end).
Proof.
  destruct r as [st b]. cbn [rd_stream rd_buffer]. split; [apply feed_next|].
  intros ->. apply read_frame_next.
Qed.

(** * The client's reader thread *)

(** [response_queue] is what the thread put, oldest first *)
Record ReaderThread := mkThread { rt_reader : FrameReader; response_queue : list Frame }.
Definition rt_feed (data : bytes) : M ReaderThread (option Frame) :=
  zoom rt_reader (λ r t, mkThread r t.(response_queue)) (feed data).
(** [while frame is not None: self._response_queue.put(frame); frame = fr.feed(b"")] *)
Fixpoint drain (fuel : nat) (frame : option Frame) : M ReaderThread unit :=
  match frame, fuel with
  | None, _ => mret ()
  | Some _, O => raise OutOfFuel
  | Some f, S fuel =>
      modify (λ t, mkThread t.(rt_reader) (t.(response_queue) ++ [f]));;
      frame ← rt_feed [];
      drain fuel frame
  end.
(** [bufs]: what [sock.recv] returns, in order; after the last it raises *)
Fixpoint recv_loop (bufs : list bytes) : M ReaderThread unit :=
  match bufs with
  | [] => mret ()
  | [] :: _ => mret ()
  | buf :: bufs =>
      t ← get;
      frame ← rt_feed buf;
      drain (length t.(rt_reader).(rd_buffer) + length buf) frame;;
      recv_loop bufs
  end.
Definition _reader_loop (bufs : list bytes) : M ReaderThread unit :=
  catch (recv_loop bufs) (λ _, mret ()).

Lemma next_frame_enc need f x : ok_frame f → need <= _HEADER_SIZE → next_frame need (enc f ++ x) = Got f x.
Proof.
  intros Hf Hn. pose proof Hf as (_ & _ & Hl & Hm). pose proof (zlen_nonneg f.(fr_payload)) as Hp. pose proof (zlen_nonneg x).
  unfold next_frame. rewrite zlen_app, zlen_enc.
  destruct (Z.ltb_spec (_HEADER_SIZE + zlen (fr_payload f) + zlen x) need); [lia|].
  assert (be_val (ztake 4 (enc f ++ x)) = zlen f.(fr_payload)) as ->.
  { pose proof (enc_length f x Hf) as He. rewrite length_field in He; [by injection He|].
    rewrite zlen_app, zlen_enc. unfold _HEADER_SIZE. lia. }
  cbv zeta. destruct (Z.ltb_spec MAX_FRAME_LEN (zlen (fr_payload f))); [lia|].
  destruct (Z.ltb_spec (_HEADER_SIZE + zlen (fr_payload f) + zlen x) (_HEADER_SIZE + zlen (fr_payload f))); [lia|].
  pose proof (from_bytes_ztake (enc f) (zlen (fr_payload f))) as Hb.
  rewrite (ztake_all _ (_HEADER_SIZE + _)) in Hb by (rewrite zlen_enc; lia). rewrite from_bytes_enc in Hb by done.
  assert (zlen (fr_payload f) = be_val (ztake 4 (enc f))) as He.
  { pose proof (enc_length f [] Hf) as He. rewrite app_nil_r, length_field in He; [by injection He|].
    rewrite zlen_enc. unfold _HEADER_SIZE. lia. }
  specialize (Hb He). rewrite zlen_enc in Hb. unfold _HEADER_SIZE in *.
  specialize (Hb ltac:(lia) ltac:(unfold MAX_FRAME_LEN in *; lia) ltac:(lia)).
  match type of Hb with Ok ?a = Ok ?b => assert (a = b) as Hb' by congruence end.
  assert (∀ i : nat, (i < 6)%nat → (enc f ++ x) !! i = enc f !! i) as Hlk.
  { intros i Hi. apply lookup_app_l. pose proof (zlen_enc f) as Hz. unfold zlen, _HEADER_SIZE in Hz. lia. }
  rewrite !Hlk by lia. rewrite slice_app_l by (rewrite ?zlen_enc; unfold _HEADER_SIZE; lia).
  rewrite <-Hb'. f_equal. apply zdrop_app. by rewrite zlen_enc.
Qed.
Lemma next_frame_short_prefix a b : next_frame _HEADER_SIZE (a ++ b) = Short → next_frame _HEADER_SIZE a = Short.
Proof.
  unfold next_frame. rewrite zlen_app. pose proof (zlen_nonneg b) as Hb.
  destruct (Z.ltb_spec (zlen a) _HEADER_SIZE) as [|Ha]; [done|]. unfold _HEADER_SIZE in *.
  destruct (Z.ltb_spec (zlen a + zlen b) (4 + 1 + 1)); [lia|].
  rewrite ztake_app_le by lia. cbv zeta. destruct (_ <? be_val _); [done|].
  destruct (Z.ltb_spec (zlen a + zlen b) (4 + 1 + 1 + be_val (ztake 4 a))); [|done].
  destruct (Z.ltb_spec (zlen a) (4 + 1 + 1 + be_val (ztake 4 a))); [done|lia].
Qed.
Lemma next_frame_short_enc p f : ok_frame f → zlen p < zlen (enc f) → (∃ x, p ++ x = enc f) → next_frame _HEADER_SIZE p = Short.
Proof.
  intros Hf Hl [x Hx]. unfold next_frame. destruct (Z.ltb_spec (zlen p) _HEADER_SIZE) as [|Hp]; [done|].
  pose proof Hf as (_ & _ & Hle & Hm).
  assert (be_val (ztake 4 p) = zlen f.(fr_payload)) as ->.
  { pose proof (enc_length f [] Hf) as He. rewrite app_nil_r, length_field in He.
    - injection He as He. rewrite <-Hx, ztake_app_le in He; [done|]. unfold _HEADER_SIZE in Hp. lia.
    - rewrite zlen_enc. pose proof (zlen_nonneg (fr_payload f)). unfold _HEADER_SIZE. lia. }
  cbv zeta. destruct (Z.ltb_spec MAX_FRAME_LEN (zlen (fr_payload f))); [lia|]. rewrite zlen_enc in Hl.
  destruct (Z.ltb_spec (zlen p) (_HEADER_SIZE + zlen (fr_payload f))); [done|lia].
Qed.

Lemma app_split_prefix {A} (a b c d : list A) : a ++ b = c ++ d → (length a < length c)%nat → ∃ x, a ++ x = c.
Proof.
  intros Heq Hl. exists (drop (length a) c).
  assert (a = take (length a) c) as Ha; [|by rewrite Ha at 1; rewrite take_drop].
  rewrite <-(take_app_le c d) by lia. rewrite <-Heq. by rewrite take_app_length.
Qed.
Lemma app_split_rest {A} (a b c d : list A) : a ++ b = c ++ d → (length c <= length a)%nat → ∃ x, a = c ++ x ∧ x ++ b = d.
Proof.
  intros Heq Hl. exists (drop (length c) a).
  assert (a = c ++ drop (length c) a) as Ha.
  { rewrite <-(take_drop (length c) a) at 1. f_equal. rewrite <-(take_app_le a b) by lia.
    rewrite Heq. by rewrite take_app_length. }
  split; [done|]. rewrite Ha, <-app_assoc in Heq. by apply app_inv_head in Heq.
Qed.

(** The thread with [buf] received and the bytes [more] to come: the frames
    that are complete are on the queue, what is left is a part of the next *)
Lemma drain_frames fuel fs rest : Forall ok_frame fs → next_frame _HEADER_SIZE rest = Short →
  ∀ st b buf more q, (b ++ buf) ++ more = concat (map enc fs) ++ rest → (length (b ++ buf) <= fuel)%nat →
  ∃ fs1 fs2 b', fs = fs1 ++ fs2 ∧ b' ++ more = concat (map enc fs2) ++ rest ∧ next_frame _HEADER_SIZE b' = Short ∧
    (frame ← rt_feed buf; drain fuel frame) (mkThread (mkReader st b) q) = (Ok (), mkThread (mkReader st b') (q ++ fs1)).
Proof.
  intros Hfs Hrest. revert fuel. induction Hfs as [|f fs Hf Hfs IH]; intros fuel st b buf more q Heq Hfuel.
  - exists [], [], (b ++ buf). cbn in Heq. rewrite (app_nil_r q).
    assert (next_frame _HEADER_SIZE (b ++ buf) = Short) as Hs by (apply (next_frame_short_prefix _ more); by rewrite Heq).
    split_and!; [done|done|done|]. unfold mbind, M_bind, rt_feed, zoom. cbn [rt_reader response_queue].
    rewrite feed_next, Hs. by destruct fuel.
  - cbn [map concat] in Heq. rewrite <-(app_assoc (enc f)) in Heq.
    destruct (decide (length (b ++ buf) < length (enc f))%nat) as [Hlt|Hge].
    + destruct (app_split_prefix _ _ _ _ Heq Hlt) as [x Hx].
      exists [], (f :: fs), (b ++ buf). cbn [map concat app]. rewrite (app_nil_r q), <-(app_assoc (enc f)), <-Heq.
      assert (next_frame _HEADER_SIZE (b ++ buf) = Short) as Hs by (apply (next_frame_short_enc _ f); [done|unfold zlen; lia|eauto]).
      split_and!; [done|done|done|]. unfold mbind, M_bind, rt_feed, zoom. cbn [rt_reader response_queue].
      rewrite feed_next, Hs. by destruct fuel.
    + destruct (app_split_rest _ _ _ _ Heq ltac:(lia)) as (x & Hx & Hx').
      assert (length (enc f) > 0)%nat as Hpos.
      { pose proof (zlen_enc f) as Hz. pose proof (zlen_nonneg (fr_payload f)). unfold zlen, _HEADER_SIZE in *. lia. }
      rewrite Hx, length_app in Hfuel. destruct fuel as [|fuel]; [lia|].
      destruct (IH fuel st x [] more (q ++ [f])) as (fs1 & fs2 & b' & -> & Hb' & Hs & Hrun);
        [by rewrite app_nil_r|rewrite app_nil_r; lia|].
      exists (f :: fs1), fs2, b'. split_and!; [done|done|done|].
      assert (rt_feed buf (mkThread (mkReader st b) q) = (Ok (Some f), mkThread (mkReader st x) q)) as Hfeed.
      { unfold rt_feed, zoom. cbn [rt_reader response_queue]. rewrite feed_next, Hx, next_frame_enc by (done || lia). done. }
      rewrite (run_Ok _ _ _ _ _ Hfeed). cbn [drain]. mrun. cbn [rt_reader response_queue]. rewrite Hrun.
      by rewrite <-app_assoc.
Qed.

Lemma recv_loop_frames (rest : bytes) (bufs : list bytes) : next_frame _HEADER_SIZE rest = Short → Forall (λ b, b ≠ []) bufs →
  ∀ b fs q, Forall ok_frame fs → next_frame _HEADER_SIZE b = Short → b ++ concat bufs = concat (map enc fs) ++ rest →
  recv_loop bufs (mkThread (mkReader None b) q) = (Ok (), mkThread (mkReader None rest) (q ++ fs)).
Proof.
  intros Hrest Hbufs. induction Hbufs as [|buf bufs Hbuf Hbufs IH]; intros b fs q Hfs Hb Hcat; cbn [recv_loop concat] in *.
  - rewrite app_nil_r in Hcat. destruct Hfs as [|f fs Hf Hfs]; [cbn in Hcat; subst; by rewrite app_nil_r|].
    cbn [map concat] in Hcat. by rewrite Hcat, <-app_assoc, next_frame_enc in Hb by (done || lia).
  - destruct buf as [|x buf]; [done|]. rewrite run_get. cbn [rt_reader rd_buffer].
    set (c := x :: buf) in *. rewrite app_assoc in Hcat.
    destruct (drain_frames (length b + length c) fs rest Hfs Hrest None b c (concat bufs) q Hcat) as
      (fs1 & fs2 & b' & -> & Hb' & Hs & Hrun); [by rewrite length_app|].
    apply Forall_app in Hfs as [_ Hfs2].
    rewrite <-run_assoc. rewrite (run_Ok _ _ _ _ _ Hrun). rewrite (IH b' fs2 (q ++ fs1)) by done. by rewrite app_assoc.
Qed.
Lemma reader_thread_frames (fs : list Frame) (rest : bytes) (bufs : list bytes) (q : list Frame) :
  Forall ok_frame fs → next_frame _HEADER_SIZE rest = Short → Forall (λ b, b ≠ []) bufs →
  concat bufs = concat (map enc fs) ++ rest →
  _reader_loop bufs (mkThread (mkReader None []) q) = (Ok (), mkThread (mkReader None rest) (q ++ fs)).
Proof.
  intros Hfs Hrest Hbufs Hcat. unfold _reader_loop, catch. by rewrite (recv_loop_frames rest bufs Hrest Hbufs [] fs q).
Qed.
(** However the bytes of well-formed frames are cut into pieces on their way,
    the reader thread puts exactly these frames on its queue, in order, and
    keeps the bytes of an unfinished last frame. *)
Theorem reader_loop_frames (fs : list Frame) (rest : bytes) (bufs : list bytes) (q : list Frame) :
  Forall ok_frame fs → next_frame _HEADER_SIZE rest = Short → Forall (λ b, b ≠ []) bufs →
  concat bufs = concat (map enc fs) ++ rest →
  _reader_loop bufs (mkThread (mkReader None []) q) = (Ok (), mkThread (mkReader None rest) (q ++ fs)).
Proof. apply reader_thread_frames. Qed.

Definition demo_frames : list Frame := [mkFrame 2 0x10 0 [x41; x42]; mkFrame 0 0xFE 0 []].
Lemma reader_loop_frames_witness :
  Forall ok_frame demo_frames ∧
  _reader_loop [[x00; x00]; [x00; x02; x10; x00; x41]; [x42; x00; x00; x00; x00; xfe; x00; x00]] (mkThread (mkReader None []) []) =
    (Ok (), mkThread (mkReader None [x00]) demo_frames).
Proof.
  assert (Forall ok_frame demo_frames) as H by (repeat constructor; vm_compute; done).
  split; [exact H|]. apply (reader_loop_frames demo_frames [x00]); [exact H|reflexivity|repeat constructor; done|reflexivity].
Defined.
Lemma reader_refines_witness :
  feed [x00; x02; x10; x00; x41; x42] (mkReader None [x00; x00]) = (Ok (Some (mkFrame 2 0x10 0 [x41; x42])), mkReader None []) ∧
  ∃ s' b', b' ++ s' = [x07] ∧
    read_frame (mkReader (Some [x00; x02; x10; x00; x41; x42; x07]) [x00; x00]) =
    (Ok (Some (mkFrame 2 0x10 0 [x41; x42])), mkReader (Some s') b').
Proof.
  split.
  - exact (proj1 (reader_refines (mkReader None [x00; x00]) [x00; x02; x10; x00; x41; x42] [])).
  - exact (proj2 (reader_refines (mkReader (Some [x00; x02; x10; x00; x41; x42; x07]) [x00; x00]) []
      [x00; x02; x10; x00; x41; x42; x07]) eq_refl).
Defined.
