(* ===== verification/PyConv.v ===== *)
(** The conversions of Python values that the wire protocol, the server and
    the executor apply: [str(v)], [int(v)], [float(v)], [bool(v)].  The texts of
    the objects of the standard library ([repr] of a float, [str] of a Decimal or
    a date) and the numbers that texts denote are parameters. *)
From S2P Require Import Prelude.
From S2P Require Import Bytes.
From S2P Require Import Utf8.
From S2P Require Import Text.
From S2P Require Import Float64.
From S2P Require Import TypeSys.
From S2P Require Import Codec.
From Stdlib Require Import ZArith.
Local Open Scope Z_scope.

Class PyConv := {
  (** [str(v)] of a float, bytes, a date, a Decimal, a container *)
  str_other : pyval → result pystr;
  (** [int(v)] and [float(v)] of a text or of an object that is no number *)
  int_other : pyval → result Z;
  float_other : pyval → result Z;
}.

Section PyConv.
Context `{PyConv}.

Definition py_str (v : pyval) : result pystr :=
  match v with
  | PyStr s => Ok s
  | PyInt z => Ok (str_of_Z z)
  | PyBool b => Ok (if b then u "True" else u "False")
  | PyNone => Ok (u "None")
  | _ => str_other v
  end.

Definition int_of_decimal (d : pydecimal) : result Z :=
  match d with
  | DFinite neg coef exp =>
      let n := if 0 <=? exp then coef * 10 ^ exp else coef / 10 ^ (- exp) in
      Ok (if neg : bool then - n else n)
  | DInfinity _ => Err OverflowError
  | DNaN _ _ _ => Err ValueError
  end.
Definition py_int (v : pyval) : result Z :=
  match v with
  | PyInt z => Ok z
  | PyBool b => Ok (Z.b2z b)
  | PyFloat w => int_of_float w
  | PyDecimal d => int_of_decimal d
  | _ => int_other v
  end.

Definition py_float (v : pyval) : result Z :=
  match v with
  | PyFloat w => Ok w
  | PyInt z => float_of_Z z
  | PyBool b => float_of_Z (Z.b2z b)
  | PyDecimal d => float_of_decimal d
  | _ => float_other v
  end.
End PyConv.

(** [bool(v)] *)
Definition py_truth (v : pyval) : bool :=
  match v with
  | PyNone => false
  | PyBool b => b
  | PyInt z => negb (z =? 0)
  | PyFloat w => match sf_of_bits w with S754_zero _ => false | _ => true end
  | PyStr s => match s with [] => false | _ => true end
  | PyBytes b | PyBytearray b => match b with [] => false | _ => true end
  | PyDecimal (DFinite _ coef _) => negb (coef =? 0)
  | PyList l | PyTuple l | PySet l => match l with [] => false | _ => true end
  | PyDict l => match l with [] => false | _ => true end
  | PyDate _ | PyTime _ _ _ _ | PyDatetime _ _ | PyDecimal _ | PyTypedLiteral _ _ => true
  end.
