(* ===== verification/Messages.v ===== *)
(** Components [protocol/messages.py] and [protocol/handshake.py]: the twelve
    messages, their frames, and the decoder for untrusted payloads. *)
From S2P Require Import Prelude.
From S2P Require Import Bytes.
From S2P Require Import Utf8.
From S2P Require Import Text.
From S2P Require Import Float64.
From S2P Require Import TypeSys.
From S2P Require Import Codec.
From S2P Require Import PyConv.
From S2P Require Import Protocol.
From Stdlib Require Import ZArith Lia.
Local Open Scope Z_scope.

Definition MAX_PARAMS : Z := 1024.
Definition MAX_CLIENT_ID : Z := 64.
Definition MAX_SQL_LEN : Z := 2 ^ 20.
Definition MAX_ERR_MSG_LEN : Z := 2 ^ 16.

Definition _require (payload : bytes) (need : Z) : result unit :=
  ensure (negb (zlen payload <? need)) FrameTruncatedError.

(** * Type codes *)

Inductive MessageType :=
  | HELLO | OK | ERR | QUERY | EXEC | RESULT_HEADER | RESULT_ROW | RESULT_DONE
  | RESULT_ERROR | PING | PONG | QUIT.
#[global] Instance MessageType_eq_dec : EqDecision MessageType.
Proof. solve_decision. Defined.
Definition type_value (t : MessageType) : Z :=
  match t with
  | HELLO => 0x01 | OK => 0x02 | ERR => 0x03 | QUERY => 0x10 | EXEC => 0x11
  | RESULT_HEADER => 0x20 | RESULT_ROW => 0x21 | RESULT_DONE => 0x22 | RESULT_ERROR => 0x23
  | PING => 0x30 | PONG => 0x31 | QUIT => 0xFE
  end.
Definition all_message_types : list MessageType :=
  [HELLO; OK; ERR; QUERY; EXEC; RESULT_HEADER; RESULT_ROW; RESULT_DONE; RESULT_ERROR; PING; PONG; QUIT].
Definition MessageType_of (b : Z) : result MessageType :=
  of_option ValueError (list_find (λ t, type_value t = b) all_message_types ≫= λ p, Some p.2).

Inductive ParamType := P_NULL | P_INT64 | P_FLOAT64 | P_STRING | P_BOOL.
#[global] Instance ParamType_eq_dec : EqDecision ParamType.
Proof. solve_decision. Defined.
Definition ptype_value (t : ParamType) : Z :=
  match t with P_NULL => 0 | P_INT64 => 1 | P_FLOAT64 => 2 | P_STRING => 3 | P_BOOL => 4 end.
Definition all_param_types : list ParamType := [P_NULL; P_INT64; P_FLOAT64; P_STRING; P_BOOL].
Definition ParamType_of (b : Z) : result ParamType :=
  of_option ValueError (list_find (λ t, ptype_value t = b) all_param_types ≫= λ p, Some p.2).

(** * Messages *)

Record Param := mkParam { pa_type : ParamType; pa_value : pyval }.

Inductive message :=
  | Hello (client : pystr)
  | OkMsg (version : pystr)
  | ErrMsg (code msg : pystr)
  | Query (sql : pystr)
  | Exec (sql : pystr) (params : list Param)
  | ResultHeader (columns : list (pystr * Z))
  | ResultRow (values : list pyval)
  | ResultDone (rowcount last_insert_id status_flags : Z)
  | ResultError (code msg : pystr)
  | Ping (ts : Z)
  | Pong (ts : Z)
  | Quit.

(** The constructors that validate *)
Definition new_Hello (client : pystr) : result message :=
  encoded ← utf8_encode client;
  if MAX_CLIENT_ID <? zlen encoded then Err ValueError else Ok (Hello client).
Definition new_Exec (sql : pystr) (params : list Param) : result message :=
  if MAX_PARAMS <? zlen params then Err ValueError else Ok (Exec sql params).

(** [s.encode("ascii")] and [b.decode("ascii")] *)
Definition ascii_encode (s : pystr) : result bytes :=
  mapR (λ c, if (0 <=? c) && (c <? 128) then Ok (byte_of_Z c) else Err UnicodeError) s.
Definition ascii_decode (b : bytes) : result pystr :=
  mapR (λ x, if Z_of_byte x <? 128 then Ok (Z_of_byte x) else Err UnicodeError) b.

(** [Frame(type=t, payload=p)] *)
Definition typed_frame (t : MessageType) (payload : bytes) : result Frame :=
  new_frame 0 (type_value t) 0 payload.

Section Messages.
Context `{PyConv}.

(** ** Encoding *)

(** One value: its type byte, the length and the data *)
Definition put_value (t : ParamType) (data : bytes) : result bytes :=
  len ← pack_ube 4 (zlen data); Ok (byte_of_Z (ptype_value t) :: len ++ data).
Definition truth_byte (b : bool) : byte := if b then x01 else x00.

(** The loop of [Exec.to_frame] *)
Definition put_param (p : Param) : result bytes :=
  match p.(pa_type) with
  | P_NULL => put_value P_NULL []
  | P_INT64 => z ← py_int p.(pa_value); d ← pack_sbe 8 z; put_value P_INT64 d
  | P_FLOAT64 => w ← py_float p.(pa_value); put_value P_FLOAT64 (be_bytes 8 w)
  | P_STRING => s ← py_str p.(pa_value); d ← utf8_encode s; put_value P_STRING d
  | P_BOOL => put_value P_BOOL [truth_byte (py_truth p.(pa_value))]
  end.
(** The loop of [ResultRow.to_frame] *)
Definition put_row_value (v : pyval) : result bytes :=
  match v with
  | PyNone => put_value P_NULL []
  | PyBool b => put_value P_BOOL [truth_byte b]
  | PyInt z => d ← pack_sbe 8 z; put_value P_INT64 d
  | PyFloat w => put_value P_FLOAT64 (be_bytes 8 w)
  | PyStr s => d ← utf8_encode s; put_value P_STRING d
  | _ => s ← py_str v; d ← utf8_encode s; put_value P_STRING d
  end.
(** The loop of [ResultHeader.to_frame]; [bytearray.append] takes a byte *)
Definition put_column (c : pystr * Z) : result bytes :=
  let '(name, type_code) := c in
  encoded ← utf8_encode name;
  n ← byte_list [zlen encoded];
  t ← byte_list [type_code];
  Ok (n ++ encoded ++ t).

(** [code + struct.pack(">H", len(msg)) + msg], of ERR and RESULT_ERROR *)
Definition put_error (code msg : pystr) : result bytes :=
  code ← ascii_encode code;
  msg ← utf8_encode msg;
  len ← pack_ube 2 (zlen msg);
  Ok (code ++ len ++ msg).

Definition to_frame (m : message) : result Frame :=
  match m with
  | Hello client => p ← utf8_encode client; typed_frame HELLO p
  | OkMsg version => p ← utf8_encode version; typed_frame OK p
  | ErrMsg code msg => p ← put_error code msg; typed_frame ERR p
  | Query sql => p ← utf8_encode sql; typed_frame QUERY p
  | Exec sql params =>
      sql_bytes ← utf8_encode sql;
      len ← pack_ube 4 (zlen sql_bytes);
      count ← pack_ube 2 (zlen params);
      body ← mapR put_param params;
      typed_frame EXEC (len ++ sql_bytes ++ count ++ concat body)
  | ResultHeader columns =>
      count ← pack_ube 2 (zlen columns);
      body ← mapR put_column columns;
      typed_frame RESULT_HEADER (count ++ concat body)
  | ResultRow values =>
      count ← pack_ube 2 (zlen values);
      body ← mapR put_row_value values;
      typed_frame RESULT_ROW (count ++ concat body)
  | ResultDone rowcount last_insert_id status_flags =>
      a ← pack_sbe 8 rowcount; b ← pack_sbe 8 last_insert_id; c ← byte_list [status_flags];
      typed_frame RESULT_DONE (a ++ b ++ c)
  | ResultError code msg => p ← put_error code msg; typed_frame RESULT_ERROR p
  | Ping ts => p ← pack_ube 8 ts; typed_frame PING p
  | Pong ts => p ← pack_ube 8 ts; typed_frame PONG p
  | Quit => typed_frame QUIT []
  end.

(** [Done.to_frame] *)
Definition done_to_frame (rowcount last_insert_id status_flags : Z) : result Frame :=
  to_frame (ResultDone rowcount last_insert_id status_flags).
End Messages.

(** ** Decoding *)

(** [struct.unpack(">H", payload[a:a+n])] *)
Definition unpack_slice (n : nat) (payload : bytes) (a : Z) : result Z :=
  unpack_ube n (slice payload a (a + Z.of_nat n)) 0.

Definition hello_from_frame (frame : Frame) : result message :=
  if MAX_CLIENT_ID <? zlen frame.(fr_payload) then Err ValueError else
  client ← utf8_decode frame.(fr_payload); new_Hello client.
Definition query_from_frame (frame : Frame) : result message :=
  if MAX_SQL_LEN <? zlen frame.(fr_payload) then Err ValueError else
  sql ← utf8_decode frame.(fr_payload); Ok (Query sql).
(** [Err.from_frame] and [ResultError.from_frame] *)
Definition error_from_frame (mk : pystr → pystr → message) (frame : Frame) : result message :=
  let payload := frame.(fr_payload) in
  _ ← _require payload 7;
  code ← ascii_decode (slice payload 0 5);
  msg_len ← unpack_slice 2 payload 5;
  if MAX_ERR_MSG_LEN <? msg_len then Err ValueError else
  _ ← _require payload (7 + msg_len);
  msg ← utf8_decode (slice payload 7 (7 + msg_len));
  Ok (mk code msg).

(** The type, the data and the offset after one value *)
Definition get_value (payload : bytes) (offset : Z) : result (ParamType * bytes * Z) :=
  _ ← _require payload (offset + 5);
  tb ← byte_at payload offset;
  ptype ← ParamType_of tb;
  let offset := offset + 1 in
  plen ← unpack_slice 4 payload offset;
  let offset := offset + 4 in
  _ ← _require payload (offset + plen);
  Ok (ptype, slice payload offset (offset + plen), offset + plen).
(** The value in [plen = len(data)] bytes; only a row checks the length of
    a NULL *)
Definition value_of (row : bool) (ptype : ParamType) (data : bytes) : result pyval :=
  let plen := zlen data in
  match ptype with
  | P_NULL => if row && negb (plen =? 0) then Err ValueError else Ok PyNone
  | P_INT64 => if negb (plen =? 8) then Err ValueError else z ← unpack_sbe 8 data 0; Ok (PyInt z)
  | P_FLOAT64 => if negb (plen =? 8) then Err ValueError else w ← unpack_ube 8 data 0; Ok (PyFloat w)
  | P_STRING => s ← utf8_decode data; Ok (PyStr s)
  | P_BOOL => if negb (plen =? 1) then Err ValueError else b ← byte_at data 0; Ok (PyBool (negb (b =? 0)))
  end.
Fixpoint get_values (row : bool) (count : nat) (payload : bytes) (offset : Z) : result (list Param) :=
  match count with
  | O => Ok []
  | S count =>
      '(ptype, data, offset) ← get_value payload offset;
      v ← value_of row ptype data;
      rest ← get_values row count payload offset;
      Ok (mkParam ptype v :: rest)
  end.

Definition exec_from_frame (frame : Frame) : result message :=
  let payload := frame.(fr_payload) in
  _ ← _require payload 4;
  sql_len ← unpack_slice 4 payload 0;
  if MAX_SQL_LEN <? sql_len then Err ValueError else
  _ ← _require payload (4 + sql_len + 2);
  sql ← utf8_decode (slice payload 4 (4 + sql_len));
  let offset := 4 + sql_len in
  param_count ← unpack_slice 2 payload offset;
  if MAX_PARAMS <? param_count then Err ValueError else
  params ← get_values false (Z.to_nat param_count) payload (offset + 2);
  new_Exec sql params.

Definition get_column (payload : bytes) (offset : Z) : result (pystr * Z * Z) :=
  _ ← _require payload (offset + 2);
  name_len ← byte_at payload offset;
  let offset := offset + 1 in
  _ ← _require payload (offset + name_len + 1);
  name ← utf8_decode (slice payload offset (offset + name_len));
  let offset := offset + name_len in
  type_code ← byte_at payload offset;
  Ok (name, type_code, offset + 1).
Fixpoint get_columns (count : nat) (payload : bytes) (offset : Z) : result (list (pystr * Z)) :=
  match count with
  | O => Ok []
  | S count =>
      '(name, type_code, offset) ← get_column payload offset;
      cols ← get_columns count payload offset;
      Ok ((name, type_code) :: cols)
  end.
Definition header_from_frame (frame : Frame) : result message :=
  let payload := frame.(fr_payload) in
  _ ← _require payload 2;
  count ← unpack_slice 2 payload 0;
  cols ← get_columns (Z.to_nat count) payload 2;
  Ok (ResultHeader cols).
Definition row_from_frame (frame : Frame) : result message :=
  let payload := frame.(fr_payload) in
  _ ← _require payload 2;
  count ← unpack_slice 2 payload 0;
  values ← get_values true (Z.to_nat count) payload 2;
  Ok (ResultRow (map pa_value values)).
Definition done_from_frame (frame : Frame) : result message :=
  let payload := frame.(fr_payload) in
  _ ← _require payload 17;
  rowcount ← unpack_sbe 8 (slice payload 0 8) 0;
  last_insert_id ← unpack_sbe 8 (slice payload 8 16) 0;
  status_flags ← byte_at payload 16;
  Ok (ResultDone rowcount last_insert_id status_flags).
(** [struct.unpack(">Q", payload)] wants exactly eight bytes *)
Definition ts_from_frame (mk : Z → message) (frame : Frame) : result message :=
  let payload := frame.(fr_payload) in
  _ ← _require payload 8;
  if negb (zlen payload =? 8) then Err StructError else
  ts ← unpack_ube 8 payload 0; Ok (mk ts).

(** [_DISPATCH[t].from_frame] *)
Definition from_frame (t : MessageType) (frame : Frame) : result message :=
  match t with
  | HELLO => hello_from_frame frame
  | OK => version ← utf8_decode frame.(fr_payload); Ok (OkMsg version)
  | ERR => error_from_frame ErrMsg frame
  | QUERY => query_from_frame frame
  | EXEC => exec_from_frame frame
  | RESULT_HEADER => header_from_frame frame
  | RESULT_ROW => row_from_frame frame
  | RESULT_DONE => done_from_frame frame
  | RESULT_ERROR => error_from_frame ResultError frame
  | PING => ts_from_frame Ping frame
  | PONG => ts_from_frame Pong frame
  | QUIT => Ok Quit
  end.
Definition decode_message (frame : Frame) : result message :=
  t ← MessageType_of frame.(fr_type); from_frame t frame.

(** ** The handshake *)

Definition DEFAULT_CLIENT_ID : pystr := u "py-tinydb-0.3.1".
Definition DEFAULT_SERVER_VERSION : pystr := u "tinydb-0.3.1".
Definition perform_client_handshake (client_id : pystr) : result message :=
  encoded ← utf8_encode client_id;
  if MAX_CLIENT_ID <? zlen encoded then Err ValueError else new_Hello client_id.
Definition perform_server_handshake (hello : message) : message := OkMsg DEFAULT_SERVER_VERSION.

(** * Reading what was written *)

Lemma require_ok payload need : need <= zlen payload → _require payload need = Ok ().
Proof. intros H. unfold _require, ensure. by destruct (Z.ltb_spec (zlen payload) need); [lia|]. Qed.
Lemma unpack_slice_middle n pre z post a :
  a = zlen pre → 0 <= z < 2 ^ (8 * Z.of_nat n) → unpack_slice n (pre ++ be_bytes n z ++ post) a = Ok z.
Proof.
  intros -> Hz. unfold unpack_slice. rewrite slice_middle by (rewrite ?zlen_be_bytes; done).
  rewrite <-(app_nil_r (be_bytes n z)). by apply (unpack_ube_middle n []).
Qed.
Lemma read_at_whole n d : zlen d = Z.of_nat n → read_at n d 0 = Ok d.
Proof. intros Hd. pose proof (read_at_middle n [] d [] 0 eq_refl Hd) as H. by rewrite app_nil_r in H. Qed.
Lemma unpack_slice_0 n z post : 0 <= z < 2 ^ (8 * Z.of_nat n) → unpack_slice n (be_bytes n z ++ post) 0 = Ok z.
Proof. by apply (unpack_slice_middle n []). Qed.
Lemma byte_at_mid pre b post a : a = zlen pre → byte_at (pre ++ b :: post) a = Ok (Z_of_byte b).
Proof. intros ->. by rewrite byte_at_app by (done || apply zlen_nonneg). Qed.

Lemma slice_suffix (pre d : bytes) a b : a = zlen pre → b = zlen pre + zlen d → slice (pre ++ d) a b = d.
Proof. intros Ha Hb. pose proof (slice_middle pre d [] a b Ha Hb) as H. by rewrite app_nil_r in H. Qed.
Lemma MessageType_of_value t : MessageType_of (type_value t) = Ok t.
Proof. by destruct t. Qed.
Lemma ParamType_of_value t : ParamType_of (ptype_value t) = Ok t.
Proof. by destruct t. Qed.
Lemma ptype_byte t : Z_of_byte (byte_of_Z (ptype_value t)) = ptype_value t.
Proof. by destruct t. Qed.

Lemma byte_list_inv z bs : byte_list [z] = Ok bs → bs = [byte_of_Z z] ∧ 0 <= z < 256.
Proof.
  unfold byte_list. cbn. destruct (is_byte z) eqn:Hz; [|done]. intros [= <-]. split; [done|]. by apply is_byte_true.
Qed.
Lemma pack_ube_inv n z d : pack_ube n z = Ok d → d = be_bytes n z ∧ 0 <= z < 2 ^ (8 * Z.of_nat n).
Proof. unfold pack_ube. destruct (fits_u n z) eqn:Hz; [|done]. intros [= <-]. split; [done|]. by apply fits_u_true. Qed.
Lemma pack_sbe_inv n z d : pack_sbe n z = Ok d →
  d = be_bytes n z ∧ - 2 ^ (8 * Z.of_nat n - 1) <= z < 2 ^ (8 * Z.of_nat n - 1).
Proof. unfold pack_sbe. destruct (fits_s n z) eqn:Hz; [|done]. intros [= <-]. split; [done|]. by apply fits_s_true. Qed.

Lemma get_value_put t data bs pre post : put_value t data = Ok bs →
  get_value (pre ++ bs ++ post) (zlen pre) = Ok (t, data, zlen pre + zlen bs).
Proof.
  unfold put_value. intros H. inv_ok. apply pack_ube_inv in Hok as [-> Hd]. pose proof (zlen_nonneg data). pose proof (zlen_nonneg post).
  unfold get_value. cbn [app]. rewrite require_ok, bind_Ok by (autorewrite with py; lia).
  rewrite byte_at_mid, bind_Ok by done. rewrite ptype_byte, ParamType_of_value, bind_Ok. cbv zeta.
  change (?b :: (be_bytes 4 (zlen data) ++ data) ++ post) with ([b] ++ (be_bytes 4 (zlen data) ++ data) ++ post).
  rewrite app_assoc, <-(app_assoc (be_bytes 4 _)).
  rewrite unpack_slice_middle, bind_Ok by (autorewrite with py; lia).
  rewrite require_ok, bind_Ok by (autorewrite with py; lia).
  rewrite (app_assoc _ (be_bytes 4 _)). rewrite slice_middle by (autorewrite with py; lia).
  f_equal. f_equal. autorewrite with py. lia.
Qed.

Section RoundTrip.
Context `{PyConv}.

(** The 64-bit word itself, for the word of a float *)
Definition word64 (w : Z) : Z := w mod 2 ^ 64.
(** What the peer reads for a parameter, and for a value of a row: the value
    converted to the type it is sent as *)
Definition wire_param (p : Param) : result Param :=
  v ← match p.(pa_type) with
      | P_NULL => Ok PyNone
      | P_INT64 => PyInt <$> py_int p.(pa_value)
      | P_FLOAT64 => (PyFloat ∘ word64) <$> py_float p.(pa_value)
      | P_STRING => PyStr <$> py_str p.(pa_value)
      | P_BOOL => Ok (PyBool (py_truth p.(pa_value)))
      end;
  Ok (mkParam p.(pa_type) v).
Definition wire_value (v : pyval) : result Param :=
  match v with
  | PyNone => Ok (mkParam P_NULL PyNone)
  | PyBool b => Ok (mkParam P_BOOL v)
  | PyInt z => Ok (mkParam P_INT64 v)
  | PyFloat w => Ok (mkParam P_FLOAT64 (PyFloat (word64 w)))
  | _ => s ← py_str v; Ok (mkParam P_STRING (PyStr s))
  end.

Lemma value_int_whole z : - 2 ^ (8 * Z.of_nat 8 - 1) <= z < 2 ^ (8 * Z.of_nat 8 - 1) → unpack_sbe 8 (be_bytes 8 z) 0 = Ok z.
Proof.
  intros Hz. unfold unpack_sbe. rewrite read_at_whole by (by rewrite zlen_be_bytes). cbn [fmap result_fmap].
  unfold compose, be_val, be_bytes. by rewrite reverse_involutive, to_signed_le_bytes by (done || lia).
Qed.
Lemma value_of_int row z d : pack_sbe 8 z = Ok d → value_of row P_INT64 d = Ok (PyInt z).
Proof.
  intros [-> Hz]%pack_sbe_inv. unfold value_of. rewrite zlen_be_bytes. cbn [negb Z.eqb].
  by rewrite value_int_whole.
Qed.
Lemma value_of_float row w : value_of row P_FLOAT64 (be_bytes 8 w) = Ok (PyFloat (word64 w)).
Proof.
  unfold value_of, word64. rewrite zlen_be_bytes. cbn [negb Z.eqb]. unfold unpack_ube.
  rewrite read_at_whole by (by rewrite zlen_be_bytes).
  cbn [fmap result_fmap mbind result_bind]. unfold be_val, be_bytes. by rewrite reverse_involutive, le_val_le_bytes.
Qed.
Lemma value_of_str row s d : utf8_encode s = Ok d → value_of row P_STRING d = Ok (PyStr s).
Proof. intros Hd. unfold value_of. by rewrite (utf8_decode_encode s d Hd). Qed.
Lemma value_of_bool row b : value_of row P_BOOL [truth_byte b] = Ok (PyBool b).
Proof. by destruct b. Qed.

(** A writer of one value, and the value its reader finds *)
Definition written (row : bool) {A} (put : A → result bytes) (wire : A → result Param) : Prop :=
  ∀ a bs, put a = Ok bs → ∃ t data v,
    put_value t data = Ok bs ∧ value_of row t data = Ok v ∧ wire a = Ok (mkParam t v).
Lemma written_param : written false put_param wire_param.
Proof.
  intros [t v] bs. unfold put_param, wire_param. cbn [pa_type pa_value]. intros Hp. destruct t; cbn [mbind result_bind].
  - by exists P_NULL, [], PyNone.
  - inv_ok. rewrite Hok. eexists P_INT64, _, _. split_and!; [done|by apply value_of_int|done].
  - inv_ok. rewrite Hok. eexists P_FLOAT64, _, _. split_and!; [done|apply value_of_float|done].
  - inv_ok. rewrite Hok. eexists P_STRING, _, _. split_and!; [done|by apply value_of_str|done].
  - eexists P_BOOL, _, _. split_and!; [done|apply value_of_bool|done].
Qed.
Lemma written_row : written true put_row_value wire_value.
Proof.
  intros v bs Hp. destruct v; cbn [put_row_value wire_value] in *;
    try (inv_ok; match goal with H : py_str _ = Ok _ |- _ => rewrite H end;
         eexists P_STRING, _, _; split_and!; [done|by apply value_of_str|done]).
  - by eexists P_NULL, [], _.
  - eexists P_BOOL, _, _. split_and!; [done|apply value_of_bool|done].
  - inv_ok. eexists P_INT64, _, _. split_and!; [done|by apply value_of_int|done].
  - eexists P_FLOAT64, _, _. split_and!; [done|apply value_of_float|done].
  - inv_ok. eexists P_STRING, _, _. split_and!; [done|by apply value_of_str|done].
Qed.
Lemma get_values_put row {A} (put : A → result bytes) wire : written row put wire →
  ∀ (l : list A) body pre post, mapR put l = Ok body →
  ∃ ps, mapR wire l = Ok ps ∧
    get_values row (length l) (pre ++ concat body ++ post) (zlen pre) = Ok ps.
Proof.
  intros Hw. induction l as [|a l IH]; intros body pre post Hb; cbn [mapR] in Hb; inv_ok; [by exists []|].
  destruct (Hw a _ Hok) as (t & data & v & Hput & Hval & Hwire).
  destruct (IH a1 (pre ++ a0) post Hok0) as (ps & Hps & Hget).
  exists (mkParam t v :: ps). cbn [mapR]. rewrite Hwire, Hps. split; [done|].
  cbn [length get_values concat]. rewrite <-app_assoc, (get_value_put t data a0 pre _ Hput).
  cbn [mbind result_bind]. rewrite Hval. cbn [mbind result_bind].
  rewrite zlen_app, <-app_assoc in Hget. by rewrite Hget.
Qed.
End RoundTrip.

(** ** Whole messages *)

Lemma zlen_length {A} (l : list A) : Z.to_nat (zlen l) = length l.
Proof. unfold zlen. lia. Qed.
Lemma new_frame_typed t payload : ∃ f, typed_frame t payload = Ok f ∧ f.(fr_type) = type_value t ∧ f.(fr_payload) = payload.
Proof.
  unfold typed_frame, new_frame.
  assert ((type_value t <? 0) || (255 <? type_value t) = false) as -> by (by destruct t). cbn [orb Z.ltb Z.compare].
  assert (MAX_FRAME_LEN <? 0 = false) as -> by done. cbn [Z.eqb andb].
  destruct payload as [|b payload]; [by eexists|]. rewrite bool_decide_true by done. by eexists.
Qed.
Lemma typed_frame_inv t payload f : typed_frame t payload = Ok f → f.(fr_type) = type_value t ∧ f.(fr_payload) = payload.
Proof. destruct (new_frame_typed t payload) as (f' & Hf & ? & ?). rewrite Hf. by intros [= <-]. Qed.
Lemma decode_typed t payload f : typed_frame t payload = Ok f → decode_message f = from_frame t f.
Proof. intros [Ht _]%typed_frame_inv. unfold decode_message. by rewrite Ht, MessageType_of_value. Qed.

Lemma ascii_encode_decode s bs : ascii_encode s = Ok bs → ascii_decode bs = Ok s ∧ zlen bs = zlen s.
Proof.
  unfold ascii_encode, ascii_decode. revert bs. induction s as [|c s IH]; intros bs Hs; cbn [mapR] in Hs; inv_ok; [done|].
  destruct ((0 <=? c) && (c <? 128)) eqn:Hc; [|done]. inv_ok. bool_to_prop. destruct (IH _ Hok0) as [Hd Hl].
  cbn [mapR]. rewrite Z_of_byte_of_Z_small by lia. destruct (Z.ltb_spec c 128); [|lia].
  cbn [mbind result_bind] in *. rewrite Hd, !zlen_cons, Hl. done.
Qed.
Lemma error_put mk code msg p t f : put_error code msg = Ok p → typed_frame t p = Ok f → zlen code = 5 →
  error_from_frame mk f = Ok (mk code msg).
Proof.
  unfold put_error. intros Hp Hf Hc. inv_ok. apply typed_frame_inv in Hf as [_ Hf].
  destruct (ascii_encode_decode _ _ Hok) as [Hd Hl]. apply pack_ube_inv in Hok1 as [-> Hlen].
  unfold error_from_frame. rewrite Hf. pose proof (zlen_nonneg a0).
  rewrite require_ok, bind_Ok by (autorewrite with py; lia). rewrite slice_prefix, Hd, bind_Ok by lia.
  rewrite unpack_slice_middle, bind_Ok by lia.
  destruct (Z.ltb_spec MAX_ERR_MSG_LEN (zlen a0)); [unfold MAX_ERR_MSG_LEN in *; lia|].
  rewrite require_ok, bind_Ok by (autorewrite with py; lia).
  rewrite app_assoc, slice_suffix by (autorewrite with py; lia).
  by rewrite (utf8_decode_encode _ _ Hok0).
Qed.

Lemma get_column_put c bs pre post : put_column c = Ok bs →
  get_column (pre ++ bs ++ post) (zlen pre) = Ok (c.1, c.2, zlen pre + zlen bs).
Proof.
  destruct c as [name code]. unfold put_column. intros H. inv_ok.
  apply byte_list_inv in Hok0 as [-> Hn], Hok1 as [-> Hc]. pose proof (zlen_nonneg post).
  unfold get_column. rewrite require_ok, bind_Ok by (autorewrite with py; lia). cbn [app].
  rewrite byte_at_mid, bind_Ok by done. rewrite Z_of_byte_of_Z_small by lia. cbv zeta.
  rewrite require_ok, bind_Ok by (autorewrite with py; lia).
  change (?b :: (a ++ [?c]) ++ post) with ([b] ++ (a ++ [c]) ++ post). rewrite <-(app_assoc a), (app_assoc pre).
  rewrite slice_middle by (autorewrite with py; lia). rewrite (utf8_decode_encode _ _ Hok), bind_Ok.
  cbn [app]. rewrite (app_assoc (pre ++ _) a), byte_at_mid, bind_Ok by (autorewrite with py; lia).
  rewrite Z_of_byte_of_Z_small by lia. cbn [fst snd]. f_equal. f_equal. autorewrite with py. lia.
Qed.
Lemma get_columns_put l : ∀ body pre post, mapR put_column l = Ok body →
  get_columns (length l) (pre ++ concat body ++ post) (zlen pre) = Ok l.
Proof.
  induction l as [|c l IH]; intros body pre post Hb; cbn [mapR] in Hb; inv_ok; [done|].
  cbn [length get_columns concat]. rewrite <-app_assoc, (get_column_put c a pre _ Hok).
  cbn [mbind result_bind]. pose proof (IH a0 (pre ++ a) post Hok0) as Hget.
  rewrite zlen_app, <-app_assoc in Hget. rewrite Hget. by destruct c.
Qed.

Section MessageRoundTrip.
Context `{PyConv}.

(** The bounds that the decoder of the peer checks and the encoder does not,
    and the bounds of the constructors *)
Definition sql_fits (sql : pystr) : Prop := ∀ b, utf8_encode sql = Ok b → zlen b <= MAX_SQL_LEN.
Definition acceptable (m : message) : Prop :=
  match m with
  | Hello client => new_Hello client = Ok m
  | Query sql => sql_fits sql
  | Exec sql params => sql_fits sql ∧ zlen params <= MAX_PARAMS
  | ErrMsg code _ | ResultError code _ => zlen code = 5
  | _ => True
  end.
(** The message the peer receives *)
Definition wire (m : message) : result message :=
  match m with
  | Exec sql params => ps ← mapR wire_param params; Ok (Exec sql ps)
  | ResultRow values => ps ← mapR wire_value values; Ok (ResultRow (map pa_value ps))
  | _ => Ok m
  end.

Lemma exec_put sql params f : sql_fits sql → zlen params <= MAX_PARAMS → to_frame (Exec sql params) = Ok f →
  ∃ ps, mapR wire_param params = Ok ps ∧ exec_from_frame f = Ok (Exec sql ps).
Proof.
  intros Hsql Hps. unfold to_frame. intros Hf. inv_ok. rename a into sb, a2 into body. specialize (Hsql _ Hok).
  apply pack_ube_inv in Hok0 as [-> Hl], Hok1 as [-> Hn]. apply typed_frame_inv in Hf as [_ Hf].
  set (pre := be_bytes 4 (zlen sb) ++ sb ++ be_bytes 2 (zlen params)).
  destruct (get_values_put false put_param wire_param written_param params body pre [] Hok2) as (ps & Hw & Hget).
  exists ps. split; [done|]. unfold exec_from_frame. rewrite Hf.
  pose proof (zlen_nonneg (concat body)).
  rewrite require_ok, bind_Ok by (autorewrite with py; pose proof (zlen_nonneg sb); lia).
  rewrite unpack_slice_0, bind_Ok by done.
  destruct (Z.ltb_spec MAX_SQL_LEN (zlen sb)); [lia|].
  rewrite require_ok, bind_Ok by (autorewrite with py; lia). rewrite slice_middle by (autorewrite with py; lia).
  rewrite (utf8_decode_encode _ _ Hok), bind_Ok. cbv zeta.
  rewrite (app_assoc (be_bytes 4 _)), unpack_slice_middle, bind_Ok by (autorewrite with py; lia).
  destruct (Z.ltb_spec MAX_PARAMS (zlen params)); [lia|]. rewrite zlen_length.
  replace (4 + zlen sb + 2) with (zlen pre) by (unfold pre; autorewrite with py; lia).
  rewrite app_nil_r in Hget. unfold pre in *. rewrite <-!app_assoc in *. rewrite Hget, bind_Ok. unfold new_Exec.
  assert (length ps = length params) as Hlen.
  { clear -Hw. revert ps Hw. induction params as [|p l IH]; intros ps Hw; cbn [mapR] in Hw; inv_ok; [done|].
    cbn. f_equal. by apply IH. }
  unfold zlen in *. rewrite Hlen. by destruct (Z.ltb_spec MAX_PARAMS (Z.of_nat (length params))); [lia|].
Qed.
Lemma header_put columns f : to_frame (ResultHeader columns) = Ok f → header_from_frame f = Ok (ResultHeader columns).
Proof.
  unfold to_frame. intros Hf. inv_ok. apply pack_ube_inv in Hok as [-> Hn]. apply typed_frame_inv in Hf as [_ Hf].
  unfold header_from_frame. rewrite Hf. pose proof (zlen_nonneg (concat a0)).
  rewrite require_ok, bind_Ok by (autorewrite with py; lia).
  rewrite unpack_slice_0, bind_Ok by done. rewrite zlen_length.
  pose proof (get_columns_put columns a0 (be_bytes 2 (zlen columns)) [] Hok0) as Hget.
  rewrite app_nil_r, zlen_be_bytes in Hget. change (Z.of_nat 2) with 2 in Hget. by rewrite Hget.
Qed.
Lemma row_put values f : to_frame (ResultRow values) = Ok f →
  ∃ ps, mapR wire_value values = Ok ps ∧ row_from_frame f = Ok (ResultRow (map pa_value ps)).
Proof.
  unfold to_frame. intros Hf. inv_ok. apply pack_ube_inv in Hok as [-> Hn]. apply typed_frame_inv in Hf as [_ Hf].
  destruct (get_values_put true put_row_value wire_value written_row values a0 (be_bytes 2 (zlen values)) [] Hok0)
    as (ps & Hw & Hget).
  exists ps. split; [done|]. unfold row_from_frame. rewrite Hf. pose proof (zlen_nonneg (concat a0)).
  rewrite require_ok, bind_Ok by (autorewrite with py; lia).
  rewrite unpack_slice_0, bind_Ok by done. rewrite zlen_length.
  rewrite app_nil_r, zlen_be_bytes in Hget. change (Z.of_nat 2) with 2 in Hget. by rewrite Hget.
Qed.
Lemma done_put a b c f : to_frame (ResultDone a b c) = Ok f → done_from_frame f = Ok (ResultDone a b c).
Proof.
  unfold to_frame. intros Hf. inv_ok. apply pack_sbe_inv in Hok as [-> Ha], Hok0 as [-> Hb].
  apply byte_list_inv in Hok1 as [-> Hc]. apply typed_frame_inv in Hf as [_ Hf].
  unfold done_from_frame. rewrite Hf. rewrite require_ok, bind_Ok by (autorewrite with py; lia).
  rewrite slice_prefix by done. rewrite (value_int_whole a Ha), bind_Ok.
  rewrite slice_middle by done. rewrite (value_int_whole b Hb), bind_Ok.
  rewrite app_assoc, byte_at_mid, bind_Ok by done. by rewrite Z_of_byte_of_Z_small by lia.
Qed.
Lemma ts_put mk ts p t f : pack_ube 8 ts = Ok p → typed_frame t p = Ok f → ts_from_frame mk f = Ok (mk ts).
Proof.
  intros [-> Hts]%pack_ube_inv [_ Hf]%typed_frame_inv. unfold ts_from_frame. rewrite Hf.
  rewrite require_ok, bind_Ok by (autorewrite with py; lia). rewrite zlen_be_bytes. cbn [negb Z.eqb].
  unfold unpack_ube. rewrite read_at_whole by (by rewrite zlen_be_bytes). cbn [fmap result_fmap].
  by rewrite be_val_be_bytes_small.
Qed.

Lemma message_decodes (m : message) (f : Frame) : acceptable m → to_frame m = Ok f →
  ∃ m', wire m = Ok m' ∧ decode_message f = Ok m'.
Proof.
  intros Hm Hf. destruct m; cbn [acceptable wire] in *.
  all: try (eexists; split; [done|]).
  all: try (pose proof Hf as Hf'; cbn [to_frame] in Hf'; inv_ok; rewrite (decode_typed _ _ _ Hf'); cbn [from_frame];
       destruct (typed_frame_inv _ _ _ Hf') as [_ Hp]).
  - unfold hello_from_frame. rewrite Hp. unfold new_Hello in *. rewrite Hok, bind_Ok in Hm.
    destruct (Z.ltb_spec MAX_CLIENT_ID (zlen a)); [done|]. rewrite (utf8_decode_encode _ _ Hok), bind_Ok, Hok, bind_Ok.
    by destruct (Z.ltb_spec MAX_CLIENT_ID (zlen a)); [lia|].
  - by rewrite Hp, (utf8_decode_encode _ _ Hok).
  - by eapply error_put.
  - unfold query_from_frame. rewrite Hp. specialize (Hm _ Hok).
    destruct (Z.ltb_spec MAX_SQL_LEN (zlen a)); [lia|]. by rewrite (utf8_decode_encode _ _ Hok).
  - destruct (exec_put sql params f (proj1 Hm) (proj2 Hm) Hf) as (ps & Hw & Hd). rewrite Hw. by eexists.
  - by apply header_put.
  - destruct (row_put values f Hf) as (ps & Hw & Hd). rewrite Hw. by eexists.
  - by apply done_put.
  - by eapply error_put.
  - by eapply ts_put.
  - by eapply ts_put.
  - done.
Qed.
Lemma typed_frame_ok t p f : typed_frame t p = Ok f → zlen p <= MAX_FRAME_LEN → ok_frame f.
Proof. apply new_frame_ok. Qed.
Lemma to_frame_ok m f : to_frame m = Ok f → zlen f.(fr_payload) <= MAX_FRAME_LEN → ok_frame f.
Proof.
  intros Hf Hl. assert (∃ t p, typed_frame t p = Ok f) as (t & p & Ht).
  { destruct m; cbn [to_frame] in Hf; inv_ok; eauto. }
  destruct (typed_frame_inv _ _ _ Ht) as [_ Hp]. rewrite Hp in Hl. by eapply typed_frame_ok.
Qed.

(** C39: Every message that is sent is the message that is received: the frame of
    an acceptable message, if it does not exceed the frame limit, is written as
    bytes from which the same frame is read, and it decodes to the message, with
    its parameters and values converted to the types they are sent as. *)
Theorem message_roundtrip (m : message) (f : Frame) : acceptable m → to_frame m = Ok f →
  (zlen f.(fr_payload) <= MAX_FRAME_LEN → ∃ bs, to_bytes f = Ok bs ∧ from_bytes bs = Ok f) ∧
  ∃ m', wire m = Ok m' ∧ decode_message f = Ok m'.
Proof.
  intros Hm Hf. split; [|by apply message_decodes].
  intros Hl. pose proof (to_frame_ok m f Hf Hl). exists (enc f).
  split; [by apply to_bytes_enc|by apply from_bytes_enc].
Qed.
End MessageRoundTrip.

(** * What hostile frames can raise *)

(** [ValueError] and its subclasses *)
Definition value_errors (e : exn) : Prop := e = ValueError ∨ e = UnicodeError ∨ e = FrameTruncatedError.

Lemma utf8_decode_rwp bs : rwp value_errors (utf8_decode bs) (λ _, True).
Proof.
  induction bs as [bs IH] using (induction_ltof1 _ length); unfold ltof in IH.
  destruct bs as [|b0 r0]; [done|]. cbn [utf8_decode]. cbv zeta.
  repeat match goal with
  | |- rwp _ (if _ then _ else _) _ => apply rwp_if; intros _
  | |- rwp _ (match ?r with [] => _ | _ => _ end) _ => destruct r
  | |- rwp _ (of_option _ ?o ≫= _) _ => destruct o; cbn [of_option mbind result_bind]
  | |- rwp _ (utf8_decode ?r ≫= _) _ => apply rwp_bind; eapply rwp_mono; [apply IH; cbn [length]; lia|intros ? _]
  | |- rwp _ (Ok _) _ => exact I
  | |- rwp _ (Err _) _ => right; left; reflexivity
  | |- rwp _ (mbind _ (Err _)) _ => right; left; reflexivity
  end.
Qed.
Lemma mapR_rwp {A B} (E : exn → Prop) (f : A → result B) l : (∀ a, rwp E (f a) (λ _, True)) → rwp E (mapR f l) (λ _, True).
Proof.
  intros Hf. induction l as [|a l IH]; cbn [mapR]; [done|].
  apply rwp_bind. eapply rwp_mono; [apply Hf|]. intros. apply rwp_bind. eapply rwp_mono; [apply IH|]. done.
Qed.
Lemma ascii_decode_rwp bs : rwp value_errors (ascii_decode bs) (λ _, True).
Proof. apply mapR_rwp. intros b. destruct (_ <? _); [done|]. by right; left. Qed.
Lemma require_rwp payload need : rwp value_errors (_require payload need) (λ _, need <= zlen payload).
Proof. unfold _require, ensure. destruct (Z.ltb_spec (zlen payload) need); cbn; [by right; right|done]. Qed.
Lemma byte_at_rwp E payload i : 0 <= i < zlen payload → rwp E (byte_at payload i) (λ b, 0 <= b < 256).
Proof.
  intros Hi. unfold byte_at. rewrite znth_lookup by lia.
  destruct (payload !! Z.to_nat i) as [b|] eqn:Hb; [apply Z_of_byte_bound|].
  apply lookup_ge_None in Hb. unfold zlen in Hi. lia.
Qed.
Lemma read_at_rwp E n buf off : 0 <= off → off + Z.of_nat n <= zlen buf → rwp E (read_at n buf off) (λ d, zlen d = Z.of_nat n).
Proof.
  intros H0 Hn. unfold read_at. destruct (Z.leb_spec 0 off), (Z.leb_spec (off + Z.of_nat n) (zlen buf)); try lia. cbn.
  rewrite zlen_slice; lia.
Qed.
Lemma unpack_rwp E n payload off : 0 <= off → off + Z.of_nat n <= zlen payload →
  rwp E (unpack_ube n payload off) (λ z, 0 <= z) ∧ rwp E (unpack_sbe n payload off) (λ _, True).
Proof.
  intros H0 Hn. pose proof (read_at_rwp E n payload off H0 Hn) as Hr. unfold unpack_ube, unpack_sbe.
  destruct (read_at n payload off) as [d|]; [|done]. split; [|done]. apply be_val_bound.
Qed.
Lemma unpack_slice_rwp E n payload off : 0 <= off → off + Z.of_nat n <= zlen payload →
  rwp E (unpack_slice n payload off) (λ z, 0 <= z).
Proof. intros H0 Hn. apply unpack_rwp; [lia|]. rewrite zlen_slice; lia. Qed.
Lemma of_option_rwp {A} (o : option A) : rwp value_errors (of_option ValueError o) (λ _, True).
Proof. destruct o; [done|]. by left. Qed.
Lemma new_Hello_rwp client bs : utf8_decode bs = Ok client → rwp value_errors (new_Hello client) (λ _, True).
Proof.
  intros _. unfold new_Hello. apply rwp_bind. eapply (rwp_mono _ _ (λ _, True)).
  - induction client as [|c s IH]; cbn [utf8_encode]; [done|]. apply rwp_bind. eapply (rwp_mono _ _ (λ _, True)).
    + unfold utf8_encode1. repeat (apply rwp_if; intros _); done || (by right; left).
    + intros ? _. apply rwp_bind. by eapply rwp_mono.
  - intros ? _. apply rwp_if; intros _; [by left|done].
Qed.

Ltac rstep :=
  match goal with
  | |- rwp _ (Err ValueError) _ => left; reflexivity
  | |- rwp _ (Ok _) _ => cbn [rwp fst snd]; try lia; exact I
  | |- rwp _ (if _ then _ else _) _ => apply rwp_if; [intros _|let H := fresh "Hif" in intros H; bool_to_prop]
  | |- rwp _ (mbind _ _) _ => apply rwp_bind
  | |- rwp _ (_require _ _) _ => eapply rwp_mono; [apply require_rwp|intros]
  | |- rwp _ (utf8_decode _) _ => eapply rwp_mono; [apply utf8_decode_rwp|intros]
  | |- rwp _ (ascii_decode _) _ => eapply rwp_mono; [apply ascii_decode_rwp|intros]
  | |- rwp _ (ParamType_of _) _ => eapply rwp_mono; [apply of_option_rwp|intros]
  | |- rwp _ (byte_at _ _) _ => eapply rwp_mono; [apply byte_at_rwp; lia|intros]
  | |- rwp _ (unpack_slice _ _ _) _ => eapply rwp_mono; [apply unpack_slice_rwp; cbn; lia|intros]
  end; cbv beta zeta in *.

Lemma get_value_rwp payload offset : 0 <= offset →
  rwp value_errors (get_value payload offset) (λ r, 0 <= r.2).
Proof. intros H0. unfold get_value. repeat rstep. Qed.
Lemma value_of_rwp row t data : rwp value_errors (value_of row t data) (λ _, True).
Proof.
  destruct t; unfold value_of; repeat rstep.
  - eapply rwp_mono; [apply unpack_rwp; cbn; lia|]. intros. rstep.
  - eapply rwp_mono; [apply unpack_rwp; cbn; lia|]. intros. rstep.
Qed.
Lemma get_values_rwp row count payload : ∀ offset, 0 <= offset →
  rwp value_errors (get_values row count payload offset) (λ _, True).
Proof.
  induction count as [|count IH]; intros offset H0; cbn [get_values]; [done|].
  rstep. eapply rwp_mono; [by apply get_value_rwp|]. intros [[t data] off] Ho. cbn [snd] in Ho.
  rstep. eapply rwp_mono; [apply value_of_rwp|]. intros v _.
  rstep. eapply rwp_mono; [by apply IH|]. intros. rstep.
Qed.
Lemma get_columns_rwp count payload : ∀ offset, 0 <= offset →
  rwp value_errors (get_columns count payload offset) (λ _, True).
Proof.
  induction count as [|count IH]; intros offset H0; cbn [get_columns]; [done|].
  rstep. apply (rwp_mono _ _ (λ r, 0 <= r.2)); [unfold get_column; repeat rstep|]. intros [[name code] off] Ho. cbn [snd] in Ho.
  rstep. eapply rwp_mono; [by apply IH|]. intros. rstep.
Qed.
Lemma error_from_frame_rwp mk f : rwp value_errors (error_from_frame mk f) (λ _, True).
Proof. unfold error_from_frame. repeat rstep. Qed.

(** No payload makes a decoder index out of bounds or take a slice of the
    wrong size: the frames of every type decode, or raise [ValueError] (also as
    [UnicodeDecodeError] or [FrameTruncatedError]); the one exception is a PING
    or PONG with more than eight bytes, which raises [struct.error]. *)
Theorem decode_message_errors (f : Frame) (e : exn) : decode_message f = Err e →
  value_errors e ∨
  e = StructError ∧ (f.(fr_type) = type_value PING ∨ f.(fr_type) = type_value PONG) ∧ 8 < zlen f.(fr_payload).
Proof.
  intros Herr. destruct (MessageType_of (fr_type f)) as [t|e'] eqn:Ht.
  - assert (type_value t = f.(fr_type)) as Hv.
    { unfold MessageType_of in Ht. destruct (list_find _ _) as [[i t']|] eqn:Hl; [|done]. injection Ht as <-.
      apply list_find_Some in Hl. naive_solver. }
    unfold decode_message in Herr. rewrite Ht, bind_Ok in Herr.
    destruct (decide (t = PING ∨ t = PONG)) as [Hp|Hp].
    + assert (∃ mk, ts_from_frame mk f = Err e) as [mk Hts] by (destruct Hp as [-> | ->]; eexists; exact Herr).
      unfold ts_from_frame, _require, ensure in Hts.
      destruct (Z.ltb_spec (zlen (fr_payload f)) 8); [left; right; right; by injection Hts|]. cbn [negb] in Hts. rewrite bind_Ok in Hts.
      destruct (Z.eqb_spec (zlen (fr_payload f)) 8) as [Hl|]; cbn [negb] in Hts.
      * pose proof (proj1 (unpack_rwp (λ _, False) 8 (fr_payload f) 0 ltac:(lia) ltac:(lia))) as Hu.
        by destruct (unpack_ube 8 (fr_payload f) 0).
      * right. injection Hts as <-. split_and!; [done|destruct Hp as [-> | ->]; auto|lia].
    + left. refine (rwp_Err value_errors _ (λ _, True) e _ Herr). destruct t; cbn [from_frame]; try (by destruct Hp; auto).
      * unfold hello_from_frame. apply rwp_if; intros _; [by left|]. pose proof (utf8_decode_rwp (fr_payload f)) as Hd.
        destruct (utf8_decode (fr_payload f)) as [c|] eqn:Hc; [|done]. by apply (new_Hello_rwp _ (fr_payload f)).
      * repeat rstep.
      * apply error_from_frame_rwp.
      * unfold query_from_frame. repeat rstep.
      * unfold exec_from_frame. repeat rstep. eapply rwp_mono; [apply get_values_rwp; lia|]. intros.
        unfold new_Exec. repeat rstep.
      * unfold header_from_frame. repeat rstep. eapply rwp_mono; [apply get_columns_rwp; lia|]. intros. rstep.
      * unfold row_from_frame. repeat rstep. eapply rwp_mono; [apply get_values_rwp; lia|]. intros. rstep.
      * unfold done_from_frame. rstep. rstep.
        rstep. eapply rwp_mono; [apply unpack_rwp; rewrite ?zlen_slice; lia|]. intros.
        rstep. eapply rwp_mono; [apply unpack_rwp; rewrite ?zlen_slice; lia|]. intros. repeat rstep.
      * apply error_from_frame_rwp.
  - left. unfold decode_message in Herr. rewrite Ht in Herr. injection Herr as <-. left.
    unfold MessageType_of in Ht. destruct (_ ≫= _); [done|]. by injection Ht.
Qed.

Definition demo_conv : PyConv := {|
  str_other v := match v with PyDate _ => Ok (u "2024-01-31") | _ => Err TypeError end;
  int_other _ := Err TypeError;
  float_other _ := Err TypeError;
|}.
#[local] Existing Instance demo_conv.
Definition demo_exec : message :=
  Exec (u "insert into t values (?, ?)") [mkParam P_STRING (PyDate 738916); mkParam P_INT64 (PyBool true)].
Lemma message_roundtrip_witness : ∃ f,
  to_frame demo_exec = Ok f ∧ (∃ bs, to_bytes f = Ok bs ∧ from_bytes bs = Ok f) ∧
  ∃ m', wire demo_exec = Ok m' ∧ decode_message f = Ok m'.
Proof.
  assert (acceptable demo_exec) as Ha.
  { split; [|vm_compute; discriminate]. intros b Hb. vm_compute in Hb. injection Hb as <-. vm_compute. discriminate. }
  destruct (to_frame demo_exec) as [f|e] eqn:Hf; [|vm_compute in Hf; discriminate Hf].
  exists f. split; [reflexivity|]. destruct (message_roundtrip demo_exec f Ha Hf) as [Hb Hd]. split; [|exact Hd].
  apply Hb. vm_compute in Hf. injection Hf as <-. vm_compute. discriminate.
Defined.
Lemma decode_message_errors_witness :
  decode_message (mkFrame 9 0x30 0 (replicate 9 x00)) = Err StructError ∧
  8 < zlen (mkFrame 9 0x30 0 (replicate 9 x00)).(fr_payload).
Proof.
  assert (decode_message (mkFrame 9 0x30 0 (replicate 9 x00)) = Err StructError) as He by reflexivity.
  split; [exact He|]. destruct (decode_message_errors _ _ He) as [Hv|(_ & _ & Hl)]; [|exact Hl].
  destruct Hv as [Hv|[Hv|Hv]]; discriminate Hv.
Defined.
(** The length of an error message is 16 bits: a longer one cannot be sent *)
Example long_error_msg : to_frame (ResultError (u "HY000") (replicate 65536 97)) = Err StructError.
Proof. vm_compute. reflexivity. Qed.
(** and the limit that [from_frame] checks is never exceeded. *)
Lemma err_msg_limit_unreachable payload : 7 <= zlen payload →
  rwp (λ _, False) (unpack_slice 2 payload 5) (λ n, n < MAX_ERR_MSG_LEN).
Proof.
  intros Hp. unfold unpack_slice, unpack_ube.
  pose proof (read_at_rwp (λ _, False) 2 (slice payload 5 (5 + Z.of_nat 2)) 0 ltac:(lia)) as Hr.
  rewrite zlen_slice in Hr by lia. specialize (Hr ltac:(lia)).
  destruct (read_at _ _ _) as [d|]; [|done]. cbn in Hr |- *. pose proof (be_val_bound d) as Hb.
  rewrite Hr in Hb. apply Hb.
Qed.
