(* ===== verification/Handler.v ===== *)
(** Component [server/handler.py]: from a decoded QUERY or EXEC message to the
    response frames; the substitution of parameters into the SQL text. *)
From S2P Require Import Prelude.
From S2P Require Import Bytes.
From S2P Require Import Utf8.
From S2P Require Import Text.
From S2P Require Import Float64.
From S2P Require Import TypeSys.
From S2P Require Import Codec.
From S2P Require Import Tokens.
From S2P Require Import PyConv.
From S2P Require Import Protocol.
From S2P Require Import Messages.
From Stdlib Require Import ZArith Lia.
Local Open Scope Z_scope.

Definition STATUS_FLAGS_OK : Z := 0x01.
Definition STATUS_FLAGS_DML : Z := 0x05.

Definition row := (list pyval).

(** What the server asks of the database, whose state is [D]; a transaction
    context is a [TX].  The two last lookups of methods may fail: test stubs lack
    them ([getattr], [hasattr]). *)
Class Database (D TX : Type) := {
  db_execute : pystr → M D (list row);
  db_begin : M D TX;
  db_commit : TX → M D unit;
  db_rollback : TX → M D unit;
  db_execute_with_columns : option (pystr → M D (list row * option (list pystr)));
  db_result_columns_for : option (pystr → M D (option (list pystr)));
}.
(** The texts of exceptions: [str(e)], and [e.msg] of a ParseError *)
Class ExnText := { exn_str : exn → pystr; exn_msg : exn → pystr }.

Definition _to_param_list (params : list Param) : list pyval := map pa_value params.

(** [s.replace("'", "''")] is [double_quotes s] *)
Section Format.
Context `{PyConv}.

Definition _format_value (v : pyval) : result pystr :=
  match v with
  | PyNone => Ok (u "NULL")
  | PyBool b => Ok (if b then u "TRUE" else u "FALSE")
  | PyInt _ | PyFloat _ => py_str v
  | _ => s ← py_str v; Ok (39 :: double_quotes s ++ [39])
  end.

(** The loop from position [i] of the text, [sql] being [sql[i:]] and [params]
    [params[pi:]] *)
Fixpoint subst_from (in_string : bool) (sql : pystr) (params : list pyval) : result pystr :=
  match sql with
  | [] => Ok []
  | ch :: rest =>
      if in_string then
        if ch =? 39 then
          match rest with
          | c2 :: rest' =>
              if c2 =? 39 then out ← subst_from true rest' params; Ok (39 :: 39 :: out)
              else out ← subst_from false rest params; Ok (ch :: out)
          | [] => out ← subst_from false rest params; Ok (ch :: out)
          end
        else out ← subst_from true rest params; Ok (ch :: out)
      else if ch =? 39 then out ← subst_from true rest params; Ok (ch :: out)
      else match params with
           | p :: params' =>
               if ch =? 63 then v ← _format_value p; out ← subst_from false rest params'; Ok (v ++ out)
               else out ← subst_from false rest params; Ok (ch :: out)
           | [] => out ← subst_from false rest params; Ok (ch :: out)
           end
  end.
Definition _substitute_params (sql : pystr) (params : list pyval) : result pystr := subst_from false sql params.
End Format.

Inductive stmt_kind := K_select | K_ddl | K_dml | K_txn.
#[global] Instance stmt_kind_eq_dec : EqDecision stmt_kind.
Proof. solve_decision. Defined.

(** [sql.strip().split(None, 1)[0:1]] *)
Fixpoint until_space (s : pystr) : pystr :=
  match s with [] => [] | c :: s => if py_isspace c then [] else c :: until_space s end.
Definition first_word (sql : pystr) : option pystr :=
  match strip sql with [] => None | s => Some (until_space s) end.
Definition _classify (sql : pystr) : stmt_kind :=
  match first_word sql with
  | None => K_dml
  | Some w =>
      let head := upper w in
      if mem head [u "CREATE"; u "DROP"; u "ALTER"] then K_ddl
      else if mem head [u "SELECT"] then K_select
      else if mem head [u "INSERT"; u "UPDATE"; u "DELETE"] then K_dml
      else if mem head [u "BEGIN"; u "COMMIT"; u "ROLLBACK"] then K_txn
      else K_dml
  end.

Definition _map_error `{ExnText} (e : exn) : message :=
  match e with
  | ParseError _ _ | NodeParseError _ => ResultError (u "42000") (u "syntax error: " ++ exn_msg e)
  | ConstraintViolation | NotNullViolation => ResultError (u "22000") (exn_str e)
  | TypeMismatchError => ResultError (u "22000") (exn_str e)
  | _ => ResultError (u "HY000") (exn_str e)
  end.

Definition _guess_type_code (v : pyval) : Z :=
  match v with
  | PyNone => ptype_value P_NULL
  | PyBool _ => ptype_value P_BOOL
  | PyInt _ => ptype_value P_INT64
  | PyFloat _ => ptype_value P_FLOAT64
  | _ => ptype_value P_STRING
  end.

(** [f"col{i}"] for the columns from number [i] *)
Definition col_name (i : nat) : pystr := u "col" ++ str_of_Z (Z.of_nat i).
Definition header_columns (guess_columns : bool) (column_names : option (list pystr)) (row0 : row) : list (pystr * Z) :=
  let code (v : pyval) := if guess_columns then _guess_type_code v else ptype_value P_STRING in
  let names :=
    match column_names with
    | Some names => if decide (length names = length row0) then names else imap (λ i _, col_name i) row0
    | None => imap (λ i _, col_name i) row0
    end in
  zip_with (λ name v, (name, code v)) names row0.

Section Dispatch.
Context `{PyConv} `{ExnText} {D TX : Type} `{Database D TX}.

Definition _rows_to_frames (rows : list row) (kind : stmt_kind) (guess_columns : bool)
    (column_names : option (list pystr)) : result (list Frame) :=
  match kind with
  | K_ddl => f ← to_frame (ResultDone 0 0 STATUS_FLAGS_OK); Ok [f]
  | K_dml =>
      affected ← match rows with
                 | [] => Ok 0
                 | row0 :: _ => match row0 with v :: _ => py_int v | [] => Err IndexError end
                 end;
      f ← to_frame (ResultDone affected 0 STATUS_FLAGS_DML); Ok [f]
  | _ =>
      match rows with
      | [] =>
          let header_cols := map (λ name, (name, ptype_value P_STRING)) (default [] column_names) in
          h ← to_frame (ResultHeader header_cols);
          d ← to_frame (ResultDone 0 0 STATUS_FLAGS_OK);
          Ok [h; d]
      | row0 :: _ =>
          h ← to_frame (ResultHeader (header_columns guess_columns column_names row0));
          out ← mapR (λ r, to_frame (ResultRow r)) rows;
          d ← to_frame (ResultDone (zlen rows) 0 STATUS_FLAGS_OK);
          Ok (h :: out ++ [d])
      end
  end.

(** The [try] of [_dispatch_sql] *)
Definition run_sql (sql : pystr) (kind : stmt_kind) : M D (list row * option (list pystr)) :=
  match db_execute_with_columns with
  | Some exec_with_cols => exec_with_cols sql
  | None =>
      rows ← db_execute sql;
      column_names ←
        (match kind, db_result_columns_for with
         | K_select, Some columns_for => catch (columns_for sql) (λ _, mret None)
         | _, _ => mret None
         end);
      mret (rows, column_names)
  end.
Definition _dispatch_sql (sql : pystr) (guess_columns : bool) : M D (list Frame) :=
  match strip sql with
  | [] => f ← lift (to_frame (ResultError (u "42000") (u "empty SQL"))); mret [f]
  | _ =>
      let kind := _classify sql in
      r ← catch (r ← run_sql sql kind; mret (inl r)) (λ e, mret (inr e));
      match r with
      | inr e => f ← lift (to_frame (_map_error e)); mret [f]
      | inl (rows, column_names) => lift (_rows_to_frames rows kind guess_columns column_names)
      end
  end.

Definition dispatch_query (sql : pystr) : M D (list Frame) := _dispatch_sql sql true.
Definition dispatch_exec (sql : pystr) (params : list Param) : M D (list Frame) :=
  substituted ← lift (_substitute_params sql (_to_param_list params));
  _dispatch_sql substituted false.
Definition dispatch_message (msg : message) : M D (list Frame) :=
  match msg with
  | Query sql => dispatch_query sql
  | Exec sql params => dispatch_exec sql params
  | _ => raise GeneralException
  end.
End Dispatch.

(** * Substituted parameters are single tokens *)

Section Injection.
Context `{UniLaws} `{PyConv}.

(** A statement with placeholders: tokens, or [None] for a [?] *)
Definition template := (list (option Token)).
Definition spell_slot (o : option Token) : pystr := match o with Some t => spell t | None => [63] end.
Definition render_template (tm : template) : pystr := concat (map (λ o, spell_slot o ++ [32]) tm).
Definition is_slot (o : option Token) : bool := match o with None => true | Some _ => false end.
Definition slots (tm : template) : nat := length (List.filter is_slot tm).

(** The token that stands for a value, whatever text it holds *)
Definition value_token (v : pyval) : Token :=
  match v with
  | PyNone => mkToken NULL_LIT PyNone 0 0
  | PyBool _ => mkToken BOOL_LIT v 0 0
  | PyInt _ => mkToken INT_LIT v 0 0
  | _ => mkToken STRING_LIT v 0 0
  end.
Definition plain_param (v : pyval) : bool :=
  match v with
  | PyNone | PyBool _ | PyStr _ => true
  | PyInt z => (0 <=? z) && (z <? 2 ^ 63)
  | _ => false
  end.
(** The parameters in the places of the placeholders, in order *)
Fixpoint fill (tm : template) (params : list pyval) : list Token :=
  match tm, params with
  | [], _ => []
  | Some t :: tm, _ => t :: fill tm params
  | None :: tm, p :: params => value_token p :: fill tm params
  | None :: tm, [] => fill tm []
  end.

Definition inert (c : Z) : bool := negb (c =? 39) && negb (c =? 63).

Lemma mem_elem s l : mem s l = true ↔ s ∈ l.
Proof. unfold mem. apply bool_decide_eq_true. Qed.
Lemma mem_inert s l : mem s l = true → forallb (forallb inert) l = true → forallb inert s = true.
Proof. rewrite mem_elem. intros Hs Hl. rewrite forallb_forall in Hl. apply Hl. by apply list_elem_of_In. Qed.
Lemma is_word_inert c : is_word c = true → inert c = true.
Proof.
  intros Hw. unfold inert. destruct (Z.eqb_spec c 39) as [->|]; [|destruct (Z.eqb_spec c 63) as [->|]; [|done]];
    unfold is_word in Hw; rewrite uc_ascii_alnum in Hw by lia; done.
Qed.
Lemma wordlike_inert s : wordlike s = true → forallb inert s = true.
Proof.
  destruct s as [|c s]; [done|]. cbn [wordlike forallb]. intros [Hc Hs]%andb_prop. apply andb_true_iff. split.
  - unfold inert. destruct (Z.eqb_spec c 39) as [->|]; [|destruct (Z.eqb_spec c 63) as [->|]; [|done]];
      rewrite uc_ascii_alpha in Hc by lia; done.
  - apply forallb_forall. intros x Hx. rewrite forallb_forall in Hs. by apply is_word_inert, Hs.
Qed.
Lemma digits_inert z : 0 <= z → forallb inert (digits z) = true.
Proof.
  intros Hz. apply forallb_forall. intros c Hc. pose proof (digits_ascii z Hz) as Hd. rewrite List.Forall_forall in Hd.
  specialize (Hd c Hc). apply is_ascii_digit_true in Hd. unfold inert.
  destruct (Z.eqb_spec c 39), (Z.eqb_spec c 63); lia || done.
Qed.
Lemma spell_inert t : wf_token t = true → tk_kind t ≠ STRING_LIT → forallb inert (spell t) = true.
Proof.
  unfold wf_token, spell. destruct t as [k v l c]. cbn [tk_kind tk_value]. intros Hwf Hk.
  destruct k, v; try done; bool_to_prop.
  - by eapply mem_inert.
  - by apply wordlike_inert.
  - by apply digits_inert.
  - by destruct b.
  - apply orb_prop in Hwf as [Hwf|Hwf]; by eapply mem_inert.
  - apply bool_decide_eq_true in Hwf. by subst.
  - apply bool_decide_eq_true in Hwf. by subst.
  - apply bool_decide_eq_true in Hwf. by subst.
  - apply bool_decide_eq_true in Hwf. by subst.
  - apply bool_decide_eq_true in Hwf. by subst.
Qed.

Lemma subst_inert s rest ps out : forallb inert s = true → subst_from false rest ps = Ok out →
  subst_from false (s ++ rest) ps = Ok (s ++ out).
Proof.
  intros Hs Hout. induction s as [|c s IH]; [done|]. cbn [forallb] in Hs. apply andb_prop in Hs as [Hc Hs].
  unfold inert in Hc. bool_to_prop. specialize (IH Hs). cbn [app subst_from].
  destruct (Z.eqb_spec c 39); [lia|]. rewrite IH. destruct (Z.eqb_spec c 63); [lia|]. by destruct ps.
Qed.
Lemma subst_literal s rest ps out : subst_from false (32 :: rest) ps = Ok out →
  subst_from true (double_quotes s ++ 39 :: 32 :: rest) ps = Ok (double_quotes s ++ 39 :: out).
Proof.
  intros Hout. induction s as [|c s IH].
  { assert (subst_from true (39 :: 32 :: rest) ps = (o ← subst_from false (32 :: rest) ps; Ok (39 :: o))) as Heq by done.
    cbn [double_quotes app]. by rewrite Heq, Hout. }
  cbn [double_quotes]. destruct (Z.eqb_spec c 39) as [->|Hc].
  - cbn [app subst_from Z.eqb]. by rewrite IH.
  - cbn [app subst_from]. destruct (Z.eqb_spec c 39); [done|]. by rewrite IH.
Qed.
Lemma subst_token t rest ps out : wf_token t = true → subst_from false rest ps = Ok out →
  subst_from false ((spell t ++ [32]) ++ rest) ps = Ok ((spell t ++ [32]) ++ out).
Proof.
  intros Hwf Hout. rewrite <-!app_assoc.
  assert (subst_from false ([32] ++ rest) ps = Ok ([32] ++ out)) as Hsp by by apply subst_inert.
  destruct (decide (tk_kind t = STRING_LIT)) as [Hk|Hk].
  - destruct t as [k v l c]. cbn [tk_kind] in Hk. subst k. unfold wf_token, spell in *. cbn [tk_kind tk_value] in *.
    destruct v; try done. cbn [app subst_from Z.eqb]. rewrite <-!app_assoc. cbn [app].
    by rewrite (subst_literal _ _ _ _ Hsp).
  - by apply subst_inert; [apply spell_inert|].
Qed.

Lemma zlen_digits_aux fuel n acc : zlen (digits_aux fuel n acc) <= Z.of_nat fuel + zlen acc.
Proof.
  revert n acc. induction fuel as [|fuel IH]; intros n acc; cbn [digits_aux]; [lia|].
  destruct (n <? 10); [rewrite zlen_cons; lia|]. specialize (IH (n / 10) ((48 + n mod 10) :: acc)).
  rewrite zlen_cons in IH. lia.
Qed.
Lemma value_token_wf v : plain_param v = true → wf_token (value_token v) = true ∧ _format_value v = Ok (spell (value_token v)).
Proof.
  destruct v; try done. cbn [plain_param]. intros Hz. bool_to_prop. split.
  - cbn [value_token wf_token tk_kind tk_value]. apply andb_true_iff. split; [by apply Z.leb_le|]. apply Z.leb_le.
    unfold digits. pose proof (zlen_digits_aux (S (Z.to_nat (Z.log2 z))) z []) as Hd. rewrite zlen_nil in Hd.
    assert (Z.log2 z <= 63) by (pose proof (Z.log2_le_mono z (2 ^ 63)) as Hm; rewrite Z.log2_pow2 in Hm; lia).
    pose proof (Z.log2_nonneg z). lia.
  - cbn [_format_value py_str value_token]. unfold spell, str_of_Z. cbn [tk_kind tk_value].
    by destruct (Z.ltb_spec z 0); [lia|].
Qed.
Lemma subst_template tm : ∀ ps, Forall (λ o, from_option wf_token true o = true) tm → Forall (λ v, plain_param v = true) ps →
  (slots tm <= length ps)%nat → _substitute_params (render_template tm) ps = Ok (render (fill tm ps)) ∧
  Forall (λ t, wf_token t = true) (fill tm ps).
Proof.
  induction tm as [|[t|] tm IH]; intros ps Htm Hps Hn; [done| |]; apply Forall_cons in Htm as [Ht Htm]; cbn [from_option] in Ht;
    unfold render_template, render, _substitute_params in *; cbn [map concat spell_slot] in *.
  - destruct (IH ps Htm Hps Hn) as [Hs Hf]. cbn [fill map concat]. split; [by apply subst_token|by constructor].
  - destruct ps as [|p ps]; [cbn in Hn; lia|]. apply Forall_cons in Hps as [Hp Hps]. cbn in Hn.
    destruct (IH ps Htm Hps ltac:(unfold slots; lia)) as [Hs Hf]. destruct (value_token_wf p Hp) as [Hw Hv].
    cbn [fill map concat]. split; [|by constructor]. rewrite <-!app_assoc. cbn [app].
    pose proof (subst_inert [32] _ ps _ eq_refl Hs) as Hsp. cbn [app] in Hsp.
    trans (v ← _format_value p; o ← subst_from false (32 :: concat (map (λ o, spell_slot o ++ [32]) tm)) ps; Ok (v ++ o)); [done|].
    rewrite Hv, bind_Ok. unfold spell_slot in *. by rewrite Hsp.
Qed.

End Injection.

Definition demo_template : template :=
  [ Some (mkToken KEYWORD (PyStr (u "DELETE")) 0 0); Some (mkToken KEYWORD (PyStr (u "FROM")) 0 0);
    Some (mkToken IDENT (PyStr (u "t")) 0 0); Some (mkToken KEYWORD (PyStr (u "WHERE")) 0 0);
    Some (mkToken IDENT (PyStr (u "name")) 0 0); Some (mkToken OP (PyStr (u "=")) 0 0); None ].
