(* ===== verification/Session.v ===== *)
(** Component [server/session.py]: the state machine of a connection, and the
    loop that drives it over the bytes of the connection. *)
From S2P Require Import Prelude.
From S2P Require Import Bytes.
From S2P Require Import Utf8.
From S2P Require Import Text.
From S2P Require Import TypeSys.
From S2P Require Import Codec.
From S2P Require Import Tokens.
From S2P Require Import PyConv.
From S2P Require Import Protocol.
From S2P Require Import Messages.
From S2P Require Import Handler.
From Stdlib Require Import ZArith Lia.
Local Open Scope Z_scope.

(** [_tx] is the open transaction; [_db] the state of the database *)
Record ServerSession (D TX : Type) := mkSession {
  _handshake_done : bool;
  _tx : option TX;
  _db : D;
}.
Arguments mkSession {D TX} _ _ _.
Arguments _handshake_done {D TX} _.
Arguments _tx {D TX} _.
Arguments _db {D TX} _.

Section Session.
Context `{PyConv} `{ExnText} {D TX : Type} `{Database D TX}.
Abbreviation Session := (ServerSession D TX).
Implicit Types (s : Session).

Definition on_db {A} (m : M D A) : M Session A :=
  zoom _db (λ d s, mkSession s.(_handshake_done) s.(_tx) d) m.
Definition set_tx (tx : option TX) : M Session unit := modify (λ s, mkSession s.(_handshake_done) tx s.(_db)).
(** A response of one message *)
Definition reply (m : message) : M Session (list Frame) := f ← lift (to_frame m); mret [f].
Definition txn_done : message := ResultDone 0 0 0x01.
Definition txn_error (msg : pystr) : message := ResultError (u "25000") msg.

(** [try: r = m() except Exception as e: return ...] *)
Definition attempt {A} (m : M Session A) : M Session (A + exn) := catch (a ← m; mret (inl a)) (λ e, mret (inr e)).

Definition _handle_begin : M Session (list Frame) :=
  tx ← gets _tx;
  match tx with
  | Some _ => reply (txn_error (u "transaction already active"))
  | None =>
      r ← attempt (on_db db_begin);
      match r with
      | inr e => reply (txn_error (exn_str e))
      | inl tx => set_tx (Some tx);; reply txn_done
      end
  end.
(** [_handle_commit] and [_handle_rollback], which end the transaction with
    [_db._txn.commit] and [_db._txn.rollback] *)
Definition _handle_end (finish : TX → M D unit) : M Session (list Frame) :=
  tx ← gets _tx;
  match tx with
  | None => reply (txn_error (u "no active transaction"))
  | Some tx =>
      set_tx None;;
      r ← attempt (on_db (finish tx));
      match r with
      | inr e => reply (txn_error (exn_str e))
      | inl _ => reply txn_done
      end
  end.
Definition _handle_commit : M Session (list Frame) := _handle_end db_commit.
Definition _handle_rollback : M Session (list Frame) := _handle_end db_rollback.
Definition _auto_rollback : M Session unit :=
  tx ← gets _tx;
  match tx with
  | None => mret ()
  | Some tx => attempt (on_db (db_rollback tx));; set_tx None
  end.

(** [msg.sql.strip().upper() if msg.sql else ""] *)
Definition command (sql : pystr) : pystr := match sql with [] => [] | _ => upper (strip sql) end.
Definition sql_of (msg : message) : option pystr :=
  match msg with Query sql | Exec sql _ => Some sql | _ => None end.

Definition handle_message (msg : message) : M Session (list Frame) :=
  match msg with
  | Quit => _auto_rollback;; reply (OkMsg (u "tinydb-0.3.1"))
  | Ping ts => reply (Pong ts)
  | _ =>
      let c := default [] (command <$> sql_of msg) in
      if decide (c = u "BEGIN") then _handle_begin
      else if decide (c = u "COMMIT") then _handle_commit
      else if decide (c = u "ROLLBACK") then _handle_rollback
      else on_db (dispatch_message msg)
  end.

(** [isinstance(e, ValueError)] *)
Definition is_ValueError (e : exn) : bool := bool_decide (e = ValueError ∨ e = UnicodeError ∨ e = FrameTruncatedError).

Definition hello_too_long (e : exn) : message := ErrMsg (u "08000") (u "HELLO client too long: " ++ exn_str e).
Definition _handle_frame (frame : Frame) : M Session (list Frame) :=
  if frame.(fr_type) =? type_value PING then
    ping ← lift (ts_from_frame Pong frame);
    reply ping
  else
    handshake_done ← gets _handshake_done;
    if negb handshake_done then
      if negb (frame.(fr_type) =? type_value HELLO) then reply (ErrMsg (u "08000") (u "HELLO required"))
      else match hello_from_frame frame with
           | Err e => if is_ValueError e then reply (hello_too_long e) else raise e
           | Ok hello =>
               modify (λ s, mkSession true s.(_tx) s.(_db));;
               reply (perform_server_handshake hello)
           end
    else
      msg ← lift (decode_message frame);
      handle_message msg.

(** [run_once] over the session and its reader *)
Definition run_once : M (option FrameReader * Session) (list Frame) :=
  r ← gets fst;
  match r with
  | None => raise RuntimeError
  | Some r =>
      frame ← (λ st, let '(x, r) := read_frame r in (x, (Some r, st.2)));
      match frame with
      | None => mret []
      | Some frame => zoom snd (λ s st, (st.1, s)) (_handle_frame frame)
      end
  end.

(** * The connection *)

(** The bytes still to come, the reader, the bytes written *)
Record Connection := mkConn {
  cn_session : Session;
  cn_input : bytes;
  cn_reader : FrameReader;
  cn_output : bytes;
}.
Definition on_session {A} (m : M Session A) : M Connection A :=
  zoom cn_session (λ s c, mkConn s c.(cn_input) c.(cn_reader) c.(cn_output)) m.
(** [await reader.readexactly(n)]; [None] for an IncompleteReadError *)
Definition readexactly (n : Z) : M Connection (option bytes) := λ c,
  if zlen c.(cn_input) <? n
  then (Ok None, mkConn c.(cn_session) [] c.(cn_reader) c.(cn_output))
  else (Ok (Some (ztake n c.(cn_input))), mkConn c.(cn_session) (zdrop n c.(cn_input)) c.(cn_reader) c.(cn_output)).
Definition cn_feed (data : bytes) : M Connection (option Frame) :=
  zoom cn_reader (λ r c, mkConn c.(cn_session) c.(cn_input) r c.(cn_output)) (feed data).
Definition cn_write (f : Frame) : M Connection unit :=
  zoom cn_output (λ out c, mkConn c.(cn_session) c.(cn_input) c.(cn_reader) out) (write_frame f).
Fixpoint write_all (fs : list Frame) : M Connection unit :=
  match fs with [] => mret () | f :: fs => cn_write f;; write_all fs end.

(** The [while True] loop; an iteration reads at least the six bytes of a
    header, so as much fuel as there is input is enough *)
Fixpoint serve_loop (fuel : nat) : M Connection unit :=
  header ← readexactly 6;
  match header with
  | None => mret ()
  | Some header =>
      let length := be_val (slice header 0 4) in
      if MAX_FRAME_LEN <? length then mret () else
      rest ← readexactly length;
      match rest with
      | None => mret ()
      | Some rest =>
          match fuel with
          | O => raise OutOfFuel
          | S fuel =>
              f ← cn_feed (header ++ rest);
              match f with
              | None => serve_loop fuel
              | Some f =>
                  responses ← on_session (_handle_frame f);
                  write_all responses;;
                  if f.(fr_type) =? type_value QUIT then mret () else serve_loop fuel
              end
          end
      end
  end.

(** [except (ConnectionError, ProtocolError)]: the protocol's ProtocolError and
    its subclasses *)
Definition is_ProtocolError (e : exn) : bool := bool_decide (e = ProtocolError ∨ e = GeneralException).
(** [try: m except (ConnectionError, ProtocolError): return
    finally: self._auto_rollback(); ...] *)
Definition guarded (m : M Connection unit) : M Connection unit := λ c,
  let '(r, c) := m c in
  let r := match r with Err e => if is_ProtocolError e then Ok () else Err e | Ok _ => Ok () end in
  let '(r', c) := on_session _auto_rollback c in
  (match r' with Err e => Err e | Ok _ => r end, c).
Definition serve : M Connection unit := λ c, guarded (serve_loop (length c.(cn_input))) c.
End Session.
Arguments mkConn {D TX} _ _ _ _.
Arguments cn_session {D TX} _.
Arguments cn_input {D TX} _.
Arguments cn_reader {D TX} _.
Arguments cn_output {D TX} _.

(** * What the loop computes *)

(** Projections of a run of the connection: the outcome, the session, the output *)
Definition observed {D TX} (r : result unit * Connection) : result unit * (ServerSession D TX * bytes) :=
  (r.1, (r.2.(cn_session), r.2.(cn_output))).

Section Answers.
Context `{PyConv} `{ExnText} {D TX : Type} `{Database D TX}.
Abbreviation Session := (ServerSession D TX).

(** The reference: the frames one after another, each answered in full before
    the next, until a QUIT *)
Fixpoint emit (fs : list Frame) : M (Session * bytes) unit :=
  match fs with
  | [] => mret ()
  | f :: fs => zoom snd (λ out st, (st.1, out)) (write_frame f);; emit fs
  end.
Definition answer (f : Frame) : M (Session * bytes) unit :=
  responses ← zoom fst (λ s st, (s, st.2)) (_handle_frame f);
  emit responses.
Fixpoint answers (fs : list Frame) : M (Session * bytes) unit :=
  match fs with
  | [] => mret ()
  | f :: fs => answer f;; if f.(fr_type) =? type_value QUIT then mret () else answers fs
  end.
(** The end of the connection *)
Definition closing (r : result unit * (Session * bytes)) : result unit * (Session * bytes) :=
  let '(r, (s, out)) := r in
  let r := match r with Err e => if is_ProtocolError e then Ok () else Err e | Ok _ => Ok () end in
  let '(r', s) := _auto_rollback s in
  (match r' with Err e => Err e | Ok _ => r end, (s, out)).

(** Every input is a sequence of frames and a rest in which there is none *)
Definition no_frame (p : bytes) : Prop := ∀ f x, next_frame _HEADER_SIZE p ≠ Got f x.
Lemma next_frame_Got p f x : next_frame _HEADER_SIZE p = Got f x → ok_frame f ∧ p = enc f ++ x.
Proof.
  unfold next_frame. destruct (Z.ltb_spec (zlen p) _HEADER_SIZE) as [|Hp]; [done|]. cbv zeta.
  destruct (Z.ltb_spec MAX_FRAME_LEN (be_val (ztake 4 p))) as [|Hm]; [done|].
  destruct (Z.ltb_spec (zlen p) (_HEADER_SIZE + be_val (ztake 4 p))) as [|Hl]; [done|].
  unfold _HEADER_SIZE in *. pose proof (be_val_bound (ztake 4 p)) as Hb. set (n := be_val (ztake 4 p)) in *.
  intros [= <- <-].
  assert (zlen (slice p (4 + 1 + 1) (4 + 1 + 1 + n)) = n) as Hn by (rewrite zlen_slice; lia).
  assert (∀ b, is_byte (Z_of_byte b) = true) as Hbyte.
  { intros b. pose proof (Z_of_byte_bound b). unfold is_byte. apply andb_true_iff. split; apply Z.leb_le; lia. }
  split; [split_and!; [apply Hbyte|apply Hbyte|done|done]|]. unfold enc. cbn [fr_payload fr_type fr_flags].
  rewrite Hn. unfold n at 1. rewrite be_bytes_be_val_n by (rewrite zlen_ztake; lia).
  rewrite !byte_of_Z_of_byte.
  destruct p as [|b0 [|b1 [|b2 [|b3 [|b4 [|b5 p]]]]]]; try (rewrite ?zlen_cons, ?zlen_nil in Hp; lia).
  change (ztake 4 (b0 :: b1 :: b2 :: b3 :: b4 :: b5 :: p)) with [b0; b1; b2; b3]. cbn [lookup list_lookup default from_option id].
  cbn [app]. do 6 f_equal.
  assert (slice (b0 :: b1 :: b2 :: b3 :: b4 :: b5 :: p) (4 + 1 + 1) (4 + 1 + 1 + n) = ztake n p) as ->.
  { unfold slice. replace (4 + 1 + 1 + n - (4 + 1 + 1)) with n by lia. done. }
  assert (zdrop (4 + 1 + 1 + n) (b0 :: b1 :: b2 :: b3 :: b4 :: b5 :: p) = zdrop n p) as ->.
  { unfold zdrop. replace (Z.to_nat (4 + 1 + 1 + n)) with (6 + Z.to_nat n)%nat by lia. done. }
  by rewrite ztake_zdrop.
Qed.
Lemma split_frames p : ∃ fs rest, Forall ok_frame fs ∧ p = concat (map enc fs) ++ rest ∧ no_frame rest.
Proof.
  induction p as [p IH] using (induction_ltof1 _ length); unfold ltof in IH.
  destruct (next_frame _HEADER_SIZE p) as [| |f x] eqn:Hn.
  - exists [], p. split_and!; [done|done|]. intros f x. by rewrite Hn.
  - exists [], p. split_and!; [done|done|]. intros f x. by rewrite Hn.
  - destruct (next_frame_Got p f x Hn) as [Hf ->]. destruct (IH x) as (fs & rest & Hfs & -> & Hr).
    { pose proof (zlen_enc f) as He. pose proof (zlen_nonneg (fr_payload f)). rewrite length_app. unfold zlen, _HEADER_SIZE in *. lia. }
    exists (f :: fs), rest. cbn [map concat]. split_and!; [by constructor|by rewrite <-app_assoc|done].
Qed.

Lemma readexactly_enough n s inp rd out : 0 <= n → n <= zlen inp →
  readexactly n (mkConn (D := D) (TX := TX) s inp rd out) = (Ok (Some (ztake n inp)), mkConn s (zdrop n inp) rd out).
Proof. intros. unfold readexactly. cbn [cn_input]. destruct (Z.ltb_spec (zlen inp) n); [lia|done]. Qed.
Lemma readexactly_short n s inp rd out : zlen inp < n →
  readexactly n (mkConn (D := D) (TX := TX) s inp rd out) = (Ok None, mkConn s [] rd out).
Proof. intros. unfold readexactly. cbn [cn_input]. destruct (Z.ltb_spec (zlen inp) n); [done|lia]. Qed.

Lemma serve_loop_end fuel s p rd out : no_frame p →
  ∃ p', serve_loop fuel (mkConn (D := D) (TX := TX) s p rd out) = (Ok (), mkConn s p' rd out).
Proof.
  intros Hno. assert (∃ p', serve_loop fuel (mkConn (D := D) (TX := TX) s p rd out) = (Ok (), mkConn s p' rd out)); [|done].
  destruct (Z.ltb_spec (zlen p) 6) as [Hp|Hp].
  { exists []. destruct fuel; cbn [serve_loop]; by rewrite (run_Ok _ _ _ _ _ (readexactly_short 6 s p rd out Hp)). }
  pose proof (readexactly_enough 6 s p rd out ltac:(lia) Hp) as Hr.
  assert (slice (ztake 6 p) 0 4 = ztake 4 p) as H4.
  { unfold slice. rewrite zdrop_0. change (4 - 0) with 4. unfold ztake. by rewrite take_take. }
  destruct (Z.ltb_spec MAX_FRAME_LEN (be_val (ztake 4 p))) as [Hm|Hm].
  { exists (zdrop 6 p). destruct fuel; cbn [serve_loop]; rewrite (run_Ok _ _ _ _ _ Hr), H4; cbv zeta;
      by destruct (Z.ltb_spec MAX_FRAME_LEN (be_val (ztake 4 p))); [|lia]. }
  assert (zlen (zdrop 6 p) < be_val (ztake 4 p)) as Hl.
  { rewrite zlen_zdrop by lia. destruct (Z.ltb_spec (zlen p) (_HEADER_SIZE + be_val (ztake 4 p))) as [|Hge]; [unfold _HEADER_SIZE in *; lia|].
    exfalso. eapply Hno. unfold next_frame. destruct (Z.ltb_spec (zlen p) _HEADER_SIZE); [unfold _HEADER_SIZE in *; lia|]. cbv zeta.
    destruct (Z.ltb_spec MAX_FRAME_LEN (be_val (ztake 4 p))); [lia|].
    destruct (Z.ltb_spec (zlen p) (_HEADER_SIZE + be_val (ztake 4 p))); [lia|done]. }
  exists []. destruct fuel; cbn [serve_loop]; rewrite (run_Ok _ _ _ _ _ Hr), H4; cbv zeta;
    (destruct (Z.ltb_spec MAX_FRAME_LEN (be_val (ztake 4 p))); [lia|]);
    by rewrite (run_Ok _ _ _ _ _ (readexactly_short _ _ _ _ _ Hl)).
Qed.
Lemma serve_loop_frame fuel s f x out : ok_frame f →
  serve_loop (S fuel) (mkConn (D := D) (TX := TX) s (enc f ++ x) (mkReader None []) out) =
  (responses ← on_session (_handle_frame f); write_all responses;;
   if f.(fr_type) =? type_value QUIT then mret () else serve_loop fuel) (mkConn s x (mkReader None []) out).
Proof.
  intros Hf. pose proof Hf as (_ & _ & Hl & Hm). pose proof (zlen_nonneg (fr_payload f)) as Hp. pose proof (zlen_nonneg x).
  assert (zlen (enc f ++ x) = 6 + zlen (fr_payload f) + zlen x) as Hz by (rewrite zlen_app, zlen_enc; done).
  cbn [serve_loop]. rewrite (run_Ok _ _ _ _ _ (readexactly_enough 6 s (enc f ++ x) _ out ltac:(lia) ltac:(lia))).
  assert (be_val (slice (ztake 6 (enc f ++ x)) 0 4) = zlen (fr_payload f)) as ->.
  { pose proof (enc_length f x Hf) as He. rewrite length_field in He by lia. injection He as He.
    assert (slice (ztake 6 (enc f ++ x)) 0 4 = ztake 4 (enc f ++ x)) as ->; [|done].
    unfold slice. rewrite zdrop_0. change (4 - 0) with 4. unfold ztake. by rewrite take_take. }
  cbv zeta. destruct (Z.ltb_spec MAX_FRAME_LEN (zlen (fr_payload f))); [lia|].
  rewrite (run_Ok _ _ _ _ _ (readexactly_enough (zlen (fr_payload f)) s (zdrop 6 (enc f ++ x)) _ out Hp
             ltac:(rewrite zlen_zdrop by lia; lia))).
  assert (ztake 6 (enc f ++ x) ++ ztake (zlen (fr_payload f)) (zdrop 6 (enc f ++ x)) = enc f) as ->.
  { pose proof (slice_join (enc f ++ x) 0 6 (6 + zlen (fr_payload f)) ltac:(lia) ltac:(lia) ltac:(lia)) as Hj.
    unfold slice in Hj. rewrite zdrop_0, Z.sub_0_r in Hj. replace (6 + zlen (fr_payload f) - 6) with (zlen (fr_payload f)) in Hj by lia.
    rewrite Hj. rewrite Z.sub_0_r. apply ztake_app. by rewrite zlen_enc. }
  assert (zdrop (zlen (fr_payload f)) (zdrop 6 (enc f ++ x)) = x) as ->.
  { rewrite zdrop_zdrop by lia. apply zdrop_app. rewrite zlen_enc. unfold _HEADER_SIZE. lia. }
  assert (cn_feed (enc f) (mkConn s x (mkReader None []) out) = (Ok (Some f), mkConn (D := D) (TX := TX) s x (mkReader None []) out)) as Hfeed.
  { unfold cn_feed, zoom. cbn [cn_reader cn_session cn_input cn_output]. rewrite feed_next. cbn [app].
    rewrite <-(app_nil_r (enc f)), next_frame_enc by (done || lia). done. }
  by rewrite (run_Ok _ _ _ _ _ Hfeed).
Qed.

Lemma write_all_emit fs s x rd out : ∃ r out',
  write_all fs (mkConn (D := D) (TX := TX) s x rd out) = (r, mkConn s x rd out') ∧ emit fs (s, out) = (r, (s, out')).
Proof.
  revert out. induction fs as [|f fs IH]; intros out; [by eexists _, _|]. cbn [write_all emit].
  unfold mbind, M_bind, cn_write, zoom. cbn [cn_output cn_session cn_input cn_reader fst snd].
  destruct (write_frame f out) as [[[]|e] out']; [apply IH|by eexists _, _].
Qed.
Lemma answers_run fs : Forall ok_frame fs → ∀ fuel rest s out, no_frame rest → (length fs <= fuel)%nat →
  ∃ r s' x' rd' out', serve_loop fuel (mkConn (D := D) (TX := TX) s (concat (map enc fs) ++ rest) (mkReader None []) out) =
    (r, mkConn s' x' rd' out') ∧ answers fs (s, out) = (r, (s', out')).
Proof.
  induction 1 as [|f fs Hf Hfs IH]; intros fuel rest s out Hrest Hfuel.
  - destruct (serve_loop_end fuel s rest (mkReader None []) out Hrest) as [p' Hp]. by eexists _, _, _, _, _.
  - cbn [length] in Hfuel. destruct fuel as [|fuel]; [lia|]. cbn [map concat]. rewrite <-app_assoc.
    rewrite serve_loop_frame by done. cbn [answers]. unfold answer.
    unfold mbind, M_bind, on_session, zoom. cbn [cn_session cn_input cn_reader cn_output fst snd].
    destruct (_handle_frame f s) as [[rs|e] s']; [|by eexists _, _, _, _, _].
    destruct (write_all_emit rs s' (concat (map enc fs) ++ rest) (mkReader None []) out) as (r & out' & Hw & He).
    rewrite Hw, He. destruct r as [[]|e]; [|by eexists _, _, _, _, _].
    destruct (fr_type f =? type_value QUIT); [by eexists _, _, _, _, _|]. apply IH; [done|lia].
Qed.

(** C32: The connection loop refines the answering of frames one by one.  Whatever
    bytes the peer sends, they are a sequence of frames and a rest that holds
    no complete one; the session and the bytes written are those of answering
    these frames in order, each completely, up to a QUIT or an exception,
    followed by the rollback of a transaction still open.  The loop ends. *)
Theorem serve_refines_answers (s : Session) (input out : bytes) :
  ∃ fs rest, Forall ok_frame fs ∧ input = concat (map enc fs) ++ rest ∧ no_frame rest ∧
    observed (serve (mkConn s input (mkReader None []) out)) = closing (answers fs (s, out)).
Proof.
  destruct (split_frames input) as (fs & rest & Hfs & -> & Hrest).
  exists fs, rest. split_and!; [done|done|done|]. unfold serve. cbn [cn_input].
  assert (length fs <= length (concat (map enc fs) ++ rest))%nat as Hl.
  { clear -fs. rewrite length_app. induction fs as [|f fs IH]; [cbn; lia|]. cbn [map concat length].
    rewrite length_app. pose proof (zlen_enc f) as He. pose proof (zlen_nonneg (fr_payload f)). unfold zlen, _HEADER_SIZE in *. lia. }
  destruct (answers_run fs Hfs _ rest s out Hrest Hl) as (r & s' & x' & rd' & out' & Hs & Ha).
  unfold guarded, closing, observed. rewrite Hs, Ha. unfold on_session, zoom. cbn [cn_session].
  destruct (_auto_rollback s') as [[]]; done.
Qed.
End Answers.

(** * The transactions of a connection *)

Section Transactions.
Context `{PyConv} `{ExnText} {D TX : Type} `{Database D TX}.

(** What a connection does to the transactions of the database *)
Inductive txn_event := Begun (tx : TX) | Committed (tx : TX) | RolledBack (tx : TX).
Definition finishes (e : txn_event) (tx : TX) : Prop := e = Committed tx ∨ e = RolledBack tx.
(** The database with a record of the calls of [commit] and [rollback] and of
    the calls of [begin] that returned *)
Definition log_event (e : txn_event) : M (D * list txn_event) unit := modify (λ d, (d.1, d.2 ++ [e])).
Definition unlogged {A} (m : M D A) : M (D * list txn_event) A := zoom fst (λ d st, (d, st.2)) m.
#[local] Instance Logged : Database (D * list txn_event) TX := {
  db_execute sql := unlogged (db_execute sql);
  db_begin := tx ← unlogged db_begin; log_event (Begun tx);; mret tx;
  db_commit tx := log_event (Committed tx);; unlogged (db_commit tx);
  db_rollback tx := log_event (RolledBack tx);; unlogged (db_rollback tx);
  db_execute_with_columns := (λ f sql, unlogged (f sql)) <$> db_execute_with_columns;
  db_result_columns_for := (λ f sql, unlogged (f sql)) <$> db_result_columns_for;
}.

(** The log of a session whose open transaction is [tx]: transactions one after
    another, each finished once before the next begins *)
Inductive balanced : option TX → list txn_event → Prop :=
  | balanced_nil : balanced None []
  | balanced_begin log tx : balanced None log → balanced (Some tx) (log ++ [Begun tx])
  | balanced_finish log tx e : balanced (Some tx) log → finishes e tx → balanced None (log ++ [e]).
Abbreviation LSession := (ServerSession (D * list txn_event) TX).
Definition log_inv (s : LSession) : Prop := balanced s.(_tx) s.(_db).2.

Lemma on_db_keeps {A} (m : M D A) : keeps log_inv (on_db (unlogged m)).
Proof. intros [h tx [d log]] Hs. unfold on_db, unlogged, zoom. cbn [_db fst]. by destruct (m d). Qed.
Lemma on_db_zoom_keeps {A} (m : M (D * list txn_event) A) :
  (∀ d log, ((m (d, log)).2).2 = log) → keeps log_inv (on_db m).
Proof.
  intros Hm [h tx [d log]] Hs. unfold on_db, zoom. cbn [_db]. specialize (Hm d log).
  destruct (m (d, log)) as [r [d' log']]. cbn in *. by subst.
Qed.
Lemma reply_keeps m : keeps log_inv (reply m).
Proof. apply keeps_bind; eauto with py. Qed.
Lemma attempt_inl {A} (m : M LSession A) s a s' : m s = (Ok a, s') → attempt m s = (Ok (inl a), s').
Proof. intros Hm. unfold attempt, catch, mbind, M_bind. by rewrite Hm. Qed.
Lemma attempt_inr {A} (m : M LSession A) s e s' : m s = (Err e, s') → attempt m s = (Ok (inr e), s').
Proof. intros Hm. unfold attempt, catch, mbind, M_bind. by rewrite Hm. Qed.

Lemma begin_keeps : keeps log_inv _handle_begin.
Proof.
  intros [h [tx|] [d log]] Hs; unfold _handle_begin; rewrite run_gets; cbn [_tx]; [by apply reply_keeps|].
  destruct (db_begin d) as [[tx|e] d'] eqn:Hb.
  - assert (on_db (TX := TX) db_begin (mkSession h None (d, log)) = (Ok tx, mkSession h None (d', log ++ [Begun tx]))) as Hr.
    { unfold on_db, zoom. cbn [_db db_begin Logged]. unfold mbind, M_bind, unlogged, zoom. cbn [fst snd]. by rewrite Hb. }
    rewrite (run_Ok _ _ _ _ _ (attempt_inl _ _ _ _ Hr)). unfold set_tx. rewrite run_modify. apply reply_keeps.
    by constructor.
  - assert (on_db (TX := TX) db_begin (mkSession h None (d, log)) = (Err e, mkSession (TX := TX) h None (d', log))) as Hr.
    { unfold on_db, zoom. cbn [_db db_begin Logged]. unfold mbind, M_bind, unlogged, zoom. cbn [fst snd]. by rewrite Hb. }
    rewrite (run_Ok _ _ _ _ _ (attempt_inr _ _ _ _ Hr)). by apply reply_keeps.
Qed.
(** Finishing the transaction [tx], however the database fares *)
Lemma finish_run (finish : TX → M (D * list txn_event) unit) (e : TX → txn_event) (m : TX → M D unit) h (tx : TX) (otx : option TX) d log :
  (∀ tx, finish tx = (log_event (e tx);; unlogged (m tx))) →
  ∃ r d', attempt (on_db (TX := TX) (finish tx)) (mkSession h otx (d, log)) = (Ok r, mkSession h otx (d', log ++ [e tx])).
Proof.
  intros Hf. rewrite Hf. destruct (m tx d) as [[[]|ex] d'] eqn:Hm.
  - exists (inl ()), d'. apply attempt_inl. unfold on_db, zoom, log_event, unlogged, zoom. cbn [_db _tx _handshake_done].
    rewrite run_modify. cbn [fst snd]. by rewrite Hm.
  - exists (inr ex), d'. apply attempt_inr. unfold on_db, zoom, log_event, unlogged, zoom. cbn [_db _tx _handshake_done].
    rewrite run_modify. cbn [fst snd]. by rewrite Hm.
Qed.
Lemma end_keeps finish e m : (∀ tx, finish tx = (log_event (e tx);; unlogged (m tx))) → (∀ tx, finishes (e tx) tx) →
  keeps log_inv (_handle_end finish).
Proof.
  intros Hf He [h [tx|] [d log]] Hs; unfold _handle_end; rewrite run_gets; cbn [_tx]; [|by apply reply_keeps].
  unfold set_tx. rewrite run_modify. cbn [_handshake_done _db].
  destruct (finish_run finish e m h tx None d log Hf) as (r & d' & Hr). rewrite (run_Ok _ _ _ _ _ Hr).
  assert (log_inv (mkSession h None (d', log ++ [e tx]))) as Hi by (by econstructor).
  by destruct r; apply reply_keeps.
Qed.
Lemma auto_rollback_closes s : log_inv s → ∃ s', _auto_rollback s = (Ok (), s') ∧ s'.(_tx) = None ∧ log_inv s'.
Proof.
  destruct s as [h [tx|] [d log]]; intros Hs; unfold _auto_rollback; rewrite run_gets; cbn [_tx]; [|by eexists].
  destruct (finish_run db_rollback RolledBack db_rollback h tx (Some tx) d log ltac:(done)) as (r & d' & Hr).
  rewrite (run_Ok _ _ _ _ _ Hr). eexists. split; [reflexivity|]. split; [done|]. econstructor; [done|by right].
Qed.

Lemma dispatch_log msg d log : (dispatch_message msg (d, log)).2.2 = log.
Proof.
  assert (∀ sql k d, (run_sql sql k (d, log)).2.2 = log) as Hrun.
  { clear. intros sql k d. unfold run_sql. cbn [db_execute_with_columns db_execute db_result_columns_for Logged].
    destruct db_execute_with_columns as [f|]; cbn [fmap option_fmap option_map].
    { unfold unlogged, zoom. cbn [fst snd]. by destruct (f sql d). }
    unfold mbind, M_bind, unlogged, zoom. cbn [fst snd]. destruct (db_execute sql d) as [[rows|e] d']; [|done].
    destruct k; try done. destruct db_result_columns_for as [g|]; [|done]. cbn [fmap option_fmap option_map].
    unfold catch. cbn [fst snd]. by destruct (g sql d') as [[]]. }
  assert (∀ sql g d, (_dispatch_sql sql g (d, log)).2.2 = log) as Hd.
  { intros sql g d0. unfold _dispatch_sql. destruct (strip sql) as [|c0 s0]; [unfold mbind, M_bind, lift; by destruct (to_frame _)|].
    unfold mbind, M_bind, catch. specialize (Hrun sql (_classify sql) d0).
    destruct (run_sql sql (_classify sql) (d0, log)) as [[[rows cols]|e] st]; cbn in Hrun |- *; [done|].
    unfold lift. by destruct (to_frame _). }
  destruct msg; try done; cbn [dispatch_message]; [apply Hd|].
  unfold dispatch_exec, mbind, M_bind, lift. destruct (_substitute_params _ _); [apply Hd|done].
Qed.
Lemma frame_keeps f : keeps log_inv (_handle_frame f).
Proof.
  intros s Hs. unfold _handle_frame. destruct (_ =? type_value PING).
  { unfold mbind, M_bind, lift. destruct (ts_from_frame _ _); [by apply reply_keeps|done]. }
  rewrite run_gets. destruct (_handshake_done s); cbn [negb].
  - unfold mbind, M_bind, lift. destruct (decode_message f) as [msg|]; [|done]. unfold handle_message.
    assert (keeps log_inv (on_db (dispatch_message msg))) as Hdisp by (apply on_db_zoom_keeps; intros; apply dispatch_log).
    pose proof begin_keeps as Hb.
    assert (keeps log_inv _handle_commit) as Hc by (apply (end_keeps _ Committed db_commit); [done|by left]).
    assert (keeps log_inv _handle_rollback) as Hr by (apply (end_keeps _ RolledBack db_rollback); [done|by right]).
    destruct msg; try (by apply reply_keeps);
      try (destruct (decide _); [by apply Hb|destruct (decide _); [by apply Hc|destruct (decide _); [by apply Hr|by apply Hdisp]]]).
    destruct (auto_rollback_closes s Hs) as (s' & Hrun & _ & Hi). rewrite (run_Ok _ _ _ _ _ Hrun). by apply reply_keeps.
  - destruct (negb _); [by apply reply_keeps|]. destruct (hello_from_frame f) as [hello|e].
    + rewrite run_modify. apply reply_keeps. exact Hs.
    + destruct (is_ValueError e); [by apply reply_keeps|done].
Qed.
Lemma answers_keep fs : keeps (λ st, log_inv st.1) (answers (D := D * list txn_event) (TX := TX) fs).
Proof.
  assert (∀ rs, keeps (λ st : LSession * bytes, log_inv st.1) (emit rs)) as Hemit.
  { induction rs as [|r rs IH]; [apply keeps_ret|]. apply keeps_bind; [|intros _; apply IH].
    intros [s out] Hs. unfold zoom. cbn [fst snd]. by destruct (write_frame r out). }
  induction fs as [|f fs IH]; [apply keeps_ret|]. cbn [answers]. apply keeps_bind.
  - apply keeps_bind; [|apply Hemit]. intros [s out] Hs. unfold zoom. cbn [fst snd].
    pose proof (frame_keeps f s Hs) as Hk. by destruct (_handle_frame f s).
  - intros _. destruct (_ =? _); [apply keeps_ret|apply IH].
Qed.

End Transactions.

Section Handshake.
Context `{PyConv} `{ExnText} {D TX : Type} `{Database D TX}.
Abbreviation Session := (ServerSession D TX).

(** A frame that opens the session *)
Definition is_hello (f : Frame) : bool := (f.(fr_type) =? type_value HELLO) && is_ok (hello_from_frame f).
Definition untouched (d : D) (s : Session) : Prop := s = mkSession false None d.

Lemma frame_before_hello d f : is_hello f = false → keeps (untouched d) (_handle_frame f).
Proof.
  intros Hf s ->. unfold _handle_frame, is_hello in *. destruct (_ =? type_value PING).
  { unfold mbind, M_bind, lift. destruct (ts_from_frame _ _) as [p|]; [|done]. unfold reply, mbind, M_bind, lift. by destruct (to_frame p). }
  rewrite run_gets. cbn [_handshake_done negb]. destruct (fr_type f =? type_value HELLO); cbn [negb andb] in *.
  - destruct (hello_from_frame f) as [hello|e]; [done|]. destruct (is_ValueError e); [|done].
    unfold reply, mbind, M_bind, lift. by destruct (to_frame _).
  - unfold reply, mbind, M_bind, lift. by destruct (to_frame _).
Qed.
Lemma answers_before_hello d fs : forallb (negb ∘ is_hello) fs = true → keeps (λ st : Session * bytes, untouched d st.1) (answers fs).
Proof.
  assert (∀ rs, keeps (λ st : Session * bytes, untouched d st.1) (emit rs)) as Hemit.
  { induction rs as [|r rs IH]; [apply keeps_ret|]. apply keeps_bind; [|intros _; apply IH].
    intros [s out] Hs. unfold zoom. cbn [fst snd]. by destruct (write_frame r out). }
  induction fs as [|f fs IH]; intros Hfs; [apply keeps_ret|]. cbn [forallb] in Hfs. apply andb_prop in Hfs as [Hf Hfs].
  apply negb_true_iff in Hf. cbn [answers]. apply keeps_bind.
  - apply keeps_bind; [|apply Hemit]. intros [s out] Hs. unfold zoom. cbn [fst snd].
    pose proof (frame_before_hello d f Hf s Hs) as Hk. by destruct (_handle_frame f s).
  - intros _. destruct (_ =? _); [apply keeps_ret|by apply IH].
Qed.

(** A peer that does not introduce itself does not reach the database: for any
    bytes that it sends, either there is a well-formed HELLO among their frames,
    or the database is what it was, the session has not been opened, and no
    transaction was begun. *)
Theorem no_hello_no_database (input out : bytes) (d : D) :
  (∃ pre f post, input = pre ++ enc f ++ post ∧ is_hello f = true) ∨
  (serve (mkConn (mkSession false None d) input (mkReader None []) out)).2.(cn_session) = mkSession (TX := TX) false None d.
Proof.
  destruct (serve_refines_answers (mkSession (TX := TX) false None d) input out) as (fs & rest & _ & Hin & _ & Hobs).
  destruct (forallb (negb ∘ is_hello) fs) eqn:Hfs.
  - right. pose proof (answers_before_hello d fs Hfs (mkSession false None d, out) eq_refl) as Hk. unfold closing in Hobs.
    destruct (answers fs _) as [r [s out']]. cbn [fst] in Hk. change (s = mkSession false None d) in Hk. rewrite Hk in Hobs. clear Hk s.
    unfold _auto_rollback in Hobs. rewrite run_gets in Hobs. cbn [_tx] in Hobs.
    unfold observed in Hobs. destruct (serve _) as [r' c]. cbn in Hobs |- *. by injection Hobs.
  - left. apply not_true_iff_false in Hfs. rewrite forallb_forall in Hfs.
    assert (¬ Forall (λ f, is_hello f = false) fs) as Hex.
    { intros Hall. apply Hfs. intros f Hf. rewrite List.Forall_forall in Hall. cbn. by rewrite (Hall f Hf). }
    apply not_Forall_Exists in Hex; [|intros f; apply _]. apply Exists_exists in Hex as (f & Hf & Hh).
    apply list_elem_of_split in Hf as (l1 & l2 & ->). rewrite map_app, concat_app in Hin. cbn [map concat] in Hin.
    exists (concat (map enc l1)), f, (concat (map enc l2) ++ rest). split; [by rewrite Hin, <-!app_assoc|].
    by apply not_false_iff_true.
Qed.
End Handshake.

(** ** A conversation *)

(** A database that counts its transactions *)
#[local] Instance count_db : Database Z Z := {
  db_execute sql := raise TypeMismatchError;
  db_begin := modify (λ n, n + 1);; get;
  db_commit _ := mret ();
  db_rollback _ := mret ();
  db_execute_with_columns := None;
  db_result_columns_for := None;
}.
#[local] Instance demo_texts : ExnText := { exn_str _ := u "?"; exn_msg _ := u "?" }.
#[local] Existing Instance demo_conv.
Definition frame_of (m : message) : Frame := match to_frame m with Ok f => f | Err _ => mkFrame 0 0 0 [] end.
Definition demo_input : bytes := concat (map (enc ∘ frame_of)
  [Query (u "begin"); Ping 7; Hello (u "x"); Query (u " begin "); Query (u "BEGIN"); Exec (u "drop ?") []]).
Example demo_conversation :
  let '(r, c) := serve (mkConn (mkSession false None 0) demo_input (mkReader None []) []) in
  r = Ok () ∧ c.(cn_session) = mkSession true None 1 ∧
  c.(cn_output) = concat (map (enc ∘ frame_of)
    [ErrMsg (u "08000") (u "HELLO required"); Pong 7; OkMsg (u "tinydb-0.3.1"); txn_done;
     txn_error (u "transaction already active"); ResultError (u "22000") (u "?")]).
Proof. vm_compute. done. Qed.
(** A PING of nine bytes is no [ValueError] and no [ProtocolError]: the handler
    of the connection dies with [struct.error], after the rollback. *)
Example long_ping_kills :
  (serve (mkConn (mkSession false None 0) (enc (mkFrame 9 0x30 0 (replicate 9 x00))) (mkReader None []) [])).1 = Err StructError.
Proof. vm_compute. reflexivity. Qed.
(** So does a message that does not decode once the session is open *)
Example bad_message_kills :
  (serve (mkConn (mkSession true None 0) (enc (mkFrame 1 0x11 0 [x00])) (mkReader None []) [])).1 = Err FrameTruncatedError.
Proof. vm_compute. reflexivity. Qed.
