(* ===== verification/Client.v ===== *)
(** Components [client/sync.py] and [client/async_client.py], as far as they are
    not sockets and clocks: the parameters of a request, the collection of a
    response, batches, and the [transaction] context manager. *)
From S2P Require Import Prelude.
From S2P Require Import Bytes.
From S2P Require Import Utf8.
From S2P Require Import Text.
From S2P Require Import Float64.
From S2P Require Import TypeSys.
From S2P Require Import Codec.
From S2P Require Import Tokens.
From S2P Require Import PyConv.
From S2P Require Import Protocol.
From S2P Require Import Messages.
From S2P Require Import Handler.
From Stdlib Require Import ZArith Lia.
Local Open Scope Z_scope.

Record Result := mkResult {
  res_rows : list row;
  res_rowcount : Z;
  res_columns : list pystr;
  res_last_insert_id : Z;
}.

(** ** Responses *)

Record _Response := mkResponse {
  rp_header : option (list (pystr * Z));
  rp_rows : list row;
  rp_done : option (Z * Z * Z);
  rp_error : option (pystr * pystr);
}.
Definition new_Response : _Response := mkResponse None [] None None.
Definition is_type (t : MessageType) (f : Frame) : bool := f.(fr_type) =? type_value t.

(** [_Response.add], with the response after it *)
Definition add (frame : Frame) : M _Response bool :=
  (if is_type RESULT_HEADER frame then
     m ← lift (header_from_frame frame);
     modify (λ r, match m with ResultHeader cols => mkResponse (Some cols) r.(rp_rows) r.(rp_done) r.(rp_error) | _ => r end)
   else if is_type RESULT_ROW frame then
     m ← lift (row_from_frame frame);
     modify (λ r, match m with ResultRow vs => mkResponse r.(rp_header) (r.(rp_rows) ++ [vs]) r.(rp_done) r.(rp_error) | _ => r end)
   else if is_type RESULT_DONE frame then
     m ← lift (done_from_frame frame);
     modify (λ r, match m with ResultDone n i st => mkResponse r.(rp_header) r.(rp_rows) (Some (n, i, st)) r.(rp_error) | _ => r end)
   else if is_type RESULT_ERROR frame then
     m ← lift (error_from_frame ResultError frame);
     modify (λ r, match m with ResultError c msg => mkResponse r.(rp_header) r.(rp_rows) r.(rp_done) (Some (c, msg)) | _ => r end)
   else mret ());;
  r ← get;
  mret (match r.(rp_done), r.(rp_error) with None, None => false | _, _ => true end).

(** The response in the queue [frames]; when no more frames come before the
    deadline, the connection is found [lost] or the wait times out *)
Fixpoint gather (lost : bool) (frames : list Frame) : M _Response (list Frame) :=
  match frames with
  | [] => raise (if lost then ClientConnectionError else ClientTimeoutError)
  | f :: frames => complete ← add f; if complete : bool then mret frames else gather lost frames
  end.
Definition to_result (r : _Response) : result Result :=
  match r.(rp_error) with
  | Some (code, _) => if decide (code = u "22000") then Err IntegrityError else Err ClientProtocolError
  | None =>
      let '(rowcount, last_insert_id) := match r.(rp_done) with Some (n, i, _) => (n, i) | None => (0, 0) end in
      Ok (mkResult r.(rp_rows) rowcount (match r.(rp_header) with Some cols => map fst cols | None => [] end) last_insert_id)
  end.
(** [_collect_response] on the queue, with the frames it leaves there *)
Definition _collect_response (lost : bool) (frames : list Frame) : result (Result * list Frame) :=
  match gather lost frames new_Response with
  | (Ok rest, r) => res ← to_result r; Ok (res, rest)
  | (Err e, _) => Err e
  end.

(** ** Requests *)

Section Client.
Context `{PyConv}.

Definition _to_param (v : pyval) : result Param :=
  match v with
  | PyNone => Ok (mkParam P_NULL PyNone)
  | PyBool _ => Ok (mkParam P_BOOL v)
  | PyInt _ => Ok (mkParam P_INT64 v)
  | PyFloat _ => Ok (mkParam P_FLOAT64 v)
  | _ => s ← py_str v; Ok (mkParam P_STRING (PyStr s))
  end.
(** The frame that [execute] writes *)
Definition request (sql : pystr) (params : option (list pyval)) : result Frame :=
  match params with
  | None => to_frame (Query sql)
  | Some ps => typed_params ← mapR _to_param ps; m ← new_Exec sql typed_params; to_frame m
  end.

Definition _is_safe_to_retry (sql : pystr) : bool :=
  match first_word sql with
  | None => false
  | Some w => mem (upper w) (map u ["SELECT"; "EXPLAIN"; "SHOW"; "DESCRIBE"; "DESC"; "WITH"]%string)
  end.

(** What happens in one pass of the retry loop of [execute]: the result, or the
    error and whether it is a [ClientConnectionError] *)
Section Execute.
Context {C : Type} (attempt : nat → M C Result) (_drop_sock : M C unit).
(** [passes] passes from number [attempt_no]; a pass that reconnects does so inside
    [attempt] *)
Fixpoint retry_loop (passes attempt_no : nat) : M C Result :=
  match passes with
  | O => raise AssertionError
  | S passes =>
      catch (attempt attempt_no) (λ e,
        if decide (e = ClientConnectionError) then
          _drop_sock;;
          match passes with O => raise e | S _ => retry_loop passes (S attempt_no) end
        else raise e)
  end.
Definition execute_loop (max_retries : nat) (retry : option bool) (sql : pystr) : M C Result :=
  let retry := default (_is_safe_to_retry sql) retry in
  retry_loop (if retry then S max_retries else 1) 0.
End Execute.

(** [execute_many] and [transaction], over [execute] *)
Section Session.
Context {C : Type} (execute : pystr → option (list pyval) → M C Result).

Fixpoint sum_batch (sql : pystr) (batch : list (list pyval)) (total : Z) : M C Z :=
  match batch with
  | [] => mret total
  | params :: batch =>
      result ← execute sql (Some params);
      sum_batch sql batch (if 0 <? result.(res_rowcount) then total + result.(res_rowcount) else total)
  end.
(** [for i in range(0, len(params_list), batch_size)] *)
Fixpoint batches (fuel : nat) (sql : pystr) (params_list : list (list pyval)) (batch_size : nat) (total : Z) : M C Z :=
  match params_list, fuel with
  | [], _ => mret total
  | _, O => raise OutOfFuel
  | _, S fuel =>
      total ← sum_batch sql (take batch_size params_list) total;
      batches fuel sql (drop batch_size params_list) batch_size total
  end.
Definition execute_many (sql : pystr) (params_list : list (list pyval)) (batch_size : Z) : M C Z :=
  if batch_size <? 1 then raise ValueError
  else batches (length params_list) sql params_list (Z.to_nat batch_size) 0.

(** [with client.transaction(): body]; the state carries [_transaction_depth] *)
Definition depth_add (n : Z) : M (Z * C) unit := modify (λ s, (s.1 + n, s.2)).
Definition run_sql (sql : pystr) : M (Z * C) Result := zoom snd (λ c s, (s.1, c)) (execute sql None).
Definition transaction {A} (body : M (Z * C) A) : M (Z * C) A :=
  depth ← gets fst;
  if 0 <? depth then raise ClientProtocolError else
  depth_add 1;;
  run_sql (u "BEGIN");;
  r ← catch (a ← body; mret (inl a)) (λ e, mret (inr e));
  match r with
  | inr e =>
      r ← catch (run_sql (u "ROLLBACK");; mret None) (λ e', mret (Some e'));
      depth_add (-1);;
      match r with Some e' => raise e' | None => raise e end
  | inl a =>
      run_sql (u "COMMIT");;
      depth_add (-1);;
      mret a
  end.
End Session.
End Client.

(** * The rows of a SELECT, from the server to the client *)

Section EndToEnd.
Context `{PyConv}.

Lemma frame_type t p f : typed_frame t p = Ok f → fr_type f = type_value t.
Proof. by intros [? _]%typed_frame_inv. Qed.
Lemma is_type_value t t' f : fr_type f = type_value t' → is_type t f = bool_decide (t = t').
Proof. unfold is_type. intros ->. by destruct t, t'. Qed.

Definition open_response (h : option (list (pystr * Z))) (rs : list row) : _Response := mkResponse h rs None None.
Lemma add_header cols f h rs : to_frame (ResultHeader cols) = Ok f →
  add f (open_response h rs) = (Ok false, open_response (Some cols) rs).
Proof.
  intros Hf. assert (fr_type f = type_value RESULT_HEADER) as Ht by (cbn [to_frame] in Hf; inv_ok; by eapply frame_type).
  unfold add. rewrite !(is_type_value _ _ _ Ht). cbn [bool_decide decide decide_rel]. rewrite (header_put _ _ Hf). by mrun.
Qed.
Lemma add_row vs f h rs : to_frame (ResultRow vs) = Ok f →
  ∃ ps, mapR wire_value vs = Ok ps ∧ add f (open_response h rs) = (Ok false, open_response h (rs ++ [map pa_value ps])).
Proof.
  intros Hf. assert (fr_type f = type_value RESULT_ROW) as Ht by (cbn [to_frame] in Hf; inv_ok; by eapply frame_type).
  destruct (row_put _ _ Hf) as (ps & Hw & Hd). exists ps. split; [done|].
  unfold add. rewrite !(is_type_value _ _ _ Ht). cbn [bool_decide decide decide_rel]. rewrite Hd. by mrun.
Qed.
Lemma add_done n i st f h rs : to_frame (ResultDone n i st) = Ok f →
  add f (open_response h rs) = (Ok true, mkResponse h rs (Some (n, i, st)) None).
Proof.
  intros Hf. assert (fr_type f = type_value RESULT_DONE) as Ht by (cbn [to_frame] in Hf; inv_ok; by eapply frame_type).
  unfold add. rewrite !(is_type_value _ _ _ Ht). cbn [bool_decide decide decide_rel]. rewrite (done_put _ _ _ _ Hf). by mrun.
Qed.
Lemma gather_rows lost rows fs h more : mapR (λ r, to_frame (ResultRow r)) rows = Ok fs → ∀ rs,
  ∃ vals, mapR (mapR wire_value) rows = Ok vals ∧
    gather lost (fs ++ more) (open_response h rs) = gather lost more (open_response h (rs ++ map (map pa_value) vals)).
Proof.
  revert fs. induction rows as [|r rows IH]; intros fs Hfs rs; cbn [mapR] in Hfs; inv_ok.
  - exists []. split; [done|]. cbn [app map]. by rewrite app_nil_r.
  - destruct (add_row r a h rs Hok) as (ps & Hps & Hadd). destruct (IH a0 Hok0 (rs ++ [map pa_value ps])) as (vals & Hv & Hg).
    exists (ps :: vals). cbn [mapR]. rewrite Hps, Hv. split; [done|]. cbn [app gather].
    rewrite (run_Ok _ _ _ _ _ Hadd). rewrite Hg. cbn [map]. by rewrite <-app_assoc.
Qed.

(** The labels of the columns of a result *)
Definition labels (rows : list row) (guess_columns : bool) (column_names : option (list pystr)) : list pystr :=
  match rows with
  | [] => default [] column_names
  | row0 :: _ => map fst (header_columns guess_columns column_names row0)
  end.
Lemma labels_names row0 rows guess names : length names = length row0 → labels (row0 :: rows) guess (Some names) = names.
Proof.
  intros Hl. cbn [labels]. unfold header_columns. rewrite decide_True by done.
  revert names Hl. induction row0 as [|v row0 IH]; intros [|n names] Hl; try done. cbn in *. f_equal. apply IH. lia.
Qed.

Lemma collect_select rows kind guess names fs lost more : kind ≠ K_ddl → kind ≠ K_dml →
  _rows_to_frames rows kind guess names = Ok fs →
  ∃ vals, mapR (mapR wire_value) rows = Ok vals ∧
    _collect_response lost (fs ++ more) = Ok (mkResult (map (map pa_value) vals) (zlen rows) (labels rows guess names) 0, more).
Proof.
  intros Hk1 Hk2 Hfs. unfold _rows_to_frames in Hfs. unfold _collect_response. change new_Response with (open_response None []).
  destruct kind; try done; (destruct rows as [|row0 rows]; [|set (rws := row0 :: rows) in *]; inv_ok).
  all: try (exists []; split; [done|]; cbn [app gather]; rewrite (run_Ok _ _ _ _ _ (add_header _ _ _ _ Hok)); cbn [gather];
    rewrite (run_Ok _ _ _ _ _ (add_done _ _ _ _ _ _ Hok0)); cbn [map labels]; unfold mret, M_ret, to_result; cbn;
    rewrite map_map; cbn; by rewrite map_id).
  all: destruct (gather_rows lost rws a0 (Some (header_columns guess names row0)) (a1 :: more) Hok0 []) as (vals & Hv & Hg);
    exists vals; split; [done|]; cbn [app gather]; rewrite (run_Ok _ _ _ _ _ (add_header _ _ _ _ Hok));
    rewrite <-app_assoc; cbn [app]; rewrite Hg; cbn [gather]; rewrite (run_Ok _ _ _ _ _ (add_done _ _ _ _ _ _ Hok1)); done.
Qed.

(** End to end: the rows of a query reach the caller.  When the server's
    response to a SELECT is written to the connection, in whatever pieces the
    bytes arrive, the client's reader thread and [_collect_response] give the
    caller the rows, in order, each value as the type it was sent as, their
    number, and the column labels; later responses stay in the queue. *)
Theorem select_end_to_end (rows : list row) (guess : bool) (names : option (list pystr)) (fs later : list Frame)
    (bufs : list bytes) (lost : bool) :
  _rows_to_frames rows K_select guess names = Ok fs →
  Forall ok_frame (fs ++ later) → Forall (λ b, b ≠ []) bufs → concat bufs = concat (map enc (fs ++ later)) →
  ∃ vals queue,
    _reader_loop bufs (mkThread (mkReader None []) []) = (Ok (), mkThread (mkReader None []) queue) ∧
    mapR (mapR wire_value) rows = Ok vals ∧
    _collect_response lost queue =
      Ok (mkResult (map (map pa_value) vals) (zlen rows) (labels rows guess names) 0, later).
Proof.
  intros Hfs Hok Hbufs Hcat. destruct (collect_select rows K_select guess names fs lost later) as (vals & Hv & Hc); [done|done|done|].
  exists vals, (fs ++ later). split_and!; [|done|done].
  rewrite <-(app_nil_r (concat (map enc _))) in Hcat.
  by rewrite (reader_thread_frames (fs ++ later) [] bufs [] Hok eq_refl Hbufs Hcat).
Qed.
End EndToEnd.

#[local] Existing Instance demo_conv.
Definition demo_rows : list row := [[PyInt 1; PyStr (u "a")]; [PyInt (-2); PyNone]].
Definition demo_response : list Frame :=
  match _rows_to_frames demo_rows K_select true (Some [u "id"; u "name"]) with Ok fs => fs | Err _ => [] end.
Lemma select_end_to_end_witness : ∃ vals queue,
  _reader_loop (map (λ b, [b]) (concat (map enc demo_response))) (mkThread (mkReader None []) []) =
    (Ok (), mkThread (mkReader None []) queue) ∧
  mapR (mapR wire_value) demo_rows = Ok vals ∧
  _collect_response false queue = Ok (mkResult (map (map pa_value) vals) 2 [u "id"; u "name"] 0, []).
Proof.
  apply (select_end_to_end demo_rows true (Some [u "id"; u "name"]) demo_response []).
  - vm_compute. reflexivity.
  - unfold ok_frame. apply (bool_decide_unpack (Forall (λ f, is_byte f.(fr_type) = true ∧ is_byte f.(fr_flags) = true ∧
      f.(fr_len) = zlen f.(fr_payload) ∧ f.(fr_len) <= MAX_FRAME_LEN) (demo_response ++ []))). vm_compute. exact I.
  - apply Forall_map. apply Forall_forall. intros b _. discriminate.
  - rewrite app_nil_r. generalize (concat (map enc demo_response)). intros l.
    induction l as [|b l IH]; [reflexivity|]. cbn [map concat app]. by rewrite IH.
Defined.

(** A statement that may have changed the database is sent at most once. *)
Lemma unsafe_not_retried {C} (attempt : nat → M C Result) (drop : M C unit) n sql c :
  _is_safe_to_retry sql = false →
  execute_loop attempt drop n None sql c =
  match attempt 0%nat c with
  | (Err e, c') => if decide (e = ClientConnectionError) then (match drop c' with (Ok _, c'') => (Err e, c'') | (Err e', c'') => (Err e', c'') end) else (Err e, c')
  | r => r
  end.
Proof.
  intros Hs. unfold execute_loop. cbn [default from_option]. rewrite Hs. cbn [retry_loop]. unfold catch.
  destruct (attempt 0%nat c) as [[r|e] c']; [done|]. destruct (decide _); [|done].
  unfold mbind, M_bind. by destruct (drop c') as [[]].
Qed.

(** When BEGIN fails the depth stays 1, and no later transaction of the client
    can start. *)
Example begin_failure_wedges :
  let execute (sql : pystr) (_ : option (list pyval)) : M nat Result := λ n, (Err ClientTimeoutError, S n) in
  let t := transaction execute (mret (M := M (Z * nat)) ()) in
  t (0, 0%nat) = (Err ClientTimeoutError, (1, 1%nat)) ∧ t (1, 1%nat) = (Err ClientProtocolError, (1, 1%nat)).
Proof. vm_compute. done. Qed.
Example begin_commit_runs :
  let execute (sql : pystr) (_ : option (list pyval)) : M (list pystr) Result := λ l, (Ok (mkResult [] 0 [] 0), l ++ [sql]) in
  transaction execute (mret (M := M (Z * list pystr)) 7) (0, []) = (Ok 7, (0, [u "BEGIN"; u "COMMIT"])).
Proof. vm_compute. done. Qed.
