(* ===== verification/Connection.v ===== *)
(** Component [client/sync.py]: the socket of a client, its reader thread and
    what the methods of the client do with them. *)
From S2P Require Import Prelude.
From S2P Require Import Bytes.
From S2P Require Import Utf8.
From S2P Require Import Text.
From S2P Require Import TypeSys.
From S2P Require Import Codec.
From S2P Require Import PyConv.
From S2P Require Import Protocol.
From S2P Require Import Messages.
From S2P Require Import Handler.
From S2P Require Import Client.
From Stdlib Require Import ZArith Lia.
Local Open Scope Z_scope.

(** What [sock.recv] meets: bytes, silence until a time-out is over, the end of
    the stream, an [OSError] *)
Inductive recv := Chunk (buf : bytes) | Quiet | Eof | Broken.
(** What comes in, and whether each [sendall] works; after the lists, silence
    and success *)
Record Socket := mkSocket { sk_recv : list recv; sk_sends : list bool }.
(** A client, what [create_connection] gives next, and what was sent so far *)
Record Conn := mkConn {
  cn_net : list (option Socket);
  cn_sock : option Socket;
  cn_reader : option FrameReader;   (** of the reader thread, while it runs *)
  cn_queue : list Frame;
  cn_closed : bool;
  cn_version : pystr;
  cn_log : list bytes;
}.
Definition set_sock (k : option Socket) (c : Conn) : Conn := mkConn c.(cn_net) k c.(cn_reader) c.(cn_queue) c.(cn_closed) c.(cn_version) c.(cn_log).
Definition set_queue (q : list Frame) (c : Conn) : Conn := mkConn c.(cn_net) c.(cn_sock) c.(cn_reader) q c.(cn_closed) c.(cn_version) c.(cn_log).
Definition set_version (v : pystr) (c : Conn) : Conn := mkConn c.(cn_net) c.(cn_sock) c.(cn_reader) c.(cn_queue) c.(cn_closed) v c.(cn_log).
Definition log_sent (b : bytes) (c : Conn) : Conn := mkConn c.(cn_net) c.(cn_sock) c.(cn_reader) c.(cn_queue) c.(cn_closed) c.(cn_version) (c.(cn_log) ++ [b]).

Section Connection.
Context `{PyConv}.

(** * Sockets *)

Definition create_connection (e : exn) : M Conn Socket :=
  c ← get;
  match c.(cn_net) with
  | Some k :: net => put (mkConn net c.(cn_sock) c.(cn_reader) c.(cn_queue) c.(cn_closed) c.(cn_version) c.(cn_log));; mret k
  | None :: net => put (mkConn net c.(cn_sock) c.(cn_reader) c.(cn_queue) c.(cn_closed) c.(cn_version) c.(cn_log));; raise e
  | [] => raise e
  end.
(** [FrameWriter(_SocketWriter(sock)).write_frame(frame)], with the socket after it *)
Definition send_frame (k : Socket) (f : Frame) : M Conn Socket :=
  data ← lift (to_bytes f);
  match k.(sk_sends) with
  | false :: _ => raise OSError
  | true :: sends => modify (log_sent data);; mret (mkSocket k.(sk_recv) sends)
  | [] => modify (log_sent data);; mret k
  end.
Definition send (f : Frame) : M Conn unit :=
  c ← get;
  match c.(cn_sock) with
  | None => raise OSError
  | Some k => k ← send_frame k f; modify (set_sock (Some k))
  end.

(** * The handshake *)

(** The first frame that comes in, and what is left of the input; bytes behind the
    frame are in a reader that is dropped. *)
Fixpoint first_frame (ins : list recv) (r : FrameReader) : result (Frame * list recv) :=
  match ins with
  | [] | Quiet :: _ => Err ClientTimeoutError
  | Eof :: _ | Chunk [] :: _ => Err ClientConnectionError
  | Broken :: _ => Err OSError
  | Chunk buf :: ins =>
      match feed buf r with
      | (Ok (Some f), _) => Ok (f, ins)
      | (Ok None, r) => first_frame ins r
      | (Err e, _) => Err e
      end
  end.
Definition hello_frame : result Frame := m ← perform_client_handshake DEFAULT_CLIENT_ID; to_frame m.
Definition handshake (k : Socket) : M Conn (Frame * Socket) :=
  hello ← lift hello_frame;
  k ← send_frame k hello;
  fi ← lift (first_frame k.(sk_recv) (mkReader None []));
  assert (is_type OK fi.1) ClientProtocolError;;
  mret (fi.1, mkSocket fi.2 k.(sk_sends)).
(** [except (OSError, WireProtocolError)] *)
Definition handshake_failed {A} (m : M Conn A) : M Conn A :=
  catch m (λ e, raise (if bool_decide (e = OSError ∨ e = ProtocolError) then ClientConnectionError else e)).
Definition start_reader (k : Socket) : M Conn unit :=
  modify (λ c, mkConn c.(cn_net) (Some k) (Some (mkReader None [])) c.(cn_queue) c.(cn_closed) c.(cn_version) c.(cn_log)).
Definition _connect : M Conn unit :=
  k ← create_connection ClientConnectionError;
  k ← handshake_failed (
    fk ← handshake k;
    ok ← lift (from_frame OK fk.1);
    modify (λ c, match ok with OkMsg v => set_version v c | _ => c end);;
    mret fk.2);
  start_reader k.
Definition _reconnect : M Conn unit :=
  k ← create_connection ClientConnectionError;
  fk ← handshake_failed (handshake k);
  start_reader fk.2.
(** [Client(host, port)] *)
Definition new_client (net : list (option Socket)) : result unit * Conn := _connect (mkConn net None None [] false [] []).

(** * The reader thread *)

(** The thread runs until it would wait, or ends. *)
Fixpoint pump (ins : list recv) (t : ReaderThread) : list recv * option FrameReader * list Frame :=
  match ins with
  | [] | Quiet :: _ => (ins, Some t.(rt_reader), t.(response_queue))
  | Eof :: ins | Broken :: ins | Chunk [] :: ins => (ins, None, t.(response_queue))
  | Chunk buf :: ins =>
      match recv_loop [buf] t with
      | (Ok _, t) => pump ins t
      | (Err _, t) => (ins, None, t.(response_queue))
      end
  end.
Definition deliver : M Conn unit :=
  c ← get;
  match c.(cn_sock), c.(cn_reader) with
  | Some k, Some r =>
      let '(ins, r, q) := pump k.(sk_recv) (mkThread r c.(cn_queue)) in
      put (mkConn c.(cn_net) (Some (mkSocket ins k.(sk_sends))) r q c.(cn_closed) c.(cn_version) c.(cn_log))
  | _, _ => mret ()
  end.
(** A wait reached its deadline: the silence is over. *)
Definition wait_over : M Conn unit :=
  modify (λ c, match c.(cn_sock) with
               | Some (mkSocket (Quiet :: ins) sends) => set_sock (Some (mkSocket ins sends)) c
               | _ => c
               end).
(** [self._closed or self._sock is None] *)
Definition is_lost (c : Conn) : bool := c.(cn_closed) || match c.(cn_sock) with None => true | Some _ => false end.

(** * Responses *)

(** The response from the frames of the queue, and the frames behind it; [None]
    when the queue is empty before it is complete *)
Fixpoint take_response (frames : list Frame) (r : _Response) : result (option _Response) * list Frame :=
  match frames with
  | [] => (Ok None, [])
  | f :: frames =>
      match add f r with
      | (Ok true, r) => (Ok (Some r), frames)
      | (Ok false, r) => take_response frames r
      | (Err e, _) => (Err e, frames)
      end
  end.
Definition collect_response : M Conn Result :=
  c ← get;
  match c.(cn_sock) with
  | None => raise ClientConnectionError
  | Some _ =>
      deliver;;
      c ← get;
      let '(r, rest) := take_response c.(cn_queue) new_Response in
      modify (set_queue rest);;
      r ← lift r;
      match r with
      | Some r => lift (to_result r)
      | None => wait_over;; c ← get; raise (if is_lost c then ClientConnectionError else ClientTimeoutError)
      end
  end.
Fixpoint skip_to (t : MessageType) (frames : list Frame) : option Frame * list Frame :=
  match frames with
  | [] => (None, [])
  | f :: frames => if is_type t f then (Some f, frames) else skip_to t frames
  end.
(** [None] when the connection is lost *)
Definition _wait_for_frame (t : MessageType) : M Conn (option Frame) :=
  deliver;;
  c ← get;
  let '(f, rest) := skip_to t c.(cn_queue) in
  modify (set_queue rest);;
  match f with
  | Some f => mret (Some f)
  | None => wait_over;; c ← get; if is_lost c then mret None else raise ClientTimeoutError
  end.

(** * The methods *)

Definition drop_sock : M Conn unit :=
  modify (λ c, mkConn c.(cn_net) None None c.(cn_queue) c.(cn_closed) c.(cn_version) c.(cn_log)).
Definition attempt (sql : pystr) (params : option (list pyval)) (n : nat) : M Conn Result :=
  c ← get;
  match c.(cn_sock), n with
  | Some _, _ => mret ()
  | None, O => raise ClientConnectionError
  | None, S _ => _reconnect
  end;;
  f ← lift (request sql params);
  send f;;
  collect_response.
Definition client_execute (max_retries : nat) (retry : option bool) (sql : pystr) (params : option (list pyval)) : M Conn Result :=
  execute_loop (attempt sql params) drop_sock max_retries retry sql.
(** [ts] and [now] are the two [time_ns()] *)
Definition ping (ts now : Z) : M Conn Z :=
  c ← get;
  match c.(cn_sock) with
  | None => raise ClientConnectionError
  | Some _ =>
      f ← lift (to_frame (Ping ts));
      send f;;
      frame ← catch (_wait_for_frame PONG) (λ e, raise (if bool_decide (e = ClientTimeoutError) then ClientConnectionError else e));
      match frame with
      | None => raise ClientConnectionError
      | Some frame => m ← lift (ts_from_frame Pong frame); mret (match m with Pong t => now - t | _ => 0 end)
      end
  end.
(** [try: ... except Exception: pass] *)
Definition close : M Conn unit :=
  c ← get;
  if c.(cn_closed) then mret () else
  put (mkConn c.(cn_net) None None c.(cn_queue) true c.(cn_version) c.(cn_log));;
  match c.(cn_sock) with
  | None => mret ()
  | Some k => catch (f ← lift (to_frame Quit); _ ← send_frame k f; mret ()) (λ _, mret ())
  end.

(** * A statement and its answer *)

Definition no_chunk (ins : list recv) : Prop := match ins with Chunk _ :: _ => False | _ => True end.
Lemma recv_loop_cons buf bufs t : buf ≠ [] → recv_loop (buf :: bufs) t = (recv_loop [buf] ≫= λ _, recv_loop bufs) t.
Proof.
  intros Hb. destruct buf as [|x buf]; [done|]. cbn [recv_loop]. rewrite run_assoc, !run_get, !run_assoc.
  unfold mbind, M_bind. destruct (rt_feed _ _) as [[f|e] t1]; [|done]. by destruct (drain _ f t1) as [[[]|e] t2].
Qed.
Lemma pump_chunks bufs more : Forall (λ b, b ≠ []) bufs → ∀ t t', recv_loop bufs t = (Ok (), t') →
  pump (map Chunk bufs ++ more) t = pump more t'.
Proof.
  induction 1 as [|buf bufs Hb Hbufs IH]; intros t t'; [by intros [= ->]|]. rewrite recv_loop_cons by done. intros Hr.
  destruct buf as [|x buf]; [done|]. cbn [map app pump]. apply M_bind_inv in Hr as ([] & t1 & -> & Hr). by apply IH.
Qed.
Lemma pump_rest more t : no_chunk more → (pump more t).2 = t.(response_queue).
Proof. by destruct more as [|[]]. Qed.
Lemma take_gather frames : ∀ lost r, gather lost frames r =
  match take_response frames r with
  | (Ok (Some r'), rest) => (Ok rest, r')
  | (Ok None, _) => (Err (if lost then ClientConnectionError else ClientTimeoutError), (gather lost frames r).2)
  | (Err e, _) => (Err e, (gather lost frames r).2)
  end.
Proof.
  induction frames as [|f frames IH]; intros lost r; [done|]. cbn [gather take_response].
  destruct (add f r) as [[[]|e] r'] eqn:Ha.
  - by rewrite (run_Ok _ _ _ _ _ Ha).
  - rewrite (run_Ok _ _ _ _ _ Ha). apply IH.
  - by rewrite (run_Err _ _ _ _ _ Ha).
Qed.
(** A response that [_collect_response] finds in the frames *)
Lemma collect_take lost frames res rest : _collect_response lost frames = Ok (res, rest) →
  ∃ r, take_response frames new_Response = (Ok (Some r), rest) ∧ to_result r = Ok res.
Proof.
  unfold _collect_response. pose proof (take_gather frames lost new_Response) as Hg.
  destruct (take_response frames new_Response) as [[[r|]|e] rest']; rewrite Hg; [|done..].
  destruct (to_result r) as [res'|] eqn:Hr; [|done]. rewrite bind_Ok. intros [= <- <-]. by exists r.
Qed.

(** A socket that is open and lets the next statement through *)
Record ready (c : Conn) (k : Socket) : Prop := {
  rd_sock : c.(cn_sock) = Some k;
  rd_thread : c.(cn_reader) = Some (mkReader None []);
  rd_queue : c.(cn_queue) = [];
  rd_sends : head k.(sk_sends) ≠ Some false;
}.
Lemma send_ready c k f data : ready c k → to_bytes f = Ok data → ∃ k', k'.(sk_recv) = k.(sk_recv) ∧
  send f c = (Ok (), set_sock (Some k') (log_sent data c)).
Proof.
  intros [Hk _ _ Hs] Hd. unfold send. mrun. rewrite Hk. unfold send_frame. rewrite Hd. mrun.
  destruct k as [ins [|[] sends]]; cbn [sk_sends sk_recv] in *; [| |done]; mrun; (eexists; split; [|reflexivity]; done).
Qed.
Lemma deliver_chunks c k bufs more fs : c.(cn_sock) = Some k → c.(cn_reader) = Some (mkReader None []) → c.(cn_queue) = [] →
  k.(sk_recv) = map Chunk bufs ++ more → no_chunk more →
  Forall ok_frame fs → Forall (λ b, b ≠ []) bufs → concat bufs = concat (map enc fs) →
  ∃ k' r, deliver c = (Ok (), mkConn c.(cn_net) (Some k') r fs c.(cn_closed) c.(cn_version) c.(cn_log)).
Proof.
  intros Hk Hr Hq Hin Hmore Hfs Hbufs Hcat. unfold deliver. mrun. rewrite Hk, Hr, Hq, Hin.
  rewrite (pump_chunks bufs more Hbufs _ (mkThread (mkReader None []) fs)).
  - pose proof (pump_rest more (mkThread (mkReader None []) fs) Hmore) as Hp. destruct (pump more _) as [[ins r] q]. cbn in Hp. subst q.
    cbn. by eexists _, _.
  - apply (recv_loop_frames [] bufs eq_refl Hbufs [] fs []); [done|done|]. by rewrite Hcat, app_nil_r.
Qed.

Lemma first_attempt_answers sql params c k f data bufs more fs rp :
  ready c k → request sql params = Ok f → to_bytes f = Ok data →
  k.(sk_recv) = map Chunk bufs ++ more → no_chunk more →
  Forall ok_frame fs → Forall (λ b, b ≠ []) bufs → concat bufs = concat (map enc fs) → take_response fs new_Response = (Ok (Some rp), []) →
  ∃ c', attempt sql params 0 c = (to_result rp, c') ∧ c'.(cn_log) = c.(cn_log) ++ [data] ∧ c'.(cn_queue) = [].
Proof.
  intros Hc Hf Hd Hin Hmore Hfs Hbufs Hcat Hres. destruct (send_ready c k f data Hc Hd) as (k' & Hk' & Hsend).
  unfold attempt. mrun. rewrite (rd_sock _ _ Hc). mrun. rewrite Hf. mrun. rewrite (run_Ok _ _ _ _ _ Hsend).
  unfold collect_response. mrun. cbn [set_sock cn_sock].
  destruct (deliver_chunks (set_sock (Some k') (log_sent data c)) k' bufs more fs) as (k2 & r2 & Hdel); try done; [by apply Hc|by apply Hc|by rewrite Hk'|].
  rewrite (run_Ok _ _ _ _ _ Hdel). mrun. cbn [cn_queue]. rewrite Hres. mrun. by eexists.
Qed.
(** A call whose first attempt does not lose the connection *)
Lemma execute_first retries retry sql params c r c' : attempt sql params 0 c = (r, c') → r ≠ Err ClientConnectionError →
  client_execute retries retry sql params c = (r, c').
Proof.
  intros Ha Hr. unfold client_execute, execute_loop.
  destruct (default _ retry); cbn [retry_loop]; unfold catch; rewrite Ha; (destruct r as [res|x]; [done|]);
    by destruct (decide (x = ClientConnectionError)) as [->|].
Qed.

(** End to end, on the side of the client: when a SELECT is executed on an open
    connection and the bytes of the server's response come in, in whatever
    pieces, before the time-out, then [execute] writes the request once and
    returns the rows, in order, each value as the type it was sent as, their
    number and the column labels; no frame is left for the next statement. *)
Theorem execute_answers sql params retries retry c k f data (rows : list row) guess names fs bufs more :
  ready c k → request sql params = Ok f → to_bytes f = Ok data →
  _rows_to_frames rows K_select guess names = Ok fs → Forall ok_frame fs →
  k.(sk_recv) = map Chunk bufs ++ more → no_chunk more → Forall (λ b, b ≠ []) bufs → concat bufs = concat (map enc fs) →
  ∃ vals c', mapR (mapR wire_value) rows = Ok vals ∧
    client_execute retries retry sql params c =
      (Ok (mkResult (map (map pa_value) vals) (zlen rows) (labels rows guess names) 0), c') ∧
    c'.(cn_log) = c.(cn_log) ++ [data] ∧ c'.(cn_queue) = [].
Proof.
  intros Hc Hf Hd Hrows Hfs Hin Hmore Hbufs Hcat.
  destruct (collect_select rows K_select guess names fs false []) as (vals & Hv & Hres); [done|done|done|]. rewrite app_nil_r in Hres.
  destruct (collect_take _ _ _ _ Hres) as (rp & Htake & Hrp).
  destruct (first_attempt_answers sql params c k f data bufs more fs rp Hc Hf Hd Hin Hmore Hfs Hbufs Hcat Htake) as (c' & Ha & Hl & Hq).
  exists vals, c'. split; [done|]. split; [|done]. rewrite Hrp in Ha. by apply execute_first.
Qed.

(** * What is sent *)

Lemma send_logs f c : ∃ c', (send f c).2 = c' ∧ c'.(cn_net) = c.(cn_net) ∧
  (c'.(cn_log) = c.(cn_log) ∨ ∃ data, to_bytes f = Ok data ∧ c'.(cn_log) = c.(cn_log) ++ [data]).
Proof.
  eexists. split; [done|]. unfold send. mrun. destruct (cn_sock c) as [[ins sends]|]; [|by auto].
  unfold send_frame. destruct (to_bytes f) as [data|] eqn:Hd; mrun; [|by auto].
  destruct sends as [|[] sends]; mrun; cbn; eauto.
Qed.
Definition same_log {A} (m : M Conn A) : Prop := ∀ c, (m c).2.(cn_log) = c.(cn_log) ∧ (m c).2.(cn_net) = c.(cn_net).
Lemma same_log_bind {A B} (m : M Conn A) (f : A → M Conn B) : same_log m → (∀ a, same_log (f a)) → same_log (m ≫= f).
Proof.
  intros Hm Hf c. unfold mbind, M_bind. specialize (Hm c). destruct (m c) as [[a|e] c']; [|done]. cbn in Hm.
  specialize (Hf a c'). destruct Hm, Hf. split; congruence.
Qed.
Lemma same_log_deliver : same_log deliver.
Proof.
  intros c. unfold deliver. mrun. destruct (cn_sock c) as [k|]; [|done]. destruct (cn_reader c); [|done].
  by destruct (pump _ _) as [[ins r] q].
Qed.
Lemma same_log_wait : same_log wait_over.
Proof. intros c. unfold wait_over, modify. cbn. by destruct (cn_sock c) as [[[|[] ins] sends]|]. Qed.
Lemma same_log_collect : same_log collect_response.
Proof.
  intros c. unfold collect_response. mrun. destruct (cn_sock c); [|done].
  apply (same_log_bind deliver); [apply same_log_deliver|]. intros _ c1. mrun. destruct (take_response _ _) as [r rest].
  mrun. destruct r as [[r|]|e]; mrun; [done| |done].
  refine (same_log_bind wait_over _ same_log_wait _ (set_queue rest c1)). intros _ c2. by mrun.
Qed.

(** C35: a statement that is not known to be safe to repeat is sent at most once,
    on the connection that is open, and no other connection is made, whatever
    the network does and whatever [execute] returns or raises; when it returns
    a result it was sent. *)
Theorem unsafe_sent_once sql params retries retry c r c' : default (_is_safe_to_retry sql) retry = false →
  client_execute retries retry sql params c = (r, c') →
  c'.(cn_net) = c.(cn_net) ∧
  ((c'.(cn_log) = c.(cn_log) ∧ ∃ e, r = Err e) ∨
   ∃ f data, request sql params = Ok f ∧ to_bytes f = Ok data ∧ c'.(cn_log) = c.(cn_log) ++ [data]).
Proof.
  intros Hs. unfold client_execute, execute_loop. rewrite Hs. cbn [retry_loop]. unfold catch.
  assert (∀ r1 c1, attempt sql params 0 c = (r1, c1) → c1.(cn_net) = c.(cn_net) ∧
    ((c1.(cn_log) = c.(cn_log) ∧ ∃ e, r1 = Err e) ∨
     ∃ f data, request sql params = Ok f ∧ to_bytes f = Ok data ∧ c1.(cn_log) = c.(cn_log) ++ [data])) as Ha.
  { intros r1 c1. unfold attempt. mrun. destruct (cn_sock c) as [k|]; mrun; [|intros [= <- <-]; eauto].
    destruct (request sql params) as [f|e] eqn:Hf; mrun; [|intros [= <- <-]; eauto].
    destruct (send_logs f c) as (c2 & Hc2 & Hn & Hl). destruct (send f c) as [[[]|e] c3] eqn:Hsend; cbn in Hc2; subst c3.
    - rewrite (run_Ok _ _ _ _ _ Hsend). intros Hcol. pose proof (same_log_collect c2) as [Hl2 Hn2]. rewrite Hcol in Hl2, Hn2. cbn in Hl2, Hn2.
      split; [congruence|]. right. destruct Hl as [Hl|(data & Hd & Hl)]; [|exists f, data; split; [done|]; split; [done|congruence]].
      exfalso. clear -Hsend Hl. unfold send in Hsend. rewrite run_get in Hsend. destruct (cn_sock c) as [[ins sends]|]; [|done].
      unfold send_frame in Hsend. destruct (to_bytes f) as [data|]; [|done].
      destruct sends as [|[] sends]; [| |done]; injection Hsend as <-; cbn in Hl; by apply (f_equal length) in Hl; rewrite length_app in Hl; cbn in Hl; lia.
    - rewrite (run_Err _ _ _ _ _ Hsend). intros [= <- <-]. split; [done|]. destruct Hl as [Hl|(data & Hd & Hl)]; [left; eauto|right; eauto]. }
  destruct (attempt sql params 0 c) as [[res|e] c1] eqn:Hat; specialize (Ha _ _ eq_refl) as [Hn Hl]; [by intros [= <- <-]|].
  destruct (decide (e = ClientConnectionError)) as [->|]; [|by intros [= <- <-]].
  unfold drop_sock. mrun. intros [= <- <-]. split; [done|]. destruct Hl as [[Hl _]|Hl]; [left; split; [done|by eexists]|by right].
Qed.
End Connection.


(** * Concrete clients *)

#[local] Existing Instance demo_conv.
Definition open_conn (ins : list recv) (sends : list bool) (net : list (option Socket)) : Conn :=
  mkConn net (Some (mkSocket ins sends)) (Some (mkReader None [])) [] false (u "0.3") [].
Definition wire (fs : list Frame) : list recv := map (λ b, Chunk [b]) (concat (map enc fs)).
Definition select_frame : Frame := match to_frame (Query (u "SELECT id, name FROM t")) with Ok f => f | Err _ => mkFrame 0 0 0 [] end.
Lemma execute_answers_witness : ∃ vals c', mapR (mapR wire_value) demo_rows = Ok vals ∧
  client_execute 5 None (u "SELECT id, name FROM t") None (open_conn (wire demo_response ++ [Eof]) [true] []) =
    (Ok (mkResult (map (map pa_value) vals) 2 [u "id"; u "name"] 0), c') ∧
  c'.(cn_log) = [enc select_frame] ∧ c'.(cn_queue) = [].
Proof.
  apply (execute_answers (u "SELECT id, name FROM t") None 5 None (open_conn (wire demo_response ++ [Eof]) [true] [])
    (mkSocket (wire demo_response ++ [Eof]) [true]) select_frame (enc select_frame) demo_rows true (Some [u "id"; u "name"]) demo_response
    (map (λ b, [b]) (concat (map enc demo_response))) [Eof]).
  - split; [reflexivity|reflexivity|reflexivity|discriminate].
  - vm_compute. reflexivity.
  - vm_compute. reflexivity.
  - vm_compute. reflexivity.
  - unfold ok_frame. apply (bool_decide_unpack (Forall (λ f, is_byte f.(fr_type) = true ∧ is_byte f.(fr_flags) = true ∧
      f.(fr_len) = zlen f.(fr_payload) ∧ f.(fr_len) <= MAX_FRAME_LEN) demo_response)). vm_compute. exact I.
  - unfold wire. cbn [sk_recv]. by rewrite map_map.
  - exact I.
  - apply Forall_map. apply Forall_forall. intros b _. discriminate.
  - generalize (concat (map enc demo_response)). intros l.
    induction l as [|b l IH]; [reflexivity|]. cbn [map concat app]. by rewrite IH.
Defined.

Definition insert_sql : pystr := u "INSERT INTO t VALUES (1)".
Lemma unsafe_sent_once_witness : let c := open_conn [Broken] [] [Some (mkSocket [] [])] in
  ∃ c', client_execute 5 None insert_sql None c = (Err ClientTimeoutError, c') ∧ c'.(cn_net) = c.(cn_net) ∧
  ((c'.(cn_log) = [] ∧ ∃ e, Err (A := Result) ClientTimeoutError = Err e) ∨
   ∃ f data, request insert_sql None = Ok f ∧ to_bytes f = Ok data ∧ c'.(cn_log) = [data]).
Proof.
  cbv zeta. destruct (client_execute 5 None insert_sql None (open_conn [Broken] [] [Some (mkSocket [] [])])) as [r c'] eqn:He.
  exists c'. assert (r = Err ClientTimeoutError) as Hr by (vm_compute in He; congruence).
  pose proof (unsafe_sent_once insert_sql None 5 None _ r c' eq_refl He) as Hs. rewrite Hr in Hs. rewrite Hr. split; [reflexivity|exact Hs].
Defined.

(** The answers of the server to a handshake and to queries *)
Definition ok_reply : Frame := match to_frame (OkMsg (u "v1")) with Ok f => f | Err _ => mkFrame 0 0 0 [] end.
Definition count_reply (n : Z) : list Frame := match to_frame (ResultDone n 0 0) with Ok f => [f] | Err _ => [] end.
Example connects : (let '(r, c) := new_client [Some (mkSocket (wire [ok_reply]) [])] in (r, c.(cn_version), length c.(cn_log))) = (Ok (), u "v1", 1%nat).
Proof. vm_compute. reflexivity. Qed.
Example refused : (new_client [None]).1 = Err ClientConnectionError.
Proof. reflexivity. Qed.
(** A response that comes after its time-out stays in the queue, and is taken
    for the answer to the next statement. *)
Example late_response_answers_next :
  let c := open_conn ([Quiet] ++ wire (count_reply 1) ++ wire (count_reply 99)) [] [] in
  let '(r1, c) := client_execute 5 None insert_sql None c in
  let '(r2, c) := client_execute 5 None insert_sql None c in
  (r1, r2) = (Err ClientTimeoutError, Ok (mkResult [] 1 [] 0)) ∧ c.(cn_queue) = count_reply 99.
Proof. vm_compute. done. Qed.
(** When the server goes away, nothing but the reader thread notices: a SELECT
    waits for its time-out, and is not repeated although a server is there to
    connect to; and the OSError of a broken socket is not taken for a lost
    connection either. *)
Example lost_connection_not_retried :
  let server := Some (mkSocket (wire (ok_reply :: demo_response)) []) in
  let select c := (client_execute 5 None (u "SELECT id, name FROM t") None c).1 in
  select (open_conn [Eof] [] [server]) = Err ClientTimeoutError ∧ select (open_conn [] [false] [server]) = Err OSError.
Proof. vm_compute. done. Qed.
(** A [close] twice says goodbye once. *)
Example closes_once : length (close (close (open_conn [] [] [])).2).2.(cn_log) = 1%nat.
Proof. vm_compute. reflexivity. Qed.
Example pings : (match to_frame (Pong 5) with Ok f => (ping 5 9 (open_conn (wire [f]) [] [])).1 | Err e => Err e end,
  (ping 5 9 (open_conn [] [] [])).1, (ping 5 9 (close (open_conn [] [] [])).2).1) = (Ok 4, Err ClientConnectionError, Err ClientConnectionError).
Proof. vm_compute. reflexivity. Qed.
