(* ===== verification/AsyncClient.v ===== *)
(** Component [client/async_client.py]: the client without a reader thread,
    which reads its frames itself. *)
From S2P Require Import Prelude.
From S2P Require Import Bytes.
From S2P Require Import Utf8.
From S2P Require Import Text.
From S2P Require Import TypeSys.
From S2P Require Import Codec.
From S2P Require Import PyConv.
From S2P Require Import Protocol.
From S2P Require Import Messages.
From S2P Require Import Handler.
From S2P Require Import Client.
From S2P Require Import Connection.
From Stdlib Require Import ZArith Lia.
Local Open Scope Z_scope.

(** An [asyncio.StreamReader]: the bytes that it holds, and what comes in behind
    them; with it goes the writer, and whether each [drain] works. *)
Record Stream := mkStream { as_buffer : bytes; as_in : list recv; as_drains : list bool }.
Record AsyncClient := mkAsync {
  ac_net : list (option Stream);    (** what [open_connection] gives next *)
  ac_stream : option Stream;        (** [_reader] and [_writer] *)
  ac_frame_reader : FrameReader;
  ac_closed : bool;
  ac_version : pystr;
  ac_log : list bytes;
}.
Definition set_stream (s : option Stream) (c : AsyncClient) : AsyncClient :=
  mkAsync c.(ac_net) s c.(ac_frame_reader) c.(ac_closed) c.(ac_version) c.(ac_log).
Definition set_frame_reader (r : FrameReader) (c : AsyncClient) : AsyncClient :=
  mkAsync c.(ac_net) c.(ac_stream) r c.(ac_closed) c.(ac_version) c.(ac_log).

(** * Reading *)

(** [reader.readexactly(n)], under a time-out: when it is cancelled the bytes
    stay in the buffer; at the end of the stream they are lost. *)
Fixpoint read_bytes (n : Z) (buffer : bytes) (ins : list recv) : result bytes * (bytes * list recv) :=
  if n <=? zlen buffer then (Ok (ztake n buffer), (zdrop n buffer, ins)) else
  match ins with
  | [] => (Err TimeoutError, (buffer, []))
  | Quiet :: ins => (Err TimeoutError, (buffer, ins))
  | Eof :: _ => (Err EOFError, ([], ins))
  | Broken :: _ => (Err OSError, (buffer, ins))
  | Chunk buf :: ins => read_bytes n (buffer ++ buf) ins
  end.
Definition read_exactly (n : Z) : M AsyncClient bytes := λ c,
  match c.(ac_stream) with
  | None => (Err AttributeError, c)
  | Some s => let '(r, (b, ins)) := read_bytes n s.(as_buffer) s.(as_in) in (r, set_stream (Some (mkStream b ins s.(as_drains))) c)
  end.
Definition _read_one_frame : M AsyncClient Frame :=
  c ← get;
  match c.(ac_stream) with
  | None => raise ClientConnectionError
  | Some _ =>
      header ← read_exactly 6;
      rest ← read_exactly (be_val (ztake 4 header));
      frame ← zoom ac_frame_reader set_frame_reader (feed (header ++ rest));
      match frame with Some f => mret f | None => raise ProtocolError end
  end.
(** [except asyncio.TimeoutError] *)
Definition on_timeout {A} (e' : exn) (m : M AsyncClient A) : M AsyncClient A :=
  catch m (λ e, raise (if bool_decide (e = TimeoutError) then e' else e)).
(** Every frame takes bytes, so as many passes as there are bytes suffice. *)
Definition stream_size (s : Stream) : nat :=
  length s.(as_buffer) + foldr (λ i n, (match i with Chunk b => length b | _ => 0 end) + n)%nat O s.(as_in).
(** [_read_until]: the predicate may change the state [X]; its state when it holds *)
Fixpoint read_until {X} (fuel : nat) (predicate : Frame → M X bool) (x : X) : M AsyncClient (Frame * X) :=
  match fuel with
  | O => raise OutOfFuel
  | S fuel =>
      frame ← on_timeout ClientTimeoutError _read_one_frame;
      let '(r, x) := predicate frame x in
      b ← lift r;
      if b : bool then mret (frame, x) else read_until fuel predicate x
  end.
Definition _read_until {X} (predicate : Frame → M X bool) (x : X) : M AsyncClient (Frame * X) :=
  c ← get; read_until (S (match c.(ac_stream) with Some s => stream_size s | None => 0 end)) predicate x.

Section AsyncClient.
Context `{PyConv}.

(** * Connections *)

(** [write_frame], then [drain] *)
Definition write (f : Frame) : M AsyncClient unit :=
  data ← lift (to_bytes f);
  modify (λ c, mkAsync c.(ac_net) c.(ac_stream) c.(ac_frame_reader) c.(ac_closed) c.(ac_version) (c.(ac_log) ++ [data])).
Definition drain_writer : M AsyncClient unit :=
  c ← get;
  match c.(ac_stream) with
  | None => raise AttributeError
  | Some s =>
      match s.(as_drains) with
      | false :: _ => raise OSError
      | true :: l => put (set_stream (Some (mkStream s.(as_buffer) s.(as_in) l)) c)
      | [] => mret ()
      end
  end.
Definition ignore (m : M AsyncClient unit) : M AsyncClient unit := catch m (λ _, mret ()).
Definition _abort : M AsyncClient unit :=
  modify (λ c, mkAsync c.(ac_net) None c.(ac_frame_reader) true c.(ac_version) c.(ac_log)).
Definition open_connection : M AsyncClient unit :=
  c ← get;
  match c.(ac_net) with
  | [] => raise ClientConnectionError
  | s :: net =>
      put (mkAsync net s c.(ac_frame_reader) c.(ac_closed) c.(ac_version) c.(ac_log));;
      match s with Some _ => mret () | None => raise ClientConnectionError end
  end.
Definition connect : M AsyncClient unit :=
  c ← get;
  match c.(ac_stream) with
  | Some _ => mret ()
  | None =>
      open_connection;;
      hello ← lift hello_frame;
      write hello;;
      ignore drain_writer;;
      ok_frame ← catch _read_one_frame (λ e, if bool_decide (e = TimeoutError) then _abort;; raise ClientTimeoutError else raise e);
      if negb (is_type OK ok_frame) then _abort;; raise ClientProtocolError else
      ok ← lift (from_frame OK ok_frame);
      modify (λ c, mkAsync c.(ac_net) c.(ac_stream) c.(ac_frame_reader) c.(ac_closed) (match ok with OkMsg v => v | _ => c.(ac_version) end) c.(ac_log))
  end.
Definition new_async (net : list (option Stream)) : AsyncClient := mkAsync net None (mkReader None []) false [] [].
Definition close_async : M AsyncClient unit :=
  c ← get;
  if c.(ac_closed) then mret () else
  modify (λ c, mkAsync c.(ac_net) c.(ac_stream) c.(ac_frame_reader) true c.(ac_version) c.(ac_log));;
  match c.(ac_stream) with
  | None => mret ()
  | Some _ => ignore (f ← lift (to_frame Quit); write f;; drain_writer)
  end;;
  modify (set_stream None).

(** * Requests *)

Definition collect_async : M AsyncClient Result :=
  fr ← _read_until add new_Response; lift (to_result fr.2).
Definition execute_async (sql : pystr) (params : option (list pyval)) : M AsyncClient Result :=
  connect;;
  f ← lift (request sql params);
  write f;;
  drain_writer;;
  collect_async.
Definition execute_many_async (sql : pystr) (params_list : list (list pyval)) (batch_size : Z) : M AsyncClient Z :=
  execute_many execute_async sql params_list batch_size.
Definition is_pong (f : Frame) : M unit bool := mret (is_type PONG f).
Definition ping_async (ts now : Z) : M AsyncClient Z :=
  c ← get;
  match c.(ac_stream) with
  | None => raise ClientConnectionError
  | Some _ =>
      f ← lift (to_frame (Ping ts));
      write f;;
      drain_writer;;
      fr ← catch (_read_until is_pong ()) (λ e, raise (if bool_decide (e = ClientTimeoutError) then ClientConnectionError else e));
      m ← lift (ts_from_frame Pong fr.1);
      mret (match m with Pong t => now - t | _ => 0 end)
  end.

(** * The two clients agree *)

(** The client has the bytes [bs] before it, some of them read from the socket
    already, and then [more]. *)
Definition ahead (c : AsyncClient) (bs : bytes) (more : list recv) : Prop :=
  c.(ac_frame_reader) = mkReader None [] ∧
  ∃ buf bufs drains, c.(ac_stream) = Some (mkStream buf (map Chunk bufs ++ more) drains) ∧ buf ++ concat bufs = bs.

Lemma readexactly_chunks n a b more : zlen a = n → ∀ bufs buffer, buffer ++ concat bufs = a ++ b →
  ∃ buf' bufs', read_bytes n buffer (map Chunk bufs ++ more) = (Ok a, (buf', map Chunk bufs' ++ more)) ∧ buf' ++ concat bufs' = b.
Proof.
  intros Ha bufs. induction bufs as [|buf bufs IH]; intros buffer Hb.
  - cbn [concat] in Hb. rewrite app_nil_r in Hb. subst buffer. exists b, []. cbn [map concat app]. rewrite app_nil_r. split; [|done].
    assert ((n <=? zlen (a ++ b)) = true) as Hle by (rewrite zlen_app; apply Z.leb_le; pose proof (zlen_nonneg b); lia).
    assert (ztake n (a ++ b) = a) as Ht by (by rewrite ztake_app). assert (zdrop n (a ++ b) = b) as Hd by (by rewrite zdrop_app).
    destruct more as [|m more]; cbn [read_bytes]; by rewrite Hle, Ht, Hd.
  - cbn [map app read_bytes]. destruct (Z.leb_spec n (zlen buffer)) as [Hle|Hlt].
    + assert (∃ x, buffer = a ++ x ∧ x ++ concat (buf :: bufs) = b) as (x & -> & Hx).
      { apply (app_split_rest _ _ _ _ Hb). unfold zlen in *. lia. }
      exists x, (buf :: bufs). rewrite ztake_app, zdrop_app by done. by split.
    + apply IH. cbn [concat] in Hb. by rewrite <-app_assoc.
Qed.
Lemma read_exactly_ahead c a b more : ahead c (a ++ b) more → ∃ c', read_exactly (zlen a) c = (Ok a, c') ∧ ahead c' b more ∧
  (∃ s, c'.(ac_stream) = Some s).
Proof.
  intros (Hr & buf & bufs & drains & Hs & Hb). destruct (readexactly_chunks (zlen a) a b more eq_refl bufs buf Hb) as (buf' & bufs' & Hx & Hb').
  unfold read_exactly. rewrite Hs. cbn [as_buffer as_in as_drains]. rewrite Hx. eexists. split; [reflexivity|]. split; [|by eexists].
  split; [done|]. by exists buf', bufs', drains.
Qed.
Lemma header_length f x : ok_frame f → be_val (ztake 4 (ztake 6 (enc f ++ x))) = zlen f.(fr_payload).
Proof.
  intros (_ & _ & Hl & Hm). pose proof (zlen_nonneg f.(fr_payload)) as Hp. unfold ztake. rewrite take_take. change (Z.to_nat 4 `min` Z.to_nat 6)%nat with (Z.to_nat 4).
  fold (ztake 4 (enc f ++ x)). unfold enc. rewrite <-app_assoc, ztake_app by (by rewrite zlen_be_bytes). apply be_val_be_bytes_small; unfold MAX_FRAME_LEN in *. lia.
Qed.
Lemma read_frame_ahead c f bs more : ok_frame f → ahead c (enc f ++ bs) more →
  ∃ c', _read_one_frame c = (Ok f, c') ∧ ahead c' bs more.
Proof.
  intros Hf Ha. set (h := ztake 6 (enc f)). set (p := f.(fr_payload)).
  assert (enc f = h ++ p) as He.
  { unfold h, p, enc, ztake. rewrite app_assoc. rewrite take_app_length'; [done|]. rewrite length_app.
    generalize (zlen f.(fr_payload)). intros n. pose proof (zlen_be_bytes 4 n) as Hz. unfold zlen in Hz. change (Z.to_nat 6) with 6%nat. cbn [length]. lia. }
  assert (zlen h = 6) as Hh6 by (apply (f_equal zlen) in He; rewrite zlen_enc, zlen_app in He; unfold _HEADER_SIZE in He; fold p in He; lia).
  assert (be_val (ztake 4 h) = zlen p) as Hlen by (pose proof (header_length f [] Hf) as Hx; rewrite app_nil_r in Hx; exact Hx).
  rewrite He, <-app_assoc in Ha. unfold _read_one_frame. mrun.
  destruct Ha as (Hr & buf & bufs & drains & Hs & Hb). rewrite Hs.
  destruct (read_exactly_ahead c h (p ++ bs) more) as (c1 & H1 & A1 & _); [by split; [|exists buf, bufs, drains]|].
  rewrite Hh6 in H1. rewrite (run_Ok _ _ _ _ _ H1), Hlen.
  destruct (read_exactly_ahead c1 p bs more A1) as (c2 & H2 & A2 & _). rewrite (run_Ok _ _ _ _ _ H2).
  destruct A2 as (Hr2 & Hs2).
  assert (zoom ac_frame_reader set_frame_reader (feed (h ++ p)) c2 = (Ok (Some f), set_frame_reader (mkReader None []) c2)) as Hfeed.
  { unfold zoom. rewrite Hr2, <-He, feed_next. cbn [app]. rewrite <-(app_nil_r (enc f)), next_frame_enc by (done || lia). done. }
  rewrite (run_Ok _ _ _ _ _ Hfeed). eexists. split; [reflexivity|]. by split.
Qed.
Lemma read_until_ahead fs : Forall ok_frame fs → ∀ c bs more r r' later fuel, ahead c (concat (map enc fs) ++ bs) more →
  take_response fs r = (Ok (Some r'), later) → (length fs <= fuel)%nat →
  ∃ c' f, read_until fuel add r c = (Ok (f, r'), c') ∧ ahead c' (concat (map enc later) ++ bs) more.
Proof.
  induction 1 as [|f fs Hf Hfs IH]; intros c bs more r r' later fuel Ha Ht Hfuel; [done|].
  destruct fuel as [|fuel]; [cbn in Hfuel; lia|]. cbn [map concat] in Ha. rewrite <-app_assoc in Ha.
  destruct (read_frame_ahead c f _ more Hf Ha) as (c1 & H1 & A1). cbn [read_until].
  assert (on_timeout ClientTimeoutError _read_one_frame c = (Ok f, c1)) as H2 by (unfold on_timeout, catch; by rewrite H1).
  rewrite (run_Ok _ _ _ _ _ H2). cbn [take_response] in Ht. destruct (add f r) as [[[]|e] r1]; [| |done]; rewrite run_lift_Ok.
  - injection Ht as <- <-. by exists c1, f.
  - apply (IH c1); [done|done|cbn in Hfuel; lia].
Qed.
Lemma size_frames fs : (length fs <= length (concat (map enc fs)))%nat.
Proof.
  induction fs as [|f fs IH]; [done|]. cbn [map concat]. rewrite length_app. pose proof (zlen_enc f) as Hz.
  pose proof (zlen_nonneg f.(fr_payload)). unfold zlen, _HEADER_SIZE in Hz. cbn [length]. lia.
Qed.
Lemma ahead_size c bs more : ahead c bs more → ∃ s, c.(ac_stream) = Some s ∧ (length bs <= stream_size s)%nat.
Proof.
  intros (_ & buf & bufs & drains & -> & <-). eexists. split; [done|]. unfold stream_size. cbn [as_buffer as_in]. rewrite length_app.
  apply Nat.add_le_mono_l. induction bufs as [|b bufs IH]; [cbn; lia|]. cbn [concat map app foldr]. rewrite length_app. by apply Nat.add_le_mono_l.
Qed.
(** C36: on the same frames the asynchronous client gives what the synchronous one
    gives: when its stream holds the bytes of the frames, in whatever pieces,
    and their first frames make a response, it returns or raises what the
    response says, and leaves exactly the frames behind the response, and what
    comes behind them, for the next statement. *)
Theorem async_agrees (fs later : list Frame) (r : _Response) (c : AsyncClient) bs more :
  ahead c (concat (map enc fs) ++ bs) more → Forall ok_frame fs → take_response fs new_Response = (Ok (Some r), later) →
  ∃ c', collect_async c = (to_result r, c') ∧ ahead c' (concat (map enc later) ++ bs) more ∧
    ∀ lost, _collect_response lost fs = (res ← to_result r; Ok (res, later)).
Proof.
  intros Ha Hfs Ht. destruct (ahead_size _ _ _ Ha) as (s & Hs & Hsize). rewrite length_app in Hsize. pose proof (size_frames fs) as Hl.
  destruct (read_until_ahead fs Hfs c bs more new_Response r later (S (stream_size s)) Ha Ht) as (c' & f & Hr & Ha'); [lia|].
  exists c'. split; [|split; [done|]].
  - unfold collect_async, _read_until. rewrite run_assoc, run_get, Hs. by rewrite (run_Ok _ _ _ _ _ Hr).
  - intros lost. unfold _collect_response. by rewrite take_gather, Ht.
Qed.

(** * The passes suffice *)

Definition bytes_in (ins : list recv) : nat := foldr (λ i n, (match i with Chunk b => length b | _ => 0 end) + n)%nat O ins.
Definition size (c : AsyncClient) : nat := match c.(ac_stream) with Some s => stream_size s | None => 0 end.
Lemma read_bytes_size n : 0 <= n → ∀ ins b,
  match read_bytes n b ins with
  | (Ok a, (b', ins')) => zlen a = n ∧ (length a + (length b' + bytes_in ins') = length b + bytes_in ins)%nat
  | (Err e, _) => e ≠ OutOfFuel
  end.
Proof.
  intros Hn ins. assert (∀ b : bytes, n <= zlen b → zlen (ztake n b) = n ∧ ∀ k, (length (ztake n b) + (length (zdrop n b) + k) = length b + k)%nat) as Hcut.
  { intros b Hb. split; [rewrite zlen_ztake; lia|]. intros k. pose proof (f_equal length (ztake_zdrop n b)) as Hl. rewrite length_app in Hl. lia. }
  induction ins as [|i ins IH]; intros b; cbn [read_bytes]; destruct (Z.leb_spec n (zlen b)) as [Hle|Hlt]; try done.
  - destruct (Hcut b Hle). by split.
  - destruct (Hcut b Hle). by split.
  - destruct i as [buf| | |]; try done. specialize (IH (b ++ buf)). destruct (read_bytes n (b ++ buf) ins) as [[a|e] [b' ins']]; [|done].
    destruct IH as [Ha Hs]. split; [done|]. rewrite length_app in Hs. cbn [bytes_in foldr]. fold (bytes_in ins). lia.
Qed.
Lemma read_exactly_size n c : 0 <= n →
  match read_exactly n c with
  | (Ok a, c') => zlen a = n ∧ (length a + size c' = size c)%nat
  | (Err e, _) => e ≠ OutOfFuel
  end.
Proof.
  intros Hn. unfold read_exactly, size. destruct (ac_stream c) as [[b ins drains]|]; [|done]. cbn [as_buffer as_in].
  pose proof (read_bytes_size n Hn ins b) as Hr. by destruct (read_bytes n b ins) as [[a|e] [b' ins']].
Qed.
Lemma read_frame_size c :
  match _read_one_frame c with (Ok f, c') => (size c' < size c)%nat | (Err e, _) => e ≠ OutOfFuel end.
Proof.
  unfold _read_one_frame. mrun. destruct (ac_stream c); [|done].
  pose proof (read_exactly_size 6 c) as H1. destruct (read_exactly 6 c) as [[h|e] c1] eqn:E1; [rewrite (run_Ok _ _ _ _ _ E1)|by rewrite (run_Err _ _ _ _ _ E1); apply H1].
  destruct H1 as [Hh Hs1]; [lia|]. pose proof (be_val_bound (ztake 4 h)) as Hb.
  pose proof (read_exactly_size (be_val (ztake 4 h)) c1) as H2.
  destruct (read_exactly (be_val (ztake 4 h)) c1) as [[p|e] c2] eqn:E2; [rewrite (run_Ok _ _ _ _ _ E2)|rewrite (run_Err _ _ _ _ _ E2); apply H2; lia].
  destruct H2 as [_ Hs2]; [lia|]. unfold zlen in Hh.
  unfold mbind, M_bind, zoom. destruct (ac_frame_reader c2) as [rs rb]. rewrite feed_next.
  destruct (next_frame _ _) as [| |f rest]; [done|done|]. cbn. change (size (set_frame_reader _ c2)) with (size c2). lia.
Qed.
Lemma read_until_ends {X} (predicate : Frame → M X bool) : (∀ f x, (predicate f x).1 ≠ Err OutOfFuel) →
  ∀ fuel x c, (size c < fuel)%nat → (read_until fuel predicate x c).1 ≠ Err OutOfFuel.
Proof.
  intros Hp fuel. induction fuel as [|fuel IH]; intros x c Hc; [lia|]. cbn [read_until].
  pose proof (read_frame_size c) as Hf. destruct (_read_one_frame c) as [[f|e] c1] eqn:E.
  - assert (on_timeout ClientTimeoutError _read_one_frame c = (Ok f, c1)) as H1 by (unfold on_timeout, catch; by rewrite E).
    rewrite (run_Ok _ _ _ _ _ H1). specialize (Hp f x). destruct (predicate f x) as [[[]|e] x']; rewrite ?run_lift_Ok, ?run_lift_Err; [done| |cbn in *; congruence].
    apply IH. lia.
  - assert (on_timeout ClientTimeoutError _read_one_frame c = (Err (if bool_decide (e = TimeoutError) then ClientTimeoutError else e), c1)) as H1
      by (unfold on_timeout, catch; by rewrite E).
    rewrite (run_Err _ _ _ _ _ H1). cbn. case_bool_decide; congruence.
Qed.
Lemma type_known t f : is_type t f = true → MessageType_of f.(fr_type) = Ok t.
Proof. unfold is_type. intros ->%Z.eqb_eq. by destruct t. Qed.
Lemma add_ends f r : (add f r).1 ≠ Err OutOfFuel.
Proof.
  assert (∀ t, is_type t f = true → from_frame t f ≠ Err OutOfFuel) as Hdec.
  { intros t Ht He. destruct (decode_message_errors f OutOfFuel) as [[|[|]]|[? _]]; try done. unfold decode_message. by rewrite (type_known t f Ht), bind_Ok. }
  unfold add.
  destruct (is_type RESULT_HEADER f) eqn:T1; [pose proof (Hdec _ T1) as Hd; cbn [from_frame] in Hd; destruct (header_from_frame f) as [m|e]; mrun; cbn; congruence|].
  destruct (is_type RESULT_ROW f) eqn:T2; [pose proof (Hdec _ T2) as Hd; cbn [from_frame] in Hd; destruct (row_from_frame f) as [m|e]; mrun; cbn; congruence|].
  destruct (is_type RESULT_DONE f) eqn:T3; [pose proof (Hdec _ T3) as Hd; cbn [from_frame] in Hd; destruct (done_from_frame f) as [m|e]; mrun; cbn; congruence|].
  destruct (is_type RESULT_ERROR f) eqn:T4; [pose proof (Hdec _ T4) as Hd; cbn [from_frame] in Hd; destruct (error_from_frame ResultError f) as [m|e]; mrun; cbn; congruence|].
  by mrun.
Qed.
(** Whatever comes in, the wait for a response ends, by a frame or an exception
    of Python. *)
Lemma collect_async_ends c : (_read_until add new_Response c).1 ≠ Err OutOfFuel.
Proof. unfold _read_until. mrun. apply read_until_ends; [apply add_ends|]. unfold size. lia. Qed.
End AsyncClient.


(** * Concrete clients *)

#[local] Existing Instance demo_conv.
Definition open_async (ins : list recv) (net : list (option Stream)) : AsyncClient :=
  mkAsync net (Some (mkStream [] ins [])) (mkReader None []) false (u "0.3") [].
Definition first_response : _Response :=
  match take_response demo_response new_Response with (Ok (Some r), _) => r | _ => new_Response end.
Lemma async_agrees_witness : ∃ c', collect_async (open_async (wire demo_response ++ [Eof]) []) = (to_result first_response, c') ∧
  ahead c' [] [Eof] ∧ ∀ lost, _collect_response lost demo_response = (res ← to_result first_response; Ok (res, [])).
Proof.
  assert (take_response demo_response new_Response = (Ok (Some first_response), [])) as Ht by (vm_compute; reflexivity).
  apply (async_agrees demo_response [] first_response (open_async (wire demo_response ++ [Eof]) []) [] [Eof]).
  - split; [reflexivity|]. exists [], (map (λ b, [b]) (concat (map enc demo_response))), []. split; [unfold wire; by rewrite map_map|].
    rewrite app_nil_r. generalize (concat (map enc demo_response)). intros l. cbn [app].
    induction l as [|b l IH]; [reflexivity|]. cbn [map concat app]. by rewrite IH.
  - unfold ok_frame. apply (bool_decide_unpack (Forall (λ f, is_byte f.(fr_type) = true ∧ is_byte f.(fr_flags) = true ∧
      f.(fr_len) = zlen f.(fr_payload) ∧ f.(fr_len) <= MAX_FRAME_LEN) demo_response)). vm_compute. exact I.
  - exact Ht.
Defined.
Example async_connects : (let '(r, c) := execute_async (u "SELECT id FROM t") None (new_async [Some (mkStream [] (wire (ok_reply :: demo_response)) [])]) in
  (match r with Ok res => res.(res_rowcount) | Err _ => -1 end, c.(ac_version), length c.(ac_log))) = (2, u "v1", 2%nat).
Proof. vm_compute. reflexivity. Qed.

(** A time-out between the header of a frame and its payload drops the header:
    what comes next is read as if it were one, and the statement behind it
    gets no answer. *)
Example timeout_in_frame_loses_sync :
  let reply := concat (map enc (count_reply 1)) in
  let c := open_async ([Chunk (take 6 reply); Quiet; Chunk (drop 6 reply)] ++ wire (count_reply 99)) [] in
  let '(r1, c) := execute_async insert_sql None c in
  (r1, (execute_async insert_sql None c).1) = (Err ClientTimeoutError, Err ClientTimeoutError).
Proof. vm_compute. reflexivity. Qed.
(** The end of the stream is the [EOFError] of [readexactly], not a
    [ClientConnectionError]; in a handshake it leaves a client that takes itself
    for connected. *)
Example end_of_stream_is_eof_error :
  (execute_async insert_sql None (open_async [Eof] [])).1 = Err EOFError ∧
  let '(r, c) := connect (new_async [Some (mkStream [] [Eof] [])]) in r = Err EOFError ∧ (connect c).1 = Ok ().
Proof. vm_compute. done. Qed.
(** [execute] on a closed client connects again, and then [close] does nothing. *)
Example closed_client_connects_again :
  let c := (close_async (open_async [] [Some (mkStream [] (wire (ok_reply :: count_reply 1)) [])])).2 in
  let '(r, c) := execute_async insert_sql None c in
  r = Ok (mkResult [] 1 [] 0) ∧ c.(ac_closed) = true ∧ (close_async c).2 = c ∧ c.(ac_stream) ≠ None.
Proof. vm_compute. done. Qed.
Example async_pings : (match to_frame (Pong 5) with Ok f => (ping_async 5 9 (open_async (wire (f :: count_reply 1)) [])).1 | Err e => Err e end,
  (ping_async 5 9 (open_async [Quiet] [])).1) = (Ok 4, Err ClientConnectionError).
Proof. vm_compute. reflexivity. Qed.
