(* ===== verification/ClientPool.v ===== *)
(** Component [client/pool.py]: the pool of clients, as threads that run its
    methods at the same time. *)
From S2P Require Import Prelude.
From S2P Require Import Bytes.
From stdpp Require Import gmap fin_maps.
From Stdlib Require Import ZArith Lia.
Local Open Scope Z_scope.

(** Clients are numbered as they are made; [po_shut] are those whose [close]
    was called. *)
Record ClientPool := mkClients {
  po_max_size : Z;
  po_idle : list Z;         (** [queue.Queue(maxsize=max_size)] *)
  po_all_clients : list Z;
  po_closed : bool;
  po_made : Z;
  po_shut : gset Z;
}.
Definition new_client_pool (max_size : Z) : result ClientPool :=
  ensure (1 <=? max_size) ValueError;; Ok (mkClients max_size [] [] false 0 ∅).

(** * What happens without another thread in between *)

Definition set_idle (l : list Z) (p : ClientPool) : ClientPool :=
  mkClients p.(po_max_size) l p.(po_all_clients) p.(po_closed) p.(po_made) p.(po_shut).
Definition set_all (l : list Z) (p : ClientPool) : ClientPool :=
  mkClients p.(po_max_size) p.(po_idle) l p.(po_closed) p.(po_made) p.(po_shut).
(** [if self._closed: raise RuntimeError] *)
Definition check_open : M ClientPool unit := p ← get; assert (negb p.(po_closed)) RuntimeError.
(** [self._idle.get_nowait()]; [None] for [queue.Empty] *)
Definition get_idle : M ClientPool (option Z) :=
  p ← get;
  match p.(po_idle) with
  | [] => mret None
  | c :: idle => put (set_idle idle p);; mret (Some c)
  end.
(** [self._make_client()]: the connection is made or refused *)
Definition _make_client (connects : bool) : M ClientPool Z :=
  assert connects ClientConnectionError;;
  p ← get;
  put (mkClients p.(po_max_size) p.(po_idle) p.(po_all_clients) p.(po_closed) (p.(po_made) + 1) p.(po_shut));;
  mret p.(po_made).
(** The slow path of [acquire], under the lock *)
Definition grow (connects : bool) : M ClientPool (option Z) :=
  check_open;;
  p ← get;
  if zlen p.(po_all_clients) <? p.(po_max_size) then
    c ← _make_client connects;
    modify (λ p, set_all (p.(po_all_clients) ++ [c]) p);;
    mret (Some c)
  else mret None.
(** [acquire] by one thread; [None] when it has to wait *)
Definition acquire (connects : bool) : M ClientPool (option Z) :=
  check_open;;
  c ← get_idle;
  match c with
  | Some c => mret (Some c)
  | None => c ← grow connects; match c with Some c => mret (Some c) | None => get_idle end
  end.
(** [try: client.close() except Exception: pass] *)
Definition close_client (c : Z) : M ClientPool unit :=
  modify (λ p, mkClients p.(po_max_size) p.(po_idle) p.(po_all_clients) p.(po_closed) p.(po_made) ({[c]} ∪ p.(po_shut))).
(** [put_nowait]; the client is closed when the queue is full *)
Definition put_idle (c : Z) : M ClientPool unit :=
  p ← get;
  if zlen p.(po_idle) <? p.(po_max_size) then put (set_idle (p.(po_idle) ++ [c]) p) else close_client c.
Definition release (c : Z) : M ClientPool unit :=
  p ← get;
  if p.(po_closed) then close_client c else put_idle c.
Fixpoint remove_first (c : Z) (l : list Z) : list Z :=
  match l with [] => [] | x :: l => if x =? c then l else x :: remove_first c l end.
Definition _forget (c : Z) : M ClientPool unit := modify (λ p, set_all (remove_first c p.(po_all_clients)) p).
(** The steps of [close] *)
Definition mark_closed : M ClientPool unit :=
  modify (λ p, mkClients p.(po_max_size) p.(po_idle) p.(po_all_clients) true p.(po_made) p.(po_shut)).
Definition drain_one : M ClientPool bool :=
  c ← get_idle;
  match c with None => mret false | Some c => close_client c;; mret true end.
Fixpoint close_each (l : list Z) : M ClientPool unit :=
  match l with [] => mret () | c :: l => close_client c;; _forget c;; close_each l end.
Definition close_all : M ClientPool unit := p ← get; close_each p.(po_all_clients).

(** * Threads *)

(** Where a thread is: before the fast path, before the slow path, waiting for
    the queue; using a client; in [release] behind its test; its body has
    raised and its client is closed; in [close]. *)
Inductive phase :=
  | AtFast | AtGrow | AtGet
  | Holding (c : Z) | AtPut (c : Z) | Failed (c : Z)
  | Draining | AtCloseAll.
Record Sys := mkSys { sy_pool : ClientPool; sy_threads : gmap Z phase }.
Inductive event :=
  | StartAcquire (t : Z)
  | Continue (t : Z) (connects : bool)   (* the next part of the method that the thread is in *)
  | GiveUp (t : Z)                       (* the timeout of [get] *)
  | StartRelease (t : Z)
  | Fail (t : Z)                         (* the body of [connection] raises *)
  | StartClose (t : Z).

(** A part of a method, and where the thread is after it *)
Definition goto {A} (t : Z) (m : M ClientPool A) (next : A → option phase) (s : Sys) : Sys :=
  let '(r, p) := m s.(sy_pool) in
  mkSys p (match r with
           | Ok a => match next a with Some ph => <[t := ph]> s.(sy_threads) | None => delete t s.(sy_threads) end
           | Err _ => delete t s.(sy_threads)
           end).
Definition resume (t : Z) (connects : bool) (ph : phase) (s : Sys) : option Sys :=
  match ph with
  | AtFast => Some (goto t get_idle (λ c, Some (match c with Some c => Holding c | None => AtGrow end)) s)
  | AtGrow => Some (goto t (grow connects) (λ c, Some (match c with Some c => Holding c | None => AtGet end)) s)
  | AtGet => match s.(sy_pool).(po_idle) with
             | [] => None   (* sleeps *)
             | _ => Some (goto t get_idle (λ c, Some (match c with Some c => Holding c | None => AtGet end)) s)
             end
  | Holding _ => None
  | AtPut c => Some (goto t (put_idle c) (λ _, None) s)
  | Failed c => Some (goto t (_forget c) (λ _, None) s)
  | Draining => Some (goto t drain_one (λ b, Some (if b : bool then Draining else AtCloseAll)) s)
  | AtCloseAll => Some (goto t close_all (λ _, None) s)
  end.
Definition pool_sys_step (e : event) (s : Sys) : option Sys :=
  match e with
  | StartAcquire t =>
      match s.(sy_threads) !! t with None => Some (goto t check_open (λ _, Some AtFast) s) | Some _ => None end
  | Continue t connects => s.(sy_threads) !! t ≫= λ ph, resume t connects ph s
  | GiveUp t =>
      match s.(sy_threads) !! t with Some AtGet => Some (goto t (mret ()) (λ _, None) s) | _ => None end
  | StartRelease t =>
      match s.(sy_threads) !! t with
      | Some (Holding c) =>
          Some (if s.(sy_pool).(po_closed) then goto t (close_client c) (λ _, None) s else goto t (mret ()) (λ _, Some (AtPut c)) s)
      | _ => None
      end
  | Fail t =>
      match s.(sy_threads) !! t with Some (Holding c) => Some (goto t (close_client c) (λ _, Some (Failed c)) s) | _ => None end
  | StartClose t =>
      match s.(sy_threads) !! t with None => Some (goto t mark_closed (λ _, Some Draining) s) | Some _ => None end
  end.
Definition step (s s' : Sys) : Prop := ∃ e, pool_sys_step e s = Some s'.
Definition reachable (s : Sys) : Prop := ∃ n p, new_client_pool n = Ok p ∧ rtc step (mkSys p ∅) s.
Fixpoint run_events (es : list event) (s : Sys) : option Sys :=
  match es with [] => Some s | e :: es => pool_sys_step e s ≫= run_events es end.

(** * Who has a client *)

Definition client_of (p : phase) : list Z := match p with Holding c | AtPut c | Failed c => [c] | _ => [] end.
Definition held (ts : gmap Z phase) : list Z := map_to_list ts ≫= λ kv, client_of kv.2.
Lemma held_insert t p ts : ts !! t = None → held (<[t := p]> ts) ≡ₚ client_of p ++ held ts.
Proof. intros Ht. unfold held. by rewrite map_to_list_insert. Qed.
Lemma held_delete t p ts : ts !! t = Some p → held ts ≡ₚ client_of p ++ held (delete t ts).
Proof. intros Ht. rewrite <-held_insert by apply lookup_delete_eq. by rewrite insert_delete_id. Qed.
Lemma held_in ts c : c ∈ held ts ↔ ∃ t p, ts !! t = Some p ∧ c ∈ client_of p.
Proof.
  unfold held. rewrite list_elem_of_bind. split.
  - intros ([t p] & Hc & Hp%elem_of_map_to_list). by exists t, p.
  - intros (t & p & Hp & Hc). exists (t, p). split; [done|]. by apply elem_of_map_to_list.
Qed.

(** * The invariant *)

(** The clients in use or ready for use *)
Definition out (s : Sys) : list Z := s.(sy_pool).(po_idle) ++ held s.(sy_threads).
Definition in_use (p : phase) : list Z := match p with Holding c | AtPut c => [c] | _ => [] end.
Record pool_ok (s : Sys) : Prop := {
  pk_distinct : NoDup (out s);
  pk_all : s.(sy_pool).(po_closed) = false → out s ≡ₚ s.(sy_pool).(po_all_clients);
  pk_bound : zlen (out s) <= s.(sy_pool).(po_max_size) ∧ zlen s.(sy_pool).(po_all_clients) <= s.(sy_pool).(po_max_size);
  pk_made c : c ∈ out s ∨ c ∈ s.(sy_pool).(po_all_clients) ∨ c ∈ s.(sy_pool).(po_shut) → c < s.(sy_pool).(po_made);
  pk_open c : s.(sy_pool).(po_closed) = false →
    c ∈ s.(sy_pool).(po_idle) ∨ (∃ t p, s.(sy_threads) !! t = Some p ∧ c ∈ in_use p) → c ∉ s.(sy_pool).(po_shut);
  pk_closing t : s.(sy_threads) !! t = Some Draining ∨ s.(sy_threads) !! t = Some AtCloseAll → s.(sy_pool).(po_closed) = true;
}.

Definition move (t : Z) (n : option phase) (ts : gmap Z phase) : gmap Z phase :=
  match n with Some p => <[t := p]> ts | None => delete t ts end.
Definition clients (o : option phase) : list Z := match o with Some p => client_of p | None => [] end.
Definition used (o : option phase) : list Z := match o with Some p => in_use p | None => [] end.
Lemma held_move t n ts : held (move t n ts) ≡ₚ clients n ++ held (delete t ts).
Proof.
  destruct n as [p|]; [|done]. cbn [move clients]. rewrite <-insert_delete_eq. apply held_insert, lookup_delete_eq.
Qed.
Lemma held_now t ts : held ts ≡ₚ clients (ts !! t) ++ held (delete t ts).
Proof. destruct (ts !! t) as [p|] eqn:Ht; [by apply held_delete|]. by rewrite delete_id. Qed.
Lemma lookup_move t n ts t' : move t n ts !! t' = if decide (t' = t) then n else ts !! t'.
Proof. destruct n; cbn; case_decide; subst; by rewrite ?lookup_insert_eq, ?lookup_insert_ne, ?lookup_delete_eq, ?lookup_delete_ne. Qed.

Lemma used_clients o c : c ∈ used o → c ∈ clients o.
Proof. destruct o as [[]|]; cbn; (done || by intros ?%elem_of_nil). Qed.

(** A thread goes on without a new client. *)
Lemma move_ok s t n p' : let p := s.(sy_pool) in let o := s.(sy_threads) !! t in let others := held (delete t s.(sy_threads)) in
  pool_ok s → p'.(po_max_size) = p.(po_max_size) → p'.(po_made) = p.(po_made) → (p.(po_closed) = true → p'.(po_closed) = true) →
  p'.(po_idle) ++ clients n ⊆+ p.(po_idle) ++ clients o → p'.(po_all_clients) ⊆+ p.(po_all_clients) →
  (p'.(po_closed) = false → p'.(po_idle) ++ clients n ++ others ≡ₚ p'.(po_all_clients)) →
  (∀ c, c ∈ p'.(po_idle) ++ used n → c ∈ p.(po_idle) ++ used o) →
  (∀ c, c ∈ p'.(po_shut) → c ∈ p.(po_shut) ∨
     (c ∈ p.(po_idle) ++ clients o ∨ c ∈ p.(po_all_clients)) ∧ (p'.(po_closed) = false → c ∉ p'.(po_idle) ++ used n ++ others)) →
  (n = Some Draining ∨ n = Some AtCloseAll → p'.(po_closed) = true) →
  pool_ok (mkSys p' (move t n s.(sy_threads))).
Proof.
  cbv zeta. set (others := held (delete t (sy_threads s))). intros [Hd Ha Hb Hm Ho Hc] Hmax Hmade Hcl Hout Hall Hall' Huse Hshut Hn.
  assert (out s ≡ₚ (po_idle (sy_pool s) ++ clients (sy_threads s !! t)) ++ others) as Hs.
  { unfold out. by rewrite (held_now t), app_assoc. }
  assert (out (mkSys p' (move t n (sy_threads s))) ≡ₚ (po_idle p' ++ clients n) ++ others) as Hs'.
  { unfold out. cbn [sy_pool sy_threads]. by rewrite held_move, app_assoc. }
  assert (out (mkSys p' (move t n (sy_threads s))) ⊆+ out s) as Hsub by (rewrite Hs', Hs; by apply submseteq_app).
  split; cbn [sy_pool sy_threads].
  - apply submseteq_Permutation in Hsub as [k Hk]. rewrite Hk in Hd. by apply NoDup_app in Hd as (? & _).
  - intros Hf. rewrite Hs', <-app_assoc. by apply Hall'.
  - apply submseteq_length in Hsub, Hall. unfold zlen in *. rewrite Hmax. lia.
  - intros c. rewrite Hmade. intros Hin. apply Hm. destruct Hin as [Hin|[Hin|Hin]].
    + left. by eapply elem_of_submseteq.
    + right; left. by eapply elem_of_submseteq.
    + destruct (Hshut c Hin) as [Hx|[[Hx|Hx] _]]; [right; by right|left; rewrite Hs; apply elem_of_app; by left|right; by left].
  - intros c Hf Hin Hc'. assert (po_closed (sy_pool s) = false) as Hf0 by (destruct (po_closed (sy_pool s)); [by rewrite Hcl in Hf|done]).
    assert (c ∈ po_idle p' ++ used n ∨ ∃ t' p, t' ≠ t ∧ sy_threads s !! t' = Some p ∧ c ∈ in_use p) as Hin'.
    { destruct Hin as [Hin|(t' & ph & Ht & Hin)]; [left; apply elem_of_app; by left|]. rewrite lookup_move in Ht. case_decide; subst.
      - left. apply elem_of_app. by right.
      - right. by exists t', ph. }
    destruct (Hshut c Hc') as [Hx|[_ Hx]].
    + revert Hx. apply Ho; [done|]. destruct Hin' as [Hin'|(t' & ph & _ & Ht & Hin')]; [|by right; exists t', ph].
      apply Huse, elem_of_app in Hin' as [?|Hin']; [by left|]. right. destruct (sy_threads s !! t) as [ph|] eqn:E; [|by apply elem_of_nil in Hin']. by exists t, ph.
    + apply (Hx Hf). rewrite app_assoc. apply elem_of_app. destruct Hin' as [?|(t' & ph & Hne & Ht & Hin')]; [by left|right].
      apply held_in. exists t', ph. split; [by rewrite lookup_delete_ne|]. by apply (used_clients (Some ph)).
  - intros t'. rewrite lookup_move. case_decide; [done|]. intros Hx. by eapply Hcl, Hc.
Qed.
(** A thread makes a client. *)
Lemma made_ok s t p' : let p := s.(sy_pool) in
  pool_ok s → s.(sy_threads) !! t = Some AtGrow → p.(po_closed) = false → zlen p.(po_all_clients) < p.(po_max_size) →
  p' = mkClients p.(po_max_size) p.(po_idle) (p.(po_all_clients) ++ [p.(po_made)]) p.(po_closed) (p.(po_made) + 1) p.(po_shut) →
  pool_ok (mkSys p' (<[t := Holding p.(po_made)]> s.(sy_threads))).
Proof.
  cbv zeta. intros [Hd Ha Hb Hm Ho Hc] Ht Hf Hlt ->.
  assert (out (mkSys (mkClients (po_max_size (sy_pool s)) (po_idle (sy_pool s)) (po_all_clients (sy_pool s) ++ [po_made (sy_pool s)]) (po_closed (sy_pool s)) (po_made (sy_pool s) + 1) (po_shut (sy_pool s)))
    (<[t := Holding (po_made (sy_pool s))]> (sy_threads s))) ≡ₚ po_made (sy_pool s) :: out s) as Hs.
  { unfold out. cbn [sy_pool sy_threads po_idle]. change (<[t := Holding _]> ?ts) with (move t (Some (Holding (po_made (sy_pool s)))) ts).
    rewrite held_move, (held_now t (sy_threads s)), Ht. cbn [clients client_of app]. by rewrite <-Permutation_middle. }
  assert (po_made (sy_pool s) ∉ out s) as Hfresh by (intros Hx; specialize (Hm _ (or_introl Hx)); lia).
  split; cbn [sy_pool sy_threads po_closed po_all_clients po_max_size po_made po_shut po_idle].
  - rewrite Hs. by apply NoDup_cons.
  - intros _. by rewrite Hs, Ha, <-Permutation_cons_append.
  - rewrite Ha in Hs by done. apply Permutation_length in Hs. rewrite zlen_app. unfold zlen in *. cbn [length] in *. lia.
  - intros c. rewrite Hs. rewrite elem_of_app, elem_of_cons, list_elem_of_singleton. intros Hin.
    destruct (decide (c = po_made (sy_pool s))) as [->|Hne]; [lia|]. specialize (Hm c). assert (c < po_made (sy_pool s)); [|lia]. apply Hm. naive_solver.
  - intros c _ Hin. destruct (decide (c = po_made (sy_pool s))) as [->|Hne].
    + intros Hx. specialize (Hm _ (or_intror (or_intror Hx))). lia.
    + apply Ho; [done|]. destruct Hin as [?|(t' & p & Hp & Hin)]; [by left|right].
      apply lookup_insert_Some in Hp as [[<- <-]|[_ Hp]]; [by apply list_elem_of_singleton in Hin|]. by exists t', p.
  - intros t' Ht'. apply (Hc t'). destruct (decide (t' = t)) as [->|Hne]; [by rewrite lookup_insert_eq in Ht'; destruct Ht'|].
    by rewrite lookup_insert_ne in Ht' by done.
Qed.

(** * Every step keeps it *)

Lemma pool_start n p : new_client_pool n = Ok p → pool_ok (mkSys p ∅).
Proof.
  unfold new_client_pool. destruct (Z.leb_spec 1 n); cbn; [|done]. intros [= <-].
  assert (out (mkSys (mkClients n [] [] false 0 ∅) ∅) = []) as Hout by (unfold out, held; cbn; by rewrite map_to_list_empty).
  split; rewrite ?Hout; cbn [sy_pool sy_threads po_closed po_idle po_all_clients po_max_size po_made po_shut].
  - constructor.
  - done.
  - change (zlen (@nil Z)) with 0. lia.
  - intros c Hc. exfalso. set_solver.
  - set_solver.
  - intros t. rewrite lookup_empty. naive_solver.
Qed.
Lemma remove_first_in c l : c ∈ l → l ≡ₚ c :: remove_first c l.
Proof.
  induction l as [|x l IH]; [by intros ?%elem_of_nil|]. intros Hc. cbn [remove_first]. destruct (Z.eqb_spec x c) as [->|Hne]; [done|].
  apply elem_of_cons in Hc as [->|Hc]; [done|]. rewrite (IH Hc) at 1. apply Permutation_swap.
Qed.
Lemma remove_first_sub c l : remove_first c l ⊆+ l.
Proof.
  induction l as [|x l IH]; [done|]. cbn [remove_first]. destruct (x =? c); [by apply submseteq_cons|by apply submseteq_skip].
Qed.
Lemma get_idle_eq p : get_idle p =
  match p.(po_idle) with [] => (Ok None, p) | c :: idle => (Ok (Some c), set_idle idle p) end.
Proof. unfold get_idle. mrun. by destruct (po_idle p). Qed.
Lemma close_each_eq l : ∀ p, p.(po_all_clients) = l →
  close_each l p = (Ok (), mkClients p.(po_max_size) p.(po_idle) [] p.(po_closed) p.(po_made) (list_to_set l ∪ p.(po_shut))).
Proof.
  induction l as [|c l IH]; intros p Hp; cbn [close_each].
  - destruct p; cbn in *. subst. unfold mret, M_ret. do 2 f_equal. set_solver.
  - mrun. unfold close_client, _forget. mrun. rewrite IH; [|by cbn; rewrite Hp; cbn; rewrite Z.eqb_refl]. cbn. do 2 f_equal. set_solver.
Qed.

Section Steps.
Context (s : Sys) (t : Z) (Hs : pool_ok s).
Abbreviation p := (sy_pool s).
Abbreviation o := (sy_threads s !! t).
Abbreviation others := (held (delete t (sy_threads s))).

Lemma all_now : po_closed p = false → po_idle p ++ clients o ++ others ≡ₚ po_all_clients p.
Proof. intros Hf. rewrite <-held_now. by apply Hs. Qed.
(** The pool stays as it is. *)
Lemma phase_only n : clients n ⊆+ clients o → (po_closed p = false → clients n ≡ₚ clients o) → used n ⊆ used o →
  (n = Some Draining ∨ n = Some AtCloseAll → po_closed p = true) → pool_ok (mkSys p (move t n (sy_threads s))).
Proof.
  intros Hsub Hsame Huse Hn. apply move_ok; try done.
  - by apply submseteq_app.
  - intros Hf. rewrite (Hsame Hf). by apply all_now.
  - intros c. rewrite !elem_of_app. intros [?|?]; [by left|right; by apply Huse].
  - intros c Hc. by left.
Qed.
Lemma get_ok n0 : clients o = [] → (∀ c, clients (n0 c) = from_option (λ c, [c]) [] c) → (∀ c, used (n0 c) = from_option (λ c, [c]) [] c) →
  (∀ c, n0 c ≠ Some Draining ∧ n0 c ≠ Some AtCloseAll) →
  ∀ r p', get_idle p = (r, p') → ∃ c, r = Ok c ∧ pool_ok (mkSys p' (move t (n0 c) (sy_threads s))).
Proof.
  intros Ho Hc Hu Hn r p'. rewrite get_idle_eq. destruct (po_idle p) as [|c idle] eqn:Hi; intros [= <- <-]; eexists; (split; [done|]).
  - apply phase_only; rewrite ?Hc, ?Hu, ?Ho; (done || apply submseteq_nil_l || set_solver).
  - apply move_ok; cbn [set_idle po_max_size po_made po_closed po_idle po_all_clients po_shut]; try done.
    + rewrite Hc, Ho, Hi, app_nil_r. cbn. by rewrite <-Permutation_cons_append.
    + intros Hf. rewrite <-all_now, Hc, Ho, Hi by done. cbn. by rewrite <-Permutation_middle.
    + intros x. rewrite Hu, Hi. cbn. set_solver.
    + intros x Hx. by left.
    + intros [Hx|Hx]; by destruct (Hn (Some c)).
Qed.
(** The client of the thread is closed and is no longer in use. *)
Lemma pool_close_ok c n : clients o = [c] → used n = [] → clients n ⊆+ [c] → (po_closed p = false → clients n = [c]) →
  (n = Some Draining ∨ n = Some AtCloseAll → po_closed p = true) → pool_ok (mkSys (close_client c p).2 (move t n (sy_threads s))).
Proof.
  intros Ho Hu Hsub Hsame Hn. apply move_ok; cbn [close_client modify snd po_max_size po_made po_closed po_idle po_all_clients po_shut]; try done.
  - rewrite Ho. by apply submseteq_app.
  - intros Hf. rewrite (Hsame Hf), <-Ho. by apply all_now.
  - intros x. rewrite Hu, app_nil_r. rewrite elem_of_app. by left.
  - intros x [->%elem_of_singleton|Hx]%elem_of_union; [right|by left]. split; [left; rewrite Ho; apply elem_of_app; right; by left|].
    intros _. rewrite Hu. cbn. intros Hx. pose proof (pk_distinct _ Hs) as Hd. unfold out in Hd. rewrite (held_now t), Ho in Hd.
    cbn [app] in Hd. rewrite <-Permutation_middle in Hd. apply NoDup_cons in Hd as [Hd _]. by apply Hd.
Qed.
End Steps.

Lemma move_some t ph ts : <[t := ph]> ts = move t (Some ph) ts.
Proof. done. Qed.
Lemma resume_ok s t connects ph s' : pool_ok s → s.(sy_threads) !! t = Some ph → resume t connects ph s = Some s' → pool_ok s'.
Proof.
  intros Hs Ht. destruct ph as [| | |c|c|c| |]; cbn [resume].
  - (* AtFast *)
    unfold goto. destruct (get_idle (sy_pool s)) as [r p'] eqn:Hg.
    destruct (get_ok s t Hs (λ c, Some (match c with Some c => Holding c | None => AtGrow end)) ltac:(by rewrite Ht) ltac:(by intros []) ltac:(by intros []) ltac:(by intros []) r p' Hg)
      as (c & -> & Hok). by intros [= <-].
  - (* AtGrow *)
    unfold goto, grow, check_open. mrun. destruct (po_closed (sy_pool s)) eqn:Hf; cbn [negb].
    { rewrite run_assert_false. intros [= <-]. apply (phase_only s t Hs None); rewrite ?Ht; (done || apply submseteq_nil_l || set_solver). }
    rewrite run_assert_true. mrun. destruct (Z.ltb_spec (zlen (po_all_clients (sy_pool s))) (po_max_size (sy_pool s))) as [Hlt|].
    + destruct connects; unfold _make_client.
      * intros [= <-]. by apply (made_ok s t).
      * intros [= <-]. apply (phase_only s t Hs None); rewrite ?Ht; (done || apply submseteq_nil_l || set_solver).
    + intros [= <-]. apply (phase_only s t Hs (Some AtGet)); rewrite ?Ht; (done || apply submseteq_nil_l || set_solver).
  - (* AtGet *)
    destruct (po_idle (sy_pool s)) eqn:Hi; [done|]. unfold goto. destruct (get_idle (sy_pool s)) as [r p'] eqn:Hg.
    destruct (get_ok s t Hs (λ c, Some (match c with Some c => Holding c | None => AtGet end)) ltac:(by rewrite Ht) ltac:(by intros []) ltac:(by intros []) ltac:(by intros []) r p' Hg)
      as (c & -> & Hok). by intros [= <-].
  - done.
  - (* AtPut *)
    unfold goto, put_idle. mrun.
    assert (zlen (po_idle (sy_pool s)) < po_max_size (sy_pool s)) as Hlt.
    { destruct (pk_bound _ Hs) as [Hb _]. unfold out in Hb. rewrite zlen_app in Hb.
      pose proof (Permutation_length (held_now t (sy_threads s))) as Hl. rewrite Ht in Hl. cbn in Hl. unfold zlen in *. lia. }
    destruct (Z.ltb_spec (zlen (po_idle (sy_pool s))) (po_max_size (sy_pool s))); [|lia]. intros [= <-].
    apply (move_ok s t None); cbn [set_idle po_max_size po_made po_closed po_idle po_all_clients po_shut]; rewrite ?Ht; try done.
    + by rewrite app_nil_r.
    + intros Hf. pose proof (all_now s t Hs Hf) as Ha. rewrite Ht in Ha. by rewrite <-app_assoc.
    + intros x. by rewrite app_nil_r.
    + intros x Hx. by left.
    + naive_solver.
  - (* Failed *)
    unfold goto, _forget. intros [= <-]. apply (move_ok s t None); cbn [set_all modify po_max_size po_made po_closed po_idle po_all_clients po_shut]; rewrite ?Ht; try done.
    + apply submseteq_app; [done|apply submseteq_nil_l].
    + apply remove_first_sub.
    + intros Hf. pose proof (all_now s t Hs Hf) as Ha. rewrite Ht in Ha. cbn [clients client_of app] in Ha |- *.
      rewrite <-Permutation_middle in Ha. apply (Permutation_cons_inv (a := c)). rewrite Ha. apply remove_first_in. rewrite <-Ha. by left.
    + intros x Hx. by left.
    + naive_solver.
  - (* Draining *)
    pose proof (pk_closing _ Hs t (or_introl Ht)) as Hf. unfold goto, drain_one. unfold mbind at 1, M_bind at 1. rewrite get_idle_eq.
    destruct (po_idle (sy_pool s)) as [|c idle] eqn:Hi; cbv iota; intros [= <-].
    + apply (phase_only s t Hs (Some AtCloseAll)); rewrite ?Ht; (done || apply submseteq_nil_l || set_solver).
    + apply (move_ok s t (Some Draining)); cbn [set_idle modify po_max_size po_made po_closed po_idle po_all_clients po_shut]; rewrite ?Ht, ?Hi; try done.
      * cbn. rewrite !app_nil_r. by apply submseteq_cons.
      * by rewrite Hf.
      * intros x. cbn. rewrite !app_nil_r. by right.
      * intros x [->%elem_of_singleton|Hx]%elem_of_union; [right|by left]. split; [left; by left|by rewrite Hf].
  - (* AtCloseAll *)
    pose proof (pk_closing _ Hs t (or_intror Ht)) as Hf. unfold goto, close_all. mrun. rewrite (close_each_eq _ _ eq_refl). intros [= <-].
    apply (move_ok s t None); cbn [po_max_size po_made po_closed po_idle po_all_clients po_shut]; rewrite ?Ht; try done.
    + apply submseteq_nil_l.
    + by rewrite Hf.
    + intros x [Hx%elem_of_list_to_set|Hx]%elem_of_union; [right|by left]. split; [by right|by rewrite Hf].
Qed.
Lemma pool_step_ok s s' : step s s' → pool_ok s → pool_ok s'.
Proof.
  intros [e He] Hs. destruct e as [t|t connects|t|t|t|t]; cbn [pool_sys_step] in He.
  - destruct (sy_threads s !! t) eqn:Ht; [done|]. injection He as <-. unfold goto, check_open. mrun.
    destruct (po_closed (sy_pool s)); cbn [negb ensure assert lift].
    + apply (phase_only s t Hs None); rewrite ?Ht; (done || apply submseteq_nil_l || set_solver).
    + apply (phase_only s t Hs (Some AtFast)); rewrite ?Ht; (done || apply submseteq_nil_l || set_solver).
  - destruct (sy_threads s !! t) as [ph|] eqn:Ht; [|done]. by eapply resume_ok.
  - destruct (sy_threads s !! t) as [[]|] eqn:Ht; try done. injection He as <-. apply (phase_only s t Hs None); rewrite ?Ht; (done || apply submseteq_nil_l || set_solver).
  - destruct (sy_threads s !! t) as [[]|] eqn:Ht; try done. injection He as <-. destruct (po_closed (sy_pool s)) eqn:Hf.
    + apply (pool_close_ok s t Hs c None); rewrite ?Ht, ?Hf; (done || apply submseteq_nil_l || set_solver).
    + apply (phase_only s t Hs (Some (AtPut c))); rewrite ?Ht; (done || apply submseteq_nil_l || set_solver).
  - destruct (sy_threads s !! t) as [[]|] eqn:Ht; try done. injection He as <-.
    apply (pool_close_ok s t Hs c (Some (Failed c))); rewrite ?Ht; (done || apply submseteq_nil_l || set_solver).
  - destruct (sy_threads s !! t) as [ph|] eqn:Ht; [done|]. injection He as <-.
    apply (move_ok s t (Some Draining)); cbn [modify po_max_size po_made po_closed po_idle po_all_clients po_shut]; rewrite ?Ht; try done.
    intros x Hx. by left.
Qed.
Lemma pool_reachable_ok s : reachable s → pool_ok s.
Proof.
  intros (n & p & Hn & Hr). apply pool_start in Hn. revert Hn. induction Hr as [|s1 s2 s3 H12 _ IH]; [done|].
  intros H1. apply IH. by eapply pool_step_ok.
Qed.

(** C37: however the threads of a pool interleave, no client is in the hands of
    two of them or of one and the idle queue, there are never more clients than
    [max_size], and until the pool is closed whoever uses a client has one that
    nobody has closed. *)
Theorem pool_exclusive s : reachable s →
  (∀ t t' ph ph' c, s.(sy_threads) !! t = Some ph → s.(sy_threads) !! t' = Some ph' → c ∈ client_of ph → c ∈ client_of ph' → t = t') ∧
  (∀ t ph c, s.(sy_threads) !! t = Some ph → c ∈ client_of ph → c ∉ s.(sy_pool).(po_idle)) ∧
  zlen s.(sy_pool).(po_all_clients) <= s.(sy_pool).(po_max_size) ∧
  (s.(sy_pool).(po_closed) = false → ∀ t c, s.(sy_threads) !! t = Some (Holding c) → c ∉ s.(sy_pool).(po_shut)).
Proof.
  intros Hr%pool_reachable_ok. pose proof (pk_distinct _ Hr) as Hd. unfold out in Hd. repeat split.
  - intros t t' ph ph' c Ht Ht' Hc Hc'. destruct (decide (t = t')) as [|Hne]; [done|]. exfalso.
    apply NoDup_app in Hd as (_ & _ & Hd). rewrite (held_delete t ph) in Hd by done. apply NoDup_app in Hd as (_ & Hx & _).
    apply (Hx c Hc), held_in. exists t', ph'. by rewrite lookup_delete_ne.
  - intros t ph c Ht Hc Hi. apply NoDup_app in Hd as (_ & Hx & _). apply (Hx c Hi), held_in. by exists t, ph.
  - apply Hr.
  - intros Hf t c Ht. apply (pk_open _ Hr); [done|]. right. exists t, (Holding c). split; [done|by left].
Qed.
(** An open pool with a free client, or with room for one, does not block. *)
Lemma acquire_open p : p.(po_closed) = false → p.(po_idle) ≠ [] ∨ zlen p.(po_all_clients) < p.(po_max_size) →
  ∃ c p', acquire true p = (Ok (Some c), p').
Proof.
  intros Hf Hroom. unfold acquire, check_open. mrun. rewrite Hf. cbn [negb]. rewrite run_assert_true.
  unfold mbind at 1, M_bind at 1. rewrite get_idle_eq. destruct (po_idle p) as [|c idle] eqn:Hi; [|by eexists _, _].
  destruct Hroom as [|Hlt]; [done|]. unfold grow, check_open. mrun. rewrite Hf. cbn [negb]. rewrite run_assert_true. mrun.
  destruct (Z.ltb_spec (zlen (po_all_clients p)) (po_max_size p)); [|lia]. by eexists _, _.
Qed.

(** * Concrete runs *)

Definition start_pool (n : Z) : Sys := mkSys (mkClients n [] [] false 0 ∅) ∅.
Lemma run_events_steps es : ∀ s s', run_events es s = Some s' → rtc step s s'.
Proof.
  induction es as [|e es IH]; intros s s'; cbn [run_events]; [by intros [= <-]|].
  destruct (pool_sys_step e s) as [s1|] eqn:He; [|done]. intros Hr. eapply rtc_l; [by exists e|by apply IH].
Qed.
(** Threads 1 and 2 get a client each, 1 gives its back, and 3 gets that. *)
Definition pool_events : list event :=
  [StartAcquire 1; Continue 1 true; Continue 1 true; StartAcquire 2; Continue 2 true; Continue 2 true;
   StartAcquire 3; Continue 3 true; Continue 3 true; StartRelease 1; Continue 1 true; Continue 3 true].
Definition pool_after : Sys := default (start_pool 2) (run_events pool_events (start_pool 2)).
Lemma pool_after_reachable : reachable pool_after.
Proof. exists 2, (mkClients 2 [] [] false 0 ∅). split; [done|]. apply (run_events_steps pool_events). by vm_compute. Qed.
Lemma pool_exclusive_witness : pool_after.(sy_threads) !! 3 = Some (Holding 0) ∧ pool_after.(sy_threads) !! 2 = Some (Holding 1) ∧
  0 ∉ pool_after.(sy_pool).(po_shut) ∧ zlen pool_after.(sy_pool).(po_all_clients) <= 2.
Proof.
  assert (pool_after.(sy_threads) !! 3 = Some (Holding 0)) as H3 by (vm_compute; reflexivity).
  assert (pool_after.(sy_pool).(po_closed) = false) as Hc by (vm_compute; reflexivity).
  destruct (pool_exclusive pool_after pool_after_reachable) as (_ & _ & Hb & Ho).
  split; [exact H3|]. split; [vm_compute; reflexivity|]. split; [exact (Ho Hc 3 0 H3)|exact Hb].
Defined.
(** A thread waits for the only client; the other one's body raises, and its
    client is closed and forgotten.  There is room for a new client, but nobody
    wakes the thread that waits. *)
Definition stranding : list event :=
  [StartAcquire 1; Continue 1 true; Continue 1 true; StartAcquire 2; Continue 2 true; Continue 2 true; Fail 1; Continue 1 true].
Example waiter_stranded : ∃ s, run_events stranding (start_pool 1) = Some s ∧
  s.(sy_threads) !! 2 = Some AtGet ∧ s.(sy_pool).(po_all_clients) = [] ∧ pool_sys_step (Continue 2 true) s = None.
Proof. eexists. split; [vm_compute; reflexivity|]. by vm_compute. Qed.
(** Closing the pool does not wake it either. *)
Example close_leaves_waiter : ∃ s,
  run_events [StartAcquire 1; Continue 1 true; Continue 1 true; StartAcquire 2; Continue 2 true; Continue 2 true;
              StartClose 3; Continue 3 true; Continue 3 true; StartRelease 1] (start_pool 1) = Some s ∧
  s.(sy_pool).(po_closed) = true ∧ s.(sy_threads) !! 2 = Some AtGet ∧ s.(sy_threads) !! 1 = None ∧ pool_sys_step (Continue 2 true) s = None.
Proof. eexists. split; [vm_compute; reflexivity|]. by vm_compute. Qed.
