(* ===== verification/PyOrder.v ===== *)
(** The comparison of Python values: [a == b], [a < b], [a <= b], with the
    [TypeError] of types that have no order. *)
From S2P Require Import Prelude.
From S2P Require Import Bytes.
From S2P Require Import Utf8.
From S2P Require Import Float64.
From S2P Require Import TypeSys.
From Stdlib Require Import ZArith Lia.
Local Open Scope Z_scope.

(** * Numbers *)

(** The exact value of an int, bool, float or Decimal: a fraction with a
    positive denominator, an infinity, or no number *)
Inductive number := NFrac (n : Z) (d : positive) | NInf (neg : bool) | NNan.
Definition pos_of (z : Z) : positive := match z with Zpos p => p | _ => 1%positive end.
(** [m * b ^ e] *)
Definition scaled (m b e : Z) : number :=
  if 0 <=? e then NFrac (m * b ^ e) 1 else NFrac m (pos_of (b ^ (- e))).
Definition number_of_float (w : Z) : number :=
  match sf_of_bits w with
  | S754_zero _ => NFrac 0 1
  | S754_infinity s => NInf s
  | S754_nan => NNan
  | S754_finite s m e => scaled (if s then Zneg m else Zpos m) 2 e
  end.
Definition number_of_decimal (d : pydecimal) : number :=
  match d with
  | DFinite neg coef exp => scaled (if neg : bool then - coef else coef) 10 exp
  | DInfinity neg => NInf neg
  | DNaN _ _ _ => NNan
  end.
Definition number_of (v : pyval) : option number :=
  match v with
  | PyBool b => Some (NFrac (Z.b2z b) 1)
  | PyInt z => Some (NFrac z 1)
  | PyFloat w => Some (number_of_float w)
  | PyDecimal d => Some (number_of_decimal d)
  | _ => None
  end.
(** [None] when one of them is no number *)
Definition num_compare (a b : number) : option comparison :=
  match a, b with
  | NNan, _ | _, NNan => None
  | NInf s, NInf s' => Some (match s, s' with true, false => Lt | false, true => Gt | _, _ => Eq end)
  | NInf s, NFrac _ _ => Some (if s then Lt else Gt)
  | NFrac _ _, NInf s => Some (if s then Gt else Lt)
  | NFrac n d, NFrac n' d' => Some (n * Zpos d' ?= n' * Zpos d)
  end.
(** Comparing a Decimal that is no number is an [InvalidOperation]: [==] for
    a signalling one, the order for any, also against a float that is none *)
Definition is_decimal (v : pyval) : bool := match v with PyDecimal _ => true | _ => false end.
Definition is_snan (v : pyval) : bool := match v with PyDecimal (DNaN _ true _) => true | _ => false end.

(** * Sequences *)

Fixpoint lex_compare (a b : list Z) : comparison :=
  match a, b with
  | [], [] => Eq
  | [], _ => Lt
  | _, [] => Gt
  | x :: a, y :: b => match x ?= y with Eq => lex_compare a b | c => c end
  end.
Definition bytes_of (v : pyval) : option (list Z) :=
  match v with PyBytes b | PyBytearray b => Some (map Z_of_byte b) | _ => None end.

(** The instant of a datetime: wall clock, and whether it is aware *)
Definition instant (us : Z) (off : option Z) : bool * Z :=
  match off with None => (false, us) | Some o => (true, us - o) end.

(** * Equality *)

(** [a == b] of values without a signalling NaN.  (Containers compare their
    elements by identity first; the same NaN object inside of two lists, which
    this model tells apart, does not come out of the codec.) *)
Fixpoint py_eq (a b : pyval) {struct a} : bool :=
  match a, b with
  | PyNone, PyNone => true
  | PyStr s, PyStr s' => bool_decide (s = s')
  | PyDate o, PyDate o' => o =? o'
  | PyTime h m s us, PyTime h' m' s' us' => bool_decide ((h, m, s, us) = (h', m', s', us'))
  | PyDatetime us off, PyDatetime us' off' => bool_decide (instant us off = instant us' off')
  | PyList l, PyList l' | PyTuple l, PyTuple l' =>
      (fix go (l l' : list pyval) : bool :=
         match l, l' with
         | [], [] => true
         | x :: l, y :: l' => py_eq x y && go l l'
         | _, _ => false
         end) l l'
  | PyDict l, PyDict l' =>
      (zlen l =? zlen l') &&
      (fix go (l : list (pyval * pyval)) : bool :=
         match l with
         | [] => true
         | (k, v) :: l => existsb (λ kv, py_eq k kv.1 && py_eq v kv.2) l' && go l
         end) l
  | PySet l, PySet l' =>
      (zlen l =? zlen l') &&
      (fix go (l : list pyval) : bool := match l with [] => true | x :: l => existsb (py_eq x) l' && go l end) l
  | PyTypedLiteral t v, PyTypedLiteral t' v' => bool_decide (t = t') && py_eq v v'
  | _, _ =>
      match number_of a, number_of b with
      | Some x, Some y => match num_compare x y with Some Eq => true | _ => false end
      | _, _ =>
          match bytes_of a, bytes_of b with
          | Some x, Some y => bool_decide (x = y)
          | _, _ => false
          end
      end
  end.

(** * Order *)

(** The outcome of [<], [<=], [>], [>=]: [Ok None] when all are false *)
Fixpoint py_compare (a b : pyval) {struct a} : result (option comparison) :=
  match a, b with
  | PyStr s, PyStr s' => Ok (Some (lex_compare s s'))
  | PyDate o, PyDate o' => Ok (Some (o ?= o'))
  | PyTime h m s us, PyTime h' m' s' us' => Ok (Some (lex_compare [h; m; s; us] [h'; m'; s'; us']))
  | PyDatetime us off, PyDatetime us' off' =>
      let '(aware, i) := instant us off in
      let '(aware', i') := instant us' off' in
      if Bool.eqb aware aware' then Ok (Some (i ?= i')) else Err TypeError
  | PyList l, PyList l' | PyTuple l, PyTuple l' =>
      (fix go (l l' : list pyval) : result (option comparison) :=
         match l, l' with
         | [], [] => Ok (Some Eq)
         | [], _ => Ok (Some Lt)
         | _, [] => Ok (Some Gt)
         | x :: l, y :: l' => if py_eq x y then go l l' else py_compare x y
         end) l l'
  | PySet l, PySet l' =>
      let sub (l l' : list pyval) := forallb (λ x, existsb (py_eq x) l') l in
      Ok (match sub l l', sub l' l with
          | true, true => Some Eq
          | true, false => Some Lt
          | false, true => Some Gt
          | false, false => None
          end)
  | _, _ =>
      match number_of a, number_of b with
      | Some x, Some y =>
          match num_compare x y with
          | None => if is_decimal a || is_decimal b then Err DecimalError else Ok None
          | c => Ok c
          end
      | _, _ =>
          match bytes_of a, bytes_of b with
          | Some x, Some y => Ok (Some (lex_compare x y))
          | _, _ => Err TypeError
          end
      end
  end.

Definition py_lt (a b : pyval) : result bool :=
  c ← py_compare a b; Ok (match c with Some Lt => true | _ => false end).
Definition py_le (a b : pyval) : result bool :=
  c ← py_compare a b; Ok (match c with Some Lt | Some Eq => true | _ => false end).
Definition py_gt (a b : pyval) : result bool := py_lt b a.
Definition py_ge (a b : pyval) : result bool := py_le b a.

(** * Keys with a total order *)

Lemma lex_compare_refl a : lex_compare a a = Eq.
Proof. induction a as [|x a IH]; cbn; [done|]. by rewrite Z.compare_refl. Qed.
Lemma lex_compare_eq a b : lex_compare a b = Eq → a = b.
Proof.
  revert b. induction a as [|x a IH]; intros [|y b]; cbn; try done.
  destruct (Z.compare_spec x y) as [->| |]; try done. intros H. by rewrite (IH b H).
Qed.
Lemma lex_compare_opp a b : lex_compare b a = CompOpp (lex_compare a b).
Proof.
  revert b. induction a as [|x a IH]; intros [|y b]; cbn; try done.
  rewrite (Z.compare_antisym x y). destruct (x ?= y); cbn; [apply IH|done|done].
Qed.
Lemma lex_compare_lt_trans a b c : lex_compare a b = Lt → lex_compare b c = Lt → lex_compare a c = Lt.
Proof.
  revert b c. induction a as [|x a IH]; intros [|y b] [|z c]; cbn; try done.
  destruct (Z.compare_spec x y) as [->| |], (Z.compare_spec y z) as [->| |]; try done; intros H1 H2; try (by apply (IH b)).
  all: by destruct (Z.compare_spec x z); try lia.
Qed.

(** The keys [K] are ordered by the rank of each, a list of integers *)
Class OrderedKeys (K : pyval → Prop) := {
  rank : pyval → list Z;
  rank_inj a b : K a → K b → rank a = rank b → a = b;
  rank_compare a b : K a → K b → py_compare a b = Ok (Some (lex_compare (rank a) (rank b)));
}.
Definition is_int_key (v : pyval) : Prop := match v with PyInt _ => True | _ => False end.
Definition is_text_key (v : pyval) : Prop := match v with PyStr _ => True | _ => False end.
Definition is_date_key (v : pyval) : Prop := match v with PyDate _ => True | _ => False end.
#[global, refine] Instance int_keys : OrderedKeys is_int_key := { rank v := match v with PyInt z => [z] | _ => [] end }.
Proof.
  - intros [] [] ??; try done. by intros [= ->].
  - intros [] [] ??; try done. cbn. rewrite !Z.mul_1_r. by destruct (_ ?= _).
Defined.
#[global, refine] Instance text_keys : OrderedKeys is_text_key := { rank v := match v with PyStr s => s | _ => [] end }.
Proof.
  - intros [] [] ??; try done. by intros ->.
  - by intros [] [] ??.
Defined.
#[global, refine] Instance date_keys : OrderedKeys is_date_key := { rank v := match v with PyDate o => [o] | _ => [] end }.
Proof.
  - intros [] [] ??; try done. by intros [= ->].
  - intros [] [] ??; try done. cbn. by destruct (_ ?= _).
Defined.

Example compare_int_float : py_lt (PyInt (2 ^ 53 + 1)) (PyFloat 0x4340000000000000) = Ok false ∧
  py_lt (PyFloat 0x4340000000000000) (PyInt (2 ^ 53 + 1)) = Ok true.
Proof. vm_compute. done. Qed.
Example compare_tuples : py_lt (PyTuple [PyStr [1]; PyInt 2]) (PyTuple [PyStr [1]; PyInt 3]) = Ok true ∧
  py_lt (PyTuple [PyInt 1]) (PyList [PyInt 1]) = Err TypeError ∧ py_lt PyNone (PyInt 1) = Err TypeError.
Proof. vm_compute. done. Qed.
