(* ===== verification/BTreeNode.v ===== *)
(** Components [index/btree_leaf.py] and [index/btree_internal.py]: the nodes
    of a B-tree, their pages, and the binary searches over their keys. *)
From S2P Require Import Prelude.
From S2P Require Import Bytes.
From S2P Require Import Utf8.
From S2P Require Import Text.
From S2P Require Import TypeSys.
From S2P Require Import Codec.
From S2P Require Import Pager.
From S2P Require Import BufferPool.
From S2P Require Import Heap.
From S2P Require Import PyOrder.
From Stdlib Require Import ZArith Lia.
Local Open Scope Z_scope.

Definition _LEAF_NODE_TYPE : Z := 0x01.
Definition _INTERNAL_NODE_TYPE : Z := 0x02.
Definition _LEAF_NEXT_PID_OFF : Z := 4.
Definition _LEAF_KEY_COUNT_OFF : Z := 8.
Definition _INTERNAL_KEY_COUNT_OFF : Z := 4.
Definition _INTERNAL_FIRST_CHILD_OFF : Z := 8.
Definition NODE_HEADER_SIZE : Z := 12.
Definition _KEY_LEN_SIZE : Z := 2.
Definition _RID_PAGE_SIZE : Z := 4.
Definition _RID_SLOT_SIZE : Z := 2.
Definition _CHILD_PID_SIZE : Z := 4.

Record LeafNode := mkLeaf { lf_keys : list pyval; lf_rids : list Rid; lf_next : Z }.
Record InternalNode := mkInternal { in_keys : list pyval; in_children : list Z }.
Inductive node := Leaf (l : LeafNode) | Internal (n : InternalNode).

(** * Binary search *)

(** [while lo < hi: mid = (lo + hi) // 2; if test(keys[mid]): lo = mid + 1
    else: hi = mid]; [hi - lo] decreases, so the length of the list is fuel *)
Fixpoint bisect (fuel : nat) (test : pyval → result bool) (keys : list pyval) (lo hi : nat) : result nat :=
  if (lo <? hi)%nat then
    match fuel with
    | O => Err OutOfFuel
    | S fuel =>
        let mid := ((lo + hi) / 2)%nat in
        k ← of_option IndexError (keys !! mid);
        b ← test k;
        if b : bool then bisect fuel test keys (S mid) hi else bisect fuel test keys lo mid
    end
  else Ok lo.
Definition _lower_bound (keys : list pyval) (key : pyval) : result nat :=
  bisect (length keys) (λ k, py_lt k key) keys 0 (length keys).
Definition _upper_bound (keys : list pyval) (key : pyval) : result nat :=
  bisect (length keys) (λ k, py_le k key) keys 0 (length keys).

(** [isinstance(v, tuple)] with its elements *)
Definition as_tuple (v : pyval) : option (list pyval) := match v with PyTuple l => Some l | _ => None end.
Definition _is_past_upper (key hi : pyval) (inclusive prefix_mode : bool) : bool :=
  match (if inclusive then py_gt key hi else py_ge key hi) with
  | Err _ => true
  | Ok past =>
      if negb past then false else
      match prefix_mode, as_tuple hi, as_tuple key with
      | true, Some h, Some k =>
          negb ((length h <? length k)%nat && py_eq (PyTuple (take (length h) k)) (PyTuple h))
      | _, _, _ => true
      end
  end.

(** * Pages *)

Section Pages.
Context `{JsonLib}.

(** The length and the bytes of a key at [offset]; [tail] is the size of what
    follows it in its entry *)
Definition put_key (t : TypeTag) (key : pyval) (tail : Z) (page : bytes) (offset : Z) : result (bytes * Z) :=
  encoded ← encode_value key t;
  let key_len := zlen encoded in
  if 0xFFFF <? key_len then Err ValueError else
  if PAGE_SIZE <? offset + (_KEY_LEN_SIZE + key_len + tail) then Err BTreeOverflowError else
  page ← pack_into_ule 2 page offset key_len;
  let offset := offset + _KEY_LEN_SIZE in
  Ok (patch page offset encoded, offset + key_len).
Definition put_rid (rid : Rid) (page : bytes) (offset : Z) : result (bytes * Z) :=
  page ← pack_into_ule 4 page offset rid.(page_id);
  let offset := offset + _RID_PAGE_SIZE in
  page ← pack_into_ule 2 page offset rid.(slot_id);
  Ok (page, offset + _RID_SLOT_SIZE).
Definition put_child (child_pid : Z) (page : bytes) (offset : Z) : result (bytes * Z) :=
  page ← pack_into_ule 4 page offset child_pid;
  Ok (page, offset + _CHILD_PID_SIZE).

(** The loops of [_write_leaf] and [_write_internal] *)
Fixpoint put_entries {A} (t : TypeTag) (tail : Z) (put : A → bytes → Z → result (bytes * Z))
    (entries : list (pyval * A)) (page : bytes) (offset : Z) : result bytes :=
  match entries with
  | [] => Ok page
  | (key, a) :: entries =>
      '(page, offset) ← put_key t key tail page offset;
      '(page, offset) ← put a page offset;
      put_entries t tail put entries page offset
  end.
Definition leaf_page (t : TypeTag) (leaf : LeafNode) : result bytes :=
  let page := patch zero_page 0 [byte_of_Z _LEAF_NODE_TYPE] in
  page ← pack_into_ule 4 page _LEAF_NEXT_PID_OFF leaf.(lf_next);
  page ← pack_into_ule 2 page _LEAF_KEY_COUNT_OFF (zlen leaf.(lf_keys));
  put_entries t (_RID_PAGE_SIZE + _RID_SLOT_SIZE) put_rid (zip leaf.(lf_keys) leaf.(lf_rids)) page NODE_HEADER_SIZE.
Definition internal_page (t : TypeTag) (n : InternalNode) : result bytes :=
  match n.(in_children) with
  | [] => Err ValueError
  | first :: children =>
      let page := patch zero_page 0 [byte_of_Z _INTERNAL_NODE_TYPE] in
      page ← pack_into_ule 2 page _INTERNAL_KEY_COUNT_OFF (zlen n.(in_keys));
      page ← pack_into_ule 4 page _INTERNAL_FIRST_CHILD_OFF first;
      put_entries t _CHILD_PID_SIZE put_child (zip n.(in_keys) children) page NODE_HEADER_SIZE
  end.

Definition get_key (page : bytes) (offset : Z) : result (pyval * Z) :=
  key_len ← unpack_ule 2 page offset;
  let offset := offset + _KEY_LEN_SIZE in
  '(value, _) ← decode_value (slice page offset (offset + key_len)) 0;
  Ok (value, offset + key_len).
Definition get_rid (page : bytes) (offset : Z) : result (Rid * Z) :=
  page_id ← unpack_ule 4 page offset;
  let offset := offset + _RID_PAGE_SIZE in
  slot_id ← unpack_ule 2 page offset;
  Ok (mkRid page_id slot_id, offset + _RID_SLOT_SIZE).
Definition get_child (page : bytes) (offset : Z) : result (Z * Z) :=
  child_pid ← unpack_ule 4 page offset; Ok (child_pid, offset + _CHILD_PID_SIZE).
Fixpoint get_entries {A} (get : bytes → Z → result (A * Z)) (count : nat) (page : bytes) (offset : Z)
    : result (list (pyval * A)) :=
  match count with
  | O => Ok []
  | S count =>
      '(value, offset) ← get_key page offset;
      '(a, offset) ← get page offset;
      rest ← get_entries get count page offset;
      Ok ((value, a) :: rest)
  end.
Definition _read_leaf_from_bytes (page : bytes) : result LeafNode :=
  node_type ← byte_at page 0;
  if negb ((node_type =? 0x00) || (node_type =? _LEAF_NODE_TYPE)) then Err ValueError else
  next_pid ← unpack_ule 4 page _LEAF_NEXT_PID_OFF;
  key_count ← unpack_ule 2 page _LEAF_KEY_COUNT_OFF;
  entries ← get_entries get_rid (Z.to_nat key_count) page NODE_HEADER_SIZE;
  Ok (mkLeaf (map fst entries) (map snd entries) (if next_pid =? 0 then NO_NEXT else next_pid)).
Definition _read_internal_from_bytes (page : bytes) : result InternalNode :=
  node_type ← byte_at page 0;
  if negb (node_type =? _INTERNAL_NODE_TYPE) then Err ValueError else
  key_count ← unpack_ule 2 page _INTERNAL_KEY_COUNT_OFF;
  first_child ← unpack_ule 4 page _INTERNAL_FIRST_CHILD_OFF;
  entries ← get_entries get_child (Z.to_nat key_count) page NODE_HEADER_SIZE;
  Ok (mkInternal (map fst entries) (first_child :: map snd entries)).
(** The dispatch of [BTreeIndex._read_node_view] *)
Definition node_of_page (page : bytes) : result node :=
  node_type ← byte_at page 0;
  if (node_type =? 0x00) || (node_type =? _LEAF_NODE_TYPE) then Leaf <$> _read_leaf_from_bytes page
  else if node_type =? _INTERNAL_NODE_TYPE then Internal <$> _read_internal_from_bytes page
  else Err ValueError.
Definition node_page (t : TypeTag) (n : node) : result bytes :=
  match n with Leaf l => leaf_page t l | Internal n => internal_page t n end.

Context {P : Type} `{PagerOps P}.
Definition _write_leaf (pid : Z) (leaf : LeafNode) (t : TypeTag) : M P unit :=
  page ← lift (leaf_page t leaf); pi_write_page pid page.
Definition _write_internal (pid : Z) (n : InternalNode) (t : TypeTag) : M P unit :=
  page ← lift (internal_page t n); pi_write_page pid page.
Definition _read_node_view (pid : Z) : M P node :=
  page ← pi_read_page pid; lift (node_of_page page).
End Pages.

(** * The searches find the boundary *)

Lemma bisect_boundary test l1 l2 : Forall (λ k, test k = Ok true) l1 → Forall (λ k, test k = Ok false) l2 →
  ∀ fuel lo hi, (lo <= length l1)%nat → (length l1 <= hi)%nat → (hi <= length (l1 ++ l2))%nat → (hi - lo <= fuel)%nat →
  bisect fuel test (l1 ++ l2) lo hi = Ok (length l1).
Proof.
  intros H1 H2. induction fuel as [|fuel IH]; intros lo hi Hlo Hhi Hlen Hf; cbn [bisect].
  - destruct (Nat.ltb_spec lo hi); [lia|]. f_equal. lia.
  - destruct (Nat.ltb_spec lo hi); [|f_equal; lia].
    assert (lo <= (lo + hi) / 2 < hi)%nat as Hmid.
    { split; [apply Nat.div_le_lower_bound; lia|apply Nat.div_lt_upper_bound; lia]. }
    set (mid := ((lo + hi) / 2)%nat) in *.
    destruct (decide (mid < length l1)%nat) as [Hm|Hm].
    + destruct (lookup_lt_is_Some_2 l1 mid Hm) as [k Hk]. rewrite lookup_app_l, Hk by done. cbn [of_option mbind result_bind].
      rewrite Forall_lookup in H1. rewrite (H1 _ _ Hk), bind_Ok. apply IH; lia.
    + rewrite lookup_app_r by lia. rewrite length_app in Hlen.
      destruct (lookup_lt_is_Some_2 l2 (mid - length l1)) as [k Hk]; [lia|]. rewrite Hk. cbn [of_option mbind result_bind].
      rewrite Forall_lookup in H2. rewrite (H2 _ _ Hk), bind_Ok. apply IH; rewrite ?length_app; lia.
Qed.

Section Ordered.
Context (K : pyval → Prop) `{OrderedKeys K}.

Definition key_compare (a b : pyval) : comparison := lex_compare (rank a) (rank b).
Definition key_lt (a b : pyval) : Prop := key_compare a b = Lt.
Definition key_le (a b : pyval) : Prop := key_compare a b ≠ Gt.

Lemma key_compare_opp a b : key_compare b a = CompOpp (key_compare a b).
Proof. apply lex_compare_opp. Qed.
Lemma key_lt_trans a b c : key_lt a b → key_lt b c → key_lt a c.
Proof. apply lex_compare_lt_trans. Qed.
Lemma key_lt_irrefl a : ¬ key_lt a a.
Proof. unfold key_lt, key_compare. by rewrite lex_compare_refl. Qed.
Lemma key_le_refl a : key_le a a.
Proof. unfold key_le, key_compare. by rewrite lex_compare_refl. Qed.
Lemma key_le_not_lt a b : key_le a b ↔ ¬ key_lt b a.
Proof. unfold key_le, key_lt. rewrite (key_compare_opp a b). by destruct (key_compare a b). Qed.
Lemma key_compare_rank a b : key_compare a b = Eq → rank a = rank b.
Proof. apply lex_compare_eq. Qed.
Lemma key_le_lt_trans a b c : key_le a b → key_lt b c → key_lt a c.
Proof.
  intros Hab Hbc. destruct (key_compare a b) eqn:E; [|by apply (key_lt_trans a b c)|done].
  unfold key_lt, key_compare in *. by rewrite (lex_compare_eq _ _ E).
Qed.
Lemma key_lt_le_trans a b c : key_lt a b → key_le b c → key_lt a c.
Proof.
  intros Hab Hbc. destruct (key_compare b c) eqn:E; [|by apply (key_lt_trans a b c)|done].
  unfold key_lt, key_compare in *. by rewrite <-(lex_compare_eq _ _ E).
Qed.
Lemma key_lt_le a b : key_lt a b → key_le a b.
Proof. unfold key_lt, key_le. by intros ->. Qed.
Lemma key_le_trans a b c : key_le a b → key_le b c → key_le a c.
Proof.
  intros Hab Hbc. destruct (key_compare a b) eqn:E; [|by eapply key_lt_le, key_lt_le_trans|done].
  unfold key_le, key_compare in *. by rewrite (lex_compare_eq _ _ E).
Qed.
Lemma key_le_antisym a b : K a → K b → key_le a b → key_le b a → a = b.
Proof.
  intros Ha Hb H1 H2. apply rank_inj; try done. apply key_compare_rank. unfold key_le in *.
  rewrite (key_compare_opp a b) in H2. by destruct (key_compare a b).
Qed.
#[export] Instance key_lt_dec a b : Decision (key_lt a b).
Proof. unfold key_lt. apply _. Defined.
Lemma key_lt_or_le a b : key_lt a b ∨ key_le b a.
Proof. destruct (decide (key_lt a b)); [by left|]. right. by apply key_le_not_lt. Qed.

Lemma py_lt_key a b : K a → K b → py_lt a b = Ok (bool_decide (key_lt a b)).
Proof.
  intros Ha Hb. unfold py_lt. rewrite rank_compare by done. cbn [mbind result_bind]. f_equal.
  case_bool_decide as Hd; unfold key_lt, key_compare in Hd; by destruct (lex_compare _ _).
Qed.
Lemma py_le_key a b : K a → K b → py_le a b = Ok (bool_decide (¬ key_lt b a)).
Proof.
  intros Ha Hb. unfold py_le. rewrite rank_compare by done. cbn [mbind result_bind]. f_equal.
  destruct (key_lt_or_le b a) as [Hl|Hl].
  - rewrite bool_decide_false by (intros Hn; by apply Hn). unfold key_lt in Hl. rewrite key_compare_opp in Hl.
    unfold key_compare in Hl. by destruct (lex_compare (rank a) (rank b)).
  - rewrite bool_decide_true by (by apply key_le_not_lt). unfold key_le, key_compare in Hl.
    by destruct (lex_compare (rank a) (rank b)).
Qed.
End Ordered.

(** * Nodes are read back from their pages *)

Lemma patch_zeros (pre d : bytes) n : zlen d <= n →
  patch (pre ++ zreplicate n x00) (zlen pre) d = (pre ++ d) ++ zreplicate (n - zlen d) x00.
Proof.
  intros Hn. pose proof (zlen_nonneg d). pose proof (zlen_nonneg pre). unfold patch.
  rewrite ztake_app by done. rewrite zdrop_app_ge by lia. rewrite <-app_assoc. do 2 f_equal.
  unfold zdrop, zreplicate. rewrite drop_replicate. f_equal. lia.
Qed.

Section NodePages.
Context `{JsonLaws} (t : TypeTag).

(** The keys that the codec gives back as they were *)
Definition key_ok (k : pyval) : Prop := wf_value k = true ∧ storable k t ∧ canon k t = k.
Definition key_bytes (k : pyval) : bytes := match encode_value k t with Ok bs => bs | Err _ => [] end.
Definition encodable (k : pyval) : Prop := is_ok (encode_value k t) = true ∧ zlen (key_bytes k) <= 0xFFFF.
Lemma encodable_bytes k : encodable k → encode_value k t = Ok (key_bytes k).
Proof. unfold encodable, key_bytes. by destruct (encode_value k t) as [|]; intros []. Qed.

(** Writing and reading what follows a key *)
Section Entries.
Context {A : Type} (tail : Z) (put : A → bytes → Z → result (bytes * Z)) (get : bytes → Z → result (A * Z))
  (enc : A → bytes) (wf : A → Prop).
Context (tail_nonneg : 0 <= tail) (enc_size : ∀ a, zlen (enc a) = tail).
Context (put_enc : ∀ a pre n, wf a → zlen pre + n = PAGE_SIZE → tail <= n →
  put a (pre ++ zreplicate n x00) (zlen pre) = Ok ((pre ++ enc a) ++ zreplicate (n - tail) x00, zlen pre + tail)).
Context (get_enc : ∀ a pre post, wf a → get (pre ++ enc a ++ post) (zlen pre) = Ok (a, zlen pre + tail)).

Definition entry_bytes (e : pyval * A) : bytes := le_bytes 2 (zlen (key_bytes e.1)) ++ key_bytes e.1 ++ enc e.2.
Definition entries_bytes (es : list (pyval * A)) : bytes := concat (map entry_bytes es).
Definition entries_size (es : list (pyval * A)) : Z := zlen (entries_bytes es).
Lemma entries_bytes_cons e es : entries_bytes (e :: es) = entry_bytes e ++ entries_bytes es.
Proof. done. Qed.
Lemma entries_size_cons e es : entries_size (e :: es) = 2 + zlen (key_bytes e.1) + tail + entries_size es.
Proof. unfold entries_size, entries_bytes, entry_bytes. cbn [map concat]. autorewrite with py. rewrite enc_size. lia. Qed.
Lemma entries_size_app es es' : entries_size (es ++ es') = entries_size es + entries_size es'.
Proof. unfold entries_size, entries_bytes. rewrite map_app, concat_app. by autorewrite with py. Qed.
Lemma entries_size_nonneg es : 0 <= entries_size es.
Proof. apply zlen_nonneg. Qed.

Lemma put_key_fits k pre n : encodable k → zlen pre + n = PAGE_SIZE → 2 + zlen (key_bytes k) + tail <= n →
  put_key t k tail (pre ++ zreplicate n x00) (zlen pre) =
  Ok ((pre ++ le_bytes 2 (zlen (key_bytes k)) ++ key_bytes k) ++ zreplicate (n - 2 - zlen (key_bytes k)) x00,
      zlen (pre ++ le_bytes 2 (zlen (key_bytes k)) ++ key_bytes k)).
Proof.
  intros Hk Hp Hn. pose proof (zlen_nonneg pre). pose proof (zlen_nonneg (key_bytes k)). unfold put_key.
  rewrite (encodable_bytes k Hk), bind_Ok. destruct Hk as [_ Hk].
  destruct (Z.ltb_spec 0xFFFF (zlen (key_bytes k))); [lia|]. unfold _KEY_LEN_SIZE, PAGE_SIZE in *.
  destruct (Z.ltb_spec 4096 (zlen pre + (2 + zlen (key_bytes k) + tail))); [lia|].
  rewrite pack_into_ule_ok, bind_Ok by (rewrite ?zlen_app, ?zlen_replicate by lia; lia).
  rewrite patch_zeros by (rewrite zlen_le_bytes; lia). cbv zeta.
  replace (zlen pre + 2) with (zlen (pre ++ le_bytes 2 (zlen (key_bytes k)))) by (autorewrite with py; lia).
  rewrite zlen_le_bytes. rewrite patch_zeros by lia. rewrite <-!app_assoc. do 2 f_equal. autorewrite with py. lia.
Qed.
Lemma put_key_overflow k page offset : encodable k → PAGE_SIZE < offset + (2 + zlen (key_bytes k) + tail) →
  put_key t k tail page offset = Err BTreeOverflowError.
Proof.
  intros Hk Ho. unfold put_key. rewrite (encodable_bytes k Hk), bind_Ok. destruct Hk as [_ Hk].
  destruct (Z.ltb_spec 0xFFFF (zlen (key_bytes k))); [lia|]. unfold _KEY_LEN_SIZE.
  by destruct (Z.ltb_spec PAGE_SIZE (offset + (2 + zlen (key_bytes k) + tail))); [|lia].
Qed.

Definition entry_ok (e : pyval * A) : Prop := encodable e.1 ∧ wf e.2.
Lemma put_entries_fits es : ∀ pre n, Forall entry_ok es → zlen pre + n = PAGE_SIZE → entries_size es <= n →
  put_entries t tail put es (pre ++ zreplicate n x00) (zlen pre) =
  Ok (pre ++ entries_bytes es ++ zreplicate (n - entries_size es) x00).
Proof.
  induction es as [|[k a] es IH]; intros pre n Hes Hp Hn.
  - cbn [put_entries]. unfold entries_size, entries_bytes. cbn. rewrite zlen_nil. by rewrite Z.sub_0_r.
  - apply Forall_cons in Hes as [[Hk Ha] Hes]. rewrite entries_size_cons in Hn. cbn [fst snd] in *.
    pose proof (entries_size_nonneg es). pose proof (zlen_nonneg (key_bytes k)).
    cbn [put_entries]. rewrite put_key_fits, bind_Ok by (done || lia). cbn beta iota.
    rewrite put_enc, bind_Ok by (done || (autorewrite with py; lia)). cbn beta iota.
    replace (zlen (pre ++ le_bytes 2 (zlen (key_bytes k)) ++ key_bytes k) + tail) with
      (zlen ((pre ++ le_bytes 2 (zlen (key_bytes k)) ++ key_bytes k) ++ enc a)) by (autorewrite with py; rewrite enc_size; lia).
    rewrite IH by (done || (autorewrite with py; rewrite ?enc_size; lia)).
    unfold entries_bytes at 2. cbn [map concat]. unfold entry_bytes at 1. cbn [fst snd].
    rewrite entries_size_cons. cbn [fst]. rewrite <-!app_assoc. unfold entries_bytes at 1. do 7 f_equal. lia.
Qed.
Lemma put_entries_overflow es : ∀ pre n, Forall entry_ok es → zlen pre + n = PAGE_SIZE → 0 <= n < entries_size es →
  put_entries t tail put es (pre ++ zreplicate n x00) (zlen pre) = Err BTreeOverflowError.
Proof.
  induction es as [|[k a] es IH]; intros pre n Hes Hp Hn.
  - change (entries_size []) with 0 in Hn. lia.
  - apply Forall_cons in Hes as [[Hk Ha] Hes]. rewrite entries_size_cons in Hn. cbn [fst snd] in *.
    pose proof (zlen_nonneg (key_bytes k)).
    destruct (decide (2 + zlen (key_bytes k) + tail <= n)) as [Hf|Hf].
    + cbn [put_entries]. rewrite put_key_fits, bind_Ok by (done || lia). cbn beta iota.
      rewrite put_enc, bind_Ok by (done || (autorewrite with py; lia)). cbn beta iota.
      replace (zlen (pre ++ le_bytes 2 (zlen (key_bytes k)) ++ key_bytes k) + tail) with
        (zlen ((pre ++ le_bytes 2 (zlen (key_bytes k)) ++ key_bytes k) ++ enc a)) by (autorewrite with py; rewrite enc_size; lia).
      apply IH; [done|autorewrite with py; rewrite ?enc_size; lia|lia].
    + cbn [put_entries]. rewrite put_key_overflow; [done|done|unfold PAGE_SIZE in *; lia].
Qed.

Lemma get_key_bytes k pre post : encodable k → key_ok k →
  get_key (pre ++ (le_bytes 2 (zlen (key_bytes k)) ++ key_bytes k) ++ post) (zlen pre) =
  Ok (k, zlen pre + 2 + zlen (key_bytes k)).
Proof.
  intros Hk (Hwf & Hst & Hc). pose proof (encodable_bytes k Hk) as He. destruct Hk as [_ Hk]. pose proof (zlen_nonneg (key_bytes k)).
  unfold get_key. rewrite <-app_assoc, unpack_ule_middle, bind_Ok by lia. unfold _KEY_LEN_SIZE. cbv zeta.
  rewrite app_assoc, slice_middle by (autorewrite with py; lia).
  pose proof (decode_value_middle k t (key_bytes k) [] [] Hwf Hst He) as Hd. cbn [app] in Hd. rewrite app_nil_r in Hd.
  change (zlen []) with 0 in Hd. by rewrite Hd, bind_Ok, Hc.
Qed.
Lemma get_entries_bytes es : ∀ pre post, Forall entry_ok es → Forall (λ e, key_ok e.1) es →
  get_entries get (length es) (pre ++ entries_bytes es ++ post) (zlen pre) = Ok es.
Proof.
  induction es as [|[k a] es IH]; intros pre post Hes Hk; [done|].
  apply Forall_cons in Hes as [[He Ha] Hes], Hk as [Hk Hks]. cbn [fst snd] in *. cbn [length get_entries].
  rewrite entries_bytes_cons. unfold entry_bytes. cbn [fst snd].
  rewrite <-!app_assoc. rewrite (app_assoc (le_bytes _ _)), get_key_bytes, bind_Ok by done. cbn beta iota.
  rewrite app_assoc. replace (zlen pre + 2 + zlen (key_bytes k)) with
    (zlen (pre ++ le_bytes 2 (zlen (key_bytes k)) ++ key_bytes k)) by (autorewrite with py; lia).
  rewrite get_enc, bind_Ok by done. cbn beta iota. rewrite app_assoc.
  replace (zlen (pre ++ le_bytes 2 (zlen (key_bytes k)) ++ key_bytes k) + tail) with
    (zlen ((pre ++ le_bytes 2 (zlen (key_bytes k)) ++ key_bytes k) ++ enc a)) by (autorewrite with py; rewrite enc_size; lia).
  by rewrite IH by done.
Qed.
End Entries.

(** ** The two kinds of pages *)

Definition NODE_ROOM : Z := PAGE_SIZE - NODE_HEADER_SIZE.
Definition rid_bytes (r : Rid) : bytes := le_bytes 4 r.(page_id) ++ le_bytes 2 r.(slot_id).
Definition rid_ok (r : Rid) : Prop := 0 <= r.(page_id) < 2 ^ 32 ∧ 0 <= r.(slot_id) < 2 ^ 16.
Definition child_ok (c : Z) : Prop := 0 <= c < 2 ^ 32.

Lemma put_rid_bytes r pre n : rid_ok r → zlen pre + n = PAGE_SIZE → 6 <= n →
  put_rid r (pre ++ zreplicate n x00) (zlen pre) = Ok ((pre ++ rid_bytes r) ++ zreplicate (n - 6) x00, zlen pre + 6).
Proof.
  intros [Hp Hs] Hn Hl. pose proof (zlen_nonneg pre). unfold put_rid, _RID_PAGE_SIZE, _RID_SLOT_SIZE, rid_bytes.
  rewrite pack_into_ule_ok, bind_Ok by (rewrite ?zlen_app, ?zlen_replicate by lia; lia).
  rewrite patch_zeros by (rewrite zlen_le_bytes; lia). cbv zeta. rewrite zlen_le_bytes.
  replace (zlen pre + 4) with (zlen (pre ++ le_bytes 4 (page_id r))) by (autorewrite with py; lia).
  rewrite pack_into_ule_ok, bind_Ok by (autorewrite with py; rewrite ?zlen_replicate by lia; lia).
  rewrite patch_zeros by (rewrite zlen_le_bytes; lia). rewrite zlen_le_bytes, <-!app_assoc.
  do 2 f_equal; [do 4 f_equal; lia|autorewrite with py; lia].
Qed.
Lemma get_rid_bytes r pre post : rid_ok r → get_rid (pre ++ rid_bytes r ++ post) (zlen pre) = Ok (r, zlen pre + 6).
Proof.
  intros [Hp Hs]. unfold get_rid, rid_bytes, _RID_PAGE_SIZE, _RID_SLOT_SIZE. rewrite <-app_assoc, unpack_ule_middle, bind_Ok by done.
  cbv zeta. rewrite app_assoc, unpack_ule_middle, bind_Ok by (done || (autorewrite with py; lia)). destruct r. cbn. do 2 f_equal. lia.
Qed.
Lemma put_child_bytes c pre n : child_ok c → zlen pre + n = PAGE_SIZE → 4 <= n →
  put_child c (pre ++ zreplicate n x00) (zlen pre) = Ok ((pre ++ le_bytes 4 c) ++ zreplicate (n - 4) x00, zlen pre + 4).
Proof.
  intros Hp Hn Hl. pose proof (zlen_nonneg pre). unfold put_child, _CHILD_PID_SIZE.
  rewrite pack_into_ule_ok, bind_Ok by (rewrite ?zlen_app, ?zlen_replicate by lia; unfold child_ok in *; lia).
  rewrite patch_zeros by (rewrite zlen_le_bytes; lia). by rewrite zlen_le_bytes.
Qed.
Lemma get_child_bytes c pre post : child_ok c → get_child (pre ++ le_bytes 4 c ++ post) (zlen pre) = Ok (c, zlen pre + 4).
Proof. intros Hc. unfold get_child. by rewrite unpack_ule_middle, bind_Ok by done. Qed.

Lemma zero_page_split : zero_page = zreplicate 12 x00 ++ zreplicate 4084 x00.
Proof. vm_compute. reflexivity. Qed.
Lemma length4 (l : bytes) : length l = 4%nat → ∃ a b c d, l = [a; b; c; d].
Proof. destruct l as [|a [|b [|c [|d [|]]]]]; try done. by exists a, b, c, d. Qed.
Lemma length2 (l : bytes) : length l = 2%nat → ∃ a b, l = [a; b].
Proof. destruct l as [|a [|b [|]]]; try done. by exists a, b. Qed.
Definition leaf_header (next n : Z) : bytes := [x01; x00; x00; x00] ++ le_bytes 4 next ++ le_bytes 2 n ++ [x00; x00].
Definition internal_header (first n : Z) : bytes := [x02; x00; x00; x00] ++ le_bytes 2 n ++ [x00; x00] ++ le_bytes 4 first.
Lemma leaf_header_patches next n zs :
  patch (patch (patch (zreplicate 12 x00 ++ zs) 0 [byte_of_Z _LEAF_NODE_TYPE]) 4 (le_bytes 4 next)) 8 (le_bytes 2 n) =
  leaf_header next n ++ zs.
Proof.
  unfold leaf_header. destruct (length4 (le_bytes 4 next)) as (a & b & c & d & ->); [apply length_le_bytes|].
  destruct (length2 (le_bytes 2 n)) as (e & f & ->); [apply length_le_bytes|]. reflexivity.
Qed.
Lemma internal_header_patches first n zs :
  patch (patch (patch (zreplicate 12 x00 ++ zs) 0 [byte_of_Z _INTERNAL_NODE_TYPE]) 4 (le_bytes 2 n)) 8 (le_bytes 4 first) =
  internal_header first n ++ zs.
Proof.
  unfold internal_header. destruct (length4 (le_bytes 4 first)) as (a & b & c & d & ->); [apply length_le_bytes|].
  destruct (length2 (le_bytes 2 n)) as (e & f & ->); [apply length_le_bytes|]. reflexivity.
Qed.

Definition leaf_entries (l : LeafNode) : list (pyval * Rid) := zip l.(lf_keys) l.(lf_rids).
Definition leaf_size (l : LeafNode) : Z := entries_size rid_bytes (leaf_entries l).
Definition internal_entries (n : InternalNode) : list (pyval * Z) := zip n.(in_keys) (tail n.(in_children)).
Definition internal_size (n : InternalNode) : Z := entries_size (le_bytes 4) (internal_entries n).
(** What can be in the memory of the index *)
Definition wf_leaf (l : LeafNode) : Prop :=
  length l.(lf_keys) = length l.(lf_rids) ∧ zlen l.(lf_keys) <= 0xFFFF ∧
  Forall encodable l.(lf_keys) ∧ Forall key_ok l.(lf_keys) ∧ Forall rid_ok l.(lf_rids) ∧ 0 < l.(lf_next) < 2 ^ 32.
Definition wf_internal (n : InternalNode) : Prop :=
  length n.(in_children) = S (length n.(in_keys)) ∧ zlen n.(in_keys) <= 0xFFFF ∧
  Forall encodable n.(in_keys) ∧ Forall key_ok n.(in_keys) ∧ Forall child_ok n.(in_children).

Lemma Forall_zip {A B} (Pa : A → Prop) (Pb : B → Prop) (l : list A) (l' : list B) :
  Forall Pa l → Forall Pb l' → Forall (λ e, Pa e.1 ∧ Pb e.2) (zip l l').
Proof. intros Ha. revert l'. induction Ha; intros ? []; cbn; constructor; auto. Qed.
Lemma map_fst_zip {A B} (l : list A) (l' : list B) : length l = length l' → map fst (zip l l') = l.
Proof. revert l'. induction l as [|a l IH]; intros [|b l'] Hl; try done. cbn in *. f_equal. apply IH. lia. Qed.
Lemma map_snd_zip {A B} (l : list A) (l' : list B) : length l = length l' → map snd (zip l l') = l'.
Proof. revert l'. induction l as [|a l IH]; intros [|b l'] Hl; try done. cbn in *. f_equal. apply IH. lia. Qed.

(** A leaf that fits has a page that reads back as the leaf; one that does not
    raises [BTreeOverflowError] *)
Lemma leaf_page_spec l : wf_leaf l →
  if decide (leaf_size l <= NODE_ROOM) then
    ∃ pg, leaf_page t l = Ok pg ∧ zlen pg = PAGE_SIZE ∧ node_of_page pg = Ok (Leaf l)
  else leaf_page t l = Err BTreeOverflowError.
Proof.
  intros (Hlen & Hn & Henc & Hkey & Hrid & Hnext). pose proof (zlen_nonneg (lf_keys l)) as Hn0.
  assert (Forall (entry_ok rid_ok) (leaf_entries l)) as Hes by (by apply Forall_zip).
  assert (zlen (leaf_header (lf_next l) (zlen (lf_keys l))) = 12) as Hh by (unfold leaf_header; by autorewrite with py).
  assert (leaf_page t l = put_entries t 6 put_rid (leaf_entries l) (leaf_header (lf_next l) (zlen (lf_keys l)) ++ zreplicate 4084 x00)
    (zlen (leaf_header (lf_next l) (zlen (lf_keys l))))) as ->.
  { unfold leaf_page. unfold _LEAF_NEXT_PID_OFF, _LEAF_KEY_COUNT_OFF. rewrite zero_page_split.
    rewrite pack_into_ule_ok, bind_Ok by (lia || (rewrite zlen_patch, ?zlen_app, ?zlen_replicate by (try done; lia); lia)).
    rewrite pack_into_ule_ok, bind_Ok by (lia || (rewrite !zlen_patch, ?zlen_app, ?zlen_replicate by (try done; autorewrite with py; lia); lia)).
    by rewrite leaf_header_patches, Hh. }
  unfold leaf_size. case_decide as Hs; unfold NODE_ROOM, PAGE_SIZE, NODE_HEADER_SIZE in Hs.
  - eexists. rewrite (put_entries_fits 6 put_rid rid_bytes rid_ok) by (done || apply put_rid_bytes || (rewrite ?Hh; unfold PAGE_SIZE; lia)).
    split; [done|]. pose proof (entries_size_nonneg rid_bytes (leaf_entries l)). split.
    { autorewrite with py. rewrite Hh. change (zlen (entries_bytes _ _)) with (entries_size rid_bytes (leaf_entries l)).
      rewrite zlen_replicate by lia. unfold PAGE_SIZE. lia. }
    set (zs := zreplicate _ x00). set (body := entries_bytes rid_bytes (leaf_entries l)).
    unfold node_of_page. assert (byte_at (leaf_header (lf_next l) (zlen (lf_keys l)) ++ body ++ zs) 0 = Ok 1) as Hb by done.
    rewrite Hb, bind_Ok. cbn [Z.eqb orb]. change (1 =? _LEAF_NODE_TYPE) with true. cbn [orb].
    unfold _read_leaf_from_bytes, _LEAF_NEXT_PID_OFF, _LEAF_KEY_COUNT_OFF. rewrite Hb, bind_Ok. change (1 =? _LEAF_NODE_TYPE) with true. cbn [orb negb].
    assert (unpack_ule 4 (leaf_header (lf_next l) (zlen (lf_keys l)) ++ body ++ zs) 4 = Ok (lf_next l)) as ->.
    { unfold leaf_header. rewrite <-!app_assoc. by apply (unpack_ule_middle 4 [x01; x00; x00; x00]); [|lia]. }
    rewrite bind_Ok.
    assert (unpack_ule 2 (leaf_header (lf_next l) (zlen (lf_keys l)) ++ body ++ zs) 8 = Ok (zlen (lf_keys l))) as ->.
    { unfold leaf_header. rewrite <-!app_assoc, app_assoc. apply unpack_ule_middle; [by autorewrite with py|lia]. }
    rewrite bind_Ok. replace (Z.to_nat (zlen (lf_keys l))) with (length (leaf_entries l))
      by (unfold leaf_entries, zlen; rewrite length_zip; lia).
    change NODE_HEADER_SIZE with 12. rewrite <-Hh.
    rewrite (get_entries_bytes 6 get_rid rid_bytes rid_ok); [|done|apply get_rid_bytes|done|].
    2:{ eapply Forall_impl; [apply (Forall_zip key_ok rid_ok _ _ Hkey Hrid)|]. by intros e []. }
    rewrite bind_Ok. unfold leaf_entries. rewrite map_fst_zip, map_snd_zip by done.
    destruct (Z.eqb_spec (lf_next l) 0); [lia|]. by destruct l.
  - apply (put_entries_overflow 6 put_rid rid_bytes rid_ok); [done|done|apply put_rid_bytes|done|rewrite Hh; unfold PAGE_SIZE; lia|lia].
Qed.
Lemma internal_page_spec n : wf_internal n →
  if decide (internal_size n <= NODE_ROOM) then
    ∃ pg, internal_page t n = Ok pg ∧ zlen pg = PAGE_SIZE ∧ node_of_page pg = Ok (Internal n)
  else internal_page t n = Err BTreeOverflowError.
Proof.
  intros (Hlen & Hn & Henc & Hkey & Hch). pose proof (zlen_nonneg (in_keys n)) as Hn0.
  destruct n as [keys [|first children]]; cbn [in_keys in_children] in *; [done|]. apply Forall_cons in Hch as [Hf Hch].
  injection Hlen as Hlen. unfold internal_size, internal_entries. cbn [in_keys in_children tail].
  assert (Forall (entry_ok child_ok) (zip keys children)) as Hes by (by apply Forall_zip).
  assert (zlen (internal_header first (zlen keys)) = 12) as Hh by (unfold internal_header; by autorewrite with py).
  assert (internal_page t (mkInternal keys (first :: children)) =
    put_entries t 4 put_child (zip keys children) (internal_header first (zlen keys) ++ zreplicate 4084 x00)
      (zlen (internal_header first (zlen keys)))) as ->.
  { unfold internal_page. unfold _INTERNAL_KEY_COUNT_OFF, _INTERNAL_FIRST_CHILD_OFF. rewrite zero_page_split. cbn [in_keys in_children].
    rewrite pack_into_ule_ok, bind_Ok by (lia || (rewrite zlen_patch, ?zlen_app, ?zlen_replicate by (try done; lia); lia)).
    rewrite pack_into_ule_ok, bind_Ok by (done || lia || (rewrite !zlen_patch, ?zlen_app, ?zlen_replicate by (try done; autorewrite with py; lia); lia)).
    by rewrite internal_header_patches, Hh. }
  case_decide as Hs; unfold NODE_ROOM, PAGE_SIZE, NODE_HEADER_SIZE in Hs.
  - eexists. rewrite (put_entries_fits 4 put_child (le_bytes 4) child_ok) by
      (done || apply put_child_bytes || (intros; apply zlen_le_bytes) || (rewrite ?Hh; unfold PAGE_SIZE; lia)).
    split; [done|]. pose proof (entries_size_nonneg (le_bytes 4) (zip keys children)). split.
    { autorewrite with py. rewrite Hh. change (zlen (entries_bytes _ _)) with (entries_size (le_bytes 4) (zip keys children)).
      rewrite zlen_replicate by lia. unfold PAGE_SIZE. lia. }
    set (zs := zreplicate _ x00). set (body := entries_bytes (le_bytes 4) (zip keys children)).
    unfold node_of_page. assert (byte_at (internal_header first (zlen keys) ++ body ++ zs) 0 = Ok 2) as Hb by done.
    rewrite Hb, bind_Ok. cbn [Z.eqb orb]. change (2 =? _LEAF_NODE_TYPE) with false. change (2 =? _INTERNAL_NODE_TYPE) with true. cbn [orb].
    unfold _read_internal_from_bytes, _INTERNAL_KEY_COUNT_OFF, _INTERNAL_FIRST_CHILD_OFF. rewrite Hb, bind_Ok. change (2 =? _INTERNAL_NODE_TYPE) with true. cbn [negb].
    assert (unpack_ule 2 (internal_header first (zlen keys) ++ body ++ zs) 4 = Ok (zlen keys)) as ->.
    { unfold internal_header. rewrite <-!app_assoc. by apply (unpack_ule_middle 2 [x02; x00; x00; x00]); [|lia]. }
    rewrite bind_Ok.
    assert (unpack_ule 4 (internal_header first (zlen keys) ++ body ++ zs) 8 = Ok first) as ->.
    { unfold internal_header. rewrite <-!app_assoc. rewrite (app_assoc (le_bytes 2 _)), app_assoc.
      apply unpack_ule_middle; [by autorewrite with py|done]. }
    rewrite bind_Ok. replace (Z.to_nat (zlen keys)) with (length (zip keys children)) by (unfold zlen; rewrite length_zip; lia).
    change NODE_HEADER_SIZE with 12. rewrite <-Hh.
    rewrite (get_entries_bytes 4 get_child (le_bytes 4) child_ok); [|intros; apply zlen_le_bytes|apply get_child_bytes|done|].
    2:{ eapply Forall_impl; [apply (Forall_zip key_ok child_ok _ _ Hkey Hch)|]. by intros e []. }
    rewrite bind_Ok. by rewrite map_fst_zip, map_snd_zip by done.
  - apply (put_entries_overflow 4 put_child (le_bytes 4) child_ok);
      [done|intros; apply zlen_le_bytes|apply put_child_bytes|done|rewrite Hh; unfold PAGE_SIZE; lia|lia].
Qed.
End NodePages.
