(* ===== verification/BTree.v ===== *)
(** Components [index/btree.py], [index/btree_split.py], [index/btree_delete.py],
    [index/btree_rebalance.py] and [index/btree_pages.py]: the operations of a
    B-tree index over the pages of a pager.

    Recursion and the walks along sibling chains take fuel: the depth of the
    tree, or the number of pages to visit. *)
From S2P Require Import Prelude.
From S2P Require Import Bytes.
From S2P Require Import TypeSys.
From S2P Require Import Codec.
From S2P Require Import Pager.
From S2P Require Import BufferPool.
From S2P Require Import Heap.
From S2P Require Import PyOrder.
From S2P Require Import BTreeNode.
From Stdlib Require Import ZArith Lia.
Local Open Scope Z_scope.

Definition ORDER : Z := 64.
Definition MIN_LEAF_ENTRIES : Z := ORDER - 1.
Definition MIN_INTERNAL_CHILDREN : Z := ORDER.

(** [_root_view] is [None] until the root is loaded *)
Record BTreeIndex (P : Type) := mkBTree {
  bt_pager : P;
  bt_root_pid : Z;
  bt_root_view : option node;
}.
Arguments mkBTree {P} _ _ _.
Arguments bt_pager {P} _.
Arguments bt_root_pid {P} _.
Arguments bt_root_view {P} _.

(** [l.insert(i, x)], [del l[i]] and [l[i] = x] *)
Definition linsert {A} (i : nat) (x : A) (l : list A) : list A := take i l ++ x :: drop i l.
Definition ldelete {A} (i : nat) (l : list A) : list A := take i l ++ drop (S i) l.
Definition lset {A} (i : nat) (x : A) (l : list A) : list A := take i l ++ x :: drop (S i) l.
Definition nth_or {A} (l : list A) (i : nat) : result A := of_option IndexError (l !! i).

(** [isinstance(e, TypeError)] *)
Definition is_TypeError (e : exn) : bool := bool_decide (e = TypeError ∨ e = CodecError).

Section BTree.
Context `{JsonLib} {P : Type} `{PagerOps P, AllocOps P} (t : TypeTag).
Abbreviation BT := (BTreeIndex P).

Definition on_pager {A} (m : M P A) : M BT A := zoom bt_pager (λ p b, mkBTree p b.(bt_root_pid) b.(bt_root_view)) m.
Definition set_view (n : node) : M BT unit := modify (λ b, mkBTree b.(bt_pager) b.(bt_root_pid) (Some n)).
(** The object [n], mutated: when it is the cached root, the cache shows it *)
Definition mutated (root : bool) (n : node) : M BT unit := if root then set_view n else mret ().
Definition except_overflow {A} (m h : M BT A) : M BT A :=
  catch m (λ e, if decide (e = BTreeOverflowError) then h else raise e).

Definition _ensure_loaded : M BT node :=
  b ← get;
  match b.(bt_root_view) with
  | Some n => mret n
  | None => n ← on_pager (_read_node_view b.(bt_root_pid)); set_view n;; mret n
  end.
Definition write_node (pid : Z) (n : node) : M BT unit :=
  match n with
  | Leaf l => on_pager (_write_leaf pid l t)
  | Internal n => on_pager (_write_internal pid n t)
  end.
(** [_persist_root], and [flush], which does nothing before the root is loaded *)
Definition flush : M BT unit :=
  b ← get;
  match b.(bt_root_view) with None => mret () | Some n => write_node b.(bt_root_pid) n end.

Definition _find_child (key : pyval) (n : InternalNode) : result nat :=
  idx ← _upper_bound n.(in_keys) key; Ok (Nat.min idx (length n.(in_children) - 1)).

(** * Search *)

Fixpoint descend (fuel : nat) (key : pyval) (n : node) : M BT LeafNode :=
  match n, fuel with
  | Leaf l, _ => mret l
  | Internal _, O => raise OutOfFuel
  | Internal n, S fuel =>
      child_idx ← lift (_find_child key n);
      pid ← lift (nth_or n.(in_children) child_idx);
      n ← on_pager (_read_node_view pid);
      descend fuel key n
  end.
Definition search (fuel : nat) (key : pyval) : M BT (list Rid) :=
  catch (n ← _ensure_loaded;
         leaf ← descend fuel key n;
         lo ← lift (_lower_bound leaf.(lf_keys) key);
         hi ← lift (_upper_bound leaf.(lf_keys) key);
         mret (take (hi - lo) (drop lo leaf.(lf_rids))))
        (λ e, if is_TypeError e then mret [] else raise e).

(** The entries of a leaf up to the upper bound, and whether it was passed *)
Fixpoint scan_leaf (entries : list (pyval * Rid)) (hi : pyval) (inclusive prefix_mode : bool) : list Rid * bool :=
  match entries with
  | [] => ([], false)
  | (key, rid) :: entries =>
      if _is_past_upper key hi inclusive prefix_mode then ([], true)
      else let '(rids, past) := scan_leaf entries hi inclusive prefix_mode in (rid :: rids, past)
  end.
(** [acc] was yielded already: a [TypeError] ends the generator *)
Definition or_stop {A} (acc : list Rid) (m : M BT A) (k : A → M BT (list Rid)) : M BT (list Rid) := λ b,
  match m b with
  | (Ok a, b) => k a b
  | (Err e, b) => if is_TypeError e then (Ok acc, b) else (Err e, b)
  end.
Fixpoint walk (fuel : nat) (lo hi : pyval) (inclusive prefix_mode : bool) (leaf : LeafNode) (acc : list Rid) : M BT (list Rid) :=
  or_stop acc (lift (_lower_bound leaf.(lf_keys) lo)) (λ start,
    let '(rids, past) := scan_leaf (drop start (zip leaf.(lf_keys) leaf.(lf_rids))) hi inclusive prefix_mode in
    let acc := acc ++ rids in
    if past then mret acc
    else if leaf.(lf_next) =? NO_NEXT then mret acc
    else match fuel with
         | O => raise OutOfFuel
         | S fuel =>
             or_stop acc (page ← on_pager (pi_read_page leaf.(lf_next)); lift (_read_leaf_from_bytes page)) (λ leaf,
               walk fuel lo hi inclusive prefix_mode leaf acc)
         end).
(** The rids that [range] yields when it is consumed to its end: [depth] bounds
    the height of the tree, [width] the leaves to walk *)
Definition range (depth width : nat) (lo hi : pyval) (inclusive : bool) : M BT (list Rid) :=
  let prefix_mode := py_eq lo hi && inclusive in
  or_stop [] (lift (py_gt lo hi)) (λ gt,
    if gt : bool then mret [] else
    or_stop [] (n ← _ensure_loaded; descend depth lo n) (λ leaf,
      walk width lo hi inclusive prefix_mode leaf [])).

(** * Insertion *)

(** Both halves are written, the left first *)
Definition split_leaf (pid : Z) (leaf : LeafNode) : M BT (pyval * Z) :=
  let mid := (length leaf.(lf_keys) / 2)%nat in
  right_pid ← on_pager pi_allocate_page;
  let left := mkLeaf (take mid leaf.(lf_keys)) (take mid leaf.(lf_rids)) right_pid in
  let right := mkLeaf (drop mid leaf.(lf_keys)) (drop mid leaf.(lf_rids)) leaf.(lf_next) in
  on_pager (_write_leaf pid left t);;
  on_pager (_write_leaf right_pid right t);;
  sep ← lift (nth_or right.(lf_keys) 0);
  mret (sep, right_pid).
Definition split_internal (pid : Z) (n : InternalNode) : M BT (pyval * Z) :=
  let mid := (length n.(in_keys) / 2)%nat in
  push_up_key ← lift (nth_or n.(in_keys) mid);
  let left := mkInternal (take mid n.(in_keys)) (take (S mid) n.(in_children)) in
  let right := mkInternal (drop (S mid) n.(in_keys)) (drop (S mid) n.(in_children)) in
  right_pid ← on_pager pi_allocate_page;
  on_pager (_write_internal pid left t);;
  on_pager (_write_internal right_pid right t);;
  mret (push_up_key, right_pid).

Fixpoint _insert_into (fuel : nat) (root : bool) (pid : Z) (n : node) (key : pyval) (rid : Rid) : M BT (option (pyval * Z)) :=
  match n with
  | Leaf l =>
      pos ← lift (_upper_bound l.(lf_keys) key);
      let l := mkLeaf (linsert pos key l.(lf_keys)) (linsert pos rid l.(lf_rids)) l.(lf_next) in
      mutated root (Leaf l);;
      except_overflow (on_pager (_write_leaf pid l t);; mret None) (s ← split_leaf pid l; mret (Some s))
  | Internal n =>
      match fuel with
      | O => raise OutOfFuel
      | S fuel =>
          child_idx ← lift (_find_child key n);
          child_pid ← lift (nth_or n.(in_children) child_idx);
          child_node ← on_pager (_read_node_view child_pid);
          child_split ← _insert_into fuel false child_pid child_node key rid;
          match child_split with
          | None => mret None
          | Some (push_up_key, right_pid) =>
              let n := mkInternal (linsert child_idx push_up_key n.(in_keys)) (linsert (S child_idx) right_pid n.(in_children)) in
              mutated root (Internal n);;
              except_overflow (on_pager (_write_internal pid n t);; mret None) (s ← split_internal pid n; mret (Some s))
          end
      end
  end.
Definition insert (fuel : nat) (key : pyval) (rid : Rid) : M BT unit :=
  n ← _ensure_loaded;
  b ← get;
  split ← _insert_into fuel true b.(bt_root_pid) n key rid;
  match split with
  | None => mret ()
  | Some (sep, right_pid) =>
      new_root_pid ← on_pager pi_allocate_page;
      b ← get;
      let new_root := mkInternal [sep] [b.(bt_root_pid); right_pid] in
      on_pager (_write_internal new_root_pid new_root t);;
      modify (λ b, mkBTree b.(bt_pager) new_root_pid (Some (Internal new_root)))
  end.

(** * Deletion *)

Definition _sibling_has_spare (n : node) : bool :=
  match n with
  | Leaf l => MIN_LEAF_ENTRIES <? zlen l.(lf_keys)
  | Internal n => MIN_INTERNAL_CHILDREN <? zlen n.(in_children)
  end.
Definition same_kind (a b : node) : bool :=
  match a, b with Leaf _, Leaf _ | Internal _, Internal _ => true | _, _ => false end.
(** [l.pop()] and [l.pop(0)] *)
Definition pop_last {A} (l : list A) : result (A * list A) :=
  x ← of_option IndexError (last l); Ok (x, removelast l).
Definition pop_first {A} (l : list A) : result (A * list A) :=
  match l with [] => Err IndexError | x :: l => Ok (x, l) end.

(** [borrow_from_sibling]: the parent after it, or [None] when nothing can be
    borrowed *)
Definition borrow_from_sibling (root : bool) (parent_pid : Z) (parent : InternalNode) (child_idx : nat) (prefer_left : bool)
    : M BT (option InternalNode) :=
  if (if prefer_left then (child_idx =? 0)%nat else (length parent.(in_children) <=? S child_idx)%nat) then mret None else
  let sibling_idx := if prefer_left then (child_idx - 1)%nat else S child_idx in
  let separator_idx := if prefer_left then (child_idx - 1)%nat else child_idx in
  sibling_pid ← lift (nth_or parent.(in_children) sibling_idx);
  child_pid ← lift (nth_or parent.(in_children) child_idx);
  sibling ← on_pager (_read_node_view sibling_pid);
  child ← on_pager (_read_node_view child_pid);
  if negb (same_kind sibling child) then raise RuntimeError else
  if negb (_sibling_has_spare sibling) then mret None else
  match sibling, child with
  | Leaf s, Leaf c =>
      if prefer_left then
        '(new_sep, skeys) ← lift (pop_last s.(lf_keys));
        '(borrowed_rid, srids) ← lift (pop_last s.(lf_rids));
        let parent := mkInternal (lset separator_idx new_sep parent.(in_keys)) parent.(in_children) in
        mutated root (Internal parent);;
        on_pager (_write_leaf sibling_pid (mkLeaf skeys srids s.(lf_next)) t);;
        on_pager (_write_leaf child_pid (mkLeaf (new_sep :: c.(lf_keys)) (borrowed_rid :: c.(lf_rids)) c.(lf_next)) t);;
        on_pager (_write_internal parent_pid parent t);;
        mret (Some parent)
      else
        '(borrowed_key, skeys) ← lift (pop_first s.(lf_keys));
        '(borrowed_rid, srids) ← lift (pop_first s.(lf_rids));
        new_sep ← lift (nth_or skeys 0);
        let parent := mkInternal (lset separator_idx new_sep parent.(in_keys)) parent.(in_children) in
        mutated root (Internal parent);;
        on_pager (_write_leaf sibling_pid (mkLeaf skeys srids s.(lf_next)) t);;
        on_pager (_write_leaf child_pid (mkLeaf (c.(lf_keys) ++ [borrowed_key]) (c.(lf_rids) ++ [borrowed_rid]) c.(lf_next)) t);;
        on_pager (_write_internal parent_pid parent t);;
        mret (Some parent)
  | Internal s, Internal c =>
      if prefer_left then
        '(new_sep, skeys) ← lift (pop_last s.(in_keys));
        '(borrowed_child, schildren) ← lift (pop_last s.(in_children));
        let parent := mkInternal (lset separator_idx new_sep parent.(in_keys)) parent.(in_children) in
        mutated root (Internal parent);;
        on_pager (_write_internal sibling_pid (mkInternal skeys schildren) t);;
        on_pager (_write_internal child_pid (mkInternal (new_sep :: c.(in_keys)) (borrowed_child :: c.(in_children))) t);;
        on_pager (_write_internal parent_pid parent t);;
        mret (Some parent)
      else
        '(borrowed_key, skeys) ← lift (pop_first s.(in_keys));
        '(borrowed_child, schildren) ← lift (pop_first s.(in_children));
        new_sep ← lift (nth_or skeys 0);
        let parent := mkInternal (lset separator_idx new_sep parent.(in_keys)) parent.(in_children) in
        mutated root (Internal parent);;
        on_pager (_write_internal sibling_pid (mkInternal skeys schildren) t);;
        on_pager (_write_internal child_pid (mkInternal (c.(in_keys) ++ [borrowed_key]) (c.(in_children) ++ [borrowed_child])) t);;
        on_pager (_write_internal parent_pid parent t);;
        mret (Some parent)
  | _, _ => raise RuntimeError
  end.

Definition _merge_into_right (root : bool) (parent_pid : Z) (parent : InternalNode) (left_idx : nat) : M BT InternalNode :=
  left_pid ← lift (nth_or parent.(in_children) left_idx);
  right_pid ← lift (nth_or parent.(in_children) (S left_idx));
  sep ← lift (nth_or parent.(in_keys) left_idx);
  left ← on_pager (_read_node_view left_pid);
  right ← on_pager (_read_node_view right_pid);
  (match left, right with
   | Leaf l, Leaf r =>
       on_pager (_write_leaf right_pid (mkLeaf (l.(lf_keys) ++ r.(lf_keys)) (l.(lf_rids) ++ r.(lf_rids)) r.(lf_next)) t)
   | Internal l, Internal r =>
       on_pager (_write_internal right_pid (mkInternal (l.(in_keys) ++ [sep] ++ r.(in_keys)) (l.(in_children) ++ r.(in_children))) t)
   | _, _ => raise RuntimeError
   end);;
  let parent := mkInternal (ldelete left_idx parent.(in_keys)) (ldelete left_idx parent.(in_children)) in
  mutated root (Internal parent);;
  on_pager (_write_internal parent_pid parent t);;
  mret parent.
Definition merge_with_sibling (root : bool) (parent_pid : Z) (parent : InternalNode) (child_idx : nat) : M BT InternalNode :=
  if (S child_idx <? length parent.(in_children))%nat then _merge_into_right root parent_pid parent child_idx
  else if (0 <? child_idx)%nat then _merge_into_right root parent_pid parent (child_idx - 1)
  else raise RuntimeError.
Definition _try_borrow_or_merge (root : bool) (parent_pid : Z) (parent : InternalNode) (child_idx : nat) : M BT InternalNode :=
  r ← borrow_from_sibling root parent_pid parent child_idx true;
  match r with
  | Some parent => mret parent
  | None =>
      r ← borrow_from_sibling root parent_pid parent child_idx false;
      match r with
      | Some parent => mret parent
      | None => merge_with_sibling root parent_pid parent child_idx
      end
  end.

(** The first position in [start..end-1] that holds [rid] *)
Fixpoint find_rid (rids : list Rid) (rid : Rid) (i : nat) (n : nat) : option nat :=
  match n with
  | O => None
  | S n => if decide (rids !! i = Some rid) then Some i else find_rid rids rid (S i) n
  end.
Definition _delete_from_leaf (root : bool) (pid : Z) (l : LeafNode) (key : pyval) (rid : Rid) : M BT (bool * bool) :=
  lo ← lift (_lower_bound l.(lf_keys) key);
  hi ← lift (_upper_bound l.(lf_keys) key);
  match find_rid l.(lf_rids) rid lo (hi - lo) with
  | None => mret (false, false)
  | Some pos =>
      let l := mkLeaf (ldelete pos l.(lf_keys)) (ldelete pos l.(lf_rids)) l.(lf_next) in
      mutated root (Leaf l);;
      on_pager (_write_leaf pid l t);;
      mret (true, zlen l.(lf_keys) <? MIN_LEAF_ENTRIES)
  end.
Fixpoint delete_from_subtree (fuel : nat) (root : bool) (pid : Z) (n : node) (key : pyval) (rid : Rid) : M BT (bool * bool) :=
  match n with
  | Leaf l => _delete_from_leaf root pid l key rid
  | Internal n =>
      match fuel with
      | O => raise OutOfFuel
      | S fuel =>
          child_idx ← lift (_find_child key n);
          child_pid ← lift (nth_or n.(in_children) child_idx);
          child_node ← on_pager (_read_node_view child_pid);
          '(removed, child_underflow) ← delete_from_subtree fuel false child_pid child_node key rid;
          if negb removed || negb child_underflow then mret (removed, false) else
          n ← _try_borrow_or_merge root pid n child_idx;
          on_pager (_write_internal pid n t);;
          mret (true, zlen n.(in_keys) + 1 <? MIN_INTERNAL_CHILDREN)
      end
  end.
Definition collapse_root_if_singleton : M BT unit :=
  b ← get;
  match b.(bt_root_view) with
  | Some (Internal (mkInternal _ [new_pid])) =>
      new_view ← on_pager (_read_node_view new_pid);
      modify (λ b, mkBTree b.(bt_pager) new_pid (Some new_view))
  | _ => mret ()
  end.
Definition delete (fuel : nat) (key : pyval) (rid : Rid) : M BT unit :=
  n ← _ensure_loaded;
  b ← get;
  delete_from_subtree fuel true b.(bt_root_pid) n key rid;;
  collapse_root_if_singleton.

(** * The pages of an index *)

Definition zmem (x : Z) (l : list Z) : bool := bool_decide (x ∈ l).
(** The first loop of [all_page_ids]; [queue.pop()] takes the last element *)
Fixpoint visit_nodes (fuel : nat) (queue internal_pids leaf_pids : list Z) : M BT (list Z * list Z) :=
  match last queue with
  | None => mret (internal_pids, leaf_pids)
  | Some pid =>
      let queue := removelast queue in
      match fuel with
      | O => raise OutOfFuel
      | S fuel =>
          if zmem pid internal_pids || zmem pid leaf_pids then visit_nodes fuel queue internal_pids leaf_pids else
          page ← on_pager (pi_read_page pid);
          node_type ← lift (byte_at page 0);
          if node_type =? _INTERNAL_NODE_TYPE then
            n ← lift (_read_internal_from_bytes page);
            visit_nodes fuel (queue ++ n.(in_children)) (pid :: internal_pids) leaf_pids
          else visit_nodes fuel queue internal_pids (pid :: leaf_pids)
      end
  end.
(** The second loop, along the sibling chains *)
Fixpoint visit_siblings (fuel : nat) (to_walk leaf_pids : list Z) : M BT (list Z) :=
  match last to_walk with
  | None => mret leaf_pids
  | Some pid =>
      let to_walk := removelast to_walk in
      match fuel with
      | O => raise OutOfFuel
      | S fuel =>
          page ← on_pager (pi_read_page pid);
          n ← lift (_read_leaf_from_bytes page);
          let nxt := n.(lf_next) in
          if negb (nxt =? NO_NEXT) && negb (zmem nxt leaf_pids)
          then visit_siblings fuel (to_walk ++ [nxt]) (nxt :: leaf_pids)
          else visit_siblings fuel to_walk leaf_pids
      end
  end.
(** The set of pages; the code returns it sorted *)
Definition all_page_ids (fuel : nat) : M BT (list Z) :=
  _ensure_loaded;;
  b ← get;
  '(internal_pids, leaf_pids) ← visit_nodes fuel [b.(bt_root_pid)] [] [];
  leaf_pids ← visit_siblings fuel leaf_pids leaf_pids;
  mret (internal_pids ++ leaf_pids).
End BTree.
