(* ===== verification/BTreeSpec.v ===== *)
(** The B-tree as a tree: which pages hold it, in which order its keys lie, and
    what an insertion does to its entries. *)
From S2P Require Import Prelude.
From S2P Require Import Bytes.
From S2P Require Import TypeSys.
From S2P Require Import Codec.
From S2P Require Import Pager.
From S2P Require Import BufferPool.
From S2P Require Import Heap.
From S2P Require Import PyOrder.
From S2P Require Import BTreeNode.
From S2P Require Import BTree.
From stdpp Require Import sorting.
From Stdlib Require Import ZArith Lia.
Local Open Scope Z_scope.

(** * Trees *)

Abbreviation entry := (pyval * Rid)%type.

(** A tree of height [h]: a leaf is a page and its entries, an inner node a
    page, its separators and its children *)
Fixpoint btree (h : nat) : Type :=
  match h with
  | O => (Z * list entry)%type
  | S h => (Z * (list pyval * list (btree h)))%type
  end.
Definition root_of {h : nat} : btree h → Z := match h with O => fst | S _ => fst end.
Fixpoint first_leaf {h : nat} : btree h → Z :=
  match h with O => fst | S h => λ b, match b.2.2 with [] => 0 | c :: _ => first_leaf c end end.
Fixpoint entries {h : nat} : btree h → list entry :=
  match h with O => snd | S h => λ b, concat (map entries b.2.2) end.
Fixpoint pids {h : nat} : btree h → list Z :=
  match h with O => λ b, [b.1] | S h => λ b, b.1 :: concat (map pids b.2.2) end.
(** The node of the root, the leaf after the tree being [next] *)
Definition node_of {h : nat} : Z → btree h → node :=
  match h with
  | O => λ next b, Leaf (mkLeaf (map fst b.2) (map snd b.2) next)
  | S h => λ _ b, Internal (mkInternal b.2.1 (map root_of b.2.2))
  end.

Section Spec.
Context `{JsonLaws} (t : TypeTag) (K : pyval → Prop) `{OrderedKeys K}.
(** The encodings of the keys have between [wmin] and [wmax] bytes. *)
Context (wmin wmax : Z).

(** A key the index can hold *)
Definition good (k : pyval) : Prop := K k ∧ encodable t k ∧ wmin <= zlen (key_bytes t k) <= wmax.
(** The order of the keys: strict in an index without duplicates *)
Context (u : bool).
Definition ord (a b : pyval) : Prop := if u then key_lt K a b else key_le K a b.
Lemma ord_le a b : ord a b → key_le K a b.
Proof. unfold ord. destruct u; [apply key_lt_le|done]. Qed.
Lemma lt_ord a b : key_lt K a b → ord a b.
Proof. unfold ord. destruct u; [done|apply key_lt_le]. Qed.
Lemma ord_trans a b c : ord a b → ord b c → ord a c.
Proof. unfold ord. destruct u; [apply key_lt_trans|apply key_le_trans]. Qed.

(** Bounds of a subtree: [lo <= k], and [k] before, strictly below or at most [hi] *)
Definition above (lo : option pyval) (k : pyval) : Prop := match lo with Some s => key_le K s k | None => True end.
Definition below (hi : option pyval) (k : pyval) : Prop := match hi with Some s => ord k s | None => True end.
Definition strictly_below (hi : option pyval) (k : pyval) : Prop := match hi with Some s => key_lt K k s | None => True end.
Definition at_most (hi : option pyval) (k : pyval) : Prop := match hi with Some s => key_le K k s | None => True end.
Lemma strictly_below_below hi k : strictly_below hi k → below hi k.
Proof. destruct hi; [apply lt_ord|done]. Qed.
Lemma below_at_most hi k : below hi k → at_most hi k.
Proof. destruct hi; [apply ord_le|done]. Qed.
Lemma ord_le_trans a b c : ord a b → key_le K b c → ord a c.
Proof. unfold ord. destruct u; [apply key_lt_le_trans|apply key_le_trans]. Qed.
Lemma below_trans hi s k : at_most hi s → ord k s → below hi k.
Proof. destruct hi; [|done]. cbn. intros ??. by eapply ord_le_trans. Qed.
Lemma above_trans lo s k : above lo s → key_le K s k → above lo k.
Proof. destruct lo; [apply key_le_trans|done]. Qed.
Lemma at_most_trans hi s k : at_most hi s → key_le K k s → at_most hi k.
Proof. destruct hi; [|done]. cbn. intros ??. by eapply key_le_trans. Qed.

(** ** Lists of children *)

Section Links.
Context {A : Type} (R : Z → A → Prop) (next_of : A → Z).
Definition head_or (next : Z) (cs : list A) : Z := match cs with [] => next | c :: _ => next_of c end.
(** Each child, with the first leaf of the following one for its last link *)
Fixpoint linked (next : Z) (cs : list A) : Prop :=
  match cs with
  | [] => True
  | c :: cs => R (head_or next cs) c ∧ linked next cs
  end.
Lemma linked_app next cs cs' : linked next (cs ++ cs') ↔ linked (head_or next cs') cs ∧ linked next cs'.
Proof.
  induction cs as [|c cs IH]; cbn [app linked]; [tauto|]. rewrite IH.
  replace (head_or next (cs ++ cs')) with (head_or (head_or next cs') cs) by (by destruct cs). tauto.
Qed.
Lemma linked_at next cs c : c ∈ cs → linked next cs → ∃ n, R n c.
Proof. intros Hc. induction Hc; cbn; intros []; [by eexists|auto]. Qed.
End Links.

Section Children.
Context {A : Type} (R' : option pyval → option pyval → A → Prop).
Definition sep_ok (lo hi : option pyval) (s : pyval) : Prop := good s ∧ above lo s ∧ at_most hi s.
(** Each child between its separators *)
Fixpoint spaced (lo hi : option pyval) (seps : list pyval) (cs : list A) : Prop :=
  match seps, cs with
  | [], [c] => R' lo hi c
  | s :: seps, c :: cs => R' lo (Some s) c ∧ sep_ok lo hi s ∧ spaced (Some s) hi seps cs
  | _, _ => False
  end.

Lemma spaced_length lo hi seps cs : spaced lo hi seps cs → length cs = S (length seps).
Proof.
  revert lo cs. induction seps as [|s seps IH]; intros lo [|c cs]; cbn [spaced]; try done; [by destruct cs|].
  intros (_ & _ & Hb). cbn [length]. f_equal. by eapply IH.
Qed.
Lemma spaced_seps lo hi seps cs : spaced lo hi seps cs → Forall (sep_ok lo hi) seps ∧ StronglySorted (key_le K) seps.
Proof.
  revert lo cs. induction seps as [|s seps IH]; intros lo [|c cs]; cbn [spaced]; try done; [by repeat constructor|].
  intros (_ & Hs & Hb). destruct (IH _ _ Hb) as [Hf Hss]. split; constructor; try done.
  - eapply Forall_impl; [exact Hf|]. intros s' (Hg & Ha & Hm). split_and!; [done| |done]. destruct Hs as (_ & Hs & _).
    by eapply above_trans.
  - eapply Forall_impl; [exact Hf|]. by intros s' (_ & Ha & _).
Qed.
(** The children in front of and behind the separator [k] *)
Lemma spaced_cut lo hi s1 k s2 cs1 cs2 : length cs1 = S (length s1) → spaced lo hi (s1 ++ k :: s2) (cs1 ++ cs2) →
  spaced lo (Some k) s1 cs1 ∧ sep_ok lo hi k ∧ spaced (Some k) hi s2 cs2.
Proof.
  revert lo cs1. induction s1 as [|s s1 IH]; intros lo [|c cs1] Hl; try done; cbn [app spaced length] in *.
  - destruct cs1; [|done]. cbn [app]. by intros (? & ? & ?).
  - intros (Hc & Hs & Hb). destruct (IH (Some s) cs1 ltac:(lia) Hb) as (Hb1 & (Hk & Hsk & Hkh) & Hb2).
    destruct Hs as (Hg & Ha & Hm). pose proof (above_trans _ _ _ Ha Hsk). by split_and!.
Qed.
(** Its inverse *)
Lemma spaced_glue lo hi s1 k s2 cs1 cs2 : spaced lo (Some k) s1 cs1 → sep_ok lo hi k → spaced (Some k) hi s2 cs2 →
  spaced lo hi (s1 ++ k :: s2) (cs1 ++ cs2).
Proof.
  revert lo cs1. induction s1 as [|s s1 IH]; intros lo [|c cs1]; cbn [app spaced]; try done.
  - by destruct cs1.
  - intros (Hc & (Hg & Ha & Hm) & Hb) (Hgk & Hak & Hmk) Hb2. split_and!; [done| |].
    + split_and!; [done..|]. by eapply at_most_trans.
    + by apply IH.
Qed.
Lemma spaced_each lo hi seps cs c : spaced lo hi seps cs → c ∈ cs →
  ∃ lo' hi', R' lo' hi' c ∧ (lo' = lo ∨ ∃ s, lo' = Some s ∧ s ∈ seps) ∧ (hi' = hi ∨ ∃ s, hi' = Some s ∧ s ∈ seps).
Proof.
  revert lo cs. induction seps as [|s seps IH]; intros lo [|c1 cs]; cbn [spaced]; try done.
  - destruct cs; [|done]. intros Hc ->%list_elem_of_singleton. exists lo, hi. eauto.
  - intros (Hc & _ & Hb) [->|Hin]%elem_of_cons.
    + exists lo, (Some s). split_and!; [done|by left|]. right. exists s. split; [done|by left].
    + destruct (IH _ _ Hb Hin) as (lo' & hi' & Hc' & Hlo & Hhi). exists lo', hi'. split_and!; [done| |].
      * right. destruct Hlo as [->|(s' & -> & ?)]; eexists; (split; [done|]); [by left|by right].
      * destruct Hhi as [->|(s' & -> & ?)]; [by left|]. right. eexists. split; [done|]. by right.
Qed.
(** Zooming in on the first child: its bounds, what may replace it, and the
    bounds of the others *)
Lemma spaced_head lo hi s2 c cs2 : spaced lo hi s2 (c :: cs2) →
  ∃ hi', R' lo hi' c ∧
    (∀ seps' bs, spaced lo hi' seps' bs → spaced lo hi (seps' ++ s2) (bs ++ cs2)) ∧
    (∀ k, strictly_below hi k → Forall (key_lt K k) s2 → strictly_below hi' k) ∧
    (∀ c', c' ∈ cs2 → ∃ s hi, s ∈ s2 ∧ R' (Some s) hi c').
Proof.
  destruct s2 as [|s s2]; cbn [spaced].
  - destruct cs2; [|done]. intros Hc. exists hi. split_and!; try done; [|by intros ? ?%elem_of_nil].
    intros seps' bs. by rewrite !app_nil_r.
  - intros (Hc & Hs & Hb). exists (Some s). split_and!; [done| |by intros k _ [? _]%Forall_cons|].
    + intros seps' bs Hbs. by apply spaced_glue.
    + intros c' Hin. destruct (spaced_each _ _ _ _ _ Hb Hin) as (lo' & hi' & Hc' & Hlo & _).
      destruct Hlo as [->|(s' & -> & ?)]; eexists _, hi'; (split; [|done]); [by left|by right].
Qed.
(** Zooming in on the children behind some *)
Lemma spaced_drop lo hi s1 s2 cs1 cs2 : length s1 = length cs1 → spaced lo hi (s1 ++ s2) (cs1 ++ cs2) →
  ∃ lo', spaced lo' hi s2 cs2 ∧
    (∀ s2' cs2', spaced lo' hi s2' cs2' → spaced lo hi (s1 ++ s2') (cs1 ++ cs2')) ∧
    (∀ k, above lo k → Forall (λ s, key_le K s k) s1 → above lo' k) ∧
    (∀ c', c' ∈ cs1 → ∃ lo s, s ∈ s1 ∧ R' lo (Some s) c').
Proof.
  destruct s1 as [|k s1 _] using rev_ind.
  - destruct cs1; [|done]. intros _ Hb. exists lo. split_and!; try done. by intros ? ?%elem_of_nil.
  - rewrite length_app, Nat.add_1_r. intros Hl Hb. rewrite <-app_assoc in Hb. cbn [app] in Hb.
    apply spaced_cut in Hb as (Hb1 & Hk & Hb2); [|done]. exists (Some k). split_and!; [done| | |].
    + intros s2' cs2' Hb'. rewrite <-app_assoc. cbn [app]. apply spaced_glue; [done|done|done].
    + intros k' _ Hs. apply Forall_app in Hs as [_ Hs]. by apply Forall_cons in Hs as [? _].
    + intros c' Hin. destruct (spaced_each _ _ _ _ _ Hb1 Hin) as (lo' & hi' & Hc' & _ & Hhi).
      destruct Hhi as [->|(s' & -> & ?)]; eexists lo', _; (split; [|done]); set_solver.
Qed.
Lemma spaced_focus lo hi s1 s2 cs1 c cs2 : length s1 = length cs1 → spaced lo hi (s1 ++ s2) (cs1 ++ c :: cs2) →
  ∃ lo' hi', R' lo' hi' c ∧
    (∀ seps' bs, spaced lo' hi' seps' bs → spaced lo hi (s1 ++ seps' ++ s2) (cs1 ++ bs ++ cs2)) ∧
    (∀ k, above lo k → Forall (λ s, key_le K s k) s1 → above lo' k) ∧
    (∀ k, strictly_below hi k → Forall (key_lt K k) s2 → strictly_below hi' k) ∧
    (∀ c', c' ∈ cs1 → ∃ lo s, s ∈ s1 ∧ R' lo (Some s) c') ∧
    (∀ c', c' ∈ cs2 → ∃ s hi, s ∈ s2 ∧ R' (Some s) hi c').
Proof.
  intros Hl Hb. destruct (spaced_drop _ _ _ _ _ _ Hl Hb) as (lo' & Hb' & Hback & Ha & Hin1).
  destruct (spaced_head _ _ _ _ _ Hb') as (hi' & Hc & Hback' & Hs & Hin2).
  exists lo', hi'. split_and!; eauto.
Qed.
End Children.

(** ** Trees in pages, and in order *)

Definition shows (m : gmap Z bytes) (pid : Z) (n : node) : Prop := ∃ pg, m !! pid = Some pg ∧ node_of_page pg = Ok n.
Definition wf_node (n : node) : Prop := match n with Leaf l => wf_leaf t l | Internal n => wf_internal t n end.
Definition node_size (n : node) : Z := match n with Leaf l => leaf_size t l | Internal n => internal_size t n end.
Definition shown (m : gmap Z bytes) (pid : Z) (n : node) : Prop := shows m pid n ∧ wf_node n ∧ node_size n <= NODE_ROOM.
Fixpoint stored (m : gmap Z bytes) {h : nat} : Z → btree h → Prop :=
  match h with
  | O => λ next b, shown m b.1 (node_of (h := O) next b)
  | S h => λ next b, shown m b.1 (node_of (h := S h) next b) ∧ linked (stored m (h := h)) first_leaf next b.2.2
  end.
Fixpoint ordered {h : nat} : option pyval → option pyval → btree h → Prop :=
  match h with
  | O => λ lo hi b, StronglySorted ord (map fst b.2) ∧ Forall (λ k, good k ∧ above lo k ∧ below hi k) (map fst b.2)
  | S h => λ lo hi b, spaced (ordered (h := h)) lo hi b.2.1 b.2.2
  end.

Lemma stored_shown m h next (b : btree h) : stored m next b → shown m (root_of b) (node_of next b).
Proof. destruct h; cbn [stored]; [done|by intros []]. Qed.
Lemma root_of_pids h (b : btree h) : root_of b ∈ pids b.
Proof. destruct h; cbn; by left. Qed.
Lemma elem_of_concat_map {A B} (f : A → list B) l y : y ∈ concat (map f l) ↔ ∃ x, x ∈ l ∧ y ∈ f x.
Proof.
  rewrite list_elem_of_In, in_concat. split.
  - intros (l' & Hl & Hy). apply in_map_iff in Hl as (x & <- & Hx). exists x. by rewrite !list_elem_of_In.
  - intros (x & Hx & Hy). exists (f x). rewrite <-!list_elem_of_In. split; [|done]. apply list_elem_of_In, in_map. by apply list_elem_of_In.
Qed.
Lemma linked_impl {A} (R R' : Z → A → Prop) next_of next cs : (∀ n c, c ∈ cs → R n c → R' n c) →
  linked R next_of next cs → linked R' next_of next cs.
Proof.
  induction cs as [|c cs IH]; [done|]. intros HR [Hc Hl]. split; [apply HR; [by left|done]|].
  apply IH; [|done]. intros n c' Hin. apply HR. by right.
Qed.
(** Only the pages of the tree matter. *)
Lemma shown_ext m m' pid n : m' !! pid = m !! pid → shown m pid n → shown m' pid n.
Proof. intros Hm [(pg & Hp & Hn) ?]. split; [|done]. exists pg. by rewrite Hm. Qed.
Lemma stored_ext m m' h : ∀ next (b : btree h), (∀ x, x ∈ pids b → m' !! x = m !! x) → stored m next b → stored m' next b.
Proof.
  induction h as [|h IH]; intros next b Hm; cbn [stored].
  - apply shown_ext. apply Hm. cbn. by left.
  - intros [Hs Hl]. split; [eapply shown_ext; [|done]; apply Hm; cbn; by left|].
    eapply linked_impl; [|exact Hl]. intros n c Hc. apply IH. intros x Hx. apply Hm. cbn [pids]. right.
    apply elem_of_concat_map. eauto.
Qed.
Lemma linked_ext m m' h next (cs : list (btree h)) : (∀ x, x ∈ concat (map pids cs) → m' !! x = m !! x) →
  linked (stored m) first_leaf next cs → linked (stored m') first_leaf next cs.
Proof.
  intros Hm. apply linked_impl. intros n c Hc. apply stored_ext. intros x Hx. apply Hm, elem_of_concat_map. eauto.
Qed.
(** Its pages are there, and its keys are in its bounds. *)
Lemma stored_pids m h : ∀ next (b : btree h) x, stored m next b → x ∈ pids b → is_Some (m !! x).
Proof.
  induction h as [|h IH]; intros next b x; cbn [stored pids].
  - intros [(pg & Hp & _) _] ->%list_elem_of_singleton. by eexists.
  - intros [[(pg & Hp & _) _] Hl] [->|Hin]%elem_of_cons; [by eexists|]. apply elem_of_concat_map in Hin as (c & Hc & Hx).
    destruct (linked_at _ _ _ _ _ Hc Hl) as [n Hn]. by eapply IH.
Qed.
Lemma linked_pids m h next (cs : list (btree h)) x : linked (stored m) first_leaf next cs → x ∈ concat (map pids cs) → is_Some (m !! x).
Proof.
  intros Hl (c & Hc & Hx)%elem_of_concat_map. destruct (linked_at _ _ _ _ _ Hc Hl) as [n Hn]. by eapply stored_pids.
Qed.
Lemma ordered_entries h : ∀ lo hi (b : btree h), ordered lo hi b →
  Forall (λ e, good e.1 ∧ above lo e.1 ∧ below hi e.1) (entries b).
Proof.
  induction h as [|h IH]; intros lo hi b; cbn [ordered entries].
  - intros [_ Hf]. by apply Forall_fmap in Hf.
  - intros Hb. apply Forall_forall. intros e (c & Hc & He)%elem_of_concat_map.
    destruct (spaced_each _ _ _ _ _ _ Hb Hc) as (lo' & hi' & Ho & Hlo & Hhi).
    destruct (spaced_seps _ _ _ _ _ Hb) as [Hseps _]. rewrite Forall_forall in Hseps.
    apply IH in Ho. rewrite Forall_forall in Ho. destruct (Ho e He) as (Hg & Ha & Hm). split_and!; [done| |].
    + destruct Hlo as [->|(s & -> & Hs)]; [done|]. destruct (Hseps s Hs) as (_ & ? & _). by eapply above_trans.
    + destruct Hhi as [->|(s & -> & Hs)]; [done|]. destruct (Hseps s Hs) as (_ & _ & ?). by eapply below_trans.
Qed.

(** ** Insertion into a sorted list: behind its equals *)

Fixpoint ins (e : entry) (es : list entry) : list entry :=
  match es with
  | [] => [e]
  | e' :: es' => if decide (key_lt K e.1 e'.1) then e :: es else e' :: ins e es'
  end.
Lemma ins_app_r e es es' : Forall (λ e', ¬ key_lt K e.1 e'.1) es → ins e (es ++ es') = es ++ ins e es'.
Proof. induction 1 as [|e' es He _ IH]; [done|]. cbn. rewrite decide_False by done. by rewrite IH. Qed.
Lemma ins_above e es : Forall (λ e', key_lt K e.1 e'.1) es → ins e es = e :: es.
Proof. destruct 1; [done|]. cbn. by rewrite decide_True. Qed.
Lemma ins_app_l e es es' : Forall (λ e', key_lt K e.1 e'.1) es' → ins e (es ++ es') = ins e es ++ es'.
Proof.
  intros He. induction es as [|e' es IH]; cbn; [by apply ins_above|]. case_decide; [done|]. by rewrite IH.
Qed.

Lemma sorted_cut (R : pyval → pyval → Prop) key l : (∀ a b, R a b → key_le K a b) → StronglySorted R l →
  ∃ l1 l2, l = l1 ++ l2 ∧ Forall (λ k, ¬ key_lt K key k) l1 ∧ Forall (key_lt K key) l2.
Proof.
  intros HR.
  induction 1 as [|k l Hl IH Hk]; [by exists [], []|]. destruct (decide (key_lt K key k)) as [Hd|Hd].
  - exists [], (k :: l). split_and!; [done|done|]. constructor; [done|]. eapply Forall_impl; [exact Hk|].
    intros x Hx. eapply key_lt_le_trans; [done|by apply HR].
  - destruct IH as (l1 & l2 & -> & Hc1 & Hc2). exists (k :: l1), l2. split_and!; [done|by constructor|done].
Qed.
Lemma sorted_lower_cut (R : pyval → pyval → Prop) key l : (∀ a b, R a b → key_le K a b) → StronglySorted R l →
  ∃ l1 l2, l = l1 ++ l2 ∧ Forall (λ k, key_lt K k key) l1 ∧ Forall (λ k, ¬ key_lt K k key) l2.
Proof.
  intros HR. induction 1 as [|k l Hl IH Hk]; [by exists [], []|]. destruct (decide (key_lt K k key)) as [Hd|Hd].
  - destruct IH as (l1 & l2 & -> & Hc1 & Hc2). exists (k :: l1), l2. split_and!; [done|by constructor|done].
  - exists [], (k :: l). split_and!; [done|done|]. constructor; [done|]. eapply Forall_impl; [exact Hk|].
    intros x Hx. rewrite <-key_le_not_lt in *. eapply key_le_trans; [exact Hd|by apply HR].
Qed.
Lemma upper_bound_cut key l1 l2 : K key → Forall K (l1 ++ l2) → Forall (λ k, ¬ key_lt K key k) l1 → Forall (key_lt K key) l2 →
  _upper_bound (l1 ++ l2) key = Ok (length l1).
Proof.
  intros Hk Hl Hc1 Hc2. apply Forall_app in Hl as [Hl1 Hl2]. unfold _upper_bound. apply bisect_boundary; rewrite ?length_app; try lia.
  - apply Forall_forall. intros k Hin. rewrite Forall_forall in Hl1, Hc1. rewrite (py_le_key K) by auto.
    by rewrite bool_decide_true by auto.
  - apply Forall_forall. intros k Hin. rewrite Forall_forall in Hl2, Hc2. rewrite (py_le_key K) by auto.
    rewrite bool_decide_false; [done|]. intros Hn. apply Hn. auto.
Qed.
Lemma lower_bound_cut key l1 l2 : K key → Forall K (l1 ++ l2) → Forall (λ k, key_lt K k key) l1 → Forall (λ k, ¬ key_lt K k key) l2 →
  _lower_bound (l1 ++ l2) key = Ok (length l1).
Proof.
  intros Hk Hl Hc1 Hc2. apply Forall_app in Hl as [Hl1 Hl2]. unfold _lower_bound. apply bisect_boundary; rewrite ?length_app; try lia.
  - apply Forall_forall. intros k Hin. rewrite Forall_forall in Hl1, Hc1. rewrite (py_lt_key K) by auto.
    by rewrite bool_decide_true by auto.
  - apply Forall_forall. intros k Hin. rewrite Forall_forall in Hl2, Hc2. rewrite (py_lt_key K) by auto.
    by rewrite bool_decide_false by auto.
Qed.

(** ** The entries of a range *)

#[export] Instance key_le_dec a b : Decision (key_le K a b).
Proof. unfold key_le. apply _. Defined.
(** Behind the end of a range, and in it *)
Definition past (hi : pyval) (inclusive : bool) (k : pyval) : Prop := if inclusive then key_lt K hi k else key_le K hi k.
#[export] Instance past_dec hi inclusive k : Decision (past hi inclusive k).
Proof. unfold past. destruct inclusive; apply _. Defined.
Definition in_range (lo hi : pyval) (inclusive : bool) (e : entry) : Prop := ¬ key_lt K e.1 lo ∧ ¬ past hi inclusive e.1.
#[export] Instance in_range_dec lo hi inclusive e : Decision (in_range lo hi inclusive e).
Proof. unfold in_range. apply _. Defined.
Lemma filter_all {A} (Q : A → Prop) `{!∀ x, Decision (Q x)} l : Forall Q l → filter Q l = l.
Proof. induction 1 as [|x l Hx _ IH]; [done|]. rewrite filter_cons_True by done. by rewrite IH. Qed.
Lemma filter_none {A} (Q : A → Prop) `{!∀ x, Decision (Q x)} l : Forall (λ x, ¬ Q x) l → filter Q l = [].
Proof. induction 1 as [|x l Hx _ IH]; [done|]. by rewrite filter_cons_False by done. Qed.

Lemma in_range_split lo hi inclusive ea ei ep : Forall (λ e, key_lt K e.1 lo) ea → Forall (λ e, ¬ key_lt K e.1 lo) ei →
  Forall (λ e, ¬ past hi inclusive e.1) ei → Forall (λ e, past hi inclusive e.1) ep → filter (in_range lo hi inclusive) (ea ++ ei ++ ep) = ei.
Proof.
  intros Ha Hr Hi Hp. rewrite !filter_app. rewrite (filter_none _ ea), (filter_all _ ei), (filter_none _ ep).
  - by rewrite app_nil_r.
  - eapply Forall_impl; [exact Hp|]. by intros e He [_ ?].
  - apply Forall_forall. intros e He. rewrite Forall_forall in Hr. rewrite Forall_forall in Hi. split; auto.
  - eapply Forall_impl; [exact Ha|]. by intros e He [? _].
Qed.
End Spec.
