(* ===== verification/BTreeInsert.v ===== *)
(** Insertion into a B-tree (the [insert] of [index/btree.py] and its splits):
    it ends, and adds its entry to the sorted entries of the tree. *)
From S2P Require Import Prelude.
From S2P Require Import Bytes.
From S2P Require Import TypeSys.
From S2P Require Import Codec.
From S2P Require Import Pager.
From S2P Require Import BufferPool.
From S2P Require Import Heap.
From S2P Require Import PyOrder.
From S2P Require Import BTreeNode.
From S2P Require Import BTree.
From S2P Require Import BTreeSpec.
From stdpp Require Import sorting.
From Stdlib Require Import ZArith Lia.
Local Open Scope Z_scope.

(** * Reading, writing and allocating pages *)

(** The ids of pages that a node can link to *)
Definition page_ok (x : Z) : Prop := 0 <= x < NO_NEXT.

Section Pages.
Context `{JsonLaws} {P : Type} {stores : P → gmap Z bytes → Prop} {rooms : nat → P → Prop}.
Context {POps : PagerOps P} {PLaws : PagerLaws P stores} {AOps : AllocOps P} {RLaws : RoomLaws P stores rooms}.
Context (t : TypeTag).
Abbreviation shown := (shown t).

Abbreviation index p rp v := (mkBTree (P := P) p rp v).
Lemma on_pager_run {A} (c : M P A) p rp v r p' : c p = (r, p') → on_pager c (index p rp v) = (r, index p' rp v).
Proof. intros Hc. unfold on_pager, zoom. cbn [bt_pager bt_root_pid bt_root_view]. by rewrite Hc. Qed.
Lemma read_shown p m pid n rp v : stores p m → shown m pid n → on_pager (_read_node_view pid) (index p rp v) = (Ok n, index p rp v).
Proof.
  intros Hs ((pg & Hpg & Hn) & _). apply on_pager_run. unfold _read_node_view.
  rewrite (run_Ok _ _ _ _ _ (pi_read_law p m pid pg Hs Hpg)). unfold lift. by rewrite Hn.
Qed.
Lemma node_page_spec n : wf_node t n → if decide (node_size t n <= NODE_ROOM) then
  ∃ pg, node_page t n = Ok pg ∧ zlen pg = PAGE_SIZE ∧ node_of_page pg = Ok n else node_page t n = Err BTreeOverflowError.
Proof. destruct n; [apply leaf_page_spec|apply internal_page_spec]. Qed.
Lemma write_node_run pid n p rp v :
  write_node t pid n (index p rp v) = on_pager (page ← lift (node_page t n); pi_write_page pid page) (index p rp v).
Proof. by destruct n. Qed.
Lemma write_overflow pid n p rp v : wf_node t n → NODE_ROOM < node_size t n →
  write_node t pid n (index p rp v) = (Err BTreeOverflowError, index p rp v).
Proof.
  intros Hw Hs. pose proof (node_page_spec n Hw) as Hp. rewrite decide_False in Hp by lia.
  rewrite write_node_run. apply on_pager_run. by rewrite Hp.
Qed.
(** [m'] differs from [m] in the pages [ps] only, and has all of its pages. *)
Definition changed (ps : list Z) (m m' : gmap Z bytes) : Prop :=
  (∀ x, x ∉ ps → m' !! x = m !! x) ∧ (∀ x, is_Some (m !! x) → is_Some (m' !! x)).
Lemma changed_trans ps ps' m m' m'' : changed ps m m' → changed ps' m' m'' → changed (ps ++ ps') m m''.
Proof.
  intros [H1' H2'] [H3' H4']. split; [|auto]. intros x Hx. rewrite H3', H1'; [done|set_solver..].
Qed.
Lemma write_fits pid n p m r rp v : wf_node t n → node_size t n <= NODE_ROOM → stores p m → rooms r p → is_Some (m !! pid) →
  ∃ p' m', write_node t pid n (index p rp v) = (Ok (), index p' rp v) ∧ stores p' m' ∧ rooms r p' ∧ shown m' pid n ∧ changed [pid] m m'.
Proof.
  intros Hw Hs Hst Hr Hpid. pose proof (node_page_spec n Hw) as Hp. rewrite decide_True in Hp by done.
  destruct Hp as (pg & Hpg & Hlen & Hn). destruct (pi_write_law p m pid pg Hst Hpid Hlen) as (p' & Hwr & Hst' & _).
  exists p', (<[pid := pg]> m). split_and!; [|done| | |].
  - rewrite write_node_run. apply on_pager_run. rewrite Hpg, run_lift_Ok. by rewrite Hwr.
  - by apply (rooms_write p m r pid pg p').
  - split_and!; [|done..]. exists pg. by rewrite lookup_insert_eq.
  - split; intros x Hx; [rewrite lookup_insert_ne by set_solver; done|].
    destruct (decide (pid = x)) as [->|]; [rewrite lookup_insert_eq; by eexists|by rewrite lookup_insert_ne].
Qed.
Lemma allocate_run p m r rp v : stores p m → rooms (S r) p →
  ∃ pid p' m', on_pager pi_allocate_page (index p rp v) = (Ok pid, index p' rp v) ∧ m !! pid = None ∧ 0 < pid < NO_NEXT ∧
    stores p' m' ∧ rooms r p' ∧ is_Some (m' !! pid) ∧ changed [pid] m m'.
Proof.
  intros Hst Hr. destruct (rooms_alloc p m r Hst Hr) as (pid & p' & Ha & Hn & Hp & Hst' & Hr').
  exists pid, p', (<[pid := zero_page]> m). split_and!; try done; try lia.
  - by apply on_pager_run.
  - rewrite lookup_insert_eq. by eexists.
  - split; intros x Hx; [rewrite lookup_insert_ne; [done|set_solver]|]. rewrite lookup_insert_is_Some'. by right.
Qed.
Lemma shown_changed ps m m' pid n : changed ps m m' → pid ∉ ps → shown m pid n → shown m' pid n.
Proof. intros [Hc _] Hp. apply shown_ext. by apply Hc. Qed.
(** The two writes of a split *)
Lemma write_two {B} (k : unit → M (BTreeIndex P) B) pid nl right nr p m r rp v :
  wf_node t nl → node_size t nl <= NODE_ROOM → wf_node t nr → node_size t nr <= NODE_ROOM →
  stores p m → rooms r p → is_Some (m !! pid) → is_Some (m !! right) → pid ≠ right →
  ∃ p' m', (write_node t pid nl ≫= λ _, write_node t right nr ≫= k) (index p rp v) = k () (index p' rp v) ∧
    stores p' m' ∧ rooms r p' ∧ shown m' pid nl ∧ shown m' right nr ∧ changed [pid; right] m m'.
Proof.
  intros Hwl Hsl Hwr Hsr Hst Hr Hp Hpr Hne.
  destruct (write_fits pid nl p m r rp v Hwl Hsl Hst Hr Hp) as (p1 & m1 & Hw1 & Hst1 & Hr1 & Hsh1 & Hc1).
  destruct (write_fits right nr p1 m1 r rp v Hwr Hsr Hst1 Hr1) as (p2 & m2 & Hw2 & Hst2 & Hr2 & Hsh2 & Hc2); [by apply Hc1|].
  exists p2, m2. split_and!; try done.
  - by rewrite (run_Ok _ _ _ _ _ Hw1), (run_Ok _ _ _ _ _ Hw2).
  - eapply shown_changed; [exact Hc2|set_solver|done].
  - exact (changed_trans _ _ _ _ _ Hc1 Hc2).
Qed.

(** C24: A node that fits its page is read back as it was written, and no other page
    changes; a node that does not fit raises [BTreeOverflowError] and leaves the
    pages as they were. *)
Theorem node_write_read pid n p m rp v r : stores p m → rooms r p → is_Some (m !! pid) → wf_node t n →
  if decide (node_size t n <= NODE_ROOM) then
    ∃ p' m', write_node t pid n (index p rp v) = (Ok (), index p' rp v) ∧ stores p' m' ∧
      on_pager (_read_node_view pid) (index p' rp v) = (Ok n, index p' rp v) ∧ changed [pid] m m'
  else write_node t pid n (index p rp v) = (Err BTreeOverflowError, index p rp v).
Proof.
  intros Hst Hr Hpid Hwf. case_decide as Hs; [|apply write_overflow; [done|lia]].
  destruct (write_fits pid n p m r rp v Hwf Hs Hst Hr Hpid) as (p' & m' & Hw & Hst' & _ & Hsh & Hc).
  exists p', m'. split_and!; [done|done|by eapply read_shown|done].
Qed.
End Pages.

Section Insert.
Context `{JsonLaws} {P : Type} {stores : P → gmap Z bytes → Prop} {rooms : nat → P → Prop}.
Context {POps : PagerOps P} {PLaws : PagerLaws P stores} {AOps : AllocOps P} {RLaws : RoomLaws P stores rooms}.
Context (t : TypeTag) (K : pyval → Prop) `{OrderedKeys K} (K_ok : ∀ k, K k → key_ok t k).
Context (wmin wmax : Z) (wmin_nonneg : 0 <= wmin).
(** A page that is too full by one entry has halves that fit. *)
Context (leaf_halves : (NODE_ROOM / (wmin + 8) + 2) / 2 * (wmax + 8) <= NODE_ROOM).
Context (internal_halves : (NODE_ROOM / (wmin + 6) + 1) / 2 * (wmax + 6) <= NODE_ROOM).
Context (u : bool).
Abbreviation good := (good t K wmin wmax).
Abbreviation ord := (ord K u).
Abbreviation index p rp v := (mkBTree (P := P) p rp v).
Abbreviation shown := (shown t).
Abbreviation stored := (stored t).
Abbreviation ordered := (ordered t K wmin wmax u).
Abbreviation spaced := (spaced t K wmin wmax).
Abbreviation ins := (ins K).

(** * Nodes that are well formed, and their sizes *)

Lemma entries_size_bounds {A} (tl : Z) (enc : A → bytes) (es : list (pyval * A)) :
  (∀ a, zlen (enc a) = tl) → Forall (λ e, good e.1) es →
  zlen es * (wmin + (2 + tl)) <= entries_size t enc es <= zlen es * (wmax + (2 + tl)).
Proof.
  intros Henc. induction 1 as [|e es (_ & _ & Hw) _ IH].
  { change (entries_size t enc []) with 0. change (zlen (A := pyval * A) []) with 0. lia. }
  rewrite (entries_size_cons t tl enc Henc), zlen_cons. lia.
Qed.
Lemma zlen_rid_bytes r : zlen (rid_bytes r) = 6.
Proof. unfold rid_bytes. by autorewrite with py. Qed.
Lemma zlen_child_bytes c : zlen (le_bytes 4 c) = 4.
Proof. by autorewrite with py. Qed.
Lemma good_keys ks : Forall good ks → Forall (encodable t) ks ∧ Forall (key_ok t) ks.
Proof. intros Hg. split; (eapply Forall_impl; [exact Hg|]); intros k (Hk & He & _); auto. Qed.

Definition leaf_of (es : list entry) (next : Z) : LeafNode := mkLeaf (map fst es) (map snd es) next.
Lemma zip_fst_snd {A B} (l : list (A * B)) : zip (map fst l) (map snd l) = l.
Proof. induction l as [|[] l IH]; [done|]. cbn. by f_equal. Qed.
Lemma wf_leaf_of es next : Forall (λ e, good e.1) es → Forall (λ e, rid_ok e.2) es → zlen es <= 0xFFFF → 0 < next < 2 ^ 32 →
  wf_node t (Leaf (leaf_of es next)).
Proof.
  intros Hg Hr Hn Hnext. destruct (good_keys (map fst es)) as [He Hk]; [by apply Forall_fmap|].
  unfold wf_node, leaf_of, wf_leaf. cbn [lf_keys lf_rids lf_next]. unfold zlen in *. rewrite !length_map.
  split_and!; try done; try lia. by apply Forall_fmap.
Qed.
Lemma leaf_of_size es next : node_size t (Leaf (leaf_of es next)) = entries_size t rid_bytes es.
Proof. cbn [node_size]. unfold leaf_size, leaf_entries, leaf_of. cbn [lf_keys lf_rids]. by rewrite zip_fst_snd. Qed.
Lemma wf_leaf_inv es next : wf_node t (Leaf (leaf_of es next)) → Forall (λ e, rid_ok e.2) es ∧ 0 < next < 2 ^ 32.
Proof. intros (_ & _ & _ & _ & Hr & Hn). split; [|done]. by apply (Forall_fmap snd rid_ok es). Qed.
Definition inner_of {h} (seps : list pyval) (cs : list (btree h)) : InternalNode := mkInternal seps (map root_of cs).
Lemma wf_inner_of {h} seps (cs : list (btree h)) : Forall good seps → length cs = S (length seps) →
  Forall (λ c, child_ok (root_of c)) cs → zlen seps <= 0xFFFF → wf_node t (Internal (inner_of seps cs)).
Proof.
  intros Hg Hl Hc Hn. destruct (good_keys seps Hg) as [He Hk]. unfold wf_node, inner_of, wf_internal. cbn [in_keys in_children].
  rewrite length_map. split_and!; try done. by apply Forall_fmap.
Qed.
Lemma inner_size_bounds {h} seps (cs : list (btree h)) : Forall good seps → length cs = S (length seps) →
  zlen seps * (wmin + 6) <= node_size t (Internal (inner_of seps cs)) <= zlen seps * (wmax + 6).
Proof.
  intros Hg Hl. destruct cs as [|c cs]; [done|]. cbn [length] in Hl.
  cbn [node_size]. unfold internal_size, internal_entries, inner_of. cbn [in_keys in_children map tail].
  assert (zlen seps = zlen (zip seps (map root_of cs))) as -> by (unfold zlen; rewrite length_zip, length_map; lia).
  apply (entries_size_bounds 4 (le_bytes 4)); [apply zlen_child_bytes|].
  apply Forall_forall. intros [k x] Hin. cbn [fst]. apply list_elem_of_In, in_combine_l, list_elem_of_In in Hin.
  by rewrite Forall_forall in Hg; apply Hg.
Qed.
(** Counts of entries, from the sizes *)
Lemma leaf_count es : Forall (λ e, good e.1) es → entries_size t rid_bytes es <= NODE_ROOM → zlen es <= NODE_ROOM / (wmin + 8).
Proof.
  intros Hg Hs. destruct (entries_size_bounds 6 rid_bytes es zlen_rid_bytes Hg) as [Hb _].
  apply Z.div_le_lower_bound; [lia|]. lia.
Qed.
Lemma inner_count {h} seps (cs : list (btree h)) : Forall good seps → length cs = S (length seps) →
  node_size t (Internal (inner_of seps cs)) <= NODE_ROOM → zlen seps <= NODE_ROOM / (wmin + 6).
Proof.
  intros Hg Hl Hs. destruct (inner_size_bounds seps cs Hg Hl) as [Hb _]. apply Z.div_le_lower_bound; [lia|]. lia.
Qed.
Lemma count_small w : 6 <= w → NODE_ROOM / w <= 4084.
Proof. intros Hw. apply Z.div_le_upper_bound; [lia|]. unfold NODE_ROOM, PAGE_SIZE, NODE_HEADER_SIZE. lia. Qed.

(** * What an insertion does *)

(** A node that took one more entry: itself, or its two halves *)
Definition split_of {h} (res : option (pyval * Z)) (seps : list pyval) (bs : list (btree h)) : Prop :=
  match res with
  | None => seps = [] ∧ ∃ b, bs = [b]
  | Some (s, r) => seps = [s] ∧ ∃ bl br, bs = [bl; br] ∧ root_of br = r
  end.
Lemma split_of_cons {h} res seps (bs : list (btree h)) : split_of res seps bs → bs ≠ [].
Proof. destruct res as [[s r]|]; cbn; [intros (_ & bl & br & -> & _)|intros (_ & b & ->)]; done. Qed.
(** The pages of [m] became those of [m'], in which [bs] replaces the tree with
    the root [root], the first leaf [first] and the pages [ps]; it holds [es] *)
Record becomes {h} (m m' : gmap Z bytes) (next : Z) (lo hi : option pyval) (root first : Z) (ps : list Z) (es : list entry)
    (res : option (pyval * Z)) (seps : list pyval) (bs : list (btree h)) : Prop := {
  i_split : split_of res seps bs;
  i_root : head_or root_of 0 bs = root;
  i_first : head_or first_leaf 0 bs = first;
  i_stored : linked (stored m') first_leaf next bs;
  i_ordered : spaced ordered lo hi seps bs;
  i_entries : concat (map entries bs) = es;
  i_nodup : NoDup (concat (map pids bs));
  i_fresh : ∀ x, x ∈ concat (map pids bs) → x ∈ ps ∨ m !! x = None ∧ page_ok x;
  i_frame : ∀ x, x ∉ ps → is_Some (m !! x) → m' !! x = m !! x;
  i_dom : ∀ x, is_Some (m !! x) → is_Some (m' !! x);
  i_count : (length (concat (map pids bs)) <= length ps + S h)%nat;
}.

#[local] Arguments i_split {h m m' next lo hi root first ps es res seps bs} _.
#[local] Arguments i_root {h m m' next lo hi root first ps es res seps bs} _.
#[local] Arguments i_first {h m m' next lo hi root first ps es res seps bs} _.
#[local] Arguments i_stored {h m m' next lo hi root first ps es res seps bs} _.
#[local] Arguments i_ordered {h m m' next lo hi root first ps es res seps bs} _.
#[local] Arguments i_entries {h m m' next lo hi root first ps es res seps bs} _.
#[local] Arguments i_nodup {h m m' next lo hi root first ps es res seps bs} _.
#[local] Arguments i_fresh {h m m' next lo hi root first ps es res seps bs} _.
#[local] Arguments i_frame {h m m' next lo hi root first ps es res seps bs} _.
#[local] Arguments i_dom {h m m' next lo hi root first ps es res seps bs} _.
#[local] Arguments i_count {h m m' next lo hi root first ps es res seps bs} _.

(** ** Leaves *)

Lemma changed_mono ps ps' m m' : (∀ x, x ∈ ps → x ∈ ps') → changed ps m m' → changed ps' m m'.
Proof. intros Hp [Hc Hd]. split; [|done]. intros x Hx. apply Hc. auto. Qed.
Lemma fits_mono n n' w : n' * w <= NODE_ROOM → 0 <= n <= n' → n * w <= NODE_ROOM.
Proof.
  intros Hn' Hn. assert (0 <= NODE_ROOM) as Hroom by done. revert Hroom Hn'. generalize NODE_ROOM. intros R HR Hn'.
  destruct (Z.leb_spec 0 w); nia.
Qed.
Lemma halves_fit_leaf (es : list entry) mid : mid = (length es / 2)%nat → Forall (λ e, good e.1) es →
  zlen es <= NODE_ROOM / (wmin + 8) + 1 →
  entries_size t rid_bytes (take mid es) <= NODE_ROOM ∧ entries_size t rid_bytes (drop mid es) <= NODE_ROOM.
Proof.
  intros -> Hg Hn.
  destruct (entries_size_bounds 6 rid_bytes (take (length es / 2) es) zlen_rid_bytes) as [_ H1']; [by apply Forall_take|].
  destruct (entries_size_bounds 6 rid_bytes (drop (length es / 2) es) zlen_rid_bytes) as [_ H2']; [by apply Forall_drop|].
  unfold zlen in *. rewrite length_take, length_drop in *.
  assert (Z.of_nat (length es / 2) = Z.of_nat (length es) / 2) as Hh by (rewrite Nat2Z.inj_div; done).
  assert (Z.of_nat (length es - length es / 2) <= (NODE_ROOM / (wmin + 8) + 2) / 2) as Hr.
  { apply Z.div_le_lower_bound; [lia|]. pose proof (Z.div_mod (Z.of_nat (length es)) 2 ltac:(lia)).
    pose proof (Z.mod_pos_bound (Z.of_nat (length es)) 2 ltac:(lia)). lia. }
  assert (∀ n, 0 <= n <= (NODE_ROOM / (wmin + 8) + 2) / 2 → n * (wmax + (2 + 6)) <= NODE_ROOM) as Hfit
    by (intros n Hn'; replace (wmax + (2 + 6)) with (wmax + 8) by lia; by apply (fits_mono n _ _ leaf_halves)).
  split; (etrans; [eassumption|]); apply Hfit; (split; [lia|]); [|done].
  etrans; [|exact Hr]. clear -es. pose proof (Nat.Div0.mul_div_le (length es) 2). lia.
Qed.
Lemma split_leaf_spec pid es next p m r rp v : Forall (λ e, good e.1) es → Forall (λ e, rid_ok e.2) es → 0 < next < 2 ^ 32 →
  (2 <= length es)%nat → zlen es <= NODE_ROOM / (wmin + 8) + 1 →
  stores p m → rooms (S r) p → is_Some (m !! pid) →
  ∃ el e er right p' m', es = el ++ e :: er ∧ el ≠ [] ∧
    split_leaf t pid (leaf_of es next) (index p rp v) = (Ok (e.1, right), index p' rp v) ∧
    m !! right = None ∧ 0 < right < NO_NEXT ∧ stores p' m' ∧ rooms r p' ∧
    shown m' pid (Leaf (leaf_of el right)) ∧ shown m' right (Leaf (leaf_of (e :: er) next)) ∧ changed [pid; right] m m'.
Proof.
  intros Hg Hrid Hnext Hlen Hn Hst Hr Hpid. remember (length es / 2)%nat as mid eqn:Hm.
  assert (0 < mid < length es)%nat as Hmid.
  { rewrite Hm. split; [apply Nat.div_str_pos; lia|apply Nat.div_lt; lia]. }
  destruct (halves_fit_leaf es mid Hm Hg Hn) as [Hsl Hsr].
  pose proof (count_small (wmin + 8) ltac:(lia)) as Hc.
  assert (zlen (take mid es) <= 0xFFFF ∧ zlen (drop mid es) <= 0xFFFF) as [Hzl Hzr].
  { unfold zlen in *. rewrite length_take, length_drop. clear -Hn Hc Hmid. lia. }
  destruct (drop mid es) as [|e er] eqn:Her; [apply (f_equal length) in Her; rewrite length_drop in Her; cbn in Her; clear -Her Hmid; lia|].
  destruct (allocate_run p m r rp v Hst Hr) as (right & p1 & m1 & Ha & Hnone & Hright & Hst1 & Hr1 & Hin & Hc1).
  assert (pid ≠ right) as Hne by (intros ->; rewrite Hnone in Hpid; by destruct Hpid).
  assert (Forall (λ e, good e.1) (e :: er) ∧ Forall (λ e, rid_ok e.2) (e :: er)) as [Hge Hre]
    by (rewrite <-Her; split; by apply Forall_drop).
  destruct (write_two t (λ _, mret (e.1, right)) pid (Leaf (leaf_of (take mid es) right)) right (Leaf (leaf_of (e :: er) next)) p1 m1 r rp v)
    as (p2 & m2 & Hw & Hst2 & Hr2 & Hl2 & Hr2' & Hc2); rewrite ?leaf_of_size; try done.
  { apply wf_leaf_of; [by apply Forall_take..|done|]. unfold NO_NEXT in Hright. lia. }
  { by apply wf_leaf_of. }
  { by apply Hc1. }
  exists (take mid es), e, er, right, p2, m2. split_and!; try done.
  - by rewrite <-Her, take_drop.
  - intros Ht. apply (f_equal length) in Ht. rewrite length_take in Ht. cbn in Ht. clear -Ht Hmid. lia.
  - unfold split_leaf. cbn [leaf_of lf_keys lf_rids lf_next]. rewrite length_map, <-Hm. rewrite (run_Ok _ _ _ _ _ Ha).
    rewrite !firstn_map, !skipn_map, Her.
    cbn [map]. change (nth_or (e.1 :: map fst er) 0) with (Ok (A := pyval) e.1).
    exact Hw.
  - lia.
  - lia.
  - eapply changed_mono; [|exact (changed_trans _ _ _ _ _ Hc1 Hc2)]. set_solver.
Qed.

Lemma entries_cut key (es : list entry) (R : pyval → pyval → Prop) : (∀ a b, R a b → key_le K a b) → StronglySorted R (map fst es) →
  ∃ e1 e2, es = e1 ++ e2 ∧ Forall (λ e, ¬ key_lt K key e.1) e1 ∧ Forall (λ e, key_lt K key e.1) e2.
Proof.
  intros HR Hs. destruct (sorted_cut K R key _ HR Hs) as (l1 & l2 & Hl & Hc1 & Hc2).
  apply map_eq_app in Hl as (e1 & e2 & -> & <- & <-). exists e1, e2. apply (Forall_fmap fst) in Hc1, Hc2. by split_and!.
Qed.
Lemma ord_of_not_lt a key : K a → K key → ¬ key_lt K key a → (u = true → key ≠ a) → ord a key.
Proof.
  intros Ha Hk Hn Hne. unfold BTreeSpec.ord. apply key_le_not_lt in Hn. destruct u; [|done].
  destruct (key_lt_or_le K a key) as [|Hle]; [done|]. destruct (Hne eq_refl). by apply (key_le_antisym K).
Qed.
Lemma entries_lower_cut key (es : list entry) (R : pyval → pyval → Prop) : (∀ a b, R a b → key_le K a b) → StronglySorted R (map fst es) →
  ∃ e1 e2, es = e1 ++ e2 ∧ Forall (λ e, key_lt K e.1 key) e1 ∧ Forall (λ e, ¬ key_lt K e.1 key) e2.
Proof.
  intros HR Hs. destruct (sorted_lower_cut K R key _ HR Hs) as (l1 & l2 & Hl & Hc1 & Hc2).
  apply map_eq_app in Hl as (e1 & e2 & -> & <- & <-). exists e1, e2. apply (Forall_fmap fst) in Hc1, Hc2. by split_and!.
Qed.
(** The leaf with the new entry *)
Lemma leaf_insert_ordered lo hi pid e1 e2 key rid : ordered lo hi ((pid, e1 ++ e2) : btree 0) →
  Forall (λ e, ¬ key_lt K key e.1) e1 → Forall (λ e, key_lt K key e.1) e2 →
  good key → above K lo key → strictly_below K hi key → (u = true → key ∉ map fst (e1 ++ e2)) →
  ordered lo hi ((pid, e1 ++ (key, rid) :: e2) : btree 0).
Proof.
  cbn [BTreeSpec.ordered fst snd]. rewrite !map_app. cbn [map fst]. intros [Hs Hf] Hc1 Hc2 Hg Ha Hb Hu.
  apply Forall_app in Hf as [Hf1 Hf2]. apply StronglySorted_app in Hs as (Hx & Hs1 & Hs2). split.
  - apply StronglySorted_app. split_and!; [|done|constructor; [done|]].
    + intros a b Hin [->|Hb']%elem_of_cons; [|by apply Hx]. pose proof Hin as (e & <- & He%list_elem_of_In)%list_elem_of_In%in_map_iff.
      rewrite Forall_forall in Hc1. apply ord_of_not_lt; [|apply Hg|by apply Hc1|].
      * rewrite Forall_forall in Hf1. apply (Hf1 _ Hin).
      * intros Ht ->. apply (Hu Ht). apply elem_of_app. by left.
    + apply (Forall_fmap fst). eapply Forall_impl; [exact Hc2|]. intros e. by apply lt_ord.
  - apply Forall_app. split; [done|]. constructor; [|done]. split_and!; [done..|]. by apply strictly_below_below.
Qed.

Lemma mutated_run root n p rp v : mutated root n (index p rp v) = (Ok (), index p rp (if root then Some n else v)).
Proof. by destruct root. Qed.
Lemma insert_into_leaf fuel root pid l key rid : _insert_into t fuel root pid (Leaf l) key rid =
  (pos ← lift (_upper_bound l.(lf_keys) key);
   let l := mkLeaf (linsert pos key l.(lf_keys)) (linsert pos rid l.(lf_rids)) l.(lf_next) in
   mutated root (Leaf l);;
   except_overflow (write_node t pid (Leaf l);; mret None) (s ← split_leaf t pid l; mret (Some s))).
Proof. by destruct fuel. Qed.
Lemma linsert_app {A} n (x : A) l1 l2 : n = length l1 → linsert n x (l1 ++ l2) = l1 ++ x :: l2.
Proof. intros ->. unfold linsert. by rewrite take_app_length, drop_app_length. Qed.
Lemma leaf_split_ordered lo hi pid right el e er : el ≠ [] → ordered lo hi ((pid, el ++ e :: er) : btree 0) →
  spaced ordered lo hi [e.1] [((pid, el) : btree 0); (right, e :: er)].
Proof.
  intros Hne. cbn [spaced BTreeSpec.ordered fst snd]. rewrite map_app. cbn [map]. intros [Hs Hf].
  apply Forall_app in Hf as [Hf1 Hf2]. apply StronglySorted_app in Hs as (Hx & Hs1 & Hs2).
  pose proof (Forall_inv Hf2) as (Hge & Hae & Hbe). pose proof (StronglySorted_inv Hs2) as [_ Hs3].
  split; [|split; [by split_and!; [| |apply (below_at_most K u)]|split; [done|]]].
  - split; [done|]. apply Forall_forall. intros k Hk. rewrite Forall_forall in Hf1. destruct (Hf1 k Hk) as (? & ? & _).
    split_and!; [done..|]. cbn. apply Hx; [done|by left].
  - apply Forall_forall. intros k Hk. rewrite Forall_forall in Hf2. destruct (Hf2 k Hk) as (? & _ & ?). split_and!; [done| |done].
    cbn. apply elem_of_cons in Hk as [->|Hk]; [apply key_le_refl|]. rewrite Forall_forall in Hs3. by apply (ord_le K u), Hs3.
Qed.
Lemma leaf_one : wmax + 8 <= NODE_ROOM.
Proof.
  assert (0 <= NODE_ROOM / (wmin + 8)) as Hn by (apply Z.div_pos; [done|lia]).
  assert (1 <= (NODE_ROOM / (wmin + 8) + 2) / 2) as Hh by (apply Z.div_le_lower_bound; lia).
  pose proof (fits_mono 1 _ _ leaf_halves ltac:(lia)). lia.
Qed.
(** The full leaf, written or split *)
Lemma leaf_put next lo hi pid es p m r rp v : ordered lo hi ((pid, es) : btree 0) → Forall (λ e, rid_ok e.2) es → 0 < next < 2 ^ 32 →
  zlen es <= NODE_ROOM / (wmin + 8) + 1 → stores p m → rooms (S r) p → is_Some (m !! pid) →
  ∃ res p' m' seps (bs : list (btree 0)),
    except_overflow (write_node t pid (Leaf (leaf_of es next));; mret None) (s ← split_leaf t pid (leaf_of es next); mret (Some s))
      (index p rp v) = (Ok res, index p' rp v) ∧
    stores p' m' ∧ rooms r p' ∧ becomes m m' next lo hi pid pid [pid] es res seps bs ∧ (∀ b, bs = [b] → b = (pid, es)).
Proof.
  intros Ho Hrids Hnext Hn Hst Hr Hpid.
  assert (Forall (λ e, good e.1) es) as Hg.
  { apply (Forall_fmap fst good). destruct Ho as [_ Ho]. eapply Forall_impl; [exact Ho|]. by intros k []. }
  pose proof (count_small (wmin + 8) ltac:(lia)) as Hcs.
  assert (wf_node t (Leaf (leaf_of es next))) as Hwf by (apply wf_leaf_of; [done..|lia|done]).
  destruct (decide (entries_size t rid_bytes es <= NODE_ROOM)) as [Hs|Hs].
  - destruct (write_fits t pid (Leaf (leaf_of es next)) p m r rp v Hwf) as (p' & m' & Hw & Hst' & Hr' & Hsh & Hc & Hd);
      [by rewrite leaf_of_size|done|by apply (rooms_mono p (S r) r); [|lia]|done|].
    exists None, p', m', [], [(pid, es)]. split_and!; [|done|done| |by intros b [= <-]].
    { unfold except_overflow, catch. by rewrite (run_Ok _ _ _ _ _ Hw). }
    split; try done.
    + split; [done|]. by eexists.
    + cbn. by rewrite app_nil_r.
    + cbn. apply NoDup_singleton.
    + cbn. intros x Hx. by left.
    + intros x Hx _. by apply Hc.
    + cbn. lia.
  - destruct (split_leaf_spec pid es next p m r rp v) as (el & e & er & right & p' & m' & -> & Hne & Hsp & Hnone & Hrok & Hst' & Hr' & Hl & Hrt & Hc & Hd);
      try done.
    { destruct (entries_size_bounds 6 rid_bytes es zlen_rid_bytes Hg) as [_ Hb].
      destruct es as [|e1 [|e2 es]]; cbn [length]; [by destruct Hs|exfalso|lia].
      pose proof leaf_one. change (zlen [e1]) with 1 in Hb. lia. }
    assert (pid ≠ right) as Hpr by (intros ->; rewrite Hnone in Hpid; by destruct Hpid).
    exists (Some (e.1, right)), p', m', [e.1], [(pid, el); (right, e :: er)]. split_and!; [|done|done| |done].
    { unfold except_overflow, catch. rewrite (run_Err _ _ _ _ _ (write_overflow t _ _ _ _ _ Hwf ltac:(rewrite leaf_of_size; lia))).
      rewrite decide_True by done. by rewrite (run_Ok _ _ _ _ _ Hsp). }
    split; try done.
    + split; [done|]. by eexists _, _.
    + by apply (leaf_split_ordered lo hi pid right el e er).
    + cbn. by rewrite app_nil_r.
    + cbn. apply NoDup_cons. split; [set_solver|apply NoDup_singleton].
    + cbn. intros x [->|[->|[]%elem_of_nil]%elem_of_cons]%elem_of_cons; [by left; left|]. right. split; [done|]. unfold page_ok. lia.
    + intros x Hx Hxm. apply Hc. intros [->|[->|[]%elem_of_nil]%elem_of_cons]%elem_of_cons; [set_solver|].
      rewrite Hnone in Hxm. by destruct Hxm.
Qed.
Lemma leaf_insert next lo hi (b : btree 0) fuel root key rid p m r rp v :
  stores p m → rooms (S r) p → stored m next b → ordered lo hi b → good key → rid_ok rid →
  above K lo key → strictly_below K hi key → (u = true → key ∉ map fst (entries b)) →
  ∃ res p' m' seps (bs : list (btree 0)) v',
    _insert_into t fuel root (root_of b) (node_of next b) key rid (index p rp v) = (Ok res, index p' rp v') ∧
    stores p' m' ∧ rooms r p' ∧
    becomes m m' next lo hi (root_of b) (first_leaf b) (pids b) (ins (key, rid) (entries b)) res seps bs ∧
    (root = false → v' = v) ∧ (root = true → ∀ b', bs = [b'] → v' = Some (node_of next b')).
Proof.
  destruct b as [pid es]. intros Hst Hr Hs Ho Hg Hrid Ha Hb Hu. cbn [root_of fst snd entries] in *.
  pose proof Ho as [Hsort Hgood]. cbn [fst snd] in Hsort, Hgood.
  apply (entries_cut key) in Hsort as (e1 & e2 & -> & Hc1 & Hc2); [|apply ord_le].
  pose proof (leaf_insert_ordered lo hi pid e1 e2 key rid Ho Hc1 Hc2 Hg Ha Hb Hu) as Ho'.
  assert (ins (key, rid) (e1 ++ e2) = e1 ++ (key, rid) :: e2) as Hins.
  { rewrite ins_app_r by done. f_equal. by apply ins_above. }
  pose proof Hs as (Hshow & Hwf & Hsize). cbn [node_of fst snd] in Hwf, Hsize. change (mkLeaf _ _ next) with (leaf_of (e1 ++ e2) next) in Hwf, Hsize.
  apply wf_leaf_inv in Hwf as [Hrids Hnext]. rewrite leaf_of_size in Hsize.
  assert (Forall (λ e, good e.1) (e1 ++ e2)) as Hges.
  { apply (Forall_fmap fst good). eapply Forall_impl; [exact Hgood|]. by intros k []. }
  pose proof (leaf_count _ Hges Hsize) as Hcount.
  set (es' := e1 ++ (key, rid) :: e2) in *.
  assert (Forall (λ e, good e.1) es' ∧ Forall (λ e, rid_ok e.2) es') as [Hges' Hrids'].
  { rewrite !Forall_app in *. subst es'. rewrite !Forall_app, !Forall_cons. naive_solver. }
  assert (zlen es' <= NODE_ROOM / (wmin + 8) + 1) as Hcount'.
  { subst es'. unfold zlen in *. rewrite length_app in *. cbn [length]. lia. }
  assert (is_Some (m !! pid)) as Hpid by (destruct Hshow as (pg & Hpg & _); by exists pg).
  assert (_insert_into t fuel root pid (node_of next ((pid, e1 ++ e2) : btree 0)) key rid (index p rp v) =
    except_overflow (write_node t pid (Leaf (leaf_of es' next));; mret None) (s ← split_leaf t pid (leaf_of es' next); mret (Some s))
      (index p rp (if root then Some (Leaf (leaf_of es' next)) else v))) as ->.
  { cbn [node_of fst snd]. rewrite insert_into_leaf. cbn [lf_keys lf_rids lf_next]. rewrite !map_app.
    rewrite (upper_bound_cut K key); [|apply Hg| | |].
    - rewrite run_lift_Ok, (run_Ok _ _ _ _ _ (mutated_run _ _ _ _ _)). rewrite !linsert_app by (by rewrite ?length_map).
      unfold leaf_of, es'. by rewrite !map_app.
    - rewrite <-map_app. apply (Forall_fmap fst K). eapply Forall_impl; [exact Hges|]. by intros e [].
    - by apply (Forall_fmap fst (λ k, ¬ key_lt K key k)).
    - by apply (Forall_fmap fst (key_lt K key)). }
  destruct (leaf_put next lo hi pid es' p m r rp (if root then Some (Leaf (leaf_of es' next)) else v))
    as (res & p' & m' & seps & bs & Hx & Hst' & Hr' & Hbec & Hbs); try done.
  rewrite Hins. exists res, p', m', seps, bs, (if root then Some (Leaf (leaf_of es' next)) else v). split_and!; try done.
  - by intros ->.
  - intros -> b' ->. by rewrite (Hbs b').
Qed.

(** ** Inner nodes *)

Lemma halves_fit_inner {h} seps (cs : list (btree h)) mid : mid = (length seps / 2)%nat → Forall good seps →
  length cs = S (length seps) → (1 <= length seps)%nat → zlen seps <= NODE_ROOM / (wmin + 6) + 1 →
  node_size t (Internal (inner_of (take mid seps) (take (S mid) cs))) <= NODE_ROOM ∧
  node_size t (Internal (inner_of (drop (S mid) seps) (drop (S mid) cs))) <= NODE_ROOM.
Proof.
  intros -> Hg Hl Hn1 Hn. set (mid := (length seps / 2)%nat).
  assert (mid < length seps)%nat as Hmid by (apply Nat.div_lt; lia).
  assert (2 * mid <= length seps < 2 * mid + 2)%nat as Hmid2.
  { pose proof (Nat.div_mod (length seps) 2 ltac:(lia)). pose proof (Nat.mod_upper_bound (length seps) 2 ltac:(lia)). lia. }
  clearbody mid.
  destruct (inner_size_bounds (take mid seps) (take (S mid) cs)) as [_ Hb1]; [by apply Forall_take|rewrite !length_take; lia|].
  destruct (inner_size_bounds (drop (S mid) seps) (drop (S mid) cs)) as [_ Hb2]; [by apply Forall_drop|rewrite !length_drop; lia|].
  assert (Z.of_nat mid <= (NODE_ROOM / (wmin + 6) + 1) / 2) as Hm.
  { apply Z.div_le_lower_bound; [lia|]. unfold zlen in Hn. lia. }
  split; (etrans; [eassumption|]); apply (fits_mono _ _ _ internal_halves); unfold zlen; rewrite ?length_take, ?length_drop; lia.
Qed.
Lemma lookup_cut {A} (l : list A) n x : l !! n = Some x → l = take n l ++ x :: drop (S n) l.
Proof. intros Hx. by rewrite take_drop_middle. Qed.
Lemma Forall_good_seps {h} lo hi seps (cs : list (btree h)) : spaced ordered lo hi seps cs → Forall good seps.
Proof. intros [Hs _]%spaced_seps. eapply Forall_impl; [exact Hs|]. by intros s []. Qed.
Lemma split_internal_spec {h} pid seps (cs : list (btree h)) p m r rp v : Forall good seps → length cs = S (length seps) →
  Forall (λ c, child_ok (root_of c)) cs → (1 <= length seps)%nat → zlen seps <= NODE_ROOM / (wmin + 6) + 1 →
  stores p m → rooms (S r) p → is_Some (m !! pid) →
  ∃ sl k sr cl cr right p' m', seps = sl ++ k :: sr ∧ cs = cl ++ cr ∧ length cl = S (length sl) ∧
    split_internal t pid (inner_of seps cs) (index p rp v) = (Ok (k, right), index p' rp v) ∧
    m !! right = None ∧ page_ok right ∧ stores p' m' ∧ rooms r p' ∧
    shown m' pid (Internal (inner_of sl cl)) ∧ shown m' right (Internal (inner_of sr cr)) ∧ changed [pid; right] m m'.
Proof.
  intros Hg Hl Hok Hn1 Hn Hst Hr Hpid. remember (length seps / 2)%nat as mid eqn:Hm.
  assert (mid < length seps)%nat as Hmid by (rewrite Hm; apply Nat.div_lt; lia).
  destruct (halves_fit_inner seps cs mid Hm Hg Hl Hn1 Hn) as [Hsl Hsr].
  pose proof (count_small (wmin + 6) ltac:(lia)) as Hc. unfold zlen in Hn.
  destruct (lookup_lt_is_Some_2 seps mid Hmid) as [k Hk].
  destruct (allocate_run p m r rp v Hst Hr) as (right & p1 & m1 & Ha & Hnone & Hright & Hst1 & Hr1 & Hin & Hc1).
  assert (pid ≠ right) as Hne by (intros ->; rewrite Hnone in Hpid; by destruct Hpid).
  destruct (write_two t (λ _, mret (k, right)) pid (Internal (inner_of (take mid seps) (take (S mid) cs))) right
    (Internal (inner_of (drop (S mid) seps) (drop (S mid) cs))) p1 m1 r rp v)
    as (p2 & m2 & Hw & Hst2 & Hr2 & Hl2 & Hr2' & Hc2); try done.
  { apply wf_inner_of; [by apply Forall_take|rewrite !length_take; lia|by apply Forall_take|].
    unfold zlen. rewrite length_take. clear -Hn Hc Hmid. lia. }
  { apply wf_inner_of; [by apply Forall_drop|rewrite !length_drop; lia|by apply Forall_drop|].
    unfold zlen. rewrite length_drop. clear -Hn Hc Hmid. lia. }
  { by apply Hc1. }
  exists (take mid seps), k, (drop (S mid) seps), (take (S mid) cs), (drop (S mid) cs), right, p2, m2.
  split_and!; try done; try (unfold page_ok; lia).
  - by apply lookup_cut.
  - by rewrite take_drop.
  - rewrite !length_take. lia.
  - unfold split_internal. cbn [inner_of in_keys in_children]. rewrite <-Hm. unfold nth_or. rewrite Hk. cbn [of_option].
    rewrite run_lift_Ok, (run_Ok _ _ _ _ _ Ha). rewrite firstn_map, skipn_map. exact Hw.
  - eapply changed_mono; [|exact (changed_trans _ _ _ _ _ Hc1 Hc2)]. set_solver.
Qed.

Lemma concat_map_app {A B} (f : A → list B) l l' : concat (map f (l ++ l')) = concat (map f l) ++ concat (map f l').
Proof. by rewrite map_app, concat_app. Qed.
Lemma linked_changed {h} m m' next (cs : list (btree h)) ps : changed ps m m' → (∀ x, x ∈ concat (map pids cs) → x ∉ ps) →
  linked (stored m) first_leaf next cs → linked (stored m') first_leaf next cs.
Proof. intros [Hc _] Hps. apply linked_ext. intros x Hx. by apply Hc, Hps. Qed.
Lemma roots_ok {h} (cs : list (btree h)) : Forall page_ok (concat (map pids cs)) → Forall (λ c, child_ok (root_of c)) cs.
Proof.
  intros Hp. apply Forall_forall. intros c Hc. rewrite Forall_forall in Hp. destruct (Hp (root_of c)) as [? Hlt].
  - apply elem_of_concat_map. exists c. split; [done|]. apply root_of_pids.
  - unfold NO_NEXT in Hlt. unfold child_ok. lia.
Qed.
Lemma first_leaf_inner {h} pid seps (cs : list (btree h)) : first_leaf ((pid, (seps, cs)) : btree (S h)) = head_or first_leaf 0 cs.
Proof. by destruct cs. Qed.
Lemma head_or_app {A} (f : A → Z) n l l' : l ≠ [] → head_or f n (l ++ l') = head_or f n l.
Proof. by destruct l. Qed.
Lemma head_or_any {A} (f : A → Z) n n' l : l ≠ [] → head_or f n l = head_or f n' l.
Proof. by destruct l. Qed.
Lemma inner_put {h} next lo hi pid seps (cs : list (btree h)) p m r rp v :
  spaced ordered lo hi seps cs → linked (stored m) first_leaf next cs → NoDup (pid :: concat (map pids cs)) →
  Forall page_ok (concat (map pids cs)) → zlen seps <= NODE_ROOM / (wmin + 6) + 1 → stores p m → rooms (S r) p → is_Some (m !! pid) →
  ∃ res p' m' seps' (bs : list (btree (S h))),
    except_overflow (write_node t pid (Internal (inner_of seps cs));; mret None) (s ← split_internal t pid (inner_of seps cs); mret (Some s))
      (index p rp v) = (Ok res, index p' rp v) ∧
    stores p' m' ∧ rooms r p' ∧
    becomes m m' next lo hi pid (head_or first_leaf 0 cs) (pid :: concat (map pids cs)) (concat (map entries cs)) res seps' bs ∧
    (length (concat (map pids bs)) <= 2 + length (concat (map pids cs)))%nat ∧
    (∀ b, bs = [b] → b = (pid, (seps, cs))).
Proof.
  intros Ho Hlk [Hpc Hnd]%NoDup_cons Hok Hn Hst Hr Hpid.
  pose proof (Forall_good_seps _ _ _ _ Ho) as Hg. pose proof (spaced_length _ _ _ _ _ _ _ _ _ Ho) as Hl.
  pose proof (roots_ok cs Hok) as Hroots. pose proof (count_small (wmin + 6) ltac:(lia)) as Hcs.
  assert (wf_node t (Internal (inner_of seps cs))) as Hwf by (apply wf_inner_of; [done..|lia]).
  destruct (decide (node_size t (Internal (inner_of seps cs)) <= NODE_ROOM)) as [Hs|Hs].
  - destruct (write_fits t pid (Internal (inner_of seps cs)) p m r rp v Hwf) as (p' & m' & Hw & Hst' & Hr' & Hsh & Hc);
      [done|done|by apply (rooms_mono p (S r) r); [|lia]|done|].
    exists None, p', m', [], [(pid, (seps, cs))]. split_and!; [|done|done| |cbn; rewrite app_nil_r; lia|by intros b [= <-]].
    { unfold except_overflow, catch. by rewrite (run_Ok _ _ _ _ _ Hw). }
    split; try done.
    + split; [done|]. by eexists.
    + split; [|done]. split; [done|]. eapply linked_changed; [exact Hc| |done]. set_solver.
    + cbn. by rewrite app_nil_r.
    + cbn. rewrite app_nil_r. by apply NoDup_cons.
    + cbn. rewrite app_nil_r. intros x Hx. by left.
    + intros x Hx _. apply Hc. set_solver.
    + apply Hc.
    + cbn. rewrite app_nil_r. lia.
  - destruct (split_internal_spec pid seps cs p m r rp v) as (sl & k & sr & cl & cr & right & p' & m' & -> & -> & Hcl & Hsp & Hnone & Hrok & Hst' & Hr' & Hsl & Hsr & Hc);
      try done.
    { destruct seps; [|cbn; lia]. destruct (inner_size_bounds [] cs Hg Hl) as [_ Hb]. by destruct Hs. }
    assert (pid ≠ right) as Hpr by (intros ->; rewrite Hnone in Hpid; by destruct Hpid).
    rewrite concat_map_app in *. pose proof (λ x, linked_pids t m h next (cl ++ cr) x Hlk) as Hin. setoid_rewrite concat_map_app in Hin.
    assert (right ∉ concat (map pids cl) ++ concat (map pids cr)) as Hrc.
    { intros Hx. apply Hin in Hx. rewrite Hnone in Hx. by destruct Hx. }
    apply linked_app in Hlk as [Hlk1 Hlk2]. apply spaced_cut in Ho as (Ho1 & Hsk & Ho2); [|done].
    assert (cl ≠ []) as Hcl0 by (by destruct cl). assert (cr ≠ []) as Hcr0.
    { intros ->. by destruct sr. }
    exists (Some (k, right)), p', m', [k], [(pid, (sl, cl)); (right, (sr, cr))].
    assert (length (concat (map pids [((pid, (sl, cl)) : btree (S h)); (right, (sr, cr))])) <= 2 + length (concat (map pids cl) ++ concat (map pids cr)))%nat as Hcount.
    { cbn. rewrite app_nil_r, !length_app. cbn. lia. }
    split_and!; [|done|done| |done|done].
    { unfold except_overflow, catch. rewrite (run_Err _ _ _ _ _ (write_overflow t _ _ _ _ _ Hwf ltac:(lia))).
      rewrite decide_True by done. by rewrite (run_Ok _ _ _ _ _ Hsp). }
    split; try done.
    + split; [done|]. by eexists _, _.
    + cbn [head_or]. rewrite first_leaf_inner. by rewrite head_or_app.
    + cbn [linked head_or]. rewrite first_leaf_inner. split; [|split; [|done]]; (split; [done|]).
      * eapply linked_changed; [exact Hc|set_solver|]. cbn [snd]. by rewrite (head_or_any _ 0 next) by done.
      * eapply linked_changed; [exact Hc|set_solver|done].
    + cbn. by rewrite !concat_map_app, app_nil_r.
    + cbn. rewrite app_nil_r. apply NoDup_app in Hnd as (Hnd1 & Hdis & Hnd2). apply NoDup_cons. split; [set_solver|].
      apply NoDup_app. split_and!; [done|set_solver|]. apply NoDup_cons. split; [set_solver|done].
    + cbn. rewrite app_nil_r. intros x Hx. destruct (decide (x = right)) as [->|]; [by right|left]. set_solver.
    + intros x Hx Hxm. apply Hc. intros [->|[->|[]%elem_of_nil]%elem_of_cons]%elem_of_cons; [set_solver|].
      rewrite Hnone in Hxm. by destruct Hxm.
    + apply Hc.
    + etrans; [exact Hcount|]. cbn [length]. lia.
Qed.

(** ** A subtree replaced inside of its parent *)

Definition pages_ok (ps : list Z) : Prop := NoDup ps ∧ Forall page_ok ps.
Lemma ins_middle (e : entry) es1 es es2 : Forall (λ e', ¬ key_lt K e.1 e'.1) es1 → Forall (λ e', key_lt K e.1 e'.1) es2 →
  ins e (es1 ++ es ++ es2) = es1 ++ ins e es ++ es2.
Proof. intros H1' H2'. rewrite ins_app_r by done. by rewrite ins_app_l. Qed.
Lemma linked_graft {h} m m1 next (cs1 cs2 bs : list (btree h)) c res seps lo hi e :
  linked (stored m) first_leaf next (cs1 ++ c :: cs2) → NoDup (concat (map pids (cs1 ++ c :: cs2))) →
  becomes m m1 (head_or first_leaf next cs2) lo hi (root_of c) (first_leaf c) (pids c) e res seps bs →
  linked (stored m1) first_leaf next (cs1 ++ bs ++ cs2).
Proof.
  intros Hl Hnd Hb. pose proof (λ x, linked_pids t m h next _ x Hl) as Hin. setoid_rewrite concat_map_app in Hin.
  rewrite concat_map_app in Hnd. cbn [map concat] in Hnd, Hin. apply NoDup_app in Hnd as (Hnd1 & Hd1 & Hnd2).
  apply NoDup_app in Hnd2 as (_ & Hd2 & _). apply linked_app in Hl as [Hl1 Hl2]. cbn [linked head_or] in Hl1, Hl2.
  pose proof (split_of_cons _ _ _ (i_split Hb)) as Hbs. pose proof (i_frame Hb) as Hfr.
  apply linked_app. split; [|apply linked_app; split].
  - rewrite head_or_app, (head_or_any _ next 0), (i_first Hb) by done.
    eapply linked_ext; [|exact Hl1]. intros x Hx. apply Hfr; [set_solver|]. apply Hin. set_solver.
  - apply (i_stored Hb).
  - eapply linked_ext; [|exact (proj2 Hl2)]. intros x Hx. apply Hfr; [set_solver|]. apply Hin. set_solver.
Qed.
Lemma pages_graft {h} m m1 next pid (cs1 cs2 bs : list (btree h)) c res seps lo hi e :
  (∀ x, x ∈ pid :: concat (map pids (cs1 ++ c :: cs2)) → is_Some (m !! x)) →
  pages_ok (pid :: concat (map pids (cs1 ++ c :: cs2))) →
  becomes m m1 next lo hi (root_of c) (first_leaf c) (pids c) e res seps bs →
  pages_ok (pid :: concat (map pids (cs1 ++ bs ++ cs2))) ∧
  ∀ x, x ∈ concat (map pids (cs1 ++ bs ++ cs2)) → x ∈ concat (map pids (cs1 ++ c :: cs2)) ∨ m !! x = None ∧ page_ok x.
Proof.
  intros Hin [Hnd Hok] Hb. pose proof (i_fresh Hb) as Hfr. pose proof (i_nodup Hb) as Hndb.
  assert (∀ x, m !! x = None → x ∉ pid :: concat (map pids (cs1 ++ c :: cs2))) as Hnew.
  { intros x Hx Hi. apply Hin in Hi. rewrite Hx in Hi. by destruct Hi. }
  clear Hin Hb. rewrite !concat_map_app in *. cbn [map concat] in *.
  apply NoDup_cons in Hnd as [Hp Hnd]. apply Forall_cons in Hok as [Hpo Hok].
  apply NoDup_app in Hnd as (Hnd1 & Hd1 & Hnd2). apply NoDup_app in Hnd2 as (_ & Hd2 & Hnd2).
  apply Forall_app in Hok as [Hok1 Hok2]. apply Forall_app in Hok2 as [Hokc Hok2].
  remember (concat (map pids cs1)) as p1 eqn:E1. remember (concat (map pids cs2)) as p2 eqn:E2.
  remember (concat (map pids bs)) as pb eqn:E3. remember (pids c) as pc eqn:E4. clear E1 E2 E3 E4.
  split; [split|].
  - apply NoDup_cons. split.
    + intros Hx. apply elem_of_app in Hx as [Hx|[Hx|Hx]%elem_of_app]; [set_solver| |set_solver].
      destruct (Hfr _ Hx) as [|[Hx' _]]; [set_solver|]. apply (Hnew _ Hx'). by left.
    + apply NoDup_app. split_and!; [done| |apply NoDup_app; split_and!; [done| |done]].
      * intros x Hx [Hxb|Hx2]%elem_of_app; [|set_solver]. destruct (Hfr _ Hxb) as [|[Hx' _]]; [set_solver|]. apply (Hnew _ Hx'). set_solver.
      * intros x Hxb Hx2. destruct (Hfr _ Hxb) as [|[Hx' _]]; [set_solver|]. apply (Hnew _ Hx'). set_solver.
  - apply Forall_cons. split; [done|]. rewrite !Forall_app. split_and!; [done| |done]. apply Forall_forall. intros x Hx.
    destruct (Hfr _ Hx) as [Hxc|[_ ?]]; [|done]. rewrite Forall_forall in Hokc. by apply Hokc.
  - intros x [Hx|[Hx|Hx]%elem_of_app]%elem_of_app; [set_solver| |set_solver]. destruct (Hfr _ Hx); set_solver.
Qed.

(** The child that the key belongs to, and the entries around it *)
Record on_path {h} (lo hi : option pyval) (key : pyval) (s1 s2 : list pyval) (cs1 : list (btree h)) (c : btree h) (cs2 : list (btree h))
    (lo' hi' : option pyval) : Prop := {
  op_length : length s1 = length cs1;
  op_child : _find_child key (inner_of (s1 ++ s2) (cs1 ++ c :: cs2)) = Ok (length s1);
  op_ordered : ordered lo' hi' c;
  op_graft seps' bs : spaced ordered lo' hi' seps' bs → spaced ordered lo hi (s1 ++ seps' ++ s2) (cs1 ++ bs ++ cs2);
  op_above : above K lo key → above K lo' key;
  op_below : strictly_below K hi key → strictly_below K hi' key;
  op_before : Forall (λ e, ord e.1 key) (concat (map entries cs1));
  op_after : Forall (λ e, key_lt K key e.1) (concat (map entries cs2));
}.
Lemma find_path {h} lo hi seps (cs : list (btree h)) key : spaced ordered lo hi seps cs → K key →
  ∃ s1 s2 cs1 c cs2 lo' hi', seps = s1 ++ s2 ∧ cs = cs1 ++ c :: cs2 ∧ on_path lo hi key s1 s2 cs1 c cs2 lo' hi'.
Proof.
  intros Hsp Hk. pose proof (spaced_length _ _ _ _ _ _ _ _ _ Hsp) as Hl. pose proof (Forall_good_seps _ _ _ _ Hsp) as Hg.
  destruct (spaced_seps _ _ _ _ _ _ _ _ _ Hsp) as [_ Hsort].
  destruct (sorted_cut K (key_le K) key seps (λ _ _ h, h) Hsort) as (s1 & s2 & -> & Hc1 & Hc2).
  assert (length s1 < length cs)%nat as Hlt by (rewrite Hl, length_app; lia).
  destruct (lookup_lt_is_Some_2 cs (length s1) Hlt) as [c Hc]. pose proof (lookup_cut _ _ _ Hc) as Hcs.
  set (cs1 := take (length s1) cs) in *. set (cs2 := drop (S (length s1)) cs) in *.
  assert (length s1 = length cs1) as Hl1 by (subst cs1; rewrite length_take; lia). clearbody cs1 cs2. subst cs.
  destruct (spaced_focus _ _ _ _ _ _ _ _ _ _ _ _ Hl1 Hsp) as (lo' & hi' & Ho & Hgr & Hab & Hbe & Hin1 & Hin2).
  assert (Forall (λ s, key_le K s key) s1) as Hle.
  { eapply Forall_impl; [exact Hc1|]. intros s. by rewrite key_le_not_lt. }
  exists s1, s2, cs1, c, cs2, lo', hi'. split_and!; [done|done|]. split; try done; [|by intros; apply Hab|by intros; apply Hbe| |].
  - unfold _find_child, inner_of. cbn [in_keys in_children]. rewrite (upper_bound_cut K key); [|done| |done|done].
    + rewrite bind_Ok. f_equal. rewrite length_map, length_app. cbn. lia.
    + eapply Forall_impl; [exact Hg|]. by intros k [].
  - apply Forall_forall. intros e (c' & Hc' & He)%elem_of_concat_map. destruct (Hin1 c' Hc') as (lo1 & s & Hs & Ho').
    apply ordered_entries in Ho'. rewrite Forall_forall in Ho'. rewrite Forall_forall in Hle. destruct (Ho' e He) as (_ & _ & Hm).
    eapply ord_le_trans; [exact Hm|]. by apply Hle.
  - apply Forall_forall. intros e (c' & Hc' & He)%elem_of_concat_map. destruct (Hin2 c' Hc') as (s & hi1 & Hs & Ho').
    apply ordered_entries in Ho'. rewrite Forall_forall in Ho'. rewrite Forall_forall in Hc2. destruct (Ho' e He) as (_ & Hm & _).
    eapply key_lt_le_trans; [|exact Hm]. by apply Hc2.
Qed.
Lemma child_shown {h} m next (cs1 cs2 : list (btree h)) c : linked (stored m) first_leaf next (cs1 ++ c :: cs2) →
  stored m (head_or first_leaf next cs2) c.
Proof. intros [_ Hl]%linked_app. apply Hl. Qed.
Lemma child_pid {h} (cs1 cs2 : list (btree h)) c n : n = length cs1 → nth_or (map root_of (cs1 ++ c :: cs2)) n = Ok (root_of c).
Proof. intros ->. unfold nth_or. rewrite map_app. cbn [map]. by rewrite list_lookup_middle by (by rewrite length_map). Qed.

Lemma insert_into_internal fuel root pid n key rid : _insert_into t (S fuel) root pid (Internal n) key rid =
  (child_idx ← lift (_find_child key n);
   child_pid ← lift (nth_or n.(in_children) child_idx);
   child_node ← on_pager (_read_node_view child_pid);
   child_split ← _insert_into t fuel false child_pid child_node key rid;
   match child_split with
   | None => mret None
   | Some (push_up_key, right_pid) =>
       let n := mkInternal (linsert child_idx push_up_key n.(in_keys)) (linsert (S child_idx) right_pid n.(in_children)) in
       mutated root (Internal n);;
       except_overflow (write_node t pid (Internal n);; mret None) (s ← split_internal t pid n; mret (Some s))
   end).
Proof. done. Qed.
(** The parent after its child took the entry *)
Lemma graft_becomes {h} m m1 next lo hi pid s1 s2 (cs1 cs2 bs : list (btree h)) c key rid lo' hi' res seps :
  on_path lo hi key s1 s2 cs1 c cs2 lo' hi' → linked (stored m) first_leaf next (cs1 ++ c :: cs2) →
  (∀ x, x ∈ pid :: concat (map pids (cs1 ++ c :: cs2)) → is_Some (m !! x)) →
  pages_ok (pid :: concat (map pids (cs1 ++ c :: cs2))) →
  becomes m m1 (head_or first_leaf next cs2) lo' hi' (root_of c) (first_leaf c) (pids c) (ins (key, rid) (entries c)) res seps bs →
  spaced ordered lo hi (s1 ++ seps ++ s2) (cs1 ++ bs ++ cs2) ∧
  linked (stored m1) first_leaf next (cs1 ++ bs ++ cs2) ∧
  pages_ok (pid :: concat (map pids (cs1 ++ bs ++ cs2))) ∧
  concat (map entries (cs1 ++ bs ++ cs2)) = ins (key, rid) (concat (map entries (cs1 ++ c :: cs2))) ∧
  head_or first_leaf 0 (cs1 ++ bs ++ cs2) = head_or first_leaf 0 (cs1 ++ c :: cs2) ∧
  (∀ x, x ∈ concat (map pids (cs1 ++ bs ++ cs2)) → x ∈ concat (map pids (cs1 ++ c :: cs2)) ∨ m !! x = None ∧ page_ok x).
Proof.
  intros Hop Hl Hin Hpg Hb. destruct (pages_graft _ _ _ _ _ _ _ _ _ _ _ _ _ Hin Hpg Hb) as [Hpg' Hfr]. destruct Hpg as [[_ Hnd]%NoDup_cons _].
  split_and!; [|by eapply linked_graft|done| | |done].
  - apply (op_graft _ _ _ _ _ _ _ _ _ _ Hop), (i_ordered Hb).
  - rewrite !concat_map_app. cbn [map concat]. rewrite (i_entries Hb). symmetry. apply ins_middle; [|apply (op_after _ _ _ _ _ _ _ _ _ _ Hop)].
    eapply Forall_impl; [apply (op_before _ _ _ _ _ _ _ _ _ _ Hop)|]. intros e He. cbn [fst]. by apply key_le_not_lt, (ord_le K u).
  - destruct cs1; [|done]. cbn [app head_or]. rewrite head_or_app by apply (split_of_cons _ _ _ (i_split Hb)). apply (i_first Hb).
Qed.

(** What [inner_put] did to the pages of [m1] that the child's insertion had
    made from those of [m] *)
Lemma becomes_trans {h h'} m m1 m2 next next' lo hi lo' hi' root first pid (c : btree h) first1 e e1 ps ps1 res1 seps1 (bs1 : list (btree h)) res seps (bs : list (btree h')) :
  becomes m m1 next' lo' hi' (root_of c) first1 (pids c) e1 res1 seps1 bs1 →
  becomes m1 m2 next lo hi root first (pid :: ps1) e res seps bs →
  pid ∈ ps → (∀ x, x ∈ pids c → x ∈ ps) → (∀ x, x ∈ ps1 → x ∈ ps ∨ m !! x = None ∧ page_ok x) →
  (length (concat (map pids bs)) <= length ps + S h')%nat →
  becomes m m2 next lo hi root first ps e res seps bs.
Proof.
  intros Hb1 Hb Hpid Hc Hps Hcount. split; try apply Hb.
  - intros x Hx. destruct (i_fresh Hb x Hx) as [[->|Hx']%elem_of_cons|[Hn Hok]]; [by left|by apply Hps|]. right. split; [|done].
    destruct (m !! x) eqn:E; [|done]. pose proof (i_dom Hb1 x (mk_is_Some _ _ E)) as Hd. rewrite Hn in Hd. by destruct Hd.
  - intros x Hx Hm. rewrite (i_frame Hb); [apply (i_frame Hb1); [|done]; auto| |by apply (i_dom Hb1)].
    intros [->|Hx']%elem_of_cons; [done|]. destruct (Hps x Hx') as [|[Hn _]]; [done|]. rewrite Hn in Hm. by destruct Hm.
  - intros x Hm. by apply (i_dom Hb), (i_dom Hb1).
  - done.
Qed.
Lemma graft_node {h} s1 s2 (cs1 cs2 : list (btree h)) c bl br sep right : length s1 = length cs1 → root_of bl = root_of c → root_of br = right →
  mkInternal (linsert (length s1) sep (s1 ++ s2)) (linsert (S (length s1)) right (map root_of (cs1 ++ c :: cs2))) =
  inner_of (s1 ++ [sep] ++ s2) (cs1 ++ [bl; br] ++ cs2).
Proof.
  intros Hl Hbl <-. rewrite linsert_app by done. unfold inner_of. f_equal. rewrite !map_app. cbn [map app].
  change (root_of c :: map root_of cs2) with ([root_of c] ++ map root_of cs2). rewrite app_assoc, linsert_app.
  - by rewrite <-app_assoc, Hbl.
  - rewrite length_app, length_map, Hl. cbn. lia.
Qed.
Lemma _insert_into_spec h : ∀ next lo hi (b : btree h) fuel root key rid p m r rp v,
  stores p m → rooms (S h + r) p → stored m next b → ordered lo hi b → pages_ok (pids b) → good key → rid_ok rid →
  above K lo key → strictly_below K hi key → (u = true → key ∉ map fst (entries b)) → (h <= fuel)%nat →
  (root = true → v = Some (node_of next b)) →
  ∃ res p' m' seps (bs : list (btree h)) v',
    _insert_into t fuel root (root_of b) (node_of next b) key rid (index p rp v) = (Ok res, index p' rp v') ∧
    stores p' m' ∧ rooms r p' ∧
    becomes m m' next lo hi (root_of b) (first_leaf b) (pids b) (ins (key, rid) (entries b)) res seps bs ∧
    (root = false → v' = v) ∧ (root = true → ∀ b', bs = [b'] → v' = Some (node_of next b')).
Proof.
  induction h as [|h IH]; intros next lo hi b fuel root key rid p m r rp v Hst Hr Hs Ho Hpg Hg Hrid Ha Hb Hu Hf Hv.
  { by apply leaf_insert. }
  destruct fuel as [|fuel]; [lia|]. pose proof (λ x, stored_pids t m (S h) next b x Hs) as Hin.
  destruct b as [pid [seps cs]]. cbn [BTreeSpec.stored BTreeSpec.ordered fst snd pids entries root_of] in *.
  destruct Hs as [Hsh Hl]. destruct (find_path lo hi seps cs key Ho ltac:(apply Hg)) as (s1 & s2 & cs1 & c & cs2 & lo' & hi' & -> & -> & Hop).
  pose proof (child_shown _ _ _ _ _ Hl) as Hc. pose proof (op_length _ _ _ _ _ _ _ _ _ _ Hop) as Hlen.
  assert (pages_ok (pids c)) as Hpgc.
  { clear -Hpg. destruct Hpg as [Hnd Hok]. rewrite concat_map_app in *. cbn [map concat] in *. apply NoDup_cons in Hnd as [_ Hnd].
    apply NoDup_app in Hnd as (_ & _ & Hnd). apply NoDup_app in Hnd as (Hnd & _). split; [done|].
    apply Forall_cons in Hok as [_ Hok]. apply Forall_app in Hok as [_ Hok]. by apply Forall_app in Hok as [? _]. }
  destruct (IH (head_or first_leaf next cs2) lo' hi' c fuel false key rid p m (S r) rp v) as (res & p1 & m1 & seps1 & bs & v1 & Hx & Hst1 & Hr1 & Hbec & Hv1 & _);
    [done|by replace (S h + S r)%nat with (S (S h) + r)%nat by lia|done|apply Hop|done|done|done|by apply Hop|by apply Hop| |lia|done|].
  { intros Ht Hk. apply (Hu Ht). rewrite concat_map_app, map_app. apply elem_of_app. right. cbn [map concat]. rewrite map_app.
    apply elem_of_app. by left. }
  specialize (Hv1 eq_refl) as ->.
  destruct (graft_becomes _ _ _ _ _ _ _ _ _ _ _ _ _ _ _ _ _ _ Hop Hl Hin Hpg Hbec) as (Hsp' & Hl' & Hpg' & Hen' & Hfl' & Hfr').
  change (node_of next ((pid, (s1 ++ s2, cs1 ++ c :: cs2)) : btree (S h))) with (Internal (inner_of (s1 ++ s2) (cs1 ++ c :: cs2))) in *.
  rewrite insert_into_internal, (op_child _ _ _ _ _ _ _ _ _ _ Hop), run_lift_Ok.
  cbn [inner_of in_children in_keys]. rewrite child_pid, run_lift_Ok by done.
  rewrite (run_Ok _ _ _ _ _ (read_shown t p m _ _ rp v Hst (stored_shown _ _ _ _ _ Hc))), (run_Ok _ _ _ _ _ Hx).
  destruct res as [[sep right]|].
  - destruct (i_split Hbec) as [-> (bl & br & -> & Hright)].
    rewrite (graft_node s1 s2 cs1 cs2 c bl br) by (done || apply (i_root Hbec)).
    rewrite (run_Ok _ _ _ _ _ (mutated_run _ _ _ _ _)).
    destruct (inner_put next lo hi pid _ _ p1 m1 r rp (if root then Some (Internal (inner_of (s1 ++ [sep] ++ s2) (cs1 ++ [bl; br] ++ cs2))) else v) Hsp' Hl')
      as (res & p2 & m2 & seps2 & bs2 & Hx2 & Hst2 & Hr2 & Hbec2 & Hcount2 & Hbs2); try done; try apply Hpg'.
    { by apply (Forall_cons_1 page_ok pid _), Hpg'. }
    { pose proof (inner_count _ _ (Forall_good_seps _ _ _ _ Ho) (spaced_length _ _ _ _ _ _ _ _ _ Ho) (proj2 (proj2 Hsh))) as Hn.
      unfold zlen in *. rewrite !length_app in *. cbn [length]. lia. }
    { apply (i_dom Hbec), Hin. by left. }
    exists res, p2, m2, seps2, bs2. eexists. split_and!; [exact Hx2|done|done| |by intros ->|by intros -> b' ->; rewrite (Hbs2 b')].
    pose proof (i_count Hbec) as Hcount. rewrite <-Hen', first_leaf_inner, <-Hfl'.
    eapply becomes_trans; [exact Hbec|exact Hbec2|by left| | |].
    + intros x Hxc. right. apply elem_of_concat_map. exists c. split; [set_solver|done].
    + intros x Hx'. destruct (Hfr' x Hx'); [left; by right|by right].
    + etrans; [exact Hcount2|]. rewrite !concat_map_app in *. cbn [map concat length] in *. rewrite !length_app in *. cbn [length] in *. lia.
  - destruct (i_split Hbec) as [-> [c' ->]]. cbn [app] in *. pose proof (i_root Hbec) as Hroot. cbn [head_or] in Hroot.
    assert (inner_of (s1 ++ s2) (cs1 ++ c' :: cs2) = inner_of (s1 ++ s2) (cs1 ++ c :: cs2)) as Hno.
    { unfold inner_of. rewrite !map_app. cbn [map]. by rewrite Hroot. }
    exists None, p1, m1, [], [((pid, (s1 ++ s2, cs1 ++ c' :: cs2)) : btree (S h))], v. split_and!; try done.
    + by apply (rooms_mono p1 (S r) r); [|lia].
    + assert (pid ∉ pids c) as Hpc.
      { destruct Hpg as [[Hp _]%NoDup_cons _]. intros Hx'. apply Hp, elem_of_concat_map. exists c. split; [set_solver|done]. }
      split; cbn [BTreeSpec.stored node_of linked head_or map concat fst snd pids entries]; rewrite ?app_nil_r; try done; try apply Hpg'.
      * split; [done|]. by eexists.
      * split; [|done]. split; [|done]. change (mkInternal _ _) with (inner_of (s1 ++ s2) (cs1 ++ c' :: cs2)). rewrite Hno.
        eapply shown_ext; [|exact Hsh]. apply (i_frame Hbec); [done|]. apply Hin. by left.
      * intros x [->|Hx']%elem_of_cons; [left; by left|]. destruct (Hfr' x Hx'); [left; by right|by right].
      * intros x Hx' Hm. apply (i_frame Hbec); [|done]. intros Hxc. apply Hx'. right. apply elem_of_concat_map. exists c. split; [set_solver|done].
      * apply (i_dom Hbec).
      * pose proof (i_count Hbec) as Hcount. cbn [map concat] in Hcount. rewrite app_nil_r in Hcount.
        rewrite !concat_map_app. cbn [map concat length]. rewrite !length_app. lia.
    + intros Ht b' [= <-]. rewrite (Hv Ht). f_equal. by rewrite <-Hno.
Qed.
End Insert.
Arguments i_split {_ _ _ _ _ _ _ _ _ _ _ _ _ _ _ _ _ _ _ _} _.
Arguments i_root {_ _ _ _ _ _ _ _ _ _ _ _ _ _ _ _ _ _ _ _} _.
Arguments i_first {_ _ _ _ _ _ _ _ _ _ _ _ _ _ _ _ _ _ _ _} _.
Arguments i_stored {_ _ _ _ _ _ _ _ _ _ _ _ _ _ _ _ _ _ _ _} _.
Arguments i_ordered {_ _ _ _ _ _ _ _ _ _ _ _ _ _ _ _ _ _ _ _} _.
Arguments i_entries {_ _ _ _ _ _ _ _ _ _ _ _ _ _ _ _ _ _ _ _} _.
Arguments i_nodup {_ _ _ _ _ _ _ _ _ _ _ _ _ _ _ _ _ _ _ _} _.
Arguments i_fresh {_ _ _ _ _ _ _ _ _ _ _ _ _ _ _ _ _ _ _ _} _.
Arguments i_frame {_ _ _ _ _ _ _ _ _ _ _ _ _ _ _ _ _ _ _ _} _.
Arguments i_dom {_ _ _ _ _ _ _ _ _ _ _ _ _ _ _ _ _ _ _ _} _.
Arguments i_count {_ _ _ _ _ _ _ _ _ _ _ _ _ _ _ _ _ _ _ _} _.
Arguments op_length {_ _ _ _ _ _ _ _ _ _ _ _ _ _ _ _ _ _} _.
Arguments op_child {_ _ _ _ _ _ _ _ _ _ _ _ _ _ _ _ _ _} _.
Arguments op_ordered {_ _ _ _ _ _ _ _ _ _ _ _ _ _ _ _ _ _} _.
Arguments op_graft {_ _ _ _ _ _ _ _ _ _ _ _ _ _ _ _ _ _} _ _ _ _.
Arguments op_above {_ _ _ _ _ _ _ _ _ _ _ _ _ _ _ _ _ _} _ _.
Arguments op_below {_ _ _ _ _ _ _ _ _ _ _ _ _ _ _ _ _ _} _ _.
Arguments op_before {_ _ _ _ _ _ _ _ _ _ _ _ _ _ _ _ _ _} _.
Arguments op_after {_ _ _ _ _ _ _ _ _ _ _ _ _ _ _ _ _ _} _.
