(* ===== verification/BTreeIndex.v ===== *)
(** A B-tree index as a sorted list of entries: what [insert], [search] and
    [range] of [index/btree.py] do to it and find in it. *)
From S2P Require Import Prelude.
From S2P Require Import Bytes.
From S2P Require Import TypeSys.
From S2P Require Import Codec.
From S2P Require Import Pager.
From S2P Require Import BufferPool.
From S2P Require Import Heap.
From S2P Require Import PyOrder.
From S2P Require Import BTreeNode.
From S2P Require Import BTree.
From S2P Require Import BTreeSpec.
From S2P Require Import BTreeInsert.
From stdpp Require Import sorting.
From Stdlib Require Import ZArith Lia.
Local Open Scope Z_scope.

Section Index.
Context `{JsonLaws} {P : Type} {stores : P → gmap Z bytes → Prop} {rooms : nat → P → Prop}.
Context {POps : PagerOps P} {PLaws : PagerLaws P stores} {AOps : AllocOps P} {RLaws : RoomLaws P stores rooms}.
Context (t : TypeTag) (K : pyval → Prop) `{OrderedKeys K} (K_ok : ∀ k, K k → key_ok t k).
Context (wmin wmax : Z) (u : bool).
Abbreviation good := (good t K wmin wmax).
Abbreviation stored := (stored t).
Abbreviation ordered := (ordered t K wmin wmax u).
Abbreviation spaced := (spaced t K wmin wmax).
Abbreviation ins := (ins K).
Abbreviation index p rp v := (mkBTree (P := P) p rp v).

(** The index [b] over the pages [m] is the tree [tr] of height [h], whose
    sorted entries are [es], in the pages [ps]. *)
Record is_index (b : BTreeIndex P) (m : gmap Z bytes) (h : nat) (ps : list Z) (es : list entry) : Prop := {
  ix_stores : stores b.(bt_pager) m;
  ix_pages : pages_ok ps;
  ix_tree : ∃ tr : btree h, b.(bt_root_pid) = root_of tr ∧ stored m NO_NEXT tr ∧ ordered None None tr ∧
    ps = pids tr ∧ es = entries tr ∧ (b.(bt_root_view) = None ∨ b.(bt_root_view) = Some (node_of NO_NEXT tr));
}.
Lemma ensure_loaded_run p m h (tr : btree h) v : stores p m → stored m NO_NEXT tr →
  v = None ∨ v = Some (node_of NO_NEXT tr) →
  _ensure_loaded (index p (root_of tr) v) = (Ok (node_of NO_NEXT tr), index p (root_of tr) (Some (node_of NO_NEXT tr))).
Proof.
  intros Hst Hs Hv. unfold _ensure_loaded. rewrite run_get. cbn [bt_root_view bt_root_pid]. destruct Hv as [->| ->]; [|done].
  by rewrite (run_Ok _ _ _ _ _ (read_shown t p m _ _ (root_of tr) None Hst (stored_shown _ _ _ _ _ Hs))).
Qed.

Section InsertIndex.
Context (wmin_nonneg : 0 <= wmin).
Context (leaf_halves : (NODE_ROOM / (wmin + 8) + 2) / 2 * (wmax + 8) <= NODE_ROOM).
Context (internal_halves : (NODE_ROOM / (wmin + 6) + 1) / 2 * (wmax + 6) <= NODE_ROOM).

Lemma becomes_pages {h} m m' next lo hi root first ps es res seps (bs : list (btree h)) :
  becomes t K wmin wmax u m m' next lo hi root first ps es res seps bs → pages_ok ps → pages_ok (concat (map pids bs)).
Proof.
  intros Hb [_ Hok]. split; [apply (i_nodup Hb)|]. apply Forall_forall. intros x Hx. rewrite Forall_forall in Hok.
  destruct (i_fresh Hb x Hx) as [|[_ ?]]; auto.
Qed.
Lemma insert_spec b m h ps es key rid fuel r : is_index b m h ps es → rooms (S (S h) + r) b.(bt_pager) →
  good key → rid_ok rid → (u = true → key ∉ map fst es) → (h <= fuel)%nat →
  ∃ b' m' h' ps', BTree.insert t fuel key rid b = (Ok (), b') ∧ is_index b' m' h' ps' (ins (key, rid) es) ∧
    (h' <= S h)%nat ∧ rooms r b'.(bt_pager) ∧ (length ps' <= length ps + S (S h))%nat ∧
    (∀ x, x ∈ ps' → x ∈ ps ∨ m !! x = None) ∧ (∀ x, x ∉ ps → is_Some (m !! x) → m' !! x = m !! x).
Proof.
  destruct b as [p rp v]. intros [Hst Hpg (tr & Hrp & Hs & Ho & -> & -> & Hv)]. cbn [bt_pager bt_root_pid bt_root_view] in *. subst rp.
  intros Hr Hg Hrid Hu Hf. unfold BTree.insert. rewrite (run_Ok _ _ _ _ _ (ensure_loaded_run p m h tr v Hst Hs Hv)), run_get.
  cbn [bt_root_pid].
  destruct (_insert_into_spec t K K_ok wmin wmax wmin_nonneg leaf_halves internal_halves u h NO_NEXT None None tr fuel true key rid
    p m (S r) (root_of tr) (Some (node_of NO_NEXT tr))) as (res & p1 & m1 & seps & bs & v1 & Hx & Hst1 & Hr1 & Hbec & _ & Hv1); try done.
  { by replace (S h + S r)%nat with (S (S h) + r)%nat by lia. }
  rewrite (run_Ok _ _ _ _ _ Hx). pose proof (i_frame Hbec) as Hfr.
  pose proof (λ x, stored_pids t m h NO_NEXT tr x Hs) as Hin.
  destruct res as [[s right]|].
  - destruct (i_split Hbec) as [-> (bl & br & -> & Hright)].
    destruct (allocate_run p1 m1 r (root_of tr) v1 Hst1 Hr1) as (new & p2 & m2 & Ha & Hnone & Hnew & Hst2 & Hr2 & Hin2 & Hc2).
    rewrite (run_Ok _ _ _ _ _ Ha), run_get. cbn [bt_root_pid].
    pose proof (λ x, linked_pids t m1 h NO_NEXT [bl; br] x (i_stored Hbec)) as Hin1.
    pose proof (i_root Hbec) as Hrl. cbn [head_or] in Hrl.
    pose proof (Forall_good_seps t K wmin wmax u _ _ _ _ (i_ordered Hbec)) as Hgs.
    pose proof (becomes_pages _ _ _ _ _ _ _ _ _ _ _ _ Hbec Hpg) as Hpgb.
    assert (new ∉ concat (map pids [bl; br])) as Hnp.
    { intros Hx'. apply Hin1 in Hx'. rewrite Hnone in Hx'. by destruct Hx'. }
    pose proof (leaf_one wmin wmax wmin_nonneg leaf_halves) as Hone.
    assert (wf_node t (Internal (inner_of [s] [bl; br]))) as Hwf.
    { apply (wf_inner_of t K K_ok wmin wmax); [done|done| |done]. apply roots_ok, Hpgb. }
    destruct (inner_size_bounds t K wmin wmax [s] [bl; br] Hgs eq_refl) as [_ Hsz]. change (zlen [s]) with 1 in Hsz.
    destruct (write_fits t new (Internal (inner_of [s] [bl; br])) p2 m2 r (root_of tr) v1 Hwf ltac:(lia) Hst2 Hr2 Hin2)
      as (p3 & m3 & Hw & Hst3 & Hr3 & Hsh & Hc3).
    assert (inner_of [s] [bl; br] = mkInternal [s] [root_of tr; right]) as Hno by (unfold inner_of; cbn [map]; by rewrite Hrl, Hright).
    rewrite Hno in Hw. change (on_pager _) with (write_node t new (Internal (mkInternal [s] [root_of tr; right]))).
    rewrite (run_Ok _ _ _ _ _ Hw). unfold modify. cbn [bt_pager bt_root_pid bt_root_view].
    pose proof (changed_trans _ _ _ _ _ Hc2 Hc3) as [Hc Hd].
    eexists _, m3, (S h), (new :: concat (map pids [bl; br])). pose proof (i_count Hbec) as Hcount. split_and!; [done| |done|done|cbn [length]; lia| |].
    + split; [done| |].
      * split; [by apply NoDup_cons; split; [|apply Hpgb]|]. apply Forall_cons. split; [|apply Hpgb]. unfold page_ok. lia.
      * exists (new, ([s], [bl; br])). cbn [bt_root_pid bt_root_view]. split_and!; [done| |apply (i_ordered Hbec)|done| |].
        -- split; [done|]. eapply linked_changed; [by split|set_solver|apply (i_stored Hbec)].
        -- by rewrite <-(i_entries Hbec).
        -- right. by rewrite <-Hno.
    + intros x [->|Hx']%elem_of_cons; [right|].
      * destruct (m !! new) eqn:E; [|done]. pose proof (i_dom Hbec new (mk_is_Some _ _ E)) as Hd'. rewrite Hnone in Hd'. by destruct Hd'.
      * destruct (i_fresh Hbec x Hx') as [|[? _]]; [by left|by right].
    + intros x Hx' Hm. rewrite Hc; [by apply (i_frame Hbec)|]. pose proof (i_dom Hbec x Hm) as Hm1.
      intros [->|[->|[]%elem_of_nil]%elem_of_cons]%elem_of_cons; rewrite Hnone in Hm1; by destruct Hm1.
  - destruct (i_split Hbec) as [-> [tr' ->]]. rewrite (Hv1 eq_refl tr' eq_refl).
    pose proof (becomes_pages _ _ _ _ _ _ _ _ _ _ _ _ Hbec Hpg) as Hpgb. pose proof (i_fresh Hbec) as Hfresh.
    pose proof (i_stored Hbec) as [Hs' _]. pose proof (i_entries Hbec) as Hen. cbn [map concat] in *. rewrite app_nil_r in *.
    pose proof (i_count Hbec) as Hcount. cbn [map concat] in Hcount. rewrite app_nil_r in Hcount.
    eexists _, m1, h, (pids tr'). split_and!; [done| |lia|by apply (rooms_mono p1 (S r) r); [|lia]|lia| |apply (i_frame Hbec)].
    + split; [done|done|]. exists tr'. cbn [bt_root_pid bt_root_view]. split_and!; try done; [|apply (i_ordered Hbec)|by right].
      symmetry. apply (i_root Hbec).
    + intros x Hx'. destruct (Hfresh x Hx') as [|[? _]]; [by left|by right].
Qed.
End InsertIndex.

(** * The chain of leaves *)

Fixpoint leaves {h : nat} : btree h → list (Z * list entry) :=
  match h with O => λ b, [b] | S h => λ b, concat (map leaves b.2.2) end.
Definition chain (m : gmap Z bytes) : Z → list (Z * list entry) → Prop :=
  linked (λ next l, shown t m l.1 (Leaf (leaf_of l.2 next))) fst.
Lemma entries_leaves h (tr : btree h) : entries tr = concat (map snd (leaves tr)).
Proof.
  induction h as [|h IH]; cbn [entries leaves map concat]; [by rewrite app_nil_r|].
  induction tr.2.2 as [|c cs IHcs]; [done|]. cbn [map concat]. by rewrite concat_map_app, IHcs, IH.
Qed.
Lemma leaves_entries h (cs : list (btree h)) : concat (map entries cs) = concat (map snd (concat (map leaves cs))).
Proof. induction cs as [|c cs IH]; [done|]. cbn [map concat]. by rewrite concat_map_app, <-IH, entries_leaves. Qed.
Lemma head_or_concat {A} (f : A → Z) n l l' : head_or f n (l ++ l') = head_or f (head_or f n l') l.
Proof. by destruct l. Qed.
Lemma leaves_length h (tr : btree h) : (length (leaves tr) <= length (pids tr))%nat.
Proof.
  induction h as [|h IH]; cbn [leaves pids length]; [done|]. apply le_S.
  induction tr.2.2 as [|c cs IHcs]; [done|]. cbn [map concat]. rewrite !length_app. specialize (IH c). lia.
Qed.
Lemma leaves_pids h (tr : btree h) x : x ∈ map fst (leaves tr) → x ∈ pids tr.
Proof.
  induction h as [|h IH]; cbn [leaves pids map]; [done|]. intros Hx. right.
  apply list_elem_of_In, in_map_iff in Hx as (l & <- & Hl%list_elem_of_In). apply elem_of_concat_map in Hl as (c & Hc & Hl).
  apply elem_of_concat_map. exists c. split; [done|]. apply IH. apply list_elem_of_In, in_map. by apply list_elem_of_In.
Qed.
Definition chained {h} (m : gmap Z bytes) (next : Z) (c : btree h) : Prop :=
  chain m next (leaves c) ∧ leaves c ≠ [] ∧ head_or fst next (leaves c) = first_leaf c.
Lemma chain_list m h next (cs : list (btree h)) : linked (chained m) first_leaf next cs →
  chain m next (concat (map leaves cs)) ∧ head_or fst next (concat (map leaves cs)) = head_or first_leaf next cs.
Proof.
  induction cs as [|c cs IH]; [done|]. intros [(Hc & Hne & Hh) Hl]. destruct (IH Hl) as [Hch Hhd]. cbn [map concat]. split.
  - apply linked_app. rewrite Hhd. by split.
  - rewrite head_or_app by done. cbn [head_or]. rewrite <-Hh. by apply head_or_any.
Qed.
Lemma chain_stored m h : ∀ next lo hi (tr : btree h), stored m next tr → ordered lo hi tr → chained m next tr.
Proof.
  induction h as [|h IH]; intros next lo hi tr Hs Ho; [by split_and!|].
  destruct tr as [pid [seps cs]]. cbn [BTreeSpec.stored BTreeSpec.ordered fst snd] in *. destruct Hs as [_ Hl].
  pose proof (spaced_length _ _ _ _ _ _ _ _ _ Ho) as Hlen.
  assert (linked (chained m) first_leaf next cs) as Hch.
  { eapply linked_impl; [|exact Hl]. intros n c Hc Hsc. destruct (spaced_each _ _ _ _ _ _ _ _ _ _ Ho Hc) as (lo' & hi' & Hc' & _).
    by eapply IH. }
  destruct (chain_list _ _ _ _ Hch) as [Hch' Hhd]. destruct cs as [|c cs]; [done|]. unfold chained. cbn [leaves fst snd]. split_and!; [done| |done].
  cbn [map concat]. intros [Hx _]%app_eq_nil. by destruct Hch as [(_ & ? & _) _].
Qed.
Lemma ordered_sorted h : ∀ lo hi (tr : btree h), ordered lo hi tr → StronglySorted (ord K u) (map fst (entries tr)).
Proof.
  induction h as [|h IH]; intros lo hi tr; [by intros []|]. destruct tr as [pid [seps cs]]. cbn [BTreeSpec.ordered entries fst snd].
  revert lo cs. induction seps as [|s seps IHs]; intros lo [|c cs]; cbn [BTreeSpec.spaced]; try done.
  - destruct cs; [|done]. intros Ho. cbn. rewrite app_nil_r. by eapply IH.
  - intros (Ho & Hs & Hsp). cbn [map concat]. rewrite map_app. apply StronglySorted_app.
    split_and!; [|by eapply IH|by eapply IHs]. apply ordered_entries, (Forall_fmap fst (λ k, good k ∧ above K lo k ∧ below K u (Some s) k)) in Ho.
    pose proof (ordered_entries t K wmin wmax u (S h) (Some s) hi (0, (seps, cs)) Hsp) as Hr. cbn [entries snd] in Hr.
    apply (Forall_fmap fst (λ k, good k ∧ above K (Some s) k ∧ below K u hi k)) in Hr.
    intros x y Hx Hy. rewrite Forall_forall in Ho. rewrite Forall_forall in Hr. eapply ord_le_trans; [apply (Ho x Hx)|apply (Hr y Hy)].
Qed.

(** * Search *)

(** The leaf that the key belongs to, and the entries around it *)
Lemma descend_spec h : ∀ next lo hi (tr : btree h) fuel key p m rp v, stores p m → stored m next tr → ordered lo hi tr → K key →
  (h <= fuel)%nat →
  ∃ l1 pid el l2, leaves tr = l1 ++ (pid, el) :: l2 ∧
    descend fuel key (node_of next tr) (index p rp v) = (Ok (leaf_of el (head_or fst next l2)), index p rp v) ∧
    Forall (λ e, ord K u e.1 key) (concat (map snd l1)) ∧ Forall (λ e, key_lt K key e.1) (concat (map snd l2)).
Proof.
  induction h as [|h IH]; intros next lo hi tr fuel key p m rp v Hst Hs Ho Hk Hf.
  - destruct tr as [pid el]. exists [], pid, el, []. split_and!; try done. by destruct fuel.
  - destruct fuel as [|fuel]; [lia|]. destruct tr as [pid [seps cs]]. cbn [BTreeSpec.stored BTreeSpec.ordered leaves fst snd] in *.
    destruct Hs as [Hsh Hl]. destruct (find_path t K wmin wmax u lo hi seps cs key Ho Hk) as (s1 & s2 & cs1 & c & cs2 & lo' & hi' & -> & -> & Hop).
    pose proof (child_shown t _ _ _ _ _ Hl) as Hc.
    destruct (IH _ _ _ c fuel key p m rp v Hst Hc (op_ordered Hop) Hk ltac:(lia)) as (l1 & lpid & el & l2 & Hlv & Hd & H1' & H2').
    exists (concat (map leaves cs1) ++ l1), lpid, el, (l2 ++ concat (map leaves cs2)). split_and!.
    + rewrite concat_map_app. cbn [map concat]. rewrite Hlv, <-!app_assoc. done.
    + change (node_of next ((pid, (s1 ++ s2, cs1 ++ c :: cs2)) : btree (S h))) with (Internal (inner_of (s1 ++ s2) (cs1 ++ c :: cs2))).
      cbn [descend]. rewrite (op_child Hop), run_lift_Ok. cbn [inner_of in_children].
      rewrite child_pid, run_lift_Ok by apply Hop.
      rewrite (run_Ok _ _ _ _ _ (read_shown t p m _ _ rp v Hst (stored_shown _ _ _ _ _ Hc))). rewrite Hd. do 3 f_equal.
      rewrite head_or_concat. f_equal. symmetry. apply (chain_list m). apply linked_app in Hl as [_ [_ Hl]].
      eapply linked_impl; [|exact Hl]. intros n c' Hc' Hsc. destruct (spaced_each _ _ _ _ _ _ _ _ _ c' Ho) as (lo1 & hi1 & Hc1 & _); [set_solver|].
      by eapply chain_stored.
    + rewrite concat_map_app, <-leaves_entries. apply Forall_app. split; [apply (op_before Hop)|done].
    + rewrite concat_map_app, <-leaves_entries. apply Forall_app. split; [done|apply (op_after Hop)].
Qed.

(** What a tree looks like from the leaf of [key], in an index without duplicates *)
Lemma around h (tr : btree h) l1 pid el l2 : ordered None None tr → leaves tr = l1 ++ (pid, el) :: l2 →
  entries tr = concat (map snd l1) ++ el ++ concat (map snd l2) ∧
  StronglySorted (ord K u) (map fst (concat (map snd l1))) ∧ StronglySorted (ord K u) (map fst (el ++ concat (map snd l2))) ∧
  (∀ x y, x ∈ map fst (concat (map snd l1)) → y ∈ map fst (el ++ concat (map snd l2)) → ord K u x y) ∧
  Forall (λ e, good e.1) (el ++ concat (map snd l2)) ∧ Forall (λ e, good e.1) (concat (map snd l1)).
Proof.
  intros Ho Hlv. pose proof (ordered_sorted h None None tr Ho) as Hs. pose proof (ordered_entries t K wmin wmax u h None None tr Ho) as Hg.
  assert (entries tr = concat (map snd l1) ++ el ++ concat (map snd l2)) as He.
  { rewrite entries_leaves, Hlv, concat_map_app. done. }
  rewrite He in Hs, Hg. rewrite map_app in Hs. apply StronglySorted_app in Hs as (Hx & Hs1 & Hs2). apply Forall_app in Hg as [Hg1 Hg2].
  split_and!; try done; (eapply Forall_impl; [eassumption|]); by intros e [].
Qed.
Lemma keys_of (Q : pyval → Prop) (es : list entry) : Forall Q (map fst es) ↔ Forall (λ e, Q e.1) es.
Proof. apply (Forall_fmap fst Q). Qed.
Lemma bounds_cut key (el : list entry) : K key → Forall (λ e, good e.1) el → StronglySorted (ord K u) (map fst el) →
  ∃ ea eb ec, el = ea ++ eb ++ ec ∧ Forall (λ e, key_lt K e.1 key) ea ∧ Forall (λ e, e.1 = key) eb ∧ Forall (λ e, key_lt K key e.1) ec ∧
    _lower_bound (map fst el) key = Ok (length ea) ∧ _upper_bound (map fst el) key = Ok (length ea + length eb)%nat.
Proof.
  intros Hk Hg Hs. destruct (entries_lower_cut K key el _ (ord_le K u) Hs) as (ea & er & -> & Ha & Hr).
  rewrite map_app in Hs. apply StronglySorted_app in Hs as (_ & _ & Hsr).
  destruct (entries_cut K key er _ (ord_le K u) Hsr) as (eb & ec & -> & Hb & Hc).
  assert (Forall K (map fst (ea ++ eb ++ ec))) as HK by (apply keys_of; eapply Forall_impl; [exact Hg|]; by intros e []).
  exists ea, eb, ec. split_and!; try done.
  - apply Forall_app in Hr as [Hr _]. apply Forall_forall. intros e He. rewrite Forall_forall in Hb. rewrite Forall_forall in Hr.
    rewrite Forall_forall in Hg. apply (key_le_antisym K).
    + apply Hg. set_solver.
    + done.
    + apply key_le_not_lt. by apply Hb.
    + apply key_le_not_lt. by apply Hr.
  - rewrite map_app in *. rewrite (lower_bound_cut K key); [by rewrite length_map|done..| |]; by apply keys_of.
  - rewrite app_assoc, map_app in *. rewrite (upper_bound_cut K key); [by rewrite length_map, length_app|done..| |]; apply keys_of; [|done].
    apply Forall_app. split; [|done]. eapply Forall_impl; [exact Ha|]. intros e He He'. eapply (key_lt_irrefl K key), key_lt_trans; eassumption.
Qed.
Lemma search_spec b m h ps es key fuel : u = true → is_index b m h ps es → K key → (h <= fuel)%nat →
  ∃ rids b', search fuel key b = (Ok rids, b') ∧ is_index b' m h ps es ∧
    rids = map snd (filter (BTreeSpec.in_range K key key true) es) ∧ b'.(bt_pager) = b.(bt_pager).
Proof.
  intros Hu. destruct b as [p rp v]. intros [Hst Hpg (tr & Hrp & Hs & Ho & -> & -> & Hv)] Hk Hf. cbn [bt_pager bt_root_pid bt_root_view] in *. subst rp.
  destruct (descend_spec h NO_NEXT None None tr fuel key p m (root_of tr) (Some (node_of NO_NEXT tr)) Hst Hs Ho Hk Hf)
    as (l1 & pid & el & l2 & Hlv & Hd & Hb1 & Hb2).
  destruct (around h tr l1 pid el l2 Ho Hlv) as (He & Hs1 & Hs2 & Hx & Hg & _).
  rewrite map_app in Hs2. apply StronglySorted_app in Hs2 as (_ & Hs2 & _). apply Forall_app in Hg as [Hg _].
  destruct (bounds_cut key el Hk Hg Hs2) as (ea & eb & ec & -> & Ha & Hb & Hc & Hlo & Hhi).
  exists (map snd eb), (index p (root_of tr) (Some (node_of NO_NEXT tr))). split_and!.
  - unfold search, catch. rewrite (run_Ok _ _ _ _ _ (ensure_loaded_run p m h tr v Hst Hs Hv)), (run_Ok _ _ _ _ _ Hd).
    cbn [leaf_of lf_keys lf_rids]. rewrite Hlo, Hhi, !run_lift_Ok. unfold mret, M_ret. do 2 f_equal. rewrite !map_app.
    rewrite drop_app_length' by (by rewrite length_map). rewrite take_app_length'; [done|]. rewrite length_map. lia.
  - split; [done|done|]. exists tr. cbn [bt_root_pid bt_root_view]. split_and!; try done. by right.
  - rewrite He. replace (concat (map snd l1) ++ (ea ++ eb ++ ec) ++ concat (map snd l2)) with
      ((concat (map snd l1) ++ ea) ++ eb ++ (ec ++ concat (map snd l2))) by (by rewrite <-!app_assoc).
    rewrite in_range_split; [done|..].
    + apply Forall_app. by rewrite Hu in Hb1.
    + eapply Forall_impl; [exact Hb|]. intros e ->. apply key_lt_irrefl.
    + eapply Forall_impl; [exact Hb|]. intros e ->. apply key_lt_irrefl.
    + by apply Forall_app.
  - done.
Qed.

(** * Range scans *)

Section Range.
Context (lo hi : pyval) (inclusive : bool) (lo_key : K lo) (hi_key : K hi) (hi_flat : as_tuple hi = None).
Abbreviation past := (past K hi inclusive).
Abbreviation in_range := (in_range K lo hi inclusive).

Lemma past_upper k prefix_mode : K k → _is_past_upper k hi inclusive prefix_mode = bool_decide (past k).
Proof.
  intros Hk. unfold _is_past_upper. rewrite hi_flat. unfold py_gt, py_ge.
  assert ((if inclusive then py_lt hi k else py_le hi k) = Ok (bool_decide (past k))) as ->.
  { case_bool_decide as Hp; unfold past in Hp; destruct inclusive; rewrite ?(py_lt_key K), ?(py_le_key K) by done; f_equal.
    - by apply bool_decide_true.
    - apply bool_decide_true. by apply key_le_not_lt.
    - by apply bool_decide_false.
    - apply bool_decide_false. by rewrite <-key_le_not_lt. }
  case_bool_decide; [|done]. by destruct prefix_mode.
Qed.
Lemma past_mono a b : past a → key_le K a b → past b.
Proof. unfold past. destruct inclusive; intros Ha Hb; [by eapply key_lt_le_trans|by eapply key_le_trans]. Qed.
Lemma past_cut (es : list entry) : StronglySorted (ord K u) (map fst es) →
  ∃ ei ep, es = ei ++ ep ∧ Forall (λ e, ¬ past e.1) ei ∧ Forall (λ e, past e.1) ep.
Proof.
  induction es as [|e es IH]; [by exists [], []|]. cbn [map]. intros [Hs Hf]%StronglySorted_inv. destruct (decide (past e.1)) as [Hp|Hp].
  - exists [], (e :: es). split_and!; [done|done|]. constructor; [done|]. apply keys_of in Hf. eapply Forall_impl; [exact Hf|].
    intros e' He'. eapply past_mono; [exact Hp|]. by apply (ord_le K u).
  - destruct (IH Hs) as (ei & ep & -> & Hi & Hep). exists (e :: ei), ep. split_and!; [done|by constructor|done].
Qed.
Lemma scan_leaf_cut ei ep prefix_mode : Forall (λ e, K e.1) (ei ++ ep) → Forall (λ e, ¬ past e.1) ei → Forall (λ e, past e.1) ep →
  scan_leaf (ei ++ ep) hi inclusive prefix_mode = (map snd ei, match ep with [] => false | _ => true end).
Proof.
  intros HK Hi Hp. induction Hi as [|[k r] ei Hk _ IH]; cbn [app map snd fst] in *.
  - destruct Hp as [|[k r] ep Hk _]; [done|]. cbn [scan_leaf]. apply Forall_cons in HK as [HK _]. cbn [fst] in *.
    by rewrite past_upper, bool_decide_true by done.
  - apply Forall_cons in HK as [HKk HK]. cbn [scan_leaf]. cbn [fst] in *. rewrite past_upper, bool_decide_false by done. by rewrite IH.
Qed.
(** One leaf of the walk: its entries before [lo], in the range and past it *)
Lemma walk_leaf prefix_mode width ea ei ep next acc p rp v : Forall (λ e, K e.1) (ea ++ ei ++ ep) →
  Forall (λ e, key_lt K e.1 lo) ea → Forall (λ e, ¬ key_lt K e.1 lo) (ei ++ ep) → Forall (λ e, ¬ past e.1) ei → Forall (λ e, past e.1) ep →
  walk width lo hi inclusive prefix_mode (leaf_of (ea ++ ei ++ ep) next) acc (index p rp v) =
  (if match ep with [] => next =? NO_NEXT | _ => true end then mret (acc ++ map snd ei)
   else match width with
        | O => raise OutOfFuel
        | S width => or_stop (acc ++ map snd ei) (page ← on_pager (pi_read_page next); lift (_read_leaf_from_bytes page))
                       (λ leaf, walk width lo hi inclusive prefix_mode leaf (acc ++ map snd ei))
        end) (index p rp v).
Proof.
  intros HK Ha Hr Hi Hp.
  assert (_lower_bound (map fst (ea ++ ei ++ ep)) lo = Ok (length ea)) as Hlo.
  { rewrite map_app, (lower_bound_cut K lo); [by rewrite length_map|done|rewrite <-map_app; by apply keys_of|by apply keys_of..]. }
  assert (∀ st, walk width lo hi inclusive prefix_mode (leaf_of (ea ++ ei ++ ep) next) acc st =
    or_stop acc (lift (_lower_bound (map fst (ea ++ ei ++ ep)) lo)) (λ start,
      let '(rids, past) := scan_leaf (drop start (zip (map fst (ea ++ ei ++ ep)) (map snd (ea ++ ei ++ ep)))) hi inclusive prefix_mode in
      let acc := acc ++ rids in
      if past then mret acc else if next =? NO_NEXT then mret acc
      else match width with
        | O => raise OutOfFuel
        | S width => or_stop acc (page ← on_pager (pi_read_page next); lift (_read_leaf_from_bytes page)) (λ leaf, walk width lo hi inclusive prefix_mode leaf acc)
        end) st) as -> by (by destruct width).
  rewrite Hlo, zip_fst_snd. unfold or_stop at 1, lift at 1. rewrite drop_app_length. rewrite scan_leaf_cut; [|by apply Forall_app in HK as [_ ?]|done..].
  by destruct ep.
Qed.
Lemma read_leaf_of_node pg l : node_of_page pg = Ok (Leaf l) → _read_leaf_from_bytes pg = Ok l.
Proof.
  unfold node_of_page. destruct (byte_at pg 0) as [b|]; [|done]. rewrite bind_Ok.
  destruct (_ || _); [|destruct (_ =? _); [|done]; by destruct (_read_internal_from_bytes pg)].
  destruct (_read_leaf_from_bytes pg) as [l'|]; [|done]. cbn. by intros [= ->].
Qed.
Lemma walk_spec prefix_mode m p rp v : stores p m → ∀ l2 width pid el acc,
  chain m NO_NEXT ((pid, el) :: l2) → Forall page_ok (map fst l2) → Forall (λ e, good e.1) (el ++ concat (map snd l2)) →
  StronglySorted (ord K u) (map fst (el ++ concat (map snd l2))) → (length l2 <= width)%nat →
  walk width lo hi inclusive prefix_mode (leaf_of el (head_or fst NO_NEXT l2)) acc (index p rp v) =
  (Ok (acc ++ map snd (filter in_range (el ++ concat (map snd l2)))), index p rp v).
Proof.
  intros Hst. induction l2 as [|[pid2 el2] l2 IH]; intros width pid el acc Hch Hpg Hg Hs Hw.
  all: pose proof Hs as Hs'; rewrite map_app in Hs'; apply StronglySorted_app in Hs' as (Hx & Hsl & Hsr).
  all: pose proof Hg as Hg'; apply Forall_app in Hg' as [Hgl Hgr].
  all: assert (Forall (λ e, K e.1) el) as HKl by (eapply Forall_impl; [exact Hgl|]; by intros e []).
  all: destruct (entries_lower_cut K lo el _ (ord_le K u) Hsl) as (ea & er & -> & Ha & Hr).
  all: rewrite map_app in Hsl; apply StronglySorted_app in Hsl as (_ & _ & Hse).
  all: destruct (past_cut er Hse) as (ei & ep & -> & Hi & Hp).
  all: rewrite walk_leaf by done.
  all: pose proof Hr as Hr'; apply Forall_app in Hr' as [Hri _].
  - cbn [map concat head_or]. rewrite app_nil_r, in_range_split by done. rewrite Z.eqb_refl. by destruct ep.
  - rewrite filter_app, in_range_split, map_app by done. cbn [head_or fst]. destruct ep as [|e ep].
    + apply Forall_cons in Hpg as [Hpg1 Hpg]. destruct (Z.eqb_spec pid2 NO_NEXT) as [->|_]; [destruct Hpg1 as [_ Hlt]; cbn in Hlt; lia|].
      cbn [length] in Hw. destruct width as [|width]; [lia|]. destruct Hch as [_ Hch]. pose proof Hch as [((pg & Hpgm & Hn) & _) _].
      cbn [fst snd] in Hpgm, Hn. unfold or_stop at 1. apply read_leaf_of_node in Hn.
      rewrite (run_Ok _ _ _ _ _ (on_pager_run _ p rp v _ _ (pi_read_law p m pid2 pg Hst Hpgm))), Hn. unfold lift at 1.
      rewrite (IH width pid2 el2 (acc ++ map snd ei) Hch Hpg Hgr Hsr ltac:(lia)). by rewrite <-app_assoc.
    + rewrite (filter_none in_range (concat _)); [by rewrite app_nil_r|]. apply Forall_inv in Hp. apply Forall_forall. intros y Hy [_ Hny].
      apply Hny. eapply past_mono; [exact Hp|]. apply (ord_le K u), Hx; (apply list_elem_of_In, in_map, list_elem_of_In); set_solver.
Qed.
Lemma range_spec b m h ps es depth width : u = true → is_index b m h ps es → (h <= depth)%nat → (length ps <= width)%nat →
  ∃ b', range depth width lo hi inclusive b = (Ok (map snd (filter in_range es)), b') ∧ is_index b' m h ps es ∧ b'.(bt_pager) = b.(bt_pager).
Proof.
  intros Hu Hix Hd Hw. pose proof Hix as [Hst Hpg (tr & Hrp & Hs & Ho & -> & -> & Hv)].
  destruct b as [p rp v]. cbn [bt_pager bt_root_pid bt_root_view] in *. subst rp.
  unfold range, py_gt. rewrite (py_lt_key K) by done. unfold or_stop at 1, lift at 1. case_bool_decide as Hlt.
  { eexists. split; [|by split; [exact Hix|]]. rewrite (filter_none in_range (entries tr)); [done|]. apply Forall_forall. intros e _ [Hl Hp]. apply Hp. unfold past.
    apply key_le_not_lt in Hl. destruct inclusive; [by eapply key_lt_le_trans|]. apply key_lt_le. by eapply key_lt_le_trans. }
  destruct (descend_spec h NO_NEXT None None tr depth lo p m (root_of tr) (Some (node_of NO_NEXT tr)) Hst Hs Ho lo_key Hd)
    as (l1 & pid & el & l2 & Hlv & Hde & Hb1 & _).
  destruct (around h tr l1 pid el l2 Ho Hlv) as (He & _ & Hs2 & _ & Hg & _).
  destruct (chain_stored m h NO_NEXT None None tr Hs Ho) as (Hch & _ & _). rewrite Hlv in Hch. apply linked_app in Hch as [_ Hch].
  exists (index p (root_of tr) (Some (node_of NO_NEXT tr))). split_and!; [| |done].
  - unfold or_stop at 1. rewrite (run_Ok _ _ _ _ _ (ensure_loaded_run p m h tr v Hst Hs Hv)), Hde.
    rewrite (walk_spec _ m p _ _ Hst l2 width pid el [] Hch); [| |done|done|].
    + rewrite He, !filter_app, (filter_none in_range (concat (map snd l1))); [done|]. rewrite Hu in Hb1. eapply Forall_impl; [exact Hb1|]. by intros e ? [? _].
    + destruct Hpg as [_ Hpg]. apply Forall_forall. intros x Hx. rewrite Forall_forall in Hpg. apply Hpg, leaves_pids.
      rewrite Hlv, map_app. set_solver.
    + pose proof (leaves_length h tr) as Hl. rewrite Hlv, length_app in Hl. cbn [length] in Hl. lia.
  - split; [done|done|]. exists tr. cbn [bt_root_pid bt_root_view]. split_and!; try done. by right.
Qed.
End Range.

(** * The index refines a sorted list of entries *)

Inductive ix_op := IxInsert (key : pyval) (rid : Rid) | IxSearch (key : pyval) | IxRange (lo hi : pyval) (inclusive : bool).
Definition ix_exec (fuel : nat) (op : ix_op) : M (BTreeIndex P) (list Rid) :=
  match op with
  | IxInsert key rid => BTree.insert t fuel key rid;; mret []
  | IxSearch key => search fuel key
  | IxRange lo hi inclusive => range fuel fuel lo hi inclusive
  end.
Fixpoint ix_run (fuel : nat) (ops : list ix_op) : M (BTreeIndex P) (list (list Rid)) :=
  match ops with
  | [] => mret []
  | op :: ops => rids ← ix_exec fuel op; rest ← ix_run fuel ops; mret (rids :: rest)
  end.
(** The same on the entries *)
Definition ix_spec (op : ix_op) (es : list entry) : list Rid * list entry :=
  match op with
  | IxInsert key rid => ([], ins (key, rid) es)
  | IxSearch key => (map snd (filter (BTreeSpec.in_range K key key true) es), es)
  | IxRange lo hi inclusive => (map snd (filter (BTreeSpec.in_range K lo hi inclusive) es), es)
  end.
Fixpoint ix_specs (ops : list ix_op) (es : list entry) : list (list Rid) * list entry :=
  match ops with
  | [] => ([], es)
  | op :: ops => let '(rids, es) := ix_spec op es in let '(rest, es) := ix_specs ops es in (rids :: rest, es)
  end.
Definition ix_pre (op : ix_op) (es : list entry) : Prop :=
  match op with
  | IxInsert key rid => good key ∧ rid_ok rid ∧ key ∉ map fst es
  | IxSearch key => K key
  | IxRange lo hi _ => K lo ∧ K hi ∧ as_tuple hi = None
  end.
Fixpoint ix_pres (ops : list ix_op) (es : list entry) : Prop :=
  match ops with
  | [] => True
  | op :: ops => ix_pre op es ∧ ix_pres ops (ix_spec op es).2
  end.

Section Refines.
Context (unique : u = true) (wmin_nonneg : 0 <= wmin).
Context (leaf_halves : (NODE_ROOM / (wmin + 8) + 2) / 2 * (wmax + 8) <= NODE_ROOM).
Context (internal_halves : (NODE_ROOM / (wmin + 6) + 1) / 2 * (wmax + 6) <= NODE_ROOM).

Lemma ix_exec_refines b m h ps es op r fuel : is_index b m h ps es → ix_pre op es → rooms (S (S h) + r) b.(bt_pager) →
  (h + length ps <= fuel)%nat →
  ∃ b' m' h' ps', ix_exec fuel op b = (Ok (ix_spec op es).1, b') ∧ is_index b' m' h' ps' (ix_spec op es).2 ∧
    (h' <= S h)%nat ∧ rooms r b'.(bt_pager) ∧ (length ps' <= length ps + S (S h))%nat.
Proof.
  intros Hix Hpre Hr Hf. destruct op as [key rid|key|lo hi inclusive]; cbn [ix_pre ix_exec ix_spec fst snd] in *.
  - destruct Hpre as (Hg & Hrid & Hne).
    destruct (insert_spec wmin_nonneg leaf_halves internal_halves b m h ps es key rid fuel r) as (b' & m' & h' & ps' & Hx & Hix' & Hh & Hr' & Hl & _); try done; [lia|].
    exists b', m', h', ps'. by rewrite (run_Ok _ _ _ _ _ Hx).
  - destruct (search_spec b m h ps es key fuel unique Hix Hpre ltac:(lia)) as (rids & b' & Hx & Hix' & -> & Hp).
    exists b', m, h, ps. split_and!; [done|done|lia| |lia]. rewrite Hp. apply (rooms_mono _ (S (S h) + r)); [done|lia].
  - destruct Hpre as (Hlo & Hhi & Hflat).
    destruct (range_spec lo hi inclusive Hlo Hhi Hflat b m h ps es fuel fuel unique Hix ltac:(lia) ltac:(lia)) as (b' & Hx & Hix' & Hp).
    exists b', m, h, ps. split_and!; [done|done|lia| |lia]. rewrite Hp. apply (rooms_mono _ (S (S h) + r)); [done|lia].
Qed.
(** The pages that [n] operations on a tree of height [h] can need *)
Fixpoint pages_for (h n : nat) : nat := match n with O => O | S n => S (S h) + pages_for (S h) n end.
Lemma pages_for_mono n : ∀ h h', (h <= h')%nat → (pages_for h n <= pages_for h' n)%nat.
Proof. induction n as [|n IH]; intros h h' Hh; [done|]. cbn [pages_for]. specialize (IH (S h) (S h') ltac:(lia)). lia. Qed.
End Refines.
End Index.
