(* ===== verification/BTreeDemo.v ===== *)
(** Concrete B-trees over a page file: an index that serves a sequence of
    operations, and runs in which the code loses or repeats entries. *)
From S2P Require Import Prelude.
From S2P Require Import Bytes.
From S2P Require Import TypeSys.
From S2P Require Import Codec.
From S2P Require Import Pager.
From S2P Require Import BufferPool.
From S2P Require Import Heap.
From S2P Require Import PyOrder.
From S2P Require Import BTreeNode.
From S2P Require Import BTree.
From S2P Require Import BTreeSpec.
From S2P Require Import BTreeInsert.
From S2P Require Import BTreeIndex.
From stdpp Require Import sorting.
From Stdlib Require Import ZArith Lia.
Local Open Scope Z_scope.

#[local] Existing Instance letters_json.
#[local] Existing Instance letters_json_laws.

(** * A new index: a page of zeros is an empty leaf *)

Lemma zero_leaf : node_of_page zero_page = Ok (Leaf (mkLeaf [] [] NO_NEXT)).
Proof. vm_compute. reflexivity. Qed.
Lemma empty_index {P : Type} {stores : P → gmap Z bytes → Prop} `{PagerLaws P stores} t K `{OrderedKeys K} wmin wmax u p m pid :
  stores p m → m !! pid = Some zero_page → page_ok pid →
  is_index (stores := stores) t K wmin wmax u (mkBTree p pid None) m 0 [pid] [].
Proof.
  intros Hst Hm Hp. split; [done|split; [apply NoDup_singleton|by apply list.Forall_singleton]|].
  exists ((pid, []) : btree 0). split_and!; try done.
  - split_and!; [exists zero_page; split; [exact Hm|exact zero_leaf]|by split_and!|]. vm_compute. discriminate.
  - by repeat constructor.
  - by left.
Qed.

(** * Keys of integers *)

Lemma int_key_ok k : is_int_key k → key_ok Int k.
Proof. by destruct k. Qed.
Definition demo_index : BTreeIndex Pager := mkBTree fresh_pager 1 None.
Definition demo_ops : list ix_op :=
  [IxInsert (PyInt 30) (mkRid 7 0); IxInsert (PyInt (-5)) (mkRid 7 1); IxInsert (PyInt 12) (mkRid 8 0);
   IxSearch (PyInt 12); IxSearch (PyInt 13); IxRange (PyInt (-5)) (PyInt 30) false].
Lemma demo_is_index : is_index (stores := pager_stores) Int is_int_key 9 9 true demo_index demo_pages 0 [1] [].
Proof. apply empty_index; [exact demo_stores|by vm_compute|by split]. Qed.
Lemma demo_pres : ix_pres Int is_int_key 9 9 demo_ops [].
Proof.
  cbn. unfold good, encodable, rid_ok. cbn. split_and!; try done; try (vm_compute; congruence).
  all: rewrite ?decide_True by done; cbn; rewrite ?not_elem_of_cons; split_and?; try done; apply not_elem_of_nil.
Qed.

Definition demo_leaf : LeafNode := mkLeaf [PyInt 3; PyInt 8] [mkRid 1 0; mkRid 2 5] NO_NEXT.
Lemma node_write_read_witness : ∃ p', fst (write_node Int 2 (Leaf demo_leaf) demo_index) = Ok () ∧
  on_pager (_read_node_view 2) (mkBTree p' 1 None) = (Ok (Leaf demo_leaf), mkBTree p' 1 None).
Proof.
  pose proof (node_write_read (stores := pager_stores) (rooms := pager_rooms) Int 2 (Leaf demo_leaf) fresh_pager demo_pages 1 None 5 demo_stores) as Hw.
  rewrite decide_True in Hw by (vm_compute; discriminate).
  destruct Hw as (p' & m' & Hx & _ & Hr & _).
  - vm_compute. reflexivity.
  - vm_compute. by eexists.
  - unfold wf_node, wf_leaf, demo_leaf, NO_NEXT. cbn [lf_keys lf_rids lf_next].
    split_and!; [done|by vm_compute| | | |done|done]; repeat (apply Forall_cons; split); try apply Forall_nil; try done.
    all: by split; vm_compute.
  - exists p'. unfold demo_index. rewrite Hx. split; [done|exact Hr].
Defined.

(** * Runs that lose or repeat entries *)

Definition wide_key (c : Z) (w : nat) : pyval := PyStr (c :: replicate w 97).
Definition entry_rid (n : Z) : Rid := mkRid n 0.
Fixpoint insert_all (l : list (Z * Z)) : M (BTreeIndex Pager) unit :=
  match l with
  | [] => mret ()
  | (k, r) :: l => BTree.insert Text 10 (wide_key k 1000) (entry_rid r);; insert_all l
  end.
Definition all_rids : M (BTreeIndex Pager) (list Rid) := range 10 10 (wide_key 0 0) (wide_key 100 0) true.
(** The rids of the entries with the keys 65, 66, ... *)
Definition five : BTreeIndex Pager := (insert_all [(65, 1); (66, 2); (67, 3); (68, 4); (69, 5)] demo_index).2.
Example five_splits : fst (all_rids five) = Ok (map entry_rid [1; 2; 3; 4; 5]) ∧ five.(bt_root_pid) ≠ demo_index.(bt_root_pid).
Proof. vm_compute. done. Qed.
(** The root moved to a new page, of which the catalog does not learn: from
    the page where the index began, a search reaches the left half only. *)
Example reopened_loses_the_right_half :
  fst (all_rids (mkBTree five.(bt_pager) demo_index.(bt_root_pid) None)) = Ok (map entry_rid [1; 2; 3; 4; 5]) ∧
  fst (search 10 (wide_key 69 1000) (mkBTree five.(bt_pager) demo_index.(bt_root_pid) None)) = Ok [].
Proof. vm_compute. done. Qed.
(** Equal keys in two leaves: [search] starts from the last of them. *)
Definition five_equal : BTreeIndex Pager := (insert_all [(65, 1); (65, 2); (65, 3); (65, 4); (65, 5)] demo_index).2.
Example search_misses_duplicates : fst (search 10 (wide_key 65 1000) five_equal) = Ok (map entry_rid [3; 4; 5]) ∧
  fst (range 10 10 (wide_key 65 1000) (wide_key 65 1000) true five_equal) = Ok (map entry_rid [3; 4; 5]).
Proof. vm_compute. done. Qed.
(** A merge empties no leaf: the left neighbour still links to the leaf that
    was merged away, whose entries a scan yields again. *)
Definition seven : BTreeIndex Pager := (insert_all [(65, 1); (66, 2); (67, 3); (68, 4); (69, 5); (70, 6); (71, 7)] demo_index).2.
Example merge_repeats_entries : fst (BTree.delete Text 10 (wide_key 71 1000) (entry_rid 7) seven) = Ok () ∧
  fst (all_rids seven) = Ok (map entry_rid [1; 2; 3; 4; 5; 6; 7]) ∧
  fst (all_rids (BTree.delete Text 10 (wide_key 71 1000) (entry_rid 7) seven).2) = Ok (map entry_rid [1; 2; 3; 4; 3; 4; 5; 6]).
Proof. vm_compute. done. Qed.
Example merge_keeps_deleted_entry :
  fst (all_rids (BTree.delete Text 10 (wide_key 67 1000) (entry_rid 3) seven).2) = Ok (map entry_rid [1; 2; 4; 4; 5; 6; 7]).
Proof. vm_compute. done. Qed.
(** Wide keys leave fewer than 63 entries in every leaf, so each deletion
    merges; two leaves with four entries do not fit in one. *)
Definition eight : BTreeIndex Pager :=
  (insert_all [(65, 1); (66, 2); (67, 3); (68, 4); (69, 5); (60, 6); (61, 7); (70, 8)] demo_index).2.
Example delete_overflows : fst (BTree.delete Text 10 (wide_key 60 1000) (entry_rid 6) eight) = Err BTreeOverflowError.
Proof. vm_compute. done. Qed.
(** An inner node that borrows a child from the right: the separator of the
    parent (1000) should come down with it, and 1010 go up.  Instead 1010 comes
    down and 1020 goes up, so that the keys from 1000 to 1009, which are in the
    borrowed child 100, are looked for in child 51. *)
Definition ints (l : list Z) : list pyval := map PyInt l.
Definition borrow_parent : InternalNode := mkInternal (ints [1000]) [2; 3].
Definition borrow_child : InternalNode := mkInternal (ints [10]) [50; 51].
Definition borrow_sibling : InternalNode :=
  mkInternal (ints (map (λ i, 1010 + 10 * Z.of_nat i) (seq 0 64))) (map (λ i, 100 + Z.of_nat i) (seq 0 65)).
Definition borrow_start : BTreeIndex Pager :=
  ((write_node Int 1 (Internal borrow_parent);; write_node Int 2 (Internal borrow_child);; write_node Int 3 (Internal borrow_sibling))
    demo_index).2.
Example borrow_misplaces_separator :
  fst (borrow_from_sibling Int false 1 borrow_parent 0 false borrow_start) = Ok (Some (mkInternal (ints [1020]) [2; 3])) ∧
  fst (on_pager (_read_node_view 2) (borrow_from_sibling Int false 1 borrow_parent 0 false borrow_start).2) =
    Ok (Internal (mkInternal (ints [10; 1010]) [50; 51; 100])).
Proof. vm_compute. done. Qed.
