(* ===== verification/PyDict.v ===== *)
(** The insertion-ordered dict of Python, and its set of keys: the maps that
    the catalog, the index manager and the executor keep. *)
From S2P Require Import Prelude.
From Stdlib Require Import ZArith Lia.
Local Open Scope Z_scope.

Section Dict.
Context {K V : Type} `{EqDecision K}.
Abbreviation dict := (list (K * V)).
Implicit Types (d : dict) (k : K) (v : V).

(** [d.get(k)] *)
Fixpoint dget k d : option V :=
  match d with
  | [] => None
  | (k', v) :: d => if decide (k = k') then Some v else dget k d
  end.
(** [d[k] = v]: a key that is there keeps its place *)
Fixpoint dset k v d : dict :=
  match d with
  | [] => [(k, v)]
  | (k', v') :: d => if decide (k = k') then (k, v) :: d else (k', v') :: dset k v d
  end.
(** [d.pop(k, None)] *)
Fixpoint ddel k d : dict :=
  match d with
  | [] => []
  | (k', v') :: d => if decide (k = k') then d else (k', v') :: ddel k d
  end.
(** [k in d] *)
Definition dmem k d : bool := bool_decide (is_Some (dget k d)).
(** [d.setdefault(k, v)], the new dict *)
Definition dset_new k v d : dict := if dmem k d then d else dset k v d.
(** The dict of a comprehension or of a loop of assignments *)
Definition dict_of (l : list (K * V)) : dict := foldl (λ d kv, dset kv.1 kv.2 d) [] l.

Lemma dget_dset k k' v d : dget k' (dset k v d) = if decide (k' = k) then Some v else dget k' d.
Proof.
  induction d as [|[k0 v0] d IH]; cbn; [done|].
  repeat case_decide; cbn; repeat case_decide; congruence.
Qed.
Lemma dset_keys k v d x : x ∈ map fst (dset k v d) ↔ x = k ∨ x ∈ map fst d.
Proof.
  induction d as [|[k0 v0] d IH]; cbn; [set_solver|]. case_decide; cbn; [subst|]; set_solver.
Qed.
Lemma dset_nodup k v d : NoDup (map fst d) → NoDup (map fst (dset k v d)).
Proof.
  induction d as [|[k0 v0] d IH]; cbn; [intros _; apply NoDup_singleton|].
  rewrite NoDup_cons. intros [Hn Hd]. case_decide; cbn; [by subst; apply NoDup_cons|].
  apply NoDup_cons. split; [|by apply IH]. rewrite dset_keys. naive_solver.
Qed.
Lemma dset_absent k v d : dget k d = None → dset k v d = d ++ [(k, v)].
Proof. induction d as [|[k0 v0] d IH]; cbn; [done|]. case_decide; [done|]. intros H'. by rewrite IH. Qed.
Lemma dset_absent' k v d : k ∉ map fst d → dset k v d = d ++ [(k, v)].
Proof.
  intros Hk. apply dset_absent. induction d as [|[k0 v0] d IH]; [done|]. cbn in *. rewrite not_elem_of_cons in Hk.
  destruct Hk as [Hk Hd]. case_decide; [done|]. by apply IH.
Qed.
Lemma dget_elem k v d : NoDup (map fst d) → dget k d = Some v ↔ (k, v) ∈ d.
Proof.
  induction d as [|[k0 v0] d IH]; cbn; [set_solver|]. rewrite NoDup_cons. intros [Hn Hd]. case_decide as E; [subst|].
  - rewrite elem_of_cons. split; [intros [= ->]; by left|]. intros [[= ->]|Hin]; [done|]. exfalso. apply Hn.
    apply list_elem_of_fmap. by exists (k0, v).
  - rewrite IH, elem_of_cons by done. naive_solver.
Qed.
Lemma dget_in k v d : dget k d = Some v → (k, v) ∈ d.
Proof.
  induction d as [|[k0 v0] d IH]; cbn; [done|]. case_decide; [intros [= <-]; subst; by left|]. intros Hd. right. by apply IH.
Qed.
Lemma dget_None k d : dget k d = None ↔ k ∉ map fst d.
Proof. induction d as [|[k0 v0] d IH]; cbn; [set_solver|]. case_decide; set_solver. Qed.
Lemma dget_is_Some k d : is_Some (dget k d) ↔ k ∈ map fst d.
Proof. rewrite <-not_eq_None_Some, dget_None. split; [|tauto]. intros Hn. destruct (decide (k ∈ map fst d)); [done|tauto]. Qed.
Lemma dget_ddel k k' d : NoDup (map fst d) → dget k' (ddel k d) = if decide (k' = k) then None else dget k' d.
Proof.
  induction d as [|[k0 v0] d IH]; cbn; [by case_decide|]. rewrite NoDup_cons. intros [Hn Hd].
  destruct (decide (k = k0)) as [<-|E]; cbn.
  - destruct (decide (k' = k)) as [->|]; [|done]. by apply dget_None.
  - destruct (decide (k' = k0)) as [->|]; [by rewrite decide_False|by apply IH].
Qed.
Lemma ddel_keys k d x : x ∈ map fst (ddel k d) → x ∈ map fst d.
Proof. induction d as [|[k0 v0] d IH]; cbn; [done|]. case_decide; cbn; set_solver. Qed.
Lemma ddel_nodup k d : NoDup (map fst d) → NoDup (map fst (ddel k d)).
Proof.
  induction d as [|[k0 v0] d IH]; cbn; [done|]. rewrite NoDup_cons. intros [Hn Hd]. case_decide; [done|]. cbn.
  apply NoDup_cons. split; [|by apply IH]. intros Hk. by apply Hn, (ddel_keys k).
Qed.
Lemma dict_of_snoc l k v : dict_of (l ++ [(k, v)]) = dset k v (dict_of l).
Proof. unfold dict_of. by rewrite foldl_app. Qed.
Lemma dict_of_nodup l : NoDup (map fst (dict_of l)).
Proof.
  induction l as [|[k v] l IH] using rev_ind; [constructor|]. rewrite dict_of_snoc. by apply dset_nodup.
Qed.
(** With distinct keys the dict is the list *)
Lemma dict_of_id l : NoDup (map fst l) → dict_of l = l.
Proof.
  induction l as [|[k v] l IH] using rev_ind; [done|]. rewrite map_app, dict_of_snoc. intros (Hl & Hd & _)%NoDup_app.
  rewrite IH by done. apply dset_absent'. intros Hk. apply (Hd k Hk). by left.
Qed.
Lemma dget_dict_of_snoc l k v k' : dget k' (dict_of (l ++ [(k, v)])) = if decide (k' = k) then Some v else dget k' (dict_of l).
Proof. by rewrite dict_of_snoc, dget_dset. Qed.
End Dict.
