(* ===== verification/EvalExpr.v ===== *)
(** Component [executor/eval_expr.py]: the value of an expression on a row; and
    the arithmetic of Python values that it uses. *)
From S2P Require Import Prelude.
From S2P Require Import Bytes.
From S2P Require Import Utf8.
From S2P Require Import Text.
From S2P Require Import Float64.
From S2P Require Import TypeSys.
From S2P Require Import PyConv.
From S2P Require Import PyOrder.
From S2P Require Import PyDict.
From S2P Require Import Ast.
From Stdlib Require Import ZArith Lia.
Local Open Scope Z_scope.

(** A row, and [{column: position}] *)
Abbreviation row := (list pyval).
Abbreviation n2i := (list (pystr * nat)).

(** * Arithmetic *)

Inductive arith := Add | Sub | Mul | Div.
(** [a op b] where an operand is a Decimal, a date, a time, a datetime or a set *)
Class ArithLib := { arith_other : arith → pyval → pyval → result pyval }.

Definition as_int (v : pyval) : option Z :=
  match v with PyInt z => Some z | PyBool b => Some (Z.b2z b) | _ => None end.
Definition as_float (v : pyval) : option (result Z) :=
  match v with PyFloat w => Some (Ok w) | _ => float_of_Z <$> as_int v end.
Definition is_lib_operand (v : pyval) : bool :=
  match v with PyDecimal _ | PyDate _ | PyTime _ _ _ _ | PyDatetime _ _ | PySet _ => true | _ => false end.

Definition int_arith (op : arith) (x y : Z) : result pyval :=
  match op with
  | Add => Ok (PyInt (x + y))
  | Sub => Ok (PyInt (x - y))
  | Mul => Ok (PyInt (x * y))
  | Div => if y =? 0 then Err ZeroDivisionError else
           match true_div x y with S754_infinity _ => Err OverflowError | q => Ok (PyFloat (bits_of_sf q)) end
  end.
Definition float_arith (op : arith) (w w' : Z) : result pyval :=
  let x := sf_of_bits w in
  let y := sf_of_bits w' in
  match op with
  | Add => Ok (PyFloat (bits_of_sf (SFadd prec emax x y)))
  | Sub => Ok (PyFloat (bits_of_sf (SFsub prec emax x y)))
  | Mul => Ok (PyFloat (bits_of_sf (SFmul prec emax x y)))
  | Div => match y with
           | S754_zero _ => Err ZeroDivisionError
           | _ => Ok (PyFloat (bits_of_sf (SFdiv prec emax x y)))
           end
  end.
Definition repeated {A} (n : Z) (l : list A) : list A := concat (replicate (Z.to_nat n) l).
(** Concatenation and repetition *)
Definition seq_arith (op : arith) (a b : pyval) : result pyval :=
  match op, a, b with
  | Add, PyStr s, PyStr s' => Ok (PyStr (s ++ s'))
  | Add, PyBytes l, (PyBytes l' | PyBytearray l') => Ok (PyBytes (l ++ l'))
  | Add, PyBytearray l, (PyBytes l' | PyBytearray l') => Ok (PyBytearray (l ++ l'))
  | Add, PyList l, PyList l' => Ok (PyList (l ++ l'))
  | Add, PyTuple l, PyTuple l' => Ok (PyTuple (l ++ l'))
  | Mul, _, _ =>
      let rep n v := match v with
        | PyStr s => Ok (PyStr (repeated n s))
        | PyBytes l => Ok (PyBytes (repeated n l))
        | PyBytearray l => Ok (PyBytearray (repeated n l))
        | PyList l => Ok (PyList (repeated n l))
        | PyTuple l => Ok (PyTuple (repeated n l))
        | _ => Err TypeError
        end in
      match as_int a, as_int b with
      | Some n, _ => rep n b
      | _, Some n => rep n a
      | None, None => Err TypeError
      end
  | _, _, _ => Err TypeError
  end.
Definition py_arith `{ArithLib} (op : arith) (a b : pyval) : result pyval :=
  if is_lib_operand a || is_lib_operand b then arith_other op a b else
  match as_int a, as_int b with
  | Some x, Some y => int_arith op x y
  | _, _ =>
      match as_float a, as_float b with
      | Some x, Some y => x ← x; y ← y; float_arith op x y
      | _, _ => seq_arith op a b
      end
  end.

(** [a == b], with the [InvalidOperation] of a signalling NaN *)
Definition py_eq_checked (a b : pyval) : result bool :=
  let number v := match number_of v with Some _ => true | None => false end in
  if (is_snan a && number b) || (is_snan b && number a) then Err DecimalError else Ok (py_eq a b).

(** * Evaluation *)

(** [f"{table}.{name}"] *)
Definition qualified (table name : pystr) : pystr := table ++ 46 :: name.
(** [row[i]] of a position *)
Definition cell (r : row) (i : nat) : result pyval := of_option IndexError (r !! i).

Definition _truthy (v : pyval) : bool := py_truth v.

(** [a is b] when one of them is [None] *)
Definition _eq (a b : pyval) : result bool :=
  match a, b with
  | PyNone, PyNone => Ok true
  | PyNone, _ | _, PyNone => Ok false
  | _, _ => py_eq_checked a b
  end.

Section Eval.
Context `{ArithLib}.

(** The operands are the outcomes of their evaluation, the left one first *)
Definition _eval_binary (op : pystr) (lhs rhs : result pyval) : result pyval :=
  if bool_decide (op = u "AND") then
    l ← lhs; if negb (_truthy l) then Ok l else rhs
  else if bool_decide (op = u "OR") then
    l ← lhs; if _truthy l then Ok l else rhs
  else
    l ← lhs;
    r ← rhs;
    if bool_decide (op = u "=") then PyBool <$> _eq l r
    else if bool_decide (op = u "!=") then (PyBool ∘ negb) <$> _eq l r
    else match l, r with
    | PyNone, _ | _, PyNone => Ok PyNone
    | _, _ =>
        if bool_decide (op = u "<") then PyBool <$> py_lt l r
        else if bool_decide (op = u "<=") then PyBool <$> py_le l r
        else if bool_decide (op = u ">") then PyBool <$> py_gt l r
        else if bool_decide (op = u ">=") then PyBool <$> py_ge l r
        else if bool_decide (op = u "+") then py_arith Add l r
        else if bool_decide (op = u "-") then py_arith Sub l r
        else if bool_decide (op = u "*") then py_arith Mul l r
        else if bool_decide (op = u "/") then py_arith Div l r
        else Err NotImplementedError
    end.
Definition is_none (v : pyval) : bool := match v with PyNone => true | _ => false end.
Definition _eval_unary (op : pystr) (operand : result pyval) : result pyval :=
  if bool_decide (op = u "IS NULL") then (PyBool ∘ is_none) <$> operand
  else if bool_decide (op = u "IS NOT NULL") then (PyBool ∘ negb ∘ is_none) <$> operand
  else if bool_decide (op = u "NOT") then (PyBool ∘ negb ∘ _truthy) <$> operand
  else Err NotImplementedError.

(** The qualified name first, when the map has it *)
Definition eval_column (name : pystr) (table : option pystr) (r : row) (idx : n2i) : result pyval :=
  match table ≫= λ t, dget (qualified t name) idx with
  | Some i => cell r i
  | None => i ← of_option UnknownColumnError (dget name idx); cell r i
  end.
Fixpoint eval_expr (e : expr) (r : row) (idx : n2i) : result pyval :=
  match e with
  | Literal v | TypedLiteral _ v => Ok v
  | ColumnRef name table => eval_column name table r idx
  | BinaryOp op lhs rhs => _eval_binary op (eval_expr lhs r idx) (eval_expr rhs r idx)
  | UnaryOp op operand => _eval_unary op (eval_expr operand r idx)
  end.

(** * What evaluation depends on *)

(** The columns of an expression *)
Fixpoint columns_of (e : expr) : list (option pystr * pystr) :=
  match e with
  | Literal _ | TypedLiteral _ _ => []
  | ColumnRef name table => [(table, name)]
  | BinaryOp _ lhs rhs => columns_of lhs ++ columns_of rhs
  | UnaryOp _ operand => columns_of operand
  end.
Lemma eval_expr_ext e r r' idx idx' :
  (∀ t c, (t, c) ∈ columns_of e → eval_column c t r idx = eval_column c t r' idx') →
  eval_expr e r idx = eval_expr e r' idx'.
Proof.
  induction e as [v|name table|op left IHl right IHr|op x IH|tag v]; cbn [eval_expr columns_of]; intros Hc; [done| | | |done].
  - apply Hc. by left.
  - rewrite IHl, IHr; [done| |]; intros t c Hin; apply Hc, elem_of_app; auto.
  - by rewrite IH.
Qed.

(** The position that [eval_column] reads *)
Definition slot_of (idx : n2i) (t : option pystr) (c : pystr) : option nat :=
  match t ≫= λ t, dget (qualified t c) idx with Some i => Some i | None => dget c idx end.
Lemma eval_column_slot c t r idx i v : slot_of idx t c = Some i → r !! i = Some v → eval_column c t r idx = Ok v.
Proof.
  unfold slot_of, eval_column, cell. destruct (t ≫= _) as [j|].
  - intros [= ->] Hv. by rewrite Hv.
  - intros -> Hv. cbn. by rewrite Hv.
Qed.
Lemma eval_column_slots c t r r' idx idx' : (slot_of idx t c ≫= λ i, r !! i) = (slot_of idx' t c ≫= λ i, r' !! i) →
  is_Some (slot_of idx t c ≫= λ i, r !! i) → eval_column c t r idx = eval_column c t r' idx'.
Proof.
  intros He [v Hv]. pose proof Hv as Hv'. rewrite He in Hv'.
  destruct (slot_of idx t c) as [i|] eqn:Hi; [|done]. destruct (slot_of idx' t c) as [i'|] eqn:Hi'; [|done].
  by rewrite (eval_column_slot c t r idx i v), (eval_column_slot c t r' idx' i' v).
Qed.
End Eval.
