(* ===== verification/Catalog.v ===== *)
(** Component [storage/catalog.py]: the registry of tables and indexes, in
    memory and on the pages 1 and 2. *)
From S2P Require Import Prelude.
From S2P Require Import Bytes.
From S2P Require Import Utf8.
From S2P Require Import Text.
From S2P Require Import TypeSys.
From S2P Require Import PyConv.
From S2P Require Import PyOrder.
From S2P Require Import PyDict.
From S2P Require Import Pager.
From S2P Require Import BufferPool.
From S2P Require Import Heap.
From stdpp Require Import sorting.
From Stdlib Require Import ZArith Lia.
Local Open Scope Z_scope.

Definition CATALOG_PAGE : Z := 1.
Definition INDEX_CATALOG_PAGE : Z := 2.
Definition CATALOG_HEADER_SIZE : Z := 12.
Definition CATALOG_MAGIC : bytes := [x43; x41; x54; x4c].

Record TableMeta := mkTableMeta {
  tm_table_id : Z;
  tm_name : pystr;
  tm_columns : list Column;
  tm_heap_pid : Z;
}.
Record IndexMeta := mkIndexMeta {
  im_name : pystr;
  im_table : pystr;
  im_columns : list pystr;
  im_root_pid : Z;
  im_unique : bool;
}.
Global Instance TableMeta_eq_dec : EqDecision TableMeta.
Proof. solve_decision. Defined.
Global Instance IndexMeta_eq_dec : EqDecision IndexMeta.
Proof. solve_decision. Defined.

(** [json.dumps(payload, separators=(",", ":"))] and [json.loads] *)
Class MetaJson := {
  meta_dumps : pyval → result pystr;
  meta_loads : pystr → result pyval;
}.
(** The values that JSON gives back as they were *)
Fixpoint json_plain (v : pyval) : bool :=
  match v with
  | PyNone | PyBool _ | PyInt _ => true
  | PyStr s => forallb scalar s
  | PyList l => forallb json_plain l
  | PyDict l => forallb (λ kv, match kv.1 with PyStr s => forallb scalar s | _ => false end && json_plain kv.2) l &&
                bool_decide (NoDup (map (λ kv, match kv.1 with PyStr s => s | _ => [] end) l))
  | _ => false
  end.
(** [json.dumps] writes ASCII, and [json.loads] reads it back *)
Class MetaJsonLaws `{MetaJson} : Prop := {
  meta_loads_dumps v : json_plain v = true →
    ∃ s, meta_dumps v = Ok s ∧ Forall (λ c, 32 <= c < 127) s ∧ s ≠ [] ∧ meta_loads s = Ok v;
}.

(** * Entries *)

(** [d[k]] and [d.get(k, default)] of a value read from JSON *)
Fixpoint dict_find (k : pystr) (l : list (pyval * pyval)) : option pyval :=
  match l with
  | [] => None
  | (PyStr k', v) :: l => if decide (k = k') then Some v else dict_find k l
  | _ :: l => dict_find k l
  end.
Definition item (d : pyval) (k : pystr) : result pyval :=
  match d with PyDict l => of_option KeyError (dict_find k l) | _ => Err TypeError end.
Definition item_or (d : pyval) (k : pystr) (v : pyval) : result pyval :=
  match d with PyDict l => Ok (default v (dict_find k l)) | _ => Err AttributeError end.
(** [TypeTag(v)] of a value: the member equal to it *)
Definition tag_of_value (v : pyval) : result TypeTag :=
  of_option ValueError (snd <$> list_find (λ t, py_eq (PyInt (tag_value t)) v = true) all_tags).
(** A name or column that is no text, which [_persist] never writes, is a
    [TypeError] here; Python would keep it. *)
Definition text_of (v : pyval) : result pystr := match v with PyStr s => Ok s | _ => Err TypeError end.
(** The values that a [for] loop over a value read from JSON sees *)
Definition loop_values (v : pyval) : result (list pyval) :=
  match v with
  | PyList l => Ok l
  | PyStr s => Ok (map (λ c, PyStr [c]) s)
  | PyDict l => Ok (map fst l)
  | _ => Err TypeError
  end.

Section Entries.
Context `{MetaJson} `{PyConv}.

Definition _column_to_dict (c : Column) : pyval :=
  PyDict [ (PyStr (u "name"), PyStr c.(col_name));
           (PyStr (u "tag"), PyInt (tag_value c.(col_tag)));
           (PyStr (u "not_null"), PyBool c.(col_not_null));
           (PyStr (u "primary_key"), PyBool c.(col_primary_key));
           (PyStr (u "unique"), PyBool c.(col_unique)) ].
Definition _column_from_dict (d : pyval) : result Column :=
  name ← item d (u "name");
  tag ← item d (u "tag");
  tag ← tag_of_value tag;
  not_null ← item_or d (u "not_null") (PyBool false);
  primary_key ← item_or d (u "primary_key") (PyBool false);
  unique ← item_or d (u "unique") (PyBool false);
  name ← text_of name;
  Ok (mkColumn name tag (py_truth not_null) (py_truth primary_key) (py_truth unique)).

Definition meta_payload (m : TableMeta) : pyval :=
  PyDict [ (PyStr (u "table_id"), PyInt m.(tm_table_id));
           (PyStr (u "name"), PyStr m.(tm_name));
           (PyStr (u "heap_pid"), PyInt m.(tm_heap_pid));
           (PyStr (u "columns"), PyList (map _column_to_dict m.(tm_columns))) ].
Definition _serialize_meta (m : TableMeta) : result bytes :=
  text ← meta_dumps (meta_payload m); utf8_encode text.
Definition _deserialize_meta (blob : bytes) : result TableMeta :=
  text ← utf8_decode blob;
  d ← meta_loads text;
  table_id ← item d (u "table_id");
  table_id ← py_int table_id;
  name ← item d (u "name");
  columns ← item_or d (u "columns") (PyList []);
  columns ← loop_values columns;
  columns ← mapR _column_from_dict columns;
  heap_pid ← item d (u "heap_pid");
  heap_pid ← py_int heap_pid;
  name ← text_of name;
  Ok (mkTableMeta table_id name columns heap_pid).

Definition index_payload (m : IndexMeta) : pyval :=
  PyDict [ (PyStr (u "name"), PyStr m.(im_name));
           (PyStr (u "table"), PyStr m.(im_table));
           (PyStr (u "columns"), PyList (map PyStr m.(im_columns)));
           (PyStr (u "root_pid"), PyInt m.(im_root_pid));
           (PyStr (u "unique"), PyBool m.(im_unique)) ].
Definition _serialize_index_meta (m : IndexMeta) : result bytes :=
  text ← meta_dumps (index_payload m); utf8_encode text.
Definition _deserialize_index_meta (blob : bytes) : result IndexMeta :=
  text ← utf8_decode blob;
  d ← meta_loads text;
  name ← item d (u "name");
  table ← item d (u "table");
  columns ← item d (u "columns");
  columns ← loop_values columns;
  root_pid ← item d (u "root_pid");
  root_pid ← py_int root_pid;
  unique ← item_or d (u "unique") (PyBool false);
  name ← text_of name;
  table ← text_of table;
  columns ← mapR text_of columns;
  Ok (mkIndexMeta name table columns root_pid (py_truth unique)).
End Entries.

(** * Pages of entries *)

(** The entries that [_persist] writes from [offset] on: it stops at the first
    that does not fit *)
Fixpoint pack_entries {A} (ser : A → result bytes) (metas : list A) (offset : Z) (page : bytes) : result (bytes * Z) :=
  match metas with
  | [] => Ok (page, offset)
  | meta :: metas =>
      blob ← ser meta;
      let entry_len := zlen blob in
      if PAGE_SIZE <? offset + 2 + entry_len then Ok (page, offset) else
      page ← pack_into_ule 2 page offset entry_len;
      let offset := offset + 2 in
      pack_entries ser metas (offset + entry_len) (patch page offset blob)
  end.
(** The new page of [_persist]: [count] entries, from the sorted [metas] *)
Definition catalog_page {A} (ser : A → result bytes) (count : Z) (metas : list A) : result bytes :=
  let page := patch zero_page 0 CATALOG_MAGIC in
  page ← pack_into_ule 2 page 4 count;
  '(page, offset) ← pack_entries ser metas CATALOG_HEADER_SIZE page;
  pack_into_ule 2 page 6 offset.
(** The loop of [_load_from_disk] over at most [count] entries *)
Fixpoint unpack_entries {A} (deser : bytes → result A) (page : bytes) (count : nat) (offset : Z) : result (list A) :=
  match count with
  | O => Ok []
  | S count =>
      if PAGE_SIZE <? offset + 2 then Ok [] else
      entry_len ← unpack_ule 2 page offset;
      let offset := offset + 2 in
      if (entry_len =? 0) || (PAGE_SIZE <? offset + entry_len) then Ok [] else
      meta ← deser (slice page offset (offset + entry_len));
      metas ← unpack_entries deser page count (offset + entry_len);
      Ok (meta :: metas)
  end.
Definition load_page {A} (deser : bytes → result A) (page : bytes) : result (option (list A)) :=
  if negb (bool_decide (slice page 0 4 = CATALOG_MAGIC)) then Ok None else
  count ← unpack_ule 2 page 4;
  metas ← unpack_entries deser page (Z.to_nat count) CATALOG_HEADER_SIZE;
  Ok (Some metas).

(** * The catalog *)

Record Catalog := mkCatalog {
  ct_by_name : list (pystr * TableMeta);
  ct_index_by_name : list (pystr * IndexMeta);
  ct_next_table_id : Z;
}.
Definition set_tables (f : list (pystr * TableMeta) → list (pystr * TableMeta)) (c : Catalog) : Catalog :=
  mkCatalog (f c.(ct_by_name)) c.(ct_index_by_name) c.(ct_next_table_id).
Definition set_indexes (f : list (pystr * IndexMeta) → list (pystr * IndexMeta)) (c : Catalog) : Catalog :=
  mkCatalog c.(ct_by_name) (f c.(ct_index_by_name)) c.(ct_next_table_id).

(** The order of texts, by code points *)
Definition str_le (a b : pystr) : Prop := lex_compare a b ≠ Gt.
Global Instance str_le_dec a b : Decision (str_le a b).
Proof. unfold str_le. apply _. Defined.
Definition sorted_by {A} (f : A → pystr) (l : list A) : list A := merge_sort (λ a b, str_le (f a) (f b)) l.
Definition sorted_names (l : list pystr) : list pystr := sorted_by id l.

Section Catalog.
Context `{MetaJson} `{PyConv} {P : Type} `{PagerOps P, AllocOps P}.
Abbreviation CT := (P * Catalog)%type.
Definition ct_pager {A} (m : M P A) : M CT A := zoom fst (λ p s, (p, s.2)) m.
Definition ct_get : M CT Catalog := gets snd.
Definition ct_modify (f : Catalog → Catalog) : M CT unit := modify (λ s, (s.1, f s.2)).

Definition _load_from_disk : M CT unit :=
  page ← ct_pager (pi_read_page CATALOG_PAGE);
  metas ← lift (load_page _deserialize_meta page);
  match metas with
  | None => mret ()
  | Some metas =>
      ct_modify (λ c, mkCatalog (foldl (λ d m, dset m.(tm_name) m d) c.(ct_by_name) metas) c.(ct_index_by_name)
        (foldl Z.max 0 (map tm_table_id metas) + 1))
  end.
Definition _load_indexes_from_disk : M CT unit :=
  page ← ct_pager (pi_read_page INDEX_CATALOG_PAGE);
  metas ← lift (load_page _deserialize_index_meta page);
  match metas with
  | None => mret ()
  | Some metas => ct_modify (set_indexes (λ d, foldl (λ d m, dset m.(im_name) m d) d metas))
  end.
Definition empty_catalog : Catalog := mkCatalog [] [] 1.
(** [Catalog(pager)] *)
Definition open_catalog : M P Catalog := λ p,
  let '(r, s) := (_load_from_disk;; _load_indexes_from_disk) (p, empty_catalog) in
  (match r with Ok _ => Ok s.2 | Err e => Err e end, s.1).

Definition _persist : M CT unit :=
  c ← ct_get;
  page ← lift (catalog_page _serialize_meta (zlen c.(ct_by_name)) (sorted_by tm_name (map snd c.(ct_by_name))));
  ct_pager (pi_write_page CATALOG_PAGE page).
Definition _persist_indexes : M CT unit :=
  c ← ct_get;
  page ← lift (catalog_page _serialize_index_meta (zlen c.(ct_index_by_name)) (sorted_by im_name (map snd c.(ct_index_by_name))));
  ct_pager (pi_write_page INDEX_CATALOG_PAGE page).

Definition create_table (name : pystr) (columns : list Column) : M CT Z :=
  c ← ct_get;
  assert (negb (dmem name c.(ct_by_name))) ValueError;;
  assert (negb (bool_decide (columns = []))) ValueError;;
  let table_id := c.(ct_next_table_id) in
  ct_modify (λ c, mkCatalog c.(ct_by_name) c.(ct_index_by_name) (table_id + 1));;
  head_pid ← ct_pager (λ p, let '(r, (p, _)) := new_heap table_id (p, ()) in (hp_head_pid <$> r, p));
  ct_modify (set_tables (dset name (mkTableMeta table_id name columns head_pid)));;
  _persist;;
  mret table_id.
Definition drop_table (name : pystr) : M CT unit :=
  c ← ct_get;
  assert (dmem name c.(ct_by_name)) KeyError;;
  ct_modify (set_tables (ddel name));;
  _persist.
Definition get_table (name : pystr) (c : Catalog) : result TableMeta := of_option KeyError (dget name c.(ct_by_name)).
Definition list_tables (c : Catalog) : list pystr := sorted_names (map fst c.(ct_by_name)).

Definition create_index (name table : pystr) (columns : list pystr) (root_pid : Z) (unique : bool) : M CT IndexMeta :=
  c ← ct_get;
  assert (negb (dmem name c.(ct_index_by_name))) ValueError;;
  assert (dmem table c.(ct_by_name)) KeyError;;
  assert (negb (bool_decide (columns = []))) ValueError;;
  let meta := mkIndexMeta name table columns root_pid unique in
  ct_modify (set_indexes (dset name meta));;
  _persist_indexes;;
  mret meta.
Definition drop_index (name : pystr) : M CT IndexMeta :=
  c ← ct_get;
  meta ← lift (of_option KeyError (dget name c.(ct_index_by_name)));
  ct_modify (set_indexes (ddel name));;
  _persist_indexes;;
  mret meta.
Definition get_index (name : pystr) (c : Catalog) : result IndexMeta := of_option KeyError (dget name c.(ct_index_by_name)).
Definition list_indexes (table : option pystr) (c : Catalog) : list pystr :=
  match table with
  | None => sorted_names (map fst c.(ct_index_by_name))
  | Some t => sorted_names (map fst (filter (λ kv, kv.2.(im_table) = t) c.(ct_index_by_name)))
  end.
Definition all_indexes (c : Catalog) : list IndexMeta := map snd c.(ct_index_by_name).
End Catalog.
