(* ===== verification/CatalogSpec.v ===== *)
(** The catalog survives a restart: what a page holds after [_persist], and what
    [Catalog(pager)] reads back from it. *)
From S2P Require Import Prelude.
From S2P Require Import Bytes.
From S2P Require Import Utf8.
From S2P Require Import Text.
From S2P Require Import TypeSys.
From S2P Require Import PyConv.
From S2P Require Import PyOrder.
From S2P Require Import PyDict.
From S2P Require Import Pager.
From S2P Require Import BufferPool.
From S2P Require Import Heap.
From S2P Require Import BTreeSpec.
From S2P Require Import Catalog.
From stdpp Require Import sorting.
From Stdlib Require Import ZArith Lia.
Local Open Scope Z_scope.

(** * Pages of entries *)

Section Page.
Context {A : Type} (ser : A → result bytes) (deser : bytes → result A).
Definition enc (m : A) : bytes := match ser m with Ok b => le_bytes 2 (zlen b) ++ b | Err _ => [] end.
(** [m] is written as an entry that reads back as [m] *)
Definition entry_ok (m : A) : Prop := ∃ b, ser m = Ok b ∧ deser b = Ok m ∧ 0 < zlen b.
(** The entries that are written: those before the first that does not fit *)
Fixpoint fitting (off : Z) (metas : list A) : list A :=
  match metas with
  | [] => []
  | m :: metas => if PAGE_SIZE <? off + zlen (enc m) then [] else m :: fitting (off + zlen (enc m)) metas
  end.
Definition fits (off : Z) (metas : list A) : Prop := off + zlen (concat (map enc metas)) <= PAGE_SIZE.

Lemma enc_ok m b : ser m = Ok b → enc m = le_bytes 2 (zlen b) ++ b ∧ zlen (enc m) = 2 + zlen b.
Proof. intros Hb. unfold enc. rewrite Hb. split; [done|]. by rewrite zlen_app, zlen_le_bytes. Qed.
Lemma fitting_all metas : ∀ off, fits off metas → fitting off metas = metas.
Proof.
  unfold fits. induction metas as [|m metas IH]; intros off; cbn; [done|]. rewrite zlen_app. intros Hf.
  pose proof (zlen_nonneg (concat (map enc metas))). destruct (Z.ltb_spec PAGE_SIZE (off + zlen (enc m))); [lia|].
  rewrite IH; [done|lia].
Qed.
Lemma fitting_fits metas : ∀ off, off <= PAGE_SIZE → fits off (fitting off metas).
Proof.
  unfold fits. induction metas as [|m metas IH]; intros off Ho; cbn; [unfold zlen; cbn; lia|].
  destruct (Z.ltb_spec PAGE_SIZE (off + zlen (enc m))); cbn; [unfold zlen; cbn; lia|]. rewrite zlen_app.
  specialize (IH (off + zlen (enc m))). lia.
Qed.
Lemma fitting_sub metas : ∀ off m, m ∈ fitting off metas → m ∈ metas.
Proof.
  induction metas as [|m' metas IH]; intros off m; cbn; [done|]. destruct (_ <? _); [by intros ?%elem_of_nil|].
  rewrite !elem_of_cons. intros [->|Hin]; [by left|right]. by eapply IH.
Qed.

Definition zeros_to (n : Z) : bytes := zreplicate (PAGE_SIZE - n) x00.
Lemma patch_end (pre d : bytes) : zlen pre + zlen d <= PAGE_SIZE →
  patch (pre ++ zeros_to (zlen pre)) (zlen pre) d = (pre ++ d) ++ zeros_to (zlen (pre ++ d)).
Proof.
  intros Hd. pose proof (zlen_nonneg pre). pose proof (zlen_nonneg d). unfold patch, zeros_to.
  rewrite (ztake_app pre) by done. rewrite zdrop_app_ge by lia. rewrite <-app_assoc, zlen_app. do 2 f_equal.
  unfold zdrop, zreplicate. rewrite drop_replicate. f_equal. lia.
Qed.
Lemma zlen_zeros_to n : n <= PAGE_SIZE → zlen (zeros_to n) = PAGE_SIZE - n.
Proof. intros Hn. apply zlen_replicate. lia. Qed.

Lemma pack_entries_eq metas : ∀ pre, zlen pre <= PAGE_SIZE → Forall entry_ok metas →
  let out := pre ++ concat (map enc (fitting (zlen pre) metas)) in
  pack_entries ser metas (zlen pre) (pre ++ zeros_to (zlen pre)) = Ok (out ++ zeros_to (zlen out), zlen out).
Proof.
  induction metas as [|m metas IH]; intros pre Hp Hok; cbn [fitting pack_entries]; cbv zeta.
  - cbn. by rewrite app_nil_r.
  - apply Forall_cons in Hok as [(b & Hb & _ & Hpos) Hok]. rewrite Hb, bind_Ok. destruct (enc_ok m b Hb) as [He Hl].
    rewrite Hl. replace (zlen pre + 2 + zlen b) with (zlen pre + (2 + zlen b)) by lia.
    destruct (Z.ltb_spec PAGE_SIZE (zlen pre + (2 + zlen b))) as [|Hfit]; [cbn; by rewrite app_nil_r|].
    pose proof (zlen_nonneg pre). assert (PAGE_SIZE = 4096) as Hps by done.
    assert (zlen (pre ++ zeros_to (zlen pre)) = PAGE_SIZE) as Hlen by (rewrite zlen_app, zlen_zeros_to; lia).
    rewrite pack_into_ule_ok by (rewrite ?Hlen; lia). rewrite bind_Ok.
    rewrite patch_end by (rewrite zlen_le_bytes; lia).
    replace (zlen pre + 2) with (zlen (pre ++ le_bytes 2 (zlen b))) by (by rewrite zlen_app, zlen_le_bytes).
    rewrite patch_end by (rewrite zlen_app, zlen_le_bytes; lia).
    replace ((pre ++ le_bytes 2 (zlen b)) ++ b) with (pre ++ enc m) by (by rewrite He, app_assoc).
    replace (zlen pre + (2 + zlen b)) with (zlen (pre ++ enc m)) by (rewrite !zlen_app, Hl; lia).
    rewrite IH by (done || (rewrite zlen_app, Hl; lia)). cbn [map concat]. by rewrite (app_assoc pre (enc m)).
Qed.
Lemma unpack_entries_eq metas : ∀ pre n, zlen pre <= PAGE_SIZE → Forall entry_ok metas → (length metas <= n)%nat →
  fits (zlen pre) metas →
  let out := pre ++ concat (map enc metas) in
  unpack_entries deser (out ++ zeros_to (zlen out)) n (zlen pre) = Ok metas.
Proof.
  unfold fits. induction metas as [|m metas IH]; intros pre n Hp Hok Hn Hfit; cbn [map concat] in *; cbv zeta.
  - rewrite app_nil_r. destruct n as [|n]; [done|]. cbn [unpack_entries].
    destruct (Z.ltb_spec PAGE_SIZE (zlen pre + 2)) as [|Hroom]; [done|].
    replace (zeros_to (zlen pre)) with (le_bytes 2 0 ++ zeros_to (zlen pre + 2)).
    + rewrite unpack_ule_middle by done. done.
    + unfold zeros_to, zreplicate. replace (Z.to_nat (PAGE_SIZE - zlen pre)) with (S (S (Z.to_nat (PAGE_SIZE - (zlen pre + 2))))) by lia.
      done.
  - apply Forall_cons in Hok as [(b & Hb & Hd & Hpos) Hok]. destruct (enc_ok m b Hb) as [He Hl]. cbn [length] in Hn.
    rewrite zlen_app, Hl in Hfit. pose proof (zlen_nonneg (concat (map enc metas))). pose proof (zlen_nonneg pre).
    destruct n as [|n]; [lia|]. cbn [unpack_entries]. assert (PAGE_SIZE = 4096) as Hps by done.
    rewrite (proj2 (Z.ltb_ge PAGE_SIZE (zlen pre + 2))) by lia.
    set (tail := zeros_to _). assert ((pre ++ enc m ++ concat (map enc metas)) ++ tail =
      pre ++ le_bytes 2 (zlen b) ++ b ++ concat (map enc metas) ++ tail) as -> by (by rewrite He, <-!app_assoc).
    rewrite unpack_ule_middle by lia. rewrite bind_Ok.
    rewrite (proj2 (Z.eqb_neq (zlen b) 0)), (proj2 (Z.ltb_ge PAGE_SIZE (zlen pre + 2 + zlen b))) by lia. cbn [orb].
    rewrite (app_assoc pre (le_bytes 2 (zlen b))).
    rewrite (slice_middle _ b) by (rewrite ?zlen_app, ?zlen_le_bytes; lia). rewrite Hd, bind_Ok.
    specialize (IH (pre ++ enc m) n). rewrite zlen_app, Hl in IH. cbv zeta in IH.
    replace (zlen pre + 2 + zlen b) with (zlen pre + (2 + zlen b)) by lia.
    assert ((pre ++ le_bytes 2 (zlen b)) ++ b ++ concat (map enc metas) ++ tail =
      ((pre ++ enc m) ++ concat (map enc metas)) ++ zeros_to (zlen ((pre ++ enc m) ++ concat (map enc metas)))) as ->.
    { unfold tail. by rewrite He, <-!app_assoc. }
    rewrite IH; [done|lia|done|lia|lia].
Qed.

Definition header (count content_end : Z) : bytes :=
  CATALOG_MAGIC ++ le_bytes 2 count ++ le_bytes 2 content_end ++ zreplicate 4 x00.
Lemma zlen_catalog_header c e : zlen (header c e) = 12.
Proof. unfold header. by rewrite !zlen_app, !zlen_le_bytes. Qed.
Lemma zero_header : patch zero_page 0 CATALOG_MAGIC = header 0 0 ++ zeros_to 12.
Proof. Transparent zero_page. by vm_compute. Opaque zero_page. Qed.
Lemma header_count c rest : 0 <= c < 2 ^ 16 → pack_into_ule 2 (header 0 0 ++ rest) 4 c = Ok (header c 0 ++ rest).
Proof.
  intros Hc. rewrite pack_into_ule_ok by (rewrite ?zlen_app, ?zlen_catalog_header; pose proof (zlen_nonneg rest); lia).
  reflexivity.
Qed.
Lemma header_end c e rest : 0 <= e < 2 ^ 16 → pack_into_ule 2 (header c 0 ++ rest) 6 e = Ok (header c e ++ rest).
Proof.
  intros He. rewrite pack_into_ule_ok by (rewrite ?zlen_app, ?zlen_catalog_header; pose proof (zlen_nonneg rest); lia).
  reflexivity.
Qed.

(** What [_persist] writes, [_load_from_disk] reads: the entries that fit *)
Theorem load_catalog_page count metas : 0 <= count < 2 ^ 16 → Z.of_nat (length metas) <= count → Forall entry_ok metas →
  ∃ pg, catalog_page ser count metas = Ok pg ∧ zlen pg = PAGE_SIZE ∧
    load_page deser pg = Ok (Some (fitting CATALOG_HEADER_SIZE metas)).
Proof.
  intros Hc Hn Hok. unfold catalog_page. rewrite zero_header, header_count, bind_Ok by done.
  pose proof (zlen_catalog_header count 0) as Hh. assert (PAGE_SIZE = 4096) as Hps by done.
  pose proof (pack_entries_eq metas (header count 0)) as Hpack. rewrite Hh in Hpack. cbv zeta in Hpack.
  change CATALOG_HEADER_SIZE with 12. rewrite Hpack by (done || lia). rewrite bind_Ok.
  set (es := concat (map enc (fitting 12 metas))).
  pose proof (fitting_fits metas 12 ltac:(lia)) as Hfit. unfold fits in Hfit. fold es in Hfit. pose proof (zlen_nonneg es) as Hes.
  assert (zlen (header count 0 ++ es) = 12 + zlen es) as Hl by (by rewrite zlen_app, Hh).
  rewrite <-app_assoc, header_end by (rewrite Hl; lia). eexists. split; [done|]. rewrite Hl. split.
  - rewrite !zlen_app, zlen_catalog_header, zlen_zeros_to; lia.
  - unfold load_page. rewrite bool_decide_true by done. cbn [negb].
    assert (∀ tail, unpack_ule 2 (header count (12 + zlen es) ++ tail) 4 = Ok count) as Hcount.
    { intros tail. unfold header. rewrite <-!app_assoc. by apply unpack_ule_middle. }
    rewrite Hcount, bind_Ok. change CATALOG_HEADER_SIZE with 12.
    pose proof (unpack_entries_eq (fitting 12 metas) (header count (12 + zlen es)) (Z.to_nat count)) as Hu.
    rewrite zlen_catalog_header in Hu. cbv zeta in Hu. fold es in Hu.
    rewrite zlen_app, zlen_catalog_header, <-app_assoc in Hu. rewrite Hu; [done|lia| | |done].
    + rewrite Forall_forall in Hok |- *. intros m Hm%fitting_sub. auto.
    + assert (∀ off l, (length (fitting off l) <= length l)%nat) as Hle.
      { intros off l. revert off. induction l as [|m l IH]; intros off; cbn; [lia|]. destruct (_ <? _); cbn; [lia|].
        specialize (IH (off + zlen (enc m))). lia. }
      specialize (Hle 12 metas). lia.
Qed.
End Page.

(** * Entries read back *)

Definition texts_ok (l : list pystr) : Prop := Forall (λ s, forallb scalar s = true) l.
Definition wf_table (m : TableMeta) : Prop := texts_ok (m.(tm_name) :: map col_name m.(tm_columns)).
Definition wf_index (m : IndexMeta) : Prop := texts_ok (m.(im_name) :: m.(im_table) :: m.(im_columns)).

Section Entries.
Context `{MetaJsonLaws} `{PyConv}.
Lemma ascii_encode s : Forall (λ c, 32 <= c < 127) s → s ≠ [] → ∃ b, utf8_encode s = Ok b ∧ 0 < zlen b.
Proof.
  intros Hs Hne. destruct (utf8_encode_scalars s) as [b Hb].
  { eapply Forall_impl; [done|]. intros c Hc. cbv beta in Hc. unfold scalar, is_surrogate.
    destruct (Z.leb_spec 0 c), (Z.leb_spec c 0x10FFFF), (Z.leb_spec 0xD800 c); lia || done. }
  exists b. split; [done|]. destruct s as [|c s]; [done|]. cbn in Hb. inv_ok. rewrite zlen_app.
  pose proof (zlen_nonneg a0). unfold utf8_encode1 in Hok. destruct (negb (scalar c)); [done|].
  repeat (destruct (_ <? _); [injection Hok as <-; cbn; unfold zlen; cbn; lia|]). injection Hok as <-. unfold zlen in *; cbn; lia.
Qed.
Lemma tag_of_tag_value t : tag_of_value (PyInt (tag_value t)) = Ok t.
Proof. by destruct t; vm_compute. Qed.
Lemma columns_round cols : mapR _column_from_dict (map _column_to_dict cols) = Ok cols.
Proof.
  induction cols as [|c cols IH]; [done|]. cbn [map mapR]. rewrite IH. destruct c as [name tag nn pk un].
  change (_column_from_dict _) with (tag ← tag_of_value (PyInt (tag_value tag)); Ok (mkColumn name tag nn pk un)).
  by rewrite tag_of_tag_value.
Qed.
Lemma texts_round l : mapR text_of (map PyStr l) = Ok l.
Proof. induction l as [|x l IH]; [done|]. cbn [map mapR text_of]. by rewrite IH. Qed.
Lemma table_plain m : wf_table m → json_plain (meta_payload m) = true.
Proof.
  intros [Hn Hc]%Forall_cons. unfold meta_payload. cbn [json_plain forallb fst snd]. rewrite Hn.
  assert (forallb json_plain (map _column_to_dict m.(tm_columns)) = true) as ->; [|by vm_compute].
  induction m.(tm_columns) as [|c cols IH]; [done|]. apply Forall_cons in Hc as [Hc Hcs]. cbn [map forallb].
  rewrite IH by done. rewrite andb_true_r. unfold _column_to_dict. cbn [json_plain forallb fst snd]. rewrite Hc. by vm_compute.
Qed.
Lemma index_plain m : wf_index m → json_plain (index_payload m) = true.
Proof.
  intros [Hn [Ht Hc]%Forall_cons]%Forall_cons. unfold index_payload. cbn [json_plain forallb fst snd]. rewrite Hn, Ht.
  assert (forallb json_plain (map PyStr m.(im_columns)) = true) as ->; [|by vm_compute].
  induction m.(im_columns) as [|c cols IH]; [done|]. apply Forall_cons in Hc as [Hc Hcs]. cbn [map forallb json_plain].
  by rewrite Hc, IH.
Qed.
Lemma table_entry m : wf_table m → entry_ok _serialize_meta _deserialize_meta m.
Proof.
  intros Hw. destruct (meta_loads_dumps _ (table_plain m Hw)) as (s & Hd & Ha & Hne & Hl).
  destruct (ascii_encode s Ha Hne) as (b & Hb & Hpos). exists b. unfold _serialize_meta, _deserialize_meta.
  rewrite Hd, bind_Ok, (utf8_decode_encode s b Hb), bind_Ok, Hl, bind_Ok. split; [done|]. split; [|done].
  change (item_or (meta_payload m) _ _) with (Ok (A := pyval) (PyList (map _column_to_dict m.(tm_columns)))).
  change (item (meta_payload m) (u "table_id")) with (Ok (A := pyval) (PyInt m.(tm_table_id))).
  change (item (meta_payload m) (u "name")) with (Ok (A := pyval) (PyStr m.(tm_name))).
  change (item (meta_payload m) (u "heap_pid")) with (Ok (A := pyval) (PyInt m.(tm_heap_pid))).
  repeat first [rewrite bind_Ok | rewrite columns_round | progress cbn [py_int loop_values text_of]]. by destruct m.
Qed.
Lemma index_entry m : wf_index m → entry_ok _serialize_index_meta _deserialize_index_meta m.
Proof.
  intros Hw. destruct (meta_loads_dumps _ (index_plain m Hw)) as (s & Hd & Ha & Hne & Hl).
  destruct (ascii_encode s Ha Hne) as (b & Hb & Hpos). exists b. unfold _serialize_index_meta, _deserialize_index_meta.
  rewrite Hd, bind_Ok, (utf8_decode_encode s b Hb), bind_Ok, Hl, bind_Ok. split; [done|]. split; [|done].
  change (item_or (index_payload m) _ _) with (Ok (A := pyval) (PyBool m.(im_unique))).
  change (item (index_payload m) (u "name")) with (Ok (A := pyval) (PyStr m.(im_name))).
  change (item (index_payload m) (u "table")) with (Ok (A := pyval) (PyStr m.(im_table))).
  change (item (index_payload m) (u "columns")) with (Ok (A := pyval) (PyList (map PyStr m.(im_columns)))).
  change (item (index_payload m) (u "root_pid")) with (Ok (A := pyval) (PyInt m.(im_root_pid))).
  repeat first [rewrite bind_Ok | rewrite texts_round | progress cbn [py_int loop_values text_of]]. by destruct m.
Qed.
End Entries.

(** * The catalog on disk *)

Lemma sorted_by_perm {A} (f : A → pystr) l : sorted_by f l ≡ₚ l.
Proof. apply merge_sort_Permutation. Qed.

Section Invariant.
Context `{MetaJsonLaws} `{PyConv}.
Record ct_wf (c : Catalog) : Prop := {
  wf_tables : Forall (λ kv, kv.1 = kv.2.(tm_name) ∧ wf_table kv.2 ∧ 0 < kv.2.(tm_table_id) < c.(ct_next_table_id)) c.(ct_by_name);
  wf_names : NoDup (map fst c.(ct_by_name));
  wf_ids : NoDup (map (λ kv, kv.2.(tm_table_id)) c.(ct_by_name));
  wf_indexes : Forall (λ kv, kv.1 = kv.2.(im_name) ∧ wf_index kv.2) c.(ct_index_by_name);
  wf_index_names : NoDup (map fst c.(ct_index_by_name));
  wf_next : 0 < c.(ct_next_table_id);
}.
Definition table_list (c : Catalog) : list TableMeta := sorted_by tm_name (map snd c.(ct_by_name)).
Definition index_list (c : Catalog) : list IndexMeta := sorted_by im_name (map snd c.(ct_index_by_name)).
(** The tables and indexes whose entries fit on the pages 1 and 2 *)
Definition kept_tables (c : Catalog) : list TableMeta := fitting _serialize_meta CATALOG_HEADER_SIZE (table_list c).
Definition kept_indexes (c : Catalog) : list IndexMeta := fitting _serialize_index_meta CATALOG_HEADER_SIZE (index_list c).
(** The page holds the list, or nothing yet *)
Definition page_holds {A} (deser : bytes → result A) (l : list A) (pg : bytes) : Prop :=
  load_page deser pg = Ok (Some l) ∨ load_page deser pg = Ok None ∧ l = [].
Definition on_disk (m : gmap Z bytes) (c : Catalog) : Prop :=
  (∃ pg, m !! CATALOG_PAGE = Some pg ∧ page_holds _deserialize_meta (kept_tables c) pg) ∧
  (∃ pg, m !! INDEX_CATALOG_PAGE = Some pg ∧ page_holds _deserialize_index_meta (kept_indexes c) pg).
(** The catalog of a process that opens the file *)
Definition reopened (c : Catalog) : Catalog :=
  mkCatalog (map (λ m, (m.(tm_name), m)) (kept_tables c)) (map (λ m, (m.(im_name), m)) (kept_indexes c))
    (foldl Z.max 0 (map tm_table_id (kept_tables c)) + 1).

Lemma kept_table_in c m : ct_wf c → m ∈ kept_tables c → dget m.(tm_name) c.(ct_by_name) = Some m.
Proof.
  intros Hw Hm%fitting_sub. unfold table_list in Hm. rewrite sorted_by_perm in Hm.
  apply list_elem_of_fmap in Hm as ([k m'] & -> & Hin). apply dget_elem; [apply (wf_names c Hw)|]. cbn.
  pose proof (wf_tables c Hw) as Hf. rewrite Forall_forall in Hf. destruct (Hf _ Hin) as [Hk _]. cbn in Hk. by subst.
Qed.
Lemma kept_index_in c m : ct_wf c → m ∈ kept_indexes c → dget m.(im_name) c.(ct_index_by_name) = Some m.
Proof.
  intros Hw Hm%fitting_sub. unfold index_list in Hm. rewrite sorted_by_perm in Hm.
  apply list_elem_of_fmap in Hm as ([k m'] & -> & Hin). apply dget_elem; [apply (wf_index_names c Hw)|]. cbn.
  pose proof (wf_indexes c Hw) as Hf. rewrite Forall_forall in Hf. destruct (Hf _ Hin) as [Hk _]. cbn in Hk. by subst.
Qed.
Lemma nodup_fitting {A} (ser : A → result bytes) (f : A → pystr) l : ∀ off, NoDup (map f l) → NoDup (map f (fitting ser off l)).
Proof.
  induction l as [|x l IH]; intros off; cbn; [done|]. destruct (_ <? _); [constructor|].
  rewrite NoDup_cons. intros [Hx Hl]. cbn. apply NoDup_cons. split; [|by apply IH].
  intros (y & Hy & Hin%fitting_sub)%list_elem_of_fmap. apply Hx. apply list_elem_of_fmap. by exists y.
Qed.
Lemma kept_names c : ct_wf c → NoDup (map tm_name (kept_tables c)).
Proof.
  intros Hw. apply nodup_fitting. unfold table_list. rewrite sorted_by_perm, map_map.
  erewrite map_ext_in; [apply (wf_names c Hw)|]. intros kv Hin%list_elem_of_In. pose proof (wf_tables c Hw) as Hf.
  rewrite Forall_forall in Hf. by destruct (Hf _ Hin) as [-> _].
Qed.
Lemma kept_index_names c : ct_wf c → NoDup (map im_name (kept_indexes c)).
Proof.
  intros Hw. apply nodup_fitting. unfold index_list. rewrite sorted_by_perm, map_map.
  erewrite map_ext_in; [apply (wf_index_names c Hw)|]. intros kv Hin%list_elem_of_In. pose proof (wf_indexes c Hw) as Hf.
  rewrite Forall_forall in Hf. by destruct (Hf _ Hin) as [-> _].
Qed.
Lemma foldl_dset {A} (f : A → pystr) (l : list A) : NoDup (map f l) →
  foldl (λ d x, dset (f x) x d) [] l = map (λ x, (f x, x)) l.
Proof.
  intros Hl. rewrite <-(dict_of_id (map (λ x, (f x, x)) l)) by (by rewrite map_map).
  unfold dict_of. generalize (@nil (pystr * A)). clear Hl. induction l as [|x l IH]; intros d; [done|]. cbn. apply IH.
Qed.
Lemma dget_keyed {A} (f : A → pystr) (l : list A) k x : NoDup (map f l) →
  dget k (map (λ x, (f x, x)) l) = Some x ↔ x ∈ l ∧ f x = k.
Proof.
  intros Hl. rewrite dget_elem by (by rewrite map_map). rewrite list_elem_of_fmap. split.
  - intros (y & [= -> ->] & Hin). done.
  - intros [Hin <-]. by exists x.
Qed.

(** A table of the catalog is found again after a restart exactly when its
    entry fits. *)
Lemma reopened_table c name m : ct_wf c →
  get_table name (reopened c) = Ok m ↔ get_table name c = Ok m ∧ m ∈ kept_tables c.
Proof.
  intros Hw. unfold get_table. cbn [reopened ct_by_name]. pose proof (dget_keyed tm_name (kept_tables c) name) as Hk.
  assert (∀ o : option TableMeta, of_option KeyError o = Ok m ↔ o = Some m) as Ho by (intros []; cbn; naive_solver).
  rewrite !Ho, Hk by (by apply kept_names). split.
  - intros [Hin <-]. split; [by apply kept_table_in|done].
  - intros [Hg Hin]. split; [done|]. apply dget_in in Hg. pose proof (wf_tables c Hw) as Hf. rewrite Forall_forall in Hf.
    destruct (Hf _ Hg) as [Hn _]. by cbn in Hn.
Qed.
Lemma reopened_index c name m : ct_wf c →
  get_index name (reopened c) = Ok m ↔ get_index name c = Ok m ∧ m ∈ kept_indexes c.
Proof.
  intros Hw. unfold get_index. cbn [reopened ct_index_by_name]. pose proof (dget_keyed im_name (kept_indexes c) name) as Hk.
  assert (∀ o : option IndexMeta, of_option KeyError o = Ok m ↔ o = Some m) as Ho by (intros []; cbn; naive_solver).
  rewrite !Ho, Hk by (by apply kept_index_names). split.
  - intros [Hin <-]. split; [by apply kept_index_in|done].
  - intros [Hg Hin]. split; [done|]. apply dget_in in Hg. pose proof (wf_indexes c Hw) as Hf. rewrite Forall_forall in Hf.
    destruct (Hf _ Hg) as [Hn _]. by cbn in Hn.
Qed.
End Invariant.

Section Operations.
Context `{MetaJsonLaws} `{PyConv} {P : Type} {stores : P → gmap Z bytes → Prop} {rooms : nat → P → Prop}.
Context {POps : PagerOps P} {PLaws : PagerLaws P stores} {AOps : AllocOps P} {RLaws : RoomLaws P stores rooms}.
Implicit Types (p : P) (m : gmap Z bytes) (c : Catalog).

Lemma open_catalog_reads p m c : stores p m → ct_wf c → on_disk m c → open_catalog p = (Ok (reopened c), p).
Proof.
  intros Hst Hw [(pg1 & Hp1 & Hl1) (pg2 & Hp2 & Hl2)].
  assert (∀ pid pg c0, m !! pid = Some pg → ct_pager (pi_read_page pid) (p, c0) = (Ok pg, (p, c0))) as Hread.
  { intros pid pg c0 Hpg. unfold ct_pager, zoom. cbn [fst snd]. by rewrite (pi_read_law p m pid pg Hst Hpg). }
  set (c1 := mkCatalog (map (λ x : TableMeta, (x.(tm_name), x)) (kept_tables c)) [] (foldl Z.max 0 (map tm_table_id (kept_tables c)) + 1)).
  assert (_load_from_disk (p, empty_catalog) = (Ok (), (p, c1))) as Hx1.
  { unfold _load_from_disk. rewrite (run_Ok _ _ _ _ _ (Hread _ pg1 _ Hp1)). destruct Hl1 as [->|[-> Hnil]]; mrun.
    - unfold ct_modify, modify, c1. cbn [fst snd ct_by_name ct_index_by_name empty_catalog]. by rewrite foldl_dset by (by apply kept_names).
    - unfold c1. by rewrite Hnil. }
  assert (_load_indexes_from_disk (p, c1) = (Ok (), (p, reopened c))) as Hx2.
  { unfold _load_indexes_from_disk. rewrite (run_Ok _ _ _ _ _ (Hread _ pg2 _ Hp2)). destruct Hl2 as [->|[-> Hnil]]; mrun.
    - unfold ct_modify, modify, set_indexes. cbn [fst snd c1 ct_by_name ct_index_by_name ct_next_table_id].
      by rewrite foldl_dset by (by apply kept_index_names).
    - unfold reopened, c1. by rewrite Hnil. }
  unfold open_catalog. by rewrite (run_Ok _ _ _ _ _ Hx1), Hx2.
Qed.

(** Writing a page that was allocated *)
Lemma ct_write_ok pid pg p m c n : stores p m → rooms n p → is_Some (m !! pid) → zlen pg = PAGE_SIZE →
  ∃ p', ct_pager (pi_write_page pid pg) (p, c) = (Ok (), (p', c)) ∧ stores p' (<[pid := pg]> m) ∧ rooms n p'.
Proof.
  intros Hst Hr Hin Hlen. destruct (pi_write_law p m pid pg Hst Hin Hlen) as (p' & Hw & Hst' & _).
  exists p'. unfold ct_pager, zoom. cbn [fst snd]. rewrite Hw. split_and!; [done|done|]. by apply (rooms_write p m n pid pg p').
Qed.
Definition small (c : Catalog) : Prop := zlen c.(ct_by_name) < 2 ^ 16 ∧ zlen c.(ct_index_by_name) < 2 ^ 16.
Lemma persist_ok p m c n : stores p m → rooms n p → is_Some (m !! CATALOG_PAGE) → ct_wf c → zlen c.(ct_by_name) < 2 ^ 16 →
  ∃ p' pg, _persist (p, c) = (Ok (), (p', c)) ∧ stores p' (<[CATALOG_PAGE := pg]> m) ∧ rooms n p' ∧
    load_page _deserialize_meta pg = Ok (Some (kept_tables c)).
Proof.
  intros Hst Hr Hin Hw Hs. destruct (load_catalog_page _serialize_meta _deserialize_meta (zlen c.(ct_by_name)) (table_list c))
    as (pg & Hpg & Hlen & Hload).
  - pose proof (zlen_nonneg c.(ct_by_name)). lia.
  - unfold table_list. rewrite sorted_by_perm, length_map. unfold zlen. lia.
  - unfold table_list. rewrite sorted_by_perm. apply Forall_fmap. eapply Forall_impl; [apply (wf_tables c Hw)|].
    intros kv (_ & Hk & _). by apply table_entry.
  - destruct (ct_write_ok CATALOG_PAGE pg p m c n Hst Hr Hin Hlen) as (p' & Hx & Hst' & Hr').
    exists p', pg. split_and!; [|done|done|done]. unfold _persist, ct_get. rewrite run_gets. cbn [snd].
    unfold table_list in Hpg. by rewrite Hpg, run_lift_Ok.
Qed.
Lemma persist_indexes_ok p m c n : stores p m → rooms n p → is_Some (m !! INDEX_CATALOG_PAGE) → ct_wf c →
  zlen c.(ct_index_by_name) < 2 ^ 16 →
  ∃ p' pg, _persist_indexes (p, c) = (Ok (), (p', c)) ∧ stores p' (<[INDEX_CATALOG_PAGE := pg]> m) ∧ rooms n p' ∧
    load_page _deserialize_index_meta pg = Ok (Some (kept_indexes c)).
Proof.
  intros Hst Hr Hin Hw Hs.
  destruct (load_catalog_page _serialize_index_meta _deserialize_index_meta (zlen c.(ct_index_by_name)) (index_list c))
    as (pg & Hpg & Hlen & Hload).
  - pose proof (zlen_nonneg c.(ct_index_by_name)). lia.
  - unfold index_list. rewrite sorted_by_perm, length_map. unfold zlen. lia.
  - unfold index_list. rewrite sorted_by_perm. apply Forall_fmap. eapply Forall_impl; [apply (wf_indexes c Hw)|].
    intros kv (_ & Hk). by apply index_entry.
  - destruct (ct_write_ok INDEX_CATALOG_PAGE pg p m c n Hst Hr Hin Hlen) as (p' & Hx & Hst' & Hr').
    exists p', pg. split_and!; [|done|done|done]. unfold _persist_indexes, ct_get. rewrite run_gets. cbn [snd].
    unfold index_list in Hpg. by rewrite Hpg, run_lift_Ok.
Qed.

(** * Any sequence of changes *)

Inductive ct_op :=
  | OpCreateTable (name : pystr) (columns : list Column)
  | OpDropTable (name : pystr)
  | OpCreateIndex (name table : pystr) (columns : list pystr) (root_pid : Z) (unique : bool)
  | OpDropIndex (name : pystr).
Definition ct_exec (op : ct_op) : M (P * Catalog) unit :=
  match op with
  | OpCreateTable name columns => create_table name columns;; mret ()
  | OpDropTable name => drop_table name
  | OpCreateIndex name table columns root_pid unique => create_index name table columns root_pid unique;; mret ()
  | OpDropIndex name => drop_index name;; mret ()
  end.
(** What a change does to the registry, with the page a new heap starts on *)
Definition ct_spec (op : ct_op) (head : Z) (c : Catalog) : result unit * Catalog :=
  match op with
  | OpCreateTable name columns =>
      if dmem name c.(ct_by_name) || bool_decide (columns = []) then (Err ValueError, c) else
      (Ok (), mkCatalog (c.(ct_by_name) ++ [(name, mkTableMeta c.(ct_next_table_id) name columns head)])
                c.(ct_index_by_name) (c.(ct_next_table_id) + 1))
  | OpDropTable name =>
      if dmem name c.(ct_by_name) then (Ok (), set_tables (ddel name) c) else (Err KeyError, c)
  | OpCreateIndex name table columns root_pid unique =>
      if dmem name c.(ct_index_by_name) then (Err ValueError, c)
      else if negb (dmem table c.(ct_by_name)) then (Err KeyError, c)
      else if bool_decide (columns = []) then (Err ValueError, c)
      else (Ok (), set_indexes (λ d, d ++ [(name, mkIndexMeta name table columns root_pid unique)]) c)
  | OpDropIndex name =>
      if dmem name c.(ct_index_by_name) then (Ok (), set_indexes (ddel name) c) else (Err KeyError, c)
  end.
Definition op_texts (op : ct_op) : list pystr :=
  match op with
  | OpCreateTable name columns => name :: map col_name columns
  | OpCreateIndex name table columns _ _ => name :: table :: columns
  | OpDropTable name | OpDropIndex name => [name]
  end.
Definition ct_size (c : Catalog) : Z := zlen c.(ct_by_name) + zlen c.(ct_index_by_name).

Lemma dmem_true {V} k (d : list (pystr * V)) : dmem k d = true ↔ k ∈ map fst d.
Proof. unfold dmem. rewrite bool_decide_eq_true. apply dget_is_Some. Qed.
Lemma dmem_false {V} k (d : list (pystr * V)) : dmem k d = false ↔ k ∉ map fst d.
Proof. rewrite <-dmem_true. destruct (dmem k d); split; congruence || intros []; done. Qed.
Lemma Forall_ddel {V} (Q : pystr * V → Prop) k d : Forall Q d → Forall Q (ddel k d).
Proof. induction 1 as [|[k' v] d Hq Hd IH]; cbn; [constructor|]. case_decide; [done|by constructor]. Qed.
Lemma ddel_sublist {V} k (d : list (pystr * V)) : sublist (ddel k d) d.
Proof. induction d as [|[k' v] d IH]; cbn; [constructor|]. case_decide; constructor; done. Qed.
Lemma ddel_length {V} k (d : list (pystr * V)) : zlen (ddel k d) <= zlen d.
Proof. unfold zlen. pose proof (sublist_length _ _ (ddel_sublist k d)). lia. Qed.

Lemma wf_create_table c name columns head : ct_wf c → name ∉ map fst c.(ct_by_name) → texts_ok (name :: map col_name columns) →
  ct_wf (mkCatalog (c.(ct_by_name) ++ [(name, mkTableMeta c.(ct_next_table_id) name columns head)])
    c.(ct_index_by_name) (c.(ct_next_table_id) + 1)).
Proof.
  intros [Ht Hn Hids Hi Hin Hnx] Hname Htx. split; cbn [ct_by_name ct_index_by_name ct_next_table_id]; try done; [| | |lia].
  - apply Forall_app. split; [|apply Forall_singleton; cbn; split_and!; [done|done|lia..]].
    eapply Forall_impl; [exact Ht|]. intros kv (? & ? & ?). split_and!; [done|done|lia..].
  - rewrite map_app. apply NoDup_app. split_and!; [done| |apply NoDup_singleton].
    intros x Hx ->%list_elem_of_singleton. done.
  - rewrite map_app. apply NoDup_app. split_and!; [done| |apply NoDup_singleton].
    intros x (kv & -> & Hkv)%list_elem_of_fmap Hx%list_elem_of_singleton. rewrite Forall_forall in Ht.
    destruct (Ht _ Hkv) as (_ & _ & ?). cbn in Hx. lia.
Qed.
Lemma NoDup_sublist_map {A B} (f : A → B) l l' : sublist l l' → NoDup (map f l') → NoDup (map f l).
Proof.
  intros Hs Hn. apply (sublist_NoDup _ _ Hn). clear Hn. induction Hs; cbn; by constructor.
Qed.
Lemma wf_drop_table c name : ct_wf c → ct_wf (set_tables (ddel name) c).
Proof.
  intros [Ht Hn Hids Hi Hin Hnx]. split; cbn [ct_by_name ct_index_by_name ct_next_table_id set_tables]; try done.
  - by apply Forall_ddel.
  - by apply ddel_nodup.
  - eapply NoDup_sublist_map; [apply ddel_sublist|done].
Qed.
Lemma wf_create_index c name table columns root_pid unique : ct_wf c → name ∉ map fst c.(ct_index_by_name) →
  texts_ok (name :: table :: columns) →
  ct_wf (set_indexes (λ d, d ++ [(name, mkIndexMeta name table columns root_pid unique)]) c).
Proof.
  intros [Ht Hn Hids Hi Hin Hnx] Hname Htx. split; cbn [ct_by_name ct_index_by_name ct_next_table_id set_indexes]; try done.
  - apply Forall_app. split; [done|]. by apply Forall_singleton.
  - rewrite map_app. apply NoDup_app. split_and!; [done| |apply NoDup_singleton]. intros x Hx ->%list_elem_of_singleton. done.
Qed.
Lemma wf_drop_index c name : ct_wf c → ct_wf (set_indexes (ddel name) c).
Proof.
  intros [Ht Hn Hids Hi Hin Hnx]. split; cbn [ct_by_name ct_index_by_name ct_next_table_id set_indexes]; try done.
  - by apply Forall_ddel.
  - by apply ddel_nodup.
Qed.

(** A change keeps the catalog well formed, and the pages 1 and 2 equal to it. *)
Record ct_inv (s : P * Catalog) (m : gmap Z bytes) : Prop := {
  inv_stores : stores s.1 m;
  inv_wf : ct_wf s.2;
  inv_disk : on_disk m s.2;
}.
Lemma tables_changed p m c c' n : stores p m → rooms n p → on_disk m c → ct_wf c' → ct_size c' < 2 ^ 16 →
  c'.(ct_index_by_name) = c.(ct_index_by_name) →
  ∃ p' m', _persist (p, c') = (Ok (), (p', c')) ∧ ct_inv (p', c') m' ∧ rooms n p' ∧ (∀ x, x ≠ CATALOG_PAGE → m' !! x = m !! x).
Proof.
  intros Hst Hr [(pg & Hpg & _) Hi] Hw Hs He. unfold ct_size in Hs. pose proof (zlen_nonneg c'.(ct_index_by_name)).
  destruct (persist_ok p m c' n Hst Hr ltac:(by rewrite Hpg) Hw ltac:(lia)) as (p' & pg' & Hx & Hst' & Hr' & Hl).
  exists p', (<[CATALOG_PAGE := pg']> m). split_and!; [done| |done|intros x Hx'; by rewrite lookup_insert_ne].
  split; [done|done|]. split.
  - exists pg'. rewrite lookup_insert_eq. split; [done|by left].
  - destruct Hi as (pg2 & Hpg2 & Hh). exists pg2. rewrite lookup_insert_ne by done. split; [done|].
    unfold kept_indexes, index_list. cbn [snd]. by rewrite He.
Qed.
Lemma indexes_changed p m c c' n : stores p m → rooms n p → on_disk m c → ct_wf c' → ct_size c' < 2 ^ 16 →
  c'.(ct_by_name) = c.(ct_by_name) →
  ∃ p' m', _persist_indexes (p, c') = (Ok (), (p', c')) ∧ ct_inv (p', c') m' ∧ rooms n p' ∧ (∀ x, x ≠ INDEX_CATALOG_PAGE → m' !! x = m !! x).
Proof.
  intros Hst Hr [Ht (pg & Hpg & _)] Hw Hs He. unfold ct_size in Hs. pose proof (zlen_nonneg c'.(ct_by_name)).
  destruct (persist_indexes_ok p m c' n Hst Hr ltac:(by rewrite Hpg) Hw ltac:(lia)) as (p' & pg' & Hx & Hst' & Hr' & Hl).
  exists p', (<[INDEX_CATALOG_PAGE := pg']> m). split_and!; [done| |done|intros x Hx'; by rewrite lookup_insert_ne].
  split; [done|done|]. split.
  - destruct Ht as (pg2 & Hpg2 & Hh). exists pg2. rewrite lookup_insert_ne by done. split; [done|].
    unfold kept_tables, table_list. cbn [snd]. by rewrite He.
  - exists pg'. rewrite lookup_insert_eq. split; [done|by left].
Qed.
Lemma on_disk_ext m m' c : m' !! CATALOG_PAGE = m !! CATALOG_PAGE → m' !! INDEX_CATALOG_PAGE = m !! INDEX_CATALOG_PAGE →
  on_disk m c → on_disk m' c.
Proof. unfold on_disk. by intros -> ->. Qed.

Lemma create_table_ok name columns p m c n : ct_inv (p, c) m → rooms (S n) p → ct_size c + 1 < 2 ^ 16 →
  texts_ok (name :: map col_name columns) →
  ∃ r p' c' m' head, create_table name columns (p, c) = (r, (p', c')) ∧
    (match r with Ok _ => Ok () | Err e => Err e end, c') = ct_spec (OpCreateTable name columns) head c ∧
    ct_inv (p', c') m' ∧ rooms n p' ∧
    (∀ x, x ≠ CATALOG_PAGE → is_Some (m !! x) → m' !! x = m !! x) ∧
    (is_ok r = true → r = Ok c.(ct_next_table_id) ∧ m !! head = None ∧ 0 < head < Heap.NO_NEXT ∧
       ∃ pg, m' !! head = Some pg ∧ hpage pg Heap.NO_NEXT DATA_START []).
Proof.
  intros [Hst Hw Hd] Hr Hs Htx. cbn [fst snd] in *. unfold create_table, ct_get. rewrite run_gets. cbn [snd ct_spec].
  pose proof (rooms_mono p (S n) n Hr ltac:(lia)) as Hr0.
  destruct (dmem name c.(ct_by_name)) eqn:Hmem; cbn [negb orb]; mrun.
  { eexists _, p, c, m, 0. by split_and!. }
  destruct (bool_decide_reflect (columns = [])) as [|Hcols]; cbn [negb]; mrun.
  { eexists _, p, c, m, 0. by split_and!. }
  apply dmem_false in Hmem. unfold ct_modify. rewrite run_modify. cbn [fst snd].
  destruct (new_heap_run p () m n c.(ct_next_table_id) Hst Hr) as (h & pg & Hx & Hnone & Hpos & Hst1 & Hr1 & Hpg).
  set (head := h.(hp_head_pid)) in *.
  assert (∀ c1, ct_pager (λ p, let '(r, (p, _)) := new_heap c.(ct_next_table_id) (p, ()) in (hp_head_pid <$> r, p)) (p, c1) =
    (Ok head, (h.(hp_pager), c1))) as Hhead by (intros c1; unfold ct_pager, zoom; cbn [fst snd]; by rewrite Hx).
  rewrite (run_Ok _ _ _ _ _ (Hhead _)), run_modify. cbn [fst snd].
  set (c' := mkCatalog (c.(ct_by_name) ++ [(name, mkTableMeta c.(ct_next_table_id) name columns head)]) c.(ct_index_by_name) (c.(ct_next_table_id) + 1)).
  assert (set_tables (dset name (mkTableMeta c.(ct_next_table_id) name columns head))
    (mkCatalog c.(ct_by_name) c.(ct_index_by_name) (c.(ct_next_table_id) + 1)) = c') as ->.
  { unfold set_tables, c'. cbn [ct_by_name ct_index_by_name ct_next_table_id]. by rewrite dset_absent'. }
  assert (∀ x, is_Some (m !! x) → <[head := pg]> m !! x = m !! x) as Hold.
  { intros x Hx'. rewrite lookup_insert_ne; [done|]. intros ->. rewrite Hnone in Hx'. by destruct Hx'. }
  assert (on_disk (<[head := pg]> m) c) as Hd'.
  { pose proof Hd as [(? & Hp1 & _) (? & Hp2 & _)]. eapply on_disk_ext; [by apply Hold; rewrite Hp1|by apply Hold; rewrite Hp2|done]. }
  destruct (tables_changed h.(hp_pager) (<[head := pg]> m) c c' n) as (p' & m' & Hpx & Hinv & Hr' & Hsame); try done.
  { by apply wf_create_table. }
  { unfold ct_size in *. cbn [c' ct_by_name ct_index_by_name]. rewrite zlen_app. unfold zlen in *. cbn. lia. }
  rewrite (run_Ok _ _ _ _ _ Hpx).
  assert (head ≠ CATALOG_PAGE) as Hne.
  { intros Heq. destruct Hd as [(? & Hp1 & _) _]. rewrite <-Heq, Hnone in Hp1. done. }
  eexists _, p', c', m', head. split_and!; [done|done|done|done| |].
  - intros x Hx' Hin. rewrite Hsame by done. by apply Hold.
  - intros _. split_and!; [done|done|lia|lia|]. exists pg. rewrite Hsame by done. by rewrite lookup_insert_eq.
Qed.

Lemma ct_exec_ok op p m c n : ct_inv (p, c) m → rooms (S n) p → ct_size c + 1 < 2 ^ 16 → texts_ok (op_texts op) →
  ∃ r p' c' m' head, ct_exec op (p, c) = (r, (p', c')) ∧ (r, c') = ct_spec op head c ∧ ct_inv (p', c') m' ∧ rooms n p' ∧
    ct_size c' <= ct_size c + 1 ∧
    (∀ x, x ≠ CATALOG_PAGE → x ≠ INDEX_CATALOG_PAGE → is_Some (m !! x) → m' !! x = m !! x).
Proof.
  intros Hinv Hr Hs Htx. pose proof Hinv as [Hst Hw Hd]. cbn [fst snd] in *.
  pose proof (rooms_mono p (S n) n Hr ltac:(lia)) as Hr0. destruct op as [name columns|name|name table columns root_pid unique|name].
  - destruct (create_table_ok name columns p m c n Hinv Hr Hs Htx) as (r & p' & c' & m' & head & Hx & Hsp & Hi & Hr' & Hold & _).
    eexists _, p', c', m', head. split; [|split; [exact Hsp|split_and!; [done|done| |intros x Hx1 _; by apply Hold]]].
    + unfold ct_exec. unfold mbind, M_bind. rewrite Hx. by destruct r.
    + cbn [ct_spec] in Hsp. destruct (_ || _) in Hsp; injection Hsp as _ ->; [lia|]. unfold ct_size. cbn [ct_by_name ct_index_by_name].
      rewrite zlen_app. unfold zlen. cbn. lia.
  - cbn [ct_exec ct_spec]. unfold drop_table, ct_get. rewrite run_gets. cbn [snd].
    destruct (dmem name c.(ct_by_name)) eqn:Hmem; mrun; [|eexists _, p, c, m, 0; split_and!; done || lia].
    unfold ct_modify. rewrite run_modify. cbn [fst snd]. pose proof (ddel_length name c.(ct_by_name)).
    assert (ct_size (set_tables (ddel name) c) <= ct_size c) by (unfold ct_size in *; cbn; lia).
    destruct (tables_changed p m c (set_tables (ddel name) c) n) as (p' & m' & Hpx & Hi & Hr' & Hsame); try done; [by apply wf_drop_table|lia|].
    rewrite Hpx. eexists _, p', _, m', 0. split_and!; try done; [lia|]. intros x Hx1 _ _. by apply Hsame.
  - cbn [ct_exec ct_spec]. unfold create_index, ct_get. rewrite !run_assoc, run_gets. cbn [snd].
    destruct (dmem name c.(ct_index_by_name)) eqn:Hmem; cbn [negb]; mrun; [eexists _, p, c, m, 0; split_and!; done || lia|].
    destruct (dmem table c.(ct_by_name)) eqn:Htab; cbn [negb]; mrun; [|eexists _, p, c, m, 0; split_and!; done || lia].
    destruct (bool_decide_reflect (columns = [])) as [|Hcols]; cbn [negb]; mrun; [eexists _, p, c, m, 0; split_and!; done || lia|].
    apply dmem_false in Hmem. unfold ct_modify. rewrite run_modify. cbn [fst snd].
    set (c' := set_indexes (λ d, d ++ [(name, mkIndexMeta name table columns root_pid unique)]) c).
    assert (set_indexes (dset name (mkIndexMeta name table columns root_pid unique)) c = c') as ->.
    { unfold set_indexes, c'. by rewrite dset_absent'. }
    assert (ct_size c' = ct_size c + 1) as Hsz.
    { unfold ct_size, c'. cbn [ct_by_name ct_index_by_name set_indexes]. rewrite zlen_app. unfold zlen. cbn. lia. }
    destruct (indexes_changed p m c c' n) as (p' & m' & Hpx & Hi & Hr' & Hsame); try done; [by apply wf_create_index|lia|].
    rewrite run_assoc, (run_Ok _ _ _ _ _ Hpx). eexists _, p', c', m', 0. split_and!; try done; [lia|]. intros x _ Hx1 _. by apply Hsame.
  - cbn [ct_exec ct_spec]. unfold drop_index, ct_get. rewrite !run_assoc, run_gets. cbn [snd]. unfold dmem.
    destruct (dget name c.(ct_index_by_name)) as [im|] eqn:Hmem; cbn [of_option].
    2:{ rewrite bool_decide_false by (by intros []). mrun. eexists _, p, c, m, 0. split_and!; done || lia. }
    rewrite bool_decide_true by done. mrun.
    unfold ct_modify. rewrite run_modify. cbn [fst snd]. pose proof (ddel_length name c.(ct_index_by_name)).
    assert (ct_size (set_indexes (ddel name) c) <= ct_size c) by (unfold ct_size in *; cbn; lia).
    destruct (indexes_changed p m c (set_indexes (ddel name) c) n) as (p' & m' & Hpx & Hi & Hr' & Hsame); try done; [by apply wf_drop_index|lia|].
    rewrite run_assoc, (run_Ok _ _ _ _ _ Hpx). eexists _, p', _, m', 0. split_and!; try done; [lia|]. intros x _ Hx1 _. by apply Hsame.
Qed.

(** Several changes, each of which may raise *)
Fixpoint ct_run (ops : list ct_op) (s : P * Catalog) : list (result unit) * (P * Catalog) :=
  match ops with
  | [] => ([], s)
  | op :: ops => let '(r, s) := ct_exec op s in let '(rs, s) := ct_run ops s in (r :: rs, s)
  end.
Fixpoint ct_specs (ops : list ct_op) (heads : list Z) (c : Catalog) : list (result unit) * Catalog :=
  match ops, heads with
  | op :: ops, head :: heads => let '(r, c) := ct_spec op head c in let '(rs, c) := ct_specs ops heads c in (r :: rs, c)
  | _, _ => ([], c)
  end.
Lemma ct_run_ok ops : ∀ p m c, ct_inv (p, c) m → rooms (length ops) p → ct_size c + zlen ops < 2 ^ 16 →
  Forall (λ op, texts_ok (op_texts op)) ops →
  ∃ rs p' c' m' heads, ct_run ops (p, c) = (rs, (p', c')) ∧ (rs, c') = ct_specs ops heads c ∧ length heads = length ops ∧ ct_inv (p', c') m'.
Proof.
  induction ops as [|op ops IH]; intros p m c Hinv Hr Hs Htx.
  - exists [], p, c, m, []. by split_and!.
  - apply Forall_cons in Htx as [Ht Htx]. rewrite zlen_cons in Hs. pose proof (zlen_nonneg ops).
    destruct (ct_exec_ok op p m c (length ops) Hinv Hr ltac:(lia) Ht) as (r & p1 & c1 & m1 & head & Hx & Hsp & Hi & Hr1 & Hsz & _).
    destruct (IH p1 m1 c1 Hi Hr1 ltac:(lia) Htx) as (rs & p2 & c2 & m2 & heads & Hx2 & Hsp2 & Hl & Hi2).
    exists (r :: rs), p2, c2, m2, (head :: heads). cbn [ct_run ct_specs length]. rewrite Hx, <-Hsp, Hx2, <-Hsp2. split_and!; done || lia.
Qed.

(** C13: After any sequence of CREATE TABLE, DROP TABLE, CREATE INDEX and DROP
    INDEX the registry is what the abstract registry says, each error included,
    and a process that opens the file finds a table or an index exactly when it
    was registered and its entry fits on the catalog page; the ids it will give
    to new tables are in no use. *)
Theorem catalog_durable ops p m c : ct_inv (p, c) m → rooms (length ops) p → ct_size c + zlen ops < 2 ^ 16 →
  Forall (λ op, texts_ok (op_texts op)) ops →
  ∃ rs p' c' heads, ct_run ops (p, c) = (rs, (p', c')) ∧ (rs, c') = ct_specs ops heads c ∧ length heads = length ops ∧
    ∃ c'', open_catalog p' = (Ok c'', p') ∧
      (∀ name t, get_table name c'' = Ok t ↔ get_table name c' = Ok t ∧ t ∈ kept_tables c') ∧
      (∀ name i, get_index name c'' = Ok i ↔ get_index name c' = Ok i ∧ i ∈ kept_indexes c') ∧
      (∀ name t, get_table name c'' = Ok t → t.(tm_table_id) < c''.(ct_next_table_id)).
Proof.
  intros Hinv Hr Hs Htx. destruct (ct_run_ok ops p m c Hinv Hr Hs Htx) as (rs & p' & c' & m' & heads & Hx & Hsp & Hl & [Hst Hw Hd]).
  exists rs, p', c', heads. split_and!; [done|done|done|]. exists (reopened c'). cbn [fst snd] in *. split_and!.
  - by apply (open_catalog_reads p' m').
  - intros name t. by apply reopened_table.
  - intros name i. by apply reopened_index.
  - intros name t (_ & Hin)%reopened_table; [|done]. cbn [reopened ct_next_table_id].
    assert (∀ l z, t ∈ l ∨ t.(tm_table_id) <= z → t.(tm_table_id) <= foldl Z.max z (map tm_table_id l)) as Hmax; [|specialize (Hmax (kept_tables c') 0 (or_introl Hin)); lia].
    clear. induction l as [|y l IH]; intros z Hz; cbn.
    + destruct Hz as [[]%elem_of_nil|]; done.
    + apply IH. rewrite elem_of_cons in Hz. destruct Hz as [[->|]|]; [right; lia|by left|right; lia].
Qed.
End Operations.
