(* ===== verification/CatalogDemo.v ===== *)
(** A small [json] module with its laws, and concrete runs of the catalog: a
    restart, and a page of entries that is full. *)
From S2P Require Import Prelude.
From S2P Require Import Bytes.
From S2P Require Import Utf8.
From S2P Require Import Text.
From S2P Require Import TypeSys.
From S2P Require Import PyConv.
From S2P Require Import PyOrder.
From S2P Require Import PyDict.
From S2P Require Import Pager.
From S2P Require Import BufferPool.
From S2P Require Import Heap.
From S2P Require Import BTreeSpec.
From S2P Require Import Catalog.
From S2P Require Import CatalogSpec.
From Stdlib Require Import ZArith Lia.
Local Open Scope Z_scope.

(** * A text form of values, with lengths in front *)

Definition enc_num (z : Z) : pystr := str_of_Z z ++ [59].
Fixpoint enc_val (v : pyval) : pystr :=
  match v with
  | PyBool true => [116]
  | PyBool false => [102]
  | PyInt z => 105 :: enc_num z
  | PyStr s => 115 :: enc_num (zlen s) ++ concat (map enc_num s)
  | PyList l => 108 :: enc_num (zlen l) ++ concat (map enc_val l)
  | PyDict l => 100 :: enc_num (zlen l) ++ concat (map (λ kv, enc_val kv.1 ++ enc_val kv.2) l)
  | _ => [110]
  end.
Definition dec_num (s : pystr) : option (Z * pystr) :=
  let '(neg, s) := match s with 45 :: s => (true, s) | _ => (false, s) end in
  match span_digits s with
  | (ds, 59 :: rest) => Some (if neg : bool then - digits_val ds else digits_val ds, rest)
  | _ => None
  end.
(** [n] values, one after the other *)
Fixpoint dec_many {A} (dec : pystr → option (A * pystr)) (n : nat) (s : pystr) : option (list A * pystr) :=
  match n with
  | O => Some ([], s)
  | S n =>
      match dec s with
      | Some (x, s) => match dec_many dec n s with Some (xs, s) => Some (x :: xs, s) | None => None end
      | None => None
      end
  end.
Fixpoint dec_val (fuel : nat) (s : pystr) : option (pyval * pystr) :=
  match fuel, s with
  | S fuel, c :: s =>
      let pair s := match dec_val fuel s with
        | Some (k, s) => match dec_val fuel s with Some (v, s) => Some ((k, v), s) | None => None end
        | None => None
        end in
      if c =? 110 then Some (PyNone, s)
      else if c =? 116 then Some (PyBool true, s)
      else if c =? 102 then Some (PyBool false, s)
      else match dec_num s with
           | None => None
           | Some (n, s) =>
               if c =? 105 then Some (PyInt n, s)
               else if c =? 115 then (λ '(l, s), (PyStr l, s)) <$> dec_many dec_num (Z.to_nat n) s
               else if c =? 108 then (λ '(l, s), (PyList l, s)) <$> dec_many (dec_val fuel) (Z.to_nat n) s
               else (λ '(l, s), (PyDict l, s)) <$> dec_many pair (Z.to_nat n) s
           end
  | _, _ => None
  end.
Definition tiny_json : MetaJson := {|
  meta_dumps v := Ok (enc_val v);
  meta_loads s := match dec_val (length s) s with Some (v, []) => Ok v | _ => Err JSONDecodeError end;
|}.

Lemma dec_enc_num z rest : dec_num (enc_num z ++ rest) = Some (z, rest).
Proof.
  unfold enc_num, str_of_Z. rewrite <-app_assoc. cbn [app]. destruct (Z.ltb_spec z 0) as [Hz|Hz].
  - unfold dec_num. cbn [app]. rewrite span_digits_app by (done || (apply digits_ascii; lia)).
    rewrite digits_val_digits by lia. do 2 f_equal. lia.
  - pose proof (digits_ascii z Hz) as Ha. pose proof (digits_nonempty z) as Hne. unfold dec_num.
    assert (∀ s : pystr, match digits z ++ s with 45 :: s' => (true, s') | _ => (false, digits z ++ s) end = (false, digits z ++ s)) as Hs.
    { intros s. destruct (digits z) as [|c ds]; [done|]. apply Forall_cons in Ha as [Hc _]. apply is_ascii_digit_true in Hc.
      cbn [app]. repeat (destruct c as [|c|c]; try done; try lia). }
    rewrite Hs, span_digits_app by done. by rewrite digits_val_digits.
Qed.
Lemma dec_many_ok {A} (dec : pystr → option (A * pystr)) (enc : A → pystr) l rest :
  (∀ x rest, x ∈ l → dec (enc x ++ rest) = Some (x, rest)) → dec_many dec (length l) (concat (map enc l) ++ rest) = Some (l, rest).
Proof.
  induction l as [|x l IH]; intros Hd; cbn [length map concat dec_many]; [done|].
  rewrite <-app_assoc, Hd by (by left). rewrite IH; [done|]. intros y r Hy. apply Hd. by right.
Qed.
Lemma length_concat_elem {A} (f : A → pystr) l x : x ∈ l → (length (f x) <= length (concat (map f l)))%nat.
Proof. induction 1 as [x l|x y l _ IH]; cbn; rewrite length_app; lia. Qed.
Lemma concat_map_pieces {A} (f g : A → pystr) l : concat (map (λ x, f x ++ g x) l) = concat (map id (concat (map (λ x, [f x; g x]) l))).
Proof. induction l as [|x l IH]; [done|]. cbn. by rewrite IH, <-app_assoc. Qed.
Lemma dec_enc_val fuel : ∀ v rest, json_plain v = true → (length (enc_val v) <= fuel)%nat → dec_val fuel (enc_val v ++ rest) = Some (v, rest).
Proof.
  induction fuel as [|fuel IH]; intros v rest Hp Hf.
  { destruct v as [|[]| | | | | | | | | | | | | |]; cbn in Hf; lia. }
  assert (∀ l x rest, x ∈ l → forallb json_plain l = true → (length (concat (map enc_val l)) <= fuel)%nat →
    dec_val fuel (enc_val x ++ rest) = Some (x, rest)) as Hx.
  { intros l x r Hin Hl Hlen. apply IH.
    - rewrite forallb_forall in Hl. apply Hl. by apply list_elem_of_In.
    - pose proof (length_concat_elem enc_val l x Hin). lia. }
  destruct v as [|[]|z| |s| | | | | | |l| |l| |]; try done; cbn [enc_val] in *; cbn [app dec_val length] in *.
  - cbn [Z.eqb Pos.eqb]. by rewrite dec_enc_num.
  - cbn [Z.eqb Pos.eqb]. rewrite <-app_assoc, dec_enc_num. unfold zlen. rewrite Nat2Z.id, (dec_many_ok dec_num enc_num); [done|].
    intros z r _. apply dec_enc_num.
  - cbn [Z.eqb Pos.eqb]. rewrite <-app_assoc, dec_enc_num. unfold zlen. rewrite length_app in Hf.
    rewrite Nat2Z.id, (dec_many_ok (dec_val fuel) enc_val); [done|]. intros x r Hin. apply (Hx l); [done|done|lia].
  - cbn [Z.eqb Pos.eqb]. rewrite <-app_assoc, dec_enc_num. unfold zlen. rewrite length_app in Hf. rewrite Nat2Z.id.
    cbn [json_plain] in Hp. apply andb_prop in Hp as [Hp _].
    rewrite (dec_many_ok _ (λ kv : pyval * pyval, enc_val kv.1 ++ enc_val kv.2)); [done|]. intros [k v] r Hin. cbn [fst snd].
    pose proof (length_concat_elem (λ kv : pyval * pyval, enc_val kv.1 ++ enc_val kv.2) l (k, v) Hin) as Hlen.
    cbn [fst snd] in Hlen. rewrite length_app in Hlen.
    rewrite forallb_forall in Hp. specialize (Hp _ (proj1 (list_elem_of_In _ _) Hin)). cbn [fst snd] in Hp. apply andb_prop in Hp as [Hk Hv].
    rewrite <-app_assoc, (IH k), (IH v); [done|done|lia| |lia]. destruct k; done.
Qed.
Definition printable (s : pystr) : Prop := Forall (λ c, 32 <= c < 127) s.
Lemma printable_num z : printable (enc_num z).
Proof.
  unfold printable, enc_num, str_of_Z. apply Forall_app. split; [|by repeat constructor].
  assert (∀ n, 0 <= n → Forall (λ c, 32 <= c < 127) (digits n)) as Hd.
  { intros n Hn. eapply Forall_impl; [by apply digits_ascii|]. intros c Hc%is_ascii_digit_true. lia. }
  destruct (Z.ltb_spec z 0); [constructor; [lia|apply Hd; lia]|by apply Hd].
Qed.
Lemma printable_concat {A} (f : A → pystr) l : (∀ x, x ∈ l → printable (f x)) → printable (concat (map f l)).
Proof.
  unfold printable. induction l as [|x l IH]; intros Hl; cbn; [constructor|]. apply Forall_app. split; [apply Hl; by left|].
  apply IH. intros y Hy. apply Hl. by right.
Qed.
Lemma printable_val n : ∀ v, json_plain v = true → (length (enc_val v) <= n)%nat → printable (enc_val v).
Proof.
  induction n as [|n IH]; intros v Hp Hn.
  { destruct v as [|[]| | | | | | | | | | | | | |]; cbn in Hn; lia. }
  assert (∀ c s, 32 <= c < 127 → printable s → printable (c :: s)) as Hc by (by constructor).
  assert (∀ s s', printable s → printable s' → printable (s ++ s')) as Happ by (intros; by apply Forall_app).
  destruct v as [|[]|z| |s| | | | | | |l| |l| |]; try done; try (by repeat constructor); cbn [enc_val] in *; (apply Hc; [lia|]).
  - apply printable_num.
  - apply Happ; [apply printable_num|]. apply printable_concat. intros z _. apply printable_num.
  - apply Happ; [apply printable_num|]. apply printable_concat. intros x Hin. cbn [length] in Hn. rewrite length_app in Hn.
    apply IH; [|pose proof (length_concat_elem enc_val l x Hin); lia]. cbn [json_plain] in Hp. rewrite forallb_forall in Hp.
    apply Hp. by apply list_elem_of_In.
  - apply Happ; [apply printable_num|]. apply printable_concat. intros [k v] Hin. cbn [length] in Hn. rewrite length_app in Hn.
    pose proof (length_concat_elem (λ kv : pyval * pyval, enc_val kv.1 ++ enc_val kv.2) l (k, v) Hin) as Hlen.
    cbn [fst snd] in *. rewrite length_app in Hlen. cbn [json_plain] in Hp. apply andb_prop in Hp as [Hp _].
    rewrite forallb_forall in Hp. specialize (Hp _ (proj1 (list_elem_of_In _ _) Hin)). cbn [fst snd] in Hp. apply andb_prop in Hp as [Hk Hv].
    apply Happ; apply IH; try done; try lia. by destruct k.
Qed.
#[export] Instance tiny_json_laws : @MetaJsonLaws tiny_json.
Proof.
  split. intros v Hp. exists (enc_val v). split; [done|]. split; [by apply (printable_val (length (enc_val v)))|]. split.
  - by destruct v as [|[]| | | | | | | | | | | | | |].
  - cbn. pose proof (dec_enc_val (length (enc_val v)) v [] Hp ltac:(lia)) as Hd. rewrite app_nil_r in Hd. by rewrite Hd.
Qed.

(** * Concrete runs *)

#[export] Instance plain_conv : PyConv := {|
  str_other _ := Err TypeError; int_other _ := Err ValueError; float_other _ := Err ValueError
|}.
#[local] Existing Instance tiny_json.
Definition fresh_pages : gmap Z bytes := {[ CATALOG_PAGE := zero_page; INDEX_CATALOG_PAGE := zero_page ]}.
Lemma fresh_stores : pager_stores fresh_pager fresh_pages.
Proof.
  exists empty_store. split; [apply fresh_represents|]. intros pid d Hd.
  assert ((pid = 1 ∨ pid = 2) ∧ d = zero_page) as [Hp ->].
  { unfold fresh_pages in Hd. apply lookup_insert_Some in Hd as [[<- <-]|[_ Hd]]; [by split; [left|]|].
    apply lookup_singleton_Some in Hd as [<- <-]. by split; [right|]. }
  split_and!; [destruct Hp; lia|cbn; destruct Hp; lia|apply not_elem_of_nil|done|apply zlen_zero_page].
Qed.
Lemma fresh_catalog : ct_inv (stores := pager_stores) (fresh_pager, empty_catalog) fresh_pages.
Proof.
  assert (load_page (A := TableMeta) _deserialize_meta zero_page = Ok None ∧
          load_page (A := IndexMeta) _deserialize_index_meta zero_page = Ok None) as [Ht Hi].
  { Transparent zero_page. split; by vm_compute. }
  split; [apply fresh_stores| |].
  - split; cbn; try constructor.
  - split; exists zero_page; (split; [done|]); right; (split; [done|reflexivity]).
Qed.
Definition demo_col : Column := mkColumn (u "a") Int true true false.
Definition demo_ops : list ct_op :=
  [OpCreateTable (u "t") [demo_col]; OpCreateTable (u "t") [demo_col]; OpCreateIndex (u "i") (u "t") [u "a"] 9 true;
   OpDropIndex (u "j"); OpCreateTable (u "s") [demo_col]; OpDropTable (u "t")].
Lemma catalog_durable_witness :
  (ct_run demo_ops (fresh_pager, empty_catalog)).1 = [Ok (); Err ValueError; Ok (); Err KeyError; Ok (); Ok ()] ∧
  ∃ c'', open_catalog (ct_run demo_ops (fresh_pager, empty_catalog)).2.1 = (Ok c'', (ct_run demo_ops (fresh_pager, empty_catalog)).2.1).
Proof.
  split; [by vm_compute|].
  destruct (catalog_durable demo_ops fresh_pager fresh_pages empty_catalog fresh_catalog) as (rs & p' & c' & heads & Hx & _ & _ & c'' & Ho & _).
  - unfold pager_rooms. by vm_compute.
  - by vm_compute.
  - repeat constructor.
  - exists c''. by rewrite Hx.
Defined.

(** Tables with long names: the fourth does not fit on page 1, and is gone
    after a restart. *)
Definition long_name (c : Z) : pystr := replicate 300 c.
Definition full_ops : list ct_op := map (λ c, OpCreateTable (long_name c) [demo_col]) [97; 98; 99; 100].
Example full_page_loses_table :
  let s := (ct_run full_ops (fresh_pager, empty_catalog)).2 in
  (length (list_tables s.2), length <$> (list_tables <$> (open_catalog s.1).1)) = (4%nat, Ok 3%nat).
Proof. by vm_compute. Qed.
