(* ===== verification/Gen.v ===== *)
(** Generators: the items one yields when it is consumed to its end, and the
    exception that ends it, if any.  The executor consumes every generator
    completely.  The items of a source come before what the loop over them does:
    a loop that only reads sees the same state in either order, and an exception
    keeps its place behind the items that were yielded before it. *)
From S2P Require Import Prelude.

Definition gen (S A : Type) : Type := S → list A * option exn * S.

Section Gen.
Context {S : Type}.
Definition g_nil {A} : gen S A := λ s, ([], None, s).
(** [yield x] *)
Definition yield {A} (x : A) : gen S A := λ s, ([x], None, s).
Definition g_raise {A} (e : exn) : gen S A := λ s, ([], Some e, s).
(** [g1], then [g2] *)
Definition g_app {A} (g1 g2 : gen S A) : gen S A := λ s,
  match g1 s with
  | (xs, None, s) => let '(ys, e, s) := g2 s in (xs ++ ys, e, s)
  | r => r
  end.
(** The body of a generator function up to its first [yield] *)
Definition g_with {A B} (m : M S A) (k : A → gen S B) : gen S B := λ s,
  match m s with
  | (Ok a, s) => k a s
  | (Err e, s) => ([], Some e, s)
  end.
(** [for x in xs: body] *)
Fixpoint for_list {A B} (xs : list A) (body : A → gen S B) : gen S B :=
  match xs with
  | [] => g_nil
  | x :: xs => g_app (body x) (for_list xs body)
  end.
(** [for x in g: body] *)
Definition for_each {A B} (g : gen S A) (body : A → gen S B) : gen S B := λ s,
  let '(xs, e, s) := g s in
  match for_list xs body s with
  | (ys, None, s) => (ys, e, s)
  | r => r
  end.
(** [list(g)] *)
Definition collect {A} (g : gen S A) : M S (list A) := λ s,
  match g s with
  | (xs, None, s) => (Ok xs, s)
  | (_, Some e, s) => (Err e, s)
  end.
(** A loop over [g] that updates a local variable *)
Fixpoint fold_result {A B} (f : B → A → result B) (b : B) (xs : list A) : result B :=
  match xs with
  | [] => Ok b
  | x :: xs => b ← f b x; fold_result f b xs
  end.
Definition fold_gen {A B} (f : B → A → result B) (b : B) (g : gen S A) : M S B := λ s,
  let '(xs, e, s) := g s in
  (match fold_result f b xs, e with
   | Ok b, None => Ok b
   | Ok _, Some e => Err e
   | Err e, _ => Err e
   end, s).
(** [yield from xs] *)
Definition yield_from {A} (xs : list A) : gen S A := λ s, (xs, None, s).

(** * Laws *)

Lemma g_with_Ok {A B} (m : M S A) (k : A → gen S B) s a s' : m s = (Ok a, s') → g_with m k s = k a s'.
Proof. unfold g_with. by intros ->. Qed.
Lemma g_with_Err {A B} (m : M S A) (k : A → gen S B) s e s' : m s = (Err e, s') → g_with m k s = ([], Some e, s').
Proof. unfold g_with. by intros ->. Qed.
Lemma collect_Ok {A} (g : gen S A) s xs s' : g s = (xs, None, s') → collect g s = (Ok xs, s').
Proof. unfold collect. by intros ->. Qed.
Lemma g_app_Ok {A} (g1 g2 : gen S A) s xs s' : g1 s = (xs, None, s') →
  g_app g1 g2 s = let '(ys, e, s'') := g2 s' in (xs ++ ys, e, s'').
Proof. unfold g_app. by intros ->. Qed.
Lemma g_app_nil_r {A} (g : gen S A) s : g_app g g_nil s = g s.
Proof. unfold g_app, g_nil. destruct (g s) as [[xs [e|]] s']; by rewrite ?app_nil_r. Qed.
Lemma for_each_Ok {A B} (g : gen S A) (body : A → gen S B) s xs s' : g s = (xs, None, s') →
  for_each g body s = for_list xs body s'.
Proof. unfold for_each. intros ->. by destruct (for_list xs body s') as [[ys [e|]] s'']. Qed.
(** A loop whose body yields [f x] for each [x], from states that satisfy [I] *)
Lemma for_list_run {A B} (I : S → Prop) (f : A → list B) (xs : list A) (body : A → gen S B) :
  (∀ x s, x ∈ xs → I s → ∃ s', body x s = (f x, None, s') ∧ I s') →
  ∀ s, I s → ∃ s', for_list xs body s = (concat (map f xs), None, s') ∧ I s'.
Proof.
  induction xs as [|x xs IH]; intros Hb s Hs; cbn [for_list map concat]; [by exists s|].
  destruct (Hb x s) as (s1 & Hx & H1); [by left|done|]. rewrite (g_app_Ok _ _ _ _ _ Hx).
  destruct (IH (λ y s' Hy, Hb y s' (list_elem_of_further _ _ _ Hy)) s1 H1) as (s2 & -> & H2). by exists s2.
Qed.
(** A loop whose body does not depend on the state *)
Fixpoint for_pure {A B} (f : A → result (list B)) (xs : list A) : list B * option exn :=
  match xs with
  | [] => ([], None)
  | x :: xs =>
      match f x with
      | Ok ys => let '(zs, e) := for_pure f xs in (ys ++ zs, e)
      | Err e => ([], Some e)
      end
  end.
Lemma for_list_pure {A B} (f : A → result (list B)) xs (body : A → gen S B) s :
  (∀ x s, body x s = match f x with Ok ys => (ys, None, s) | Err e => ([], Some e, s) end) →
  for_list xs body s = (for_pure f xs, s).
Proof.
  intros Hb. induction xs as [|x xs IH]; cbn [for_list for_pure]; [done|]. unfold g_app. rewrite Hb.
  destruct (f x) as [ys|e]; [|done]. rewrite IH. by destruct (for_pure f xs) as [zs e].
Qed.
Lemma for_pure_Ok {A B} (f : A → result (list B)) xs yss : mapR f xs = Ok yss → for_pure f xs = (concat yss, None).
Proof.
  revert yss. induction xs as [|x xs IH]; intros yss; cbn; [by intros [= <-]|]. destruct (f x) as [ys|]; [|done]. cbn.
  destruct (mapR f xs) as [zss|]; [|done]. cbn. intros [= <-]. by rewrite (IH zss).
Qed.
Lemma for_pure_Err {A B} (f : A → result (list B)) xs e : mapR f xs = Err e → (for_pure f xs).2 = Some e.
Proof.
  induction xs as [|x xs IH]; cbn; [done|]. destruct (f x) as [ys|]; cbn; [|by intros [= ->]].
  destruct (mapR f xs) as [zss|]; cbn; [done|]. intros [= ->]. destruct (for_pure f xs) as [zs e']. cbn in *. by apply IH.
Qed.
End Gen.
