(* ===== verification/Aggregation.v ===== *)
(** Component [executor/aggregate.py]: accumulators, and the groups of rows. *)
From S2P Require Import Prelude.
From S2P Require Import Bytes.
From S2P Require Import Utf8.
From S2P Require Import TypeSys.
From S2P Require Import PyConv.
From S2P Require Import PyOrder.
From S2P Require Import PyDict.
From S2P Require Import EvalExpr.
From Stdlib Require Import ZArith Lia.
Local Open Scope Z_scope.

(** The slots of one aggregate *)
Record agg_state := mkAgg { ag_count : Z; ag_sum : pyval; ag_min : pyval; ag_max : pyval }.
Definition _new_state : agg_state := mkAgg 0 PyNone PyNone PyNone.

(** A column of the SELECT list: the function and its argument *)
Abbreviation agg_spec := (pystr * pystr)%type.

Section Aggregation.
Context `{ArithLib}.

(** [min(a, b)] and [max(a, b)]: the first one unless the other is better *)
Definition py_min (a b : pyval) : result pyval := lt ← py_lt b a; Ok (if lt : bool then b else a).
Definition py_max (a b : pyval) : result pyval := gt ← py_gt b a; Ok (if gt : bool then b else a).
(** [value if acc is None else f(acc, value)] *)
Definition or_first (f : pyval → pyval → result pyval) (acc value : pyval) : result pyval :=
  if is_none acc then Ok value else f acc value.

(** [has_value] is false for the [*] of COUNT *)
Definition _accumulate (state : agg_state) (func : pystr) (has_value : bool) (value : pyval) : result agg_state :=
  let '(mkAgg count sum mn mx) := state in
  if bool_decide (func = u "COUNT") then
    Ok (if has_value && is_none value then state else mkAgg (count + 1) sum mn mx)
  else if negb has_value || is_none value then Ok state
  else if bool_decide (func = u "SUM") || bool_decide (func = u "AVG") then
    sum ← py_arith Add (if py_truth sum then sum else PyInt 0) value;
    Ok (mkAgg (count + 1) sum mn mx)
  else if bool_decide (func = u "MIN") then mn ← or_first py_min mn value; Ok (mkAgg count sum mn mx)
  else if bool_decide (func = u "MAX") then mx ← or_first py_max mx value; Ok (mkAgg count sum mn mx)
  else Ok state.
Definition _finalize (state : agg_state) (func : pystr) : result pyval :=
  if bool_decide (func = u "COUNT") then Ok (PyInt state.(ag_count))
  else if bool_decide (func = u "MIN") then Ok state.(ag_min)
  else if bool_decide (func = u "MAX") then Ok state.(ag_max)
  else if state.(ag_count) =? 0 then Ok PyNone
  else if bool_decide (func = u "SUM") then Ok state.(ag_sum)
  else py_arith Div state.(ag_sum) (PyInt state.(ag_count)).

Definition _resolve (r : row) (column : pystr) (idx : n2i) : result (bool * pyval) :=
  if bool_decide (column = u "*") then Ok (false, PyNone)
  else i ← of_option UnknownColumnError (dget column idx); v ← cell r i; Ok (true, v).

(** The group of a row: [None] when one of its key columns is NULL *)
Fixpoint key_parts (keys : list pystr) (r : row) (idx : n2i) : result (option (list pyval)) :=
  match keys with
  | [] => Ok (Some [])
  | col :: keys =>
      i ← of_option UnknownColumnError (dget col idx);
      v ← cell r i;
      if is_none v then Ok None else
      parts ← key_parts keys r idx;
      Ok (option_map (cons v) parts)
  end.
(** [hash(v)]: lists, dicts, sets, bytearrays and signalling NaNs have none *)
Fixpoint hashable (v : pyval) : bool :=
  match v with
  | PyList _ | PyDict _ | PySet _ | PyBytearray _ => false
  | PyTuple l => forallb hashable l
  | PyTypedLiteral _ v => hashable v
  | _ => negb (is_snan v)
  end.
Fixpoint keys_eq (a b : list pyval) : bool :=
  match a, b with
  | [], [] => true
  | x :: a, y :: b => py_eq x y && keys_eq a b
  | _, _ => false
  end.

(** The groups in the order in which their keys were first seen: the dict
    [groups], whose keys are [order] *)
Abbreviation groups := (list (list pyval * list agg_state)).
(** One row of a group: each aggregate takes its value *)
Fixpoint accumulate_all (states : list agg_state) (aggs : list agg_spec) (r : row) (idx : n2i) : result (list agg_state) :=
  match states, aggs with
  | state :: states, (func, column) :: aggs =>
      '(has_value, value) ← _resolve r column idx;
      state ← _accumulate state func has_value value;
      states ← accumulate_all states aggs r idx;
      Ok (state :: states)
  | _, _ => Ok states
  end.
Fixpoint in_group (key : list pyval) (aggs : list agg_spec) (r : row) (idx : n2i) (gs : groups) : result groups :=
  match gs with
  | [] => states ← accumulate_all (map (λ _, _new_state) aggs) aggs r idx; Ok [(key, states)]
  | (k, states) :: gs =>
      if keys_eq key k then states ← accumulate_all states aggs r idx; Ok ((k, states) :: gs)
      else gs ← in_group key aggs r idx gs; Ok ((k, states) :: gs)
  end.
Definition group_row (keys : list pystr) (aggs : list agg_spec) (idx : n2i) (gs : groups) (r : row) : result groups :=
  key ← key_parts keys r idx;
  match key with
  | None => Ok gs
  | Some key => if forallb hashable key then in_group key aggs r idx gs else Err TypeError
  end.

Definition finalize_all (states : list agg_state) (aggs : list agg_spec) : result (list pyval) :=
  mapR (λ sf : agg_state * agg_spec, _finalize sf.1 sf.2.1) (zip states aggs).
(** The rows that [_emit] yields: one for an empty input without keys *)
Definition _emit (keys : list pystr) (aggs : list agg_spec) (gs : groups) : list (list pyval * list agg_state) :=
  match keys, gs with
  | [], [] => [([], map (λ _, _new_state) aggs)]
  | _, _ => gs
  end.
End Aggregation.
