(* ===== verification/Plan.v ===== *)
(** Components [executor/ops.py, join.py, row_iter.py]: the plan tree and what
    [open] yields for each operator, against an interface of the catalog, the
    heaps and the indexes. *)
From S2P Require Import Prelude.
From S2P Require Import Bytes.
From S2P Require Import Utf8.
From S2P Require Import Float64.
From S2P Require Import TypeSys.
From S2P Require Import Codec.
From S2P Require Import PyConv.
From S2P Require Import PyOrder.
From S2P Require Import PyDict.
From S2P Require Import Ast.
From S2P Require Import Heap.
From S2P Require Import Catalog.
From S2P Require Import EvalExpr.
From S2P Require Import Aggregation.
From S2P Require Import Gen.
From Stdlib Require Import ZArith Lia.
Local Open Scope Z_scope.

(** * The storage below the executor *)

(** What the executor asks of the catalog, the heaps and the index manager,
    whose state is [S] *)
Class ExecOps (S : Type) := {
  xo_get_table : pystr → M S TableMeta;                       (** [ctx.catalog.get_table] *)
  xo_heap_for : TableMeta → M S unit;                         (** the heap that [ctx.heap_for] binds *)
  xo_bind_heap : pystr → M S unit;                            (** the heap that [bind_heap] binds *)
  xo_scan : TableMeta → M S (list Rid);                       (** [heap.scan()] of a bound heap *)
  xo_read : TableMeta → Rid → M S (option bytes);
  xo_insert : TableMeta → bytes → M S Rid;
  xo_delete : TableMeta → Rid → M S unit;
  xo_indexes : S → option (list IndexMeta);                   (** [ctx.indexer], and its indexes *)
  xo_has_index : pystr → S → bool;                            (** [indexer.get_by_name(name) is not None] *)
  xo_equality : pystr → pyval → gen S Rid;                    (** [IndexLookup.equality] on the index *)
  xo_range : pystr → pyval → pyval → bool → bool → gen S Rid; (** [IndexLookup.range] on the index *)
  xo_check_unique : pystr → row → M S unit;
  xo_on_insert : pystr → Rid → row → M S unit;
  xo_on_delete : pystr → Rid → row → M S unit;
}.

(** The texts of literals in the labels of result columns *)
Class PyRepr := { py_repr : pyval → pystr }.
(** [TypeTag.name] *)
Definition tag_name (t : TypeTag) : pystr :=
  u match t with
    | Null => "Null" | Int => "Int" | Float => "Float" | Text => "Text" | Bool => "Bool" | Date => "Date" | Time => "Time"
    | Datetime => "Datetime" | Decimal => "Decimal" | Blob => "Blob" | Json => "Json"
    end%string.

(** * Plans *)

Inductive plan :=
  | SeqScan (table : pystr)
  | IndexScan (table index : pystr) (lo hi : pyval) (lo_inclusive hi_inclusive : bool)
  | FilterPlan (src : plan) (predicate : expr)
  | Project (src : plan) (columns : list pystr) (items : list select_item)
  | AggregatePlan (src : plan) (aggregates : list agg_spec) (keys : list pystr)
  | SortPlan (src : plan) (keys : list (pystr * bool))
  | LimitPlan (src : plan) (limit offset : pyval)
  | NestedLoopJoin (lhs rhs : plan) (on_expr : option expr) (nullable_right : bool) (alias_left alias_right : option pystr)
  | IndexedNestedLoopJoin (lhs rhs : plan) (on_expr : option expr) (kind : JoinKind) (alias_left alias_right : option pystr)
      (right_table right_index right_key_column : pystr) (left_key_alias : option pystr).

(** [Plan.table]: the leftmost leaf *)
Fixpoint plan_table (p : plan) : pystr :=
  match p with
  | SeqScan table | IndexScan table _ _ _ _ _ => table
  | FilterPlan src _ | Project src _ _ | AggregatePlan src _ _ | SortPlan src _ | LimitPlan src _ _ => plan_table src
  | NestedLoopJoin lhs _ _ _ _ _ | IndexedNestedLoopJoin lhs _ _ _ _ _ _ _ _ _ => plan_table lhs
  end.
Definition is_join (p : plan) : bool :=
  match p with NestedLoopJoin _ _ _ _ _ _ | IndexedNestedLoopJoin _ _ _ _ _ _ _ _ _ _ => true | _ => false end.
(** [while hasattr(candidate, "src") and not a join: candidate = candidate.src] *)
Fixpoint candidate (p : plan) : plan :=
  match p with
  | FilterPlan src _ | Project src _ _ | AggregatePlan src _ _ | SortPlan src _ | LimitPlan src _ _ => candidate src
  | _ => p
  end.

(** * Sort keys *)

(** A value as [_sort_key] encodes it: itself, or wrapped in a [_NegMarker] *)
Inductive sort_elt := SVal (v : pyval) | SNeg (v : pyval).
Definition _neg (v : pyval) : sort_elt :=
  match v with
  | PyBool b => SVal (PyBool (negb b))
  | PyInt z => SVal (PyInt (- z))
  | PyFloat w => SVal (PyFloat (bits_of_sf (SFopp (sf_of_bits w))))
  | _ => SNeg v
  end.
Definition sort_part (desc : bool) (v : pyval) : Z * sort_elt :=
  match v with
  | PyNone => if desc then (0, SVal (PyInt 0)) else (1, SVal (PyInt 0))
  | _ => if desc then (1, _neg v) else (0, SVal v)
  end.
Fixpoint encode_sort (col_idx : n2i) (keys : list (pystr * bool)) (r : row) : result (list (Z * sort_elt)) :=
  match keys with
  | [] => Ok []
  | (col, desc) :: keys =>
      i ← of_option KeyError (dget col col_idx);
      v ← cell r i;
      parts ← encode_sort col_idx keys r;
      Ok (sort_part desc v :: parts)
  end.
Definition elt_eq (a b : sort_elt) : result bool :=
  match a, b with
  | SVal a, SVal b | SNeg a, SNeg b => py_eq_checked a b
  | _, _ => Ok false
  end.
Definition elt_lt (a b : sort_elt) : result bool :=
  match a, b with
  | SVal a, SVal b => py_lt a b
  | SNeg a, SNeg b => py_lt b a
  | _, _ => Err TypeError
  end.
(** [<] of two key tuples: the first pair that differs decides *)
Fixpoint parts_lt (a b : list (Z * sort_elt)) : result bool :=
  match a, b with
  | (i, x) :: a, (j, y) :: b =>
      if negb (i =? j) then Ok (i <? j) else
      eq ← elt_eq x y;
      if eq : bool then parts_lt a b else elt_lt x y
  | [], _ :: _ => Ok true
  | _, [] => Ok false
  end.
(** [rows.sort(key=...)]: stable, by [<] of the keys only.  (For keys with a
    total order all stable sorts agree; which comparisons are made, and what a
    NaN does, is the insertion sort's.) *)
Fixpoint insert_sorted {A} (k : list (Z * sort_elt)) (x : A) (l : list (list (Z * sort_elt) * A))
    : result (list (list (Z * sort_elt) * A)) :=
  match l with
  | [] => Ok [(k, x)]
  | (k', y) :: l =>
      lt ← parts_lt k k';
      if lt : bool then Ok ((k, x) :: (k', y) :: l) else l ← insert_sorted k x l; Ok ((k', y) :: l)
  end.
Fixpoint sort_pairs {A} (l acc : list (list (Z * sort_elt) * A)) : result (list (list (Z * sort_elt) * A)) :=
  match l with
  | [] => Ok acc
  | (k, x) :: l => acc ← insert_sorted k x acc; sort_pairs l acc
  end.
Definition sort_rows (col_idx : n2i) (keys : list (pystr * bool)) (rows : list row) : result (list row) :=
  ks ← mapR (encode_sort col_idx keys) rows;
  sorted ← sort_pairs (zip ks rows) [];
  Ok (map snd sorted).

(** * Slices *)

(** A bound of a slice; the language also takes objects with [__index__] *)
Definition as_index (v : pyval) : result Z := of_option TypeError (as_int v).
Definition py_slice {A} (l : list A) (lo hi : Z) : list A :=
  let clamp i := Z.to_nat (if i <? 0 then Z.max 0 (i + zlen l) else i) in
  drop (clamp lo) (take (clamp hi) l).

(** * Layouts *)

Definition agg_label (a : agg_spec) : pystr := a.1 ++ 40 :: a.2 ++ [41].
(** The columns of an [Aggregate]: its keys, then its values *)
Definition agg_n2i (aggregates : list agg_spec) (keys : list pystr) : n2i :=
  dict_of (zip (keys ++ map agg_label aggregates) (seq 0 (length keys + length aggregates))).
(** The positions of the labels of a [Project] *)
Definition label_n2i (labels : list pystr) : n2i := dict_of (zip labels (seq 0 (length labels))).
Definition column_n2i (meta : TableMeta) : n2i := label_n2i (map col_name meta.(tm_columns)).
Definition max_index (idx : n2i) : nat := foldr Nat.max O (map snd idx).

(** [merge_n2i]: one join of two tables *)
Definition merge_n2i (left_n2i right_n2i : n2i) (alias_left alias_right : option pystr) : n2i :=
  let with_alias (a : option pystr) (col : pystr) (i : nat) (d : n2i) : n2i :=
    match a with Some a => dset (qualified a col) i d | None => d end in
  let left_size := length left_n2i in
  let out := foldl (λ d ci, with_alias alias_left ci.1 ci.2 (dset ci.1 ci.2 d)) [] left_n2i in
  foldl (λ d ci, let shifted := (ci.2 + left_size)%nat in with_alias alias_right ci.1 shifted (dset_new ci.1 shifted d)) out right_n2i.
(** The layout of a join from those of its sides *)
Definition join_n2i (left_n2i right_n2i : n2i) : n2i :=
  let offset := match left_n2i with [] => O | _ => S (max_index left_n2i) end in
  foldl (λ d ci, let shifted := (ci.2 + offset)%nat in
           if bool_decide (46 ∈ ci.1) then dset ci.1 shifted d else dset_new ci.1 shifted d) left_n2i right_n2i.
Definition leaf_n2i (meta : TableMeta) (alias : option pystr) : n2i :=
  match alias with
  | None => column_n2i meta
  | Some a => foldl (λ d ci, dset (qualified a ci.1) ci.2 d) (column_n2i meta)
                (zip (map col_name meta.(tm_columns)) (seq 0 (length meta.(tm_columns))))
  end.

(** The alias or table of a SELECT item: [getattr(item, "table", None)] *)
Definition item_table (item : option select_item) : option pystr :=
  match item with Some (Item (ColumnRef _ table)) => table | _ => None end.
(** The position that a qualified item names in a layout *)
Definition qualified_slot (idx : n2i) (item : option select_item) (col : pystr) : option nat :=
  item_table item ≫= λ t, dget (qualified t col) idx.
Definition _resolve_proj_index (base_idx : n2i) (item : option select_item) (col : pystr) : result nat :=
  match qualified_slot base_idx item col with
  | Some i => Ok i
  | None => of_option UnknownColumnError (dget col base_idx)
  end.

Section Open.
Context {S : Type} `{ExecOps S} `{JsonLib} `{ArithLib}.

Definition tags_of (meta : TableMeta) : list TypeTag := map col_tag meta.(tm_columns).
Definition name_to_idx_for (table : pystr) : M S n2i :=
  meta ← xo_get_table table; mret (column_n2i meta).

(** [TableScan(heap, meta)] *)
Definition TableScan (meta : TableMeta) : gen S (Rid * row) :=
  g_with (xo_scan meta) (λ rids,
  for_list rids (λ rid,
    g_with (xo_read meta rid) (λ blob,
    match blob with
    | None => g_nil
    | Some blob => g_with (lift (decode_row blob (tags_of meta))) (λ r, yield (rid, r))
    end))).

(** [row_n2i_for_plan] *)
Fixpoint row_n2i_for_plan (p : plan) (alias : option pystr) : M S n2i :=
  match p with
  | SeqScan table | IndexScan table _ _ _ _ _ => meta ← xo_get_table table; mret (leaf_n2i meta alias)
  | NestedLoopJoin lhs rhs _ _ alias_left alias_right
  | IndexedNestedLoopJoin lhs rhs _ _ alias_left alias_right _ _ _ _ =>
      left_n2i ← row_n2i_for_plan lhs alias_left;
      right_n2i ← row_n2i_for_plan rhs alias_right;
      mret (join_n2i left_n2i right_n2i)
  | FilterPlan src _ | Project src _ _ | AggregatePlan src _ _ | SortPlan src _ | LimitPlan src _ _ => row_n2i_for_plan src alias
  end.
(** The layout below an operator: of the join under its wrappers, or of the table *)
Definition source_n2i (src : plan) (table : pystr) : M S n2i :=
  if is_join (candidate src) then row_n2i_for_plan (candidate src) None else name_to_idx_for table.
Definition _project_name_to_idx (src : plan) : M S n2i :=
  match src with
  | AggregatePlan _ aggregates keys => mret (agg_n2i aggregates keys)
  | _ => source_n2i src (plan_table src)
  end.

(** * Projection *)

Definition eval_item (item : select_item) (r : row) (idx : n2i) : result pyval :=
  match item with Item e => eval_expr e r idx | Star | Aggregate _ _ => Err NotImplementedError end.
Definition project_cell (idx : n2i) (r : row) (item : option select_item) (col : pystr) : result pyval :=
  match qualified_slot idx item col with
  | Some i => cell r i
  | None =>
      match dget col idx, item with
      | Some i, _ => cell r i
      | None, Some item => eval_item item r idx
      | None, None => Err LookupError
      end
  end.
Definition project_row (idx : n2i) (columns : list pystr) (items : list select_item) (r : row) : result row :=
  mapR (λ ic : nat * pystr, project_cell idx r (items !! ic.1) ic.2) (zip (seq 0 (length columns)) columns).

(** * Joins *)

Definition _right_row_with_nulls (right_size : nat) : row := replicate right_size PyNone.
(** The rows that one left row yields, and whether one matched *)
Fixpoint match_right (on_expr : option expr) (idx : n2i) (left_row : row) (right_rows : list row) (matched : bool)
    : list row * option exn * bool :=
  match right_rows with
  | [] => ([], None, matched)
  | right_row :: right_rows =>
      let combined := left_row ++ right_row in
      match on_expr with
      | None => let '(out, e, matched) := match_right on_expr idx left_row right_rows true in (combined :: out, e, matched)
      | Some on =>
          match eval_expr on combined idx with
          | Err e => ([], Some e, matched)
          | Ok v =>
              if py_truth v then
                let '(out, e, matched) := match_right on_expr idx left_row right_rows true in (combined :: out, e, matched)
              else match_right on_expr idx left_row right_rows matched
          end
      end
  end.
Definition nested_loop_row (on_expr : option expr) (idx : n2i) (nullable_right : bool) (right_size : nat)
    (right_rows : list row) (left_row : row) : gen S row := λ s,
  match match_right on_expr idx left_row right_rows false with
  | (out, None, matched) =>
      (out ++ (if negb matched && nullable_right then [left_row ++ _right_row_with_nulls right_size] else []), None, s)
  | (out, Some e, _) => (out, Some e, s)
  end.

Definition _fetch_row (meta : TableMeta) (rid : Rid) : M S (option row) :=
  xo_heap_for meta;;
  blob ← xo_read meta rid;
  match blob with
  | None => mret None
  | Some blob => r ← lift (decode_row blob (tags_of meta)); mret (Some r)
  end.
(** The positions of the two sides of [left.col = right.col]; only the first is used *)
Definition _extract_join_keys_nested (on_expr : option expr) (full_left_n2i right_n2i : n2i) (alias_right : option pystr)
    : result (option (nat * nat)) :=
  match on_expr with
  | Some (BinaryOp op (ColumnRef lname ltable) (ColumnRef rname rtable)) =>
      if negb (bool_decide (op = u "=")) then Ok None else
      let l := match ltable ≫= λ t, dget (qualified t lname) full_left_n2i with
               | Some i => Some i
               | None => dget lname full_left_n2i
               end in
      let shift i := (i + length full_left_n2i)%nat in
      r ← (match rtable with
           | Some t => if decide (alias_right = Some t) then i ← of_option KeyError (dget rname right_n2i); Ok (Some (shift i))
                       else Ok (shift <$> dget rname right_n2i)
           | None => Ok (shift <$> dget rname right_n2i)
           end);
      Ok (match l, r with Some l, Some r => Some (l, r) | _, _ => None end)
  | _ => Ok None
  end.
Definition padded (kind : JoinKind) (right_size : nat) (left_row : row) : gen S row :=
  match kind with LEFT => yield (left_row ++ _right_row_with_nulls right_size) | INNER => g_nil end.
(** What one rid of the lookup yields *)
Definition indexed_matches (on_expr : option expr) (idx : n2i) (meta : TableMeta) (left_row : row) (rid : Rid) : gen S row :=
  g_with (_fetch_row meta rid) (λ right_row,
  match right_row with
  | None => g_nil
  | Some right_row =>
      let combined := left_row ++ right_row in
      match on_expr with
      | None => yield combined
      | Some on => g_with (lift (eval_expr on combined idx)) (λ v, if py_truth v then yield combined else g_nil)
      end
  end).
(** The body of the loop over the left rows *)
Definition indexed_row (on_expr : option expr) (idx : n2i) (kind : JoinKind) (meta : TableMeta) (right_index : pystr)
    (right_size left_key_idx : nat) (left_row : row) : gen S row :=
  g_with (lift (cell left_row left_key_idx)) (λ key,
  if is_none key then padded kind right_size left_row else λ s,
  match for_each (xo_equality right_index key) (λ rid, indexed_matches on_expr idx meta left_row rid) s with
  | ([], None, s) => padded kind right_size left_row s
  | r => r
  end).

(** * [open] *)

Definition open_scan (table : pystr) : gen S row :=
  g_with (xo_get_table table) (λ meta,
  g_with (xo_heap_for meta) (λ _,
  for_each (TableScan meta) (λ rr, yield rr.2))).
(** The equality of [IndexScan.open] *)
Definition is_equality (lo hi : pyval) (lo_inclusive hi_inclusive : bool) : result bool :=
  if is_none lo || is_none hi then Ok false else
  eq ← py_eq_checked lo hi; Ok (eq && lo_inclusive && hi_inclusive).
Definition open_index_scan (table index : pystr) (lo hi : pyval) (lo_inclusive hi_inclusive : bool) : gen S row := λ s,
  match xo_indexes s with
  | None => g_nil s
  | Some _ =>
      if negb (xo_has_index index s) then g_nil s else
      g_with (xo_get_table table) (λ meta,
      g_with (xo_heap_for meta) (λ _,
      g_with (lift (is_equality lo hi lo_inclusive hi_inclusive)) (λ eq,
      for_each (if eq : bool then xo_equality index lo else xo_range index lo hi lo_inclusive hi_inclusive) (λ rid,
        g_with (xo_read meta rid) (λ blob,
        match blob with
        | None => g_nil
        | Some blob => g_with (lift (decode_row blob (tags_of meta))) yield
        end))))) s
  end.
Definition open_filter (n2i_of : M S n2i) (src : gen S row) (predicate : expr) : gen S row :=
  g_with n2i_of (λ idx,
  for_each src (λ r,
    g_with (lift (eval_expr predicate r idx)) (λ v, if py_truth v then yield r else g_nil))).
Definition open_project (n2i_of : M S n2i) (src : gen S row) (columns : list pystr) (items : list select_item) : gen S row :=
  g_with n2i_of (λ idx,
  for_each src (λ r, g_with (lift (project_row idx columns items r)) yield)).
Definition open_aggregate (n2i_of : M S n2i) (src : gen S row) (aggregates : list agg_spec) (keys : list pystr) : gen S row :=
  g_with n2i_of (λ idx,
  g_with (fold_gen (group_row keys aggregates idx) [] src) (λ groups,
  for_list (_emit keys aggregates groups) (λ g : list pyval * list agg_state,
    g_with (lift (finalize_all g.2 aggregates)) (λ vs, yield (g.1 ++ vs))))).
Definition open_limit (src : gen S row) (limit offset : pyval) : gen S row :=
  g_with (lift (py_lt limit (PyInt 0))) (λ neg,
  if neg : bool then g_raise ValueError else
  g_with (lift (py_lt offset (PyInt 0))) (λ neg,
  if neg : bool then g_raise ValueError else
  g_with (collect src) (λ rows,
  g_with (lift (py_arith Add offset limit)) (λ stop,
  g_with (lift (as_index offset)) (λ lo,
  g_with (lift (as_index stop)) (λ hi, yield_from (py_slice rows lo hi))))))).
(** [Sort.open] once its rows and their layout are known; [slots] projects the
    sorted rows *)
Definition open_sorted (col_idx : n2i) (keys : list (pystr * bool)) (rows : list row) (slots : option (list nat)) : gen S row :=
  if negb (forallb (λ k, dmem k.1 col_idx) keys) then g_raise UnknownColumnError else
  g_with (lift (sort_rows col_idx keys rows)) (λ sorted,
  match slots with
  | None => yield_from sorted
  | Some slots => for_list sorted (λ r, g_with (lift (mapR (cell r) slots)) yield)
  end).
(** Over a [Project] whose labels lack a key, the rows below it are sorted *)
Definition open_sort_project (rows : list row) (base : gen S row) (base_idx : n2i) (columns : list pystr)
    (items : list select_item) (keys : list (pystr * bool)) : gen S row :=
  if forallb (λ k, dmem k.1 (label_n2i columns)) keys then open_sorted (label_n2i columns) keys rows None else
  g_with (collect base) (λ base_rows,
  let pairs := match items with [] => map (λ c, (None, c)) columns | _ => zip (map Some items) columns end in
  g_with (lift (mapR (λ ic : option select_item * pystr, _resolve_proj_index base_idx ic.1 ic.2) pairs)) (λ slots,
  open_sorted base_idx keys base_rows (Some slots))).
Definition open_nested_loop (layout right_n2i : M S n2i) (lhs rhs : gen S row) (on_expr : option expr) (nullable_right : bool) : gen S row :=
  g_with layout (λ merged_n2i,
  g_with right_n2i (λ right_n2i_local,
  g_with (collect rhs) (λ right_rows,
  for_each lhs (nested_loop_row on_expr merged_n2i nullable_right (length right_n2i_local) right_rows)))).
Definition open_indexed_loop (right_n2i left_n2i layout : M S n2i) (lhs : gen S row) (on_expr : option expr) (kind : JoinKind)
    (alias_right : option pystr) (right_table right_index right_key_column : pystr) : gen S row :=
  g_with right_n2i (λ right_n2i, λ s,
  match xo_indexes s with
  | None => g_nil s
  | Some _ =>
      if negb (xo_has_index right_index s) then g_nil s else
      g_with (xo_get_table right_table) (λ right_meta,
      g_with (assert (bool_decide (right_key_column ∈ map col_name right_meta.(tm_columns))) ValueError) (λ _,
      g_with left_n2i (λ full_left_n2i,
      g_with layout (λ merged_n2i,
      g_with (lift (_extract_join_keys_nested on_expr full_left_n2i right_n2i alias_right)) (λ keys,
      match keys with
      | None => g_nil
      | Some (left_key_idx, _) =>
          for_each lhs (indexed_row on_expr merged_n2i kind right_meta right_index (length right_n2i) left_key_idx)
      end))))) s
  end).

Fixpoint open (p : plan) : gen S row :=
  match p with
  | SeqScan table => open_scan table
  | IndexScan table index lo hi lo_inclusive hi_inclusive => open_index_scan table index lo hi lo_inclusive hi_inclusive
  | FilterPlan src predicate =>
      open_filter (if is_join src then row_n2i_for_plan src None else name_to_idx_for (plan_table src)) (open src) predicate
  | Project src columns items => open_project (_project_name_to_idx src) (open src) columns items
  | AggregatePlan src aggregates keys => open_aggregate (source_n2i src (plan_table src)) (open src) aggregates keys
  | SortPlan src keys =>
      g_with (collect (open src)) (λ rows,
      if bool_decide (keys = []) then yield_from rows else
      match src with
      | AggregatePlan _ aggregates agg_keys => open_sorted (agg_n2i aggregates agg_keys) keys rows None
      | Project base columns items =>
          g_with (source_n2i base (plan_table src)) (λ base_idx, open_sort_project rows (open base) base_idx columns items keys)
      | _ =>
          g_with (if is_join src then row_n2i_for_plan src None else name_to_idx_for (plan_table src)) (λ col_idx,
          open_sorted col_idx keys rows None)
      end)
  | LimitPlan src limit offset => open_limit (open src) limit offset
  | NestedLoopJoin lhs rhs on_expr nullable_right alias_left alias_right =>
      open_nested_loop (row_n2i_for_plan p None) (name_to_idx_for (plan_table rhs)) (open lhs) (open rhs) on_expr nullable_right
  | IndexedNestedLoopJoin lhs rhs on_expr kind alias_left alias_right right_table right_index right_key_column left_key_alias =>
      open_indexed_loop (name_to_idx_for (plan_table rhs)) (row_n2i_for_plan lhs left_key_alias) (row_n2i_for_plan p None)
        (open lhs) on_expr kind alias_right right_table right_index right_key_column
  end.
(** [Executor.execute] of a plan that reads *)
Definition execute (p : plan) : M S (list row) := collect (open p).
End Open.

(** [result_columns]: the labels of the result, below Sort and Limit *)
Fixpoint result_columns (p : plan) : option (list pystr) :=
  match p with
  | SortPlan src _ | LimitPlan src _ _ => result_columns src
  | Project _ columns _ => Some columns
  | AggregatePlan _ aggregates keys => Some (keys ++ map agg_label aggregates)
  | _ => None
  end.
