(* ===== verification/IndexPlan.v ===== *)
(** Component [executor/index_plan.py]: the bound on one column that a WHERE
    clause gives an index scan. *)
From S2P Require Import Prelude.
From S2P Require Import Bytes.
From S2P Require Import Utf8.
From S2P Require Import TypeSys.
From S2P Require Import PyOrder.
From S2P Require Import Ast.
From S2P Require Import EvalExpr.
From Stdlib Require Import ZArith Lia.
Local Open Scope Z_scope.

Definition _INDEXABLE_OPS : list pystr := map u ["="; "<"; "<="; ">"; ">="]%string.
Definition _LOWER_OPS : list pystr := map u [">"; ">="]%string.
Definition _UPPER_OPS : list pystr := map u ["<"; "<="]%string.

Record IndexablePredicate := mkPred {
  ip_column : pystr;
  ip_op : pystr;
  ip_value : pyval;
  ip_hi_op : option pystr;
  ip_hi_value : pyval;
}.
Definition single (column op : pystr) (value : pyval) : IndexablePredicate := mkPred column op value None PyNone.

(** The value of a [Literal] or [TypedLiteral] *)
Definition _is_literal (e : expr) : option pyval :=
  match e with Literal v | TypedLiteral _ v => Some v | _ => None end.
Definition known_column (e : expr) (known : list pystr) : option pystr :=
  match e with ColumnRef name _ => if bool_decide (name ∈ known) then Some name else None | _ => None end.
Definition _split_col_lit (lhs rhs : expr) (known : list pystr) : option (pystr * pyval) :=
  match known_column lhs known, _is_literal rhs with
  | Some col, Some v => Some (col, v)
  | _, _ =>
      match known_column rhs known, _is_literal lhs with
      | Some col, Some v => Some (col, v)
      | _, _ => None
      end
  end.
Definition _single_bound (e : expr) (known : list pystr) : option IndexablePredicate :=
  match e with
  | BinaryOp op lhs rhs =>
      if bool_decide (op ∈ _INDEXABLE_OPS) then
        match _split_col_lit lhs rhs known with
        | Some (col, lit) => if is_none lit then None else Some (single col op lit)
        | None => None
        end
      else None
  | _ => None
  end.

Definition _tighter_lower (a b : IndexablePredicate) : result IndexablePredicate :=
  gt ← py_gt a.(ip_value) b.(ip_value);
  if gt : bool then Ok a else
  gt ← py_gt b.(ip_value) a.(ip_value);
  if gt : bool then Ok b else Ok (if bool_decide (a.(ip_op) = u ">") then a else b).
Definition _tighter_upper (a b : IndexablePredicate) : result IndexablePredicate :=
  lt ← py_lt a.(ip_value) b.(ip_value);
  if lt : bool then Ok a else
  lt ← py_lt b.(ip_value) a.(ip_value);
  if lt : bool then Ok b else Ok (if bool_decide (a.(ip_op) = u "<") then a else b).
Definition _merge_lower (a b : IndexablePredicate) : result IndexablePredicate :=
  if bool_decide (a.(ip_op) = u ">" ∧ b.(ip_op) = u ">=") then
    ge ← py_ge a.(ip_value) b.(ip_value); Ok (if ge : bool then a else b)
  else if bool_decide (a.(ip_op) = u ">=" ∧ b.(ip_op) = u ">") then
    ge ← py_ge b.(ip_value) a.(ip_value); Ok (if ge : bool then b else a)
  else _tighter_lower a b.
Definition _merge_upper (a b : IndexablePredicate) : result IndexablePredicate :=
  if bool_decide (a.(ip_op) = u "<" ∧ b.(ip_op) = u "<=") then
    le ← py_le a.(ip_value) b.(ip_value); Ok (if le : bool then a else b)
  else if bool_decide (a.(ip_op) = u "<=" ∧ b.(ip_op) = u "<") then
    le ← py_le b.(ip_value) a.(ip_value); Ok (if le : bool then b else a)
  else _tighter_upper a b.
Definition _merge_same_column (a b : IndexablePredicate) : result IndexablePredicate :=
  let lower p := bool_decide (p.(ip_op) ∈ _LOWER_OPS) in
  let upper p := bool_decide (p.(ip_op) ∈ _UPPER_OPS) in
  if lower a && upper b then Ok (mkPred a.(ip_column) a.(ip_op) a.(ip_value) (Some b.(ip_op)) b.(ip_value))
  else if upper a && lower b then Ok (mkPred b.(ip_column) b.(ip_op) b.(ip_value) (Some a.(ip_op)) a.(ip_value))
  else if lower a && lower b then _merge_lower a b
  else if upper a && upper b then _merge_upper a b
  else Ok (mkPred a.(ip_column) a.(ip_op) a.(ip_value) (Some b.(ip_op)) b.(ip_value)).

Fixpoint extract_indexable (where_ : expr) (table_columns : list pystr) : result (option IndexablePredicate) :=
  match where_ with
  | BinaryOp op lhs rhs =>
      if bool_decide (op = u "AND") then
        l ← extract_indexable lhs table_columns;
        r ← extract_indexable rhs table_columns;
        match l, r with
        | Some l, Some r =>
            if bool_decide (l.(ip_column) = r.(ip_column)) then p ← _merge_same_column l r; Ok (Some p) else Ok None
        | _, _ => Ok None
        end
      else Ok (_single_bound where_ table_columns)
  | _ => Ok (_single_bound where_ table_columns)
  end.
