(* ===== verification/Logical.v ===== *)
(** Component [executor/logical.py]: the logical plan of a FROM clause, the
    rewriting of USING, and the checks of column references. *)
From S2P Require Import Prelude.
From S2P Require Import Bytes.
From S2P Require Import Utf8.
From S2P Require Import TypeSys.
From S2P Require Import PyDict.
From S2P Require Import Ast.
From S2P Require Import Catalog.
From S2P Require Import EvalExpr.
From S2P Require Import Gen.
From S2P Require Import Aggregation.
From S2P Require Import Plan.
From Stdlib Require Import ZArith Lia.
Local Open Scope Z_scope.

(** * Nodes *)

Inductive logical :=
  | TableRef_ (table : pystr) (alias : option pystr)
  | JoinNode (lhs rhs : logical) (kind : JoinKind) (on_expr : option expr) (using_cols : list pystr) (nullable_right : bool).

(** [AliasMap.aliases]: alias or bare name, to the table *)
Abbreviation AliasMap := (list (pystr * pystr)).
Fixpoint alias_entries (r : TableRef) : list (pystr * pystr) :=
  match r with
  | Table name alias => [(default name alias, name)]
  | Join l r _ _ _ _ => alias_entries l ++ alias_entries r
  end.
Definition build_alias_map (from_ref : TableRef) : AliasMap := dict_of (alias_entries from_ref).

(** * USING *)

(** [a or b] of an optional text *)
Definition or_name (a : option pystr) (name : pystr) : pystr :=
  match a with Some (c :: a) => c :: a | _ => name end.
Definition _alias_for (r : TableRef) : option pystr :=
  match r with Table name alias => Some (or_name alias name) | Join _ _ _ _ _ _ => None end.
(** [s.split(".", 1)], when there is a dot *)
Fixpoint split_dot (s : pystr) : option (pystr * pystr) :=
  match s with
  | [] => None
  | c :: s => if c =? 46 then Some ([], s) else match split_dot s with Some (a, b) => Some (c :: a, b) | None => None end
  end.
Definition _make_colref (s : pystr) : expr :=
  match split_dot s with Some (a, b) => ColumnRef b (Some a) | None => ColumnRef s None end.
Definition side_name (alias : option pystr) (col : pystr) : pystr :=
  match alias with Some (c :: a) => qualified (c :: a) col | _ => col end.
Definition using_term (left_alias right_alias : option pystr) (col : pystr) : expr :=
  BinaryOp (u "=") (_make_colref (side_name left_alias col)) (_make_colref (side_name right_alias col)).
(** The ON expression of a join: the one it has, or that of its USING columns *)
Definition rewrite_using (l r : TableRef) (on_expr : option expr) (using_ : list pystr) : option expr :=
  match map (using_term (_alias_for l) (_alias_for r)) using_ with
  | [] => on_expr
  | t :: ts => Some (foldl (BinaryOp (u "AND")) t ts)
  end.

(** * Checks *)

(** Tables that have an alias *)
Fixpoint _collect_aliased_canonicals (r : TableRef) : list pystr :=
  match r with
  | Table name (Some _) => [name]
  | Table _ None => []
  | Join l r _ _ _ _ => _collect_aliased_canonicals l ++ _collect_aliased_canonicals r
  end.
(** [out.setdefault(key, set()).add(x)] *)
Definition add_owner (key x : pystr) (d : list (pystr * list pystr)) : list (pystr * list pystr) :=
  let owners := default [] (dget key d) in
  dset key (if bool_decide (x ∈ owners) then owners else owners ++ [x]) d.
Fixpoint _collect_columns (r : TableRef) (alias_map : AliasMap) (out : list (pystr * list pystr))
    : result (list (pystr * list pystr)) :=
  match r with
  | Table name alias =>
      canonical ← of_option KeyError (dget (default name alias) alias_map);
      Ok (add_owner canonical canonical out)
  | Join l r _ _ _ _ => out ← _collect_columns l alias_map out; _collect_columns r alias_map out
  end.
Definition _column_owner_tables (column_owner : list (pystr * list pystr)) : list pystr := concat (map snd column_owner).

Fixpoint _walk_expr (e : expr) (alias_map : AliasMap) (aliased_tables : list pystr)
    (column_owner : list (pystr * list pystr)) (catalog_aware : bool) : result unit :=
  match e with
  | ColumnRef name (Some t) =>
      match dget t alias_map with
      | None =>
          if dmem t column_owner || (catalog_aware && bool_decide (t ∈ _column_owner_tables column_owner)) then
            ensure (negb (bool_decide (t ∈ aliased_tables))) BareColumnNotAliasedError
          else Err UnknownAliasError
      | Some canon => ensure (negb (bool_decide (canon ∈ aliased_tables) && bool_decide (t = canon))) BareColumnNotAliasedError
      end
  | ColumnRef name None =>
      let owners := if catalog_aware then length (default [] (dget name column_owner)) else length column_owner in
      ensure (negb (1 <? Z.of_nat owners)) AmbiguousColumnError
  | BinaryOp _ lhs rhs =>
      _walk_expr lhs alias_map aliased_tables column_owner catalog_aware;;
      _walk_expr rhs alias_map aliased_tables column_owner catalog_aware
  | _ => Ok ()
  end.
Definition validate_columns (e : expr) (alias_map : AliasMap) (from_ref : TableRef)
    (column_owner : option (list (pystr * list pystr))) : result unit :=
  let aliased_tables := _collect_aliased_canonicals from_ref in
  match column_owner with
  | Some owner => _walk_expr e alias_map aliased_tables owner true
  | None => owner ← _collect_columns from_ref alias_map []; _walk_expr e alias_map aliased_tables owner false
  end.

(** * The logical plan *)

Fixpoint _emit_from (r : TableRef) : logical :=
  match r with
  | Table name alias => TableRef_ name alias
  | Join l r kind on_expr using_ nullable_right =>
      JoinNode (_emit_from l) (_emit_from r) kind (rewrite_using l r on_expr using_) using_ nullable_right
  end.

Section Emit.
Context {S : Type} `{ExecOps S}.
(** A table that the catalog does not have is skipped *)
Fixpoint _build_catalog_owner (r : TableRef) (alias_map : AliasMap) (out : list (pystr * list pystr))
    : M S (list (pystr * list pystr)) :=
  match r with
  | Table name alias =>
      canonical ← lift (of_option KeyError (dget (default name alias) alias_map));
      meta ← catch (meta ← xo_get_table canonical; mret (Some meta)) (λ _, mret None);
      mret (match meta with
            | None => out
            | Some meta => foldl (λ d c, add_owner c.(col_name) canonical d) out meta.(tm_columns)
            end)
  | Join l r _ _ _ _ => out ← _build_catalog_owner l alias_map out; _build_catalog_owner r alias_map out
  end.
Fixpoint validate_items (items : list select_item) (alias_map : AliasMap) (from_ref : TableRef)
    (column_owner : option (list (pystr * list pystr))) : result unit :=
  match items with
  | [] => Ok ()
  | Item (ColumnRef name table) :: items =>
      validate_columns (ColumnRef name table) alias_map from_ref column_owner;;
      validate_items items alias_map from_ref column_owner
  | _ :: items => validate_items items alias_map from_ref column_owner
  end.
Definition emit_logical (stmt : SelectStmt) : M S logical :=
  let from_ref := stmt.(sel_from) in
  let alias_map := build_alias_map from_ref in
  column_owner ← _build_catalog_owner from_ref alias_map [];
  match stmt.(sel_where) with
  | Some w => lift (validate_columns w alias_map from_ref (Some column_owner))
  | None => mret ()
  end;;
  match from_ref with
  | Table _ _ => mret ()
  | Join _ _ _ _ _ _ => lift (validate_items stmt.(sel_columns) alias_map from_ref (Some column_owner))
  end;;
  mret (_emit_from from_ref).
End Emit.
