(* ===== verification/Dml.v ===== *)
(** Component [executor/dml.py]: what INSERT, UPDATE and DELETE plans do to the
    rows and the indexes of a table. *)
From S2P Require Import Prelude.
From S2P Require Import Bytes.
From S2P Require Import Utf8.
From S2P Require Import TypeSys.
From S2P Require Import Codec.
From S2P Require Import Coerce.
From S2P Require Import PyConv.
From S2P Require Import PyOrder.
From S2P Require Import PyDict.
From S2P Require Import Ast.
From S2P Require Import Heap.
From S2P Require Import Catalog.
From S2P Require Import EvalExpr.
From S2P Require Import Plan.
From Stdlib Require Import ZArith Lia.
Local Open Scope Z_scope.

(** The plans that write *)
Inductive dml_plan :=
  | InsertPlan (table : pystr) (values : list row)
  | UpdatePlan (table : pystr) (assignments : list (pystr * expr)) (predicate : option expr)
  | DeletePlan (table : pystr) (predicate : option expr).

(** The columns are in [n2i], so the position exists; a row that is too short
    raises. *)
Fixpoint _assert_not_null (r : row) (columns : list Column) (idx : n2i) : result unit :=
  match columns with
  | [] => Ok ()
  | col :: columns =>
      (if col.(col_not_null) then
         i ← of_option KeyError (dget col.(col_name) idx);
         v ← cell r i;
         ensure (negb (is_none v)) NotNullViolation
       else Ok ());;
      _assert_not_null r columns idx
  end.

Section Dml.
Context {S : Type} `{ExecOps S} `{JsonLib} `{ArithLib}.

Definition _dml_context (table : pystr) : M S (TableMeta * list TypeTag * n2i) :=
  meta ← xo_get_table table;
  xo_bind_heap table;;
  mret (meta, tags_of meta, column_n2i meta).
(** [if ctx.indexer is not None: m] *)
Definition when_indexer (m : M S unit) : M S unit := λ s,
  match xo_indexes s with Some _ => m s | None => (Ok (), s) end.
(** A loop over a list of effects *)
Fixpoint each {A} (f : A → M S unit) (l : list A) : M S unit :=
  match l with [] => mret () | x :: l => f x;; each f l end.
(** A loop that counts the rounds that were not skipped *)
Fixpoint count_each {A} (f : A → M S bool) (affected : Z) (l : list A) : M S Z :=
  match l with
  | [] => mret affected
  | x :: l => b ← f x; count_each f (if b : bool then affected + 1 else affected) l
  end.

(** The rows of VALUES, checked before anything is written *)
Fixpoint prepare (meta : TableMeta) (idx : n2i) (values : list row) : result (list row) :=
  match values with
  | [] => Ok []
  | row_list :: values =>
      ensure (bool_decide (length row_list = length meta.(tm_columns))) ValueError;;
      _assert_not_null row_list meta.(tm_columns) idx;;
      prepared ← prepare meta idx values;
      Ok (row_list :: prepared)
  end.
Definition insert_row (table : pystr) (meta : TableMeta) (tags : list TypeTag) (row_tuple : row) : M S bool :=
  blob ← lift (encode_row_coerced row_tuple tags);
  rid ← xo_insert meta blob;
  when_indexer (xo_on_insert table rid row_tuple);;
  mret true.
Definition insert_rows (table : pystr) (values : list row) : M S Z :=
  '(meta, tags, idx) ← _dml_context table;
  prepared ← lift (prepare meta idx values);
  when_indexer (each (xo_check_unique table) prepared);;
  count_each (insert_row table meta tags) 0 prepared.

(** [if predicate is not None and not eval_expr(predicate, row, n2i): continue] *)
Definition selected (predicate : option expr) (r : row) (idx : n2i) : result bool :=
  match predicate with None => Ok true | Some p => v ← eval_expr p r idx; Ok (py_truth v) end.
(** The row of a rid of the scan, unless it is gone or not selected *)
Definition selected_row (meta : TableMeta) (tags : list TypeTag) (idx : n2i) (predicate : option expr) (rid : Rid) : M S (option row) :=
  blob ← xo_read meta rid;
  match blob with
  | None => mret None
  | Some blob =>
      r ← lift (decode_row blob tags);
      b ← lift (selected predicate r idx);
      mret (if b : bool then Some r else None)
  end.
(** All the expressions see the old row *)
Fixpoint assign (assignments : list (pystr * expr)) (idx : n2i) (old_row new_row : row) : result row :=
  match assignments with
  | [] => Ok new_row
  | (col, e) :: assignments =>
      i ← of_option UnknownColumnError (dget col idx);
      v ← eval_expr e old_row idx;
      ensure (bool_decide (i < length new_row)%nat) IndexError;;
      assign assignments idx old_row (<[i := v]> new_row)
  end.
Definition update_row (table : pystr) (meta : TableMeta) (tags : list TypeTag) (idx : n2i) (assignments : list (pystr * expr))
    (predicate : option expr) (rid : Rid) : M S bool :=
  old_row ← selected_row meta tags idx predicate rid;
  match old_row with
  | None => mret false
  | Some old_row =>
      new_row ← lift (assign assignments idx old_row old_row);
      lift (_assert_not_null new_row meta.(tm_columns) idx);;
      when_indexer (xo_on_delete table rid old_row;; xo_check_unique table new_row);;
      xo_delete meta rid;;
      blob ← lift (encode_row_coerced new_row tags);
      new_rid ← xo_insert meta blob;
      when_indexer (xo_on_insert table new_rid new_row);;
      mret true
  end.
Definition update_rows (table : pystr) (assignments : list (pystr * expr)) (predicate : option expr) : M S Z :=
  '(meta, tags, idx) ← _dml_context table;
  rids ← xo_scan meta;
  count_each (update_row table meta tags idx assignments predicate) 0 rids.
Definition delete_row (table : pystr) (meta : TableMeta) (tags : list TypeTag) (idx : n2i) (predicate : option expr) (rid : Rid) : M S bool :=
  r ← selected_row meta tags idx predicate rid;
  match r with
  | None => mret false
  | Some r =>
      xo_delete meta rid;;
      when_indexer (xo_on_delete table rid r);;
      mret true
  end.
Definition delete_rows (table : pystr) (predicate : option expr) : M S Z :=
  '(meta, tags, idx) ← _dml_context table;
  rids ← xo_scan meta;
  count_each (delete_row table meta tags idx predicate) 0 rids.

(** [list(plan.open(ctx))] of a plan that writes *)
Definition execute_dml (p : dml_plan) : M S (list row) :=
  affected ← (match p with
              | InsertPlan table values => insert_rows table values
              | UpdatePlan table assignments predicate => update_rows table assignments predicate
              | DeletePlan table predicate => delete_rows table predicate
              end);
  mret [[PyInt affected]].
End Dml.
