(* ===== verification/Planner.v ===== *)
(** Components [executor/physical.py] and [planner.py]: from a statement to a
    plan. *)
From S2P Require Import Prelude.
From S2P Require Import Bytes.
From S2P Require Import Utf8.
From S2P Require Import TypeSys.
From S2P Require Import PyConv.
From S2P Require Import PyDict.
From S2P Require Import Ast.
From S2P Require Import Catalog.
From S2P Require Import EvalExpr.
From S2P Require Import Aggregation.
From S2P Require Import Plan.
From S2P Require Import IndexPlan.
From S2P Require Import Logical.
From S2P Require Import Dml.
From Stdlib Require Import ZArith Lia.
Local Open Scope Z_scope.

Definition meta_column_names (meta : TableMeta) : list pystr := map col_name meta.(tm_columns).
(** Operands of [IS NULL] and [NOT] are not walked *)
Fixpoint walk_columns (e : expr) (known : list pystr) : result unit :=
  match e with
  | ColumnRef name _ => ensure (bool_decide (name ∈ known)) UnknownColumnError
  | BinaryOp _ lhs rhs => walk_columns lhs known;; walk_columns rhs known
  | _ => Ok ()
  end.
Definition _validate_expr_columns (e : expr) (meta : TableMeta) : result unit := walk_columns e (meta_column_names meta).
Definition validate_where (e : option expr) (meta : TableMeta) : result unit :=
  match e with Some e => _validate_expr_columns e meta | None => Ok () end.

(** * Labels *)

(** [if label not in out: out.append(label)] *)
Definition add_new (label : pystr) (out : list pystr) : list pystr := if bool_decide (label ∈ out) then out else out ++ [label].
Definition agg_pairs (items : list select_item) : list agg_spec :=
  omap (λ i, match i with Aggregate func column => Some (func, column) | _ => None end) items.
Section Labels.
Context `{PyRepr}.
Definition literal_label (v : pyval) : pystr := u "L:" ++ py_repr v.
Definition typed_label (t : TypeTag) (v : pyval) : pystr := u "L[" ++ tag_name t ++ u "]:" ++ py_repr v.
(** The label of an expression that is no column *)
Definition expr_label (e : expr) : pystr :=
  match e with
  | Literal v => literal_label v
  | TypedLiteral t v => typed_label t v
  | ColumnRef name _ => name
  | BinaryOp _ _ _ => u "BinaryOp"
  | UnaryOp _ _ => u "UnaryOp"
  end.
(** [_project_columns]: only [*] and columns are entered once *)
Fixpoint project_labels (all_names : list pystr) (items : list select_item) (out : list pystr) : result (list pystr) :=
  match items with
  | [] => Ok out
  | Star :: items => project_labels all_names items (foldl (λ out c, add_new c out) out all_names)
  | Aggregate func column :: items => project_labels all_names items (out ++ [agg_label (func, column)])
  | Item (ColumnRef name _) :: items =>
      ensure (bool_decide (name ∈ all_names)) UnknownColumnError;;
      project_labels all_names items (add_new name out)
  | Item e :: items => project_labels all_names items (out ++ [expr_label e])
  end.
Definition _project_columns (stmt : SelectStmt) (meta : TableMeta) : result (list pystr) :=
  let all_names := meta_column_names meta in
  match stmt.(sel_columns) with [Star] => Ok all_names | items => project_labels all_names items [] end.
(** The labels of the projection over an aggregate of a join *)
Definition aggregate_labels (items : list select_item) : list pystr :=
  let aggs := map agg_label (agg_pairs items) in
  foldl (λ out i, match i with
                  | Star => foldl (λ out l, add_new l out) out aggs
                  | Aggregate func column => add_new (agg_label (func, column)) out
                  | Item e => add_new (expr_label e) out
                  end) [] items.
End Labels.

(** * Joins *)

Definition alias_for (node : logical) : option pystr :=
  match node with TableRef_ table alias => Some (or_name alias table) | JoinNode _ _ _ _ _ _ => None end.
Fixpoint _all_tables_in_from (r : TableRef) : list pystr :=
  match r with Table name _ => [name] | Join l r _ _ _ _ => _all_tables_in_from l ++ _all_tables_in_from r end.
Fixpoint _collect_using (r : TableRef) (out : list pystr) : list pystr :=
  match r with
  | Table _ _ => out
  | Join l r _ _ using_ _ => _collect_using r (_collect_using l (foldl (λ out c, add_new c out) out using_))
  end.
(** [_IndexJoinPlan] *)
Record IndexJoinPlan := mkIndexJoin { ij_index : pystr; ij_key_column : pystr; ij_left_alias : option pystr }.
Definition ref_belongs_to (right_table : pystr) (right_alias table : option pystr) : bool :=
  match table with None => false | Some t => bool_decide (right_alias = Some t) || bool_decide (t = right_table) end.
Definition or_else {A} (a b : option A) : option A := match a with Some _ => a | None => b end.
(** The key column of the right side, and the alias of the left one *)
Definition join_key (right_table : pystr) (right_alias alias_left : option pystr) (on_expr : option expr) : option (pystr * option pystr) :=
  match on_expr with
  | Some (BinaryOp op (ColumnRef lname ltable) (ColumnRef rname rtable)) =>
      if negb (bool_decide (op = u "=")) then None
      else if ref_belongs_to right_table right_alias rtable then Some (rname, or_else ltable alias_left)
      else if ref_belongs_to right_table right_alias ltable then Some (lname, or_else rtable alias_left)
      else None
  | _ => None
  end.
(** The first index on [column] alone *)
Definition find_index (indexes : list IndexMeta) (table column : pystr) : option IndexMeta :=
  snd <$> list_find (λ m, m.(im_table) = table ∧ m.(im_columns) = [column]) indexes.

Section Planner.
Context {S : Type} `{ExecOps S} `{PyRepr}.

Definition _require_table (name : pystr) : M S TableMeta :=
  catch (xo_get_table name) (λ e, raise (if bool_decide (e = KeyError) then UnknownTableError else e)).
(** The columns of tables, in order *)
Fixpoint columns_of_tables (tables : list pystr) : M S (list pystr) :=
  match tables with
  | [] => mret []
  | t :: tables =>
      meta ← _require_table t;
      known ← columns_of_tables tables;
      mret (meta_column_names meta ++ known)
  end.

Definition _try_indexed_join (right_node : logical) (on_expr : option expr) (alias_left : option pystr)
    (indexes : list IndexMeta) : M S (option IndexJoinPlan) :=
  match on_expr, right_node with
  | Some (BinaryOp op (ColumnRef _ _) (ColumnRef _ _)), TableRef_ table alias =>
      if negb (bool_decide (op = u "=")) then mret None else
      right_meta ← _require_table table;
      mret (match join_key table alias alias_left on_expr with
            | None => None
            | Some (key, left_alias) =>
                (λ m, mkIndexJoin m.(im_name) key left_alias) <$> find_index indexes right_meta.(tm_name) key
            end)
  | _, _ => mret None
  end.
Fixpoint emit_physical (node : logical) : M S plan :=
  match node with
  | TableRef_ table _ => meta ← _require_table table; mret (SeqScan meta.(tm_name))
  | JoinNode lhs rhs kind on_expr _ nullable_right =>
      left_plan ← emit_physical lhs;
      right_plan ← emit_physical rhs;
      let alias_left := alias_for lhs in
      let alias_right := alias_for rhs in
      right_meta ← _require_table (plan_table right_plan);
      indexer ← gets xo_indexes;
      idx_plan ← (match indexer with
                  | Some indexes => _try_indexed_join rhs on_expr alias_left indexes
                  | None => mret None
                  end);
      mret (match idx_plan with
            | Some ij => IndexedNestedLoopJoin left_plan right_plan on_expr kind alias_left alias_right
                           right_meta.(tm_name) ij.(ij_index) ij.(ij_key_column) ij.(ij_left_alias)
            | None => NestedLoopJoin left_plan right_plan on_expr nullable_right alias_left alias_right
            end)
  end.

(** * The clauses around a join *)

Definition _validate_join_where (e : expr) (stmt : SelectStmt) : M S unit :=
  known ← columns_of_tables (_all_tables_in_from stmt.(sel_from));
  lift (walk_columns e known).
(** The columns of [*], each entered once *)
Definition star_columns (stmt : SelectStmt) (out : list pystr) : M S (list pystr) :=
  columns ← columns_of_tables (_all_tables_in_from stmt.(sel_from));
  mret (foldl (λ out c, add_new c out) out columns).
Fixpoint join_labels (stmt : SelectStmt) (items : list select_item) (out : list pystr) : M S (list pystr) :=
  match items with
  | [] => mret out
  | Star :: items => out ← star_columns stmt out; join_labels stmt items out
  | Aggregate func column :: items => join_labels stmt items (add_new (agg_label (func, column)) out)
  | Item e :: items => join_labels stmt items (add_new (expr_label e) out)
  end.
(** For one [*] the columns of USING that were seen are skipped first; columns
    that were seen are never entered again *)
Definition using_step (using_cols : list pystr) (out : list pystr) (col : pystr) : list pystr :=
  if bool_decide (col ∈ using_cols) && bool_decide (col ∈ out) then out else add_new col out.
Definition _join_projection_columns (stmt : SelectStmt) : M S (list pystr) :=
  let using_cols := _collect_using stmt.(sel_from) [] in
  match stmt.(sel_columns) with
  | [Star] => columns ← columns_of_tables (_all_tables_in_from stmt.(sel_from)); mret (foldl (using_step using_cols) [] columns)
  | items => join_labels stmt items []
  end.
Definition sort_keys (stmt : SelectStmt) : list (pystr * bool) := map (λ ob, (ob.(ob_column), ob.(ob_descending))) stmt.(sel_order_by).
(** [if keys: plan = Sort(plan, keys)] *)
Definition with_sort (stmt : SelectStmt) (src : plan) : plan :=
  match stmt.(sel_order_by) with [] => src | _ => SortPlan src (sort_keys stmt) end.
(** Without LIMIT the limit is 0; the offset [offset or 0] *)
Definition with_limit (stmt : SelectStmt) (src : plan) : plan :=
  let falsy v := match v with Some v => negb (py_truth v) | None => true end in
  match stmt.(sel_limit), falsy stmt.(sel_offset) with
  | None, true => src
  | limit, no_offset => LimitPlan src (default (PyInt 0) limit) (if no_offset then PyInt 0 else default (PyInt 0) stmt.(sel_offset))
  end.
Definition is_aggregated (stmt : SelectStmt) : bool :=
  match agg_pairs stmt.(sel_columns), stmt.(sel_group_by) with [], [] => false | _, _ => true end.
Definition group_columns_known (stmt : SelectStmt) (known : list pystr) : result unit :=
  ensure (forallb (λ c, bool_decide (c ∈ known)) stmt.(sel_group_by)) UnknownColumnError.
Definition _wrap_with_select_clauses (src : plan) (stmt : SelectStmt) : M S plan :=
  src ← (match stmt.(sel_where) with
         | Some w => _validate_join_where w stmt;; mret (FilterPlan src w)
         | None => mret src
         end);
  src ← (if is_aggregated stmt then
           (match stmt.(sel_group_by) with
            | [] => mret ()
            | _ => known ← columns_of_tables (_all_tables_in_from stmt.(sel_from)); lift (group_columns_known stmt known)
            end);;
           let src := AggregatePlan src (agg_pairs stmt.(sel_columns)) stmt.(sel_group_by) in
           mret (Project src (aggregate_labels stmt.(sel_columns)) [])
         else
           columns ← _join_projection_columns stmt;
           mret (Project src columns stmt.(sel_columns)));
  mret (with_limit stmt (with_sort stmt src)).

(** * One table *)

Definition index_scan_of (meta : TableMeta) (m : IndexMeta) (pred : IndexablePredicate) : plan :=
  let closed op := bool_decide (op ∈ map u ["="; ">="; "<="]%string) in
  match pred.(ip_hi_op) with
  | None =>
      if bool_decide (pred.(ip_op) = u "=") then IndexScan meta.(tm_name) m.(im_name) pred.(ip_value) pred.(ip_value) true true
      else IndexScan meta.(tm_name) m.(im_name) pred.(ip_value) PyNone (closed pred.(ip_op)) true
  | Some hi_op => IndexScan meta.(tm_name) m.(im_name) pred.(ip_value) pred.(ip_hi_value) (closed pred.(ip_op)) (closed hi_op)
  end.
Definition _try_index_plan (predicate : expr) (meta : TableMeta) (indexer : option (list IndexMeta)) : result (option plan) :=
  pred ← extract_indexable predicate (meta_column_names meta);
  Ok (match pred, indexer with
      | Some pred, Some indexes =>
          (λ m, index_scan_of meta m pred) <$> find_index indexes meta.(tm_name) pred.(ip_column)
      | _, _ => None
      end).
(** The rows that WHERE leaves *)
Definition plan_source (w : option expr) (meta : TableMeta) (indexer : option (list IndexMeta)) : result plan :=
  match w with
  | None => Ok (SeqScan meta.(tm_name))
  | Some w =>
      index_plan ← _try_index_plan w meta indexer;
      Ok (FilterPlan (default (SeqScan meta.(tm_name)) index_plan) w)
  end.
Definition plan_table_select (stmt : SelectStmt) (name : pystr) : M S plan :=
  meta ← _require_table name;
  lift (validate_where stmt.(sel_where) meta);;
  indexer ← gets xo_indexes;
  src ← lift (plan_source stmt.(sel_where) meta indexer);
  src ← (if is_aggregated stmt then mret (AggregatePlan src (agg_pairs stmt.(sel_columns)) stmt.(sel_group_by))
         else columns ← lift (_project_columns stmt meta); mret (Project src columns stmt.(sel_columns)));
  assert (forallb (λ k, bool_decide (k.1 ∈ meta_column_names meta)) (sort_keys stmt)) UnknownColumnError;;
  lift (group_columns_known stmt (meta_column_names meta));;
  mret (with_limit stmt (with_sort stmt src)).
Definition _plan_select (stmt : SelectStmt) : M S plan :=
  match stmt.(sel_from) with
  | Table name _ => plan_table_select stmt name
  | Join _ _ _ _ _ _ =>
      logical ← emit_logical stmt;
      base ← emit_physical logical;
      _wrap_with_select_clauses base stmt
  end.

(** * DML *)

Definition index_of (c : pystr) (names : list pystr) : result nat := of_option ValueError (fst <$> list_find (eq c) names).
(** One row of VALUES over the columns of the table *)
Definition expand_row (width : nat) (idx_map : list nat) (r : row) : result row :=
  ensure (bool_decide (length r = length idx_map)) ValueError;;
  Ok (foldl (λ full iv, <[iv.1 := iv.2]> full) (replicate width PyNone) (zip idx_map r)).
Definition _plan_insert (table : pystr) (columns : option (list pystr)) (values : list row) : M S dml_plan :=
  meta ← _require_table table;
  expanded ← (match columns with
              | None => mret values
              | Some columns =>
                  let col_names := meta_column_names meta in
                  assert (forallb (λ c, bool_decide (c ∈ col_names)) columns) UnknownColumnError;;
                  idx_map ← lift (mapR (λ c, index_of c col_names) columns);
                  lift (mapR (expand_row (length col_names) idx_map) values)
              end);
  mret (InsertPlan table expanded).
Definition _plan_update (table : pystr) (set_clauses : list Assignment) (where_ : option expr) : M S dml_plan :=
  meta ← _require_table table;
  assert (forallb (λ a, bool_decide (a.(as_column) ∈ meta_column_names meta)) set_clauses) UnknownColumnError;;
  lift (validate_where where_ meta);;
  mret (UpdatePlan table (map (λ a, (a.(as_column), a.(as_value))) set_clauses) where_).
Definition _plan_delete (table : pystr) (where_ : option expr) : M S dml_plan :=
  meta ← _require_table table;
  lift (validate_where where_ meta);;
  mret (DeletePlan table where_).

(** [plan(stmt, catalog, indexer)] *)
Definition plan_statement (stmt : Statement) : M S (plan + dml_plan) :=
  match stmt with
  | Select s => p ← _plan_select s; mret (inl p)
  | Insert table columns values => p ← _plan_insert table columns values; mret (inr p)
  | Update table set_clauses where_ => p ← _plan_update table set_clauses where_; mret (inr p)
  | Delete table where_ => p ← _plan_delete table where_; mret (inr p)
  | CreateTable _ _ | DropTable _ _ | CreateIndex _ _ _ _ => raise NotImplementedError
  end.
End Planner.
