(* ===== verification/IndexScan.v ===== *)
(** Component [executor/index_scan.py]: the rids that a lookup in a B-tree
    index yields. *)
From S2P Require Import Prelude.
From S2P Require Import Bytes.
From S2P Require Import TypeSys.
From S2P Require Import Codec.
From S2P Require Import Pager.
From S2P Require Import BufferPool.
From S2P Require Import Heap.
From S2P Require Import PyOrder.
From S2P Require Import BTreeNode.
From S2P Require Import BTree.
From S2P Require Import EvalExpr.
From S2P Require Import Gen.
From Stdlib Require Import ZArith Lia.
Local Open Scope Z_scope.

(** A generator that yields what [m] returns *)
Definition of_list {S A} (m : M S (list A)) : gen S A := g_with m yield_from.

Definition _passes_lo (key lo : pyval) (lo_inclusive : bool) : result bool :=
  if is_none lo then Ok true else if lo_inclusive then py_ge key lo else py_gt key lo.
Definition _is_past_hi (key hi : pyval) (hi_inclusive : bool) : result bool :=
  if is_none hi then Ok false else if hi_inclusive then py_gt key hi else py_ge key hi.
(** The entries of one leaf, from [start] on: what is yielded, and whether the
    walk ends here *)
Fixpoint walk_entries (entries : list (pyval * Rid)) (lo hi : pyval) (lo_inclusive hi_inclusive : bool)
    : list Rid * result bool :=
  match entries with
  | [] => ([], Ok false)
  | (key, rid) :: entries =>
      match _is_past_hi key hi hi_inclusive with
      | Err e => ([], Err e)
      | Ok true => ([], Ok true)
      | Ok false =>
          match _passes_lo key lo lo_inclusive with
          | Err e => ([], Err e)
          | Ok pass =>
              let '(rids, past) := walk_entries entries lo hi lo_inclusive hi_inclusive in
              (if pass then rid :: rids else rids, past)
          end
      end
  end.

Section IndexScan.
Context `{JsonLib} {P : Type} `{PagerOps P, AllocOps P}.
Abbreviation BT := (BTreeIndex P).

Definition equality (fuel : nat) (value : pyval) : gen BT Rid := of_list (search fuel value).

(** The leftmost leaf *)
Fixpoint leftmost (fuel : nat) (n : node) : M BT LeafNode :=
  match n, fuel with
  | Leaf l, _ => mret l
  | Internal _, O => raise OutOfFuel
  | Internal n, S fuel =>
      pid ← lift (nth_or n.(in_children) 0);
      n ← on_pager (_read_node_view pid);
      leftmost fuel n
  end.
Definition _smallest_key (fuel : nat) : M BT (option pyval) :=
  n ← _ensure_loaded;
  leaf ← leftmost fuel n;
  mret (head leaf.(lf_keys)).
Fixpoint walk_chain (fuel : nat) (lo hi : pyval) (lo_inclusive hi_inclusive : bool) (leaf : LeafNode) : gen BT Rid :=
  g_with (lift (if is_none lo then Ok O else _lower_bound leaf.(lf_keys) lo)) (λ start, λ b,
  match walk_entries (drop start (zip leaf.(lf_keys) leaf.(lf_rids))) lo hi lo_inclusive hi_inclusive with
  | (rids, Err e) => (rids, Some e, b)
  | (rids, Ok true) => (rids, None, b)
  | (rids, Ok false) =>
      if leaf.(lf_next) =? NO_NEXT then (rids, None, b) else
      match fuel with
      | O => (rids, Some OutOfFuel, b)
      | S fuel =>
          g_app (yield_from rids)
            (g_with (page ← on_pager (pi_read_page leaf.(lf_next)); lift (_read_leaf_from_bytes page))
               (walk_chain fuel lo hi lo_inclusive hi_inclusive)) b
      end
  end).
Definition _walk_leaves (depth width : nat) (lo hi : pyval) (lo_inclusive hi_inclusive : bool) : gen BT Rid :=
  g_with _ensure_loaded (λ n,
  g_with (if is_none lo then _smallest_key depth else mret (Some lo)) (λ start_key,
  match start_key with
  | None | Some PyNone => g_nil
  | Some key => g_with (descend depth key n) (walk_chain width lo hi lo_inclusive hi_inclusive)
  end)).
Definition lookup_range (depth width : nat) (lo hi : pyval) (lo_inclusive hi_inclusive : bool) : gen BT Rid :=
  if negb (is_none lo) && negb (is_none hi) && lo_inclusive && hi_inclusive
  then of_list (range depth width lo hi true)
  else _walk_leaves depth width lo hi lo_inclusive hi_inclusive.
End IndexScan.
