(* ===== verification/IndexManager.v ===== *)
(** Component [index/manager.py]: the indexes of the catalog, kept in step with
    the rows. *)
From S2P Require Import Prelude.
From S2P Require Import Bytes.
From S2P Require Import Utf8.
From S2P Require Import TypeSys.
From S2P Require Import Codec.
From S2P Require Import Pager.
From S2P Require Import BufferPool.
From S2P Require Import Heap.
From S2P Require Import PyConv.
From S2P Require Import PyOrder.
From S2P Require Import PyDict.
From S2P Require Import BTreeNode.
From S2P Require Import BTree.
From S2P Require Import Catalog.
From S2P Require Import EvalExpr.
From stdpp Require Import sorting.
From Stdlib Require Import ZArith Lia.
Local Open Scope Z_scope.

Class FreeOps (P : Type) := { pi_free_page : Z → M P unit }.
Global Instance Pager_free : FreeOps Pager := {| pi_free_page := free_page |}.

(** A live [BTreeIndex]: its pager is the manager's *)
Record LiveIndex := mkLive { li_key_type : TypeTag; li_root_pid : Z; li_root_view : option node }.

Record IndexManager (P : Type) := mkIM {
  im_pager : P;
  im_catalog : Catalog;
  im_meta_by_name : list (pystr * IndexMeta);
  im_index_by_name : list (pystr * LiveIndex);
}.
Arguments mkIM {P}.
Arguments im_pager {P}.
Arguments im_catalog {P}.
Arguments im_meta_by_name {P}.
Arguments im_index_by_name {P}.

Definition _indexed_key_type (table_meta : TableMeta) (columns : list pystr) : result TypeTag :=
  let cols_by_name := dict_of (map (λ c, (c.(col_name), c)) table_meta.(tm_columns)) in
  match columns with
  | [c] => col_tag <$> of_option KeyError (dget c cols_by_name)
  | _ => Ok Json
  end.
Definition column_positions (table_meta : TableMeta) : n2i :=
  dict_of (zip (map col_name table_meta.(tm_columns)) (seq 0 (length table_meta.(tm_columns)))).
(** [row[idx[col]]] *)
Definition column_value (idx : n2i) (r : row) (col : pystr) : result pyval :=
  i ← of_option KeyError (dget col idx); cell r i.
Definition _extract_key (r : row) (columns : list pystr) (table_meta : TableMeta) : result pyval :=
  let idx := column_positions table_meta in
  match columns with
  | [c] => column_value idx r c
  | _ => PyTuple <$> mapR (column_value idx r) columns
  end.
Definition _key_contains_none (key : pyval) : bool :=
  match key with PyTuple l => existsb is_none l | _ => is_none key end.

Section IndexManager.
Context `{MetaJson} `{PyConv} `{JsonLib} {P : Type} `{PagerOps P, AllocOps P}.
(** Bounds the height of the trees and the length of the chains of pages *)
Context (fuel : nat).
Abbreviation IM := (IndexManager P).

Definition on_catalog {A} (m : M (P * Catalog) A) : M IM A :=
  zoom (λ s, (s.(im_pager), s.(im_catalog))) (λ pc s, mkIM pc.1 pc.2 s.(im_meta_by_name) s.(im_index_by_name)) m.
Definition on_im_pager {A} (m : M P A) : M IM A :=
  zoom im_pager (λ p s, mkIM p s.(im_catalog) s.(im_meta_by_name) s.(im_index_by_name)) m.
Definition set_entries (metas : list (pystr * IndexMeta) → list (pystr * IndexMeta))
    (live : list (pystr * LiveIndex) → list (pystr * LiveIndex)) : M IM unit :=
  modify (λ s, mkIM s.(im_pager) s.(im_catalog) (metas s.(im_meta_by_name)) (live s.(im_index_by_name))).
(** Run an operation of the tree of a live index *)
Definition on_index {A} (name : pystr) (m : TypeTag → M (BTreeIndex P) A) : M IM A := λ s,
  match dget name s.(im_index_by_name) with
  | None => (Err KeyError, s)
  | Some l =>
      let '(r, b) := m l.(li_key_type) (mkBTree s.(im_pager) l.(li_root_pid) l.(li_root_view)) in
      (r, mkIM b.(bt_pager) s.(im_catalog) s.(im_meta_by_name)
            (dset name (mkLive l.(li_key_type) b.(bt_root_pid) b.(bt_root_view)) s.(im_index_by_name)))
  end.
Definition table_meta_of (table : pystr) : M IM TableMeta := s ← get; lift (get_table table s.(im_catalog)).

Definition _open_index (meta : IndexMeta) : M IM LiveIndex :=
  table_meta ← table_meta_of meta.(im_table);
  key_type ← lift (_indexed_key_type table_meta meta.(im_columns));
  mret (mkLive key_type meta.(im_root_pid) None).
Fixpoint load_indexes (metas : list IndexMeta) : M IM unit :=
  match metas with
  | [] => mret ()
  | meta :: metas =>
      set_entries (dset meta.(im_name) meta) id;;
      l ← _open_index meta;
      set_entries id (dset meta.(im_name) l);;
      load_indexes metas
  end.
Definition _load_from_catalog : M IM unit := s ← get; load_indexes (all_indexes s.(im_catalog)).
(** [IndexManager(catalog, pager)] *)
Definition new_index_manager (p : P) (c : Catalog) : result unit * IM := _load_from_catalog (mkIM p c [] []).

(** [_indexes_for_table]: [None] for a name without a live index, a [KeyError] *)
Definition _indexes_for_table (table : pystr) : M IM (list IndexMeta) :=
  s ← get;
  let metas := map snd (filter (λ kv, kv.2.(im_table) = table) s.(im_meta_by_name)) in
  assert (forallb (λ m, dmem m.(im_name) s.(im_index_by_name)) metas) KeyError;;
  mret metas.

(** * Creation *)

(** A heap over the chain of the table, which has allocated a page of its own *)
Definition on_table_heap {A} (meta : TableMeta) (m : M (Heap P unit) A) : M IM A :=
  on_im_pager (λ p,
    match new_heap 0 (p, ()) with
    | (Err e, (p, _)) => (Err e, p)
    | (Ok h, _) =>
        let '(r, h) := m (mkHeap h.(hp_pager) () 0 meta.(tm_heap_pid) h.(hp_fsm)) in (r, h.(hp_pager))
    end).
(** The decoded rows of the chain; the code reads each one before it enters it
    in the index, whose pages are others. *)
Fixpoint read_rows (tags : list TypeTag) (rids : list Rid) : M (Heap P unit) (list (Rid * row)) :=
  match rids with
  | [] => mret []
  | rid :: rids =>
      blob ← Heap.read rid;
      match blob with
      | None => read_rows tags rids
      | Some blob => r ← lift (decode_row blob tags); rest ← read_rows tags rids; mret ((rid, r) :: rest)
      end
  end.
Fixpoint enter_rows (name : pystr) (idx : n2i) (columns : list pystr) (rows : list (Rid * row)) : M IM unit :=
  match rows with
  | [] => mret ()
  | (rid, r) :: rows =>
      values ← lift (mapR (column_value idx r) columns);
      (if existsb is_none values then mret ()
       else on_index name (λ t, BTree.insert t fuel (match values with [v] => v | _ => PyTuple values end) rid));;
      enter_rows name idx columns rows
  end.
Definition _backfill_index (table_meta : TableMeta) (columns : list pystr) (name : pystr) : M IM unit :=
  rows ← on_table_heap table_meta (rids ← Heap.scan fuel; read_rows (map col_tag table_meta.(tm_columns)) rids);
  enter_rows name (column_positions table_meta) columns rows.
Definition im_create_index (name table : pystr) (columns : list pystr) (unique : bool) : M IM IndexMeta :=
  s ← get;
  assert (negb (dmem name s.(im_meta_by_name))) ValueError;;
  assert (negb (bool_decide (columns = []))) ValueError;;
  table_meta ← table_meta_of table;
  assert (forallb (λ c, bool_decide (c ∈ map col_name table_meta.(tm_columns))) columns) ValueError;;
  root_pid ← on_im_pager pi_allocate_page;
  meta ← on_catalog (create_index name table columns root_pid unique);
  set_entries (dset name meta) id;;
  l ← _open_index meta;
  set_entries id (dset name l);;
  _backfill_index table_meta columns name;;
  mret meta.
Fixpoint free_pages `{FreeOps P} (pids : list Z) : M P unit :=
  match pids with
  | [] => mret ()
  | pid :: pids => (if 4 <=? pid then pi_free_page pid else mret ());; free_pages pids
  end.
(** The pages of a tree are freed in increasing order *)
Definition im_drop_index `{FreeOps P} (name : pystr) : M IM unit :=
  on_catalog (drop_index name);;
  s ← get;
  set_entries (ddel name) (ddel name);;
  match dget name s.(im_index_by_name) with
  | None => mret ()
  | Some l =>
      on_im_pager (λ p,
        let '(r, b) := all_page_ids fuel (mkBTree p l.(li_root_pid) l.(li_root_view)) in
        match r with
        | Ok pids => free_pages (merge_sort Z.le pids) b.(bt_pager)
        | Err e => (Err e, b.(bt_pager))
        end)
  end.
(** The name of the index that [get] finds *)
Definition find_live (table : pystr) (columns : list pystr) (s : IM) : option pystr :=
  (λ r, r.2.1) <$> list_find (λ kv, kv.2.(im_table) = table ∧ kv.2.(im_columns) = columns) s.(im_meta_by_name).
Definition im_list_indexes (table : option pystr) (s : IM) : list pystr :=
  match table with
  | None => sorted_names (map fst s.(im_meta_by_name))
  | Some t => sorted_names (map fst (filter (λ kv, kv.2.(im_table) = t) s.(im_meta_by_name)))
  end.

(** * Write hooks *)

(** One round of a hook: the index and its key, unless the key has a NULL *)
Fixpoint for_indexes (f : IndexMeta → pyval → M IM unit) (table_meta : TableMeta) (r : row) (metas : list IndexMeta) : M IM unit :=
  match metas with
  | [] => mret ()
  | meta :: metas =>
      key ← lift (_extract_key r meta.(im_columns) table_meta);
      (if _key_contains_none key then mret () else f meta key);;
      for_indexes f table_meta r metas
  end.
Definition ensure_absent (meta : IndexMeta) (key : pyval) : M IM unit :=
  rids ← on_index meta.(im_name) (λ t, search fuel key);
  assert (bool_decide (rids = [])) ConstraintViolation.
Definition check_unique (table : pystr) (r : row) : M IM unit :=
  table_meta ← table_meta_of table;
  metas ← _indexes_for_table table;
  for_indexes ensure_absent table_meta r (filter (λ m, m.(im_unique) = true) metas).
Definition enter (rid : Rid) (meta : IndexMeta) (key : pyval) : M IM unit :=
  (if meta.(im_unique) then ensure_absent meta key else mret ());;
  on_index meta.(im_name) (λ t, BTree.insert t fuel key rid).
Definition on_insert (table : pystr) (rid : Rid) (r : row) : M IM unit :=
  table_meta ← table_meta_of table;
  metas ← _indexes_for_table table;
  for_indexes (enter rid) table_meta r metas.
Definition on_delete (table : pystr) (rid : Rid) (r : row) : M IM unit :=
  table_meta ← table_meta_of table;
  metas ← _indexes_for_table table;
  for_indexes (λ meta key, on_index meta.(im_name) (λ t, BTree.delete t fuel key rid)) table_meta r metas.
Fixpoint update_indexes (table_meta : TableMeta) (rid : Rid) (old_row new_row : row) (metas : list IndexMeta) : M IM unit :=
  match metas with
  | [] => mret ()
  | meta :: metas =>
      old_key ← lift (_extract_key old_row meta.(im_columns) table_meta);
      new_key ← lift (_extract_key new_row meta.(im_columns) table_meta);
      (if _key_contains_none old_key then mret () else on_index meta.(im_name) (λ t, BTree.delete t fuel old_key rid));;
      (if _key_contains_none new_key then mret () else enter rid meta new_key);;
      update_indexes table_meta rid old_row new_row metas
  end.
Definition on_update (table : pystr) (rid : Rid) (old_row new_row : row) : M IM unit :=
  table_meta ← table_meta_of table;
  metas ← _indexes_for_table table;
  update_indexes table_meta rid old_row new_row metas.
End IndexManager.
