(* ===== verification/Engine.v ===== *)
(** Component [executor/executor.py] and [heap_bind.py]: the storage that plans
    run on, as one state. *)
From S2P Require Import Prelude.
From S2P Require Import Bytes.
From S2P Require Import Utf8.
From S2P Require Import TypeSys.
From S2P Require Import Codec.
From S2P Require Import Pager.
From S2P Require Import BufferPool.
From S2P Require Import FreeSpace.
From S2P Require Import Heap.
From S2P Require Import TxManager.
From S2P Require Import PyConv.
From S2P Require Import PyDict.
From S2P Require Import BTreeNode.
From S2P Require Import BTree.
From S2P Require Import Catalog.
From S2P Require Import EvalExpr.
From S2P Require Import Gen.
From S2P Require Import Plan.
From S2P Require Import IndexScan.
From S2P Require Import IndexManager.
From Stdlib Require Import ZArith Lia.
Local Open Scope Z_scope.

(** The transaction manager holds the pager that catalog, heaps and indexes
    share. *)
Record Engine (P : Type) := mkEngine {
  en_mgr : Manager P;
  en_catalog : Catalog;
  en_meta_by_name : list (pystr * IndexMeta);
  en_index_by_name : list (pystr * LiveIndex);
  en_heaps : list (Z * (Z * FreeSpaceMap));  (** [Executor._heaps]: the head page and the map of a heap *)
  en_bound : FreeSpaceMap;                   (** the map of the heap that [bind_heap] returned last *)
}.
Arguments mkEngine {P}.
Arguments en_mgr {P}.
Arguments en_catalog {P}.
Arguments en_meta_by_name {P}.
Arguments en_index_by_name {P}.
Arguments en_heaps {P}.
Arguments en_bound {P}.

Section Engine.
Context `{MetaJson} `{PyConv} `{JsonLib} {P : Type} `{PagerOps P, AllocOps P, LsnOps P}.
(** Bounds the chains of pages and the height of the trees *)
Context (fuel : nat).
Abbreviation EN := (Engine P).

Definition en_pager (e : EN) : P := e.(en_mgr).(mg_pager).
Definition with_mgr (g : Manager P) (e : EN) : EN :=
  mkEngine g e.(en_catalog) e.(en_meta_by_name) e.(en_index_by_name) e.(en_heaps) e.(en_bound).
Definition set_heaps (f : list (Z * (Z * FreeSpaceMap)) → list (Z * (Z * FreeSpaceMap))) (e : EN) : EN :=
  mkEngine e.(en_mgr) e.(en_catalog) e.(en_meta_by_name) e.(en_index_by_name) (f e.(en_heaps)) e.(en_bound).
Definition set_bound (f : FreeSpaceMap) (e : EN) : EN :=
  mkEngine e.(en_mgr) e.(en_catalog) e.(en_meta_by_name) e.(en_index_by_name) e.(en_heaps) f.
(** The index manager *)
Definition indexer_of (e : EN) : IndexManager P :=
  mkIM (en_pager e) e.(en_catalog) e.(en_meta_by_name) e.(en_index_by_name).
Definition with_indexer (s : IndexManager P) (e : EN) : EN :=
  mkEngine (with_pager_of s.(im_pager) e.(en_mgr)) s.(im_catalog) s.(im_meta_by_name) s.(im_index_by_name) e.(en_heaps) e.(en_bound).
Definition on_indexer {A} (m : M (IndexManager P) A) : M EN A := zoom indexer_of with_indexer m.
Definition en_on_catalog {A} (m : M (P * Catalog) A) : M EN A := on_indexer (on_catalog m).

(** [Heap(pager, table_id, on_page_write)]; the page it allocates is not used *)
Definition allocate_heap (table_id : Z) : M EN FreeSpaceMap := λ e,
  let '(r, (p, _)) := new_heap table_id (en_pager e, ()) in
  (match r with Ok h => Ok h.(hp_fsm) | Err x => Err x end, with_mgr (with_pager_of p e.(en_mgr)) e).
Definition heap_for (meta : TableMeta) : M EN unit :=
  e ← get;
  if dmem meta.(tm_table_id) e.(en_heaps) then mret () else
  fsm ← allocate_heap meta.(tm_table_id);
  modify (set_heaps (dset meta.(tm_table_id) (meta.(tm_heap_pid), fsm))).
Definition en_get_table (table : pystr) : M EN TableMeta := e ← get; lift (get_table table e.(en_catalog)).
Definition bind_heap (table : pystr) : M EN unit :=
  meta ← en_get_table table;
  fsm ← allocate_heap meta.(tm_table_id);
  modify (set_bound fsm).
(** Run an operation of the heap of a table: its page writes go to the log *)
Definition on_heap {A} (meta : TableMeta) (m : M (Heap P (Manager P)) A) : M EN A := λ e,
  let '(r, h) := m (mkHeap (en_pager e) e.(en_mgr) meta.(tm_table_id) meta.(tm_heap_pid) e.(en_bound)) in
  (r, set_bound h.(hp_fsm) (with_mgr (with_pager_of h.(hp_pager) h.(hp_world)) e)).
Definition log_write : option (Z → bytes → bytes → M (Manager P) unit) := Some log_page_write.

(** A lookup in a live index *)
Definition on_index_gen (name : pystr) (g : gen (BTreeIndex P) Rid) : gen EN Rid := λ e,
  match dget name e.(en_index_by_name) with
  | None => ([], Some KeyError, e)
  | Some l =>
      let '(rids, x, b) := g (mkBTree (en_pager e) l.(li_root_pid) l.(li_root_view)) in
      (rids, x, with_indexer (mkIM b.(bt_pager) e.(en_catalog) e.(en_meta_by_name)
                  (dset name (mkLive l.(li_key_type) b.(bt_root_pid) b.(bt_root_view)) e.(en_index_by_name))) e)
  end.

#[global] Instance Engine_ops : ExecOps EN := {|
  xo_get_table := en_get_table;
  xo_heap_for := heap_for;
  xo_bind_heap := bind_heap;
  xo_scan meta := on_heap meta (Heap.scan fuel);
  xo_read meta rid := on_heap meta (Heap.read rid);
  xo_insert meta blob := on_heap meta (Heap.insert log_write fuel blob);
  xo_delete meta rid := on_heap meta (Heap.delete log_write rid);
  xo_indexes e := Some (map snd e.(en_meta_by_name));
  xo_has_index name e := dmem name e.(en_index_by_name);
  xo_equality name v := on_index_gen name (equality fuel v);
  xo_range name lo hi lo_inclusive hi_inclusive := on_index_gen name (lookup_range fuel fuel lo hi lo_inclusive hi_inclusive);
  xo_check_unique table r := on_indexer (check_unique fuel table r);
  xo_on_insert table rid r := on_indexer (on_insert fuel table rid r);
  xo_on_delete table rid r := on_indexer (on_delete fuel table rid r);
|}.
End Engine.
