(* ===== verification/Database.v ===== *)
(** Component [api.py]: the database, its statements under the lock, and the
    pool of connections. *)
From S2P Require Import Prelude.
From S2P Require Import Bytes.
From S2P Require Import Utf8.
From S2P Require Import Text.
From S2P Require Import TypeSys.
From S2P Require Import Codec.
From S2P Require Import Pager.
From S2P Require Import BufferPool.
From S2P Require Import Heap.
From S2P Require Import Wal.
From S2P Require Import Recovery.
From S2P Require Import Lock.
From S2P Require Import TxManager.
From S2P Require Import Tokens.
From S2P Require Import Ast.
From S2P Require Import Parser.
From S2P Require Import PyConv.
From S2P Require Import PyDict.
From S2P Require Import Catalog.
From S2P Require Import EvalExpr.
From S2P Require Import Plan.
From S2P Require Import Dml.
From S2P Require Import Planner.
From S2P Require Import IndexManager.
From S2P Require Import Engine.
From Stdlib Require Import ZArith Lia.
Local Open Scope Z_scope.

(** [try: m finally: h] *)
Definition finally {S A} (m : M S A) (h : M S unit) : M S A := λ s,
  let '(r, s) := m s in
  match h s with (Ok _, s) => (r, s) | (Err e, s) => (Err e, s) end.

(** * The pool *)

(** The connections are handles of one database, told apart by nothing; a pool
    counts the free ones. *)
Record ConnectionPool := mkPool { cp_size : Z; cp_free : Z }.
Definition new_connection_pool (size : Z) : result ConnectionPool := ensure (0 <? size) ValueError;; Ok (mkPool size size).
(** [acquire], when it does not wait; [false] when the queue is empty *)
Definition pool_acquire : M ConnectionPool bool :=
  p ← get;
  if p.(cp_free) <=? 0 then mret false else put (mkPool p.(cp_size) (p.(cp_free) - 1));; mret true.
(** A connection for which the queue has no room is dropped *)
Definition pool_release : M ConnectionPool unit :=
  modify (λ p, mkPool p.(cp_size) (Z.min p.(cp_size) (p.(cp_free) + 1))).

(** * Schemas *)

(** [sep.join(l)] *)
Fixpoint join_with (sep : pystr) (l : list pystr) : pystr :=
  match l with [] => [] | [x] => x | x :: l => x ++ sep ++ join_with sep l end.
Definition words (l : list pystr) : pystr := join_with (u " ") l.
(** The constraints of a column, after its type *)
Definition constraint_words (c : Column) : list pystr :=
  (if c.(col_primary_key) then [u "PRIMARY KEY"] else if c.(col_unique) then [u "UNIQUE"] else []) ++
  (if c.(col_not_null) then [u "NOT NULL"] else []).
Definition schema_column (c : Column) : pystr := words (c.(col_name) :: tag_name c.(col_tag) :: constraint_words c).
Definition _TAG_TO_SQL (t : TypeTag) : option pystr :=
  match t with
  | Null => None
  | Int => Some (u "INT") | Float => Some (u "FLOAT") | Text => Some (u "TEXT") | Bool => Some (u "BOOL")
  | Date => Some (u "DATE") | Time => Some (u "TIME") | Datetime => Some (u "DATETIME") | Decimal => Some (u "DECIMAL")
  | Blob => Some (u "BLOB") | Json => Some (u "JSON")
  end.
Definition _column_to_sql (c : Column) : pystr :=
  words (c.(col_name) :: default (tag_name c.(col_tag)) (_TAG_TO_SQL c.(col_tag)) :: constraint_words c).
Definition _build_create_table_sql (table_name : pystr) (columns : list Column) : pystr :=
  u "CREATE TABLE " ++ table_name ++ u " (" ++ join_with (u ", ") (map _column_to_sql columns) ++ u ");".

Section Database.
Context `{MetaJson} `{PyConv} `{JsonLib} `{IsoLib} `{UniLib} `{ArithLib} `{PyRepr}.
Context {P : Type} `{PagerOps P, AllocOps P, LsnOps P, FreeOps P}.
(** Bounds the chains of pages and the height of the trees *)
Context (fuel : nat).
Abbreviation DB := (Engine P).
#[local] Existing Instance Engine_ops.
#[local] Instance the_ops : ExecOps DB := Engine_ops fuel.

(** [Database(path)] over the open page file and log, without a process lock:
    the catalog is read before the log is replayed. *)
Definition start_database (id : Z) (wal : WAL) (catalog : Catalog) : M P DB := λ p,
  match new_index_manager p catalog with
  | (Ok _, s) =>
      (Ok (mkEngine (new_manager id s.(im_pager) wal) s.(im_catalog) s.(im_meta_by_name) s.(im_index_by_name) [] []), s.(im_pager))
  | (Err e, s) => (Err e, s.(im_pager))
  end.
Definition open_database (id : Z) (wal : WAL) : M P DB :=
  catalog ← open_catalog; replay wal;; start_database id wal catalog.

(** * Statements *)

(** One index for each primary key column *)
Fixpoint create_keys (table : pystr) (columns : list Column) : M DB unit :=
  match columns with
  | [] => mret ()
  | c :: columns =>
      (if c.(col_primary_key) then
         _ ← on_indexer (im_create_index fuel (u "pk_" ++ table ++ u "_" ++ c.(col_name)) table [c.(col_name)] true); mret ()
       else mret ());;
      create_keys table columns
  end.
Fixpoint drop_indexes (names : list pystr) : M DB unit :=
  match names with [] => mret () | name :: names => on_indexer (im_drop_index fuel name);; drop_indexes names end.
Definition execute_ddl (stmt : Statement) : M DB unit :=
  match stmt with
  | CreateTable name columns =>
      _ ← en_on_catalog (create_table name columns);
      create_keys name columns
  | DropTable name _ =>
      e ← get;
      if bool_decide (name ∈ list_tables e.(en_catalog)) then
        drop_indexes (im_list_indexes (Some name) (indexer_of e));;
        en_on_catalog (drop_table name)
      else mret ()
  | CreateIndex name table columns unique => _ ← on_indexer (im_create_index fuel name table columns unique); mret ()
  | _ => mret ()
  end.
Definition is_ddl (stmt : Statement) : bool :=
  match stmt with CreateTable _ _ | DropTable _ _ | CreateIndex _ _ _ _ => true | _ => false end.
(** The plan of the statement: [None] for DDL *)
Definition plan_of (stmt : Statement) : M DB (option (plan + dml_plan)) :=
  if is_ddl stmt then mret None else p ← plan_statement stmt; mret (Some p).
Definition _execute_unlocked (stmt : Statement) (p : option (plan + dml_plan)) : M DB (list row) :=
  match p with
  | None => execute_ddl stmt;; mret []
  | Some (inl p) => Plan.execute p
  | Some (inr p) => execute_dml p
  end.
Definition is_write (p : option (plan + dml_plan)) : bool := match p with Some (inl _) => false | _ => true end.

Definition on_lock {A} (m : M RWLock A) : M DB A :=
  zoom en_mgr with_mgr (zoom mg_lock with_lock (on_rwlock m)).
(** [with rwlock.write()] and [with rwlock.read()] in the thread [me]: [None]
    when the thread has to wait, with nothing done *)
Definition locked {A} (write : bool) (me : Z) (m : M DB A) : M DB (option A) :=
  e ← get;
  let l := e.(en_mgr).(mg_lock).(wl_rwlock) in
  if write then
    if write_blocked l then mret None else
    on_lock (count_waiting 1;; try_write me);;
    finally (a ← m; mret (Some a)) (_ ← on_lock (release_write me); mret ())
  else
    if read_blocked l then mret None else
    _ ← on_lock try_read;
    finally (a ← m; mret (Some a)) (_ ← on_lock release_read; mret ()).
(** [execute] of a parsed statement: the plan is made before the lock *)
Definition run_statement (me : Z) (stmt : Statement) : M DB (option (list row)) :=
  p ← plan_of stmt;
  e ← get;
  match e.(en_mgr).(mg_active_tx) with
  | Some _ => rows ← _execute_unlocked stmt p; mret (Some rows)
  | None => locked (is_write p) me (_execute_unlocked stmt p)
  end.
Definition execute_sql (me : Z) (sql : pystr) : M DB (option (list row)) :=
  stmt ← lift (parse sql); run_statement me stmt.

(** * Column names *)

(** A [KeyError] or [UnknownColumnError] of the planner: no names *)
Definition _projection_columns_for (s : SelectStmt) : M DB (option (list pystr)) :=
  catch (p ← _plan_select s; mret (Some (default [] (result_columns p))))
        (λ e, if bool_decide (e = KeyError ∨ e = UnknownColumnError) then mret None else raise e).
Definition is_parse_error (e : exn) : bool := match e with ParseError _ _ | NodeParseError _ => true | _ => false end.
(** [parse], with [None] for a ParseError *)
Definition try_parse (sql : pystr) : M DB (option Statement) :=
  match parse sql with Ok stmt => mret (Some stmt) | Err e => if is_parse_error e then mret None else raise e end.
Definition columns_of_statement (stmt : option Statement) : M DB (option (list pystr)) :=
  match stmt with Some (Select s) => _projection_columns_for s | _ => mret None end.
Definition result_columns_for (sql : pystr) : M DB (option (list pystr)) :=
  stmt ← try_parse sql; columns_of_statement stmt.
Definition execute_with_columns (me : Z) (sql : pystr) : M DB (option (list row * option (list pystr))) :=
  parsed ← try_parse sql;
  columns ← columns_of_statement parsed;
  rows ← (match parsed with Some stmt => run_statement me stmt | None => execute_sql me sql end);
  mret (option_map (λ rows, (rows, columns)) rows).

(** * Introspection *)

Definition db_list_tables (e : DB) : list pystr := list_tables e.(en_catalog).
Definition get_schema (table : pystr) : M DB pystr :=
  schema ← en_get_table table;
  mret (u "CREATE TABLE " ++ table ++ u " (" ++ join_with (u ", ") (map schema_column schema.(tm_columns)) ++ u ")").
End Database.
