(* ===== verification/ProcessLock.v ===== *)
(** Component [concurrent/fcntl_lock.py] on POSIX, and its use by the log and by
    [Database.execute]. *)
From S2P Require Import Prelude.
From S2P Require Import Bytes.
From S2P Require Import Database.
From Stdlib Require Import ZArith Lia.
Local Open Scope Z_scope.

(** [fcntl.flock] on the files of all processes: a file descriptor is a number
    that no other process has; a call that would wait is [None]. *)
Inductive lock_op := LOCK_SH | LOCK_EX.
Class FLock (W : Type) := {
  flock : Z → lock_op → W → option W;
  flock_un : Z → W → W;                       (** [LOCK_UN] *)
  held : W → Z → option lock_op;
}.
(** What its manual says of the locks of one file: they belong to the descriptor,
    a lock replaces the one that it has, an exclusive one goes with no other,
    and one unlock is enough. *)
Class FLockLaws (W : Type) `{FLock W} := {
  flock_held fd op w w' : flock fd op w = Some w' → held w' fd = Some op ∧ ∀ fd', fd' ≠ fd → held w' fd' = held w fd';
  flock_alone fd op w w' fd' op' : flock fd op w = Some w' → fd' ≠ fd → held w fd' = Some op' → op = LOCK_SH ∧ op' = LOCK_SH;
  flock_released fd w : held (flock_un fd w) fd = None ∧ ∀ fd', fd' ≠ fd → held (flock_un fd w) fd' = held w fd';
}.

Record ProcessLock := mkProcessLock { pl_fp : Z; pl_exclusive : bool; pl_locked : bool }.
(** The names of systems; whether [fcntl] can be imported *)
Inductive os_name := posix (has_fcntl : bool) | nt | other_os.
Definition _ensure_locking_available (os : os_name) : result unit :=
  match os with posix has_fcntl => ensure has_fcntl RuntimeError | nt => Ok () | other_os => Err RuntimeError end.
Definition new_process_lock (os : os_name) (fp : Z) (exclusive : bool) : result ProcessLock :=
  _ensure_locking_available os;; Ok (mkProcessLock fp exclusive false).

Section ProcessLock.
Context {W : Type} `{FLock W}.

(** [__enter__]; [None] when it has to wait *)
Definition enter_lock (l : ProcessLock) : M W (option ProcessLock) :=
  if l.(pl_locked) then raise RuntimeError else
  w ← get;
  match flock l.(pl_fp) (if l.(pl_exclusive) then LOCK_EX else LOCK_SH) w with
  | None => mret None
  | Some w => put w;; mret (Some (mkProcessLock l.(pl_fp) l.(pl_exclusive) true))
  end.
Definition exit_lock (l : ProcessLock) : M W ProcessLock :=
  if l.(pl_locked) then modify (flock_un l.(pl_fp));; mret (mkProcessLock l.(pl_fp) l.(pl_exclusive) false) else mret l.
(** [with ProcessLock(fp, exclusive=exclusive): body] *)
Definition with_process_lock {A} (fp : Z) (exclusive : bool) (body : M W A) : M W (option A) :=
  l ← lift (new_process_lock (posix true) fp exclusive);
  l ← enter_lock l;
  match l with
  | None => mret None
  | Some l => finally (a ← body; mret (Some a)) (_ ← exit_lock l; mret ())
  end.
(** [WAL.append], around the writing, when [use_process_lock] is set *)
Definition locked_append (use_process_lock : bool) (fp : Z) (write : M W unit) : M W (option unit) :=
  if use_process_lock then with_process_lock fp true write else write;; mret (Some ()).
(** The part of [Database.execute] under the lock of the threads *)
Definition execute_locked {A} (use_process_lock is_write : bool) (fp : Z) (run : M W A) : M W (option A) :=
  if use_process_lock then with_process_lock fp is_write run else a ← run; mret (Some a).

Context `{!FLockLaws W}.
(** A statement runs with the lock, and it is released however it ends, if it
    leaves the lock alone. *)
Lemma runs_locked {A} fp exclusive (body : M W A) w r w' :
  with_process_lock fp exclusive body w = (r, w') →
  (r = Ok None ∧ w' = w) ∨
  ∃ w1, held w1 fp = Some (if exclusive then LOCK_EX else LOCK_SH) ∧ (∀ fd op, fd ≠ fp → held w fd = Some op → exclusive = false ∧ op = LOCK_SH) ∧
    held w' fp = None ∧ r = match (body w1).1 with Ok a => Ok (Some a) | Err e => Err e end.
Proof.
  unfold with_process_lock, new_process_lock. cbn [_ensure_locking_available ensure]. rewrite bind_Ok, run_lift_Ok.
  unfold enter_lock. cbn [pl_locked pl_fp pl_exclusive]. rewrite run_assoc, run_get.
  destruct (flock fp _ w) as [w1|] eqn:Hw; [|intros [= <- <-]; by left]. intros Hr. right. exists w1.
  destruct (flock_held _ _ _ _ Hw) as [Hh _]. split; [done|]. split.
  { intros fd op Hne Hop. destruct (flock_alone _ _ _ _ _ _ Hw Hne Hop) as [Ho ->]. by destruct exclusive. }
  revert Hr. rewrite run_assoc, run_put, run_ret. unfold finally, exit_lock. cbn [pl_locked pl_fp pl_exclusive].
  destruct ((a ← body; mret (Some a)) w1) as [r1 w2] eqn:Hb.
  mrun. intros [= <- <-]. split; [apply flock_released|].
  unfold mbind, M_bind in Hb. destruct (body w1) as [[a|e] w3]; by injection Hb as <- ?.
Qed.
(** The log is written through the descriptor that [execute] locked: when the
    first record is appended, the lock of the statement is gone. *)
Lemma append_releases_statement fp write w w' : locked_append true fp write w = (Ok (Some ()), w') → held w' fp = None.
Proof.
  unfold locked_append. intros Hr. apply runs_locked in Hr as [[? _]|(w1 & _ & _ & Hh & _)]; [done|done].
Qed.
End ProcessLock.

(** * A concrete table of locks *)

#[local] Instance table_flock : FLock (list (Z * lock_op)) := {|
  flock fd op w :=
    if forallb (λ h, (h.1 =? fd) || (match op, h.2 with LOCK_SH, LOCK_SH => true | _, _ => false end)) w
    then Some ((fd, op) :: filter (λ h, h.1 ≠ fd) w) else None;
  flock_un fd w := filter (λ h, h.1 ≠ fd) w;
  held w fd := snd <$> head (filter (λ h, h.1 = fd) w);
|}.
(** Process 1 is inside a statement that writes; it appends a record, and
    process 2, whose descriptor is 2, can lock the log before the statement of
    process 1 is over. *)
Example other_process_gets_in :
  let statement := _ ← locked_append true 1 (mret ()); w ← get; mret (match flock 2 LOCK_EX w with Some _ => true | None => false end) in
  (execute_locked true true 1 statement []).1 = Ok (Some true) ∧
  (execute_locked true true 1 (w ← get; mret (match flock 2 LOCK_EX w with Some _ => true | None => false end)) []).1 = Ok (Some false).
Proof. vm_compute. done. Qed.
