(* ===== verification/CliFormat.v ===== *)
(** Component [cli/format.py]: rows as a table, as lines, and as the columns of
    one-shot mode. *)
From S2P Require Import Prelude.
From S2P Require Import Bytes.
From S2P Require Import Utf8.
From S2P Require Import Text.
From S2P Require Import TypeSys.
From S2P Require Import Codec.
From S2P Require Import PyConv.
From S2P Require Import EvalExpr.
From S2P Require Import Plan.
From S2P Require Import Database.
From Stdlib Require Import ZArith Lia.
Local Open Scope Z_scope.

Definition _RIGHT_TYPES : list pystr :=
  map u ["INT"; "INTEGER"; "FLOAT"; "DOUBLE"; "REAL"; "DECIMAL"; "NUMERIC"; "BOOL"; "BOOLEAN"]%string.
Definition _BLOB_TYPES : list pystr := map u ["BLOB"; "BYTEA"]%string.
Record ColumnMeta := mkColumnMeta { cm_name : pystr; cm_type_name : pystr }.

(** [bytes.hex()] *)
Definition hex_digit (d : Z) : Z := if d <? 10 then 48 + d else 87 + d.
Definition hex_of (b : bytes) : pystr := concat (map (λ x, let v := Z_of_byte x in [hex_digit (v / 16); hex_digit (v mod 16)]) b).
Definition newline : pystr := [10].
Definition spaces (n : Z) : pystr := replicate (Z.to_nat n) 32.
Definition dashes (n : Z) : pystr := replicate (Z.to_nat n) 45.
(** [s.startswith(prefix)] *)
Fixpoint starts_with_text (prefix s : pystr) : bool :=
  match prefix, s with
  | [], _ => true
  | c :: prefix, d :: s => (c =? d) && starts_with_text prefix s
  | _ :: _, [] => false
  end.

Section Format.
Context `{PyConv}.

Definition _display_cell (value : pyval) (type_name : pystr) : result pystr :=
  if is_none value then Ok (u "NULL")
  else if bool_decide (type_name ∈ _BLOB_TYPES) then
    match value with
    | PyBytes b => Ok (u "0x" ++ hex_of b)
    | _ => s ← py_str value; Ok (if starts_with_text (u "0x") s then s else u "0x" ++ s)
    end
  else match value with
       | PyBool b => Ok (if b then u "1" else u "0")
       | _ => py_str value
       end.
Definition _display_width (text : pystr) : result Z := b ← utf8_encode text; Ok (zlen b).
Inductive align := AlignRight | AlignLeft.
Definition _align_for (type_name : pystr) : align := if bool_decide (upper type_name ∈ _RIGHT_TYPES) then AlignRight else AlignLeft.

(** The widths, made large enough for the cells of a row *)
Fixpoint widen_row (widths : list Z) (row : list pystr) : result (list Z) :=
  match widths, row with
  | w :: widths, cell :: row =>
      k ← _display_width cell;
      widths ← widen_row widths row;
      Ok (Z.max w k :: widths)
  | widths, _ => Ok widths
  end.
Fixpoint widen_all (widths : list Z) (cells : list (list pystr)) : result (list Z) :=
  match cells with [] => Ok widths | row :: cells => widths ← widen_row widths row; widen_all widths cells end.
Definition _border (widths : list Z) : pystr := u "+" ++ join_with (u "+") (map (λ w, dashes (w + 2)) widths) ++ u "+".
Fixpoint padded_cells (widths : list Z) (aligns : list align) (values : list pystr) : result (list pystr) :=
  match values with
  | [] => Ok []
  | v :: values =>
      match widths, aligns with
      | w :: widths, a :: aligns =>
          k ← _display_width v;
          let pad := Z.max 0 (w - k) in
          parts ← padded_cells widths aligns values;
          Ok ((match a with AlignRight => spaces pad ++ v | AlignLeft => v ++ spaces pad end) :: parts)
      | _, _ => Err IndexError
      end
  end.
Definition _row_line (widths : list Z) (aligns : list align) (values : list pystr) : result pystr :=
  parts ← padded_cells widths aligns values;
  Ok (u "| " ++ join_with (u " | ") parts ++ u " |").
Definition table_lines (rows : list row) (columns : list ColumnMeta) : result (list pystr) :=
  let headers := map cm_name columns in
  let types := map cm_type_name columns in
  let aligns := map _align_for types in
  cells ← mapR (λ r : row, mapR (λ vt, _display_cell vt.1 vt.2) (zip r types)) rows;
  widths ← mapR _display_width headers;
  widths ← widen_all widths cells;
  header_line ← _row_line widths aligns headers;
  body_lines ← mapR (_row_line widths aligns) cells;
  Ok ([_border widths; header_line; _border widths] ++ body_lines ++ [_border widths]).
Definition format_table (rows : list row) (columns : list ColumnMeta) : result pystr :=
  match columns with
  | [] => Ok []
  | _ => lines ← table_lines rows columns; Ok (join_with newline lines)
  end.

(** ** Line mode *)

Fixpoint pop_empty (l : list pystr) : list pystr :=
  match l with [] :: l => pop_empty l | _ => l end.
Definition line_row (columns : list ColumnMeta) (r : row) : result (list pystr) :=
  lines ← mapR (λ cv : ColumnMeta * pyval, s ← _display_cell cv.2 cv.1.(cm_type_name); Ok (cv.1.(cm_name) ++ u " = " ++ s)) (zip columns r);
  Ok (lines ++ [[]]).
Definition format_line_mode (rows : list row) (columns : list ColumnMeta) : result pystr :=
  match columns with
  | [] => Ok []
  | _ =>
      out ← mapR (line_row columns) rows;
      Ok (join_with newline (reverse (pop_empty (reverse (concat out)))))
  end.
(** [seconds] is the text of the elapsed time *)
Definition format_timing (n_rows : Z) (seconds : pystr) : pystr :=
  if n_rows =? 0 then u "Empty set (" ++ seconds ++ u "s)"
  else str_of_Z n_rows ++ u " rows in set (" ++ seconds ++ u "s)".
Definition col_name_of (i : nat) : pystr := u "col" ++ str_of_Z (Z.of_nat i).
Definition max_length (rows : list row) : nat := foldr Nat.max O (map length rows).
Definition infer_columns_from_rows (rows : list row) (provided : option (list pystr)) : list ColumnMeta :=
  map (λ name, mkColumnMeta name (u "TEXT"))
    (match provided with Some names => names | None => map col_name_of (seq 0 (max_length rows)) end).

(** ** One-shot mode *)

(** The header has a name for each cell of the widest row. *)
Fixpoint widen_legacy (widths : list Z) (cells : list pystr) : list Z :=
  match cells, widths with
  | [], _ => widths
  | c :: cells, [] => zlen c :: widen_legacy [] cells
  | c :: cells, w :: widths => Z.max w (zlen c) :: widen_legacy widths cells
  end.
(** [text.ljust(width)] *)
Definition ljust (text : pystr) (width : Z) : pystr := text ++ spaces (width - zlen text).
Definition legacy_line (widths : list Z) (width : nat) (cells : list pystr) : pystr :=
  join_with (u " ") (map (λ i, ljust (default [] (cells !! i)) (default 0 (widths !! i))) (seq 0 width)).
Definition format_rows (rows : list row) (columns : option (list pystr)) : result pystr :=
  match rows with
  | [] => Ok []
  | _ =>
      let row_width := max_length rows in
      let header := match columns with None => map col_name_of (seq 0 row_width) | Some names => names end in
      let header := header ++ map col_name_of (seq (length header) (row_width - length header)) in
      cells ← mapR (λ r : row, mapR py_str r) rows;
      let widths := foldl widen_legacy (map zlen header) cells in
      Ok (join_with newline (map (legacy_line widths (length header)) (header :: cells)))
  end.

(** * The table is aligned *)

Lemma display_width_app a b x y : _display_width a = Ok x → _display_width b = Ok y → _display_width (a ++ b) = Ok (x + y).
Proof.
  unfold _display_width. intros Ha Hb. destruct (utf8_encode a) as [ba|] eqn:Ea; [|done]. destruct (utf8_encode b) as [bb|] eqn:Eb; [|done].
  rewrite bind_Ok in Ha, Hb. injection Ha as <-. injection Hb as <-.
  assert (utf8_encode (a ++ b) = Ok (ba ++ bb)) as ->; [|by rewrite bind_Ok, zlen_app].
  revert ba Ea. induction a as [|c a IH]; intros ba; cbn [utf8_encode app]; [by intros [= <-]|].
  destruct (utf8_encode1 c) as [b1|]; [rewrite !bind_Ok|done]. destruct (utf8_encode a) as [b2|]; [rewrite bind_Ok|done]. intros [= <-].
  by rewrite (IH b2 eq_refl), bind_Ok, app_assoc.
Qed.
Lemma ascii_width c n : 0 <= c < 128 → _display_width (replicate n c) = Ok (Z.of_nat n).
Proof.
  intros Hc. unfold _display_width. assert (utf8_encode (replicate n c) = Ok (replicate n (byte_of_Z c))) as ->; [|by rewrite bind_Ok; unfold zlen; rewrite length_replicate].
  induction n as [|n IH]; [done|]. cbn [replicate utf8_encode]. unfold utf8_encode1, scalar, is_surrogate.
  destruct (Z.leb_spec 0 c); [|lia]. destruct (Z.leb_spec c 0x10FFFF); [|lia]. destruct (Z.leb_spec 0xD800 c); [lia|]. cbn [andb negb].
  destruct (Z.ltb_spec c 0x80); [|lia]. by rewrite bind_Ok, IH.
Qed.
Lemma spaces_width n : _display_width (spaces n) = Ok (Z.max 0 n).
Proof. unfold spaces. rewrite ascii_width by lia. f_equal. lia. Qed.
Lemma dashes_width n : 0 <= n → _display_width (dashes n) = Ok n.
Proof. intros Hn. unfold dashes. rewrite ascii_width by lia. f_equal. lia. Qed.

Definition total (ws : list Z) : Z := foldr (λ w n, w + 3 + n) 1 ws.
(** The text between blanks that make it [w] wide *)
Record shown (text part : pystr) (w : Z) : Prop := {
  sh_width : _display_width part = Ok w;
  sh_text : ∃ k, part = spaces k ++ text ∨ part = text ++ spaces k;
}.
Definition line_of (ws : list Z) (texts : list pystr) (line : pystr) : Prop :=
  ∃ parts, line = u "| " ++ join_with (u " | ") parts ++ u " |" ∧ Forall3 shown texts parts ws.

Lemma join_width sep k parts ws : _display_width sep = Ok k → Forall2 (λ p w, _display_width p = Ok w) parts ws → parts ≠ [] →
  _display_width (join_with sep parts) = Ok (foldr (λ w n, w + k + n) (- k) ws).
Proof.
  intros Hk Hp. induction Hp as [|p w parts ws Hw Hp IH]; [done|]. intros _. destruct parts as [|p' parts].
  - apply Forall2_nil_inv_l in Hp as ->. cbn [join_with foldr]. rewrite Hw. f_equal. lia.
  - change (join_with sep (p :: p' :: parts)) with (p ++ sep ++ join_with sep (p' :: parts)).
    rewrite (display_width_app _ _ w (k + foldr (λ w n, w + k + n) (- k) ws)); [|done|by apply display_width_app; [|apply IH]].
    cbn [foldr]. f_equal. lia.
Qed.
Lemma total_fold ws : foldr (λ w n, w + 3 + n) (- (3)) ws + 4 = total ws.
Proof. unfold total. induction ws as [|w ws IH]; [done|]. cbn [foldr]. lia. Qed.
Lemma line_width ws texts line : texts ≠ [] → line_of ws texts line → _display_width line = Ok (total ws).
Proof.
  intros Hne (parts & -> & Hp).
  assert (Forall2 (λ p w, _display_width p = Ok w) parts ws) as Hw by (clear Hne; induction Hp as [|?????? [] _ IH]; constructor; done).
  assert (parts ≠ []) as Hpn by by destruct Hp.
  erewrite display_width_app; [|by vm_compute|eapply display_width_app; [by apply (join_width (u " | ") 3)|by vm_compute]].
  rewrite <-total_fold. f_equal. lia.
Qed.
Lemma border_width ws : ws ≠ [] → Forall (λ w, 0 <= w) ws → _display_width (_border ws) = Ok (total ws).
Proof.
  intros Hne Hw. unfold _border.
  assert (Forall2 (λ p w, _display_width p = Ok w) (map (λ w, dashes (w + 2)) ws) (map (λ w, w + 2) ws)) as Hd.
  { induction Hw as [|w ws Hw0 Hws IH]; [constructor|]. destruct ws as [|w' ws]; cbn [map]; (constructor; [apply dashes_width; lia|]); [constructor|by apply IH]. }
  erewrite display_width_app; [|by vm_compute|eapply display_width_app; [apply (join_width (u "+") 1); [by vm_compute|exact Hd|by destruct ws]|by vm_compute]].
  f_equal. unfold total. clear. induction ws as [|w ws IH]; [done|]. cbn [map foldr]. lia.
Qed.

Definition narrow (cell : pystr) (w : Z) : Prop := ∃ k, _display_width cell = Ok k ∧ k <= w.
Lemma le_refl_all ws : Forall2 Z.le ws ws.
Proof. induction ws; constructor; [lia|done]. Qed.
Lemma le_trans_all ws1 ws2 ws3 : Forall2 Z.le ws1 ws2 → Forall2 Z.le ws2 ws3 → Forall2 Z.le ws1 ws3.
Proof. intros H1. revert ws3. induction H1; intros ws3 H3; inversion H3; subst; constructor; [lia|auto]. Qed.
Lemma widen_spec ws cells ws' : (length cells <= length ws)%nat → widen_row ws cells = Ok ws' →
  Forall2 Z.le ws ws' ∧ Forall2 narrow cells (take (length cells) ws').
Proof.
  revert cells ws'. induction ws as [|w ws IH]; intros [|c cells] ws' Hl; cbn [widen_row].
  - intros [= <-]. by split; constructor.
  - cbn in Hl. lia.
  - intros [= <-]. split; [|constructor]. apply le_refl_all.
  - destruct (_display_width c) as [k|] eqn:Hk; [rewrite bind_Ok|done]. destruct (widen_row ws cells) as [ws1|] eqn:Hw; [rewrite bind_Ok|done].
    intros [= <-]. destruct (IH cells ws1) as [H1 H2]; [cbn in Hl; lia|done|]. split; constructor; try done; [lia|]. exists k. split; [done|lia].
Qed.
Lemma narrow_le cells ws ws' : Forall2 narrow cells ws → Forall2 Z.le ws ws' → Forall2 narrow cells ws'.
Proof.
  intros Hc. revert ws'. induction Hc as [|c w cells ws (k & Hk & Hle) Hc IH]; intros ws' Hw; inversion Hw; subst; constructor; [|auto].
  exists k. split; [done|lia].
Qed.
Lemma widen_all_spec cells : ∀ ws ws', Forall (λ row : list pystr, length row = length ws) cells → widen_all ws cells = Ok ws' →
  Forall2 Z.le ws ws' ∧ Forall (λ row, Forall2 narrow row ws') cells.
Proof.
  induction cells as [|row cells IH]; intros ws ws' Hl; cbn [widen_all].
  - intros [= <-]. split; [apply le_refl_all|constructor].
  - apply Forall_cons in Hl as [Hr Hl]. destruct (widen_row ws row) as [ws1|] eqn:Hw; [rewrite bind_Ok|done]. intros Hx.
    destruct (widen_spec ws row ws1) as [H1 H2]; [lia|done|]. pose proof (Forall2_length _ _ _ H1) as Hlen.
    rewrite Hr, Hlen, take_ge in H2 by lia. destruct (IH ws1 ws') as [H3 H4]; [by rewrite <-Hlen|done|].
    split; [by eapply le_trans_all|]. constructor; [by eapply narrow_le|done].
Qed.
Lemma padded_spec ws aligns cells : Forall2 narrow cells ws → length aligns = length ws →
  ∃ parts, padded_cells ws aligns cells = Ok parts ∧ Forall3 shown cells parts ws.
Proof.
  intros Hc. revert aligns. induction Hc as [|c w cells ws (k & Hk & Hle) Hc IH]; intros [|a aligns] Hl; try done.
  - exists []. split; [done|constructor].
  - injection Hl as Hl. destruct (IH aligns Hl) as (parts & Hp & Hs). cbn [padded_cells]. rewrite Hk, bind_Ok, Hp, bind_Ok.
    eexists. split; [reflexivity|]. constructor; [|done]. destruct a; split.
    + rewrite (display_width_app _ _ (Z.max 0 (Z.max 0 (w - k))) k); [f_equal; lia|apply spaces_width|done].
    + eexists. by left.
    + rewrite (display_width_app _ _ k (Z.max 0 (Z.max 0 (w - k)))); [f_equal; lia|done|apply spaces_width].
    + eexists. by right.
Qed.
Lemma row_line_spec ws aligns cells : Forall2 narrow cells ws → length aligns = length ws →
  ∃ line, _row_line ws aligns cells = Ok line ∧ line_of ws cells line.
Proof.
  intros Hc Hl. destruct (padded_spec ws aligns cells Hc Hl) as (parts & Hp & Hs). unfold _row_line. rewrite Hp, bind_Ok.
  eexists. split; [done|]. by exists parts.
Qed.
Lemma mapR_length {A B} (f : A → result B) l l' : mapR f l = Ok l' → length l' = length l.
Proof.
  revert l'. induction l as [|x l IH]; intros l'; cbn [mapR]; [by intros [= <-]|].
  destruct (f x); [rewrite bind_Ok|done]. destruct (mapR f l) as [l1|]; [rewrite bind_Ok|done]. intros [= <-]. cbn. by rewrite (IH l1).
Qed.
End Format.

(** * Concrete tables *)

#[local] Instance no_conv : PyConv := {| str_other _ := Err TypeError; int_other _ := Err ValueError; float_other _ := Err ValueError |}.
Definition demo_columns : list ColumnMeta := [mkColumnMeta (u "id") (u "INT"); mkColumnMeta (u "name") (u "TEXT")].
Definition demo_rows : list row := [[PyInt 7; PyStr [233; 116; 233]]; [PyInt 123; PyNone; PyBool true]].
Example demo_table : format_table demo_rows demo_columns = Ok (join_with newline
  [u "+-----+-------+"; u "|  id | name  |"; u "+-----+-------+"; u "|   7 | " ++ [233; 116; 233] ++ u " |"; u "| 123 | NULL  |"; u "+-----+-------+"]).
Proof. vm_compute. reflexivity. Qed.
Example demo_one_shot : format_rows [[PyInt 7; PyStr (u "x")]; [PyNone]] (Some [u "id"]) =
  Ok (join_with newline [u "id   col1"; u "7    x   "; u "None     "]).
Proof. vm_compute. reflexivity. Qed.
(** The name of the tag of a BLOB column is not one of the names that print as
    hexadecimal. *)
Example blob_column_is_not_hex `{PyConv} (b : bytes) : _display_cell (PyBytes b) (tag_name Blob) = str_other (PyBytes b).
Proof. reflexivity. Qed.
