(* ===== verification/CliExplain.v ===== *)
(** Component [cli/explain.py] and [Database.explain]: plans as trees of text. *)
From S2P Require Import Prelude.
From S2P Require Import Bytes.
From S2P Require Import Utf8.
From S2P Require Import Text.
From S2P Require Import TypeSys.
From S2P Require Import Codec.
From S2P Require Import Pager.
From S2P Require Import BufferPool.
From S2P Require Import Tokens.
From S2P Require Import Ast.
From S2P Require Import Parser.
From S2P Require Import PyConv.
From S2P Require Import Heap.
From S2P Require Import Catalog.
From S2P Require Import EvalExpr.
From S2P Require Import Plan.
From S2P Require Import Dml.
From S2P Require Import Planner.
From S2P Require Import Engine.
From S2P Require Import Database.
From S2P Require Import CliFormat.
From Stdlib Require Import ZArith Lia.
Local Open Scope Z_scope.

Section Explain.
Context `{PyRepr}.

(** [repr] of the nodes of expressions, as their dataclasses define it *)
Definition call_repr (cls : String.string) (fields : list (String.string * pystr)) : pystr :=
  u cls ++ u "(" ++ join_with (u ", ") (map (λ f, u f.1 ++ u "=" ++ f.2) fields) ++ u ")".
Definition text_repr (s : pystr) : pystr := py_repr (PyStr s).
Definition tag_repr (t : TypeTag) : pystr := u "<TypeTag." ++ tag_name t ++ u ": " ++ str_of_Z (tag_value t) ++ u ">".
Fixpoint expr_repr (e : expr) : pystr :=
  match e with
  | Literal value => call_repr "Literal" [("value", py_repr value)]
  | ColumnRef name table =>
      call_repr "ColumnRef" [("name", text_repr name); ("table", match table with Some t => text_repr t | None => u "None" end)]
  | BinaryOp op lhs rhs => call_repr "BinaryOp" [("op", text_repr op); ("left", expr_repr lhs); ("right", expr_repr rhs)]
  | UnaryOp op operand => call_repr "UnaryOp" [("op", text_repr op); ("operand", expr_repr operand)]
  | TypedLiteral tag value => call_repr "TypedLiteral" [("tag", tag_repr tag); ("value", py_repr value)]
  end.

(** A plan that reads or one that writes *)
Abbreviation plan_node := (plan + dml_plan)%type.
Definition _children_of (n : plan_node) : list plan_node :=
  match n with
  | inl (SeqScan _ | IndexScan _ _ _ _ _ _) => []
  | inl (FilterPlan src _ | Project src _ _ | AggregatePlan src _ _ | SortPlan src _ | LimitPlan src _ _) => [inl src]
  | inl (NestedLoopJoin lhs rhs _ _ _ _ | IndexedNestedLoopJoin lhs rhs _ _ _ _ _ _ _ _) => [inl lhs; inl rhs]
  | inr _ => []
  end.
Definition class_name (n : plan_node) : pystr :=
  u match n with
    | inl (SeqScan _) => "SeqScan" | inl (IndexScan _ _ _ _ _ _) => "IndexScan" | inl (FilterPlan _ _) => "Filter"
    | inl (Project _ _ _) => "Project" | inl (AggregatePlan _ _ _) => "Aggregate" | inl (SortPlan _ _) => "Sort"
    | inl (LimitPlan _ _ _) => "Limit" | inl (NestedLoopJoin _ _ _ _ _ _) => "NestedLoopJoin"
    | inl (IndexedNestedLoopJoin _ _ _ _ _ _ _ _ _ _) => "IndexedNestedLoopJoin"
    | inr (InsertPlan _ _) => "Insert" | inr (UpdatePlan _ _ _) => "Update" | inr (DeletePlan _ _) => "Delete"
    end%string.
(** [getattr(node, "table")] and the other fields that a label shows *)
Definition node_table (n : plan_node) : pystr :=
  match n with
  | inl p => plan_table p
  | inr (InsertPlan table _ | UpdatePlan table _ _ | DeletePlan table _) => table
  end.
Definition node_predicate (n : plan_node) : option expr :=
  match n with inl (FilterPlan _ p) => Some p | inr (UpdatePlan _ _ p | DeletePlan _ p) => p | _ => None end.
Definition node_columns (n : plan_node) : option (list pystr) := match n with inl (Project _ columns _) => Some columns | _ => None end.
Definition node_on (n : plan_node) : option expr :=
  match n with inl (NestedLoopJoin _ _ on _ _ _ | IndexedNestedLoopJoin _ _ on _ _ _ _ _ _ _) => on | _ => None end.
Definition shown_field {A} (f : A → pystr) (o : option A) : list pystr := match o with Some x => [f x] | None => [] end.
Definition _label (n : plan_node) : pystr :=
  let items := [u "table=" ++ node_table n] ++
    shown_field (λ cols, u "cols=[" ++ join_with (u ", ") cols ++ u "]") (node_columns n) ++
    shown_field (λ p, u "pred=" ++ expr_repr p) (node_predicate n) ++
    shown_field (λ on, u "on=" ++ expr_repr on) (node_on n) in
  class_name n ++ u "(" ++ join_with (u ", ") items ++ u ")".

(** The corners and bars of the tree *)
Definition last_branch : pystr := [0x2514; 0x2500; 0x2500; 32].
Definition branch : pystr := [0x251C; 0x2500; 0x2500; 32].
Definition bar : pystr := [0x2502; 32; 32; 32].
Definition blank : pystr := [32; 32; 32; 32].
(** The lines of a subtree; [fuel] bounds its height *)
Fixpoint _render_subtree (fuel : nat) (n : plan_node) (prefix : pystr) (is_last : bool) : list pystr :=
  match fuel with
  | O => []
  | S fuel =>
      (prefix ++ (if is_last then last_branch else branch) ++ _label n) ::
      (let new_prefix := prefix ++ (if is_last then blank else bar) in
       let children := _children_of n in
       concat (imap (λ i child, _render_subtree fuel child new_prefix (i =? length children - 1)%nat) children))
  end.
Fixpoint plan_height (p : plan) : nat :=
  S match p with
    | SeqScan _ | IndexScan _ _ _ _ _ _ => 0
    | FilterPlan src _ | Project src _ _ | AggregatePlan src _ _ | SortPlan src _ | LimitPlan src _ _ => plan_height src
    | NestedLoopJoin lhs rhs _ _ _ _ | IndexedNestedLoopJoin lhs rhs _ _ _ _ _ _ _ _ => plan_height lhs `max` plan_height rhs
    end.
Definition node_height (n : plan_node) : nat := match n with inl p => plan_height p | inr _ => 1 end.
Definition plan_lines (root : option plan_node) (heading : option pystr) : list pystr :=
  match heading with Some h => [h] | None => [] end ++
  match root with
  | None => [last_branch ++ u "(empty)"]
  | Some n =>
      let children := _children_of n in
      (last_branch ++ _label n) ::
      concat (imap (λ i child, _render_subtree (node_height child) child blank (i =? length children - 1)%nat) children)
  end.
Definition format_plan (root : option plan_node) (heading : option pystr) : pystr := join_with newline (plan_lines root heading).
Definition format_plan_pair (logical physical : option plan_node) : pystr :=
  let part heading n := format_plan (Some n) (Some (u heading)) in
  join_with newline (shown_field (part "LogicalPlan") logical ++ shown_field (part "PhysicalPlan") physical).

(** * Every operator has a line of its own *)

(** The operators with their depths, parents first *)
Fixpoint plan_preorder (p : plan) (depth : nat) : list (nat * plan_node) :=
  (depth, inl p) ::
  match p with
  | SeqScan _ | IndexScan _ _ _ _ _ _ => []
  | FilterPlan src _ | Project src _ _ | AggregatePlan src _ _ | SortPlan src _ | LimitPlan src _ _ => plan_preorder src (S depth)
  | NestedLoopJoin lhs rhs _ _ _ _ | IndexedNestedLoopJoin lhs rhs _ _ _ _ _ _ _ _ => plan_preorder lhs (S depth) ++ plan_preorder rhs (S depth)
  end.
Definition preorder (n : plan_node) (depth : nat) : list (nat * plan_node) := match n with inl p => plan_preorder p depth | inr _ => [(depth, n)] end.
(** A line that shows an operator at a depth: four columns for each level *)
Definition shows_node (e : nat * plan_node) (line : pystr) : Prop := ∃ prefix, line = prefix ++ _label e.2 ∧ length prefix = (4 * S e.1)%nat.

Lemma preorder_children n depth : preorder n depth = (depth, n) :: concat (map (λ c, preorder c (S depth)) (_children_of n)).
Proof. destruct n as [[]|]; cbn [preorder plan_preorder _children_of map concat]; by rewrite ?app_nil_r. Qed.
Lemma child_height n c : c ∈ _children_of n → (node_height c < node_height n)%nat.
Proof.
  destruct n as [[]|]; cbn [_children_of node_height plan_height]; intros Hc;
    repeat (apply elem_of_cons in Hc as [->|Hc]); try (by apply elem_of_nil in Hc); cbn [node_height]; lia.
Qed.
Lemma concat_Forall2 {A B C} (P : B → C → Prop) (f : A → list B) (g : nat → A → list C) l : (∀ i x, x ∈ l → Forall2 P (f x) (g i x)) →
  Forall2 P (concat (map f l)) (concat (imap g l)).
Proof.
  revert g. induction l as [|x l IH]; intros g Hf; [constructor|]. cbn [map concat imap]. apply Forall2_app.
  - apply Hf. by left.
  - apply (IH (g ∘ S)). intros i y Hy. apply Hf. by right.
Qed.
Lemma render_lines fuel : ∀ n depth prefix is_last, (node_height n <= fuel)%nat → length prefix = (4 * depth)%nat →
  Forall2 shows_node (preorder n depth) (_render_subtree fuel n prefix is_last).
Proof.
  induction fuel as [|fuel IH]; intros n depth prefix is_last Hf Hp; [destruct n as [[]|]; cbn in Hf; lia|].
  rewrite preorder_children. cbn [_render_subtree]. constructor.
  - exists (prefix ++ (if is_last then last_branch else branch)). cbn [snd fst]. split; [by rewrite app_assoc|]. rewrite length_app, Hp. destruct is_last; cbn; lia.
  - apply concat_Forall2. intros i c Hc. apply IH; [pose proof (child_height n c Hc); lia|]. rewrite length_app, Hp. destruct is_last; cbn; lia.
Qed.
(** the tree that EXPLAIN prints has one line for each operator of the plan,
    parents before their inputs, indented by four columns for each level; nothing
    of the plan is cut off. *)
Theorem explain_lines n heading : ∃ lines, plan_lines (Some n) heading = match heading with Some h => [h] | None => [] end ++ lines ∧
  Forall2 shows_node (preorder n 0) lines.
Proof.
  eexists. split; [reflexivity|]. rewrite preorder_children. constructor.
  - by exists last_branch.
  - apply concat_Forall2. intros i c Hc. by apply render_lines.
Qed.
End Explain.

(** * [Database.explain] *)

Section Api.
Context `{MetaJson} `{PyConv} `{JsonLib} `{IsoLib} `{UniLib} `{ArithLib} `{PyRepr}.
Context {P : Type} `{PagerOps P, AllocOps P, LsnOps P, FreeOps P}.
Context (fuel : nat).
#[local] Instance explain_ops : ExecOps (Engine P) := Engine_ops fuel.
(** The same plan is printed as the logical and as the physical one. *)
Definition explain (sql : pystr) : M (Engine P) pystr :=
  stmt ← lift (parse sql);
  logical ← plan_statement stmt;
  mret (format_plan_pair (Some logical) (Some logical)).
End Api.

#[local] Instance short_repr : PyRepr := {| py_repr v := match v with PyStr s => 39 :: s ++ [39] | PyInt z => str_of_Z z | _ => u "?" end |}.
Definition demo_plan : plan :=
  Project (NestedLoopJoin (SeqScan (u "a")) (FilterPlan (SeqScan (u "b")) (ColumnRef (u "x") None)) None false None None) [u "y"; u "z"] [].
Example demo_tree : plan_lines (Some (inl demo_plan)) None =
  [last_branch ++ u "Project(table=a, cols=[y, z])";
   blank ++ last_branch ++ u "NestedLoopJoin(table=a)";
   blank ++ blank ++ branch ++ u "SeqScan(table=a)";
   blank ++ blank ++ last_branch ++ u "Filter(table=b, pred=ColumnRef(name='x', table=None))";
   blank ++ blank ++ blank ++ last_branch ++ u "SeqScan(table=b)"].
Proof. vm_compute. reflexivity. Qed.
