(* ===== verification/CliHighlight.v ===== *)
(** Components [cli/highlight.py] and [cli/history.py]: statements in colours, and
    the history that is kept in memory. *)
From S2P Require Import Prelude.
From S2P Require Import Bytes.
From S2P Require Import Utf8.
From S2P Require Import Text.
From S2P Require Import TypeSys.
From S2P Require Import Codec.
From S2P Require Import Tokens.
From S2P Require Import PyConv.
From Stdlib Require Import ZArith Lia.
Local Open Scope Z_scope.

(** * Colours *)

Definition escape (code : String.string) : pystr := 27 :: u code.
Definition _RESET : pystr := escape "[0m".
Definition _color_for (kind : TokenKind) : pystr :=
  match kind with
  | KEYWORD => escape "[36m"
  | STRING_LIT => escape "[32m"
  | INT_LIT | FLOAT_LIT | BOOL_LIT | NULL_LIT => escape "[33m"
  | _ => []
  end.
Definition grey : pystr := escape "[90m".
Record StyledSpan := mkSpan { sp_text : pystr; sp_color : pystr }.

Section Highlight.
Context `{UniLib} `{PyConv}.

Definition _render_token_text (tok : Token) : result pystr :=
  match tok.(tk_kind) with
  | STRING_LIT => inner ← py_str tok.(tk_value); Ok ([39] ++ double_quotes inner ++ [39])
  | BOOL_LIT => Ok (if py_truth tok.(tk_value) then u "TRUE" else u "FALSE")
  | NULL_LIT => Ok (u "NULL")
  | SEMI => Ok (u ";")
  | COMMA => Ok (u ",")
  | DOT => Ok (u ".")
  | LPAREN => Ok (u "(")
  | RPAREN => Ok (u ")")
  | _ => py_str tok.(tk_value)
  end.
Definition spans_of (toks : list Token) : result (list StyledSpan) :=
  mapR (λ tok, text ← _render_token_text tok; Ok (mkSpan text (_color_for tok.(tk_kind))))
    (List.filter (λ tok, negb (bool_decide (tok.(tk_kind) = EOF))) toks).
Definition highlight_sql (sql : pystr) : result (list StyledSpan) := toks ← tokenize sql; spans_of toks.
Definition render_span (span : StyledSpan) : pystr :=
  match span.(sp_color) with [] => span.(sp_text) | color => color ++ span.(sp_text) ++ _RESET end.
Definition render_ansi (spans : list StyledSpan) : pystr := concat (map render_span spans).
(** [run]: the comment that the walk is in, last character first *)
Fixpoint comment_runs (s : pystr) (run : option pystr) : list pystr :=
  match s with
  | [] => match run with Some r => [reverse r] | None => [] end
  | c :: s' =>
      match run with
      | Some r => if c =? 10 then reverse r :: comment_runs s' None else comment_runs s' (Some (c :: r))
      | None =>
          if (c =? 45) && match s' with d :: _ => d =? 45 | [] => false end
          then comment_runs s' (Some [c]) else comment_runs s' None
      end
  end.
Definition _comment_spans (sql : pystr) : list StyledSpan := map (λ r, mkSpan r grey) (comment_runs sql None).
Definition render_with_comments (sql : pystr) : result pystr :=
  spans ← highlight_sql sql;
  Ok (render_ansi spans ++ concat (map (λ run, run.(sp_color) ++ run.(sp_text) ++ _RESET) (_comment_spans sql))).
(** The styles of [lex_document] *)
Definition style_of (color : pystr) : pystr :=
  if bool_decide (color = _color_for KEYWORD) then u "class:keyword"
  else if bool_decide (color = _color_for STRING_LIT) then u "class:string"
  else if bool_decide (color = _color_for INT_LIT) || bool_decide (color = _color_for FLOAT_LIT) then u "class:number"
  else [].
Definition lex_document (text : pystr) : result (list (pystr * pystr)) :=
  spans ← highlight_sql text;
  Ok (map (λ s, (s.(sp_text), style_of s.(sp_color))) spans ++ map (λ s, (s.(sp_text), u "class:comment")) (_comment_spans text)).
End Highlight.

(** * History *)

(** [_NullHistory], and [FileHistory] without [prompt_toolkit] *)
Definition append_entry (entry : pystr) (buf : list pystr) : list pystr := match entry with [] => buf | _ => buf ++ [entry] end.
Definition history_strings (buf : list pystr) : list pystr := buf.

(** * What colouring does to a text *)

#[local] Existing Instance ascii_unilib.
#[local] Instance plain_conv : PyConv := {| str_other _ := Err TypeError; int_other _ := Err ValueError; float_other _ := Err ValueError |}.
(** The blanks between the tokens are not coloured but dropped, and keywords
    change to upper case: what is shown is not what was typed. *)
Example colours_drop_blanks : (spans ← highlight_sql (u "select a from t"); Ok (concat (map sp_text spans))) = Ok (u "SELECTaFROMt").
Proof. vm_compute. reflexivity. Qed.
(** Two dashes inside a string literal are shown again as a comment. *)
Example literal_shown_as_comment : lex_document (u "'a--b'") = Ok [(u "'a--b'", u "class:string"); (u "--b'", u "class:comment")].
Proof. vm_compute. reflexivity. Qed.
(** A text that is not complete yet raises: its string literal is open. *)
Example open_literal_raises : lex_document (u "SELECT 'a") = Err (ParseError 1 8).
Proof. vm_compute. reflexivity. Qed.
Example colours_statement : render_with_comments (u "SELECT 1; -- one") =
  Ok (escape "[36m" ++ u "SELECT" ++ _RESET ++ escape "[33m" ++ u "1" ++ _RESET ++ u ";" ++ grey ++ u "-- one" ++ _RESET).
Proof. vm_compute. reflexivity. Qed.
Example history : history_strings (append_entry (u "b") (append_entry [] (append_entry (u "a") []))) = [u "a"; u "b"].
Proof. reflexivity. Qed.
