(* ===== verification/CliBackend.v ===== *)
(** Components [cli/backend.py], [cli/uri.py] and [cli/commands.py]: where the
    command line runs statements, and the commands that change it. *)
From S2P Require Import Prelude.
From S2P Require Import Bytes.
From S2P Require Import Utf8.
From S2P Require Import Text.
From S2P Require Import Codec.
From S2P Require Import Tokens.
From S2P Require Import Parser.
From S2P Require Import PyConv.
From S2P Require Import PyDict.
From S2P Require Import Heap.
From S2P Require Import Catalog.
From S2P Require Import EvalExpr.
From S2P Require Import Plan.
From S2P Require Import Handler.
From S2P Require Import Client.
From S2P Require Import TypeSys.
From S2P Require Import Ast.
From S2P Require Import Database.
From S2P Require Import CliFormat.
From Stdlib Require Import ZArith Lia.
Local Open Scope Z_scope.

(** * What the command line uses *)

(** A database in the process *)
Class DbApi (D : Type) := {
  da_execute : pystr → M D (list row);
  da_list_tables : D → list pystr;
  da_get_schema : pystr → M D pystr;
  da_explain : pystr → M D pystr;
  da_plan_columns : SelectStmt → M D (option (list pystr));  (** [result_columns(plan(stmt))] *)
  da_get_table : pystr → M D TableMeta;                      (** [catalog.get_table] *)
  da_path : D → pystr;
  da_stem : D → pystr;
  da_close : M D unit;
}.
(** The network, and clients [C] of [client/sync.py] *)
Class Remote (N C : Type) := {
  re_connect : pystr → Z → option pystr → M N C;
  re_execute : C → pystr → M N Result;
  re_close : C → M N unit;
  re_client_version : C → pystr;
  re_ping : C → M N pystr;                                   (** the text of the milliseconds *)
}.
(** [urllib.parse.urlparse] *)
Record url := mkUrl { url_scheme : pystr; url_hostname : option pystr; url_port : result (option Z); url_path : pystr }.
Class UrlLib := { urlparse : pystr → result url }.
(** The texts of the position of a ParseError and of elapsed times *)
Class CliTexts := {
  position_text : exn → pystr;      (** [f"(line {exc.line}, col {exc.col})"] *)
  seconds_text : nat → pystr;       (** of the n-th time that is taken *)
}.

(** The subclasses of TinydbError *)
Definition is_tinydb_error (e : exn) : bool :=
  match e with
  | TinydbError | ParseError _ _ | NodeParseError _ | ConstraintViolation | NotNullViolation | TypeMismatchError | BTreeOverflowError
  | WALCorruptionError | NestedTransactionError | DeadlockError | ProtocolError | IncompleteFrameError | UnknownColumnError
  | UnknownTableError | AmbiguousColumnError | UnknownAliasError | BareColumnNotAliasedError
  | ClientConnectionError | ClientTimeoutError | IntegrityError | ClientProtocolError => true
  | _ => false
  end.
(** [try: m except cls: h] *)
Definition except {S A} (cls : exn → bool) (m : M S A) (h : exn → M S A) : M S A :=
  catch m (λ e, if cls e then h e else raise e).
(** [try: a = m except Exception as e: h], with [k] behind it *)
Definition try_else {S A B} (m : M S A) (h : exn → M S B) (k : A → M S B) : M S B := λ s,
  match m s with (Ok a, s) => k a s | (Err e, s) => h e s end.
Definition only {S A} (cls : exn → bool) (h : exn → M S A) (e : exn) : M S A := if cls e then h e else raise e.
(** [try: m except Exception: pass] *)
Definition ignoring {S} (m : M S unit) : M S unit := catch m (λ _, mret ()).

(** * URIs *)

Record TinydbUri := mkUri { uri_host : pystr; uri_port : Z; uri_database : option pystr }.
Fixpoint lstrip_slash (s : pystr) : pystr := match s with c :: s' => if c =? 47 then lstrip_slash s' else s | [] => [] end.
Definition parse_uri `{UrlLib} (uri : pystr) : result TinydbUri :=
  ensure (negb (bool_decide (uri = []))) ValueError;;
  parsed ← urlparse uri;
  ensure (bool_decide (parsed.(url_scheme) = u "tinydb")) ValueError;;
  host ← (match parsed.(url_hostname) with Some (c :: h) => Ok (c :: h) | _ => Err ValueError end);
  port ← parsed.(url_port);
  port ← of_option ValueError port;
  let database := lstrip_slash parsed.(url_path) in
  Ok (mkUri host port (match database with [] => None | _ => Some database end)).

(** * Backends *)

Inductive Backend (C : Type) := FileBackend | RemoteBackend (client : C) | _DisconnectedBackend.
Arguments FileBackend {C}.
Arguments RemoteBackend {C} client.
Arguments _DisconnectedBackend {C}.
(** What [run_repl] is given: a database, or a backend *)
Inductive target (C : Type) := OfDatabase | OfBackend (b : Backend C).
Arguments OfDatabase {C}.
Arguments OfBackend {C} b.
Record BackendResult := mkBackendResult {
  br_rows : list row;
  br_columns : list pystr;
  br_column_types : list pystr;
  br_elapsed : pystr;
  br_rowcount : Z;
  br_is_select : bool;
}.

(** The state of a session: [ConnectionState], the mode, and what was printed *)
Record Repl (D N C : Type) := mkRepl {
  rl_db : D;
  rl_net : N;
  rl_backend : target C;
  rl_uri : option pystr;
  rl_server_version : option pystr;
  rl_mode : pystr;
  rl_out : list pystr;
  rl_ticks : nat;
}.
Arguments mkRepl {D N C}.
Arguments rl_db {D N C}.
Arguments rl_net {D N C}.
Arguments rl_backend {D N C}.
Arguments rl_uri {D N C}.
Arguments rl_server_version {D N C}.
Arguments rl_mode {D N C}.
Arguments rl_out {D N C}.
Arguments rl_ticks {D N C}.

Section Backends.
Context {D N C : Type} `{DbApi D, Remote N C} `{UrlLib, CliTexts, ExnText} `{PyConv} `{JsonLib} `{IsoLib} `{UniLib} `{PyRepr}.
Abbreviation R := (Repl D N C).

Definition with_db (d : D) (s : R) : R := mkRepl d s.(rl_net) s.(rl_backend) s.(rl_uri) s.(rl_server_version) s.(rl_mode) s.(rl_out) s.(rl_ticks).
Definition with_net (n : N) (s : R) : R := mkRepl s.(rl_db) n s.(rl_backend) s.(rl_uri) s.(rl_server_version) s.(rl_mode) s.(rl_out) s.(rl_ticks).
Definition set_backend (b : target C) (uri version : option pystr) (s : R) : R :=
  mkRepl s.(rl_db) s.(rl_net) b uri version s.(rl_mode) s.(rl_out) s.(rl_ticks).
Definition set_mode (mode : pystr) (s : R) : R := mkRepl s.(rl_db) s.(rl_net) s.(rl_backend) s.(rl_uri) s.(rl_server_version) mode s.(rl_out) s.(rl_ticks).
Definition on_database {A} (m : M D A) : M R A := zoom rl_db with_db m.
Definition on_net {A} (m : M N A) : M R A := zoom rl_net with_net m.
Definition output (line : pystr) : M R unit :=
  modify (λ s, mkRepl s.(rl_db) s.(rl_net) s.(rl_backend) s.(rl_uri) s.(rl_server_version) s.(rl_mode) (s.(rl_out) ++ [line]) s.(rl_ticks)).
(** The difference of two [perf_counter]s *)
Definition elapsed : M R pystr := λ s,
  (Ok (seconds_text s.(rl_ticks)),
   mkRepl s.(rl_db) s.(rl_net) s.(rl_backend) s.(rl_uri) s.(rl_server_version) s.(rl_mode) s.(rl_out) (S s.(rl_ticks))).

Definition is_create_or_drop (stmt : Statement) : bool := match stmt with CreateTable _ _ | DropTable _ _ => true | _ => false end.
(** The types of the columns that the items of a SELECT name *)
Fixpoint item_types (meta : TableMeta) (items : list select_item) : list pystr :=
  match items with
  | [] => []
  | Star :: items => map (λ c, tag_name c.(col_tag)) meta.(tm_columns) ++ item_types meta items
  | Item (ColumnRef (c :: name) _) :: items =>
      default (u "TEXT") (dget (c :: name) (dict_of (map (λ c, (c.(col_name), tag_name c.(col_tag))) meta.(tm_columns)))) :: item_types meta items
  | _ :: items => u "TEXT" :: item_types meta items
  end.
Definition _column_types_for_select (s : SelectStmt) : M R (list pystr) :=
  table ← lift (select_table s);
  meta ← on_database (da_get_table table);
  mret (item_types meta s.(sel_columns)).
Definition planned_columns (s : SelectStmt) : M R (option (list pystr)) :=
  except is_tinydb_error (on_database (da_plan_columns s)) (λ _, mret None).
(** [int(rows[0][0]) if rows else 0] *)
Definition affected (rows : list row) : result Z :=
  match rows with [] => Ok 0 | r :: _ => v ← cell r 0; py_int v end.
Definition file_execute (sql : pystr) : M R BackendResult :=
  stmt ← lift (parse sql);
  if is_create_or_drop stmt then
    _ ← on_database (da_execute sql); t ← elapsed; mret (mkBackendResult [] [] [] t 0 false)
  else
    ct ← (match stmt with
          | Select s =>
              columns ← planned_columns s;
              match columns with
              | Some (c :: cs) => types ← _column_types_for_select s; mret (columns, types)
              | _ => mret (columns, [])
              end
          | _ => mret (None, [])
          end);
    rows ← on_database (da_execute sql);
    t ← elapsed;
    match stmt with
    | Select _ => mret (mkBackendResult rows (default [] ct.1) ct.2 t (zlen rows) true)
    | _ => n ← lift (affected rows); mret (mkBackendResult [] [] [] t n false)
    end.
(** An error that the server reports comes as a client error, which is a
    TinydbError already. *)
Definition remote_execute (client : C) (sql : pystr) : M R BackendResult :=
  result ← on_net (except (λ e, bool_decide (e = GeneralException)) (re_execute client sql) (λ _, raise TinydbError));
  t ← elapsed;
  mret (mkBackendResult result.(res_rows) result.(res_columns) [] t result.(res_rowcount) (negb (bool_decide (result.(res_columns) = [])))).
Definition backend_execute (b : Backend C) (sql : pystr) : M R BackendResult :=
  match b with
  | FileBackend => file_execute sql
  | RemoteBackend client => remote_execute client sql
  | _DisconnectedBackend => raise TinydbError
  end.
Definition backend_close (b : target C) : M R unit :=
  match b with
  | OfDatabase | OfBackend FileBackend => on_database da_close
  | OfBackend (RemoteBackend client) => on_net (re_close client)
  | OfBackend _DisconnectedBackend => mret ()
  end.

(** * Commands *)

Inductive handled := Handled | Exit.
Definition text_columns (names : list pystr) : list ColumnMeta := map (λ n, mkColumnMeta n (u "TEXT")) names.
Definition _emit_table (rows : list row) (names : list pystr) : M R unit :=
  t ← lift (format_table rows (text_columns names)); output t.
Definition cmd_connect (arg : pystr) : M R handled :=
  let arg := strip arg in
  if bool_decide (arg = []) then output (u "Usage: .connect tinydb://host:port/dbname");; mret Handled else
  match parse_uri arg with
  | Err e => if bool_decide (e = ValueError) then output (u "Error: " ++ exn_str e);; mret Handled else raise e
  | Ok parsed =>
      try_else (on_net (re_connect parsed.(uri_host) parsed.(uri_port) parsed.(uri_database)))
        (only (λ e, bool_decide (e = ClientConnectionError)) (λ e,
          output (u "Error: cannot connect to " ++ parsed.(uri_host) ++ u ":" ++ str_of_Z parsed.(uri_port) ++ u ": " ++ exn_str e);; mret Handled))
        (λ client,
          s ← get;
          ignoring (backend_close s.(rl_backend));;
          modify (set_backend (OfBackend (RemoteBackend client)) (Some arg) (Some (re_client_version client)));;
          output (u "Connected to " ++ arg ++ u " (server version " ++ re_client_version client ++ u ")");;
          mret Handled)
  end.
(** A backend that is a [Database] is none of the classes that are tested. *)
Definition cmd_disconnect : M R handled :=
  s ← get;
  match s.(rl_backend) with
  | OfBackend FileBackend => output (u "Not connected (file mode).");; mret Handled
  | OfBackend _DisconnectedBackend => output (u "Already disconnected.");; mret Handled
  | b =>
      ignoring (backend_close b);;
      output (u "Disconnected from " ++ (match s.(rl_uri) with Some (c :: uri) => c :: uri | _ => u "server" end) ++ u ".");;
      modify (set_backend (OfBackend _DisconnectedBackend) None None);;
      mret Handled
  end.
Definition or_unknown (o : option pystr) : pystr := match o with Some (c :: s) => c :: s | _ => u "(unknown)" end.
Definition cmd_status : M R handled :=
  s ← get;
  output (match s.(rl_backend) with
          | OfBackend FileBackend => u "mode: file  path: " ++ (match da_path s.(rl_db) with [] => u ":memory:" | p => p end)
          | OfBackend (RemoteBackend _) => u "mode: remote  uri: " ++ or_unknown s.(rl_uri)
          | OfBackend _DisconnectedBackend => u "mode: disconnected"
          | OfDatabase => u "mode: unknown"
          end);;
  mret Handled.
Definition ping_error (e : exn) : bool := bool_decide (e ∈ [ClientConnectionError; ClientProtocolError; OSError]).
Definition cmd_server_info : M R handled :=
  s ← get;
  match s.(rl_backend) with
  | OfBackend (RemoteBackend client) =>
      let version := match s.(rl_server_version) with
                     | Some (c :: v) => c :: v
                     | _ => or_unknown (Some (re_client_version client))
                     end in
      rtt ← except ping_error (on_net (ms ← re_ping client; mret (ms ++ u " ms"))) (λ e, mret (u "(unreachable: " ++ exn_str e ++ u ")"));
      _emit_table [[PyStr (u "uri"); PyStr (or_unknown s.(rl_uri))]; [PyStr (u "version"); PyStr version]; [PyStr (u "rtt"); PyStr rtt]]
        [u "property"; u "value"];;
      mret Handled
  | _ => output (u "Not connected to a server.");; mret Handled
  end.

Definition _META_HELP : pystr := join_with newline (map u
  [".exit  / .quit          leave the REPL"; ".help                   show this help";
   ".tables                 list every table in the catalog"; ".schema <table>         dump CREATE TABLE for the given table";
   ".explain <SQL>          print the logical / physical plan as a tree"; ".history                show the in-session command history";
   ".mode line|table        toggle result output format (default: table)";
   ".connect <uri>          (remote mode) connect to tinydb://host:port/db";
   ".disconnect             (remote mode) close the current server session";
   ".status                 print current backend / connection summary";
   ".server-info            (remote mode) print server version + RTT"]%string).
(** [stripped.split(None, 1)] of a text that starts with a dot: the command in
    lower case, and its argument *)
Fixpoint after_word (s : pystr) : pystr :=
  match s with [] => [] | c :: s' => if py_isspace c then lstrip s else after_word s' end.
Definition meta_command (line : pystr) : option (pystr * pystr) :=
  match strip line with
  | c :: s => if c =? 46 then Some (lower (until_space (c :: s)), after_word (c :: s)) else None
  | [] => None
  end.
Definition dispatch_server_meta (line : pystr) : M R (option handled) :=
  match meta_command line with
  | None => mret None
  | Some (cmd, arg) =>
      if bool_decide (cmd = u ".connect") then r ← cmd_connect arg; mret (Some r)
      else if bool_decide (cmd = u ".disconnect") then r ← cmd_disconnect; mret (Some r)
      else if bool_decide (cmd = u ".status") then r ← cmd_status; mret (Some r)
      else if bool_decide (cmd = u ".server-info") then r ← cmd_server_info; mret (Some r)
      else if bool_decide (cmd ∈ [u ".exit"; u ".quit"]) then output (u "bye.");; mret (Some Exit)
      else if bool_decide (cmd = u ".help") then output _META_HELP;; mret (Some Handled)
      else mret None
  end.
End Backends.
