(* ===== verification/CliRepl.v ===== *)
(** Components [cli/repl.py] and [cli/argparse_ext.py]: the loop that reads
    statements and commands, and one statement from the command line. *)
From S2P Require Import Prelude.
From S2P Require Import Bytes.
From S2P Require Import Utf8.
From S2P Require Import Text.
From S2P Require Import Codec.
From S2P Require Import Tokens.
From S2P Require Import Parser.
From S2P Require Import PyConv.
From S2P Require Import PyDict.
From S2P Require Import Heap.
From S2P Require Import Catalog.
From S2P Require Import EvalExpr.
From S2P Require Import Plan.
From S2P Require Import Handler.
From S2P Require Import Client.
From S2P Require Import TypeSys.
From S2P Require Import Ast.
From S2P Require Import Database.
From S2P Require Import CliFormat.
From S2P Require Import CliBackend.
From Stdlib Require Import ZArith Lia.
Local Open Scope Z_scope.

Definition quote : Z := 39.
Definition dquote : Z := 34.
Definition backslash : Z := 92.
Definition ends_with_backslash (s : pystr) : bool := match last s with Some c => c =? backslash | None => false end.
(** [s.count(c)] *)
Definition occurrences (c : Z) (s : pystr) : nat := length (filter (λ d, d = c) s).
Definition _is_continuation (buffer : pystr) : bool :=
  ends_with_backslash buffer || Nat.odd (occurrences quote buffer) || Nat.odd (occurrences dquote buffer).
(** [buffer[:-1] if buffer.endswith("\\") else buffer] *)
Definition without_backslash (buffer : pystr) : pystr := if ends_with_backslash buffer then removelast buffer else buffer.
Definition rstrip (s : pystr) : pystr := reverse (lstrip (reverse s)).

Section Repl.
Context {D N C : Type} `{DbApi D, Remote N C} `{UrlLib, CliTexts, ExnText} `{PyConv} `{JsonLib} `{IsoLib} `{UniLib} `{PyRepr}.
Abbreviation R := (Repl D N C).

(** * Commands of the database *)

Definition _HELP_TEXT : pystr := join_with newline (map u
  [".exit  / .quit    leave the REPL"; ".help             show this help"; ".tables           list every table in the catalog";
   ".schema <table>   dump CREATE TABLE for the given table"; ".explain <SQL>    print the logical / physical plan as a tree";
   ".history          show the in-session command history"; ".mode line|table  toggle result output format (default: table)"]%string).
Definition emit_ddl (ddl : pystr) : M R unit := _emit_table [[PyStr ddl]] [u "DDL"].
Fixpoint emit_schemas (names : list pystr) : M R unit :=
  match names with
  | [] => mret ()
  | name :: names => ddl ← on_database (da_get_schema name); emit_ddl ddl;; emit_schemas names
  end.
Definition report_error (e : exn) : M R unit := output (u "Error: " ++ exn_str e).
Definition report_parse_error (e : exn) : M R unit := output (u "ParseError: " ++ exn_msg e ++ u " " ++ position_text e).
Definition meta_schema (arg : pystr) : M R unit :=
  s ← get;
  match first_word arg with
  | None =>
      match da_list_tables s.(rl_db) with
      | [] => output (u "(no tables)")
      | names => emit_schemas names
      end
  | Some table_name =>
      try_else (on_database (da_get_schema table_name))
        (only (λ e, bool_decide (e = KeyError)) (λ _, output (u "table '" ++ table_name ++ u "' does not exist")))
        emit_ddl
  end.
Definition meta_explain (arg : pystr) : M R unit :=
  match arg with
  | [] => output (u "Usage: .explain <SQL>  or  .explain --table <SQL>")
  | _ =>
      if starts_with_text (u "--table") arg then
        try_else (on_database (da_execute (strip (drop 7 arg)))) (only is_tinydb_error report_error)
          (λ rows, t ← lift (format_table rows (infer_columns_from_rows rows None)); output t)
      else except is_tinydb_error (text ← on_database (da_explain arg); output text)
             (λ e, if is_parse_error e then report_parse_error e else report_error e)
  end.
(** [has_mode]: a list for the mode was given, which [.mode] changes *)
Definition meta_mode (has_mode : bool) (arg : pystr) : M R unit :=
  s ← get;
  match arg with
  | [] => output (u "current mode: " ++ (if has_mode then s.(rl_mode) else u "table"))
  | _ =>
      let mode := lower (strip arg) in
      if bool_decide (mode ∈ [u "table"; u "line"]) && has_mode then modify (set_mode mode);; output (u "mode set to " ++ mode)
      else output (u "unknown mode " ++ py_repr (PyStr mode) ++ u "; expected 'table' or 'line'")
  end.
Definition dispatch_meta (has_mode : bool) (line : pystr) : M R (option handled) :=
  match meta_command line with
  | None => mret None
  | Some (cmd, arg) =>
      if bool_decide (cmd ∈ [u ".exit"; u ".quit"]) then output (u "bye.");; mret (Some Exit) else
      (if bool_decide (cmd = u ".help") then output _HELP_TEXT
       else if bool_decide (cmd = u ".tables") then
         s ← get; _emit_table (map (λ n, [PyStr n]) (da_list_tables s.(rl_db))) [u "Tables_in_" ++ da_stem s.(rl_db)]
       else if bool_decide (cmd = u ".schema") then meta_schema arg
       else if bool_decide (cmd = u ".explain") then meta_explain arg
       else if bool_decide (cmd = u ".history") then output (u "(no history)")
       else if bool_decide (cmd = u ".mode") then meta_mode has_mode arg
       else output (u "unknown command " ++ py_repr (PyStr (strip line)) ++ u "; type .help for the list"));;
      mret (Some Handled)
  end.
(** [has_db]: there is a database for the second kind of commands *)
Definition _dispatch_all_meta (has_db : bool) (line : pystr) : M R (option handled) :=
  r ← dispatch_server_meta line;
  match r with
  | Some h => mret (Some h)
  | None => if has_db then dispatch_meta true line else mret None
  end.

(** * Results *)

Definition metas_of (columns types : list pystr) : list ColumnMeta := map (λ nt, mkColumnMeta nt.1 nt.2) (zip columns types).
Definition _render_select (rows : list row) (columns types : list pystr) (mode seconds : pystr) : result pystr :=
  let metas := metas_of columns types in
  if bool_decide (mode = u "line") then
    body ← format_line_mode rows metas;
    Ok (match rows, body with
        | [], _ | _, [] => format_timing 0 seconds
        | _, _ => body ++ newline ++ format_timing (zlen rows) seconds
        end)
  else
    body ← format_table rows metas;
    Ok (body ++ newline ++ format_timing (zlen rows) seconds).
Definition _emit_backend_result (res : BackendResult) (mode : pystr) : M R unit :=
  if negb res.(br_is_select) then output (str_of_Z res.(br_rowcount) ++ u " row(s)")
  else match res.(br_rows) with
       | [] => output (format_timing 0 res.(br_elapsed))
       | rows =>
           let metas := metas_of res.(br_columns) res.(br_column_types) in
           body ← lift (if bool_decide (mode = u "line") then format_line_mode rows metas else format_table rows metas);
           output (body ++ newline ++ format_timing (zlen rows) res.(br_elapsed))
       end.

(** * Statements *)

(** [try: m except TinydbError: report, and return] *)
Definition reporting (m : M R unit) : M R unit := except is_tinydb_error m report_error.
Definition execute_any (target : target C) (line : pystr) : M R unit :=
  match target with
  | OfDatabase => _ ← on_database (da_execute line); mret ()
  | OfBackend b => _ ← backend_execute b line; mret ()
  end.
(** The columns and types of a SELECT on a [Database] *)
Definition select_layout (stmt : Statement) (target : target C) : M R (option (list pystr) * list pystr) :=
  match stmt, target with
  | Select s, OfDatabase =>
      except is_tinydb_error
        (columns ← on_database (da_plan_columns s);
         match columns with
         | Some (c :: cs) => types ← _column_types_for_select s; mret (columns, types)
         | _ => mret (columns, [])
         end)
        (λ _, mret (None, []))
  | _, _ => mret (None, [])
  end.
Definition show_rows (stmt : Statement) (columns : option (list pystr)) (types : list pystr) (mode seconds : pystr) (rows : list row) : M R unit :=
  match stmt, columns with
  | Select _, Some columns => text ← lift (_render_select rows columns types mode seconds); output text
  | _, _ =>
      match rows with
      | [] => output (u "(0 rows)")
      | r :: _ => v ← lift (cell r 0); text ← lift (py_str v); output (text ++ u " row(s)")
      end
  end.
Definition execute_parsed (stmt : Statement) (line : pystr) (target : target C) (mode : pystr) : M R unit :=
  if is_create_or_drop stmt then
    reporting (execute_any target line;; output (u "OK"))
  else
    ct ← select_layout stmt target;
    match target with
    | OfBackend b => reporting (result ← backend_execute b line; _emit_backend_result result mode)
    | OfDatabase =>
        try_else (on_database (da_execute line)) (only is_tinydb_error report_error)
          (λ rows, t ← elapsed; show_rows stmt ct.1 ct.2 mode t rows)
    end.
Definition _execute_sql (line : pystr) (target : target C) (mode : pystr) : M R unit :=
  match parse line with
  | Err e => if is_parse_error e then report_parse_error e else raise e
  | Ok stmt => execute_parsed stmt line target mode
  end.

(** * The loops *)

(** What the input yields: a line, or EOF or an interrupt, which end the
    session, as the end of the list does *)
Inductive input := Line (raw : pystr) | Stop.
(** A line that is complete; [None] when the session goes on *)
Definition complete_line (has_db : bool) (line : pystr) : M R (option Z) :=
  match line with
  | [] => mret None
  | _ =>
      h ← _dispatch_all_meta has_db line;
      match h with
      | Some Exit => mret (Some 0)
      | Some Handled => mret None
      | None => s ← get; _execute_sql line s.(rl_backend) s.(rl_mode);; mret None
      end
  end.
Definition next_buffer (buffer raw : pystr) : pystr :=
  match buffer with
  | [] => strip raw
  | _ => let b := without_backslash buffer in match raw with [] => b | _ => strip (b ++ [32] ++ raw) end
  end.
Fixpoint run_legacy (has_db : bool) (inputs : list input) (buffer : pystr) : M R Z :=
  match inputs with
  | [] | Stop :: _ => mret 0
  | Line raw :: inputs =>
      let buffer := next_buffer buffer raw in
      if _is_continuation buffer then run_legacy has_db inputs buffer else
      code ← complete_line has_db buffer;
      match code with Some code => mret code | None => run_legacy has_db inputs [] end
  end.
Definition has_database (t : target C) : bool := match t with OfDatabase | OfBackend FileBackend => true | _ => false end.
Definition _run_legacy (inputs : list input) : M R Z :=
  output (u "tinydb v0.1 REPL - enter SQL, or '.help' for commands");;
  modify (set_mode (u "table"));;
  s ← get;
  run_legacy (has_database s.(rl_backend)) inputs [].

(** [prompt_toolkit]: an interrupt drops the buffer; an empty line sends it *)
Inductive prompt_input := Prompted (text : pystr) | Interrupt | Eof.
Fixpoint run_prompt (has_db : bool) (inputs : list prompt_input) (buffer : pystr) : M R Z :=
  match inputs with
  | [] | Eof :: _ => mret 0
  | Interrupt :: inputs => run_prompt has_db inputs []
  | Prompted text :: inputs =>
      let buffer' := match text, buffer with
                     | [], _ => buffer
                     | _, [] => text
                     | _, _ => without_backslash buffer ++ [32] ++ text
                     end in
      if negb (bool_decide (text = [])) && _is_continuation buffer' then run_prompt has_db inputs buffer' else
      code ← complete_line has_db (rstrip buffer');
      match code with Some code => mret code | None => run_prompt has_db inputs [] end
  end.

(** The fallback without [prompt_toolkit]: the statements go to the backend it
    was started with, and [.mode] changes a list that is dropped. *)
Definition in_mode {A} (mode : pystr) (m : M R A) : M R A :=
  s ← get; modify (set_mode mode);; a ← m; modify (set_mode s.(rl_mode));; mret a.
Fixpoint run_fallback (backend : target C) (has_db : bool) (inputs : list input) : M R Z :=
  match inputs with
  | [] | Stop :: _ => mret 0
  | Line raw :: inputs =>
      match strip raw with
      | [] => run_fallback backend has_db inputs
      | line =>
          h ← in_mode (u "table") (_dispatch_all_meta has_db line);
          match h with
          | Some Exit => mret 0
          | Some Handled => run_fallback backend has_db inputs
          | None => _execute_sql line backend (u "table");; run_fallback backend has_db inputs
          end
      end
  end.

(** [run_repl]: with an input function of the caller, or [prompt_toolkit], or
    neither *)
Definition _run_prompt_toolkit_repl (inputs : list prompt_input) : M R Z :=
  modify (set_mode (u "table"));;
  s ← get; run_prompt (has_database s.(rl_backend)) inputs [].
Definition _run_cmd_fallback (inputs : list input) : M R Z :=
  s ← get; run_fallback s.(rl_backend) (has_database s.(rl_backend)) inputs.

(** * One statement *)

(** What it prints to the standard error is printed with the rest. *)
Definition _run_one (b : Backend C) (sql : pystr) : M R Z :=
  match parse sql with
  | Err e => if is_parse_error e then report_parse_error e;; mret 1 else raise e
  | Ok stmt =>
      try_else (backend_execute b sql) (only is_tinydb_error (λ e, report_error e;; mret 1))
        (λ res,
          if is_create_or_drop stmt then output (u "OK");; mret 0
          else if negb res.(br_is_select) then output (str_of_Z res.(br_rowcount) ++ u " row(s)");; mret 0
          else match res.(br_rows) with
               | [] => mret 0
               | rows => text ← lift (format_rows rows (Some res.(br_columns))); output text;; mret 0
               end)
  end.
(** [--file] or [--db], [--uri] and [-c] as [parse_args] leaves them;
    [parser.error], which ends the
    process, is a ValueError *)
Record Args := mkArgs { ar_file : option pystr; ar_db : option pystr; ar_uri : option pystr; ar_command : option pystr }.
Definition resolve_args (a : Args) : result Args :=
  file ← (match a.(ar_db), a.(ar_file) with
          | Some _, Some _ => Err ValueError
          | Some db, None => Ok (Some db)
          | None, file => Ok file
          end);
  match file, a.(ar_uri) with
  | None, None | Some _, Some _ => Err ValueError
  | _, _ => Ok (mkArgs file a.(ar_db) a.(ar_uri) a.(ar_command))
  end.
(** [_open_backend] with [--uri], and the exit code when it fails; [--file]
    gives the backend of the database that the session starts with. *)
Definition _open_backend (uri : pystr) : M R (option Z) :=
  match parse_uri uri with
  | Err e =>
      if bool_decide (e = ValueError) then output (u "Error: invalid URI " ++ py_repr (PyStr uri) ++ u ": " ++ exn_str e);; mret (Some 1)
      else raise e
  | Ok parsed =>
      try_else (on_net (re_connect parsed.(uri_host) parsed.(uri_port) parsed.(uri_database)))
        (λ e,
          if bool_decide (e = ClientConnectionError) then
            output (u "Error: cannot connect to " ++ parsed.(uri_host) ++ u ":" ++ str_of_Z parsed.(uri_port) ++ u ": " ++ exn_str e);; mret (Some 1)
          else if bool_decide (e = ValueError) then
            output (u "Error: invalid URI " ++ py_repr (PyStr uri) ++ u ": " ++ exn_str e);; mret (Some 1)
          else raise e)
        (λ client, modify (set_backend (OfBackend (RemoteBackend client)) None None);; mret None)
  end.
(** The rest of [main]: the backend that was opened is closed at the end,
    whatever the session is connected to by then. *)
Definition run_opened (repl : M R Z) (b : Backend C) (command : option pystr) : M R Z :=
  finally (match command with Some sql => _run_one b sql | None => repl end) (backend_close (OfBackend b)).
Definition main (repl : M R Z) (a : Args) : M R Z :=
  a ← lift (resolve_args a);
  match a.(ar_file), a.(ar_uri) with
  | Some _, _ => modify (set_backend (OfBackend FileBackend) None None);; run_opened repl FileBackend a.(ar_command)
  | None, uri =>
      code ← _open_backend (default [] uri);
      match code with
      | Some code => mret code
      | None =>
          s ← get;
          match s.(rl_backend) with OfBackend b => run_opened repl b a.(ar_command) | OfDatabase => mret 0 end
      end
  end.
End Repl.
