(* ===== verification/CliSpec.v ===== *)
(** The command line: what ends a session, and how lines make statements. *)
From S2P Require Import Prelude.
From S2P Require Import Bytes.
From S2P Require Import Utf8.
From S2P Require Import Text.
From S2P Require Import Codec.
From S2P Require Import Tokens.
From S2P Require Import Parser.
From S2P Require Import PyConv.
From S2P Require Import PyDict.
From S2P Require Import Heap.
From S2P Require Import Catalog.
From S2P Require Import EvalExpr.
From S2P Require Import Plan.
From S2P Require Import Handler.
From S2P Require Import Client.
From S2P Require Import TypeSys.
From S2P Require Import Ast.
From S2P Require Import Database.
From S2P Require Import CliFormat.
From S2P Require Import CliBackend.
From S2P Require Import CliRepl.
From Stdlib Require Import ZArith Lia.
Local Open Scope Z_scope.

(** * What ends a session *)

Section Ends.
Context {D N C : Type} `{DbApi D, Remote N C} `{UrlLib, CliTexts, ExnText} `{PyConv} `{JsonLib} `{IsoLib} `{UniLib} `{PyRepr}.
Abbreviation R := (Repl D N C).

(** The exceptions that no handler of the loops takes *)
Inductive escapes : exn → Prop :=
  | esc_parse sql e : parse sql = Err e → is_parse_error e = false → escapes e
  | esc_execute sql d e d' : da_execute sql d = (Err e, d') → is_tinydb_error e = false → escapes e
  | esc_columns s d e d' : da_plan_columns s d = (Err e, d') → is_tinydb_error e = false → escapes e
  | esc_table name d e d' : da_get_table name d = (Err e, d') → is_tinydb_error e = false → escapes e
  | esc_join s e : select_table s = Err e → is_tinydb_error e = false → escapes e
  | esc_explain sql d e d' : da_explain sql d = (Err e, d') → is_tinydb_error e = false → escapes e
  | esc_schema name d e d' : da_get_schema name d = (Err e, d') → e ≠ KeyError → escapes e
  | esc_listed name d0 d e d' : name ∈ da_list_tables d0 → da_get_schema name d = (Err e, d') → escapes e
  | esc_display rows columns e : format_table rows columns = Err e ∨ format_line_mode rows columns = Err e → escapes e
  | esc_count r e : (v ← cell r 0; py_str v) = Err e → escapes e
  | esc_affected rows e : affected rows = Err e → is_tinydb_error e = false → escapes e
  | esc_remote c sql n e n' : re_execute c sql n = (Err e, n') → is_tinydb_error e = false → e ≠ GeneralException → escapes e
  | esc_uri uri e : parse_uri uri = Err e → e ≠ ValueError → escapes e
  | esc_connect host port database n e n' : re_connect host port database n = (Err e, n') → e ≠ ClientConnectionError → escapes e
  | esc_ping c n e n' : re_ping c n = (Err e, n') → ping_error e = false → escapes e.

(** [m] raises only what satisfies [E], and returns only what satisfies [Q] *)
Definition gives {A} (E : exn → Prop) (Q : A → Prop) (m : M R A) : Prop := ∀ s, wp E m (λ a _, Q a) s.
Definition any {A} (_ : A) : Prop := True.
(** Errors of the statement itself: a handler takes the TinydbErrors. *)
Definition caught_or_escapes (e : exn) : Prop := is_tinydb_error e = true ∨ escapes e.

Section Rules.
Context {A B : Type} (E : exn → Prop).
Lemma gives_ret (Q : A → Prop) a : Q a → gives E Q (mret a).
Proof. by intros ? s. Qed.
Lemma gives_raise (Q : A → Prop) e : E e → gives E Q (raise e).
Proof. by intros ? s. Qed.
Lemma gives_lift (Q : A → Prop) r : rwp E r Q → gives E Q (lift r).
Proof. by intros ? s. Qed.
Lemma gives_get : gives E any (get (S := R)).
Proof. by intros s. Qed.
Lemma gives_modify f : gives E any (modify (S := R) f).
Proof. by intros s. Qed.
Lemma gives_output line : gives E any (output (D := D) (N := N) (C := C) line).
Proof. by intros s. Qed.
Lemma gives_elapsed : gives E any (elapsed (D := D) (N := N) (C := C)).
Proof. by intros s. Qed.
Lemma gives_bind (Q : B → Prop) (P : A → Prop) m f : gives E P m → (∀ a, P a → gives E Q (f a)) → gives E Q (m ≫= f).
Proof. intros Hm Hf s. apply wp_bind. eapply wp_mono; [apply Hm|]. intros a s' Ha. by apply Hf. Qed.
Lemma gives_mono (Q Q' : A → Prop) (E' : exn → Prop) m : gives E Q m → (∀ e, E e → E' e) → (∀ a, Q a → Q' a) → gives E' Q' m.
Proof. intros Hm HE HQ s. specialize (Hm s). unfold wp in *. destruct (m s) as [[a|e] s']; auto. Qed.
Lemma gives_except (Q : A → Prop) cls m h : gives (λ e, cls e = true ∨ E e) Q m → (∀ e, cls e = true → gives E Q (h e)) → gives E Q (except cls m h).
Proof.
  intros Hm Hh s. unfold wp, except, catch. specialize (Hm s). unfold wp in Hm. destruct (m s) as [[a|e] s']; [done|].
  destruct (cls e) eqn:He; [by apply Hh|]. by destruct Hm.
Qed.
Lemma gives_try_else (Q : B → Prop) cls (m : M R A) h k :
  gives (λ e, cls e = true ∨ E e) any m → (∀ e, cls e = true → gives E Q (h e)) → (∀ a, gives E Q (k a)) → gives E Q (try_else m (only cls h) k).
Proof.
  intros Hm Hh Hk s. unfold wp, try_else. specialize (Hm s). unfold wp in Hm. destruct (m s) as [[a|e] s']; [by apply Hk|].
  unfold only. destruct (cls e) eqn:He; [by apply Hh|]. by destruct Hm.
Qed.
Lemma gives_on_db (Q : A → Prop) (m : M D A) : (∀ d e d', m d = (Err e, d') → E e) → (∀ a, Q a) → gives E Q (on_database (N := N) (C := C) m).
Proof.
  intros Hm HQ s. unfold wp, on_database, zoom. destruct (m (rl_db s)) as [[a|e] d] eqn:He; [by apply HQ|]. by eapply Hm.
Qed.
Lemma gives_on_net (Q : A → Prop) (m : M N A) : (∀ n e n', m n = (Err e, n') → E e) → (∀ a, Q a) → gives E Q (on_net (D := D) (C := C) m).
Proof.
  intros Hm HQ s. unfold wp, on_net, zoom. destruct (m (rl_net s)) as [[a|e] d] eqn:He; [by apply HQ|]. by eapply Hm.
Qed.
Lemma gives_if (Q : A → Prop) (b : bool) m m' : gives E Q m → gives E Q m' → gives E Q (if b then m else m').
Proof. by destruct b. Qed.
End Rules.
Lemma gives_ignoring E (m : M R unit) : gives E any (ignoring m).
Proof. intros s. unfold wp, ignoring, catch. by destruct (m s) as [[[]|e] s']. Qed.
Lemma sorted_out e : is_tinydb_error e = true ∨ (is_tinydb_error e = false → escapes e) → caught_or_escapes e.
Proof. unfold caught_or_escapes. destruct (is_tinydb_error e); naive_solver. Qed.
Lemma lift_any {A} E (r : result A) : (∀ e, r = Err e → E e) → gives E any (lift r).
Proof. intros Hr. apply gives_lift. unfold rwp. destruct r; [done|by apply Hr]. Qed.

(** Walks over a computation: each step gives what it may, or is left *)
Ltac gwalk :=
  repeat first
    [ progress cbv beta zeta
    | done
    | apply gives_get | apply gives_modify | apply gives_output | apply gives_elapsed | apply gives_ignoring
    | match goal with
      | |- gives _ _ (mret _) => apply gives_ret
      | |- gives _ _ (raise _) => apply gives_raise
      | |- gives _ _ (mbind _ _) => eapply gives_bind with (P := any); [|intros ? _]
      | |- gives _ _ (if _ then _ else _) => apply gives_if
      | |- gives _ _ (match ?x with _ => _ end) => destruct x
      end ].

Lemma types_give E (s : SelectStmt) :
  (∀ e, select_table s = Err e → E e) → (∀ name d e d', da_get_table name d = (Err e, d') → E e) → gives E any (_column_types_for_select s).
Proof.
  intros Hs Ht. unfold _column_types_for_select. gwalk; [by apply lift_any|by apply gives_on_db; [eapply Ht|]].
Qed.
Lemma columns_give E (s : SelectStmt) : (∀ d e d', da_plan_columns s d = (Err e, d') → is_tinydb_error e = false → E e) → gives E any (planned_columns s).
Proof.
  intros Hp. apply gives_except; [|by intros; apply gives_ret]. apply gives_on_db; [|done]. intros d e d' He.
  destruct (is_tinydb_error e) eqn:Ht; [by left|right; by eapply Hp].
Qed.
Lemma file_execute_gives sql : (∀ e, parse sql = Err e → caught_or_escapes e) → gives caught_or_escapes any (file_execute sql).
Proof.
  intros Hp. assert (∀ s, gives caught_or_escapes any (_column_types_for_select s)) as Htypes.
  { intros s. apply types_give; intros; apply sorted_out; right; [by eapply esc_join|by eapply esc_table]. }
  assert (∀ sql, gives caught_or_escapes any (on_database (da_execute sql))) as Hexec.
  { intros q. apply gives_on_db; [|done]. intros. apply sorted_out. right. by eapply esc_execute. }
  unfold file_execute. gwalk.
  all: try apply Hexec; try apply Htypes; try (apply columns_give; intros; right; by eapply esc_columns).
  all: apply lift_any; try done; intros; apply sorted_out; right; by eapply esc_affected.
Qed.
Lemma remote_execute_gives c sql : gives caught_or_escapes any (remote_execute c sql).
Proof.
  unfold remote_execute. gwalk. intros s. unfold wp, on_net, zoom, except, catch.
  destruct (re_execute c sql (rl_net s)) as [[r|e] n] eqn:He; [done|]. case_bool_decide; [by left|].
  apply sorted_out. right. intros. by eapply esc_remote.
Qed.
Lemma backend_execute_gives b sql : (∀ e, parse sql = Err e → caught_or_escapes e) → gives caught_or_escapes any (backend_execute b sql).
Proof.
  intros Hp. destruct b; cbn [backend_execute]; [by apply file_execute_gives|apply remote_execute_gives|by apply gives_raise; left].
Qed.
Lemma reporting_gives (m : M R unit) : gives caught_or_escapes any m → gives escapes any (reporting m).
Proof. intros Hm. apply gives_except; [done|]. intros. apply gives_output. Qed.
Lemma display_gives E rows columns (mode : bool) : (∀ e, escapes e → E e) →
  gives E any (lift (if mode then format_line_mode rows columns else format_table rows columns)).
Proof. intros HE. apply lift_any. intros e He. apply HE. apply (esc_display rows columns). destruct mode; auto. Qed.

Lemma execute_sql_gives line target mode : gives escapes any (_execute_sql line target mode).
Proof.
  unfold _execute_sql. destruct (parse line) as [stmt|e] eqn:Hp.
  2: { destruct (is_parse_error e) eqn:He; [apply gives_output|apply gives_raise; by eapply esc_parse]. }
  assert (∀ b, gives caught_or_escapes any (backend_execute b line)) as Hb by (intros b; apply backend_execute_gives; congruence).
  assert (gives caught_or_escapes any (on_database (da_execute line))) as Hexec.
  { apply gives_on_db; [|done]. intros. apply sorted_out. right. by eapply esc_execute. }
  unfold execute_parsed. destruct (is_create_or_drop stmt).
  { apply reporting_gives. unfold execute_any. gwalk; auto. }
  eapply gives_bind with (P := any).
  { unfold select_layout. destruct stmt; try by apply gives_ret. destruct target; [|by apply gives_ret].
    apply gives_except; [|by intros; apply gives_ret]. gwalk.
    - apply gives_on_db; [|done]. intros. apply sorted_out. right. by eapply esc_columns.
    - apply types_give; intros; apply sorted_out; right; [by eapply esc_join|by eapply esc_table]. }
  intros ct _. destruct target as [|b].
  - apply gives_try_else; [exact Hexec|intros; apply gives_output|]. intros rows. eapply gives_bind with (P := any); [apply gives_elapsed|intros t _].
    unfold show_rows.
    assert (∀ r : row, gives escapes any (v ← lift (cell r 0); text ← lift (py_str v); output (text ++ u " row(s)"))) as Hcount.
    { intros r. eapply gives_bind with (P := λ v, cell r 0 = Ok v).
      - intros s. unfold wp, lift. destruct (cell r 0) eqn:Hc; [done|]. apply (esc_count r). by rewrite Hc.
      - intros v Hv. gwalk. apply lift_any. intros e He. apply (esc_count r). by rewrite Hv, bind_Ok. }
    assert (∀ columns, gives escapes any (text ← lift (_render_select rows columns ct.2 mode t); output text)) as Hshow.
    { intros columns. gwalk. apply lift_any. intros e. unfold _render_select. case_bool_decide.
      - destruct (format_line_mode _ _) as [|e'] eqn:Hf; [by rewrite bind_Ok|]. rewrite bind_Err. intros [= <-]. eapply esc_display. by right.
      - destruct (format_table _ _) as [|e'] eqn:Hf; [by rewrite bind_Ok|]. rewrite bind_Err. intros [= <-]. eapply esc_display. by left. }
    destruct stmt, ct.1; auto; gwalk; auto.
  - apply reporting_gives. eapply gives_bind with (P := any); [apply Hb|]. intros res _. unfold _emit_backend_result. gwalk.
    apply display_gives. by right.
Qed.

Lemma emit_table_gives rows names : gives escapes any (_emit_table rows names).
Proof. unfold _emit_table. gwalk. apply lift_any. intros e He. eapply esc_display. by left. Qed.
Lemma server_meta_gives line : gives escapes any (dispatch_server_meta line).
Proof.
  assert (∀ arg, gives escapes any (cmd_connect arg)) as Hc.
  { intros arg. unfold cmd_connect. apply gives_if; [gwalk|]. destruct (parse_uri (strip arg)) as [parsed|e] eqn:Hu.
    2: { case_bool_decide; [gwalk|by apply gives_raise; eapply esc_uri]. }
    apply gives_try_else.
    - apply gives_on_net; [|done]. intros. case_bool_decide; [by left|right; by eapply esc_connect].
    - intros. gwalk.
    - intros. gwalk. }
  assert (gives escapes any cmd_disconnect) as Hd by (unfold cmd_disconnect; gwalk).
  assert (gives escapes any cmd_status) as Hst by (unfold cmd_status; gwalk).
  assert (gives escapes any cmd_server_info) as Hi.
  { unfold cmd_server_info. gwalk; [|apply emit_table_gives].
    apply gives_except; [|by intros; apply gives_ret]. gwalk. apply gives_on_net; [|done]. intros n e n' Hn.
    assert (re_ping client n = (Err e, n')) as Hping.
    { destruct (re_ping client n) as [[ms|e'] n1] eqn:Hp; [by rewrite (run_Ok _ _ _ _ _ Hp) in Hn|by rewrite (run_Err _ _ _ _ _ Hp) in Hn]. }
    destruct (ping_error e) eqn:He; [by left|right; by eapply esc_ping]. }
  unfold dispatch_server_meta. destruct (meta_command line) as [[cmd arg]|]; [|by apply gives_ret]. gwalk; auto.
Qed.
Lemma database_meta_gives has_mode line : gives escapes any (dispatch_meta has_mode line).
Proof.
  assert (∀ ddl, gives escapes any (emit_ddl ddl)) as Hddl by (intros; apply emit_table_gives).
  assert (∀ d0 names, (∀ n, n ∈ names → n ∈ da_list_tables d0) → gives escapes any (emit_schemas names)) as Hschemas.
  { intros d0 names. induction names as [|n names IH]; intros Hn; cbn [emit_schemas]; [by apply gives_ret|]. gwalk; auto.
    - apply gives_on_db; [|done]. intros. eapply (esc_listed n d0); [apply Hn; by left|done].
    - apply IH. intros. apply Hn. by right. }
  assert (∀ sql, gives caught_or_escapes any (on_database (da_execute sql))) as Hexec.
  { intros q. apply gives_on_db; [|done]. intros. apply sorted_out. right. by eapply esc_execute. }
  unfold dispatch_meta. destruct (meta_command line) as [[cmd arg]|]; [|by apply gives_ret]. gwalk; try apply emit_table_gives.
  - unfold meta_schema. eapply gives_bind with (P := any); [apply gives_get|]. intros s _. destruct (first_word arg) as [name|].
    + apply gives_try_else; [|intros; apply gives_output|done]. apply gives_on_db; [|done]. intros.
      case_bool_decide; [by left|right; by eapply esc_schema].
    + destruct (da_list_tables (rl_db s)) as [|n names] eqn:Hn; [apply gives_output|]. apply (Hschemas (rl_db s)). by rewrite Hn.
  - unfold meta_explain. gwalk.
    + apply gives_try_else; [apply Hexec|intros; apply gives_output|]. intros rows. gwalk. apply lift_any. intros. eapply esc_display. by left.
    + apply gives_except.
      * gwalk. apply gives_on_db; [|done]. intros. apply sorted_out. right. by eapply esc_explain.
      * intros. gwalk.
  - unfold meta_mode. gwalk.
Qed.
Lemma all_meta_gives has_db line : gives escapes any (_dispatch_all_meta has_db line).
Proof. unfold _dispatch_all_meta. gwalk; [apply server_meta_gives|apply database_meta_gives]. Qed.

Definition zero (code : Z) : Prop := code = 0.
Lemma complete_line_gives has_db line : gives escapes (λ code, code = None ∨ code = Some 0) (complete_line has_db line).
Proof.
  unfold complete_line. destruct line as [|c line]; [by apply gives_ret; left|].
  eapply gives_bind with (P := any); [apply all_meta_gives|]. intros h _. destruct h as [[|]|]; [by apply gives_ret; left|by apply gives_ret; right|].
  eapply gives_bind with (P := any); [apply gives_get|]. intros s _.
  eapply gives_bind with (P := any); [apply execute_sql_gives|]. intros _ _. apply gives_ret. by left.
Qed.
Lemma after_line has_db line (m : M R Z) : gives escapes zero m →
  gives escapes zero (code ← complete_line has_db line; match code with Some code => mret code | None => m end).
Proof. intros Hm. eapply gives_bind; [apply complete_line_gives|]. by intros code [->| ->]; [|apply gives_ret]. Qed.

Definition ends (r : result Z) : Prop := match r with Ok code => code = 0 | Err e => escapes e end.
Lemma gives_ends m s : gives escapes zero m → ends (m s).1.
Proof. intros Hg. specialize (Hg s). unfold wp in Hg. by destruct (m s) as [[]]. Qed.

End Ends.
