(* ===== verification/SortSpec.v ===== *)
(** ORDER BY: the sorted rows are a stable permutation of the rows, ordered by
    the keys with NULL last, or first under DESC. *)
From S2P Require Import Prelude.
From S2P Require Import Bytes.
From S2P Require Import Utf8.
From S2P Require Import TypeSys.
From S2P Require Import PyOrder.
From S2P Require Import PyDict.
From S2P Require Import EvalExpr.
From S2P Require Import Plan.
From stdpp Require Import sorting.
From Stdlib Require Import ZArith Lia.
Local Open Scope Z_scope.

(** Keys that ORDER BY can compare, and negate or wrap for DESC *)
Class SortKeys (K : pyval → Prop) `{OrderedKeys K} := {
  sk_not_none v : K v → v ≠ PyNone;
  sk_eq a b : K a → K b → elt_eq (SVal a) (SVal b) = Ok (bool_decide (rank a = rank b));
  sk_neg_eq a b : K a → K b → elt_eq (_neg a) (_neg b) = Ok (bool_decide (rank a = rank b));
  sk_neg_lt a b : K a → K b → elt_lt (_neg a) (_neg b) = py_lt b a;
}.
#[global] Instance int_sort_keys : SortKeys is_int_key.
Proof.
  split; intros []; try done; intros []; try done; intros _ _; cbn; unfold py_eq_checked, py_lt; cbn; rewrite !Z.mul_1_r; f_equal.
  - destruct (Z.compare_spec z z0); case_bool_decide as Hd; try done; [congruence|injection Hd; lia..].
  - rewrite Z.compare_opp. destruct (Z.compare_spec z0 z); case_bool_decide as Hd; try done; [congruence|injection Hd; lia..].
  - by rewrite Z.compare_opp.
Qed.
#[global] Instance text_sort_keys : SortKeys is_text_key.
Proof.
  split; intros []; try done; intros []; try done; intros _ _; cbn; unfold py_eq_checked; cbn; f_equal; repeat case_bool_decide; congruence.
Qed.
#[global] Instance date_sort_keys : SortKeys is_date_key.
Proof.
  split; intros []; try done; intros []; try done; intros _ _; cbn; unfold py_eq_checked; cbn; f_equal; repeat case_bool_decide; 
    try congruence; destruct (Z.eqb_spec ordinal ordinal0); congruence.
Qed.

(** * The order *)

Section Sort.
Context (K : pystr → pyval → Prop) `{HO : ∀ c, OrderedKeys (K c)} `{HS : ∀ c, SortKeys (K c)}.

(** Two values of a column *)
Definition value_cmp (c : pystr) (desc : bool) (a b : pyval) : comparison :=
  let dir o := if desc then CompOpp o else o in
  match a, b with
  | PyNone, PyNone => Eq
  | PyNone, _ => dir Gt
  | _, PyNone => dir Lt
  | _, _ => dir (lex_compare (rank (K := K c) a) (rank (K := K c) b))
  end.
(** The first key that differs decides *)
Fixpoint values_cmp (keys : list (pystr * bool)) (a b : list pyval) : comparison :=
  match keys, a, b with
  | (c, desc) :: keys, x :: a, y :: b => match value_cmp c desc x y with Eq => values_cmp keys a b | o => o end
  | _, _, _ => Eq
  end.
(** The values of the key columns of a row *)
Definition key_values (idx : n2i) (keys : list (pystr * bool)) (r : row) : result (list pyval) :=
  mapR (λ k : pystr * bool, i ← of_option KeyError (dget k.1 idx); cell r i) keys.
(** The values can be compared: each is NULL or a key of its column *)
Definition comparable (keys : list (pystr * bool)) (vs : list pyval) : Prop :=
  Forall2 (λ (k : pystr * bool) v, v = PyNone ∨ K k.1 v) keys vs.

Lemma value_cmp_refl c desc v : value_cmp c desc v v = Eq.
Proof. unfold value_cmp. destruct v, desc; rewrite ?lex_compare_refl; done. Qed.
Lemma value_cmp_none c desc v : v ≠ PyNone → value_cmp c desc PyNone v = (if desc then Lt else Gt) ∧ value_cmp c desc v PyNone = (if desc then Gt else Lt).
Proof. unfold value_cmp. by destruct v, desc. Qed.
Lemma value_cmp_keys c desc a b : a ≠ PyNone → b ≠ PyNone →
  value_cmp c desc a b = let o := lex_compare (rank (K := K c) a) (rank (K := K c) b) in if desc then CompOpp o else o.
Proof. unfold value_cmp. by destruct a, b. Qed.
Lemma value_cmp_opp c desc a b : value_cmp c desc b a = CompOpp (value_cmp c desc a b).
Proof. unfold value_cmp. destruct a, b, desc; try done; rewrite lex_compare_opp; done. Qed.
Lemma value_cmp_eq c desc a b : (a = PyNone ∨ K c a) → (b = PyNone ∨ K c b) → value_cmp c desc a b = Eq → a = b.
Proof.
  intros [->|Ha] [->|Hb]; [done|..].
  - rewrite (proj1 (value_cmp_none c desc b (sk_not_none _ Hb))). by destruct desc.
  - rewrite (proj2 (value_cmp_none c desc a (sk_not_none _ Ha))). by destruct desc.
  - rewrite value_cmp_keys by by apply sk_not_none. intros He. apply (rank_inj a b Ha Hb), lex_compare_eq.
    by destruct desc, (lex_compare (rank a) (rank b)).
Qed.
Lemma value_cmp_trans c desc x y z : (x = PyNone ∨ K c x) → (y = PyNone ∨ K c y) → (z = PyNone ∨ K c z) →
  value_cmp c desc x y = Lt → value_cmp c desc y z = Lt → value_cmp c desc x z = Lt.
Proof.
  intros [->|Hx] [->|Hy] [->|Hz]; rewrite ?value_cmp_refl; try done;
    repeat match goal with
    | Hk : K c ?v |- _ => apply sk_not_none in Hk
    end;
    repeat match goal with
    | Hn : ?v ≠ PyNone |- context [value_cmp c desc PyNone ?v] => rewrite (proj1 (value_cmp_none c desc v Hn))
    | Hn : ?v ≠ PyNone |- context [value_cmp c desc ?v PyNone] => rewrite (proj2 (value_cmp_none c desc v Hn))
    | Hn : ?v ≠ PyNone, Hm : ?w ≠ PyNone |- context [value_cmp c desc ?v ?w] => rewrite (value_cmp_keys c desc v w Hn Hm)
    end; cbv zeta; destruct desc; try done.
  - rewrite <-!(lex_compare_opp (rank x)), <-(lex_compare_opp (rank y)). intros H1 H2. by eapply lex_compare_lt_trans.
  - apply lex_compare_lt_trans.
Qed.

Lemma values_cmp_refl keys a : values_cmp keys a a = Eq.
Proof. revert a. induction keys as [|[c d] keys IH]; intros [|x a]; cbn [values_cmp]; [done..|]. by rewrite value_cmp_refl. Qed.
Lemma values_cmp_opp keys a b : values_cmp keys b a = CompOpp (values_cmp keys a b).
Proof.
  revert a b. induction keys as [|[c d] keys IH]; intros [|x a] [|y b]; cbn [values_cmp]; try done.
  rewrite value_cmp_opp. destruct (value_cmp c d x y); cbn; [apply IH|done..].
Qed.
Lemma values_cmp_eq keys a b : comparable keys a → comparable keys b → values_cmp keys a b = Eq → a = b.
Proof.
  intros Ha. revert b. induction Ha as [|[c d] x keys a Hx Ha IH]; intros b Hb; inversion Hb; subst; cbn [values_cmp]; [done|].
  destruct (value_cmp c d x y) eqn:E; try done. apply (value_cmp_eq c d) in E; [subst|done..]. intros Hc. f_equal. by apply IH.
Qed.
Lemma values_cmp_trans keys x y z : comparable keys x → comparable keys y → comparable keys z →
  values_cmp keys x y = Lt → values_cmp keys y z = Lt → values_cmp keys x z = Lt.
Proof.
  intros Hx. revert y z. induction Hx as [|[c d] a keys x Ha Hx IH]; intros y z Hy Hz; inversion Hy as [|? b ? y' Hb Hy']; subst;
    inversion Hz as [|? e ? z' He Hz']; subst; cbn [values_cmp]; [done|].
  destruct (value_cmp c d a b) eqn:E1; [|intros _|done].
  - apply (value_cmp_eq c d) in E1 as ->; [|done..]. destruct (value_cmp c d b e); [|done..]. intros H1 H2. by apply (IH y' z').
  - destruct (value_cmp c d b e) eqn:E2; [|intros _|done].
    + apply (value_cmp_eq c d) in E2 as ->; [|done..]. by rewrite E1.
    + by rewrite (value_cmp_trans c d a b e).
Qed.

(** * The keys that are compared *)

Definition parts (keys : list (pystr * bool)) (vs : list pyval) : list (Z * sort_elt) := zip_with (λ k v, sort_part k.2 v) keys vs.
Lemma encode_sort_values idx keys r : encode_sort idx keys r = vs ← key_values idx keys r; Ok (parts keys vs).
Proof.
  unfold key_values. induction keys as [|[c d] keys IH]; [done|]. cbn [encode_sort mapR fst]. rewrite IH.
  destruct (of_option KeyError (dget c idx)) as [i|]; [rewrite !bind_Ok|done].
  destruct (cell r i) as [v|]; [rewrite !bind_Ok|done].
  by destruct (mapR _ keys) as [vs|].
Qed.
Lemma sort_part_key c desc v : K c v → sort_part desc v = if desc then (1, _neg v) else (0, SVal v).
Proof. intros Hv%sk_not_none. by destruct v. Qed.
Lemma parts_lt_cmp keys a b : comparable keys a → comparable keys b →
  parts_lt (parts keys a) (parts keys b) = Ok (bool_decide (values_cmp keys a b = Lt)).
Proof.
  intros Ha. revert b. induction Ha as [|[c desc] x keys a Hx Ha IH]; intros b Hb; inversion Hb as [|? y ? b' Hy Hb']; subst; [done|].
  unfold parts. cbn [zip_with parts_lt values_cmp fst snd]. fold (parts keys a) (parts keys b'). specialize (IH b' Hb').
  destruct Hx as [->|Hx], Hy as [->|Hy].
  - rewrite value_cmp_refl. destruct desc; exact IH.
  - rewrite (sort_part_key c desc y Hy). rewrite (proj1 (value_cmp_none c desc y (sk_not_none _ Hy))). by destruct desc.
  - rewrite (sort_part_key c desc x Hx). rewrite (proj2 (value_cmp_none c desc x (sk_not_none _ Hx))). by destruct desc.
  - rewrite (sort_part_key c desc x Hx), (sort_part_key c desc y Hy). rewrite (value_cmp_keys c desc x y (sk_not_none x Hx) (sk_not_none y Hy)). cbv zeta.
    pose proof (rank_compare (K := K c) x y Hx Hy) as Hxy. pose proof (rank_compare (K := K c) y x Hy Hx) as Hyx.
    destruct desc; cbn [Z.eqb negb Pos.eqb].
    + rewrite (sk_neg_eq (K := K c)), bind_Ok by done. destruct (decide (rank (K := K c) x = rank (K := K c) y)) as [He|He].
      * rewrite (bool_decide_true _ He), He, lex_compare_refl. done.
      * rewrite (bool_decide_false _ He), (sk_neg_lt (K := K c)) by done. unfold py_lt. rewrite Hyx, bind_Ok. f_equal. rewrite lex_compare_opp.
        destruct (lex_compare (rank x) (rank y)) eqn:E; try done. by apply lex_compare_eq in E.
    + rewrite (sk_eq (K := K c)), bind_Ok by done. destruct (decide (rank (K := K c) x = rank (K := K c) y)) as [He|He].
      * rewrite (bool_decide_true _ He), He, lex_compare_refl. done.
      * rewrite (bool_decide_false _ He). unfold elt_lt, py_lt. rewrite Hxy, bind_Ok. f_equal.
        destruct (lex_compare (rank x) (rank y)) eqn:E; try done. by apply lex_compare_eq in E.
Qed.

(** * Sorting *)

Section Rows.
Context (keys : list (pystr * bool)) (kv : row → list pyval).
Definition row_cmp (r r' : row) : comparison := values_cmp keys (kv r) (kv r').
Definition row_le (r r' : row) : Prop := row_cmp r r' ≠ Gt.
Fixpoint row_insert (r : row) (l : list row) : list row :=
  match l with [] => [r] | y :: l => if decide (row_cmp r y = Lt) then r :: y :: l else y :: row_insert r l end.
Definition row_sort (l : list row) : list row := foldl (λ acc r, row_insert r acc) [] l.
Definition tagged (l : list row) : list (list (Z * sort_elt) * row) := map (λ r, (parts keys (kv r), r)) l.
Definition sortable (r : row) : Prop := comparable keys (kv r).

Lemma insert_sorted_run r l : sortable r → Forall sortable l →
  insert_sorted (parts keys (kv r)) r (tagged l) = Ok (tagged (row_insert r l)).
Proof.
  intros Hr. induction 1 as [|y l Hy Hl IH]; [done|]. cbn [tagged map insert_sorted row_insert]. fold (tagged l).
  rewrite parts_lt_cmp, bind_Ok by done. unfold row_cmp. case_decide as Hc; [by rewrite bool_decide_true|]. rewrite bool_decide_false by done.
  by rewrite IH.
Qed.
Lemma row_insert_perm r l : row_insert r l ≡ₚ r :: l.
Proof. induction l as [|y l IH]; cbn [row_insert]; [done|]. case_decide; [done|]. rewrite IH. by constructor. Qed.
Lemma sort_pairs_run l acc : Forall sortable l → Forall sortable acc →
  sort_pairs (tagged l) (tagged acc) = Ok (tagged (foldl (λ acc r, row_insert r acc) acc l)).
Proof.
  intros Hl. revert acc. induction Hl as [|r l Hr Hl IH]; intros acc Ha; [done|]. cbn [tagged map sort_pairs foldl]. fold (tagged l).
  rewrite insert_sorted_run, bind_Ok by done. apply IH. rewrite row_insert_perm. by constructor.
Qed.
Lemma row_sort_perm_acc l acc : foldl (λ acc r, row_insert r acc) acc l ≡ₚ l ++ acc.
Proof. revert acc. induction l as [|r l IH]; intros acc; [done|]. cbn [foldl app]. rewrite IH, row_insert_perm. by rewrite Permutation_middle. Qed.
Lemma row_le_trans x y z : sortable x → sortable y → sortable z → row_le x y → row_le y z → row_le x z.
Proof.
  unfold row_le, row_cmp, sortable. intros Hx Hy Hz H1 H2. destruct (values_cmp keys (kv x) (kv y)) eqn:E1; [| |done].
  - apply values_cmp_eq in E1 as ->; done.
  - destruct (values_cmp keys (kv y) (kv z)) eqn:E2; [| |done].
    + apply values_cmp_eq in E2 as <-; [|done..]. by rewrite E1.
    + by rewrite (values_cmp_trans keys (kv x) (kv y)).
Qed.
Lemma row_insert_sorted r l : sortable r → Forall sortable l → StronglySorted row_le l → StronglySorted row_le (row_insert r l).
Proof.
  intros Hr. induction 1 as [|y l Hy Hl IH]; intros Hs; cbn [row_insert]; [repeat constructor|].
  apply StronglySorted_inv in Hs as [Hs Hf]. case_decide as Hc.
  - assert (row_le r y) as Hry by (unfold row_le; by rewrite Hc). constructor; [by constructor|]. constructor; [done|].
    rewrite Forall_forall in Hf, Hl |- *. intros x Hx. apply (row_le_trans r y x); [done|done|by apply Hl|done|by apply Hf].
  - constructor; [by apply IH|]. rewrite row_insert_perm. constructor; [|done]. unfold row_le, row_cmp in *. rewrite values_cmp_opp.
    by destruct (values_cmp keys (kv r) (kv y)).
Qed.
Lemma no_match (Q : row → Prop) `{∀ x, Decision (Q x)} l : (∀ z, z ∈ l → ¬ Q z) → filter Q l = [].
Proof.
  induction l as [|z l IH]; intros Hl; [done|]. rewrite filter_cons_False by (apply Hl; by left). apply IH. intros y Hy. apply Hl. by right.
Qed.
(** The rows with the key of [x], in order *)
Definition alike (x : row) (l : list row) : list row := filter (λ r, row_cmp x r = Eq) l.
Lemma alike_insert x r l : sortable x → sortable r → Forall sortable l → StronglySorted row_le l →
  alike x (row_insert r l) = alike x (l ++ [r]).
Proof.
  intros Hx Hr. induction 1 as [|y l Hy Hl IH]; intros Hs; [done|]. apply StronglySorted_inv in Hs as [Hs Hf].
  cbn [row_insert]. case_decide as Hc.
  - unfold alike. rewrite filter_app, !(filter_cons _ r). destruct (decide (row_cmp x r = Eq)) as [He|He]; [|by rewrite app_nil_r].
    rewrite (no_match _ (y :: l)); [done|]. intros z Hz Hxz. rewrite Forall_forall in Hf, Hl. unfold row_cmp in *.
    assert (sortable z) as Hsz by (apply elem_of_cons in Hz as [->|Hz]; [done|by apply Hl]).
    apply values_cmp_eq in He; [|done..]. apply values_cmp_eq in Hxz; [|done..].
    assert (kv r = kv z) as Hrz by congruence. apply elem_of_cons in Hz as [->|Hz].
    + rewrite Hrz, values_cmp_refl in Hc. done.
    + apply (Hf z Hz). unfold row_cmp. rewrite <-Hrz, values_cmp_opp, Hc. done.
  - cbn [app]. unfold alike in *. rewrite !filter_cons. case_decide; [f_equal|]; by apply IH.
Qed.
Lemma sorted_acc l acc : Forall sortable l → Forall sortable acc → StronglySorted row_le acc →
  StronglySorted row_le (foldl (λ acc r, row_insert r acc) acc l) ∧
  ∀ x, sortable x → alike x (foldl (λ acc r, row_insert r acc) acc l) = alike x acc ++ alike x l.
Proof.
  intros Hl. revert acc. induction Hl as [|r l Hr Hl IH]; intros acc Ha Hs; cbn [foldl].
  - split; [done|]. intros x _. unfold alike at 3. cbn. by rewrite app_nil_r.
  - destruct (IH (row_insert r acc)) as [H1 H2]; [rewrite row_insert_perm; by constructor|by apply row_insert_sorted|].
    split; [done|]. intros x Hx. rewrite H2, alike_insert by done. unfold alike. rewrite filter_app, <-app_assoc. f_equal.
    rewrite !filter_cons. by case_decide.
Qed.
End Rows.

(** What the sorted rows are *)
Record sorted_by_keys (keys : list (pystr * bool)) (kv : row → list pyval) (rows out : list row) : Prop := {
  so_perm : out ≡ₚ rows;
  so_sorted : StronglySorted (row_le keys kv) out;
  so_stable x : x ∈ rows → alike keys kv x out = alike keys kv x rows;
}.
Lemma sort_rows_run idx keys kv rows : (∀ r, r ∈ rows → key_values idx keys r = Ok (kv r) ∧ comparable keys (kv r)) →
  sort_rows idx keys rows = Ok (row_sort keys kv rows).
Proof.
  intros Hkv. unfold sort_rows.
  assert (mapR (encode_sort idx keys) rows = Ok (map (λ r, parts keys (kv r)) rows)) as ->.
  { clear -Hkv. induction rows as [|r rows IH]; [done|]. cbn [mapR map]. rewrite encode_sort_values.
    rewrite (proj1 (Hkv r ltac:(by left))), !bind_Ok, IH by (intros; apply Hkv; by right). done. }
  rewrite bind_Ok. assert (zip (map (λ r, parts keys (kv r)) rows) rows = tagged keys kv rows) as ->.
  { unfold tagged. clear Hkv. induction rows as [|r rows IH]; [done|]. cbn. by rewrite IH. }
  change [] with (tagged keys kv []). rewrite sort_pairs_run; [|apply Forall_forall; intros r Hr; by apply Hkv|constructor].
  rewrite bind_Ok. f_equal. unfold tagged, row_sort. rewrite map_map. apply map_id.
Qed.
Lemma row_sort_sorted keys kv rows : (∀ r, r ∈ rows → comparable keys (kv r)) → sorted_by_keys keys kv rows (row_sort keys kv rows).
Proof.
  intros Hk. assert (Forall (sortable keys kv) rows) as Hs by (apply Forall_forall; intros r Hr; by apply Hk).
  destruct (sorted_acc keys kv rows [] Hs) as [H1 H2]; [constructor..|]. split.
  - unfold row_sort. by rewrite row_sort_perm_acc, app_nil_r.
  - done.
  - intros x Hx. unfold row_sort. rewrite H2; [done|]. by apply Hk.
Qed.

(** C19: ORDER BY over rows whose key columns hold NULLs or values that can be
    compared never fails: the result is a permutation of the rows, ordered by
    the keys (NULL is last, under DESC first), in which rows with equal keys
    keep their order. *)
Theorem order_by_sorts idx keys kv rows :
  (∀ r, r ∈ rows → key_values idx keys r = Ok (kv r) ∧ comparable keys (kv r)) →
  ∃ out, sort_rows idx keys rows = Ok out ∧ sorted_by_keys keys kv rows out.
Proof.
  intros Hkv. exists (row_sort keys kv rows). split; [by apply sort_rows_run|]. apply row_sort_sorted. intros r Hr. by apply Hkv.
Qed.
End Sort.
