(* ===== verification/ReadSpec.v ===== *)
(** What plans read: the laws of the storage under the executor, and the rows
    that scans, filters and projections yield over it. *)
From S2P Require Import Prelude.
From S2P Require Import Bytes.
From S2P Require Import Utf8.
From S2P Require Import TypeSys.
From S2P Require Import Codec.
From S2P Require Import PyConv.
From S2P Require Import PyOrder.
From S2P Require Import PyDict.
From S2P Require Import Ast.
From S2P Require Import Heap.
From S2P Require Import Catalog.
From S2P Require Import EvalExpr.
From S2P Require Import Aggregation.
From S2P Require Import Gen.
From S2P Require Import Plan.
From S2P Require Import Dml.
From Stdlib Require Import ZArith Lia.
Local Open Scope Z_scope.

(** The tables: the rows of each under their rids, in the order of the scan *)
Abbreviation table := (TableMeta * list (Rid * row))%type.
Abbreviation view := (pystr → option table).

(** [shows n s v]: the state shows the tables [v], and has room for [n] more
    heaps to be opened *)
Class ReadLaws (St : Type) `{ExecOps St} `{JsonLib} (shows : nat → St → view → Prop) := {
  rl_less n s v : shows (S n) s v → shows n s v;
  rl_get n s v t : shows n s v → xo_get_table t s = (of_option KeyError (fst <$> v t), s);
  rl_name n s v t meta es : shows n s v → v t = Some (meta, es) → meta.(tm_name) = t;
  rl_bound : TableMeta → St → Prop;  (** the heap of the table is open *)
  rl_heap_for n s v t meta es : shows (S n) s v → v t = Some (meta, es) →
    ∃ s', xo_heap_for meta s = (Ok (), s') ∧ shows n s' v ∧ xo_indexes s' = xo_indexes s ∧ rl_bound meta s';
  rl_heap_again n s v meta : shows n s v → rl_bound meta s → xo_heap_for meta s = (Ok (), s);
  rl_nodup n s v t meta es : shows n s v → v t = Some (meta, es) → NoDup (map fst es);
  rl_scan n s v t meta es : shows n s v → v t = Some (meta, es) → xo_scan meta s = (Ok (map fst es), s);
  rl_read n s v t meta es rid r : shows n s v → v t = Some (meta, es) → (rid, r) ∈ es →
    ∃ blob, xo_read meta rid s = (Ok (Some blob), s) ∧ decode_row blob (tags_of meta) = Ok r;
}.

(** * Rows of the right width *)

Section Width.
Context `{JsonLib}.
Lemma decode_fields_length blob tags off vs : decode_fields blob off tags = Ok vs → length vs.1 = length tags.
Proof.
  revert off vs. induction tags as [|t tags IH]; intros off vs; cbn [decode_fields]; [by intros [= <-]|].
  destruct (decode_value blob off) as [[v off1]|]; [|done]. rewrite bind_Ok.
  destruct (decode_fields blob off1 tags) as [[vs' off2]|] eqn:E; [|done]. rewrite bind_Ok. intros [= <-]. cbn.
  f_equal. exact (IH off1 _ E).
Qed.
Lemma decode_row_length blob tags r : decode_row blob tags = Ok r → length r = length tags.
Proof.
  unfold decode_row. destruct (decode_fields blob 0 tags) as [[vs off]|] eqn:E; [|done]. rewrite bind_Ok.
  destruct (negb _); [done|]. intros [= <-]. exact (decode_fields_length _ _ _ _ E).
Qed.
End Width.

(** * What a generator yields from a list *)

(** The items and the exception of a generator *)
Abbreviation outcome A := (list A * option exn)%type.
(** [list(g)] *)
Definition result_of {A} (o : outcome A) : result (list A) := match o.2 with None => Ok o.1 | Some e => Err e end.
(** A loop over the items whose body is [f] *)
Definition pipe {A B} (f : A → result (list B)) (o : outcome A) : outcome B :=
  match for_pure f o.1 with (ys, None) => (ys, o.2) | r => r end.

Section Pipes.
Context {St : Type}.
Definition runs_to {A} (g : gen St A) (s : St) (o : outcome A) (s' : St) : Prop := g s = (o.1, o.2, s').
Lemma collect_outcome {A} (g : gen St A) s o s' : runs_to g s o s' → collect g s = (result_of o, s').
Proof. unfold runs_to, collect, result_of. intros ->. by destruct o as [xs [e|]]. Qed.
Lemma for_each_pipe {A B} (f : A → result (list B)) (g : gen St A) (body : A → gen St B) s o s' :
  (∀ x s, body x s = match f x with Ok ys => (ys, None, s) | Err e => ([], Some e, s) end) →
  runs_to g s o s' → runs_to (for_each g body) s (pipe f o) s'.
Proof.
  unfold runs_to, for_each, pipe. intros Hb ->. destruct o as [xs e]. cbn [fst snd]. rewrite (for_list_pure f) by done.
  by destruct (for_pure f xs) as [ys [e'|]].
Qed.
Lemma g_with_runs {A B} (m : M St A) (k : A → gen St B) s a s1 o s2 :
  m s = (Ok a, s1) → runs_to (k a) s1 o s2 → runs_to (g_with m k) s o s2.
Proof. unfold runs_to. intros Hm <-. by apply g_with_Ok. Qed.
End Pipes.

Lemma pipe_map {A B} (f : A → result (list B)) (g : A → B) (o : outcome A) : (∀ x, x ∈ o.1 → f x = Ok [g x]) → pipe f o = (map g o.1, o.2).
Proof.
  destruct o as [xs e]. cbn [fst snd]. intros Hf. unfold pipe. cbn [fst snd].
  assert (for_pure f xs = (map g xs, None)) as ->; [|done].
  induction xs as [|x xs IH]; [done|]. cbn [for_pure map]. rewrite Hf by (by left).
  by rewrite IH by (intros; apply Hf; by right).
Qed.
Lemma result_of_map {A B} (g : A → B) (o : outcome A) : result_of (map g o.1, o.2) = (xs ← result_of o; Ok (map g xs)).
Proof. by destruct o as [xs [e|]]. Qed.

(** * Filters *)

(** The elements that pass, up to the first test that fails *)
Fixpoint filterR {A} (f : A → result bool) (l : list A) : result (list A) :=
  match l with
  | [] => Ok []
  | x :: l => b ← f x; l ← filterR f l; Ok (if b : bool then x :: l else l)
  end.
Definition filter_step {A} (f : A → result bool) (x : A) : result (list A) := b ← f x; Ok (if b : bool then [x] else []).
Lemma filter_outcome {A} (f : A → result bool) xs : result_of (pipe (filter_step f) (xs, None)) = filterR f xs.
Proof.
  unfold pipe, result_of. cbn [fst snd].
  induction xs as [|x xs IH]; [done|]. cbn [for_pure filterR].
  assert (filter_step f x = (b ← f x; Ok (if b : bool then [x] else []))) as -> by done.
  destruct (f x) as [b|e]; [|done]. rewrite !bind_Ok, <-IH. destruct (for_pure (filter_step f) xs) as [ys [e|]]; [done|].
  by destruct b.
Qed.
Lemma filter_outcome_sub {A} (f : A → result bool) o x : x ∈ (pipe (filter_step f) o).1 → x ∈ o.1.
Proof.
  destruct o as [xs e]. unfold pipe. cbn [fst snd].
  intros Hx. assert (x ∈ (for_pure (filter_step f) xs).1) as Hx' by (by destruct (for_pure (filter_step f) xs) as [? []]).
  clear Hx. revert Hx'. induction xs as [|y xs IH]; [done|]. cbn [for_pure].
  assert (filter_step f y = (b ← f y; Ok (if b : bool then [y] else []))) as -> by done.
  destruct (f y) as [b|]; [|by intros ?%elem_of_nil]. rewrite bind_Ok. destruct (for_pure _ xs) as [zs e']. cbn [fst] in *.
  rewrite elem_of_app. intros [Hx|Hx]; [destruct b; [|by apply elem_of_nil in Hx]; apply list_elem_of_singleton in Hx as ->; by left|].
  right. by apply IH.
Qed.
Lemma filterR_sub {A} (f : A → result bool) l l' x : filterR f l = Ok l' → x ∈ l' → x ∈ l.
Proof.
  revert l'. induction l as [|y l IH]; intros l'; cbn [filterR]; [by intros [= <-]|].
  destruct (f y) as [b|]; [|done]. rewrite bind_Ok. destruct (filterR f l) as [l1|]; [|done]. rewrite bind_Ok. intros [= <-].
  destruct b; [intros [->|Hx]%elem_of_cons; [by left|]|intros Hx]; right; by apply (IH l1).
Qed.
Lemma filterR_all {A} (l : list A) : filterR (λ _, Ok true) l = Ok l.
Proof. induction l as [|x l IH]; [done|]. cbn [filterR]. by rewrite bind_Ok, IH, bind_Ok. Qed.

(** * Scans *)

Section Reads.
Context {St : Type} `{ReadLaws St shows} `{ArithLib}.
Implicit Types (s : St) (v : view).
Definition rows_of (es : list (Rid * row)) : list row := map snd es.

Lemma row_length n s v t meta es r : shows n s v → v t = Some (meta, es) → r ∈ rows_of es → length r = length meta.(tm_columns).
Proof.
  intros Hs Hv Hr. apply list_elem_of_In, in_map_iff in Hr as ([rid r'] & <- & Hin%list_elem_of_In).
  destruct (rl_read _ _ _ _ _ _ _ _ Hs Hv Hin) as (blob & _ & Hd). apply decode_row_length in Hd. cbn [snd].
  by rewrite Hd; unfold tags_of; rewrite length_map.
Qed.
Lemma table_scan_run n s v t meta es : shows n s v → v t = Some (meta, es) → TableScan meta s = (es, None, s).
Proof.
  intros Hs Hv. unfold TableScan. rewrite (g_with_Ok _ _ _ _ _ (rl_scan _ _ _ _ _ _ Hs Hv)).
  assert (∀ l, (∀ e, e ∈ l → e ∈ es) → for_list (map fst l) (λ rid, g_with (xo_read meta rid) (λ blob,
      match blob with
      | None => g_nil
      | Some blob => g_with (lift (decode_row blob (tags_of meta))) (λ r, yield (rid, r))
      end)) s = (l, None, s)) as Hl; [|by apply Hl].
  induction l as [|[rid r] l IH]; intros Hl; [done|]. cbn [map for_list fst].
  destruct (rl_read _ _ _ _ _ _ rid r Hs Hv) as (blob & Hb & Hd); [apply Hl; by left|].
  rewrite (g_app_Ok _ _ s [(rid, r)] s); [by rewrite IH by (intros; apply Hl; by right)|].
  rewrite (g_with_Ok _ _ _ _ _ Hb). by rewrite Hd.
Qed.
Lemma get_table_run n s v t meta es : shows n s v → v t = Some (meta, es) → xo_get_table t s = (Ok meta, s).
Proof. intros Hs Hv. rewrite (rl_get _ _ _ t Hs). by rewrite Hv. Qed.
Lemma name_to_idx_run n s v t meta es : shows n s v → v t = Some (meta, es) → name_to_idx_for t s = (Ok (column_n2i meta), s).
Proof. intros Hs Hv. unfold name_to_idx_for. by rewrite (run_Ok _ _ _ _ _ (get_table_run _ _ _ _ _ _ Hs Hv)). Qed.
Lemma open_scan_run n s v t meta es : shows (S n) s v → v t = Some (meta, es) →
  ∃ s', runs_to (open_scan t) s (rows_of es, None) s' ∧ shows n s' v ∧ xo_indexes s' = xo_indexes s.
Proof.
  intros Hs Hv. destruct (rl_heap_for _ _ _ _ _ _ Hs Hv) as (s' & Hh & Hs' & Hi & _). exists s'. split; [|done].
  unfold open_scan. eapply g_with_runs; [by eapply get_table_run|]. eapply g_with_runs; [done|].
  assert (runs_to (TableScan meta) s' (es, None) s') as Ht by by apply (table_scan_run n s' v t).
  assert (pipe (λ rr : Rid * row, Ok [rr.2]) (es, None) = (rows_of es, None)) as <- by by rewrite (pipe_map _ snd).
  by apply (for_each_pipe (λ rr : Rid * row, Ok [rr.2]) _ (λ rr, yield rr.2) _ _ _ (λ x s, eq_refl) Ht).
Qed.

(** * Operators over what the source yields *)

Lemma open_filter_run (n2i_of : M St n2i) src predicate s idx o s' :
  n2i_of s = (Ok idx, s) → runs_to src s o s' →
  runs_to (open_filter n2i_of src predicate) s (pipe (filter_step (λ r, selected (Some predicate) r idx)) o) s'.
Proof.
  intros Hn Hr. unfold open_filter. eapply g_with_runs; [done|]. apply for_each_pipe; [|done].
  intros r st. unfold g_with, lift, filter_step, selected. destruct (eval_expr predicate r idx) as [x|]; [|done].
  rewrite !bind_Ok. by destruct (py_truth x).
Qed.
Lemma open_project_run (n2i_of : M St n2i) src columns items s idx o s' :
  n2i_of s = (Ok idx, s) → runs_to src s o s' →
  runs_to (open_project n2i_of src columns items) s (pipe (λ r, r ← project_row idx columns items r; Ok [r]) o) s'.
Proof.
  intros Hn Hr. unfold open_project. eapply g_with_runs; [done|]. apply for_each_pipe; [|done].
  intros r st. unfold g_with, lift. by destruct (project_row idx columns items r) as [x|].
Qed.
End Reads.
