(* ===== verification/SelectSpec.v ===== *)
(** SELECT over one table: the plan that the planner makes and the executor
    runs gives the rows of a direct definition. *)
From S2P Require Import Prelude.
From S2P Require Import Bytes.
From S2P Require Import Utf8.
From S2P Require Import TypeSys.
From S2P Require Import Codec.
From S2P Require Import PyConv.
From S2P Require Import PyOrder.
From S2P Require Import PyDict.
From S2P Require Import Ast.
From S2P Require Import Heap.
From S2P Require Import Catalog.
From S2P Require Import EvalExpr.
From S2P Require Import Aggregation.
From S2P Require Import Gen.
From S2P Require Import Plan.
From S2P Require Import Dml.
From S2P Require Import Planner.
From S2P Require Import ReadSpec.
From Stdlib Require Import ZArith Lia.
Local Open Scope Z_scope.

(** * Columns of a table *)

(** Distinct names without a dot *)
Definition clean_columns (meta : TableMeta) : Prop :=
  NoDup (meta_column_names meta) ∧ Forall (λ c, 46 ∉ c) (meta_column_names meta).
Definition full_row (meta : TableMeta) (r : row) : Prop := length r = length meta.(tm_columns).
(** The value of a column in a row *)
Definition column_of (meta : TableMeta) (r : row) (c : pystr) : pyval :=
  default PyNone (dget c (column_n2i meta) ≫= λ i, r !! i).

Lemma label_n2i_get labels c : NoDup labels → dget c (label_n2i labels) = fst <$> list_find (eq c) labels.
Proof.
  intros Hnd. unfold label_n2i. rewrite dict_of_id.
  2: { assert (map fst (zip labels (seq 0 (length labels))) = labels) as ->; [|done]. apply fst_zip. by rewrite length_seq. }
  assert (∀ k, dget c (zip labels (seq k (length labels))) = (λ p : nat * pystr, (k + p.1)%nat) <$> list_find (eq c) labels) as Hk.
  { clear Hnd. induction labels as [|l labels IH]; intros k; [done|]. cbn [length seq zip zip_with dget list_find].
    case_decide as Hc; [cbn; f_equal; lia|]. fold (zip labels (seq (S k) (length labels))).
    rewrite IH. destruct (list_find (eq c) labels) as [[i x]|]; cbn; [f_equal; lia|done]. }
  rewrite Hk. by destruct (list_find (eq c) labels) as [[i x]|].
Qed.
Lemma label_n2i_lookup labels c i : NoDup labels → dget c (label_n2i labels) = Some i ↔ labels !! i = Some c.
Proof.
  intros Hnd. rewrite label_n2i_get by done. split.
  - destruct (list_find (eq c) labels) as [[j x]|] eqn:E; [|done]. cbn. intros [= <-].
    apply list_find_Some in E as (Hj & <- & _). done.
  - intros Hi. destruct (list_find (eq c) labels) as [[j x]|] eqn:E; cbn.
    + apply list_find_Some in E as (Hj & <- & _). f_equal. by eapply NoDup_lookup.
    + apply list_find_None in E. rewrite Forall_forall in E. exfalso. apply (E c); [|done]. by eapply list_elem_of_lookup_2.
Qed.
Lemma label_n2i_mem labels c : NoDup labels → dmem c (label_n2i labels) = bool_decide (c ∈ labels).
Proof.
  intros Hnd. unfold dmem. apply bool_decide_ext. split.
  - intros [i Hi]. apply label_n2i_lookup in Hi; [|done]. by eapply list_elem_of_lookup_2.
  - intros [i Hi]%list_elem_of_lookup. exists i. by apply label_n2i_lookup.
Qed.
Lemma column_slot meta c : clean_columns meta → c ∈ meta_column_names meta →
  ∃ i, dget c (column_n2i meta) = Some i ∧ (i < length meta.(tm_columns))%nat.
Proof.
  intros [Hnd _] [i Hi]%list_elem_of_lookup. exists i. split; [by apply label_n2i_lookup|].
  apply lookup_lt_Some in Hi. unfold meta_column_names in Hi. by rewrite length_map in Hi.
Qed.
Lemma column_cell meta r c : clean_columns meta → full_row meta r → c ∈ meta_column_names meta →
  ∃ i, dget c (column_n2i meta) = Some i ∧ cell r i = Ok (column_of meta r c).
Proof.
  intros Hc Hr Hin. destruct (column_slot meta c Hc Hin) as (i & Hi & Hlt). exists i. split; [done|].
  unfold column_of, cell. rewrite Hi. cbn. rewrite <-Hr in Hlt. by destruct (lookup_lt_is_Some_2 _ _ Hlt) as [x ->].
Qed.
(** A qualified name is no column *)
Lemma qualified_absent meta item c : clean_columns meta → qualified_slot (column_n2i meta) item c = None.
Proof.
  intros [Hnd Hdot]. unfold qualified_slot. destruct (item_table item) as [t|]; [|done]. cbn.
  destruct (dget (qualified t c) (column_n2i meta)) as [i|] eqn:E; [|done]. apply label_n2i_lookup in E; [|done].
  rewrite Forall_forall in Hdot. exfalso. apply (Hdot (qualified t c)); [by eapply list_elem_of_lookup_2|].
  unfold qualified. apply elem_of_app. right. by left.
Qed.
Lemma project_cell_column `{ArithLib} meta item l r : clean_columns meta → full_row meta r → l ∈ meta_column_names meta →
  project_cell (column_n2i meta) r item l = Ok (column_of meta r l).
Proof.
  intros Hc Hr Hin. unfold project_cell. rewrite qualified_absent by done. by destruct (column_cell meta r l Hc Hr Hin) as (i & -> & ->).
Qed.
Lemma project_row_columns `{ArithLib} meta labels items r : clean_columns meta → full_row meta r → (∀ c, c ∈ labels → c ∈ meta_column_names meta) →
  project_row (column_n2i meta) labels items r = Ok (map (column_of meta r) labels).
Proof.
  intros Hc Hr Hin. unfold project_row. generalize 0%nat. induction labels as [|l labels IH]; intros k; [done|].
  cbn [length seq zip zip_with mapR map fst snd]. fold (zip (seq (S k) (length labels)) labels).
  rewrite project_cell_column by (try done; apply Hin; by left). rewrite bind_Ok, IH by (intros; apply Hin; by right). done.
Qed.

(** * Select lists of columns *)

Definition plain_item (i : select_item) : bool := match i with Star | Item (ColumnRef _ _) => true | _ => false end.
Lemma add_new_nodup l out : NoDup out → NoDup (add_new l out).
Proof. unfold add_new. case_bool_decide; [done|]. intros ?. apply NoDup_app. split_and!; [done|set_solver|apply NoDup_singleton]. Qed.
Lemma elem_of_add_new x l out : x ∈ add_new l out ↔ x = l ∨ x ∈ out.
Proof. unfold add_new. case_bool_decide; set_solver. Qed.
Lemma add_all_spec names out : NoDup out → NoDup (foldl (λ out c, add_new c out) out names) ∧
  ∀ x, x ∈ foldl (λ out c, add_new c out) out names ↔ x ∈ names ∨ x ∈ out.
Proof.
  revert out. induction names as [|c names IH]; intros out Hnd; cbn [foldl]; [set_solver|].
  destruct (IH (add_new c out)) as [H1 H2]; [by apply add_new_nodup|]. split; [done|]. intros x. rewrite H2, elem_of_add_new. set_solver.
Qed.
Lemma project_labels_spec `{PyRepr} names items out labels : forallb plain_item items = true → NoDup out → (∀ c, c ∈ out → c ∈ names) →
  project_labels names items out = Ok labels →
  NoDup labels ∧ (∀ c, c ∈ labels → c ∈ names) ∧ (Star ∈ items → ∀ c, c ∈ names → c ∈ labels) ∧ (∀ c, c ∈ out → c ∈ labels) ∧
  (Star ∉ items → (length labels <= length out + length items)%nat).
Proof.
  revert out. induction items as [|i items IH]; intros out Hp Hnd Hin; cbn [project_labels].
  { intros [= <-]. split_and!; [done|done|by intros ?%elem_of_nil|done|cbn; lia]. }
  cbn [forallb] in Hp. apply andb_prop in Hp as [Hi Hp]. destruct i as [| |e]; [|done|].
  - destruct (add_all_spec names out Hnd) as [Hnd' Hel]. intros Hl.
    destruct (IH _ Hp Hnd' ltac:(intros c Hc; apply Hel in Hc as [|]; auto) Hl) as (H1 & H2 & H3 & H4 & H5).
    split_and!; [done|done|intros _ c Hc; apply H4, Hel; by left|intros c Hc; apply H4, Hel; by right|].
    intros Hs. exfalso. apply Hs. by left.
  - destruct e as [|name t| | |]; try done. unfold ensure. case_bool_decide as Hn; [rewrite bind_Ok|done]. intros Hl.
    destruct (IH _ Hp (add_new_nodup name out Hnd) ltac:(intros c Hc; apply elem_of_add_new in Hc as [->|]; auto) Hl) as (H1 & H2 & H3 & H4 & H5).
    split_and!; [done|done| |intros c Hc; apply H4, elem_of_add_new; by right|].
    + intros Hs. apply H3. by apply elem_of_cons in Hs as [|].
    + intros Hs. rewrite not_elem_of_cons in Hs. specialize (H5 (proj2 Hs)).
      assert (length (add_new name out) <= S (length out))%nat; [|cbn [length]; lia]. unfold add_new. case_bool_decide; rewrite ?length_app; cbn; lia.
Qed.
Lemma star_or_not (items : list select_item) : Star ∈ items ∨ Star ∉ items.
Proof.
  induction items as [|i items [IH|IH]]; [right; by intros ?%elem_of_nil|left; by right|].
  destruct i; [left; by left|right; by intros [|]%elem_of_cons..].
Qed.
Lemma project_columns_spec `{PyRepr} stmt meta labels : NoDup (meta_column_names meta) → forallb plain_item stmt.(sel_columns) = true →
  _project_columns stmt meta = Ok labels →
  NoDup labels ∧ (∀ c, c ∈ labels → c ∈ meta_column_names meta) ∧
  ((∀ c, c ∈ meta_column_names meta → c ∈ labels) ∨ (length labels <= length stmt.(sel_columns))%nat).
Proof.
  intros Hnd Hp Hl.
  assert (labels = meta_column_names meta ∨ project_labels (meta_column_names meta) stmt.(sel_columns) [] = Ok labels) as [->|Hl'].
  { unfold _project_columns in Hl. destruct stmt.(sel_columns) as [|[] [|? ?]]; first [by right | injection Hl as <-; by left]. }
  { split_and!; [done|done|by left]. }
  destruct (project_labels_spec _ _ [] labels Hp ltac:(constructor) ltac:(by intros ? ?%elem_of_nil) Hl') as (H1 & H2 & H3 & _ & H5).
  split_and!; [done|done|]. destruct (star_or_not stmt.(sel_columns)) as [Hs|Hs]; [left; by apply H3|right].
  specialize (H5 Hs). cbn [length] in H5. lia.
Qed.

(** * Sorting before and after the projection *)

Lemma mapR_ext_in {A B} (f g : A → result B) l : (∀ x, x ∈ l → f x = g x) → mapR f l = mapR g l.
Proof. induction l as [|x l IH]; intros He; [done|]. cbn [mapR]. rewrite He by (by left). by rewrite IH by (intros; apply He; by right). Qed.
Lemma mapR_map {A B C} (f : A → B) (g : B → result C) l : mapR g (map f l) = mapR (λ x, g (f x)) l.
Proof. induction l as [|x l IH]; [done|]. cbn. by rewrite IH. Qed.
Lemma mapR_Ok {A B} (f : A → result B) (g : A → B) l : (∀ x, x ∈ l → f x = Ok (g x)) → mapR f l = Ok (map g l).
Proof. induction l as [|x l IH]; intros He; [done|]. cbn [mapR map]. rewrite He by (by left). by rewrite bind_Ok, IH by (intros; apply He; by right). Qed.
Lemma insert_sorted_map {A B} (f : A → B) k x l :
  insert_sorted k (f x) (map (λ p, (p.1, f p.2)) l) = (l' ← insert_sorted k x l; Ok (map (λ p, (p.1, f p.2)) l')).
Proof.
  induction l as [|[k' y] l IH]; [done|]. cbn [map insert_sorted fst snd]. destruct (parts_lt k k') as [[|]|]; [done| |done]. rewrite !bind_Ok, IH.
  by destruct (insert_sorted k x l).
Qed.
Lemma sort_pairs_map {A B} (f : A → B) l acc :
  sort_pairs (map (λ p, (p.1, f p.2)) l) (map (λ p, (p.1, f p.2)) acc) = (l' ← sort_pairs l acc; Ok (map (λ p, (p.1, f p.2)) l')).
Proof.
  revert acc. induction l as [|[k x] l IH]; intros acc; [done|]. cbn [map sort_pairs fst snd]. rewrite insert_sorted_map.
  destruct (insert_sorted k x acc) as [acc'|]; [rewrite !bind_Ok; apply IH|done].
Qed.
(** Rows with the same keys sort alike *)
Lemma sort_rows_map idx idx' keys (f : row → row) rows :
  (∀ r, r ∈ rows → encode_sort idx' keys (f r) = encode_sort idx keys r) →
  sort_rows idx' keys (map f rows) = (l ← sort_rows idx keys rows; Ok (map f l)).
Proof.
  intros He. unfold sort_rows. rewrite mapR_map, (mapR_ext_in _ _ _ He).
  destruct (mapR (encode_sort idx keys) rows) as [ks|]; [rewrite !bind_Ok|done].
  assert (zip ks (map f rows) = map (λ p, (p.1, f p.2)) (zip ks rows)) as ->.
  { clear He. revert rows. induction ks as [|k ks IH]; intros [|r rows]; cbn; [done..|]. f_equal. apply IH. }
  change (@nil (list (Z * sort_elt) * row)) with (map (λ p : list (Z * sort_elt) * row, (p.1, f p.2)) []) at 1. rewrite sort_pairs_map.
  destruct (sort_pairs (zip ks rows) []) as [l|]; [|done]. rewrite !bind_Ok, !map_map. done.
Qed.
Lemma sort_pairs_sub {A} (l acc l' : list (list (Z * sort_elt) * A)) x : sort_pairs l acc = Ok l' → x ∈ l' → x ∈ l ∨ x ∈ acc.
Proof.
  assert (∀ k (a : A) m m', insert_sorted k a m = Ok m' → x ∈ m' → x = (k, a) ∨ x ∈ m) as Hins.
  { intros k a m. induction m as [|[k' y] m IH]; intros m'; cbn [insert_sorted]; [intros [= <-]; set_solver|].
    destruct (parts_lt k k') as [[|]|]; [rewrite bind_Ok; intros [= <-]; set_solver| |done]. rewrite bind_Ok.
    destruct (insert_sorted k a m) as [m1|]; [|done]. rewrite bind_Ok. intros [= <-] [->|Hx]%elem_of_cons; [right; by left|].
    destruct (IH m1 eq_refl Hx); [by left|right; by right]. }
  revert acc. induction l as [|[k a] l IH]; intros acc; cbn [sort_pairs]; [intros [= <-]; by right|].
  destruct (insert_sorted k a acc) as [acc'|] eqn:E; [|done]. rewrite bind_Ok. intros Hs Hx. destruct (IH acc' Hs Hx) as [|Hin]; [left; by right|].
  destruct (Hins _ _ _ _ E Hin) as [->|]; [left; by left|by right].
Qed.
Lemma sort_rows_sub idx keys rows out r : sort_rows idx keys rows = Ok out → r ∈ out → r ∈ rows.
Proof.
  unfold sort_rows. destruct (mapR _ rows) as [ks|]; [rewrite bind_Ok|done].
  destruct (sort_pairs (zip ks rows) []) as [l|] eqn:E; [rewrite bind_Ok|done]. intros [= <-] Hr.
  apply list_elem_of_In, in_map_iff in Hr as ([k r'] & <- & Hin%list_elem_of_In).
  destruct (sort_pairs_sub _ _ _ _ E Hin) as [Hz|Hz]; [|by apply elem_of_nil in Hz]. by apply elem_of_zip_r in Hz.
Qed.

(** * The direct definition *)

Section Reference.
Context `{ArithLib} `{PyRepr}.
(** [rows[offset : offset + limit]]; without a LIMIT an OFFSET leaves nothing *)
Definition limited (lim off : option Z) (rows : list row) : list row :=
  match lim, off with
  | None, (None | Some 0) => rows
  | _, _ => take (Z.to_nat (default 0 lim)) (drop (Z.to_nat (default 0 off)) rows)
  end.
Definition reference (meta : TableMeta) (rows : list row) (stmt : SelectStmt) (lim off : option Z) : result (list row) :=
  validate_where stmt.(sel_where) meta;;
  labels ← _project_columns stmt meta;
  ensure (forallb (λ k, bool_decide (k.1 ∈ meta_column_names meta)) (sort_keys stmt)) UnknownColumnError;;
  ensure (bool_decide (0 <= default 0 lim) && bool_decide (0 <= default 0 off)) ValueError;;
  kept ← filterR (λ r, selected stmt.(sel_where) r (column_n2i meta)) rows;
  sorted ← (match stmt.(sel_order_by) with [] => Ok kept | _ => sort_rows (column_n2i meta) (sort_keys stmt) kept end);
  Ok (limited lim off (map (λ r, map (column_of meta r) labels) sorted)).
End Reference.

(** * The plan runs as the direct definition *)

Lemma encode_projected meta labels keys r : clean_columns meta → full_row meta r → NoDup labels →
  (∀ c, c ∈ labels → c ∈ meta_column_names meta) → forallb (λ k, bool_decide (k.1 ∈ labels)) keys = true →
  encode_sort (label_n2i labels) keys (map (column_of meta r) labels) = encode_sort (column_n2i meta) keys r.
Proof.
  intros Hc Hr Hnd Hin. induction keys as [|[c d] keys IH]; [done|]. cbn [forallb fst encode_sort]. intros [Hk Hks]%andb_prop.
  apply bool_decide_eq_true in Hk. rewrite IH by done. destruct (column_cell meta r c Hc Hr (Hin c Hk)) as (i & Hi & Hci).
  apply list_elem_of_lookup in Hk as [j Hj]. rewrite (proj2 (label_n2i_lookup labels c j Hnd) Hj), Hi. cbn [of_option]. rewrite !bind_Ok, Hci.
  unfold cell. rewrite list_lookup_fmap, Hj. done.
Qed.
Lemma forallb_mem keys labels : NoDup labels →
  forallb (λ k : pystr * bool, dmem k.1 (label_n2i labels)) keys = forallb (λ k, bool_decide (k.1 ∈ labels)) keys.
Proof. intros Hnd. induction keys as [|k keys IH]; [done|]. cbn [forallb]. by rewrite label_n2i_mem, IH. Qed.
Lemma forallb_impl {A} (f g : A → bool) l : (∀ x, f x = true → g x = true) → forallb f l = true → forallb g l = true.
Proof. intros Hfg. induction l as [|x l IH]; [done|]. cbn [forallb]. intros [Hx Hl]%andb_prop. by rewrite (Hfg x Hx), IH. Qed.

Section Select.
Context {St : Type} `{ReadLaws St shows} `{ArithLib} `{PyRepr}.
Implicit Types (s : St) (v : view).

(** What the source of the plan yields *)
Definition source_outcome (w : option expr) (idx : n2i) (rows : list row) : outcome row :=
  match w with None => (rows, None) | Some _ => pipe (filter_step (λ r, selected w r idx)) (rows, None) end.
Lemma source_result w idx rows : result_of (source_outcome w idx rows) = filterR (λ r, selected w r idx) rows.
Proof. destruct w; [apply filter_outcome|]. cbn [source_outcome selected]. by rewrite filterR_all. Qed.
Lemma source_sub w idx rows r : r ∈ (source_outcome w idx rows).1 → r ∈ rows.
Proof. destruct w; [|done]. apply (filter_outcome_sub _ (rows, None)). Qed.
Definition scan_plan (w : option expr) (meta : TableMeta) : plan :=
  match w with None => SeqScan meta.(tm_name) | Some w => FilterPlan (SeqScan meta.(tm_name)) w end.
Lemma scan_plan_table w meta : plan_table (scan_plan w meta) = meta.(tm_name).
Proof. by destruct w. Qed.
Lemma scan_plan_source w meta : is_join (candidate (scan_plan w meta)) = false.
Proof. by destruct w. Qed.
Lemma open_source_run n s v meta es w : shows (S n) s v → v meta.(tm_name) = Some (meta, es) →
  ∃ s', runs_to (open (scan_plan w meta)) s (source_outcome w (column_n2i meta) (rows_of es)) s' ∧ shows n s' v ∧
    xo_indexes s' = xo_indexes s.
Proof.
  intros Hs Hv. destruct w as [w|].
  - destruct (open_scan_run n s v _ meta es Hs Hv) as (s' & Hr & Hs' & Hi). exists s'. split; [|done].
    cbn [scan_plan open is_join plan_table]. apply open_filter_run; [|done]. by apply (name_to_idx_run (S n) s v _ meta es).
  - destruct (open_scan_run n s v _ meta es Hs Hv) as (s' & Hr & Hs' & Hi). by exists s'.
Qed.
Lemma open_project_source_run n s v meta es w labels items : shows (S n) s v → v meta.(tm_name) = Some (meta, es) → clean_columns meta →
  (∀ c, c ∈ labels → c ∈ meta_column_names meta) →
  ∃ s', runs_to (open (Project (scan_plan w meta) labels items)) s
          (let o := source_outcome w (column_n2i meta) (rows_of es) in (map (λ r, map (column_of meta r) labels) o.1, o.2)) s' ∧
    shows n s' v ∧ xo_indexes s' = xo_indexes s.
Proof.
  intros Hs Hv Hc Hin. destruct (open_source_run n s v meta es w Hs Hv) as (s' & Hr & Hs' & Hi). exists s'. split; [|done].
  cbn [open]. assert (_project_name_to_idx (scan_plan w meta) s = (Ok (column_n2i meta), s)) as Hn.
  { replace (_project_name_to_idx (scan_plan w meta)) with (source_n2i (scan_plan w meta) (plan_table (scan_plan w meta))) by (by destruct w).
    unfold source_n2i. rewrite scan_plan_source, scan_plan_table. by apply (name_to_idx_run (S n) s v _ meta es). }
  pose proof (open_project_run _ _ labels items s (column_n2i meta) _ s' Hn Hr) as Hp.
  rewrite (pipe_map _ (λ r, map (column_of meta r) labels)) in Hp; [done|]. intros r Hx%source_sub.
  rewrite project_row_columns; [done|done| |done]. by apply (row_length (S n) s v meta.(tm_name) meta es).
Qed.
Lemma result_of_map_collect {A B} (f : A → B) (o : outcome A) : result_of (map f o.1, o.2) = (l ← result_of o; Ok (map f l)).
Proof. by destruct o as [xs [e|]]. Qed.

Lemma resolve_slots meta (items : list select_item) labels : clean_columns meta → (length labels <= length items)%nat →
  mapR (λ ic : option select_item * pystr, _resolve_proj_index (column_n2i meta) ic.1 ic.2)
    (match items with [] => map (λ c, (None, c)) labels | _ => zip (map Some items) labels end) =
  mapR (λ c, of_option UnknownColumnError (dget c (column_n2i meta))) labels.
Proof.
  intros Hc Hlen.
  assert (∀ l, mapR (λ ic : option select_item * pystr, _resolve_proj_index (column_n2i meta) ic.1 ic.2) l =
               mapR (λ c, of_option UnknownColumnError (dget c (column_n2i meta))) (map snd l)) as ->.
  { intros l. rewrite mapR_map. apply mapR_ext_in. intros [i c] _. unfold _resolve_proj_index. cbn [fst snd]. by rewrite qualified_absent. }
  f_equal. destruct items as [|i items]; [by destruct labels; [|cbn in Hlen; lia]|]. apply snd_zip. by rewrite length_map.
Qed.
Lemma slots_of_columns meta labels : clean_columns meta → (∀ c, c ∈ labels → c ∈ meta_column_names meta) →
  ∃ slots, mapR (λ c, of_option UnknownColumnError (dget c (column_n2i meta))) labels = Ok slots ∧
    ∀ r, full_row meta r → mapR (cell r) slots = Ok (map (column_of meta r) labels).
Proof.
  intros Hc. induction labels as [|c labels IH]; intros Hin; [by exists []|].
  destruct IH as (slots & Hs & Hr); [intros; apply Hin; by right|]. destruct (column_slot meta c Hc) as (i & Hi & _); [apply Hin; by left|].
  exists (i :: slots). cbn [mapR]. rewrite Hi, Hs. split; [done|]. intros r Hf. cbn [mapR map].
  destruct (column_cell meta r c Hc Hf) as (j & Hj & Hcell); [apply Hin; by left|]. rewrite Hi in Hj. injection Hj as <-.
  by rewrite Hcell, (Hr r Hf).
Qed.
(** ORDER BY: before or after the projection, with the same rows *)
Lemma sort_project_run n s v meta es w labels items keys : shows (S (S n)) s v → v meta.(tm_name) = Some (meta, es) → clean_columns meta →
  NoDup labels → (∀ c, c ∈ labels → c ∈ meta_column_names meta) →
  ((∀ c, c ∈ meta_column_names meta → c ∈ labels) ∨ (length labels <= length items)%nat) →
  keys ≠ [] → forallb (λ k, bool_decide (k.1 ∈ meta_column_names meta)) keys = true →
  ∃ s', collect (open (SortPlan (Project (scan_plan w meta) labels items) keys)) s =
      ((kept ← filterR (λ r, selected w r (column_n2i meta)) (rows_of es); sorted ← sort_rows (column_n2i meta) keys kept;
        Ok (map (λ r, map (column_of meta r) labels) sorted)), s') ∧ shows n s' v ∧ xo_indexes s' = xo_indexes s.
Proof.
  intros Hs Hv Hc Hnd Hin Hitems Hkeys Hknown.
  destruct (open_project_source_run (S n) s v meta es w labels items Hs Hv Hc Hin) as (s1 & Hr & Hs1 & Hi1).
  pose proof (collect_outcome _ _ _ _ Hr) as Hcol. cbv zeta in Hcol. rewrite result_of_map_collect, source_result in Hcol.
  destruct (filterR (λ r, selected w r (column_n2i meta)) (rows_of es)) as [kept|e] eqn:Hkept.
  2: { exists s1. split; [|split; [by apply rl_less|done]]. unfold collect. cbn [open]. rewrite (g_with_Err _ _ _ _ _ Hcol). done. }
  rewrite bind_Ok in Hcol. rewrite bind_Ok.
  assert (∀ r, r ∈ kept → full_row meta r) as Hfull.
  { intros r Hx. eapply row_length; [exact Hs|exact Hv|]. by eapply filterR_sub. }
  assert (∀ st, name_to_idx_for meta.(tm_name) st = (Ok (column_n2i meta), st) → shows (S n) st v →
    source_n2i (scan_plan w meta) (plan_table (Project (scan_plan w meta) labels items)) st = (Ok (column_n2i meta), st)) as Hsrc.
  { intros st Hn _. unfold source_n2i. rewrite scan_plan_source. cbn [plan_table]. by rewrite scan_plan_table. }
  assert (name_to_idx_for meta.(tm_name) s1 = (Ok (column_n2i meta), s1)) as Hn1 by by apply (name_to_idx_run (S n) s1 v _ meta es).
  assert (∀ g, collect (open (SortPlan (Project (scan_plan w meta) labels items) keys)) s = g →
               collect (open_sort_project (map (λ r, map (column_of meta r) labels) kept) (open (scan_plan w meta)) (column_n2i meta) labels items keys) s1 = g) as Hg.
  { intros g <-. unfold collect at 2. cbn [open]. rewrite (g_with_Ok _ _ _ _ _ Hcol). rewrite bool_decide_false by done.
    rewrite (g_with_Ok _ _ _ _ _ (Hsrc _ Hn1 Hs1)). done. }
  specialize (Hg _ eq_refl). rewrite <-Hg. clear Hg. unfold open_sort_project. rewrite forallb_mem by done.
  destruct (forallb (λ k, bool_decide (k.1 ∈ labels)) keys) eqn:Hall.
  - exists s1. split; [|split; [by apply rl_less|done]]. unfold open_sorted, collect. rewrite forallb_mem, Hall by done. cbn [negb].
    rewrite (sort_rows_map (column_n2i meta)) by (intros r Hx; apply encode_projected; auto).
    destruct (sort_rows (column_n2i meta) keys kept) as [sorted|]; [|done]. done.
  - destruct (open_source_run n s1 v meta es w Hs1 Hv) as (s2 & Hr2 & Hs2 & Hi2). exists s2. split; [|split; [done|congruence]].
    apply collect_outcome in Hr2. rewrite source_result, Hkept in Hr2. unfold collect at 1. rewrite (g_with_Ok _ _ _ _ _ Hr2).
    assert (mapR (λ ic : option select_item * pystr, _resolve_proj_index (column_n2i meta) ic.1 ic.2)
              (match items with [] => map (λ c, (None, c)) labels | _ => zip (map Some items) labels end) =
            mapR (λ c, of_option UnknownColumnError (dget c (column_n2i meta))) labels) as ->.
    { apply resolve_slots; [done|]. destruct Hitems as [Hall'|]; [|done]. exfalso.
      assert (forallb (λ k, bool_decide (k.1 ∈ labels)) keys = true); [|congruence]. eapply forallb_impl; [|exact Hknown].
      intros k Hk%bool_decide_eq_true. apply bool_decide_eq_true. by apply Hall'. }
    destruct (slots_of_columns meta labels Hc Hin) as (slots & -> & Hslots). unfold g_with at 1, lift at 1. unfold open_sorted, collect.
    replace (forallb (λ k : pystr * bool, dmem k.1 (column_n2i meta)) keys) with true.
    2: { symmetry. unfold column_n2i. rewrite forallb_mem by apply Hc. done. }
    cbn [negb]. destruct (sort_rows (column_n2i meta) keys kept) as [sorted|e] eqn:Hsort; [|done]. unfold g_with, lift. rewrite bind_Ok.
    assert (∀ r, r ∈ sorted → mapR (cell r) slots = Ok (map (column_of meta r) labels)) as Hcells.
    { intros r Hx. apply Hslots, Hfull. by eapply sort_rows_sub. }
    clear Hsort. induction sorted as [|r sorted IHs]; [done|]. cbn [for_list map]. unfold g_app.
    rewrite Hcells by (by left). unfold yield at 1.
    specialize (IHs ltac:(intros; apply Hcells; by right)). revert IHs.
    destruct (for_list sorted _ s2) as [[ys [e|]] s3]; intros [= <- <-]; done.
Qed.

(** LIMIT and OFFSET *)
Lemma py_slice_nat {A} (l : list A) o k : 0 <= o → 0 <= k → py_slice l o (o + k) = take (Z.to_nat k) (drop (Z.to_nat o) l).
Proof.
  intros Ho Hk. unfold py_slice. destruct (Z.ltb_spec o 0); [lia|]. destruct (Z.ltb_spec (o + k) 0); [lia|].
  rewrite take_drop_commute. f_equal. f_equal. lia.
Qed.
Lemma py_lt_ints a b : py_lt (PyInt a) (PyInt b) = Ok (a <? b).
Proof. unfold py_lt. cbn. rewrite !Z.mul_1_r. unfold Z.ltb. by destruct (a ?= b). Qed.
Lemma limit_plan_run q l o s r s' : collect (open q) s = (r, s') →
  collect (open (LimitPlan q (PyInt l) (PyInt o))) s =
    (ensure (bool_decide (0 <= l) && bool_decide (0 <= o)) ValueError;; rows ← r; Ok (take (Z.to_nat l) (drop (Z.to_nat o) rows)),
     if bool_decide (0 <= l) && bool_decide (0 <= o) then s' else s).
Proof.
  intros Hq. cbn [open]. unfold open_limit, collect at 1. rewrite !py_lt_ints. unfold lift at 1 2, g_with at 1.
  destruct (Z.ltb_spec l 0) as [Hl|Hl]; [by rewrite bool_decide_false by lia|]. rewrite bool_decide_true by done. unfold g_with at 1.
  destruct (Z.ltb_spec o 0) as [Ho|Ho]; [by rewrite bool_decide_false by lia|]. rewrite bool_decide_true by done.
  destruct r as [rows|e]; [|by rewrite (g_with_Err _ _ _ _ _ Hq)]. rewrite (g_with_Ok _ _ _ _ _ Hq).
  unfold g_with, lift, yield_from. cbn [py_arith is_lib_operand orb as_int int_arith as_index of_option].
  rewrite py_slice_nat by done. done.
Qed.
Lemma with_limit_run stmt lim off q s r s' : stmt.(sel_limit) = PyInt <$> lim → stmt.(sel_offset) = PyInt <$> off → collect (open q) s = (r, s') →
  ∃ s'', collect (open (with_limit stmt q)) s =
    (ensure (bool_decide (0 <= default 0 lim) && bool_decide (0 <= default 0 off)) ValueError;; rows ← r; Ok (limited lim off rows), s'') ∧
    (s'' = s ∨ s'' = s').
Proof.
  intros Hl Ho Hq. unfold with_limit. rewrite Hl, Ho.
  destruct lim as [l|], off as [o|]; cbn [fmap option_fmap option_map default from_option limited id negb].
  - pose proof (limit_plan_run q l o s r s' Hq) as Hr. unfold py_truth. destruct (Z.eqb_spec o 0) as [->|]; cbn [negb]; rewrite Hr; eexists; (split; [done|]); destruct (_ && _); auto.
  - pose proof (limit_plan_run q l 0 s r s' Hq) as Hr. rewrite Hr. eexists; (split; [done|]); destruct (_ && _); auto.
  - pose proof (limit_plan_run q 0 o s r s' Hq) as Hr. unfold py_truth. destruct (Z.eqb_spec o 0) as [->|Hne]; cbn [negb].
    + exists s'. rewrite Hq. split; [|by right]. f_equal. by destruct r.
    + rewrite Hr. eexists; split; [by destruct o|]. destruct (_ && _); auto.
  - exists s'. rewrite Hq. split; [|by right]. by destruct r.
Qed.

(** No index of the table serves the condition *)
Definition no_index_plan (stmt : SelectStmt) (meta : TableMeta) s : Prop :=
  ∀ w, stmt.(sel_where) = Some w → _try_index_plan w meta (xo_indexes s) = Ok None.
Definition select_expected (v : view) (stmt : SelectStmt) (name : pystr) (lim off : option Z) : result (list row) :=
  match v name with
  | None => Err UnknownTableError
  | Some (meta, es) => reference meta (rows_of es) stmt lim off
  end.

Lemma require_table_run n s v t : shows n s v → _require_table t s = (of_option UnknownTableError (fst <$> v t), s).
Proof.
  intros Hs. unfold _require_table, catch. rewrite (rl_get _ _ _ t Hs). by destruct (v t) as [[meta es]|].
Qed.
Lemma plain_not_aggregated stmt : forallb plain_item stmt.(sel_columns) = true → stmt.(sel_group_by) = [] → is_aggregated stmt = false.
Proof.
  intros Hp Hg. unfold is_aggregated. rewrite Hg. assert (agg_pairs stmt.(sel_columns) = []) as ->; [|done].
  unfold agg_pairs. revert Hp. induction stmt.(sel_columns) as [|i items IH]; [done|]. cbn [forallb omap list_omap].
  intros [Hi Hp]%andb_prop. by destruct i; [rewrite IH|done|rewrite IH].
Qed.

Lemma select_run stmt name alias lim off n s v : shows (S (S n)) s v →
  (∀ meta es, v name = Some (meta, es) → clean_columns meta ∧ no_index_plan stmt meta s) →
  stmt.(sel_from) = Table name alias → forallb plain_item stmt.(sel_columns) = true → stmt.(sel_group_by) = [] →
  stmt.(sel_limit) = PyInt <$> lim → stmt.(sel_offset) = PyInt <$> off →
  ∃ s', (p ← _plan_select stmt; execute p) s = (select_expected v stmt name lim off, s') ∧ shows n s' v ∧ xo_indexes s' = xo_indexes s.
Proof.
  intros Hs Hmeta Hfrom Hplain Hgroup Hlim Hoff. unfold _plan_select. rewrite Hfrom. unfold plan_table_select, select_expected.
  rewrite run_assoc. pose proof (require_table_run _ _ _ name Hs) as Hreq. destruct (v name) as [[meta es]|] eqn:Hv.
  2: { exists s. rewrite (run_Err _ _ _ _ _ Hreq). split; [done|]. split; [by do 2 apply rl_less|done]. }
  destruct (Hmeta meta es eq_refl) as [Hc Hno]. pose proof (rl_name _ _ _ _ _ _ Hs Hv) as Hname. subst name.
  cbn [fmap option_fmap option_map of_option fst] in Hreq. rewrite (run_Ok _ _ _ _ _ Hreq). unfold reference. rewrite run_assoc.
  assert (shows n s v) as Hs0 by by do 2 apply rl_less.
  destruct (validate_where stmt.(sel_where) meta) as [[]|e]; [rewrite run_lift_Ok, bind_Ok|by exists s]. mrun.
  assert (plan_source stmt.(sel_where) meta (xo_indexes s) = Ok (scan_plan stmt.(sel_where) meta)) as ->.
  { unfold plan_source. destruct stmt.(sel_where) as [w|] eqn:Hw; [|done]. by rewrite (Hno w Hw). }
  mrun. rewrite plain_not_aggregated by done. mrun.
  destruct (_project_columns stmt meta) as [labels|e] eqn:Hlabels; [mrun; rewrite bind_Ok|by exists s].
  unfold assert. destruct (ensure (forallb _ (sort_keys stmt)) UnknownColumnError) as [[]|e] eqn:Hkeys; [mrun; rewrite bind_Ok|by exists s].
  apply ensure_Ok_inv in Hkeys. unfold group_columns_known. rewrite Hgroup. cbn [forallb ensure]. mrun.
  destruct (project_columns_spec stmt meta labels (proj1 Hc) Hplain Hlabels) as (Hnd & Hin & Hitems).
  unfold execute.
  assert (∃ s1, collect (open (with_sort stmt (Project (scan_plan stmt.(sel_where) meta) labels stmt.(sel_columns)))) s =
    ((kept ← filterR (λ r, selected stmt.(sel_where) r (column_n2i meta)) (rows_of es);
      sorted ← (match stmt.(sel_order_by) with [] => Ok kept | _ => sort_rows (column_n2i meta) (sort_keys stmt) kept end);
      Ok (map (λ r, map (column_of meta r) labels) sorted)), s1) ∧ shows n s1 v ∧ xo_indexes s1 = xo_indexes s) as (s1 & Hrun & Hs1 & Hi1).
  { unfold with_sort, sort_keys in *. destruct stmt.(sel_order_by) as [|ob obs].
    - destruct (open_project_source_run (S n) s v meta es stmt.(sel_where) labels stmt.(sel_columns) Hs Hv Hc Hin) as (s1 & Hr & Hs1 & Hi1).
      exists s1. split; [|split; [by apply rl_less|done]]. apply collect_outcome in Hr. rewrite Hr. cbv zeta. rewrite result_of_map_collect, source_result.
      by destruct (filterR _ _).
    - apply (sort_project_run n s v meta es _ labels _ _ Hs Hv Hc Hnd Hin Hitems); [done|exact Hkeys]. }
  destruct (with_limit_run stmt lim off _ s _ s1 Hlim Hoff Hrun) as (s2 & -> & Hs2).
  exists s2. split; [|by destruct Hs2 as [->| ->]]. f_equal. destruct (ensure _ ValueError) as [[]|]; [rewrite !bind_Ok|done].
  destruct (filterR _ (rows_of es)) as [kept|]; [rewrite !bind_Ok|done]. by destruct (match stmt.(sel_order_by) with [] => Ok kept | _ => _ end).
Qed.
(** C15: planning and executing a SELECT of columns from one table, without an
    index, is the direct definition, errors included: the rows that pass WHERE,
    sorted by the keys of ORDER BY, projected to the columns, and cut by LIMIT
    and OFFSET.  In particular it does not matter whether the plan sorts before
    or after the projection. *)
Theorem select_reference stmt name alias lim off n s v : shows (S (S n)) s v →
  (∀ meta es, v name = Some (meta, es) → clean_columns meta ∧ no_index_plan stmt meta s) →
  stmt.(sel_from) = Table name alias → forallb plain_item stmt.(sel_columns) = true → stmt.(sel_group_by) = [] →
  stmt.(sel_limit) = PyInt <$> lim → stmt.(sel_offset) = PyInt <$> off →
  ∃ s', (p ← _plan_select stmt; execute p) s = (select_expected v stmt name lim off, s') ∧ shows n s' v.
Proof.
  intros Hs Hmeta Hfrom Hplain Hgroup Hlim Hoff.
  destruct (select_run stmt name alias lim off n s v Hs Hmeta Hfrom Hplain Hgroup Hlim Hoff) as (s' & Hx & Hs' & _). by exists s'.
Qed.
End Select.
