(* ===== verification/JoinSpec.v ===== *)
(** Joins: the rows of the nested loop, the layout of the joined rows, and the
    nested loop against the one over an index. *)
From S2P Require Import Prelude.
From S2P Require Import Bytes.
From S2P Require Import Utf8.
From S2P Require Import TypeSys.
From S2P Require Import Codec.
From S2P Require Import PyConv.
From S2P Require Import PyOrder.
From S2P Require Import PyDict.
From S2P Require Import Ast.
From S2P Require Import Heap.
From S2P Require Import Catalog.
From S2P Require Import EvalExpr.
From S2P Require Import Gen.
From S2P Require Import Plan.
From S2P Require Import Dml.
From S2P Require Import Planner.
From S2P Require Import ReadSpec.
From S2P Require Import SelectSpec.
From Stdlib Require Import ZArith Lia.
Local Open Scope Z_scope.

(** * The layout *)

(** The tables of a join, each under its alias *)
Abbreviation leaf := (pystr * TableMeta)%type.
Definition width (m : TableMeta) : nat := length m.(tm_columns).
Definition total_width (L : list leaf) : nat := foldr (λ l n, (width l.2 + n)%nat) O L.
Definition column_index (m : TableMeta) (c : pystr) : option nat := fst <$> list_find (eq c) (meta_column_names m).
(** A bare name is the column of the first table that has it *)
Fixpoint bare_slot (L : list leaf) (c : pystr) : option nat :=
  match L with
  | [] => None
  | l :: L => match column_index l.2 c with Some i => Some i | None => (λ i, (width l.2 + i)%nat) <$> bare_slot L c end
  end.
(** The column that [alias.column] names *)
Fixpoint alias_slot (L : list leaf) (a c : pystr) : option nat :=
  match L with
  | [] => None
  | l :: L => if decide (l.1 = a) then column_index l.2 c else (λ i, (width l.2 + i)%nat) <$> alias_slot L a c
  end.
(** A map of names that puts the columns of the tables [L] side by side *)
Record layout (d : n2i) (L : list leaf) : Prop := {
  ly_nodup : NoDup (map fst d);
  ly_bare c : 46 ∉ c → dget c d = bare_slot L c;
  ly_alias a c : 46 ∉ a → 46 ∉ c → dget (qualified a c) d = alias_slot L a c;
  ly_keys k : k ∈ map fst d → 46 ∈ k → ∃ a c, k = qualified a c ∧ 46 ∉ a ∧ 46 ∉ c ∧ a ∈ map fst L;
}.
Record leaves_ok (L : list leaf) : Prop := {
  lv_some : L ≠ [];
  lv_aliases : NoDup (map fst L);
  lv_plain : Forall (λ l, 46 ∉ l.1) L;
  lv_clean : Forall (λ l, clean_columns l.2 ∧ l.2.(tm_columns) ≠ []) L;
}.

Lemma column_index_spec m c i : clean_columns m → column_index m c = Some i ↔ meta_column_names m !! i = Some c.
Proof. intros [Hnd _]. unfold column_index. rewrite <-label_n2i_get by done. by apply label_n2i_lookup. Qed.
Lemma column_index_lt m c i : column_index m c = Some i → (i < width m)%nat.
Proof.
  unfold column_index. destruct (list_find _ _) as [[j x]|] eqn:E; [|done]. intros [= <-].
  apply list_find_Some in E as (Hj & _). apply lookup_lt_Some in Hj. unfold meta_column_names in Hj. by rewrite length_map in Hj.
Qed.
Lemma qualified_dot a c : 46 ∈ qualified a c.
Proof. unfold qualified. apply elem_of_app. right. by left. Qed.
Lemma qualified_inj a a' c c' : 46 ∉ a → 46 ∉ a' → qualified a c = qualified a' c' → a = a' ∧ c = c'.
Proof.
  unfold qualified. revert a'. induction a as [|x a IH]; intros [|y a'] Ha Ha'; cbn [app].
  - by intros [= ->].
  - intros [= <- _]. exfalso. apply Ha'. by left.
  - intros [= -> _]. exfalso. apply Ha. by left.
  - rewrite not_elem_of_cons in Ha, Ha'. intros [= -> Heq]. destruct (IH a' (proj2 Ha) (proj2 Ha') Heq) as [-> ->]. done.
Qed.
Lemma bare_slot_app L L' c : bare_slot (L ++ L') c =
  match bare_slot L c with Some i => Some i | None => (λ i, (total_width L + i)%nat) <$> bare_slot L' c end.
Proof.
  induction L as [|l L IH]; cbn [app bare_slot total_width foldr]; [by destruct (bare_slot L' c)|].
  destruct (column_index l.2 c); [done|]. rewrite IH. destruct (bare_slot L c); [done|]. cbn. destruct (bare_slot L' c); [|done]. cbn. f_equal. fold (total_width L). lia.
Qed.
Lemma alias_slot_none L a c : a ∉ map fst L → alias_slot L a c = None.
Proof.
  induction L as [|l L IH]; cbn [map alias_slot]; [done|]. rewrite not_elem_of_cons. intros [Ha HL]. rewrite decide_False by done.
  by rewrite IH.
Qed.
Lemma alias_slot_app L L' a c : NoDup (map fst (L ++ L')) → alias_slot (L ++ L') a c =
  if decide (a ∈ map fst L) then alias_slot L a c else (λ i, (total_width L + i)%nat) <$> alias_slot L' a c.
Proof.
  induction L as [|l L IH]; cbn [app map alias_slot total_width foldr]; [intros _; by destruct (alias_slot L' a c)|].
  rewrite NoDup_cons. intros [Hn Hnd]. destruct (decide (l.1 = a)) as [<-|Hl].
  - by rewrite decide_True by (by left).
  - rewrite IH by done. destruct (decide (a ∈ map fst L)) as [Hin|Hin].
    + by rewrite decide_True by (by right).
    + rewrite decide_False by (rewrite not_elem_of_cons; naive_solver). destruct (alias_slot L' a c); [|done]. cbn. f_equal. fold (total_width L). lia.
Qed.
Lemma alias_slot_lt L a c i : alias_slot L a c = Some i → (i < total_width L)%nat.
Proof.
  revert i. induction L as [|l L IH]; intros i; cbn [alias_slot total_width foldr]; [done|]. case_decide.
  - intros Hi%column_index_lt. fold (total_width L). lia.
  - destruct (alias_slot L a c) as [j|]; [|done]. cbn. intros [= <-]. specialize (IH j eq_refl). fold (total_width L). lia.
Qed.
Lemma bare_slot_lt L c i : bare_slot L c = Some i → (i < total_width L)%nat.
Proof.
  revert i. induction L as [|l L IH]; intros i; cbn [bare_slot total_width foldr]; [done|]. fold (total_width L).
  destruct (column_index l.2 c) as [j|] eqn:E; [intros [= <-]; apply column_index_lt in E; lia|].
  destruct (bare_slot L c) as [j|]; [|done]. cbn. intros [= <-]. specialize (IH j eq_refl). lia.
Qed.

(** * Building the layout *)

Lemma dget_fold_alias a cols d k : 46 ∉ a → NoDup (map fst cols) →
  dget k (foldl (λ d (ci : pystr * nat), dset (qualified a ci.1) ci.2 d) d cols) =
  match list_find (λ ci : pystr * nat, k = qualified a ci.1) cols with Some (_, ci) => Some ci.2 | None => dget k d end.
Proof.
  intros Ha. revert d. induction cols as [|[c i] cols IH]; intros d Hnd; [done|]. cbn [foldl list_find fst snd].
  apply NoDup_cons in Hnd as [Hn Hnd]. rewrite IH by done. destruct (decide (k = qualified a c)) as [->|Hk].
  - rewrite dget_dset, decide_True by done. destruct (list_find _ cols) as [[j [c' i']]|] eqn:E; [|done].
    apply list_find_Some in E as (Hj & Hq & _). apply (qualified_inj a a) in Hq as [_ ->]; [|done..]. exfalso. apply Hn.
    apply list_elem_of_In, in_map_iff. exists (c', i'). split; [done|]. apply list_elem_of_In. by eapply list_elem_of_lookup_2.
  - rewrite dget_dset, decide_False by done. by destruct (list_find _ cols) as [[j [c' i']]|].
Qed.
Lemma numbered_fst (names : list pystr) k : map fst (zip names (seq k (length names))) = names.
Proof. apply fst_zip. by rewrite length_seq. Qed.
Lemma numbered_find (f : pystr → Prop) `{∀ x, Decision (f x)} names k :
  (λ p, p.2.2) <$> list_find (λ ci : pystr * nat, f ci.1) (zip names (seq k (length names))) = (λ p, (k + p.1)%nat) <$> list_find f names.
Proof.
  revert k. induction names as [|c names IH]; intros k; [done|]. cbn [length seq zip zip_with list_find fst]. fold (zip names (seq (S k) (length names))).
  case_decide; [cbn; f_equal; lia|]. specialize (IH (S k)).
  destruct (list_find (λ ci : pystr * nat, f ci.1) (zip names (seq (S k) (length names)))) as [[? []]|], (list_find f names) as [[]|]; cbn in *; try done.
  injection IH as ->. f_equal. lia.
Qed.
Lemma foldl_keys {A} (f : n2i → A → n2i) (key : A → pystr) l d k :
  (∀ d x, ∀ k, k ∈ map fst (f d x) → k = key x ∨ k ∈ map fst d) → k ∈ map fst (foldl f d l) → (∃ x, x ∈ l ∧ k = key x) ∨ k ∈ map fst d.
Proof.
  intros Hf. revert d. induction l as [|x l IH]; intros d; [by right|]. cbn [foldl]. intros [(y & Hy & ->)|Hk]%IH.
  - left. exists y. split; [by right|done].
  - apply Hf in Hk as [->|Hk]; [left; exists x; split; [by left|done]|by right].
Qed.
Lemma foldl_nodup {A} (f : n2i → A → n2i) l d : (∀ d x, NoDup (map fst d) → NoDup (map fst (f d x))) → NoDup (map fst d) → NoDup (map fst (foldl f d l)).
Proof. intros Hf. revert d. induction l as [|x l IH]; intros d Hd; [done|]. cbn [foldl]. apply IH. by apply Hf. Qed.

Lemma leaf_layout a m : 46 ∉ a → clean_columns m → layout (leaf_n2i m (Some a)) [(a, m)].
Proof.
  intros Ha Hc. pose proof Hc as [Hnd Hdot]. rewrite Forall_forall in Hdot. unfold leaf_n2i.
  replace (zip (map col_name m.(tm_columns)) (seq 0 (length m.(tm_columns))))
    with (zip (meta_column_names m) (seq 0 (length (meta_column_names m)))) by (unfold meta_column_names; by rewrite length_map).
  assert (NoDup (map fst (zip (meta_column_names m) (seq 0 (length (meta_column_names m)))))) as Hz by by rewrite numbered_fst.
  split.
  - apply foldl_nodup; [intros; by apply dset_nodup|]. apply dict_of_nodup.
  - intros c Hcd. rewrite dget_fold_alias by done. cbn [bare_slot snd].
    destruct (list_find _ _) as [[j [c' i']]|] eqn:E.
    + apply list_find_Some in E as (_ & -> & _). exfalso. apply Hcd, qualified_dot.
    + unfold column_index, column_n2i. rewrite label_n2i_get by apply Hc. fold (meta_column_names m).
      by destruct (list_find (eq c) (meta_column_names m)) as [[]|].
  - intros a' c Ha' Hcd. rewrite dget_fold_alias by done. cbn [alias_slot fst snd]. destruct (decide (a = a')) as [<-|Hne].
    + pose proof (numbered_find (eq c) (meta_column_names m) 0) as Hf.
      rewrite (list_find_ext (λ ci : pystr * nat, qualified a c = qualified a ci.1) (λ ci : pystr * nat, c = ci.1)).
      2: { intros [c' i']. cbn. split; [by intros [_ ?]%qualified_inj|by intros ->]. }
      unfold column_index. destruct (list_find (λ ci : pystr * nat, c = ci.1) _) as [[j [c' i']]|] eqn:E; cbn in Hf.
      * destruct (list_find (eq c) (meta_column_names m)) as [[]|]; [|done]. cbn in *. done.
      * destruct (list_find (eq c) (meta_column_names m)) as [[]|]; [done|]. cbn.
        destruct (dget (qualified a c) (column_n2i m)) as [i|] eqn:Ei; [|done]. apply label_n2i_lookup in Ei; [|apply Hc].
        exfalso. apply (Hdot (qualified a c)); [by eapply list_elem_of_lookup_2|apply qualified_dot].
    + destruct (list_find _ _) as [[j [c' i']]|] eqn:E.
      * apply list_find_Some in E as (_ & [-> _]%qualified_inj & _); done.
      * cbn. destruct (dget (qualified a' c) (column_n2i m)) as [i|] eqn:Ei; [|done]. apply label_n2i_lookup in Ei; [|apply Hc].
        exfalso. apply (Hdot (qualified a' c)); [by eapply list_elem_of_lookup_2|apply qualified_dot].
  - intros k Hk Hkd. apply (foldl_keys _ (λ ci : pystr * nat, qualified a ci.1)) in Hk as [(ci & Hci & ->)|Hk].
    + exists a, ci.1. split_and!; [done|done| |by left]. apply Hdot. rewrite <-(numbered_fst (meta_column_names m) 0).
      apply list_elem_of_In, in_map. by apply list_elem_of_In.
    + exfalso. unfold column_n2i, label_n2i in Hk. rewrite dict_of_id in Hk; fold (meta_column_names m) in *; [|by rewrite numbered_fst].
      rewrite numbered_fst in Hk. by apply (Hdot k).
    + intros d ci k'. by rewrite dset_keys.
Qed.

Definition join_step (offset : nat) (d : n2i) (ci : pystr * nat) : n2i :=
  let shifted := (ci.2 + offset)%nat in if bool_decide (46 ∈ ci.1) then dset ci.1 shifted d else dset_new ci.1 shifted d.
Lemma join_step_get offset d ci k : dget k (join_step offset d ci) =
  if decide (k = ci.1) then (if bool_decide (46 ∈ k) then Some (ci.2 + offset)%nat else match dget k d with Some i => Some i | None => Some (ci.2 + offset)%nat end)
  else dget k d.
Proof.
  unfold join_step, dset_new, dmem. destruct (decide (k = ci.1)) as [->|Hk].
  - case_bool_decide; [by rewrite dget_dset, decide_True|]. case_bool_decide as Hs; [by destruct Hs as [x ->]|].
    rewrite dget_dset, decide_True by done. destruct (dget ci.1 d); [|done]. exfalso. apply Hs. by eexists.
  - repeat case_bool_decide; rewrite ?dget_dset, ?decide_False; done.
Qed.
Lemma join_get offset dl dr k : NoDup (map fst dr) → dget k (foldl (join_step offset) dl dr) =
  if bool_decide (46 ∈ k) then match dget k dr with Some i => Some (i + offset)%nat | None => dget k dl end
  else match dget k dl with Some i => Some i | None => (λ i, (i + offset)%nat) <$> dget k dr end.
Proof.
  revert dl. induction dr as [|[c i] dr IH]; intros dl Hnd; cbn [foldl dget].
  { case_bool_decide; [done|]. by destruct (dget k dl). }
  apply NoDup_cons in Hnd as [Hn Hnd]. rewrite IH, join_step_get by done. cbn [fst snd]. destruct (decide (k = c)) as [->|Hk].
  - assert (dget c dr = None) as -> by by apply dget_None. case_bool_decide; [done|]. cbn. by destruct (dget c dl).
  - done.
Qed.
Lemma last_slot L : leaves_ok L → ∃ a c, a ∈ map fst L ∧ 46 ∉ a ∧ 46 ∉ c ∧ alias_slot L a c = Some (total_width L - 1)%nat.
Proof.
  intros [Hne Ha Hp Hc]. induction L as [|[a m] L IH]; [done|]. apply Forall_cons in Hp as [Hpa Hp]. apply Forall_cons in Hc as [[Hcm Hcols] Hc].
  cbn [map fst] in Ha. apply NoDup_cons in Ha as [Hna Ha]. cbn [fst snd] in *. destruct L as [|l L].
  - assert (is_Some (meta_column_names m !! (width m - 1)%nat)) as [c Hl].
    { apply lookup_lt_is_Some. unfold meta_column_names, width. rewrite length_map. destruct m.(tm_columns); [done|cbn; lia]. }
    exists a, c. split_and!; [by left|done| |].
    + destruct Hcm as [_ Hd]. rewrite Forall_forall in Hd. apply Hd. by eapply list_elem_of_lookup_2.
    + cbn [alias_slot fst snd total_width foldr]. rewrite decide_True by done. apply column_index_spec; [done|]. rewrite <-Hl. f_equal. unfold width. cbn. lia.
  - destruct IH as (a' & c & Hin & Hpa' & Hcd & Hs); [done..|]. exists a', c. split_and!; [by right|done|done|].
    assert (alias_slot ((a, m) :: l :: L) a' c = if decide (a = a') then column_index m c else (λ i, (width m + i)%nat) <$> alias_slot (l :: L) a' c) as -> by done.
    rewrite decide_False by (intros ->; done). rewrite Hs. cbn [fmap option_fmap option_map].
    f_equal. pose proof (alias_slot_lt _ _ _ _ Hs). change (total_width ((a, m) :: l :: L)) with (width m + total_width (l :: L))%nat. lia.
Qed.
Lemma layout_value d L k i : layout d L → dget k d = Some i → (i < total_width L)%nat.
Proof.
  intros Hd Hk. destruct (decide (46 ∈ k)) as [Hdot|Hdot].
  - destruct (ly_keys _ _ Hd k) as (a & c & -> & Ha & Hc & _); [apply dget_is_Some; by eexists|done|].
    rewrite (ly_alias _ _ Hd) in Hk by done. by eapply alias_slot_lt.
  - rewrite (ly_bare _ _ Hd) in Hk by done. by eapply bare_slot_lt.
Qed.
Lemma foldr_max_spec (l : list nat) x : x ∈ l → (∀ y, y ∈ l → (y <= x)%nat) → foldr Nat.max O l = x.
Proof.
  intros Hin Hle. assert (foldr Nat.max O l <= x)%nat.
  { clear Hin. induction l as [|y l IH]; cbn; [lia|]. pose proof (Hle y ltac:(by left)). specialize (IH ltac:(intros; apply Hle; by right)). lia. }
  assert (x <= foldr Nat.max O l)%nat; [|lia]. clear Hle. induction l as [|y l IH]; [by apply elem_of_nil in Hin|].
  apply elem_of_cons in Hin as [->|Hin]; cbn; [lia|]. specialize (IH Hin ltac:(cbn in *; lia)). lia.
Qed.
Lemma layout_size d L : layout d L → leaves_ok L → (match d with [] => O | _ => S (max_index d) end) = total_width L.
Proof.
  intros Hd HL. destruct (last_slot L HL) as (a & c & _ & Ha & Hc & Hs). rewrite <-(ly_alias _ _ Hd a c Ha Hc) in Hs.
  pose proof (layout_value _ _ _ _ Hd Hs) as Hlt.
  assert (max_index d = (total_width L - 1)%nat) as Hm.
  { unfold max_index. apply foldr_max_spec.
    - apply dget_in in Hs. apply list_elem_of_In, in_map_iff. exists (qualified a c, (total_width L - 1)%nat). split; [done|by apply list_elem_of_In].
    - intros y Hy. apply list_elem_of_In, in_map_iff in Hy as ([k i] & <- & Hin%list_elem_of_In).
      apply dget_elem in Hin; [|apply Hd]. apply (layout_value _ _ _ _ Hd) in Hin. cbn. lia. }
  destruct d as [|x d']; [done|]. rewrite Hm. lia.
Qed.
Lemma leaves_app L L' : leaves_ok (L ++ L') → L ≠ [] → L' ≠ [] → leaves_ok L ∧ leaves_ok L'.
Proof.
  intros [_ Ha Hp Hc] HL HL'. rewrite map_app in Ha. apply NoDup_app in Ha as (Ha & _ & Ha'). apply Forall_app in Hp as [Hp Hp']. apply Forall_app in Hc as [Hc Hc'].
  split; by split.
Qed.
Lemma join_layout dl dr L L' : layout dl L → layout dr L' → leaves_ok L → leaves_ok L' → leaves_ok (L ++ L') →
  layout (join_n2i dl dr) (L ++ L').
Proof.
  intros Hl Hr HL HL' [_ Hnd _ _]. unfold join_n2i. rewrite (layout_size dl L Hl HL). fold (join_step (total_width L)).
  change (λ (d : n2i) (ci : pystr * nat), _) with (join_step (total_width L)).
  split.
  - apply foldl_nodup; [|apply Hl]. intros d ci Hd. unfold join_step, dset_new. repeat case_match; try done; by apply dset_nodup.
  - intros c Hc. rewrite join_get by apply Hr. rewrite bool_decide_false by done. rewrite bare_slot_app, (ly_bare _ _ Hl), (ly_bare _ _ Hr) by done.
    destruct (bare_slot L c); [done|]. destruct (bare_slot L' c); [|done]. cbn. f_equal. lia.
  - intros a c Ha Hc. rewrite join_get by apply Hr. rewrite bool_decide_true by apply qualified_dot.
    rewrite alias_slot_app by done. rewrite (ly_alias _ _ Hl), (ly_alias _ _ Hr) by done. rewrite map_app in Hnd. apply NoDup_app in Hnd as (_ & Hdis & _).
    destruct (decide (a ∈ map fst L)) as [Hin|Hin].
    + by rewrite (alias_slot_none L' a c) by auto.
    + rewrite (alias_slot_none L a c Hin). destruct (alias_slot L' a c); [|done]. cbn. f_equal. lia.
  - intros k Hk Hdot. rewrite map_app. apply (foldl_keys _ fst) in Hk as [(ci & Hci & ->)|Hk].
    + destruct (ly_keys _ _ Hr ci.1) as (a & c & ? & ? & ? & ?); [|done|exists a, c; split_and!; try done; set_solver].
      apply list_elem_of_In, in_map. by apply list_elem_of_In.
    + destruct (ly_keys _ _ Hl k Hk Hdot) as (a & c & ? & ? & ? & ?). exists a, c. split_and!; try done. set_solver.
    + intros d ci k'. unfold join_step, dset_new. repeat case_match; rewrite ?dset_keys; auto.
Qed.

(** * What names mean on a joined row *)

Lemma concat_lookup (L : list leaf) (rs : list row) a c : leaves_ok L → Forall2 (λ l r, full_row l.2 r) L rs → 
  ∀ k m r, L !! k = Some (a, m) → rs !! k = Some r → c ∈ meta_column_names m →
  ∃ j, alias_slot L a c = Some j ∧ concat rs !! j = Some (column_of m r c).
Proof.
  intros HL. induction 1 as [|[a' m'] r' L rs Hr Hrs IH]; intros k m r; [done|].
  destruct HL as [_ Hnd Hp Hc]. cbn [map fst] in Hnd. apply NoDup_cons in Hnd as [Hn Hnd]. apply Forall_cons in Hp as [_ Hp].
  apply Forall_cons in Hc as [[Hcm _] Hc]. cbn [snd] in *. destruct k as [|k]; cbn [lookup list_lookup concat].
  - intros [= <- <-] [= <-] Hin. destruct (column_cell m' r' c Hcm Hr Hin) as (i & Hi & Hcell). exists i. split.
    + cbn [alias_slot fst snd]. rewrite decide_True by done. apply column_index_spec; [done|]. by apply label_n2i_lookup; [apply Hcm|].
    + unfold cell in Hcell. destruct (r' !! i) as [x|] eqn:E; [|done]. injection Hcell as ->. by apply lookup_app_l_Some.
  - intros Hk Hrk Hin. assert (leaves_ok L) as HL by (split; try done; by intros ->).
    destruct (IH HL k m r Hk Hrk Hin) as (j & Hj & Hx). exists (width m' + j)%nat. split.
    + cbn [alias_slot fst snd]. rewrite decide_False; [by rewrite Hj|]. intros <-. apply Hn. apply list_elem_of_In, in_map_iff.
      exists (a', m). split; [done|]. apply list_elem_of_In. by eapply list_elem_of_lookup_2.
    + rewrite lookup_app_r by (rewrite Hr; unfold width; lia). rewrite Hr. replace (width m' + j - length m'.(tm_columns))%nat with j by (unfold width; lia). done.
Qed.
Lemma clean_leaf (L : list leaf) k a m c : leaves_ok L → L !! k = Some (a, m) → c ∈ meta_column_names m → 46 ∉ a ∧ 46 ∉ c.
Proof.
  intros [_ _ Hp Hcl] Hk Hin. apply list_elem_of_lookup_2 in Hk. rewrite Forall_forall in Hp, Hcl.
  split; [by apply (Hp (a, m))|]. destruct (Hcl (a, m) Hk) as [[_ Hdots] _]. rewrite Forall_forall in Hdots. by apply Hdots.
Qed.
Lemma alias_column `{ArithLib} d L rs a c k m r : layout d L → leaves_ok L → Forall2 (λ l r, full_row l.2 r) L rs →
  L !! k = Some (a, m) → rs !! k = Some r → c ∈ meta_column_names m → eval_column c (Some a) (concat rs) d = Ok (column_of m r c).
Proof.
  intros Hd HL Hrs Hk Hr Hin. destruct (concat_lookup L rs a c HL Hrs k m r Hk Hr Hin) as (j & Hj & Hx).
  apply (eval_column_slot _ _ _ _ j); [|done]. unfold slot_of. cbn [mbind option_bind].
  destruct (clean_leaf L k a m c HL Hk Hin) as [Ha Hcd].
  rewrite (ly_alias _ _ Hd) by done. by rewrite Hj.
Qed.

Lemma bare_lookup (L : list leaf) (rs : list row) a c : leaves_ok L → Forall2 (λ l r, full_row l.2 r) L rs →
  ∀ k m r, L !! k = Some (a, m) → rs !! k = Some r → c ∈ meta_column_names m →
  (∀ i l, (i < k)%nat → L !! i = Some l → c ∉ meta_column_names l.2) →
  ∃ j, bare_slot L c = Some j ∧ concat rs !! j = Some (column_of m r c).
Proof.
  intros HL. induction 1 as [|[a' m'] r' L rs Hr Hrs IH]; intros k m r; [done|].
  destruct HL as [_ Hnd Hp Hc]. cbn [map fst] in Hnd. apply NoDup_cons in Hnd as [Hn Hnd]. apply Forall_cons in Hp as [_ Hp].
  apply Forall_cons in Hc as [[Hcm _] Hc]. cbn [snd] in *. destruct k as [|k]; cbn [lookup list_lookup concat].
  - intros [= <- <-] [= <-] Hin _. destruct (column_cell m' r' c Hcm Hr Hin) as (i & Hi & Hcell). exists i. split.
    + cbn [bare_slot snd]. assert (column_index m' c = Some i) as ->; [|done]. apply column_index_spec; [done|]. by apply label_n2i_lookup; [apply Hcm|].
    + unfold cell in Hcell. destruct (r' !! i) as [x|] eqn:E; [|done]. injection Hcell as ->. by apply lookup_app_l_Some.
  - intros Hk Hrk Hin Hfirst. assert (leaves_ok L) as HL by (split; try done; by intros ->).
    destruct (IH HL k m r Hk Hrk Hin) as (j & Hj & Hx); [intros i l Hi Hl; apply (Hfirst (S i) l); [lia|done]|].
    exists (width m' + j)%nat. split.
    + cbn [bare_slot snd]. destruct (column_index m' c) as [i|] eqn:E; [|by rewrite Hj]. exfalso.
      apply (Hfirst 0%nat (a', m')); [lia|done|]. apply column_index_spec in E; [|done]. by eapply list_elem_of_lookup_2.
    + rewrite lookup_app_r by (rewrite Hr; unfold width; lia). rewrite Hr. replace (width m' + j - length m'.(tm_columns))%nat with j by (unfold width; lia). done.
Qed.
Lemma bare_column `{ArithLib} d L rs a c k m r : layout d L → leaves_ok L → Forall2 (λ l r, full_row l.2 r) L rs →
  L !! k = Some (a, m) → rs !! k = Some r → c ∈ meta_column_names m →
  (∀ i l, (i < k)%nat → L !! i = Some l → c ∉ meta_column_names l.2) → eval_column c None (concat rs) d = Ok (column_of m r c).
Proof.
  intros Hd HL Hrs Hk Hr Hin Hfirst. destruct (bare_lookup L rs a c HL Hrs k m r Hk Hr Hin Hfirst) as (j & Hj & Hx).
  apply (eval_column_slot _ _ _ _ j); [|done]. unfold slot_of. cbn [mbind option_bind].
  rewrite (ly_bare _ _ Hd) by by apply (clean_leaf L k a m). done.
Qed.

(** * The rows of the nested loop *)

Section Loop.
Context `{ArithLib}.
Definition on_test (on_expr : option expr) (idx : n2i) (left_row right_row : row) : result bool :=
  match on_expr with None => Ok true | Some on => x ← eval_expr on (left_row ++ right_row) idx; Ok (py_truth x) end.
(** The rows of one left row: with each right row that matches, or alone *)
Definition joined_rows (on_expr : option expr) (idx : n2i) (nullable_right : bool) (right_size : nat) (right_rows : list row)
    (left_row : row) : result (list row) :=
  matches ← filterR (on_test on_expr idx left_row) right_rows;
  Ok (match matches with
      | [] => if nullable_right then [left_row ++ _right_row_with_nulls right_size] else []
      | _ => map (app left_row) matches
      end).
Lemma match_right_run on_expr idx l rs m matches : filterR (on_test on_expr idx l) rs = Ok matches →
  match_right on_expr idx l rs m = (map (app l) matches, None, m || negb (bool_decide (matches = []))).
Proof.
  revert m matches. induction rs as [|r rs IH]; intros m matches; cbn [filterR match_right].
  { intros [= <-]. by rewrite orb_false_r. }
  destruct (on_test on_expr idx l r) as [b|] eqn:E; [|done]. rewrite bind_Ok. destruct (filterR _ rs) as [ms|]; [|done]. rewrite bind_Ok. intros [= <-].
  assert (match_right on_expr idx l (r :: rs) m = if b then let '(out, e, m) := match_right on_expr idx l rs true in ((l ++ r) :: out, e, m)
            else match_right on_expr idx l rs m) as Hm.
  { cbn [match_right]. unfold on_test in E. destruct on_expr as [on|]; [|by injection E as <-].
    destruct (eval_expr on (l ++ r) idx); [|done]. rewrite bind_Ok in E. by injection E as <-. }
  cbn [match_right] in Hm. rewrite Hm. destruct b.
  - rewrite (IH true ms eq_refl). cbn [map orb]. rewrite (bool_decide_false (r :: ms = [])) by done. by rewrite orb_true_r.
  - by rewrite (IH m ms eq_refl).
Qed.
Lemma nested_loop_row_run {St} on_expr idx nullable w rs l out (s : St) : joined_rows on_expr idx nullable w rs l = Ok out →
  nested_loop_row on_expr idx nullable w rs l s = (out, None, s).
Proof.
  unfold joined_rows, nested_loop_row. destruct (filterR _ rs) as [ms|] eqn:E; [|done]. rewrite bind_Ok. intros [= <-].
  rewrite (match_right_run _ _ _ _ false ms E). cbn [orb]. destruct ms as [|m ms]; cbn; [by destruct nullable|]. by rewrite app_nil_r.
Qed.
End Loop.

Lemma mapR_inv {A B} (f : A → result B) l out : mapR f l = Ok out → Forall2 (λ x y, f x = Ok y) l out.
Proof.
  revert out. induction l as [|x l IH]; intros out; cbn [mapR]; [intros [= <-]; constructor|].
  destruct (f x) as [y|] eqn:E; [|done]. rewrite bind_Ok. destruct (mapR f l) as [ys|]; [|done]. rewrite bind_Ok. intros [= <-].
  constructor; [done|by apply IH].
Qed.
Lemma for_list_rows {St A B} (f : A → result (list B)) xs yss (body : A → gen St B) s :
  mapR f xs = Ok yss → (∀ x ys, f x = Ok ys → body x s = (ys, None, s)) → for_list xs body s = (concat yss, None, s).
Proof.
  intros Hm%mapR_inv Hb. induction Hm as [|x ys xs yss Hx Hxs IH]; [done|]. cbn [for_list concat].
  by rewrite (g_app_Ok _ _ _ _ _ (Hb x ys Hx)), IH.
Qed.

(** * Joins of tables *)

(** A FROM clause: the first table, and the tables joined to it in turn, each
    under its alias *)
Inductive jtree :=
  | JTable (name alias : pystr)
  | JJoin (lhs : jtree) (name alias : pystr) (on_expr : option expr) (nullable_right : bool).
Definition jalias (j : jtree) : option pystr := match j with JTable _ a => Some a | JJoin _ _ _ _ _ => None end.
Fixpoint jplan (j : jtree) : plan :=
  match j with
  | JTable name _ => SeqScan name
  | JJoin lhs name alias on_expr nullable => NestedLoopJoin (jplan lhs) (SeqScan name) on_expr nullable (jalias lhs) (Some alias)
  end.
Fixpoint jsize (j : jtree) : nat := match j with JTable _ _ => 1 | JJoin lhs _ _ _ _ => S (jsize lhs) end.
(** The tables, their layout, and the joined rows *)
Fixpoint jleaves (v : view) (j : jtree) : option (list leaf) :=
  match j with
  | JTable name a => (λ t : table, [(a, t.1)]) <$> v name
  | JJoin lhs name a _ _ => L ← jleaves v lhs; t ← v name; Some (L ++ [(a, t.1)])
  end.
Fixpoint jlayout (v : view) (j : jtree) : option n2i :=
  match j with
  | JTable name a => (λ t : table, leaf_n2i t.1 (Some a)) <$> v name
  | JJoin lhs name a _ _ => d ← jlayout v lhs; t ← v name; Some (join_n2i d (leaf_n2i t.1 (Some a)))
  end.
Section Rows.
Context `{ArithLib}.
Fixpoint jrows (v : view) (j : jtree) : result (list row) :=
  match j with
  | JTable name _ => t ← of_option KeyError (v name); Ok (rows_of t.2)
  | JJoin lhs name a on_expr nullable =>
      ls ← jrows v lhs;
      t ← of_option KeyError (v name);
      d ← of_option KeyError (jlayout v j);
      yss ← mapR (joined_rows on_expr d nullable (width t.1) (rows_of t.2)) ls;
      Ok (concat yss)
  end.
End Rows.
Lemma jleaves_some v j L : jleaves v j = Some L → L ≠ [].
Proof.
  destruct j; cbn [jleaves]; [by destruct (v name) as [[m es]|]; [intros [= <-]|]|]. destruct (jleaves v j); [|done]. cbn [mbind option_bind].
  destruct (v name); [|done]. cbn. by intros [= <-] []%app_eq_nil.
Qed.
Lemma jlayout_spec v j L : jleaves v j = Some L → leaves_ok L → ∃ d, jlayout v j = Some d ∧ layout d L.
Proof.
  revert L. induction j as [name a|lhs IH name a on nu]; intros L; cbn [jleaves jlayout].
  - destruct (v name) as [[m es]|]; [|done]. cbn. intros [= <-] [_ _ Hp Hc]. exists (leaf_n2i m (Some a)). split; [done|].
    apply Forall_cons in Hp as [Ha _]. apply Forall_cons in Hc as [[Hc _] _]. by apply leaf_layout.
  - destruct (jleaves v lhs) as [L0|] eqn:E; [|done]. cbn [mbind option_bind]. destruct (v name) as [[m es]|]; [|done]. cbn. intros [= <-] HL.
    pose proof (leaves_app _ _ HL (jleaves_some _ _ _ E) ltac:(done)) as [HL0 Hm]. destruct (IH L0 eq_refl HL0) as (d & -> & Hd). cbn.
    eexists. split; [done|]. apply join_layout; try done. destruct Hm as [_ _ Hp Hc]. apply Forall_cons in Hp as [Ha _].
    apply Forall_cons in Hc as [[Hc _] _]. by apply leaf_layout.
Qed.

Lemma column_n2i_size m : NoDup (meta_column_names m) → length (column_n2i m) = width m.
Proof.
  intros Hnd. unfold column_n2i, label_n2i. fold (meta_column_names m). rewrite dict_of_id by by rewrite numbered_fst.
  rewrite length_zip, length_seq. unfold meta_column_names, width. rewrite length_map. lia.
Qed.

Section Joins.
Context {St : Type} `{ReadLaws St shows} `{ArithLib}.
Implicit Types (s : St) (v : view).

Lemma leaf_n2i_run n s v t alias meta es : shows n s v → v t = Some (meta, es) →
  row_n2i_for_plan (SeqScan t) alias s = (Ok (leaf_n2i meta alias), s).
Proof. intros Hs Hv. cbn [row_n2i_for_plan]. by rewrite (run_Ok _ _ _ _ _ (get_table_run _ _ _ _ _ _ Hs Hv)). Qed.
Lemma jlayout_run n s v j d : shows n s v → jlayout v j = Some d → row_n2i_for_plan (jplan j) (jalias j) s = (Ok d, s).
Proof.
  intros Hs. revert d. induction j as [name a|lhs IH name a on nu]; intros d; cbn [jlayout jplan jalias].
  - destruct (v name) as [[m es]|] eqn:E; [|done]. cbn. intros [= <-]. by apply (leaf_n2i_run n s v name (Some a) m es).
  - destruct (jlayout v lhs) as [dl|]; [|done]. cbn [mbind option_bind]. destruct (v name) as [[m es]|] eqn:E; [|done]. cbn. intros [= <-].
    cbn [row_n2i_for_plan]. rewrite (run_Ok _ _ _ _ _ (IH dl eq_refl)). by rewrite (run_Ok _ _ _ _ _ (leaf_n2i_run n s v name (Some a) m es Hs E)).
Qed.
Lemma jlayout_run_join n s v j d : shows n s v → jlayout v j = Some d → jalias j = None → row_n2i_for_plan (jplan j) None s = (Ok d, s).
Proof. intros Hs Hd Ha. rewrite <-Ha. by apply (jlayout_run n s v). Qed.

(** the layout that a plan of joins gives to its rows puts the columns of
    the tables side by side: on a joined row [alias.column] is the column of the
    table with that alias, and a bare name the column of the first table that
    has it. *)
Theorem joined_columns j L n s v : shows n s v → jleaves v j = Some L → leaves_ok L →
  ∃ d, row_n2i_for_plan (jplan j) (jalias j) s = (Ok d, s) ∧
    ∀ rs k a m r c, Forall2 (λ l r, full_row l.2 r) L rs → L !! k = Some (a, m) → rs !! k = Some r → c ∈ meta_column_names m →
      eval_column c (Some a) (concat rs) d = Ok (column_of m r c) ∧
      ((∀ i l, (i < k)%nat → L !! i = Some l → c ∉ meta_column_names l.2) → eval_column c None (concat rs) d = Ok (column_of m r c)).
Proof.
  intros Hs HL HLok. destruct (jlayout_spec v j L HL HLok) as (d & Hd & Hlay). exists d. split; [by apply (jlayout_run n s v)|].
  intros rs k a m r c Hrs Hk Hr Hin. split; [by apply (alias_column d L rs a c k)|]. intros Hfirst. by apply (bare_column d L rs a c k).
Qed.

(** C16: the nested loops of a FROM clause yield, for each row of the tables on
    the left in order, its combinations with the rows of the next table that
    satisfy ON, in the order of that table, or the row with NULLs for a LEFT
    join without a match; the plan's layout is the one the condition is
    evaluated in. *)
Theorem nested_loop_join j L n s v rows : shows (jsize j + n) s v → jleaves v j = Some L → leaves_ok L → jrows v j = Ok rows →
  ∃ s', open (jplan j) s = (rows, None, s') ∧ shows n s' v ∧ xo_indexes s' = xo_indexes s.
Proof.
  revert L n s rows. induction j as [name a|lhs IH name a on nu]; intros L n s rows Hs HL HLok; cbn [jrows jplan jsize].
  - destruct (v name) as [[m es]|] eqn:E; [|done]. cbn. intros [= <-]. by apply (open_scan_run n s v name m es).
  - destruct (jrows v lhs) as [ls|] eqn:El; [|done]. rewrite bind_Ok. destruct (v name) as [[m es]|] eqn:E; [|done].
    cbn [of_option]. rewrite bind_Ok. destruct (jlayout v (JJoin lhs name a on nu)) as [d|] eqn:Ed; [|done]. cbn [of_option]. rewrite bind_Ok.
    destruct (mapR _ ls) as [yss|] eqn:Em; [|done]. rewrite bind_Ok. intros [= <-].
    pose proof (jlayout_run_join _ s v _ d Hs Ed eq_refl) as Hlay.
    assert (∀ k, shows (S k) s v → shows k s v) as Hless by (intros; by apply rl_less).
    destruct (open_scan_run (jsize lhs + n) s v name m es Hs E) as (s1 & Hr & Hs1 & Hi1).
    cbn [jleaves] in HL. destruct (jleaves v lhs) as [L0|] eqn:EL; [|done]. rewrite E in HL. cbn in HL. injection HL as <-.
    pose proof (leaves_app _ _ HLok (jleaves_some _ _ _ EL) ltac:(done)) as [HL0 [_ _ _ Hc]]. apply Forall_cons in Hc as [[[Hc _] _] _].
    destruct (IH L0 n s1 ls Hs1 eq_refl HL0 eq_refl) as (s2 & Hl & Hs2 & Hi2). exists s2. split; [|split; [done|congruence]].
    cbn [open]. unfold open_nested_loop. cbn [jplan] in Hlay. rewrite (g_with_Ok _ _ _ _ _ Hlay).
    rewrite (g_with_Ok _ _ _ _ _ (name_to_idx_run _ _ _ _ _ _ Hs E)).
    rewrite (g_with_Ok _ _ _ _ _ (collect_outcome _ _ _ _ Hr)). cbn [fst].
    rewrite (for_each_Ok _ _ _ _ _ Hl). apply (for_list_rows _ _ _ _ _ Em). intros l ys Hy. apply nested_loop_row_run.
    by rewrite column_n2i_size.
Qed.
End Joins.
