(* ===== verification/JoinIndex.v ===== *)
(** The join over an index of the right table against the nested loop. *)
From S2P Require Import Prelude.
From S2P Require Import Bytes.
From S2P Require Import Utf8.
From S2P Require Import TypeSys.
From S2P Require Import Codec.
From S2P Require Import PyConv.
From S2P Require Import PyOrder.
From S2P Require Import PyDict.
From S2P Require Import Ast.
From S2P Require Import Heap.
From S2P Require Import Catalog.
From S2P Require Import EvalExpr.
From S2P Require Import Gen.
From S2P Require Import Plan.
From S2P Require Import Dml.
From S2P Require Import Planner.
From S2P Require Import IndexScan.
From S2P Require Import SortSpec.
From S2P Require Import ReadSpec.
From S2P Require Import SelectSpec.
From S2P Require Import JoinSpec.
From Stdlib Require Import ZArith Lia.
Local Open Scope Z_scope.

(** An index over one column finds the rows with a value; [K]: the values of
    the column that are not NULL *)
Class LookupLaws (St : Type) `{ReadLaws St shows} := {
  il_has s ms m : xo_indexes s = Some ms → m ∈ ms → xo_has_index m.(im_name) s = true;
  il_equality (K : pyval → Prop) `{SortKeys K} n s v ms m meta es c key :
    shows n s v → xo_indexes s = Some ms → m ∈ ms → v m.(im_table) = Some (meta, es) → m.(im_columns) = [c] →
    c ∈ meta_column_names meta → clean_columns meta → Forall (λ e, column_of meta e.2 c = PyNone ∨ K (column_of meta e.2 c)) es → K key →
    ∃ rids s', xo_equality m.(im_name) key s = (rids, None, s') ∧ (∀ k w, shows k s w → shows k s' w) ∧ xo_indexes s' = xo_indexes s ∧
      (∀ b, rl_bound b s → rl_bound b s') ∧ NoDup rids ∧ ∀ rid, rid ∈ rids ↔ ∃ r, (rid, r) ∈ es ∧ column_of meta r c = key;
}.

(** The bounds of an index scan *)
Definition in_bounds (lo hi : pyval) (lo_inclusive hi_inclusive : bool) (x : pyval) : result bool :=
  past ← _is_past_hi x hi hi_inclusive; if past : bool then Ok false else _passes_lo x lo lo_inclusive.
Class RangeLaws (St : Type) `{LookupLaws St shows} := {
  il_range (K : pyval → Prop) `{SortKeys K} n s v ms m meta es c lo hi lo_inclusive hi_inclusive :
    shows n s v → xo_indexes s = Some ms → m ∈ ms → v m.(im_table) = Some (meta, es) → m.(im_columns) = [c] →
    c ∈ meta_column_names meta → clean_columns meta → Forall (λ e, column_of meta e.2 c = PyNone ∨ K (column_of meta e.2 c)) es →
    K lo → (hi = PyNone ∨ K hi) →
    ∃ rids s', xo_range m.(im_name) lo hi lo_inclusive hi_inclusive s = (rids, None, s') ∧ (∀ k w, shows k s w → shows k s' w) ∧
      xo_indexes s' = xo_indexes s ∧ (∀ b, rl_bound b s → rl_bound b s') ∧ NoDup rids ∧
      ∀ rid, rid ∈ rids ↔ ∃ r, (rid, r) ∈ es ∧ column_of meta r c ≠ PyNone ∧
        in_bounds lo hi lo_inclusive hi_inclusive (column_of meta r c) = Ok true;
}.

(** [left.x = right.c] *)
Definition equi_join (al x a c : pystr) : expr := BinaryOp (u "=") (ColumnRef x (Some al)) (ColumnRef c (Some a)).

Lemma eval_eq `{ArithLib} lhs rhs l r : lhs = Ok l → rhs = Ok r → _eval_binary (u "=") lhs rhs = (PyBool <$> _eq l r).
Proof. intros -> ->. unfold _eval_binary. rewrite !bool_decide_false by done. rewrite !bind_Ok. by rewrite bool_decide_true. Qed.

(** Distinct rids fetch the rows of the entries that they select *)
Lemma fetched_perm (tst : Rid * row → bool) (es : list (Rid * row)) rids rs : NoDup (map fst es) → NoDup rids →
  (∀ rid, rid ∈ rids ↔ ∃ r, (rid, r) ∈ es ∧ tst (rid, r) = true) → Forall2 (λ rid r, (rid, r) ∈ es) rids rs →
  rs ≡ₚ rows_of (filter (λ e, tst e = true) es).
Proof.
  intros Hnd Hndr Hrids Hrs.
  assert (rs = map snd (zip rids rs)) as -> by (symmetry; apply snd_zip; by rewrite (Forall2_length _ _ _ Hrs)).
  apply fmap_Permutation. assert (map fst (zip rids rs) = rids) as Hfst by (apply fst_zip; by rewrite (Forall2_length _ _ _ Hrs)).
  assert (∀ e, e ∈ zip rids rs → e ∈ es) as Hsub.
  { intros [rid r] [i Hi]%list_elem_of_lookup. apply lookup_zip_with_Some in Hi as (rid' & r' & [= <- <-] & Hi1 & Hi2).
    by apply (Forall2_lookup_lr _ _ _ _ _ _ Hrs Hi1 Hi2). }
  assert (∀ rid r r', (rid, r) ∈ es → (rid, r') ∈ es → r = r') as Huniq.
  { intros rid r r' H1 H2. apply dget_elem in H1, H2; [congruence|done..]. }
  apply NoDup_Permutation.
  - apply (NoDup_fmap_1 fst). by rewrite <-Hfst in Hndr.
  - apply NoDup_filter. by apply (NoDup_fmap_1 fst).
  - intros [rid r]. rewrite list_elem_of_filter. split.
    + intros Hz. pose proof (Hsub _ Hz) as Hin. split; [|done].
      assert (rid ∈ rids) as Hr. { rewrite <-Hfst. apply list_elem_of_In, in_map_iff. exists (rid, r). split; [done|by apply list_elem_of_In]. }
      apply Hrids in Hr as (r' & Hin' & Ht). by rewrite (Huniq rid r r').
    + intros [Hh Hin]. assert (rid ∈ rids) as Hr by (apply Hrids; by exists r).
      rewrite <-Hfst in Hr. apply list_elem_of_In, in_map_iff in Hr as ([rid' r'] & <- & Hz%list_elem_of_In). cbn [fst] in *.
      by rewrite (Huniq rid' r r' Hin (Hsub _ Hz)).
Qed.

Section EquiJoin.
Context {St : Type} `{LookupLaws St shows} `{ArithLib} (K : pyval → Prop) `{SortKeys K}.
Implicit Types (s : St) (v : view).
(** The right table, under the alias [a], and the column [c] of its index *)
Context (meta : TableMeta) (es : list (Rid * row)) (c : pystr) (idx : n2i) (on : expr).
Context (clean : clean_columns meta) (c_known : c ∈ meta_column_names meta).
Context (typed : Forall (λ e, column_of meta e.2 c = PyNone ∨ K (column_of meta e.2 c)) es).

(** Both conditions of a left row [l] with the key [key] *)
Definition on_key (l : row) (key : pyval) : Prop :=
  ∀ r, r ∈ rows_of es → eval_expr on (l ++ r) idx = (PyBool <$> _eq key (column_of meta r c)).
Definition has_key (key : pyval) (e : Rid * row) : bool :=
  match column_of meta e.2 c with PyNone => false | x => bool_decide (rank (K := K) x = rank (K := K) key) end.

Lemma has_key_true key e : K key → e ∈ es → has_key key e = true ↔ column_of meta e.2 c = key.
Proof.
  intros Hk He. rewrite Forall_forall in typed. unfold has_key. destruct (typed e He) as [Hx|Hx].
  - rewrite Hx. split; [done|]. intros <-. by apply sk_not_none in Hk.
  - assert ((match column_of meta e.2 c with PyNone => false | x => bool_decide (rank (K := K) x = rank (K := K) key) end) =
            bool_decide (rank (K := K) (column_of meta e.2 c) = rank (K := K) key)) as ->.
    { pose proof (sk_not_none _ Hx). by destruct (column_of meta e.2 c). }
    rewrite bool_decide_eq_true. split; [by apply rank_inj|by intros ->].
Qed.
Lemma test_key l key e : K key → on_key l key → e ∈ es → on_test (Some on) idx l e.2 = Ok (has_key key e).
Proof.
  intros Hk Hon He. unfold on_test. rewrite Hon by (apply list_elem_of_In, in_map; by apply list_elem_of_In).
  rewrite Forall_forall in typed. destruct (typed e He) as [Hx|Hx].
  - unfold has_key. rewrite Hx. pose proof (sk_not_none _ Hk). by destruct key.
  - pose proof (sk_not_none _ Hx) as Hn. pose proof (sk_not_none _ Hk) as Hkn.
    assert (_eq key (column_of meta e.2 c) = py_eq_checked key (column_of meta e.2 c)) as -> by (by destruct key, (column_of meta e.2 c)).
    pose proof (sk_eq key _ Hk Hx) as Heq. cbn [elt_eq] in Heq. rewrite Heq. cbn.
    unfold has_key. destruct (column_of meta e.2 c); try done; f_equal; apply bool_decide_ext; split; congruence.
Qed.
Lemma filter_key l key es' : K key → on_key l key → (∀ e, e ∈ es' → e ∈ es) →
  filterR (on_test (Some on) idx l) (rows_of es') = Ok (rows_of (filter (λ e, has_key key e = true) es')).
Proof.
  intros Hk Hon. induction es' as [|e es' IH]; intros Hin; [done|]. cbn [rows_of map filterR].
  rewrite (test_key l key) by (try done; apply Hin; by left). rewrite bind_Ok. fold (rows_of es').
  rewrite IH by (intros; apply Hin; by right). rewrite bind_Ok, filter_cons. destruct (has_key key e); [by rewrite decide_True|by rewrite decide_False].
Qed.
Lemma filter_null l es' : on_key l PyNone → (∀ e, e ∈ es' → e ∈ es ∧ column_of meta e.2 c ≠ PyNone) →
  filterR (on_test (Some on) idx l) (rows_of es') = Ok [].
Proof.
  intros Hon. induction es' as [|e es' IH]; intros Hin; [done|]. cbn [rows_of map filterR]. destruct (Hin e ltac:(by left)) as [He Hne].
  assert (on_test (Some on) idx l e.2 = Ok false) as ->.
  { unfold on_test. rewrite Hon by (apply list_elem_of_In, in_map; by apply list_elem_of_In). by destruct (column_of meta e.2 c). }
  rewrite bind_Ok. fold (rows_of es'). by rewrite IH by (intros; apply Hin; by right).
Qed.

(** The heap of the right table is open, or there is room to open it *)
Definition ready (n : nat) (v : view) (s : St) : Prop := shows n s v ∧ (rl_bound meta s ∨ shows (S n) s v).
Lemma ready_heap n v s : ready n v s → v meta.(tm_name) = Some (meta, es) →
  ∃ s', xo_heap_for meta s = (Ok (), s') ∧ shows n s' v ∧ xo_indexes s' = xo_indexes s ∧ rl_bound meta s'.
Proof.
  intros [Hs [Hb|Hr]] Hv; [|by eapply rl_heap_for]. exists s. split_and!; try done. by eapply rl_heap_again.
Qed.
(** One rid of the lookup *)
Lemma indexed_match_run n v s l key rid r : ready n v s → v meta.(tm_name) = Some (meta, es) → K key → on_key l key →
  (rid, r) ∈ es → column_of meta r c = key →
  ∃ s', indexed_matches (Some on) idx meta l rid s = ([l ++ r], None, s') ∧ ready n v s' ∧ xo_indexes s' = xo_indexes s.
Proof.
  intros Hr Hv Hk Hon Hin Hkey. destruct (ready_heap n v s Hr Hv) as (s' & Hh & Hs' & Hi & Hb). exists s'.
  destruct (rl_read _ _ _ _ _ _ _ _ Hs' Hv Hin) as (blob & Hrd & Hdec).
  assert (_fetch_row meta rid s = (Ok (Some r), s')) as Hf.
  { unfold _fetch_row. rewrite (run_Ok _ _ _ _ _ Hh), (run_Ok _ _ _ _ _ Hrd). by rewrite Hdec. }
  split; [|split; [|done]; split; [done|by left]]. unfold indexed_matches. rewrite (g_with_Ok _ _ _ _ _ Hf).
  pose proof (test_key l key (rid, r) Hk Hon Hin) as Ht. rewrite (proj2 (has_key_true key (rid, r) Hk Hin) Hkey) in Ht.
  unfold on_test in Ht. cbn [snd] in Ht. destruct (eval_expr on (l ++ r) idx) as [x|]; [|done]. rewrite bind_Ok in Ht. injection Ht as Ht.
  unfold g_with, lift. by rewrite Ht.
Qed.
Lemma indexed_matches_run n v rids l key : v meta.(tm_name) = Some (meta, es) → K key → on_key l key →
  (∀ rid, rid ∈ rids → ∃ r, (rid, r) ∈ es ∧ column_of meta r c = key) → ∀ s, ready n v s →
  ∃ rs s', for_list rids (indexed_matches (Some on) idx meta l) s = (map (app l) rs, None, s') ∧ ready n v s' ∧
    xo_indexes s' = xo_indexes s ∧ Forall2 (λ rid r, (rid, r) ∈ es) rids rs.
Proof.
  intros Hv Hk Hon. induction rids as [|rid rids IH]; intros Hrids s Hs; [by exists [], s|].
  destruct (Hrids rid ltac:(by left)) as (r & Hin & Hkey).
  destruct (indexed_match_run n v s l key rid r Hs Hv Hk Hon Hin Hkey) as (s1 & Hm & Hs1 & Hi1).
  destruct (IH ltac:(intros; apply Hrids; by right) s1 Hs1) as (rs & s2 & Hf & Hs2 & Hi2 & Hrs).
  exists (r :: rs), s2. cbn [for_list map]. rewrite (g_app_Ok _ _ _ _ _ Hm), Hf. split_and!; [done|done|congruence|by constructor].
Qed.
(** The fetched rows are those of the filter *)
Lemma fetched_rows key rids rs : K key → NoDup (map fst es) → NoDup rids →
  (∀ rid, rid ∈ rids ↔ ∃ r, (rid, r) ∈ es ∧ column_of meta r c = key) → Forall2 (λ rid r, (rid, r) ∈ es) rids rs →
  rs ≡ₚ rows_of (filter (λ e, has_key key e = true) es).
Proof.
  intros Hk Hnd Hndr Hrids. apply fetched_perm; [done|done|]. intros rid. rewrite Hrids. split; intros (r & Hin & Hr); exists r; (split; [done|]).
  - by apply has_key_true.
  - by apply has_key_true in Hr.
Qed.

(** One left row *)
Lemma indexed_row_run n v s ms m kind i l key out : ready n v s → v meta.(tm_name) = Some (meta, es) →
  xo_indexes s = Some ms → m ∈ ms → m.(im_table) = meta.(tm_name) → m.(im_columns) = [c] →
  l !! i = Some key → on_key l key → (K key ∨ key = PyNone ∧ Forall (λ e, column_of meta e.2 c ≠ PyNone) es) →
  joined_rows (Some on) idx (bool_decide (kind = LEFT)) (width meta) (rows_of es) l = Ok out →
  ∃ ys s', indexed_row (Some on) idx kind meta m.(im_name) (width meta) i l s = (ys, None, s') ∧ ready n v s' ∧
    xo_indexes s' = xo_indexes s ∧ ys ≡ₚ out.
Proof.
  intros Hr Hv Hms Hm Htab Hcols Hl Hon Hkey Hout. unfold indexed_row, cell. rewrite Hl. cbn [of_option].
  assert (padded kind (width meta) l s = (match kind with LEFT => [l ++ _right_row_with_nulls (width meta)] | INNER => [] end, None, s)) as Hpad
    by by destruct kind.
  unfold joined_rows in Hout. unfold g_with at 1, lift at 1. destruct Hkey as [Hk|[-> Hnn]].
  - rewrite (filter_key l key es Hk Hon) in Hout by done. rewrite bind_Ok in Hout. injection Hout as <-.
    assert (is_none key = false) as -> by (pose proof (sk_not_none _ Hk); by destruct key).
    destruct Hr as [Hs Hb]. rewrite <-Htab in Hv.
    destruct (il_equality K n s v ms m meta es c key Hs Hms Hm Hv Hcols c_known clean typed Hk) as (rids & s1 & He & Hsh & Hi1 & Hbd & Hnd & Hrids).
    assert (ready n v s1) as Hr1. { split; [by apply Hsh|]. destruct Hb as [Hb|Hb]; [left; by apply Hbd|right; by apply Hsh]. }
    rewrite Htab in Hv.
    destruct (indexed_matches_run n v rids l key Hv Hk Hon (λ rid Hx, proj1 (Hrids rid) Hx) s1 Hr1) as (rs & s2 & Hf & Hr2 & Hi2 & Hrs).
    pose proof (fetched_rows key rids rs Hk (rl_nodup _ _ _ _ _ _ Hs Hv) Hnd Hrids Hrs) as Hperm.
    rewrite (for_each_Ok _ _ _ _ _ He). change (λ rid, indexed_matches (Some on) idx meta l rid) with (indexed_matches (Some on) idx meta l). rewrite Hf. exists (match rs with [] => match kind with LEFT => [l ++ _right_row_with_nulls (width meta)] | INNER => [] end | _ => map (app l) rs end), s2.
    split_and!; [by destruct rs; [destruct kind|]|done|congruence|].
    destruct rs as [|r rs].
    + apply Permutation_nil_l in Hperm. rewrite <-Hperm. by destruct kind.
    + destruct (rows_of (filter _ es)) as [|x xs] eqn:E; [by apply Permutation_nil_r in Hperm|]. by apply fmap_Permutation.
  - rewrite (filter_null l es Hon) in Hout by (rewrite Forall_forall in Hnn; intros e He; split; [done|by apply Hnn]).
    rewrite bind_Ok in Hout. injection Hout as <-. cbn [is_none]. rewrite Hpad. eexists _, s. split_and!; [done|done|done|]. by destruct kind.
Qed.
End EquiJoin.

(** * The whole join *)

Section Agree.
Context {St : Type} `{LookupLaws St shows} `{ArithLib} (K : pyval → Prop) `{SortKeys K}.
Implicit Types (s : St) (v : view).

(** A joined row is a row of each table, or NULLs *)
Lemma jrows_shape n s v j L ls l : shows n s v → jleaves v j = Some L → jrows v j = Ok ls → l ∈ ls →
  ∃ rs, l = concat rs ∧ Forall2 (λ (lf : leaf) r, full_row lf.2 r) L rs.
Proof.
  intros Hs. revert L ls l. induction j as [name a|lhs IH name a on nu]; intros L ls l; cbn [jleaves jrows].
  - destruct (v name) as [[m es]|] eqn:E; [|done]. cbn. intros [= <-] [= <-] Hl. exists [l]. split; [by cbn; rewrite app_nil_r|].
    constructor; [|constructor]. by apply (row_length n s v name m es).
  - destruct (jleaves v lhs) as [L0|]; [|done]. cbn [mbind option_bind]. destruct (jrows v lhs) as [ls0|]; [|done]. rewrite bind_Ok.
    destruct (v name) as [[m es]|] eqn:E; [|done]. cbn [of_option]. rewrite bind_Ok. intros [= <-].
    destruct (jlayout v _) as [d|]; [|done]. cbn [of_option]. rewrite bind_Ok. destruct (mapR _ ls0) as [yss|] eqn:Em; [|done].
    rewrite bind_Ok. intros [= <-] Hl. apply mapR_inv in Em.
    apply list_elem_of_In, in_concat in Hl as (ys & Hys%list_elem_of_In & Hl%list_elem_of_In). apply list_elem_of_lookup in Hys as [i Hi].
    destruct (Forall2_lookup_r _ _ _ _ _ Em Hi) as (l0 & Hl0 & Hj). apply list_elem_of_lookup_2 in Hl0.
    destruct (IH L0 ls0 l0 eq_refl eq_refl Hl0) as (rs & -> & Hrs). unfold joined_rows in Hj.
    destruct (filterR _ _) as [ms|] eqn:Ef; [|done]. rewrite bind_Ok in Hj. injection Hj as <-.
    assert (∃ r, l = concat rs ++ r ∧ full_row m r) as (r & -> & Hr).
    { destruct ms as [|m0 ms].
      - destruct nu; [|by apply elem_of_nil in Hl]. apply list_elem_of_singleton in Hl as ->. eexists. split; [done|]. apply length_replicate.
      - apply list_elem_of_In, in_map_iff in Hl as (r & <- & Hr%list_elem_of_In). exists r. split; [done|].
        apply (row_length n s v name m es); [done|done|]. by eapply filterR_sub. }
    exists (rs ++ [r]). rewrite concat_app. cbn [concat]. rewrite app_nil_r. split; [done|]. apply Forall2_app; [done|]. by repeat constructor.
Qed.
Lemma for_list_perm {A B} (I : St → Prop) (R : A → list B → Prop) (xs : list A) (body : A → gen St B) yss :
  Forall2 R xs yss → (∀ x ys s, x ∈ xs → R x ys → I s → ∃ zs s', body x s = (zs, None, s') ∧ I s' ∧ zs ≡ₚ ys) →
  ∀ s, I s → ∃ zs s', for_list xs body s = (zs, None, s') ∧ I s' ∧ zs ≡ₚ concat yss.
Proof.
  induction 1 as [|x ys xs yss Hx Hxs IH]; intros Hb s Hs; [by exists [], s|].
  destruct (Hb x ys s ltac:(by left) Hx Hs) as (zs & s1 & Hz & Hs1 & Hp).
  destruct (IH (λ x' ys' s' Hin, Hb x' ys' s' (list_elem_of_further _ _ _ Hin)) s1 Hs1) as (zs' & s2 & Hz' & Hs2 & Hp').
  exists (zs ++ zs'), s2. cbn [for_list concat]. rewrite (g_app_Ok _ _ _ _ _ Hz), Hz'. split_and!; [done|done|]. by rewrite Hp, Hp'.
Qed.

End Agree.
