(* ===== verification/AggSpec.v ===== *)
(** GROUP BY and the aggregate functions: each group accumulates its rows in
    order, and the values over integers are the mathematical ones. *)
From S2P Require Import Prelude.
From S2P Require Import Bytes.
From S2P Require Import Utf8.
From S2P Require Import Float64.
From S2P Require Import TypeSys.
From S2P Require Import PyConv.
From S2P Require Import PyOrder.
From S2P Require Import PyDict.
From S2P Require Import EvalExpr.
From S2P Require Import Aggregation.
From S2P Require Import Gen.
From S2P Require Import Plan.
From S2P Require Import SortSpec.
From S2P Require Import ReadSpec.
From S2P Require Import SelectSpec.
From Stdlib Require Import ZArith Lia.
Local Open Scope Z_scope.

Lemma fold_result_app {A B} (f : B → A → result B) b xs ys :
  fold_result f b (xs ++ ys) = (b ← fold_result f b xs; fold_result f b ys).
Proof. revert b. induction xs as [|x xs IH]; intros b; [done|]. cbn [app fold_result]. destruct (f b x) as [b'|]; [rewrite !bind_Ok; apply IH|done]. Qed.
Lemma fold_result_snoc {A B} (f : B → A → result B) b xs x b' :
  fold_result f b xs = Ok b' → fold_result f b (xs ++ [x]) = f b' x.
Proof. intros Hx. rewrite fold_result_app, Hx, bind_Ok. cbn. destruct (f b' x); [|done]. by rewrite bind_Ok. Qed.

(** * Groups *)

Section Groups.
Context `{ArithLib} (keys : list pystr) (aggs : list agg_spec) (idx : n2i).
(** The key of a row: [None] when a key column is NULL *)
Context (key : row → option (list pyval)) (key_ok : list pyval → Prop).
Context (keys_eq_ok : ∀ a b, key_ok a → key_ok b → keys_eq a b = true ↔ a = b).
Context (keys_hash : ∀ a, key_ok a → forallb hashable a = true).

(** The keys in the order in which they are first seen *)
Definition add_key (ks : list (list pyval)) (k : option (list pyval)) : list (list pyval) :=
  match k with Some k => if existsb (keys_eq k) ks then ks else ks ++ [k] | None => ks end.
Definition group_keys (rows : list row) : list (list pyval) := foldl (λ ks r, add_key ks (key r)) [] rows.
Definition in_key (k : list pyval) (r : row) : bool := match key r with Some k' => keys_eq k' k | None => false end.
Definition rows_with (k : list pyval) (rows : list row) : list row := filter (λ r, in_key k r = true) rows.
(** What the rows of a group accumulate *)
Definition accumulated (rows : list row) : result (list agg_state) :=
  fold_result (λ states r, accumulate_all states aggs r idx) (map (λ _, _new_state) aggs) rows.
Definition good_row (r : row) : Prop := key_parts keys r idx = Ok (key r) ∧ ∀ k, key r = Some k → key_ok k.

Lemma group_keys_snoc rows r : group_keys (rows ++ [r]) = add_key (group_keys rows) (key r).
Proof. unfold group_keys. by rewrite foldl_app. Qed.
Lemma group_keys_ok rows : Forall good_row rows → Forall key_ok (group_keys rows).
Proof.
  induction rows as [|r rows IH] using rev_ind; intros Hr; [constructor|]. apply Forall_app in Hr as [Hr Hx]. apply Forall_cons in Hx as [[_ Hx] _].
  rewrite group_keys_snoc. unfold add_key. destruct (key r) as [k|] eqn:E; [|by apply IH]. destruct (existsb _ _); [by apply IH|].
  apply Forall_app. split; [by apply IH|]. repeat constructor. by apply Hx.
Qed.
Lemma group_keys_nodup rows : Forall good_row rows → NoDup (group_keys rows).
Proof.
  induction rows as [|r rows IH] using rev_ind; intros Hr; [constructor|]. apply Forall_app in Hr as [Hr Hx]. apply Forall_cons in Hx as [[_ Hx] _].
  rewrite group_keys_snoc. unfold add_key. destruct (key r) as [k|] eqn:E; [|by apply IH]. destruct (existsb _ _) eqn:Ex; [by apply IH|].
  apply NoDup_app. split_and!; [by apply IH| |apply NoDup_singleton]. intros k' Hk' ->%list_elem_of_singleton.
  apply not_true_iff_false in Ex. apply Ex, existsb_exists. exists k. split; [by apply list_elem_of_In|]. apply keys_eq_ok; auto.
Qed.
Definition states_of (k : list pyval) (rows : list row) : list agg_state :=
  match accumulated (rows_with k rows) with Ok st => st | Err _ => [] end.
Definition entry_of (rows : list row) (k : list pyval) : list pyval * list agg_state := (k, states_of k rows).
Definition group_ok (rows : list row) (k : list pyval) : Prop := ∃ st, accumulated (rows_with k rows) = Ok st.

Lemma rows_with_snoc k rows r : rows_with k (rows ++ [r]) = if in_key k r then rows_with k rows ++ [r] else rows_with k rows.
Proof. unfold rows_with. rewrite filter_app, filter_cons, filter_nil. destruct (in_key k r); [done|]. by rewrite decide_False, app_nil_r. Qed.
Lemma group_ok_prefix rows r k : group_ok (rows ++ [r]) k → group_ok rows k.
Proof.
  unfold group_ok. rewrite rows_with_snoc. destruct (in_key k r); [|done]. intros [st Hst]. unfold accumulated in *. rewrite fold_result_app in Hst.
  destruct (fold_result _ _ (rows_with k rows)) as [st'|]; [by exists st'|done].
Qed.
Lemma states_snoc rows r k : group_ok (rows ++ [r]) k → in_key k r = true →
  accumulate_all (states_of k rows) aggs r idx = Ok (states_of k (rows ++ [r])).
Proof.
  intros Hok Hin. destruct (group_ok_prefix _ _ _ Hok) as [st Hst]. destruct Hok as [st' Hst']. unfold states_of. rewrite Hst, Hst'.
  rewrite rows_with_snoc, Hin in Hst'. unfold accumulated in *. by rewrite (fold_result_snoc _ _ _ _ _ Hst) in Hst'.
Qed.
Lemma states_other rows r k : in_key k r = false → states_of k (rows ++ [r]) = states_of k rows.
Proof. intros Hin. unfold states_of. by rewrite rows_with_snoc, Hin. Qed.
Lemma no_rows k rows : Forall good_row rows → key_ok k → k ∉ group_keys rows → rows_with k rows = [].
Proof.
  induction rows as [|r rows IH] using rev_ind; intros Hr Hk; [done|]. apply Forall_app in Hr as [Hr Hx]. apply Forall_cons in Hx as [[_ Hx] _].
  rewrite group_keys_snoc, rows_with_snoc. unfold add_key, in_key. destruct (key r) as [k'|]; [|by intros; apply IH]. specialize (Hx k' eq_refl).
  intros Hn. assert (keys_eq k' k = false) as ->.
  { apply not_true_iff_false. intros ->%keys_eq_ok; [|done..]. destruct (existsb (keys_eq k) (group_keys rows)) eqn:E.
    - apply existsb_exists in E as (k1 & H1%list_elem_of_In & ->%keys_eq_ok); [done|done|]. pose proof (group_keys_ok rows Hr) as Hok.
      rewrite Forall_forall in Hok. by apply Hok.
    - apply Hn. apply elem_of_app. right. by left. }
  apply IH; [done|done|]. intros Hin. apply Hn. destruct (existsb _ _); [done|]. apply elem_of_app. by left.
Qed.
Lemma in_group_run rows r k ks : Forall key_ok ks → NoDup ks → key_ok k → key r = Some k → 
  (∀ k', k' ∈ ks → group_ok (rows ++ [r]) k') → group_ok (rows ++ [r]) k → (k ∉ ks → rows_with k rows = []) →
  in_group k aggs r idx (map (entry_of rows) ks) = Ok (map (entry_of (rows ++ [r])) (add_key ks (Some k))).
Proof.
  intros Hks Hnd Hk Hr _ Hokk Hnew.
  assert (∀ k', in_key k' r = keys_eq k k') as Hkey by (intros k'; unfold in_key; by rewrite Hr).
  assert (accumulate_all (states_of k rows) aggs r idx = Ok (states_of k (rows ++ [r]))) as Hstep.
  { apply states_snoc; [done|]. rewrite Hkey. by apply keys_eq_ok. }
  assert (k ∉ ks → states_of k rows = map (λ _, _new_state) aggs) as Hfirst by (intros Hn; unfold states_of; by rewrite Hnew).
  clear Hokk Hnew. induction Hks as [|k' ks Hk' Hks IH]; cbn [map in_group].
  - rewrite <-Hfirst by (by intros ?%elem_of_nil). by rewrite Hstep.
  - apply NoDup_cons in Hnd as [Hn Hnd]. unfold entry_of at 1. cbn [fst snd]. unfold add_key. cbn [existsb].
    destruct (keys_eq k k') eqn:E; cbn [orb].
    + apply keys_eq_ok in E as <-; [|done..]. rewrite Hstep, bind_Ok. cbn [map]. unfold entry_of at 2. do 2 f_equal.
      apply map_ext_in. intros k1 H1%list_elem_of_In. unfold entry_of. f_equal. symmetry. apply states_other. rewrite Hkey.
      apply not_true_iff_false. rewrite Forall_forall in Hks. intros ->%keys_eq_ok; [done|done|by apply Hks].
    + rewrite IH; [|done|]. 2: { intros Hk1; apply Hfirst. rewrite not_elem_of_cons. split; [|done]. intros ->.
        assert (keys_eq k' k' = true) by by apply keys_eq_ok. congruence. }
      rewrite bind_Ok. unfold add_key.
      assert (entry_of (rows ++ [r]) k' = (k', states_of k' rows)) as He by (unfold entry_of; rewrite states_other; [done|by rewrite Hkey]).
      destruct (existsb (keys_eq k) ks); cbn [map app]; by rewrite He.
Qed.

(** C20: consuming the rows, an aggregation ends with one group for each key in
    the order in which the keys are first seen, and the states of a group are
    those that its own rows accumulate, in order; rows with a NULL among the
    key columns belong to no group. *)
Theorem group_by_groups rows : Forall good_row rows → (∀ k, k ∈ group_keys rows → group_ok rows k) →
  fold_result (group_row keys aggs idx) [] rows = Ok (map (entry_of rows) (group_keys rows)) ∧ NoDup (group_keys rows) ∧
  (∀ r k, r ∈ rows → key r = Some k → k ∈ group_keys rows).
Proof.
  intros Hgood Hok. split_and!; [|by apply group_keys_nodup|].
  - induction rows as [|r rows IH] using rev_ind; [done|]. apply Forall_app in Hgood as [Hg Hr]. apply Forall_cons in Hr as [[Hp Hkr] _].
    rewrite group_keys_snoc in Hok. 
    assert (∀ k, k ∈ group_keys rows → k ∈ add_key (group_keys rows) (key r)) as Hsub.
    { intros k Hk. unfold add_key. destruct (key r); [|done]. destruct (existsb _ _); [done|]. apply elem_of_app. by left. }
    rewrite (fold_result_snoc _ _ _ _ _ (IH Hg (λ k Hk, group_ok_prefix _ _ _ (Hok k (Hsub k Hk))))).
    unfold group_row. rewrite Hp, bind_Ok, group_keys_snoc. destruct (key r) as [k|] eqn:E.
    + specialize (Hkr k eq_refl). rewrite keys_hash by done. apply in_group_run; try done; [by apply group_keys_ok|by apply group_keys_nodup|by intros; apply Hok, Hsub| |].
      * apply Hok. unfold add_key. destruct (existsb _ _) eqn:Ex; [|apply elem_of_app; right; by left].
        apply existsb_exists in Ex as (k1 & H1%list_elem_of_In & Heq). apply keys_eq_ok in Heq as ->; [done|done|].
        pose proof (group_keys_ok rows Hg) as Hks. rewrite Forall_forall in Hks. by apply Hks.
      * intros Hn. by apply no_rows.
    + unfold add_key. f_equal. apply map_ext_in. intros k1 _. unfold entry_of. f_equal. symmetry. apply states_other. unfold in_key. by rewrite E.
  - clear Hok. induction rows as [|r rows IH] using rev_ind; intros r' k Hin Hk; [by apply elem_of_nil in Hin|].
    apply Forall_app in Hgood as [Hg Hr]. apply Forall_cons in Hr as [[_ Hkr] _]. rewrite group_keys_snoc. unfold add_key.
    apply elem_of_app in Hin as [Hin| ->%list_elem_of_singleton].
    + specialize (IH Hg r' k Hin Hk). destruct (key r); [|done]. destruct (existsb _ _); [done|]. apply elem_of_app. by left.
    + rewrite Hk in *. specialize (Hkr k eq_refl). destruct (existsb _ _) eqn:Ex; [|apply elem_of_app; right; by left].
      apply existsb_exists in Ex as (k1 & H1%list_elem_of_In & Heq). apply keys_eq_ok in Heq as ->; [done|done|].
      pose proof (group_keys_ok rows Hg) as Hks. rewrite Forall_forall in Hks. by apply Hks.
Qed.
End Groups.

(** * The values of aggregates over integers *)

(** Decide the comparisons of literal names *)
Ltac same_names :=
  repeat match goal with
  | |- context [bool_decide (u ?a = u ?b)] =>
      let r := eval vm_compute in (bool_decide (u a = u b)) in change (bool_decide (u a = u b)) with r
  end; cbv iota.

Section Values.
Context `{ArithLib}.
Definition null_or_int (x : pyval) : bool := match x with PyNone | PyInt _ => true | _ => false end.
(** The integers that are not NULL *)
Definition ints (vs : list pyval) : list Z := omap (λ x, match x with PyInt z => Some z | _ => None end) vs.
Definition total (zs : list Z) : Z := foldr Z.add 0 zs.
(** NULL over no value *)
Definition over (f : Z → list Z → result pyval) (zs : list Z) : result pyval := match zs with [] => Ok PyNone | z :: zs => f z zs end.
Definition aggregate_of (func : pystr) (zs : list Z) : result pyval :=
  if bool_decide (func = u "COUNT") then Ok (PyInt (zlen zs))
  else if bool_decide (func = u "MIN") then over (λ z zs, Ok (PyInt (foldl Z.min z zs))) zs
  else if bool_decide (func = u "MAX") then over (λ z zs, Ok (PyInt (foldl Z.max z zs))) zs
  else if bool_decide (func = u "SUM") then over (λ z zs, Ok (PyInt (z + total zs))) zs
  else over (λ z zs, py_arith Div (PyInt (z + total zs)) (PyInt (1 + zlen zs))) zs.
Definition accumulate_list (func : pystr) (st : agg_state) (vs : list pyval) : result agg_state :=
  fold_result (λ st x, _accumulate st func true x) st vs.

Lemma total_snoc zs z : total (zs ++ [z]) = total zs + z.
Proof. unfold total. induction zs as [|y zs IH]; cbn; [lia|]. rewrite IH. lia. Qed.
Lemma ints_snoc vs x : ints (vs ++ [x]) = ints vs ++ match x with PyInt z => [z] | _ => [] end.
Proof. unfold ints. rewrite omap_app. by destruct x. Qed.
(** The state after some values *)
Definition state_for (func : pystr) (zs : list Z) : agg_state :=
  if bool_decide (func = u "COUNT") then mkAgg (zlen zs) PyNone PyNone PyNone
  else if bool_decide (func = u "SUM") || bool_decide (func = u "AVG") then
    mkAgg (zlen zs) (match zs with [] => PyNone | _ => PyInt (total zs) end) PyNone PyNone
  else if bool_decide (func = u "MIN") then mkAgg 0 PyNone (match zs with [] => PyNone | z :: zs => PyInt (foldl Z.min z zs) end) PyNone
  else mkAgg 0 PyNone PyNone (match zs with [] => PyNone | z :: zs => PyInt (foldl Z.max z zs) end).
Definition agg_func (func : pystr) : Prop := func = u "COUNT" ∨ func = u "SUM" ∨ func = u "AVG" ∨ func = u "MIN" ∨ func = u "MAX".
Lemma zlen_snoc {A} (l : list A) x : zlen (l ++ [x]) = zlen l + 1.
Proof. unfold zlen. rewrite length_app. cbn. lia. Qed.
Lemma py_min_int a b : py_min (PyInt a) (PyInt b) = Ok (PyInt (Z.min a b)).
Proof. unfold py_min. rewrite py_lt_ints, bind_Ok. destruct (Z.ltb_spec b a); do 2 f_equal; lia. Qed.
Lemma py_max_int a b : py_max (PyInt a) (PyInt b) = Ok (PyInt (Z.max a b)).
Proof. unfold py_max, py_gt. rewrite py_lt_ints, bind_Ok. destruct (Z.ltb_spec a b); do 2 f_equal; lia. Qed.
Lemma py_add_int a b : py_arith Add (PyInt a) (PyInt b) = Ok (PyInt (a + b)).
Proof. done. Qed.
Lemma accumulate_null func zs : agg_func func → _accumulate (state_for func zs) func true PyNone = Ok (state_for func zs).
Proof. by intros [->|[->|[->|[->| ->]]]]; unfold _accumulate, state_for; same_names; cbn. Qed.
Lemma accumulate_int func zs z : agg_func func → _accumulate (state_for func zs) func true (PyInt z) = Ok (state_for func (zs ++ [z])).
Proof.
  intros [->|[->|[->|[->| ->]]]]; unfold _accumulate, state_for; same_names; cbn [orb andb negb is_none].
  - by rewrite zlen_snoc.
  - rewrite zlen_snoc. destruct zs as [|y zs]; [by cbn; rewrite Z.add_0_r|]. 
    assert (py_arith Add (if py_truth (PyInt (total (y :: zs))) then PyInt (total (y :: zs)) else PyInt 0) (PyInt z) = Ok (PyInt (total ((y :: zs) ++ [z])))) as ->.
    { rewrite total_snoc. cbn [py_truth]. destruct (Z.eqb_spec (total (y :: zs)) 0) as [->|]; done. }
    done.
  - rewrite zlen_snoc. destruct zs as [|y zs]; [by cbn; rewrite Z.add_0_r|]. 
    assert (py_arith Add (if py_truth (PyInt (total (y :: zs))) then PyInt (total (y :: zs)) else PyInt 0) (PyInt z) = Ok (PyInt (total ((y :: zs) ++ [z])))) as ->.
    { rewrite total_snoc. cbn [py_truth]. destruct (Z.eqb_spec (total (y :: zs)) 0) as [->|]; done. }
    done.
  - destruct zs as [|y zs]; [done|]. cbn [or_first is_none]. unfold or_first. cbn [is_none]. rewrite py_min_int, bind_Ok. cbn [app]. by rewrite foldl_app.
  - destruct zs as [|y zs]; [done|]. unfold or_first. cbn [is_none]. rewrite py_max_int, bind_Ok. cbn [app]. by rewrite foldl_app.
Qed.
Lemma feed_ints func vs : agg_func func → forallb null_or_int vs = true → accumulate_list func _new_state vs = Ok (state_for func (ints vs)).
Proof.
  intros Hf. induction vs as [|x vs IH] using rev_ind; intros Hvs.
  - by destruct Hf as [->|[->|[->|[->| ->]]]]; unfold state_for; same_names.
  - rewrite forallb_app in Hvs. apply andb_prop in Hvs as [Hvs Hx]. cbn [forallb] in Hx. apply andb_prop in Hx as [Hx _].
    unfold accumulate_list. rewrite (fold_result_snoc _ _ _ _ _ (IH Hvs)), ints_snoc. destruct x; try done; [by rewrite app_nil_r; apply accumulate_null|by apply accumulate_int].
Qed.

(** C21: over values that are integers or NULL, COUNT is the number of
    integers, SUM, MIN and MAX are those of the integers, and AVG is the
    quotient of sum and count; without an integer they are NULL, and COUNT 0. *)
Theorem aggregate_values func vs : agg_func func → forallb null_or_int vs = true →
  ∃ st, accumulate_list func _new_state vs = Ok st ∧ _finalize st func = aggregate_of func (ints vs).
Proof.
  intros Hf Hvs. eexists. split; [by apply feed_ints|]. generalize (ints vs) as zs. intros zs.
  destruct Hf as [->|[->|[->|[->| ->]]]]; unfold _finalize, state_for, aggregate_of; same_names; cbn [orb ag_count ag_sum ag_min ag_max]; [done|..].
  - destruct zs as [|z zs]; [done|]. cbn [over]. destruct (Z.eqb_spec (zlen (z :: zs)) 0) as [Hz|]; [unfold zlen in Hz; cbn in Hz; lia|done].
  - destruct zs as [|z zs]; [done|]. cbn [over]. destruct (Z.eqb_spec (zlen (z :: zs)) 0) as [Hz|]; [unfold zlen in Hz; cbn in Hz; lia|].
    do 2 f_equal. unfold zlen. cbn [length]. lia.
  - by destruct zs.
  - by destruct zs.
Qed.
End Values.
