(* ===== verification/IndexSelect.v ===== *)
(** A WHERE clause answered from an index: the rows are those of the scan. *)
From S2P Require Import Prelude.
From S2P Require Import Bytes.
From S2P Require Import Utf8.
From S2P Require Import TypeSys.
From S2P Require Import Codec.
From S2P Require Import PyConv.
From S2P Require Import PyOrder.
From S2P Require Import PyDict.
From S2P Require Import Ast.
From S2P Require Import Heap.
From S2P Require Import Catalog.
From S2P Require Import EvalExpr.
From S2P Require Import Gen.
From S2P Require Import Plan.
From S2P Require Import IndexPlan.
From S2P Require Import Dml.
From S2P Require Import Planner.
From S2P Require Import IndexScan.
From S2P Require Import SortSpec.
From S2P Require Import ReadSpec.
From S2P Require Import SelectSpec.
From S2P Require Import AggSpec.
From S2P Require Import JoinSpec.
From S2P Require Import JoinIndex.
From Stdlib Require Import ZArith Lia.
Local Open Scope Z_scope.

(** * Comparisons of keys *)

Section Compare.
Context (K : pyval → Prop) `{SortKeys K}.
Definition cmp_keys (a b : pyval) : comparison := lex_compare (rank (K := K) a) (rank (K := K) b).
(** The truth of [x op y] for two keys *)
Definition op_holds (op : pystr) (x y : pyval) : bool :=
  if bool_decide (op = u "=") then bool_decide (cmp_keys x y = Eq)
  else if bool_decide (op = u "<") then bool_decide (cmp_keys x y = Lt)
  else if bool_decide (op = u "<=") then negb (bool_decide (cmp_keys x y = Gt))
  else if bool_decide (op = u ">") then bool_decide (cmp_keys x y = Gt)
  else negb (bool_decide (cmp_keys x y = Lt)).

Lemma cmp_keys_opp a b : cmp_keys b a = CompOpp (cmp_keys a b).
Proof. apply lex_compare_opp. Qed.
Lemma cmp_keys_eq a b : K a → K b → cmp_keys a b = Eq ↔ a = b.
Proof. intros Ha Hb. unfold cmp_keys. split; [intros He%lex_compare_eq; by apply rank_inj|intros ->; apply lex_compare_refl]. Qed.
Lemma py_lt_cmp a b : K a → K b → py_lt a b = Ok (bool_decide (cmp_keys a b = Lt)).
Proof. intros Ha Hb. unfold py_lt. rewrite (rank_compare a b Ha Hb), bind_Ok. unfold cmp_keys. by destruct (lex_compare _ _). Qed.
Lemma py_le_cmp a b : K a → K b → py_le a b = Ok (negb (bool_decide (cmp_keys a b = Gt))).
Proof. intros Ha Hb. unfold py_le. rewrite (rank_compare a b Ha Hb), bind_Ok. unfold cmp_keys. by destruct (lex_compare _ _). Qed.
Lemma py_gt_cmp a b : K a → K b → py_gt a b = Ok (bool_decide (cmp_keys a b = Gt)).
Proof. intros Ha Hb. unfold py_gt. rewrite py_lt_cmp, cmp_keys_opp by done. by destruct (cmp_keys a b). Qed.
Lemma py_ge_cmp a b : K a → K b → py_ge a b = Ok (negb (bool_decide (cmp_keys a b = Lt))).
Proof. intros Ha Hb. unfold py_ge. rewrite py_le_cmp, cmp_keys_opp by done. by destruct (cmp_keys a b). Qed.
Lemma eq_cmp a b : K a → K b → _eq a b = Ok (bool_decide (cmp_keys a b = Eq)).
Proof.
  intros Ha Hb. pose proof (sk_not_none _ Ha). pose proof (sk_not_none _ Hb).
  assert (_eq a b = py_eq_checked a b) as -> by (by destruct a, b).
  pose proof (sk_eq a b Ha Hb) as He. cbn [elt_eq] in He. rewrite He. f_equal. apply bool_decide_ext. rewrite cmp_keys_eq by done.
  split; [by apply rank_inj|by intros ->].
Qed.

(** * One comparison of a column with a literal *)

Definition indexable_op (op : pystr) : Prop := op = u "=" ∨ op = u "<" ∨ op = u "<=" ∨ op = u ">" ∨ op = u ">=".
Definition bound_expr (op c : pystr) (t : option pystr) (y : pyval) : expr := BinaryOp op (ColumnRef c t) (Literal y).
Lemma eval_bound `{ArithLib} meta r op c t y : clean_columns meta → full_row meta r → c ∈ meta_column_names meta → indexable_op op → K y →
  column_of meta r c = PyNone ∨ K (column_of meta r c) →
  selected (Some (bound_expr op c t y)) r (column_n2i meta) =
  Ok (match column_of meta r c with PyNone => false | x => op_holds op x y end).
Proof.
  intros Hc Hr Hin Hop Hy Hx. unfold selected, bound_expr. cbn [eval_expr]. destruct (column_cell meta r c Hc Hr Hin) as (i & Hi & Hcell).
  assert (eval_column c t r (column_n2i meta) = Ok (column_of meta r c)) as ->.
  { unfold eval_column. pose proof (qualified_absent meta (Some (Item (ColumnRef c t))) c Hc) as Hq. unfold qualified_slot in Hq. cbn [item_table] in Hq.
    rewrite Hq, Hi. cbn [of_option]. by rewrite bind_Ok. }
  unfold _eval_binary, op_holds.
  destruct Hx as [Hx|Hx].
  - rewrite Hx. pose proof (sk_not_none _ Hy). destruct Hop as [->|[->|[->|[->| ->]]]]; same_names; rewrite !bind_Ok; by destruct y.
  - pose proof (sk_not_none _ Hx). pose proof (sk_not_none _ Hy).
    destruct Hop as [->|[->|[->|[->| ->]]]]; same_names; rewrite !bind_Ok.
    + rewrite eq_cmp by done. by destruct (column_of meta r c).
    + rewrite py_lt_cmp by done. by destruct (column_of meta r c), y.
    + rewrite py_le_cmp by done. by destruct (column_of meta r c), y.
    + rewrite py_gt_cmp by done. by destruct (column_of meta r c), y.
    + rewrite py_ge_cmp by done. by destruct (column_of meta r c), y.
Qed.
End Compare.

(** * The conditions that an index answers *)

Section Forward.
Context `{ArithLib} (K : pyval → Prop) `{SortKeys K}.
Definition lower_op (op : pystr) : Prop := op = u ">" ∨ op = u ">=".
Definition upper_op (op : pystr) : Prop := op = u "<" ∨ op = u "<=".
(** An equality, a lower bound, or a lower and an upper bound on one column,
    which is written on the left: with the bound the planner extracts, and the
    test it stands for *)
Inductive forward (c : pystr) : expr → IndexablePredicate → (pyval → bool) → Prop :=
  | fw_eq t y : K y → forward c (bound_expr (u "=") c t y) (single c (u "=") y) (λ x, op_holds K (u "=") x y)
  | fw_lower op t y : lower_op op → K y → forward c (bound_expr op c t y) (single c op y) (λ x, op_holds K op x y)
  | fw_both op op' t t' y y' : lower_op op → upper_op op' → K y → K y' →
      forward c (BinaryOp (u "AND") (bound_expr op c t y) (bound_expr op' c t' y')) (mkPred c op y (Some op') y')
        (λ x, op_holds K op x y && op_holds K op' x y')
  | fw_both' op op' t t' y y' : lower_op op → upper_op op' → K y → K y' →
      forward c (BinaryOp (u "AND") (bound_expr op' c t' y') (bound_expr op c t y)) (mkPred c op y (Some op') y')
        (λ x, op_holds K op x y && op_holds K op' x y').

Lemma lower_indexable op : lower_op op → indexable_op op.
Proof. intros [->| ->]; unfold indexable_op; auto. Qed.
Lemma upper_indexable op : upper_op op → indexable_op op.
Proof. intros [->| ->]; unfold indexable_op; auto. Qed.
Lemma single_bound_run op c t y names : indexable_op op → K y → c ∈ names → _single_bound (bound_expr op c t y) names = Some (single c op y).
Proof.
  intros Hop Hy Hc. pose proof (sk_not_none _ Hy). unfold _single_bound, bound_expr, _split_col_lit, known_column, _is_literal.
  rewrite (bool_decide_true (c ∈ names)) by done.
  assert (is_none y = false) as -> by (by destruct y). destruct Hop as [->|[->|[->|[->| ->]]]]; by vm_compute.
Qed.
Lemma extract_bound op c t y names : indexable_op op → K y → c ∈ names → extract_indexable (bound_expr op c t y) names = Ok (Some (single c op y)).
Proof.
  intros Hop Hy Hc. rewrite <-(single_bound_run op c t y names) by done. unfold bound_expr. cbn [extract_indexable].
  rewrite bool_decide_false; [done|]. by destruct Hop as [->|[->|[->|[->| ->]]]].
Qed.
Lemma forward_extract c w p test names : forward c w p test → c ∈ names → extract_indexable w names = Ok (Some p).
Proof.
  intros [t y Hy|op t y Hop Hy|op op' t t' y y' Hop Hop' Hy Hy'|op op' t t' y y' Hop Hop' Hy Hy'] Hc.
  - apply extract_bound; [by left|done|done].
  - apply extract_bound; [by apply lower_indexable|done|done].
  - change (extract_indexable ?w ?n) with (l ← extract_indexable (bound_expr op c t y) n; r ← extract_indexable (bound_expr op' c t' y') n;
      match l, r with Some l, Some r => if bool_decide (l.(ip_column) = r.(ip_column)) then p ← _merge_same_column l r; Ok (Some p) else Ok None | _, _ => Ok None end).
    rewrite !extract_bound by auto using lower_indexable, upper_indexable. rewrite !bind_Ok. cbn [single ip_column]. rewrite bool_decide_true by done.
    by destruct Hop as [->| ->], Hop' as [->| ->].
  - change (extract_indexable ?w ?n) with (l ← extract_indexable (bound_expr op' c t' y') n; r ← extract_indexable (bound_expr op c t y) n;
      match l, r with Some l, Some r => if bool_decide (l.(ip_column) = r.(ip_column)) then p ← _merge_same_column l r; Ok (Some p) else Ok None | _, _ => Ok None end).
    rewrite !extract_bound by auto using lower_indexable, upper_indexable. rewrite !bind_Ok. cbn [single ip_column]. rewrite bool_decide_true by done.
    by destruct Hop as [->| ->], Hop' as [->| ->].
Qed.
Lemma eval_and meta r l r' bl br : selected (Some l) r (column_n2i meta) = Ok bl → selected (Some r') r (column_n2i meta) = Ok br →
  selected (Some (BinaryOp (u "AND") l r')) r (column_n2i meta) = Ok (bl && br).
Proof.
  unfold selected. cbn [eval_expr]. unfold _eval_binary, _truthy. rewrite (bool_decide_true (u "AND" = u "AND")) by done.
  destruct (eval_expr l r _) as [x|]; [|done]. rewrite !bind_Ok. intros [= Hl]. rewrite Hl. destruct bl; cbn [negb andb]; [done|].
  intros _. rewrite bind_Ok. by rewrite Hl.
Qed.
Lemma forward_selected c w p test meta r : forward c w p test → clean_columns meta → full_row meta r → c ∈ meta_column_names meta →
  column_of meta r c = PyNone ∨ K (column_of meta r c) →
  selected (Some w) r (column_n2i meta) = Ok (match column_of meta r c with PyNone => false | x => test x end).
Proof.
  intros Hw Hc Hr Hin Hx.
  destruct Hw as [t y Hy|op t y Hop Hy|op op' t t' y y' Hop Hop' Hy Hy'|op op' t t' y y' Hop Hop' Hy Hy'].
  - apply (eval_bound K); try done. by left.
  - apply (eval_bound K); try done. by apply lower_indexable.
  - rewrite (eval_and meta r _ _ _ _ (eval_bound K meta r op c t y Hc Hr Hin (lower_indexable _ Hop) Hy Hx)
      (eval_bound K meta r op' c t' y' Hc Hr Hin (upper_indexable _ Hop') Hy' Hx)). by destruct (column_of meta r c).
  - rewrite (eval_and meta r _ _ _ _ (eval_bound K meta r op' c t' y' Hc Hr Hin (upper_indexable _ Hop') Hy' Hx)
      (eval_bound K meta r op c t y Hc Hr Hin (lower_indexable _ Hop) Hy Hx)). destruct (column_of meta r c); [done|..]; by rewrite andb_comm.
Qed.
Lemma key_some y : K y → is_none y = false.
Proof. intros Hy. pose proof (sk_not_none _ Hy). by destruct y. Qed.
Lemma is_equality_keys y y' li hi_i : K y → K y' → is_equality y y' li hi_i = Ok (bool_decide (cmp_keys K y y' = Eq) && li && hi_i).
Proof.
  intros Hy Hy'. unfold is_equality. rewrite !key_some by done. cbn [orb].
  pose proof (eq_cmp K y y' Hy Hy') as He. pose proof (sk_not_none _ Hy). pose proof (sk_not_none _ Hy').
  assert (_eq y y' = py_eq_checked y y') as Heq by (by destruct y, y'). rewrite Heq in He. by rewrite He, bind_Ok.
Qed.
Lemma in_bounds_keys lo hi li hi_i x : K lo → K hi → K x → in_bounds lo hi li hi_i x =
  Ok ((if hi_i then negb (bool_decide (cmp_keys K x hi = Gt)) else bool_decide (cmp_keys K x hi = Lt)) &&
      (if li then negb (bool_decide (cmp_keys K x lo = Lt)) else bool_decide (cmp_keys K x lo = Gt))).
Proof.
  intros Hlo Hhi Hx. unfold in_bounds, _is_past_hi, _passes_lo. rewrite !key_some by done.
  assert ((if hi_i then py_gt x hi else py_ge x hi) = Ok (if hi_i then bool_decide (cmp_keys K x hi = Gt) else negb (bool_decide (cmp_keys K x hi = Lt)))) as ->
    by (destruct hi_i; [by apply py_gt_cmp|by apply py_ge_cmp]).
  rewrite bind_Ok. assert ((if li then py_ge x lo else py_gt x lo) = Ok (if li then negb (bool_decide (cmp_keys K x lo = Lt)) else bool_decide (cmp_keys K x lo = Gt))) as ->
    by (destruct li; [by apply py_ge_cmp|by apply py_gt_cmp]).
  by destruct hi_i, (cmp_keys K x hi).
Qed.
Lemma both_bounds c op op' y y' meta m : lower_op op → upper_op op' → K y → K y' → ∃ lo hi li hi_i eq,
  index_scan_of meta m (mkPred c op y (Some op') y') = IndexScan meta.(tm_name) m.(im_name) lo hi li hi_i ∧ K lo ∧ (hi = PyNone ∨ K hi) ∧
  is_equality lo hi li hi_i = Ok eq ∧
  ∀ x, K x → if eq : bool then (op_holds K op x y && op_holds K op' x y') = bool_decide (cmp_keys K x lo = Eq)
             else in_bounds lo hi li hi_i x = Ok (op_holds K op x y && op_holds K op' x y').
Proof.
  intros Hop Hop' Hy Hy'.
  assert (∃ li hi_i, index_scan_of meta m (mkPred c op y (Some op') y') = IndexScan meta.(tm_name) m.(im_name) y y' li hi_i ∧
    li = bool_decide (op = u ">=") ∧ hi_i = bool_decide (op' = u "<=")) as (li & hi_i & Hs & Hli & Hhi).
  { destruct Hop as [->| ->], Hop' as [->| ->]; by eexists _, _. }
  exists y, y', li, hi_i, (bool_decide (cmp_keys K y y' = Eq) && li && hi_i).
  split_and!; [done|done|by right|by apply is_equality_keys|]. intros x Hx. rewrite in_bounds_keys by done.
  assert (bool_decide (cmp_keys K y y' = Eq) = true → y = y') as Hyy by (intros He%bool_decide_eq_true; by apply (cmp_keys_eq K)).
  destruct (bool_decide (cmp_keys K y y' = Eq) && li && hi_i) eqn:E.
  - apply andb_prop in E as [[He Hl]%andb_prop Hh]. specialize (Hyy He). subst y'. rewrite Hl in Hli. rewrite Hh in Hhi.
    destruct Hop as [->| ->], Hop' as [->| ->]; try done. unfold op_holds. same_names. by destruct (cmp_keys K x y).
  - rewrite Hli, Hhi. destruct Hop as [->| ->], Hop' as [->| ->]; unfold op_holds; same_names; f_equal; apply andb_comm.
Qed.
(** The bounds of the scan stand for the test *)
Lemma forward_bounds c w p test meta m : forward c w p test → ∃ lo hi li hi_i eq,
  index_scan_of meta m p = IndexScan meta.(tm_name) m.(im_name) lo hi li hi_i ∧ K lo ∧ (hi = PyNone ∨ K hi) ∧ is_equality lo hi li hi_i = Ok eq ∧
  ∀ x, K x → if eq : bool then test x = bool_decide (cmp_keys K x lo = Eq) else in_bounds lo hi li hi_i x = Ok (test x).
Proof.
  intros [t y Hy|op t y Hop Hy|op op' t t' y y' Hop Hop' Hy Hy'|op op' t t' y y' Hop Hop' Hy Hy'].
  - exists y, y, true, true, true. split_and!; [done|done|by right| |done]. rewrite is_equality_keys by done. by rewrite (bool_decide_true (cmp_keys K y y = Eq)) by by apply cmp_keys_eq.
  - destruct Hop as [->| ->].
    + exists y, PyNone, false, true, false. split_and!; [done|done|by left| |]; [unfold is_equality; by rewrite orb_true_r|].
      intros x Hx. unfold in_bounds, _is_past_hi, _passes_lo. cbn [is_none]. rewrite bind_Ok, (key_some y), (py_gt_cmp K) by done. done.
    + exists y, PyNone, true, true, false. split_and!; [done|done|by left| |]; [unfold is_equality; by rewrite orb_true_r|].
      intros x Hx. unfold in_bounds, _is_past_hi, _passes_lo. cbn [is_none]. rewrite bind_Ok, (key_some y), (py_ge_cmp K) by done. done.
  - by apply both_bounds.
  - by apply both_bounds.
Qed.

(** * The scan *)

Context {St : Type} `{RangeLaws St shows}.
Implicit Types (s : St) (v : view).
Definition passes (meta : TableMeta) (c : pystr) (test : pyval → bool) (e : Rid * row) : bool :=
  match column_of meta e.2 c with PyNone => false | x => test x end.
Lemma read_rids n s v meta es rids : shows n s v → v meta.(tm_name) = Some (meta, es) → (∀ rid, rid ∈ rids → ∃ r, (rid, r) ∈ es) →
  ∃ rs, for_list rids (λ rid, g_with (xo_read meta rid) (λ blob,
        match blob with
        | None => g_nil
        | Some blob => g_with (lift (decode_row blob (tags_of meta))) yield
        end)) s = (rs, None, s) ∧ Forall2 (λ rid r, (rid, r) ∈ es) rids rs.
Proof.
  intros Hs Hv. induction rids as [|rid rids IH]; intros Hr; [by exists []|]. destruct IH as (rs & Hf & Hrs); [intros; apply Hr; by right|].
  destruct (Hr rid ltac:(by left)) as (r & Hin). destruct (rl_read _ _ _ _ _ _ _ _ Hs Hv Hin) as (blob & Hb & Hd).
  exists (r :: rs). split; [|by constructor]. cbn [for_list]. rewrite (g_app_Ok _ _ s [r] s); [by rewrite Hf|].
  rewrite (g_with_Ok _ _ _ _ _ Hb). by rewrite Hd.
Qed.
Lemma filter_outcome_all {A} (f : A → result bool) xs : (∀ x, x ∈ xs → f x = Ok true) → pipe (filter_step f) (xs, None) = (xs, None).
Proof.
  intros Hf. unfold pipe. cbn [fst snd]. assert (for_pure (filter_step f) xs = (xs, None)) as ->; [|done].
  induction xs as [|x xs IH]; [done|]. cbn [for_pure]. unfold filter_step at 1. rewrite (Hf x) by (by left). rewrite bind_Ok.
  by rewrite IH by (intros; apply Hf; by right).
Qed.

End Forward.
