(* ===== verification/MemDb.v ===== *)
(** A storage for plans that keeps the encoded rows in lists: the interface of
    the executor can be implemented, and examples of plans can be run. *)
From S2P Require Import Prelude.
From S2P Require Import Bytes.
From S2P Require Import Utf8.
From S2P Require Import TypeSys.
From S2P Require Import Codec.
From S2P Require Import PyConv.
From S2P Require Import PyOrder.
From S2P Require Import PyDict.
From S2P Require Import Ast.
From S2P Require Import Heap.
From S2P Require Import Catalog.
From S2P Require Import EvalExpr.
From S2P Require Import Gen.
From S2P Require Import Plan.
From S2P Require Import Dml.
From S2P Require Import IndexScan.
From S2P Require Import SortSpec.
From S2P Require Import ReadSpec.
From S2P Require Import Planner.
From S2P Require Import SelectSpec.
From S2P Require Import JoinIndex.
From S2P Require Import IndexSelect.
From Stdlib Require Import ZArith Lia.
Local Open Scope Z_scope.

Record MemDb := mkMem {
  mm_tables : list (pystr * (TableMeta * list (Rid * bytes)));
  mm_indexes : option (list IndexMeta);
}.

Section MemDb.
Context `{JsonLib}.

Definition mem_table (t : pystr) (s : MemDb) : result (TableMeta * list (Rid * bytes)) := of_option KeyError (dget t s.(mm_tables)).
Definition mem_blobs (t : pystr) (s : MemDb) : list (Rid * bytes) := match dget t s.(mm_tables) with Some (_, bs) => bs | None => [] end.
Definition set_blobs (t : pystr) (f : list (Rid * bytes) → list (Rid * bytes)) (s : MemDb) : MemDb :=
  match dget t s.(mm_tables) with
  | Some (meta, bs) => mkMem (dset t (meta, f bs) s.(mm_tables)) s.(mm_indexes)
  | None => s
  end.
Definition next_rid (bs : list (Rid * bytes)) : Rid := mkRid 4 (foldr Z.max (-1) (map (λ b, slot_id b.1) bs) + 1).
Definition mem_index (name : pystr) (s : MemDb) : option IndexMeta :=
  snd <$> list_find (λ m, m.(im_name) = name) (default [] s.(mm_indexes)).
(** The rids of the rows whose indexed column passes a test *)
Definition mem_hit (meta : TableMeta) (c : pystr) (test : pyval → result bool) (b : Rid * bytes) : result (list Rid) :=
  r ← decode_row b.2 (tags_of meta);
  i ← of_option KeyError (dget c (column_n2i meta));
  v ← cell r i;
  if is_none v then Ok [] else t ← test v; Ok (if t : bool then [b.1] else []).
Definition mem_lookup (name : pystr) (test : pyval → result bool) (s : MemDb) : result (list Rid) :=
  m ← of_option KeyError (mem_index name s);
  '(meta, bs) ← mem_table m.(im_table) s;
  c ← of_option IndexError (head m.(im_columns));
  concat (A:=Rid) <$> mapR (mem_hit meta c test) bs.
Definition mem_gen (name : pystr) (test : pyval → result bool) : gen MemDb Rid := of_list (s ← get; lift (mem_lookup name test s)).

#[global] Instance Mem_ops : ExecOps MemDb := {|
  xo_get_table t := s ← get; lift (fst <$> mem_table t s);
  xo_heap_for _ := mret ();
  xo_bind_heap t := s ← get; lift (mem_table t s);; mret ();
  xo_scan meta := gets (λ s, map fst (mem_blobs meta.(tm_name) s));
  xo_read meta rid := gets (λ s, dget rid (mem_blobs meta.(tm_name) s));
  xo_insert meta blob := s ← get;
    let rid := next_rid (mem_blobs meta.(tm_name) s) in
    put (set_blobs meta.(tm_name) (λ bs, bs ++ [(rid, blob)]) s);; mret rid;
  xo_delete meta rid := modify (set_blobs meta.(tm_name) (ddel rid));
  xo_indexes s := s.(mm_indexes);
  xo_has_index name s := bool_decide (is_Some (mem_index name s));
  xo_equality name v := mem_gen name (λ x, Ok (py_eq x v));
  xo_range name lo hi lo_inclusive hi_inclusive := mem_gen name (λ x,
    past ← _is_past_hi x hi hi_inclusive; if past : bool then Ok false else _passes_lo x lo lo_inclusive);
  xo_check_unique _ _ := mret ();
  xo_on_insert _ _ _ := mret ();
  xo_on_delete _ _ _ := mret ();
|}.

(** The tables that the lists hold *)
Definition mem_shows (n : nat) (s : MemDb) (v : view) : Prop :=
  NoDup (map im_name (default [] s.(mm_indexes))) ∧
  ∀ t, match dget t s.(mm_tables), v t with
       | Some (meta, bs), Some (meta', es) =>
           meta = meta' ∧ meta.(tm_name) = t ∧ NoDup (map fst bs) ∧
           Forall2 (λ (b : Rid * bytes) (e : Rid * row), b.1 = e.1 ∧ decode_row b.2 (tags_of meta) = Ok e.2) bs es
       | None, None => True
       | _, _ => False
       end.
Lemma mem_shows_table n s v t meta es : mem_shows n s v → v t = Some (meta, es) →
  ∃ bs, dget t s.(mm_tables) = Some (meta, bs) ∧ meta.(tm_name) = t ∧ NoDup (map fst bs) ∧
    Forall2 (λ (b : Rid * bytes) (e : Rid * row), b.1 = e.1 ∧ decode_row b.2 (tags_of meta) = Ok e.2) bs es.
Proof.
  intros [_ Hs] Hv. specialize (Hs t). rewrite Hv in Hs. destruct (dget t s.(mm_tables)) as [[m bs]|]; [|done].
  destruct Hs as (-> & Hn & Hnd & Hf). by exists bs.
Qed.
#[global, refine] Instance Mem_reads : ReadLaws MemDb mem_shows := { rl_bound _ _ := True }.
Proof.
  - done.
  - intros n s v t [_ Hs]. cbn. unfold mbind, M_bind, get, lift, mem_table. f_equal. specialize (Hs t).
    destruct (dget t s.(mm_tables)) as [[m bs]|], (v t) as [[m' es]|]; try done. by destruct Hs as [-> _].
  - intros n s v t meta es Hs Hv. by destruct (mem_shows_table _ _ _ _ _ _ Hs Hv) as (bs & _ & ? & _).
  - intros n s v t meta es Hs _. by exists s.
  - done.
  - intros n s v t meta es Hs Hv. destruct (mem_shows_table _ _ _ _ _ _ Hs Hv) as (bs & _ & _ & Hnd & Hf).
    assert (map fst es = map fst bs) as ->; [|done]. clear -Hf. induction Hf as [|b e bs es [Hbe _] _ IH]; [done|]. cbn. by rewrite Hbe, IH.
  - intros n s v t meta es Hs Hv. destruct (mem_shows_table _ _ _ _ _ _ Hs Hv) as (bs & Hd & <- & _ & Hf). cbn. unfold gets, mem_blobs.
    rewrite Hd. do 2 f_equal. clear -Hf. induction Hf as [|b e bs es [Hbe _] _ IH]; [done|]. cbn. by rewrite Hbe, IH.
  - intros n s v t meta es rid r Hs Hv Hin. destruct (mem_shows_table _ _ _ _ _ _ Hs Hv) as (bs & Hd & <- & Hnd & Hf).
    apply list_elem_of_lookup in Hin as [i Hi]. destruct (Forall2_lookup_r _ _ _ _ _ Hf Hi) as ([rid' blob] & Hb & Hr & Hdec). cbn in Hr, Hdec. subst rid'.
    exists blob. split; [|done]. cbn. unfold gets, mem_blobs. rewrite Hd. do 2 f_equal. apply dget_elem; [done|]. by eapply list_elem_of_lookup_2.
Defined.

Lemma mem_index_run s m : NoDup (map im_name (default [] s.(mm_indexes))) → m ∈ default [] s.(mm_indexes) → mem_index m.(im_name) s = Some m.
Proof.
  unfold mem_index. intros Hnd Hm. destruct (list_find _ _) as [[i m']|] eqn:E.
  - apply list_find_Some in E as (Hi & Hn & _). cbn. f_equal. apply list_elem_of_lookup in Hm as [j Hj].
    assert (i = j) as ->; [|congruence]. apply (NoDup_lookup (map im_name (default [] s.(mm_indexes))) i j m.(im_name)); [done|..];
      rewrite list_lookup_fmap; [by rewrite Hi; cbn; rewrite Hn|by rewrite Hj].
  - apply list_find_None in E. rewrite Forall_forall in E. by destruct (E m Hm).
Qed.
Definition selects (meta : TableMeta) (c : pystr) (b : Rid * row → bool) (e : Rid * row) : bool :=
  negb (is_none (column_of meta e.2 c)) && b e.
Lemma mem_hit_run meta c test b (b0 : Rid * bytes) (e : Rid * row) : clean_columns meta → c ∈ meta_column_names meta →
  b0.1 = e.1 → decode_row b0.2 (tags_of meta) = Ok e.2 → (column_of meta e.2 c = PyNone ∨ test (column_of meta e.2 c) = Ok (b e)) →
  mem_hit meta c test b0 = Ok (if selects meta c b e then [e.1] else []).
Proof.
  intros Hclean Hc He Hdec Htest. unfold mem_hit. rewrite Hdec, bind_Ok.
  assert (full_row meta e.2) as Hfull by (apply decode_row_length in Hdec; unfold full_row; rewrite Hdec; unfold tags_of; by rewrite length_map).
  destruct (column_cell meta e.2 c Hclean Hfull Hc) as (i & Hi & Hcell). rewrite Hi. cbn [of_option]. rewrite bind_Ok, Hcell, bind_Ok.
  unfold selects. destruct Htest as [Hx|Hx].
  - by rewrite Hx.
  - rewrite Hx. destruct (is_none (column_of meta e.2 c)); cbn [negb andb]; [done|]. rewrite bind_Ok, He. by destruct (b e).
Qed.
Lemma mem_lookup_run n s v m meta es c test b : mem_shows n s v → m ∈ default [] s.(mm_indexes) → v m.(im_table) = Some (meta, es) →
  m.(im_columns) = [c] → c ∈ meta_column_names meta → clean_columns meta →
  (∀ e, e ∈ es → column_of meta e.2 c = PyNone ∨ test (column_of meta e.2 c) = Ok (b e)) →
  mem_lookup m.(im_name) test s = Ok (map fst (filter (λ e, selects meta c b e = true) es)).
Proof.
  intros Hs Hm Hv Hcols Hc Hclean Htest. destruct (mem_shows_table _ _ _ _ _ _ Hs Hv) as (bs & Hd & Hn & _ & Hf).
  unfold mem_lookup. rewrite (mem_index_run s m (proj1 Hs) Hm). cbn [of_option]. rewrite bind_Ok. unfold mem_table. rewrite Hd. cbn [of_option].
  rewrite bind_Ok, Hcols. cbn [head of_option]. rewrite bind_Ok.
  assert (mapR (mem_hit meta c test) bs = Ok (map (λ e, if selects meta c b e then [e.1] else []) es)) as ->.
  { clear Hd Hv. induction Hf as [|b0 e bs es [He Hdec] Hf IH]; [done|]. cbn [mapR map].
    rewrite (mem_hit_run meta c test b b0 e) by (done || apply Htest; by left). rewrite bind_Ok, IH; [done|].
    intros; apply Htest; by right. }
  cbn [fmap result_fmap]. f_equal. clear. induction es as [|e es IH]; [done|]. cbn [map concat]. rewrite filter_cons, IH.
  destruct (selects meta c b e); [by rewrite decide_True|by rewrite decide_False].
Qed.
Lemma mem_gen_run n s v m meta es c test b : mem_shows n s v → s.(mm_indexes) = Some (default [] s.(mm_indexes)) → m ∈ default [] s.(mm_indexes) → v m.(im_table) = Some (meta, es) →
  m.(im_columns) = [c] → c ∈ meta_column_names meta → clean_columns meta →
  (∀ e, e ∈ es → column_of meta e.2 c = PyNone ∨ test (column_of meta e.2 c) = Ok (b e)) →
  ∃ rids s', mem_gen m.(im_name) test s = (rids, None, s') ∧ (∀ k w, mem_shows k s w → mem_shows k s' w) ∧
    xo_indexes s' = xo_indexes s ∧ (∀ b : TableMeta, True → True) ∧ NoDup rids ∧
    ∀ rid, rid ∈ rids ↔ ∃ r, (rid, r) ∈ es ∧ selects meta c b (rid, r) = true.
Proof.
  intros Hs _ Hm Hv Hcols Hc Hclean Htest. exists (map fst (filter (λ e, selects meta c b e = true) es)), s.
  split_and!; [|done|done|done| |].
  - unfold mem_gen, of_list. etransitivity; [eapply g_with_Ok|done].
    unfold mbind, M_bind, get, lift. by rewrite (mem_lookup_run n s v m meta es c test b).
  - pose proof (rl_nodup _ _ _ _ _ _ Hs Hv) as Hnd. apply (sublist_NoDup _ (map fst es)); [done|]. apply fmap_sublist, sublist_filter.
  - intros rid. rewrite list_elem_of_fmap. setoid_rewrite list_elem_of_filter. split.
    + intros ([rid' r] & -> & Hsel & Hin). by exists r.
    + intros (r & Hin & Hsel). by exists (rid, r).
Qed.
#[global] Instance Mem_lookups : LookupLaws MemDb.
Proof.
  split.
  - intros s ms m Hms Hm. cbn. apply bool_decide_eq_true. unfold mem_index. cbn in Hms. rewrite Hms. cbn [default].
    destruct (list_find _ _) as [[i m']|] eqn:E; [by eexists|]. apply list_find_None in E. rewrite Forall_forall in E. by destruct (E m Hm).
  - intros K HO HK n s v ms m meta es c key Hs Hms Hm Hv Hcols Hc Hclean Htyped Hkey. cbn in Hms. rewrite Forall_forall in Htyped.
    assert (∀ x, K x → py_eq x key = bool_decide (rank (K := K) x = rank (K := K) key)) as Heq.
    { intros x Hx. pose proof (sk_eq x key Hx Hkey) as He. cbn [elt_eq] in He. unfold py_eq_checked in He. destruct (_ || _); [done|]. by injection He. }
    destruct (mem_gen_run n s v m meta es c (λ x, Ok (py_eq x key)) (λ e, py_eq (column_of meta e.2 c) key)) as (rids & s' & H1 & H2 & H3 & H4 & H5 & H6);
      try done; [by rewrite Hms|by rewrite Hms|by right|].
    exists rids, s'. split_and!; try done. intros rid. rewrite H6. unfold selects. cbn [snd].
    split; intros (r & Hin & Hr); exists r; (split; [done|]); destruct (Htyped _ Hin) as [Hx|Hx]; cbn [snd] in Hx.
    + by rewrite Hx in Hr.
    + apply andb_prop in Hr as [_ Hr]. rewrite Heq in Hr by done. apply bool_decide_eq_true in Hr. by apply rank_inj in Hr.
    + rewrite Hr in Hx. subst key. by apply sk_not_none in Hkey.
    + pose proof (sk_not_none _ Hx). rewrite Heq, bool_decide_true by (done || by rewrite Hr).
      by destruct (column_of meta r c).
Qed.
#[global] Instance Mem_ranges : RangeLaws MemDb.
Proof.
  split. intros K HO HK n s v ms m meta es c lo hi li hi_i Hs Hms Hm Hv Hcols Hc Hclean Htyped Hlo Hhi. cbn in Hms. rewrite Forall_forall in Htyped.
  assert (∀ x, K x → ∃ b, in_bounds lo hi li hi_i x = Ok b) as Hb.
  { intros x Hx. destruct Hhi as [->|Hhi]; [|eexists; by apply (in_bounds_keys K)]. unfold in_bounds, _is_past_hi, _passes_lo. cbn [is_none].
    rewrite bind_Ok, (key_some K lo) by done. destruct li; eexists; [by apply (py_ge_cmp K)|by apply (py_gt_cmp K)]. }
  destruct (mem_gen_run n s v m meta es c (in_bounds lo hi li hi_i) (λ e, match in_bounds lo hi li hi_i (column_of meta e.2 c) with Ok b => b | Err _ => false end))
    as (rids & s' & H1 & H2 & H3 & H4 & H5 & H6); try done; [by rewrite Hms|by rewrite Hms| |].
  { intros e He. destruct (Htyped e He) as [Hx|Hx]; [by left|right]. by destruct (Hb _ Hx) as [b ->]. }
  exists rids, s'. split_and!; try done. intros rid. rewrite H6. unfold selects. cbn [snd].
  split; intros (r & Hin & Hr); exists r; (split; [done|]); destruct (Htyped _ Hin) as [Hx|Hx]; cbn [snd] in Hx.
  - by rewrite Hx in Hr.
  - apply andb_prop in Hr as [_ Hr]. destruct (Hb _ Hx) as [b Hbx]. rewrite Hbx in Hr |- *. rewrite Hr. split; [by apply sk_not_none|done].
  - rewrite Hx in Hr. by destruct Hr.
  - destruct Hr as [Hne Hr]. rewrite Hr. by destruct (column_of meta r c).
Qed.
End MemDb.
