(* ===== verification/DmlSpec.v ===== *)
(** INSERT, UPDATE and DELETE: what the plans that write do to the rows of a
    table, errors in the middle included. *)
From S2P Require Import Prelude.
From S2P Require Import Bytes.
From S2P Require Import Utf8.
From S2P Require Import TypeSys.
From S2P Require Import Codec.
From S2P Require Import Coerce.
From S2P Require Import PyConv.
From S2P Require Import PyOrder.
From S2P Require Import PyDict.
From S2P Require Import Ast.
From S2P Require Import Heap.
From S2P Require Import Catalog.
From S2P Require Import EvalExpr.
From S2P Require Import Gen.
From S2P Require Import Plan.
From S2P Require Import Dml.
From S2P Require Import ReadSpec.
From Stdlib Require Import ZArith Lia.
Local Open Scope Z_scope.

(** * What storing a row means *)

Section Stored.
Context `{JsonLib}.
(** The row that a scan reads back *)
Definition stored_row (meta : TableMeta) (r : row) : result row :=
  blob ← encode_row_coerced r (tags_of meta); decode_row blob (tags_of meta).
(** If the row can be encoded, its record fits on a page and can be decoded. *)
Definition storable (meta : TableMeta) (r : row) : Prop :=
  ∀ blob, encode_row_coerced r (tags_of meta) = Ok blob →
    blob ≠ [] ∧ zlen blob <= MAX_RECORD ∧ ∃ r', decode_row blob (tags_of meta) = Ok r'.
Lemma stored_Ok meta r blob : storable meta r → encode_row_coerced r (tags_of meta) = Ok blob →
  ∃ r', stored_row meta r = Ok r' ∧ decode_row blob (tags_of meta) = Ok r' ∧ blob ≠ [] ∧ zlen blob <= MAX_RECORD.
Proof. intros Hr Hb. destruct (Hr blob Hb) as (? & ? & r' & Hd). exists r'. unfold stored_row. by rewrite Hb. Qed.
Lemma stored_Err meta r e : encode_row_coerced r (tags_of meta) = Err e → stored_row meta r = Err e.
Proof. unfold stored_row. by intros ->. Qed.
End Stored.

(** The view with another content of the table [t] *)
Record becomes (t : pystr) (v v' : view) (x : table) : Prop := {
  bc_here : v' t = Some x;
  bc_there t' : t' ≠ t → v' t' = v t';
}.
Lemma becomes_same t v x : v t = Some x → becomes t v v x.
Proof. done. Qed.
Lemma becomes_then t v1 v2 v3 x y : becomes t v1 v2 x → becomes t v2 v3 y → becomes t v1 v3 y.
Proof. intros [_ H1] [H2 H3]. split; [done|]. intros t' Ht. by rewrite H3, H1. Qed.

Definition view_set (t : pystr) (x : table) (v : view) : view := λ t', if decide (t' = t) then Some x else v t'.
Lemma view_set_becomes t x v : becomes t v (view_set t x v) x.
Proof. split; unfold view_set; [by rewrite decide_True|]. intros t' Ht. by rewrite decide_False. Qed.

(** No index is on the table. *)
Definition plain (t : pystr) (indexes : option (list IndexMeta)) : Prop :=
  ∀ metas m, indexes = Some metas → m ∈ metas → m.(im_table) ≠ t.
(** The writes of the storage, to a table without an index.  Each uses up some
    of the room that [shows] counts; the indexes stay what they are. *)
Class WriteLaws (St : Type) `{ReadLaws St shows} := {
  wl_bind n s v t x : shows (S n) s v → plain t (xo_indexes s) → v t = Some x →
    ∃ s', xo_bind_heap t s = (Ok (), s') ∧ shows n s' v ∧ xo_indexes s' = xo_indexes s;
  wl_check n s v t x r : shows n s v → plain t (xo_indexes s) → v t = Some x → xo_check_unique t r s = (Ok (), s);
  wl_on_insert n s v t x rid r : shows n s v → plain t (xo_indexes s) → v t = Some x → xo_on_insert t rid r s = (Ok (), s);
  wl_on_delete n s v t x rid r : shows n s v → plain t (xo_indexes s) → v t = Some x → xo_on_delete t rid r s = (Ok (), s);
  wl_insert n s v t meta es blob r : shows (S n) s v → plain t (xo_indexes s) → v t = Some (meta, es) →
    blob ≠ [] → zlen blob <= MAX_RECORD → decode_row blob (tags_of meta) = Ok r →
    ∃ rid s' v' es', xo_insert meta blob s = (Ok rid, s') ∧ shows n s' v' ∧ xo_indexes s' = xo_indexes s ∧
      becomes t v v' (meta, es') ∧ es' ≡ₚ (rid, r) :: es;
  wl_delete n s v t meta es rid : shows (S n) s v → plain t (xo_indexes s) → v t = Some (meta, es) → rid ∈ map fst es →
    ∃ s' v' es', xo_delete meta rid s = (Ok (), s') ∧ shows n s' v' ∧ xo_indexes s' = xo_indexes s ∧
      becomes t v v' (meta, es') ∧ es' ≡ₚ filter (λ e : Rid * row, e.1 ≠ rid) es;
}.

(** * The rows after a statement *)

Section Effect.
Context `{JsonLib} `{ArithLib}.
Implicit Types (meta : TableMeta) (rs : list row).
(** Rows are stored up to the first that cannot be encoded. *)
Fixpoint store_all meta rs : list row * option exn :=
  match rs with
  | [] => ([], None)
  | r :: rs => match stored_row meta r with Err e => ([], Some e) | Ok r' => let '(out, e) := store_all meta rs in (r' :: out, e) end
  end.
Definition counted (n : Z) (e : option exn) : result Z := match e with None => Ok n | Some e => Err e end.
(** Nothing is stored unless every row has a value for each column and none for
    a NOT NULL column is NULL. *)
Definition insert_effect meta rs (values : list row) : result Z * list row :=
  match prepare meta (column_n2i meta) values with
  | Err e => (Err e, rs)
  | Ok _ => let '(out, e) := store_all meta values in (counted (zlen values) e, rs ++ out)
  end.
(** The selected rows go, up to the first on which the condition fails. *)
Fixpoint delete_effect meta (predicate : option expr) rs : result Z * list row :=
  match rs with
  | [] => (Ok 0, [])
  | r :: rs =>
      match selected predicate r (column_n2i meta) with
      | Err e => (Err e, r :: rs)
      | Ok b => let '(n, out) := delete_effect meta predicate rs in
                if b : bool then (Z.succ <$> n, out) else (n, r :: out)
      end
  end.
(** The new values of a selected row, checked *)
Definition new_values meta (assignments : list (pystr * expr)) (r : row) : result row :=
  r' ← assign assignments (column_n2i meta) r r;
  _assert_not_null r' meta.(tm_columns) (column_n2i meta);;
  Ok r'.
(** A new row that cannot be encoded ends the statement, and the old one is
    gone. *)
Fixpoint update_effect meta (assignments : list (pystr * expr)) (predicate : option expr) rs : result Z * list row :=
  match rs with
  | [] => (Ok 0, [])
  | r :: rs =>
      match selected predicate r (column_n2i meta) with
      | Err e => (Err e, r :: rs)
      | Ok false => let '(n, out) := update_effect meta assignments predicate rs in (n, r :: out)
      | Ok true =>
          match new_values meta assignments r with
          | Err e => (Err e, r :: rs)
          | Ok new =>
              match stored_row meta new with
              | Err e => (Err e, rs)
              | Ok r' => let '(n, out) := update_effect meta assignments predicate rs in (Z.succ <$> n, r' :: out)
              end
          end
      end
  end.
Definition dml_effect meta rs (p : dml_plan) : result Z * list row :=
  match p with
  | InsertPlan _ values => insert_effect meta rs values
  | UpdatePlan _ assignments predicate => update_effect meta assignments predicate rs
  | DeletePlan _ predicate => delete_effect meta predicate rs
  end.
Definition dml_table (p : dml_plan) : pystr :=
  match p with InsertPlan t _ | UpdatePlan t _ _ | DeletePlan t _ => t end.
(** The writes at most *)
Definition dml_writes rs (p : dml_plan) : nat :=
  match p with InsertPlan _ values => length values | UpdatePlan _ _ _ => 2 * length rs | DeletePlan _ _ => length rs end.
(** The rows that the statement may store *)
Definition dml_storable meta rs (p : dml_plan) : Prop :=
  match p with
  | InsertPlan _ values => Forall (storable meta) values
  | UpdatePlan _ assignments _ => Forall (λ r, ∀ new, new_values meta assignments r = Ok new → storable meta new) rs
  | DeletePlan _ _ => True
  end.
End Effect.

(** * The statements *)

Section Run.
Context {St : Type} `{WriteLaws St shows} `{ArithLib}.
Implicit Types (s : St) (v : view) (meta : TableMeta) (es : list (Rid * row)).

Section Holds.
(** The indexes, none on the table *)
Context (t : pystr) (I : option (list IndexMeta)) (HI : plain t I).
(** The state still shows the tables, with [x] for [t] *)
Definition holds (n : nat) v (x : table) s : Prop :=
  ∃ v', shows n s v' ∧ xo_indexes s = I ∧ becomes t v v' x.
Lemma plain_here s : xo_indexes s = I → plain t (xo_indexes s).
Proof. by intros ->. Qed.

Lemma shows_less n k s v : shows (k + n) s v → shows n s v.
Proof. induction k as [|k IH]; [done|]. intros Hs. by apply IH, rl_less. Qed.
Lemma holds_less n k v x s : holds (k + n) v x s → holds n v x s.
Proof. intros (v' & Hs & Hp & Hb). exists v'. split; [by eapply shows_less|done]. Qed.
Lemma when_plain (m : M St unit) s : m s = (Ok (), s) → when_indexer m s = (Ok (), s).
Proof. unfold when_indexer. intros Hm. by destruct (xo_indexes s). Qed.

Lemma bind_run n v x s : shows (S n) s v → xo_indexes s = I → v t = Some x →
  ∃ s', _dml_context t s = (Ok (x.1, tags_of x.1, column_n2i x.1), s') ∧ holds n v x s'.
Proof.
  intros Hs Hp Hv. destruct x as [meta es]. unfold _dml_context. rewrite (run_Ok _ _ _ _ _ (get_table_run _ _ _ _ _ _ Hs Hv)).
  destruct (wl_bind _ _ _ _ _ Hs (plain_here _ Hp) Hv) as (s' & Hb & Hs' & Hp'). rewrite Hp in Hp'. rewrite (run_Ok _ _ _ _ _ Hb). exists s'. split; [done|].
  by exists v.
Qed.

Lemma insert_row_run n v meta es r s : holds (S n) v (meta, es) s → storable meta r →
  match stored_row meta r with
  | Err e => insert_row t meta (tags_of meta) r s = (Err e, s)
  | Ok r' => ∃ s' es', insert_row t meta (tags_of meta) r s = (Ok true, s') ∧ holds n v (meta, es') s' ∧ ∃ rid, es' ≡ₚ (rid, r') :: es
  end.
Proof.
  intros (v1 & Hs & Hp & Hb) Hr. unfold insert_row. destruct (encode_row_coerced r (tags_of meta)) as [blob|e] eqn:He.
  2: { by rewrite (stored_Err _ _ _ He). }
  destruct (stored_Ok meta r blob Hr He) as (r' & -> & Hd & Hne & Hsz). rewrite run_lift_Ok.
  destruct (wl_insert _ _ _ _ _ _ blob r' Hs (plain_here _ Hp) (bc_here _ _ _ _ Hb) Hne Hsz Hd) as (rid & s' & v' & es' & Hi & Hs' & Hp' & Hb' & Hes).
  rewrite Hp in Hp'.
  rewrite (run_Ok _ _ _ _ _ Hi). pose proof (wl_on_insert _ _ _ _ _ rid r Hs' (plain_here _ Hp') (bc_here _ _ _ _ Hb')) as Ho.
  rewrite (run_Ok _ _ _ _ _ (when_plain _ _ Ho)). exists s', es'. split; [done|]. split; [|by exists rid].
  exists v'. split; [done|]. split; [done|]. by eapply becomes_then.
Qed.
Lemma insert_loop meta v values : ∀ n k es s, holds (length values + n) v (meta, es) s → Forall (storable meta) values →
  ∃ s' es', count_each (insert_row t meta (tags_of meta)) k values s =
      (counted (k + zlen values) (store_all meta values).2, s') ∧
    holds n v (meta, es') s' ∧ rows_of es' ≡ₚ rows_of es ++ (store_all meta values).1.
Proof.
  induction values as [|r values IH]; intros n k es s Hh Hst; cbn [count_each store_all].
  - exists s, es. split; [|by rewrite app_nil_r]. change (zlen (@nil row)) with 0. by rewrite Z.add_0_r.
  - apply Forall_cons in Hst as [Hr Hst]. pose proof (insert_row_run _ _ _ _ r _ Hh Hr) as Hi.
    destruct (stored_row meta r) as [r'|e].
    + destruct Hi as (s1 & es1 & Hi & Hh1 & rid & Hp1). rewrite (run_Ok _ _ _ _ _ Hi).
      destruct (IH n (k + 1) es1 s1 Hh1 Hst) as (s2 & es2 & -> & Hh2 & Hp2). exists s2, es2.
      destruct (store_all meta values) as [out e]. cbn [fst snd] in *. rewrite zlen_cons.
      split; [do 2 f_equal; lia|]. split; [done|]. rewrite Hp2. unfold rows_of. rewrite Hp1. apply Permutation_middle.
    + rewrite (run_Err _ _ _ _ _ Hi). exists s, es. split; [done|]. split; [|by rewrite app_nil_r].
      by apply (holds_less n (length (r :: values))).
Qed.
Lemma each_ok {A} (f : A → M St unit) l s : (∀ x, f x s = (Ok (), s)) → each f l s = (Ok (), s).
Proof. intros Hf. induction l as [|x l IH]; [done|]. cbn [each]. by rewrite (run_Ok _ _ _ _ _ (Hf x)). Qed.
Lemma prepare_id meta idx values l : prepare meta idx values = Ok l → l = values.
Proof.
  revert l. induction values as [|r values IH]; intros l; cbn [prepare]; [by intros [= <-]|].
  destruct (ensure _ _); [|done]. rewrite bind_Ok. destruct (_assert_not_null _ _ _); [|done]. rewrite bind_Ok.
  destruct (prepare meta idx values) as [l'|]; [|done]. rewrite bind_Ok. intros [= <-]. by rewrite (IH l').
Qed.
Lemma insert_rows_run meta v values n es s : holds (length values + n) v (meta, es) s → Forall (storable meta) values →
  ∃ s' es', (prepared ← lift (prepare meta (column_n2i meta) values);
      when_indexer (each (xo_check_unique t) prepared);;
      count_each (insert_row t meta (tags_of meta)) 0 prepared) s = ((insert_effect meta (rows_of es) values).1, s') ∧
    holds n v (meta, es') s' ∧ rows_of es' ≡ₚ (insert_effect meta (rows_of es) values).2.
Proof.
  intros Hh Hst. unfold insert_effect. destruct (prepare meta _ values) as [l|e] eqn:Hp.
  - apply prepare_id in Hp as ->. rewrite run_lift_Ok. pose proof Hh as (v' & Hs & Hpl & Hb).
    rewrite (run_Ok _ _ _ _ _ (when_plain _ _ (each_ok _ _ _ (λ r, wl_check _ _ _ _ _ r Hs (plain_here _ Hpl) (bc_here _ _ _ _ Hb))))).
    destruct (insert_loop meta v values n 0 es s Hh Hst) as (s' & es' & -> & ? & ?). exists s', es'.
    destruct (store_all meta values) as [out e]. done.
  - exists s, es. split; [done|]. split; [|done]. by apply (holds_less n (length values)).
Qed.

(** ** The loops over the rids of a scan *)

Lemma filter_distinct (kept l : list (Rid * row)) e : NoDup (map fst (kept ++ e :: l)) →
  filter (λ x : Rid * row, x.1 ≠ e.1) (kept ++ e :: l) = kept ++ l.
Proof.
  intros Hnd. assert (∀ x, x ∈ kept ++ l → x.1 ≠ e.1) as Hne.
  { intros x Hx Heq. rewrite map_app in Hnd. cbn [map] in Hnd. rewrite <-Permutation_middle in Hnd. apply NoDup_cons in Hnd as [Hn _]. apply Hn.
    rewrite <-Heq, <-map_app. by apply list_elem_of_fmap_2. }
  rewrite filter_app, filter_cons, decide_False by (by intros Hx; apply Hx).
  rewrite <-filter_app. revert Hne. generalize (kept ++ l) as l'. clear. induction l' as [|x l IH]; intros Hne; [done|].
  rewrite filter_cons, decide_True by (apply Hne; by left). f_equal. apply IH. intros; apply Hne. by right.
Qed.
Lemma selected_row_run n v meta es s idx predicate rid r : holds n v (meta, es) s → (rid, r) ∈ es →
  selected_row meta (tags_of meta) idx predicate rid s = (b ← selected predicate r idx; Ok (if b : bool then Some r else None), s).
Proof.
  intros (v' & Hs & _ & Hb) Hin. unfold selected_row.
  destruct (rl_read _ _ _ _ _ _ _ _ Hs (bc_here _ _ _ _ Hb) Hin) as (blob & Hx & Hd). rewrite (run_Ok _ _ _ _ _ Hx).
  rewrite Hd, run_lift_Ok. destruct (selected predicate r idx) as [b|]; [by rewrite run_lift_Ok|done].
Qed.
Lemma delete_run n v meta kept rid r l s : holds (S n) v (meta, kept) s → kept ≡ₚ l ++ [(rid, r)] →
  ∃ s' es', xo_delete meta rid s = (Ok (), s') ∧ holds n v (meta, es') s' ∧ es' ≡ₚ l.
Proof.
  intros (v1 & Hs & Hp & Hb) Hk. pose proof (rl_nodup _ _ _ _ _ _ Hs (bc_here _ _ _ _ Hb)) as Hnd.
  destruct (wl_delete _ _ _ _ _ _ rid Hs (plain_here _ Hp) (bc_here _ _ _ _ Hb)) as (s' & v' & es' & Hd & Hs' & Hp' & Hb' & Hes).
  { rewrite Hk, map_app. apply elem_of_app. right. by left. }
  rewrite Hp in Hp'. exists s', es'. split; [done|]. split.
  - exists v'. split; [done|]. split; [done|]. by eapply becomes_then.
  - rewrite Hes, Hk. rewrite Hk in Hnd. pose proof (filter_distinct l [] (rid, r) Hnd) as Hf. cbn [fst] in Hf. by rewrite Hf, app_nil_r.
Qed.
Lemma plus_fmap (k : Z) (x : result Z) : (λ d, k + d) <$> (Z.succ <$> x) = (λ d, k + 1 + d) <$> x.
Proof. destruct x; [|done]. cbn. f_equal. lia. Qed.
Lemma holds_perm n v meta es s e l kept : holds n v (meta, es) s → es ≡ₚ kept ++ e :: l → e ∈ es ∧ es ≡ₚ (e :: kept) ++ l ∧ es ≡ₚ (kept ++ l) ++ [e].
Proof.
  intros _ Hes. split; [rewrite Hes; apply elem_of_app; right; by left|]. split; rewrite Hes; symmetry.
  - apply Permutation_middle.
  - rewrite <-app_assoc. f_equiv. symmetry. apply Permutation_cons_append.
Qed.
Lemma delete_row_run n v meta es s predicate rid r l :
  holds (S n) v (meta, es) s → (rid, r) ∈ es → es ≡ₚ l ++ [(rid, r)] →
  let delete := delete_row t meta (tags_of meta) (column_n2i meta) predicate rid s in
  match selected predicate r (column_n2i meta) with
  | Err e => delete = (Err e, s)
  | Ok false => delete = (Ok false, s)
  | Ok true => ∃ s' es', delete = (Ok true, s') ∧ holds n v (meta, es') s' ∧ es' ≡ₚ l
  end.
Proof.
  intros Hh Hin Hl. cbv zeta. unfold delete_row.
  pose proof (selected_row_run _ _ _ _ _ (column_n2i meta) predicate rid r Hh Hin) as Hsel.
  destruct (selected predicate r (column_n2i meta)) as [[]|e]; cbn [mbind result_bind] in Hsel; cbv iota in Hsel.
  2: by rewrite (run_Ok _ _ _ _ _ Hsel). 2: by rewrite (run_Err _ _ _ _ _ Hsel).
  rewrite (run_Ok _ _ _ _ _ Hsel). destruct (delete_run n v meta es rid r l s Hh Hl) as (s1 & es1 & Hd & Hh1 & Hp1).
  rewrite (run_Ok _ _ _ _ _ Hd). pose proof Hh1 as (v1 & Hs1 & Hpl1 & Hb1).
  rewrite (run_Ok _ _ _ _ _ (when_plain _ _ (wl_on_delete _ _ _ _ _ rid r Hs1 (plain_here _ Hpl1) (bc_here _ _ _ _ Hb1)))).
  by exists s1, es1.
Qed.
Lemma delete_loop v meta predicate l : ∀ n k kept cur s, holds (length l + n) v (meta, cur) s → cur ≡ₚ kept ++ l →
  ∃ s' es', count_each (delete_row t meta (tags_of meta) (column_n2i meta) predicate) k (map fst l) s =
      ((λ d, k + d) <$> (delete_effect meta predicate (rows_of l)).1, s') ∧
    holds n v (meta, es') s' ∧ rows_of es' ≡ₚ rows_of kept ++ (delete_effect meta predicate (rows_of l)).2.
Proof.
  induction l as [|[rid r] l IH]; intros n k kept cur s Hh Hcur; cbn [map fst snd rows_of delete_effect count_each].
  - exists s, cur. split; [by cbn; rewrite Z.add_0_r|]. split; [done|]. unfold rows_of. by rewrite Hcur, map_app.
  - destruct (holds_perm _ _ _ _ _ _ _ _ Hh Hcur) as (Hin & Hk1 & Hk2). fold (rows_of l).
    pose proof (holds_less _ 1 _ _ _ Hh) as Hh'. pose proof (holds_less n (length l) _ _ _ Hh') as Hh0.
    pose proof (delete_row_run _ _ _ _ _ predicate _ _ _ Hh Hin Hk2) as Hd. cbv zeta in Hd.
    destruct (selected predicate r (column_n2i meta)) as [[]|e].
    + destruct Hd as (s1 & es1 & Hd & Hh1 & Hp1). rewrite (run_Ok _ _ _ _ _ Hd).
      destruct (IH n (k + 1) kept es1 s1 Hh1 Hp1) as (s2 & es2 & -> & Hh2 & Hp2). exists s2, es2.
      destruct (delete_effect meta predicate (rows_of l)) as [d out]. cbn [fst snd] in *. by rewrite plus_fmap.
    + rewrite (run_Ok _ _ _ _ _ Hd).
      destruct (IH n k ((rid, r) :: kept) cur s Hh' Hk1) as (s2 & es2 & -> & Hh2 & Hp2). exists s2, es2.
      destruct (delete_effect meta predicate (rows_of l)) as [d out]. cbn [fst snd] in *. split; [done|]. split; [done|].
      rewrite Hp2. cbn. apply Permutation_middle.
    + rewrite (run_Err _ _ _ _ _ Hd). exists s, cur. split; [done|]. split; [done|]. unfold rows_of. by rewrite Hcur, map_app.
Qed.
Lemma update_row_run n v meta es s assignments predicate rid r l :
  holds (2 + n) v (meta, es) s → (rid, r) ∈ es → es ≡ₚ l ++ [(rid, r)] →
  (∀ new, new_values meta assignments r = Ok new → storable meta new) →
  let update := update_row t meta (tags_of meta) (column_n2i meta) assignments predicate rid s in
  match selected predicate r (column_n2i meta) with
  | Err e => update = (Err e, s)
  | Ok false => update = (Ok false, s)
  | Ok true =>
      match new_values meta assignments r with
      | Err e => update = (Err e, s)
      | Ok new =>
          ∃ s' es', holds n v (meta, es') s' ∧
            match stored_row meta new with
            | Err e => update = (Err e, s') ∧ es' ≡ₚ l
            | Ok r' => update = (Ok true, s') ∧ ∃ rid', es' ≡ₚ (rid', r') :: l
            end
      end
  end.
Proof.
  intros Hh Hin Hl Hr. cbv zeta. unfold update_row.
  pose proof (selected_row_run _ _ _ _ _ (column_n2i meta) predicate rid r Hh Hin) as Hsel.
  destruct (selected predicate r (column_n2i meta)) as [[]|e]; cbn [mbind result_bind] in Hsel; cbv iota in Hsel.
  2: by rewrite (run_Ok _ _ _ _ _ Hsel). 2: by rewrite (run_Err _ _ _ _ _ Hsel).
  rewrite (run_Ok _ _ _ _ _ Hsel). unfold new_values in *.
  destruct (assign assignments (column_n2i meta) r r) as [new|e]; [|done]. rewrite bind_Ok in Hr |- *. rewrite run_lift_Ok.
  destruct (_assert_not_null new meta.(tm_columns) (column_n2i meta)) as [[]|e]; [|done]. rewrite bind_Ok in Hr |- *. rewrite run_lift_Ok.
  pose proof Hh as (v0 & Hs0 & Hpl0 & Hb0).
  assert ((xo_on_delete t rid r;; xo_check_unique t new) s = (Ok (), s)) as Hx.
  { rewrite (run_Ok _ _ _ _ _ (wl_on_delete _ _ _ _ _ rid r Hs0 (plain_here _ Hpl0) (bc_here _ _ _ _ Hb0))).
    by apply (wl_check _ _ _ _ _ new Hs0 (plain_here _ Hpl0) (bc_here _ _ _ _ Hb0)). }
  rewrite (run_Ok _ _ _ _ _ (when_plain _ _ Hx)).
  destruct (delete_run _ v meta es rid r l s Hh Hl) as (s1 & es1 & Hd & Hh1 & Hp1).
  rewrite (run_Ok _ _ _ _ _ Hd).
  pose proof (insert_row_run _ _ _ _ new _ Hh1 (Hr new eq_refl)) as Hi. unfold insert_row in Hi.
  destruct (stored_row meta new) as [r'|e].
  - destruct Hi as (s2 & es2 & Hi & Hh2 & rid' & Hp2). exists s2, es2. split; [done|]. split; [done|]. exists rid'. by rewrite Hp2, Hp1.
  - exists s1, es1. split; [by apply (holds_less n 1)|done].
Qed.
Lemma update_loop v meta assignments predicate l : ∀ n k kept cur s, holds (2 * length l + n) v (meta, cur) s → cur ≡ₚ kept ++ l →
  Forall (λ r, ∀ new, new_values meta assignments r = Ok new → storable meta new) (rows_of l) →
  ∃ s' es', count_each (update_row t meta (tags_of meta) (column_n2i meta) assignments predicate) k (map fst l) s =
      ((λ d, k + d) <$> (update_effect meta assignments predicate (rows_of l)).1, s') ∧
    holds n v (meta, es') s' ∧ rows_of es' ≡ₚ rows_of kept ++ (update_effect meta assignments predicate (rows_of l)).2.
Proof.
  induction l as [|[rid r] l IH]; intros n k kept cur s Hh Hcur Hst; cbn [map fst snd rows_of update_effect count_each].
  - exists s, cur. split; [by cbn; rewrite Z.add_0_r|]. split; [done|]. unfold rows_of. by rewrite Hcur, map_app.
  - destruct (holds_perm _ _ _ _ _ _ _ _ Hh Hcur) as (Hin & Hk1 & Hk2). fold (rows_of l).
    apply Forall_cons in Hst as [Hr Hst]. cbn [snd] in Hr. fold (rows_of l) in Hst.
    replace (2 * length ((rid, r) :: l) + n)%nat with (2 + (2 * length l + n))%nat in Hh by (cbn; lia).
    pose proof (holds_less _ 2 _ _ _ Hh) as Hh'. pose proof (holds_less n (2 * length l) _ _ _ Hh') as Hh0.
    assert (rows_of cur ≡ₚ rows_of kept ++ r :: rows_of l) as Hrows by (unfold rows_of; by rewrite Hcur, map_app).
    pose proof (update_row_run _ _ _ _ _ assignments predicate _ _ _ Hh Hin Hk2 Hr) as Hu. cbv zeta in Hu.
    destruct (selected predicate r (column_n2i meta)) as [[]|e].
    + destruct (new_values meta assignments r) as [new|e]; [|by rewrite (run_Err _ _ _ _ _ Hu); exists s, cur].
      destruct Hu as (s1 & es1 & Hh1 & Hu). destruct (stored_row meta new) as [r'|e]; destruct Hu as [Hu Hp1].
      * rewrite (run_Ok _ _ _ _ _ Hu). destruct Hp1 as [rid' Hp1].
        destruct (IH n (k + 1) ((rid', r') :: kept) es1 s1 Hh1 Hp1 Hst) as (s2 & es2 & -> & Hh2 & Hp2). exists s2, es2.
        destruct (update_effect meta assignments predicate (rows_of l)) as [d out]. cbn [fst snd] in *. rewrite plus_fmap.
        split; [done|]. split; [done|]. rewrite Hp2. cbn. apply Permutation_middle.
      * rewrite (run_Err _ _ _ _ _ Hu). exists s1, es1. split; [done|]. split; [by apply (holds_less n (2 * length l))|].
        unfold rows_of. by rewrite Hp1, map_app.
    + rewrite (run_Ok _ _ _ _ _ Hu).
      destruct (IH n k ((rid, r) :: kept) cur s Hh' Hk1 Hst) as (s2 & es2 & -> & Hh2 & Hp2). exists s2, es2.
      destruct (update_effect meta assignments predicate (rows_of l)) as [d out]. cbn [fst snd] in *. split; [done|]. split; [done|].
      rewrite Hp2. cbn. apply Permutation_middle.
    + rewrite (run_Err _ _ _ _ _ Hu). by exists s, cur.
Qed.
Lemma dml_holds p n s v meta es : t = dml_table p →
  shows (S (dml_writes (rows_of es) p + n)) s v → xo_indexes s = I → v t = Some (meta, es) → dml_storable meta (rows_of es) p →
  ∃ s' es', execute_dml p s = (n ← (dml_effect meta (rows_of es) p).1; Ok [[PyInt n]], s') ∧
    holds n v (meta, es') s' ∧ rows_of es' ≡ₚ (dml_effect meta (rows_of es) p).2.
Proof.
  intros Ht Hs Hp Hv Hst. destruct (bind_run _ v (meta, es) s Hs Hp Hv) as (s1 & Hb & Hh). cbn [fst snd] in Hb.
  pose proof Hh as (v1 & Hs1 & _ & Hb1). pose proof (rl_scan _ _ _ _ _ _ Hs1 (bc_here _ _ _ _ Hb1)) as Hscan.
  assert (∃ s' es', (match p with
      | InsertPlan table values => insert_rows table values
      | UpdatePlan table assignments predicate => update_rows table assignments predicate
      | DeletePlan table predicate => delete_rows table predicate end) s = ((dml_effect meta (rows_of es) p).1, s') ∧
      holds n v (meta, es') s' ∧ rows_of es' ≡ₚ (dml_effect meta (rows_of es) p).2) as (s' & es' & Hx & Hh' & Hes').
  2: { exists s', es'. split; [|done]. unfold execute_dml. unfold mbind at 1, M_bind. rewrite Hx.
       by destruct (dml_effect meta (rows_of es) p).1. }
  assert (∀ x : result Z, (λ d, 0 + d) <$> x = x) as Hz by by intros [].
  destruct p as [t' values|t' assignments predicate|t' predicate]; cbn [dml_effect dml_table dml_writes dml_storable] in *; subst t'.
  - unfold insert_rows. rewrite (run_Ok _ _ _ _ _ Hb). by apply insert_rows_run.
  - unfold update_rows. rewrite (run_Ok _ _ _ _ _ Hb). rewrite (run_Ok _ _ _ _ _ Hscan).
    destruct (update_loop v meta assignments predicate es n 0 [] es s1) as (s' & es' & Hx & Hh' & Hes'); [|done|done|].
    { unfold rows_of in Hh. by rewrite length_map in Hh. }
    rewrite Hz in Hx. by exists s', es'.
  - unfold delete_rows. rewrite (run_Ok _ _ _ _ _ Hb). rewrite (run_Ok _ _ _ _ _ Hscan).
    destruct (delete_loop v meta predicate es n 0 [] es s1) as (s' & es' & Hx & Hh' & Hes'); [|done|].
    { unfold rows_of in Hh. by rewrite length_map in Hh. }
    rewrite Hz in Hx. by exists s', es'.
Qed.
End Holds.

Lemma dml_run p n s v meta es : let t := dml_table p in
  shows (S (dml_writes (rows_of es) p + n)) s v → plain t (xo_indexes s) → v t = Some (meta, es) → dml_storable meta (rows_of es) p →
  ∃ s' v' es', execute_dml p s = (n ← (dml_effect meta (rows_of es) p).1; Ok [[PyInt n]], s') ∧
    shows n s' v' ∧ xo_indexes s' = xo_indexes s ∧ becomes t v v' (meta, es') ∧ rows_of es' ≡ₚ (dml_effect meta (rows_of es) p).2.
Proof.
  intros t Hs Hp Hv Hst. destruct (dml_holds t (xo_indexes s) Hp p n s v meta es eq_refl Hs eq_refl Hv Hst) as (s' & es' & Hx & (v' & Hs' & Hi & Hb) & Hes).
  by exists s', v', es'.
Qed.
End Run.
