(* ===== verification/EngineSpec.v ===== *)
(** The engine over its page file: what [Engine_ops] promises to the plans.
    The representation relation [en_shows] says which rows the pages hold; the
    storage refines the interfaces of [ReadSpec] and [DmlSpec]. *)
From S2P Require Import Prelude.
From S2P Require Import Bytes.
From S2P Require Import Utf8.
From S2P Require Import TypeSys.
From S2P Require Import Codec.
From S2P Require Import Pager.
From S2P Require Import BufferPool.
From S2P Require Import FreeSpace.
From S2P Require Import Heap.
From S2P Require Import Wal.
From S2P Require Import Recovery.
From S2P Require Import Lock.
From S2P Require Import TxManager.
From S2P Require Import PyConv.
From S2P Require Import PyOrder.
From S2P Require Import PyDict.
From S2P Require Import BTreeSpec.
From S2P Require Import Catalog.
From S2P Require Import CatalogSpec.
From S2P Require Import EvalExpr.
From S2P Require Import Gen.
From S2P Require Import Plan.
From S2P Require Import Dml.
From S2P Require Import IndexManager.
From S2P Require Import Engine.
From S2P Require Import ReadSpec.
From S2P Require Import DmlSpec.
From stdpp Require Import gmap.
From Stdlib Require Import ZArith Lia.
Local Open Scope Z_scope.

(** * The log takes some more page records *)

Section Log.
Context {P : Type} `{PagerOps P, LsnOps P}.
Implicit Types g : Manager P.
(** The lock of the transaction manager and its transaction, which no plan
    touches *)
Context (L : WriteLock) (T : option TransactionContext).
Record log_ready (n : nat) g : Prop := {
  lr_lock : g.(mg_lock) = L;
  lr_active : g.(mg_active_tx) = T;
  lr_log : ∃ es, wal_holds g.(mg_wal) es [] ∧ 1 + zlen es + Z.of_nat n <= 2 ^ 64;
  lr_tx tx : g.(mg_active_tx) = Some tx → 0 <= tx.(tc_tx_id) < 2 ^ 64;
}.
Lemma log_ready_mono n n' g : (n <= n')%nat → log_ready n' g → log_ready n g.
Proof. intros Hn [Hlk Hac (es & Hw & Hl) Ht]. split; try done. exists es. split; [done|lia]. Qed.
Lemma log_ready_pager n p g : log_ready n (with_pager_of p g) ↔ log_ready n g.
Proof. split; intros []; split; done. Qed.
Lemma log_write_ready n pid before after g :
  log_ready (S n) g → 0 <= pid < NO_NEXT → zlen before = PAGE_SIZE → zlen after = PAGE_SIZE →
  ∃ g', cb_image log_write (pid, before, after) g = (Ok (), g') ∧ log_ready n g'.
Proof.
  intros [Hlk Hac (es & Hw & Hl) Ht] Hpid Hb Ha. unfold cb_image, log_write. cbn [fst snd]. unfold log_page_write. mrun.
  set (tx_id := match mg_active_tx g with Some tx => tc_tx_id tx | None => 0 end).
  assert (0 <= tx_id < 2 ^ 64) as Hid by (subst tx_id; destruct (mg_active_tx g) as [tx|] eqn:E; [by apply Ht|lia]).
  assert (image_ok (pid, before, after)) as Hi by (unfold NO_NEXT in Hpid; repeat split; cbn; lia).
  pose proof (encode_page_record_ok tx_id (pid, before, after) Hid Hi) as He. cbn [fst snd] in He. rewrite He, run_lift_Ok.
  destruct (append_ok _ es (RT_PAGE, page_payload tx_id (pid, before, after)) Hw) as (w & Hx & Hw').
  { split; cbn [fst snd]; [done|]. rewrite zlen_page_payload by done. unfold PAGE_SIZE. lia. }
  { lia. }
  unfold the_wal, zoom, mbind, M_bind. cbn [fst snd] in Hx. rewrite Hx. eexists. split; [reflexivity|].
  split; try done. exists (es ++ [(RT_PAGE, page_payload tx_id (pid, before, after))]). split; [done|].
  rewrite zlen_app, zlen_cons, zlen_nil. lia.
Qed.
End Log.

(** * Entries of a chain of pages *)

Section Entries.
Context `{JsonLib}.
(** The chain holds the record of the entry. *)
Definition entry_at (meta : TableMeta) (Hr : records) (e : Rid * row) : Prop :=
  ∃ blob, blob ≠ [] ∧ rec_at e.1.(page_id) e.1.(slot_id) Hr = Some (Some blob) ∧ decode_row blob (tags_of meta) = Ok e.2.
Record table_at (m : gmap Z bytes) (room : nat) (meta : TableMeta) (es : list (Rid * row)) (Hr : records) : Prop := {
  ta_chain : chain m meta.(tm_heap_pid) Hr;
  ta_pages : NoDup (map fst Hr);
  ta_some : Hr ≠ [];
  ta_room : (length Hr <= room)%nat;
  ta_live : map fst es = live Hr;
  ta_rows : Forall (entry_at meta Hr) es;
}.
Lemma table_at_nodup m room meta es Hr : table_at m room meta es Hr → NoDup (map fst es).
Proof. intros Ht. rewrite (ta_live _ _ _ _ _ Ht). by apply live_nodup, Ht. Qed.
Lemma table_at_other m m' room room' meta es Hr : table_at m room meta es Hr → (∀ x, x ∈ map fst Hr → m' !! x = m !! x) →
  (room <= room')%nat → table_at m' room' meta es Hr.
Proof. intros [] Hx Hle. split; try done; [by apply (chain_ext m)|lia]. Qed.
Lemma entry_mapped m room meta es Hr e : table_at m room meta es Hr → e ∈ es → e.1.(page_id) ∈ map fst Hr ∧ 0 <= e.1.(slot_id).
Proof.
  intros Ht He. assert (e.1 ∈ live Hr) as Hl by (rewrite <-(ta_live _ _ _ _ _ Ht); by apply list_elem_of_fmap_2).
  apply live_in in Hl as (Hsl & d & Hd); [|apply Ht]. split; [|done].
  destruct (decide (page_id e.1 ∈ map fst Hr)); [done|]. by rewrite rec_at_notin in Hd.
Qed.
(** Other records, other entries, in the order of the new chain *)
Lemma entries_along (Hr' : records) es : NoDup (map fst Hr') → NoDup (map fst es) →
  (∀ rid, rid ∈ map fst es ↔ 0 <= rid.(slot_id) ∧ ∃ d, rec_at rid.(page_id) rid.(slot_id) Hr' = Some (Some d)) →
  ∃ es' : list (Rid * row), es' ≡ₚ es ∧ map fst es' = live Hr'.
Proof.
  intros Hnd Hne Hin. assert (live Hr' ≡ₚ map fst es) as Hp.
  { apply NoDup_Permutation; [by apply live_nodup|done|]. intros rid. by rewrite live_in, Hin. }
  apply Permutation_map_inv in Hp as (es' & Heq & Hp). by exists es'.
Qed.
End Entries.

(** * The representation relation *)

Section Storage.
Context `{MetaJsonLaws} `{PyConv} `{JsonLib} {P : Type} {stores : P → gmap Z bytes → Prop} {rooms : nat → P → Prop}.
Context {POps : PagerOps P} {PLaws : PagerLaws P stores} {AOps : AllocOps P} {RLaws : RoomLaws P stores rooms} {LOps : LsnOps P}.
Context (fuel : nat) (L : WriteLock) (T : option TransactionContext).
Abbreviation EN := (Engine P).
Implicit Types (e : EN) (v : view).

(** The tables of the catalog are those of the view; each has a chain of pages
    of its own that holds its rows, apart from the pages of the catalog.  [n] more pages can be allocated, the log
    takes [3 n] more records, and each chain may grow by [n] pages. *)
Record en_shape (n : nat) (m : gmap Z bytes) (recs : pystr → records) e v : Prop := {
  es_disk : ct_inv (stores := stores) (en_pager e, e.(en_catalog)) m;
  es_rooms : rooms n (en_pager e);
  es_fuel : (n < fuel)%nat;
  es_size : ct_size e.(en_catalog) + Z.of_nat n < 2 ^ 16;
  es_log : log_ready L T (3 * n) e.(en_mgr);
  es_catalog t : dget t e.(en_catalog).(ct_by_name) = fst <$> v t;
  es_name t meta es : v t = Some (meta, es) → meta.(tm_name) = t;
  es_table t meta es : v t = Some (meta, es) → table_at m (fuel - n) meta es (recs t);
  es_apart t t' x : is_Some (v t) → is_Some (v t') → t ≠ t' → x ∈ map fst (recs t) → x ∉ map fst (recs t');
  es_reserved t x : is_Some (v t) → x ∈ map fst (recs t) → x ≠ CATALOG_PAGE ∧ x ≠ INDEX_CATALOG_PAGE;
}.
Lemma es_stores n m recs e v : en_shape n m recs e v → stores (en_pager e) m.
Proof. intros Hs. apply (inv_stores _ _ (es_disk _ _ _ _ _ Hs)). Qed.
Lemma reserved_mapped n m recs e v : en_shape n m recs e v → is_Some (m !! CATALOG_PAGE) ∧ is_Some (m !! INDEX_CATALOG_PAGE).
Proof. intros Hs. destruct (inv_disk _ _ (es_disk _ _ _ _ _ Hs)) as [(? & -> & _) (? & -> & _)]. by split; eexists. Qed.
Lemma disk_same p p' c m m' : ct_inv (stores := stores) (p, c) m → stores p' m' → m' !! CATALOG_PAGE = m !! CATALOG_PAGE →
  m' !! INDEX_CATALOG_PAGE = m !! INDEX_CATALOG_PAGE → ct_inv (stores := stores) (p', c) m'.
Proof. intros [] Hst Hx1 Hx2. split; [done|done|]. by eapply on_disk_ext. Qed.
Definition en_shows (n : nat) e v : Prop := ∃ m recs, en_shape n m recs e v.

Lemma shape_less n m recs e v : en_shape (S n) m recs e v → en_shape n m recs e v.
Proof.
  intros []. split; try done; [eapply rooms_mono; [done|lia]|lia|lia|eapply log_ready_mono; [|done]; lia|].
  intros t meta es Hv. eapply table_at_other; [by eapply es_table0|done|lia].
Qed.
(** The parts of the state that the relation does not look at *)
Lemma shape_same n m recs e e' v : en_shape n m recs e v → en_mgr e' = en_mgr e → en_catalog e' = en_catalog e → en_shape n m recs e' v.
Proof. intros [] Hm Hc. unfold en_pager in *. split; unfold en_pager; rewrite ?Hm, ?Hc; done. Qed.

Definition recs_set (t : pystr) (Hr : records) (recs : pystr → records) : pystr → records := λ t', if decide (t' = t) then Hr else recs t'.
(** One table gets other rows; its chain may take pages that were free. *)
Lemma shape_change n m m' recs e e' v t meta es es' Hr' : en_shape (S n) m recs e v → v t = Some (meta, es) →
  stores (en_pager e') m' → rooms n (en_pager e') → log_ready L T (3 * n) e'.(en_mgr) → en_catalog e' = en_catalog e →
  table_at m' (fuel - n) meta es' Hr' → (∀ x, x ∈ map fst Hr' → x ∈ map fst (recs t) ∨ m !! x = None) →
  (∀ x, x ∉ map fst Hr' → m' !! x = m !! x) →
  en_shape n m' (recs_set t Hr' recs) e' (view_set t (meta, es') v).
Proof.
  intros Hs Hv Hst Hr Hl Hc Ht Hnew Hold.
  assert (∀ t' x, t' ≠ t → is_Some (v t') → x ∈ map fst (recs t') → x ∉ map fst Hr') as Hapart.
  { intros t' x Hne [[meta' es0] Hv'] Hx Hx'. destruct (Hnew x Hx') as [Hx''|Hnone].
    - by apply (es_apart _ _ _ _ _ Hs t' t x).
    - destruct (chain_mapped m _ _ x (ta_chain _ _ _ _ _ (es_table _ _ _ _ _ Hs t' meta' es0 Hv')) Hx) as [[d Hd] _]. congruence. }
  destruct (reserved_mapped _ _ _ _ _ Hs) as [[pg1 Hpg1] [pg2 Hpg2]].
  assert (∀ x, x ∈ map fst Hr' → x ≠ CATALOG_PAGE ∧ x ≠ INDEX_CATALOG_PAGE) as Hres.
  { intros x Hx. destruct (Hnew x Hx) as [Hx'|Hnone]; [apply (es_reserved _ _ _ _ _ Hs t x); [by rewrite Hv|done]|]. split; intros ->; congruence. }
  split; try done; unfold view_set, recs_set.
  - rewrite Hc. eapply disk_same; [by apply (es_disk _ _ _ _ _ Hs)|done|..]; apply Hold; intros Hx; by destruct (Hres _ Hx).
  - pose proof (es_fuel _ _ _ _ _ Hs). lia.
  - rewrite Hc. pose proof (es_size _ _ _ _ _ Hs). lia.
  - intros t'. rewrite Hc, (es_catalog _ _ _ _ _ Hs). destruct (decide (t' = t)) as [->|]; [by rewrite Hv|done].
  - intros t' meta' es0. destruct (decide (t' = t)) as [->|]; [intros [= <- <-]; by apply (es_name _ _ _ _ _ Hs _ _ _ Hv)|apply (es_name _ _ _ _ _ Hs)].
  - intros t' meta' es0. destruct (decide (t' = t)) as [->|Hne]; [by intros [= <- <-]|]. intros Hv'.
    eapply table_at_other; [by apply (es_table _ _ _ _ _ Hs)| |lia]. intros x Hx. apply Hold. by apply (Hapart t').
  - intros t1 t2 x Hv1 Hv2 Hne. destruct (decide (t1 = t)) as [->|Hn1], (decide (t2 = t)) as [->|Hn2]; [done|..].
    + intros Hx Hx2. by apply (Hapart t2 x).
    + intros Hx. by apply (Hapart t1).
    + by apply (es_apart _ _ _ _ _ Hs).
  - intros t' x. destruct (decide (t' = t)) as [->|Hne]; [by intros _ Hx; apply Hres|apply (es_reserved _ _ _ _ _ Hs)].
Qed.
(** A page that was free is taken by nobody. *)
Lemma shape_extend n m recs e e' v pid pg : en_shape (S n) m recs e v → m !! pid = None →
  stores (en_pager e') (<[pid := pg]> m) → rooms n (en_pager e') → log_ready L T (3 * n) e'.(en_mgr) → en_catalog e' = en_catalog e →
  en_shape n (<[pid := pg]> m) recs e' v.
Proof.
  intros Hs Hp Hst Hr Hl Hc. destruct (reserved_mapped _ _ _ _ _ Hs) as [[pg1 Hpg1] [pg2 Hpg2]].
  split; try done; [|pose proof (es_fuel _ _ _ _ _ Hs); lia|rewrite Hc; pose proof (es_size _ _ _ _ _ Hs); lia|intros t; rewrite Hc; apply Hs|apply Hs| |apply Hs|apply Hs].
  { rewrite Hc. eapply disk_same; [by apply (es_disk _ _ _ _ _ Hs)|done|..]; apply lookup_insert_ne; congruence. }
  intros t meta es Hv. pose proof (es_table _ _ _ _ _ Hs t meta es Hv) as Ht. eapply table_at_other; [done| |lia].
  intros x Hx. apply lookup_insert_ne. intros <-. destruct (chain_mapped m _ _ pid (ta_chain _ _ _ _ _ Ht) Hx) as [[d Hd] _]. congruence.
Qed.

(** * Opening heaps *)

Lemma with_pager_same (g : Manager P) : with_pager_of g.(mg_pager) g = g.
Proof. by destruct g. Qed.
Lemma engine_allocate_run n m recs e v table_id : en_shape (S n) m recs e v →
  ∃ fsm m' p, allocate_heap table_id e = (Ok fsm, with_mgr (with_pager_of p e.(en_mgr)) e) ∧
    en_shape n m' recs (with_mgr (with_pager_of p e.(en_mgr)) e) v.
Proof.
  intros Hs. destruct (new_heap_run (en_pager e) () m n table_id (es_stores _ _ _ _ _ Hs) (es_rooms _ _ _ _ _ Hs))
    as (h & pg & Hx & Hnone & _ & Hst & Hr & _).
  exists h.(hp_fsm), (<[h.(hp_head_pid) := pg]> m), h.(hp_pager). unfold allocate_heap. rewrite Hx. split; [done|].
  eapply shape_extend; [done|done|done|done| |done]. cbn. apply log_ready_pager.
  eapply log_ready_mono; [|by apply (es_log _ _ _ _ _ Hs)]. lia.
Qed.
#[local] Instance storage_ops : ExecOps EN := Engine_ops fuel.
Lemma heap_for_cached n e v meta : en_shows n e v → dmem meta.(tm_table_id) e.(en_heaps) = true → heap_for meta e = (Ok (), e).
Proof. intros _ Hm. unfold heap_for. mrun. by rewrite Hm. Qed.
Lemma heap_for_run n e v meta : en_shows (S n) e v →
  ∃ e', heap_for meta e = (Ok (), e') ∧ en_shows n e' v ∧ en_meta_by_name e' = en_meta_by_name e ∧ dmem meta.(tm_table_id) e'.(en_heaps) = true.
Proof.
  intros (m & recs & Hs). destruct (dmem (tm_table_id meta) (en_heaps e)) eqn:Hm.
  - exists e. split; [apply (heap_for_cached (S n) e v); [by exists m, recs|done]|]. split; [|done]. exists m, recs. by apply shape_less.
  - unfold heap_for. mrun. rewrite Hm. destruct (engine_allocate_run n m recs e v (tm_table_id meta) Hs) as (fsm & m' & p & Ha & Hs').
    rewrite (run_Ok _ _ _ _ _ Ha). mrun. eexists. split; [reflexivity|]. split; [|split; [done|]].
    + exists m', recs. by eapply shape_same.
    + cbn. unfold dmem. rewrite dget_dset, decide_True by done. by apply bool_decide_eq_true.
Qed.

(** * Reading *)

Lemma on_heap_same {A} meta (c : M (Heap P (Manager P)) A) e (r : result A) :
  let h := mkHeap (en_pager e) e.(en_mgr) meta.(tm_table_id) meta.(tm_heap_pid) e.(en_bound) in
  c h = (r, h) → on_heap meta c e = (r, e).
Proof. cbv zeta. unfold on_heap. intros ->. cbn. unfold en_pager. rewrite with_pager_same. by destruct e. Qed.
Lemma shape_holds n m recs e v t meta es : en_shape n m recs e v → v t = Some (meta, es) →
  heap_holds (stores := stores) (mkHeap (en_pager e) e.(en_mgr) meta.(tm_table_id) meta.(tm_heap_pid) e.(en_bound)) m (recs t) ∧
  (length (recs t) <= fuel - n)%nat.
Proof. intros Hs Hv. destruct (es_table _ _ _ _ _ Hs t meta es Hv). split; [|done]. split; [apply Hs|done]. Qed.

#[global, refine] Instance Engine_reads : ReadLaws EN en_shows := { rl_bound meta e := dmem meta.(tm_table_id) e.(en_heaps) = true }.
Proof.
  - intros n e v (m & recs & Hs). exists m, recs. by apply shape_less.
  - intros n e v t (m & recs & Hs). cbn. unfold en_get_table, mbind, M_bind, get, lift, get_table. by rewrite (es_catalog _ _ _ _ _ Hs).
  - intros n e v t meta es (m & recs & Hs). apply (es_name _ _ _ _ _ Hs).
  - intros n e v t meta es Hs _. destruct (heap_for_run n e v meta Hs) as (e' & Hx & Hs' & Hm & Hd). exists e'. cbn. by rewrite Hm.
  - intros n e v meta Hs Hd. by apply (heap_for_cached n e v).
  - intros n e v t meta es (m & recs & Hs) Hv. by eapply table_at_nodup, (es_table _ _ _ _ _ Hs).
  - intros n e v t meta es (m & recs & Hs) Hv. destruct (shape_holds _ _ _ _ _ _ _ _ Hs Hv) as [(Hst & Hc & Hnd & Hne) Hf].
    apply on_heap_same. unfold Heap.scan. mrun. rewrite (ta_live _ _ _ _ _ (es_table _ _ _ _ _ Hs t meta es Hv)).
    apply (scan_from_ok _ m); [done|done|lia].
  - intros n e v t meta es rid r (m & recs & Hs) Hv Hin. destruct (shape_holds _ _ _ _ _ _ _ _ Hs Hv) as [Hh _].
    pose proof (es_table _ _ _ _ _ Hs t meta es Hv) as Ht. pose proof (ta_rows _ _ _ _ _ Ht) as Hrows. rewrite Forall_forall in Hrows.
    destruct (Hrows _ Hin) as (blob & Hne & Hrec & Hdec). destruct (entry_mapped _ _ _ _ _ _ Ht Hin) as [Hpid Hsl]. cbn [fst snd] in *.
    exists blob. split; [|done]. apply on_heap_same. rewrite (read_rid_ok _ m (recs t) rid Hh Hpid Hsl), Hrec. cbn [found].
    destruct (Z.eqb_spec (zlen blob) 0) as [Hz|]; [|done]. exfalso. apply Hne. destruct blob; [done|rewrite zlen_cons in Hz; pose proof (zlen_nonneg blob); lia].
Defined.

(** * Writing *)

Lemma rec_at_slot pid slot (Hr : records) d : rec_at pid slot Hr = Some (Some d) → 0 <= slot.
Proof.
  induction Hr as [|[p recs] Hr IH]; cbn [rec_at]; [done|]. destruct (pid =? p); [|done]. unfold znth. by destruct (Z.ltb_spec slot 0).
Qed.
Lemma entry_stays meta (Hr Hr' : records) (x : Rid * row) :
  rec_at x.1.(page_id) x.1.(slot_id) Hr' = rec_at x.1.(page_id) x.1.(slot_id) Hr → entry_at meta Hr x → entry_at meta Hr' x.
Proof. intros Hx (blob & Hne & Hb & Hd). exists blob. by rewrite Hx. Qed.
Lemma live_rid m room meta es Hr rid : table_at m room meta es Hr →
  rid ∈ map fst es ↔ 0 <= rid.(slot_id) ∧ ∃ d, rec_at rid.(page_id) rid.(slot_id) Hr = Some (Some d).
Proof. intros Ht. rewrite (ta_live _ _ _ _ _ Ht). apply live_in, Ht. Qed.
(** The table after a record was added, and after one was emptied *)
Lemma table_insert m m' room room' meta es Hr Hr' rid blob r : table_at m room meta es Hr →
  chain m' meta.(tm_heap_pid) Hr' → NoDup (map fst Hr') → Hr' ≠ [] → (length Hr' <= room')%nat →
  rec_at rid.(page_id) rid.(slot_id) Hr = None → rec_at rid.(page_id) rid.(slot_id) Hr' = Some (Some blob) →
  (∀ x : Rid, x ≠ rid → rec_at x.(page_id) x.(slot_id) Hr' = rec_at x.(page_id) x.(slot_id) Hr) →
  blob ≠ [] → decode_row blob (tags_of meta) = Ok r →
  ∃ es', es' ≡ₚ (rid, r) :: es ∧ table_at m' room' meta es' Hr'.
Proof.
  intros Ht Hc Hnd Hne Hlen Hnone Hsome Hold Hb Hd.
  assert (rid ∉ map fst es) as Hfresh.
  { intros Hin. apply (live_rid _ _ _ _ _ _ Ht) in Hin as (_ & d & Hd'). congruence. }
  destruct (entries_along Hr' ((rid, r) :: es)) as (es' & Hp & Hl); [done|apply NoDup_cons; by split; [|eapply table_at_nodup]| |].
  { intros x. cbn [map fst]. rewrite elem_of_cons. destruct (decide (x = rid)) as [->|Hx].
    - split; [intros _|by left]. split; [by eapply rec_at_slot|by exists blob].
    - rewrite Hold by done. rewrite <-(live_rid _ _ _ _ _ x Ht). naive_solver. }
  exists es'. split; [done|]. split; try done. rewrite Hp. apply Forall_cons. split; [by exists blob|].
  apply Forall_forall. intros x Hx.
  assert (entry_at meta Hr x) as Hat by (pose proof (ta_rows _ _ _ _ _ Ht) as Hall; rewrite Forall_forall in Hall; by apply Hall).
  eapply entry_stays; [|exact Hat]. apply Hold. intros <-. apply Hfresh. by apply list_elem_of_fmap_2.
Qed.
Lemma table_delete m m' room room' meta es Hr Hr' rid : table_at m room meta es Hr →
  chain m' meta.(tm_heap_pid) Hr' → map fst Hr' = map fst Hr → (length Hr <= room')%nat → rid ∈ map fst es →
  (∀ x : Rid, rec_at x.(page_id) x.(slot_id) Hr' =
     if decide (x = rid) then (λ _, None) <$> rec_at rid.(page_id) rid.(slot_id) Hr else rec_at x.(page_id) x.(slot_id) Hr) →
  ∃ es', es' ≡ₚ filter (λ x : Rid * row, x.1 ≠ rid) es ∧ table_at m' room' meta es' Hr'.
Proof.
  intros Ht Hc Hkeys Hlen Hin Hrec. pose proof (table_at_nodup _ _ _ _ _ Ht) as Hnd.
  destruct (entries_along Hr' (filter (λ x : Rid * row, x.1 ≠ rid) es)) as (es' & Hp & Hl).
  - rewrite Hkeys. apply Ht.
  - apply (sublist_NoDup _ (map fst es)); [done|]. apply fmap_sublist, sublist_filter.
  - intros x. rewrite list_elem_of_fmap. setoid_rewrite list_elem_of_filter. rewrite Hrec. destruct (decide (x = rid)) as [->|Hx].
    + split; [naive_solver|]. intros (_ & d & Hd). by destruct (rec_at _ _ Hr).
    + rewrite <-(live_rid _ _ _ _ _ x Ht), list_elem_of_fmap. naive_solver.
  - exists es'. split; [done|]. split; try done.
    + rewrite Hkeys. apply Ht.
    + intros ->. pose proof (ta_some _ _ _ _ _ Ht) as Hne. by destruct Hr.
    + by rewrite <-(length_map fst Hr'), Hkeys, length_map.
    + rewrite Hp. apply Forall_forall. intros x [Hx Hxe]%list_elem_of_filter.
      pose proof (ta_rows _ _ _ _ _ Ht) as Hall. rewrite Forall_forall in Hall. eapply entry_stays; [|by apply Hall].
      by rewrite Hrec, decide_False.
Qed.

Definition unindexed (t : pystr) e : Prop := plain t (xo_indexes e).
Lemma no_indexes t e : unindexed t e → filter (λ kv : pystr * IndexMeta, kv.2.(im_table) = t) e.(en_meta_by_name) = [].
Proof.
  intros Hl. assert (∀ kv, kv ∈ e.(en_meta_by_name) → kv.2.(im_table) ≠ t) as Hkv.
  { intros kv Hkv. apply (Hl _ _ eq_refl). by apply list_elem_of_fmap_2. }
  clear Hl. revert Hkv. induction (en_meta_by_name e) as [|kv l IH]; intros Hl; [done|].
  rewrite filter_cons, decide_False by (apply Hl; by left). apply IH. intros x Hx. apply Hl. by right.
Qed.
Lemma with_indexer_same e : with_indexer (indexer_of e) e = e.
Proof. unfold with_indexer, indexer_of. cbn. unfold en_pager. rewrite with_pager_same. by destruct e. Qed.
(** A hook that loops over the indexes of the table *)
Lemma hook_run t x n e v (loop : TableMeta → list IndexMeta → M (IndexManager P) unit) : en_shows n e v → v t = Some x → unindexed t e →
  (∀ meta s, loop meta [] s = (Ok (), s)) →
  on_indexer (table_meta ← table_meta_of t; metas ← _indexes_for_table t; loop table_meta metas) e = (Ok (), e).
Proof.
  intros (m & recs & Hs) Hv Hun Hloop. unfold on_indexer, zoom, table_meta_of, _indexes_for_table, get_table. mrun. cbn [indexer_of im_catalog im_meta_by_name].
  rewrite (es_catalog _ _ _ _ _ Hs), Hv. cbn [fmap option_fmap option_map of_option]. mrun. cbn [indexer_of im_meta_by_name].
  rewrite (no_indexes t e Hun). cbn [map list_fmap forallb]. mrun.
  rewrite Hloop. by rewrite with_indexer_same.
Qed.

(** Running an operation of the heap that writes *)
Lemma on_heap_run {A} meta (c : M (Heap P (Manager P)) A) e (r : A) h' :
  c (mkHeap (en_pager e) e.(en_mgr) meta.(tm_table_id) meta.(tm_heap_pid) e.(en_bound)) = (Ok r, h') →
  on_heap meta c e = (Ok r, set_bound h'.(hp_fsm) (with_mgr (with_pager_of h'.(hp_pager) h'.(hp_world)) e)).
Proof. unfold on_heap. by intros ->. Qed.
Lemma log_write_less n (g : Manager P) : log_ready L T (S n) g → log_ready L T n g.
Proof. apply log_ready_mono. lia. Qed.

#[global] Instance Engine_writes : WriteLaws EN.
Proof.
  split.
  - intros n e v t [meta es] (m & recs & Hs) Hun Hv. cbn. unfold bind_heap. pose proof (get_table_run (S n) e v t meta es (ex_intro _ m (ex_intro _ recs Hs)) Hv) as Hg.
    cbn in Hg. rewrite (run_Ok _ _ _ _ _ Hg). destruct (engine_allocate_run n m recs e v (tm_table_id meta) Hs) as (fsm & m' & p & Ha & Hs').
    rewrite (run_Ok _ _ _ _ _ Ha). eexists. split; [reflexivity|]. split; [|done]. exists m', recs. by eapply shape_same.
  - intros n e v t x r Hs Hun Hv. cbn. unfold check_unique. by apply (hook_run t x n e v (λ meta metas, for_indexes _ meta r (filter (λ m, im_unique m = true) metas))).
  - intros n e v t x rid r Hs Hun Hv. cbn. unfold on_insert. by apply (hook_run t x n e v (λ meta metas, for_indexes _ meta r metas)).
  - intros n e v t x rid r Hs Hun Hv. cbn. unfold on_delete. by apply (hook_run t x n e v (λ meta metas, for_indexes _ meta r metas)).
  - intros n e v t meta es blob r (m & recs & Hs) Hun Hv Hne Hsz Hdec.
    destruct (shape_holds _ _ _ _ _ _ _ _ Hs Hv) as [Hh Hf]. pose proof (es_table _ _ _ _ _ Hs t meta es Hv) as Ht.
    assert (log_ready L T (3 + 3 * n) e.(en_mgr)) as Hlog by (replace (3 + 3 * n)%nat with (3 * S n)%nat by lia; apply Hs).
    destruct (insert_ok log_write (log_ready L T) (log_write_ready L T) log_write_less n (3 * n) _ m (recs t) fuel blob Hh (es_rooms _ _ _ _ _ Hs) Hlog Hsz ltac:(lia))
      as (rid & h' & m0 & m' & Hr' & ls & Hx & (Hst' & Hc' & Hnd' & Hne') & (_ & _ & _ & _ & Hhead & _) & Hrooms & Hlog' & Hlen & Hfresh & _ & _ & Hnone & Hsome & Hold & Hother).
    cbn [hp_head_pid] in Hhead. rewrite Hhead in Hc'.
    assert (length Hr' <= fuel - n)%nat as Hlen'.
    { pose proof (ta_some _ _ _ _ _ Ht). destruct (recs t); [done|]. cbn [length] in *. lia. }
    destruct (table_insert m m' _ (fuel - n) meta es (recs t) Hr' rid blob r Ht Hc' Hnd' Hne' Hlen' Hnone Hsome Hold Hne Hdec) as (es' & Hp & Ht').
    exists rid. eexists _, (view_set t (meta, es') v), es'. split; [by apply on_heap_run|].
    split; [|split; [done|split; [apply view_set_becomes|done]]].
    exists m', (recs_set t Hr' recs). eapply shape_change; [done|done|done|done|by apply log_ready_pager|done|done|done|].
    intros x Hxx. by apply Hother.
  - intros n e v t meta es rid (m & recs & Hs) Hun Hv Hin.
    destruct (shape_holds _ _ _ _ _ _ _ _ Hs Hv) as [Hh Hf]. pose proof (es_table _ _ _ _ _ Hs t meta es Hv) as Ht.
    apply list_elem_of_fmap in Hin as ([rid' r] & -> & Hin). cbn [fst].
    destruct (entry_mapped _ _ _ _ _ _ Ht Hin) as [Hpid Hsl]. cbn [fst] in *.
    assert (log_ready L T (S (3 * n)) e.(en_mgr)) as Hlog by (eapply log_ready_mono; [|by apply (es_log _ _ _ _ _ Hs)]; lia).
    destruct (delete_ok log_write (log_ready L T) (log_write_ready L T) log_write_less n (3 * n) _ m (recs t) rid' Hh) as
      (h' & m' & Hr' & ls & Hx & (Hst' & Hc' & _) & (_ & _ & _ & _ & Hhead & _) & Hrooms & Hlog' & Hkeys & Hother & Hrec);
      [eapply rooms_mono; [by apply (es_rooms _ _ _ _ _ Hs)|lia]|done|done|done|].
    cbn [hp_head_pid] in Hhead. rewrite Hhead in Hc'.
    destruct (table_delete m m' _ (fuel - n) meta es (recs t) Hr' rid' Ht Hc' Hkeys ltac:(lia)) as (es' & Hp & Ht');
      [by apply (list_elem_of_fmap_2 fst es (rid', r))|done|].
    eexists _, (view_set t (meta, es') v), es'. split; [by apply on_heap_run|].
    split; [|split; [done|split; [apply view_set_becomes|done]]].
    exists m', (recs_set t Hr' recs). eapply shape_change; [done|done|done|done|by apply log_ready_pager|done|done|..].
    + intros x. rewrite Hkeys. by left.
    + intros x. rewrite Hkeys. by apply Hother.
Defined.

(** * The registry of tables *)

Lemma en_catalog_run {A} (c : M (P * Catalog) A) e r p' c' : c (en_pager e, e.(en_catalog)) = (r, (p', c')) →
  en_on_catalog c e = (r, with_indexer (mkIM p' c' e.(en_meta_by_name) e.(en_index_by_name)) e).
Proof. intros Hc. unfold en_on_catalog, on_indexer, on_catalog, zoom. cbn. by rewrite Hc. Qed.
(** The pages of the tables stay when the registry changes. *)
Lemma tables_stay n n' m m' recs e v t meta es : en_shape n m recs e v → v t = Some (meta, es) → (n' <= n)%nat →
  (∀ x, x ≠ CATALOG_PAGE → x ≠ INDEX_CATALOG_PAGE → is_Some (m !! x) → m' !! x = m !! x) → table_at m' (fuel - n') meta es (recs t).
Proof.
  intros Hs Hv Hn Hold. pose proof (es_table _ _ _ _ _ Hs t meta es Hv) as Ht. eapply table_at_other; [done| |lia].
  intros x Hx. destruct (es_reserved _ _ _ _ _ Hs t x) as [Hx1 Hx2]; [by rewrite Hv|done|]. apply Hold; [done|done|].
  by apply (chain_mapped m _ _ x (ta_chain _ _ _ _ _ Ht)).
Qed.

Definition new_table (id : Z) (name : pystr) (columns : list Column) (head : Z) : table := (mkTableMeta id name columns head, []).
Lemma create_run n e v name columns : en_shows (S n) e v → texts_ok (name :: map col_name columns) →
  ∃ r e', en_on_catalog (create_table name columns) e = (r, e') ∧ en_meta_by_name e' = en_meta_by_name e ∧
    if bool_decide (is_Some (v name)) || bool_decide (columns = []) then r = Err ValueError ∧ en_shows n e' v
    else ∃ id head, r = Ok id ∧ en_shows n e' (view_set name (new_table id name columns head) v).
Proof.
  intros (m & recs & Hs) Htx.
  destruct (create_table_ok name columns (en_pager e) m e.(en_catalog) n (es_disk _ _ _ _ _ Hs) (es_rooms _ _ _ _ _ Hs)) as
    (r & p' & c' & m' & head & Hx & Hsp & Hinv & Hr & Hold & Hok); [pose proof (es_size _ _ _ _ _ Hs); lia|done|].
  exists r. eexists. split; [by apply en_catalog_run|]. split; [done|]. cbn [ct_spec] in Hsp.
  assert (dmem name (ct_by_name (en_catalog e)) = bool_decide (is_Some (v name))) as Hmem.
  { unfold dmem. rewrite (es_catalog _ _ _ _ _ Hs). apply bool_decide_ext. by rewrite fmap_is_Some. }
  rewrite Hmem in Hsp. destruct (_ || _) eqn:Hb.
  - injection Hsp as Hres ->. split; [destruct r; [done|congruence]|]. exists m', recs. split; try done; cbn.
    + pose proof (es_fuel _ _ _ _ _ Hs). lia.
    + pose proof (es_size _ _ _ _ _ Hs). lia.
    + apply log_ready_pager. eapply log_ready_mono; [|by apply (es_log _ _ _ _ _ Hs)]. lia.
    + apply Hs.
    + apply Hs.
    + intros t meta es Hv. eapply tables_stay; [done|done|lia|]. intros x Hx1 _ Hx2. by apply Hold.
    + apply Hs.
    + apply Hs.
  - injection Hsp as Hres ->. destruct r as [id|]; [|done]. destruct (Hok eq_refl) as ([= ->] & Hnone & Hpos & pg & Hpg & Hhp).
    apply orb_false_elim in Hb as [Hb _]. apply bool_decide_eq_false in Hb.
    assert (∀ t x, is_Some (v t) → x ∈ map fst (recs t) → x ≠ head) as Hne.
    { intros t x [[meta es] Hv] Hx' ->. destruct (chain_mapped m _ _ head (ta_chain _ _ _ _ _ (es_table _ _ _ _ _ Hs t meta es Hv)) Hx') as [[d Hd] _]. congruence. }
    eexists _, head. split; [done|]. exists m', (recs_set name [(head, [])] recs). split; try done; cbn; unfold view_set, recs_set.
    + pose proof (es_fuel _ _ _ _ _ Hs). lia.
    + pose proof (es_size _ _ _ _ _ Hs) as Hsz. unfold ct_size in *. cbn. rewrite zlen_app. unfold zlen in *. cbn. lia.
    + apply log_ready_pager. eapply log_ready_mono; [|by apply (es_log _ _ _ _ _ Hs)]. lia.
    + intros t. assert (name ∉ map fst (ct_by_name (en_catalog e))) as Hn.
      { rewrite <-dget_is_Some, (es_catalog _ _ _ _ _ Hs), fmap_is_Some. done. }
      rewrite <-(dset_absent' _ _ _ Hn), dget_dset. destruct (decide (t = name)); [done|]. apply Hs.
    + intros t meta es. destruct (decide (t = name)) as [->|]; [by intros [= <- <-]|apply Hs].
    + intros t meta es. destruct (decide (t = name)) as [->|Hn].
      * intros [= <- <-]. split; cbn; try done; [|apply NoDup_singleton|pose proof (es_fuel _ _ _ _ _ Hs); lia].
        split; [done|]. split; [lia|]. by exists pg, NO_NEXT, DATA_START.
      * intros Hv. eapply tables_stay; [done|done|lia|]. intros x Hx1 _ Hx2. by apply Hold.
    + intros t1 t2 x Hv1 Hv2 Hn. destruct (decide (t1 = name)) as [->|Hn1], (decide (t2 = name)) as [->|Hn2]; [done|..].
      * intros ->%list_elem_of_singleton Hx2. by apply (Hne t2 head).
      * intros Hx1 ->%list_elem_of_singleton. by apply (Hne t1 head).
      * by apply Hs.
    + intros t x. destruct (decide (t = name)) as [->|Hn]; [|apply Hs]. intros _ ->%list_elem_of_singleton.
      destruct (reserved_mapped _ _ _ _ _ Hs) as [[pg1 Hpg1] [pg2 Hpg2]]. cbn. split; intros ->; congruence.
Qed.

Definition view_del (t : pystr) v : view := λ t', if decide (t' = t) then None else v t'.
Lemma drop_run n e v name x : en_shows (S n) e v → v name = Some x → texts_ok [name] →
  ∃ e', en_on_catalog (drop_table name) e = (Ok (), e') ∧ en_meta_by_name e' = en_meta_by_name e ∧ en_shows n e' (view_del name v).
Proof.
  intros (m & recs & Hs) Hv Htx.
  destruct (ct_exec_ok (OpDropTable name) (en_pager e) m e.(en_catalog) n (es_disk _ _ _ _ _ Hs) (es_rooms _ _ _ _ _ Hs)) as
    (r & p' & c' & m' & head & Hx & Hsp & Hinv & Hr & Hsz & Hold); [pose proof (es_size _ _ _ _ _ Hs); lia|done|].
  cbn [ct_exec ct_spec] in Hx, Hsp. unfold dmem in Hsp. rewrite (es_catalog _ _ _ _ _ Hs), Hv, bool_decide_true in Hsp by done.
  injection Hsp as -> ->. eexists. split; [by apply en_catalog_run|]. split; [done|].
  exists m', recs. split; try done; cbn; unfold view_del.
  - pose proof (es_fuel _ _ _ _ _ Hs). lia.
  - pose proof (es_size _ _ _ _ _ Hs). unfold ct_size in *. cbn in *. pose proof (ddel_length name (ct_by_name (en_catalog e))). lia.
  - apply log_ready_pager. eapply log_ready_mono; [|by apply (es_log _ _ _ _ _ Hs)]. lia.
  - intros t. rewrite dget_ddel by (apply (wf_names _ (inv_wf _ _ (es_disk _ _ _ _ _ Hs)))). destruct (decide (t = name)); [done|]. apply Hs.
  - intros t meta es. destruct (decide (t = name)); [done|apply Hs].
  - intros t meta es. destruct (decide (t = name)); [done|]. intros Hv'. eapply tables_stay; [done|done|lia|done].
  - intros t1 t2 y. destruct (decide (t1 = name)); [by intros []|]. destruct (decide (t2 = name)); [by intros ? []|]. apply Hs.
  - intros t y. destruct (decide (t = name)); [by intros []|apply Hs].
Qed.
End Storage.
