(* ===== verification/DatabaseSpec.v ===== *)
(** Statements as transitions of the tables: the database refines a machine
    whose state is nothing but named tables of rows. *)
From S2P Require Import Prelude.
From S2P Require Import Bytes.
From S2P Require Import Utf8.
From S2P Require Import Text.
From S2P Require Import TypeSys.
From S2P Require Import Codec.
From S2P Require Import Coerce.
From S2P Require Import Pager.
From S2P Require Import BufferPool.
From S2P Require Import Heap.
From S2P Require Import Wal.
From S2P Require Import Recovery.
From S2P Require Import Lock.
From S2P Require Import TxManager.
From stdpp Require Import gmap.
From S2P Require Import Ast.
From S2P Require Import Tokens.
From S2P Require Import Parser.
From S2P Require Import PyConv.
From S2P Require Import PyOrder.
From S2P Require Import PyDict.
From S2P Require Import BTreeSpec.
From S2P Require Import Catalog.
From S2P Require Import CatalogSpec.
From S2P Require Import EvalExpr.
From S2P Require Import Gen.
From S2P Require Import Plan.
From S2P Require Import IndexPlan.
From S2P Require Import Dml.
From S2P Require Import Planner.
From S2P Require Import IndexManager.
From S2P Require Import Engine.
From S2P Require Import Database.
From S2P Require Import ReadSpec.
From S2P Require Import SelectSpec.
From S2P Require Import DmlSpec.
From S2P Require Import EngineSpec.
From Stdlib Require Import ZArith Lia.
Local Open Scope Z_scope.

(** * Plans are functions of the tables *)

Section Plans.
Context {St : Type} {shows : nat → St → view → Prop} `{ReadLaws St shows} `{PyRepr}.
Implicit Types (s : St) (v : view).

Definition find_table v (t : pystr) : result TableMeta := of_option UnknownTableError (fst <$> v t).
(** The plan of an INSERT, UPDATE or DELETE *)
Definition dml_planned v (stmt : Statement) : result dml_plan :=
  match stmt with
  | Insert table columns values =>
      meta ← find_table v table;
      expanded ← (match columns with
                  | None => Ok values
                  | Some columns =>
                      let col_names := meta_column_names meta in
                      ensure (forallb (λ c, bool_decide (c ∈ col_names)) columns) UnknownColumnError;;
                      idx_map ← mapR (λ c, index_of c col_names) columns;
                      mapR (expand_row (length col_names) idx_map) values
                  end);
      Ok (InsertPlan table expanded)
  | Update table set_clauses where_ =>
      meta ← find_table v table;
      ensure (forallb (λ a, bool_decide (a.(as_column) ∈ meta_column_names meta)) set_clauses) UnknownColumnError;;
      validate_where where_ meta;;
      Ok (UpdatePlan table (map (λ a, (a.(as_column), a.(as_value))) set_clauses) where_)
  | Delete table where_ => meta ← find_table v table; validate_where where_ meta;; Ok (DeletePlan table where_)
  | _ => Err NotImplementedError
  end.
Definition is_dml (stmt : Statement) : bool := match stmt with Insert _ _ _ | Update _ _ _ | Delete _ _ => true | _ => false end.
Lemma dml_planned_run n s v stmt : shows n s v → is_dml stmt = true → plan_statement stmt s = (inr <$> dml_planned v stmt, s).
Proof.
  intros Hs. destruct stmt as [| | |t columns values| |t sets w|t w]; try done; intros _;
    cbn [plan_statement dml_planned]; unfold _plan_insert, _plan_update, _plan_delete;
    rewrite run_assoc; pose proof (require_table_run _ _ _ t Hs) as Hreq; fold (find_table v t) in Hreq;
    (destruct (find_table v t) as [meta|e]; [rewrite (run_Ok _ _ _ _ _ Hreq), bind_Ok|by rewrite (run_Err _ _ _ _ _ Hreq)]).
  - destruct columns as [columns|]; mrun; [|done]. unfold assert. destruct (ensure _ UnknownColumnError); [mrun|done].
    destruct (mapR (λ c, index_of c _) columns) as [idx|]; [|done]. mrun. rewrite !bind_Ok.
    by destruct (mapR (expand_row (length (meta_column_names meta)) idx) values).
  - unfold assert. destruct (ensure _ UnknownColumnError); [mrun|done]. by destruct (validate_where w meta).
  - by destruct (validate_where w meta).
Qed.

(** The plan of a SELECT from one table *)
Definition select_planned v (indexes : option (list IndexMeta)) (stmt : SelectStmt) (name : pystr) : result plan :=
  meta ← find_table v name;
  validate_where stmt.(sel_where) meta;;
  src ← plan_source stmt.(sel_where) meta indexes;
  src ← (if is_aggregated stmt then Ok (AggregatePlan src (agg_pairs stmt.(sel_columns)) stmt.(sel_group_by))
         else columns ← _project_columns stmt meta; Ok (Project src columns stmt.(sel_columns)));
  ensure (forallb (λ k, bool_decide (k.1 ∈ meta_column_names meta)) (sort_keys stmt)) UnknownColumnError;;
  group_columns_known stmt (meta_column_names meta);;
  Ok (with_limit stmt (with_sort stmt src)).
Lemma select_planned_run n s v stmt name alias : shows n s v → stmt.(sel_from) = Table name alias →
  _plan_select stmt s = (select_planned v (xo_indexes s) stmt name, s).
Proof.
  intros Hs Hf. unfold _plan_select. rewrite Hf. unfold plan_table_select, select_planned.
  pose proof (require_table_run _ _ _ name Hs) as Hreq. fold (find_table v name) in Hreq.
  destruct (find_table v name) as [meta|e]; [rewrite (run_Ok _ _ _ _ _ Hreq), bind_Ok|by rewrite (run_Err _ _ _ _ _ Hreq)].
  destruct (validate_where _ meta); [mrun; rewrite bind_Ok|done].
  destruct (plan_source _ meta _) as [src|]; [mrun; rewrite bind_Ok|done].
  assert (∀ src, (assert (forallb (λ k, bool_decide (k.1 ∈ meta_column_names meta)) (sort_keys stmt)) UnknownColumnError;;
      lift (group_columns_known stmt (meta_column_names meta));; mret (with_limit stmt (with_sort stmt src))) s =
    (ensure (forallb (λ k, bool_decide (k.1 ∈ meta_column_names meta)) (sort_keys stmt)) UnknownColumnError;;
     group_columns_known stmt (meta_column_names meta);; Ok (with_limit stmt (with_sort stmt src)), s)) as Hend.
  { intros src'. unfold assert. destruct (ensure _ UnknownColumnError); [mrun; rewrite bind_Ok|done]. by destruct (group_columns_known _ _). }
  destruct (is_aggregated stmt); [mrun; rewrite bind_Ok; apply Hend|]. rewrite run_assoc.
  destruct (_project_columns stmt meta); [mrun; rewrite !bind_Ok; apply Hend|done].
Qed.
End Plans.

(** * The machine *)

Section Machine.
Context `{JsonLib} `{ArithLib} `{PyRepr}.
Implicit Types (v : view).

(** What a statement does: its result and the tables after it.  Rows of a table
    have no order of their own after a write. *)
Inductive effect v : Statement → result (list row) → view → Prop :=
  | eff_create name columns id head : v name = None → columns ≠ [] →
      effect v (CreateTable name columns) (Ok []) (view_set name (new_table id name columns head) v)
  | eff_create_refused name columns : is_Some (v name) ∨ columns = [] →
      effect v (CreateTable name columns) (Err ValueError) v
  | eff_drop name if_exists : is_Some (v name) → effect v (DropTable name if_exists) (Ok []) (view_del name v)
  | eff_drop_absent name if_exists : v name = None → effect v (DropTable name if_exists) (Ok []) v
  | eff_select s name alias lim off : s.(sel_from) = Table name alias →
      s.(sel_limit) = PyInt <$> lim → s.(sel_offset) = PyInt <$> off →
      effect v (Select s) (select_expected v s name lim off) v
  | eff_unplanned stmt e : is_dml stmt = true → dml_planned v stmt = Err e → effect v stmt (Err e) v
  | eff_dml stmt p meta es es' v' : is_dml stmt = true → dml_planned v stmt = Ok p → v (dml_table p) = Some (meta, es) →
      becomes (dml_table p) v v' (meta, es') → rows_of es' ≡ₚ (dml_effect meta (rows_of es) p).2 →
      effect v stmt (n ← (dml_effect meta (rows_of es) p).1; Ok [[PyInt n]]) v'.

(** The statements that the machine describes: over tables without an index,
    and no primary key, which would make one; SELECT of columns of one table. *)
Definition covered v (indexes : option (list IndexMeta)) (stmt : Statement) : Prop :=
  match stmt with
  | CreateTable name columns => texts_ok (name :: map col_name columns) ∧ forallb (λ c, negb c.(col_primary_key)) columns = true
  | DropTable name _ => texts_ok [name] ∧ plain name indexes
  | CreateIndex _ _ _ _ => False
  | Select s => ∃ name alias lim off, s.(sel_from) = Table name alias ∧ s.(sel_limit) = PyInt <$> lim ∧ s.(sel_offset) = PyInt <$> off ∧
      forallb plain_item s.(sel_columns) = true ∧ s.(sel_group_by) = [] ∧ plain name indexes ∧
      ∀ meta es, v name = Some (meta, es) → clean_columns meta ∧
        ∀ w, s.(sel_where) = Some w → is_ok (extract_indexable w (meta_column_names meta)) = true
  | Insert _ _ _ | Update _ _ _ | Delete _ _ => ∀ p meta es, dml_planned v stmt = Ok p → v (dml_table p) = Some (meta, es) →
      plain (dml_table p) indexes ∧ dml_storable meta (rows_of es) p
  end.
(** The pages that it may take *)
Definition stmt_cost v (stmt : Statement) : nat :=
  match dml_planned v stmt with
  | Ok p => match v (dml_table p) with Some (_, es) => S (dml_writes (rows_of es) p) | None => 0 end
  | Err _ => match stmt with Select _ => 2 | _ => 1 end
  end.
Definition writes (stmt : Statement) : bool := match stmt with Select _ => false | _ => true end.
Lemma planned_table v stmt p : dml_planned v stmt = Ok p → is_Some (v (dml_table p)).
Proof.
  destruct stmt as [| | |t columns values| |t sets w|t w]; cbn [dml_planned]; try done; unfold find_table;
    (destruct (v t) as [[meta es]|] eqn:Hv; cbn [fmap option_fmap option_map of_option]; [rewrite bind_Ok|done]).
  - destruct (match columns with Some _ => _ | None => _ end); [|done]. rewrite bind_Ok. intros [= <-]. cbn. by rewrite Hv.
  - destruct (ensure _ _); [|done]. rewrite bind_Ok. destruct (validate_where _ _); [|done]. intros [= <-]. cbn. by rewrite Hv.
  - destruct (validate_where _ _); [|done]. intros [= <-]. cbn. by rewrite Hv.
Qed.
End Machine.

(** * The lock around a statement *)

Section Locking.
Context {P : Type}.
Abbreviation DB := (Engine P).
Implicit Types (e : DB) (L : WriteLock).

Definition db_lock e : WriteLock := e.(en_mgr).(mg_lock).
Definition set_db_lock L e : DB := with_mgr (with_lock L e.(en_mgr)) e.
Definition with_rw (l : RWLock) L : WriteLock := mkWL l L.(wl_stacks).
Definition blocked (write : bool) L : bool := if write then write_blocked L.(wl_rwlock) else read_blocked L.(wl_rwlock).
(** The lock while the statement runs *)
Definition taken (write : bool) (me : Z) L : WriteLock :=
  let l := L.(wl_rwlock) in
  with_rw (if write then mkRW l.(rw_readers) (Some me) l.(rw_writers_waiting) l.(rw_prefer_writer)
           else mkRW (l.(rw_readers) + 1) l.(rw_writer) l.(rw_writers_waiting) l.(rw_prefer_writer)) L.
Lemma set_lock_same e : set_db_lock (db_lock e) e = e.
Proof. unfold set_db_lock, db_lock. destruct e as [g]. unfold with_mgr. cbn. by destruct g. Qed.

Lemma unfold_on_lock {A} (m : M RWLock A) L e a l : m L.(wl_rwlock) = (a, l) → db_lock e = L →
  on_lock m e = (a, set_db_lock (with_rw l L) e).
Proof. intros Hm <-. unfold on_lock, zoom, on_rwlock, zoom. unfold db_lock in *. by rewrite Hm. Qed.
Lemma finally_run {A} (m : M DB A) h e r e1 e2 : m e = (r, e1) → h e1 = (Ok (), e2) → finally (a ← m; mret (Some a)) h e = (Some <$> r, e2).
Proof. intros Hm Hh. unfold finally, mbind, M_bind. rewrite Hm. destruct r; [unfold mret, M_ret|]; by rewrite Hh. Qed.
Lemma blocked_waits {A} write me (m : M DB A) e : blocked write (db_lock e) = true → locked write me m e = (Ok None, e).
Proof. unfold locked, blocked, db_lock. mrun. destruct write; by intros ->. Qed.
(** Whatever the statement does, its lock is free again. *)
Lemma locked_run {A} write me (m : M DB A) e r e1 L : db_lock e = L → blocked write L = false → 0 <= L.(wl_rwlock).(rw_readers) →
  m (set_db_lock (taken write me L) e) = (r, e1) → db_lock e1 = taken write me L →
  locked write me m e = (Some <$> r, set_db_lock L e1).
Proof.
  intros HL Hb Hr Hm He1. destruct L as [[rd wr wt pf] st]. unfold locked. mrun. fold (db_lock e). rewrite HL. unfold blocked in Hb.
  destruct write; rewrite Hb.
  - assert (on_lock (count_waiting 1;; try_write me) e = (Ok true, set_db_lock (taken true me (mkWL (mkRW rd wr wt pf) st)) e)) as Hl.
    { eapply (unfold_on_lock _ _ _ _ (mkRW rd (Some me) wt pf)); [|exact HL]. unfold try_write, count_waiting. mrun.
      unfold write_blocked, is_writer_held in *. cbn [rw_readers rw_writer wl_rwlock] in *. rewrite Hb. mrun. cbn. do 2 f_equal. lia. }
    rewrite (run_Ok _ _ _ _ _ Hl).
    assert (wr = None) as -> by (unfold write_blocked, is_writer_held in Hb; cbn in Hb; apply orb_false_elim in Hb as [_ Hb]; by destruct wr).
    assert (∀ e1, db_lock e1 = taken true me (mkWL (mkRW rd None wt pf) st) →
      (_ ← on_lock (release_write me); mret ()) e1 = (Ok (), set_db_lock (mkWL (mkRW rd None wt pf) st) e1)) as Hrel.
    { intros e2 He2. assert (on_lock (release_write me) e2 = (Ok true, set_db_lock (mkWL (mkRW rd None wt pf) st) e2)) as Hx.
      { rewrite (unfold_on_lock _ _ _ (Ok true) (mkRW rd None wt pf)) with (2 := He2); [done|].
        unfold release_write. mrun. cbn [taken with_rw wl_rwlock rw_writer]. rewrite bool_decide_true by done. by mrun. }
      by rewrite (run_Ok _ _ _ _ _ Hx). }
    exact (finally_run _ _ _ _ _ _ Hm (Hrel _ He1)).
  - assert (on_lock try_read e = (Ok true, set_db_lock (taken false me (mkWL (mkRW rd wr wt pf) st)) e)) as Hl.
    { eapply (unfold_on_lock _ _ _ _ (mkRW (rd + 1) wr wt pf)); [|exact HL]. unfold try_read. mrun.
      cbn [wl_rwlock] in *. rewrite Hb. by mrun. }
    rewrite (run_Ok _ _ _ _ _ Hl).
    assert (wr = None) as -> by (unfold read_blocked, is_writer_held in Hb; cbn in Hb; apply orb_false_elim in Hb as [Hb _]; by destruct wr).
    assert (∀ e1, db_lock e1 = taken false me (mkWL (mkRW rd None wt pf) st) →
      (_ ← on_lock release_read; mret ()) e1 = (Ok (), set_db_lock (mkWL (mkRW rd None wt pf) st) e1)) as Hrel.
    { intros e2 He2. assert (∃ b, on_lock release_read e2 = (Ok b, set_db_lock (mkWL (mkRW rd None wt pf) st) e2)) as [b Hx].
      { cbn [wl_rwlock rw_readers] in Hr. exists (rd =? 0).
        rewrite (unfold_on_lock _ _ _ (Ok (rd =? 0)) (mkRW rd None wt pf)) with (2 := He2); [done|].
        unfold release_read. mrun. cbn [taken with_rw wl_rwlock rw_writer rw_readers is_writer_held].
        destruct (Z.leb_spec (rd + 1) 0); [lia|]. cbn. unfold is_writer_held. cbn. mrun. cbn. replace (rd + 1 - 1) with rd by lia. done. }
      by rewrite (run_Ok _ _ _ _ _ Hx). }
    exact (finally_run _ _ _ _ _ _ Hm (Hrel _ He1)).
Qed.
End Locking.

(** * The refinement *)

Section Refinement.
Context `{MetaJsonLaws} `{PyConv} `{JsonLib} `{IsoLib} `{UniLib} `{ArithLib} `{PyRepr}.
Context {P : Type} {stores : P → gmap Z bytes → Prop} {rooms : nat → P → Prop}.
Context {POps : PagerOps P} {PLaws : PagerLaws P stores} {AOps : AllocOps P} {RLaws : RoomLaws P stores rooms} {LOps : LsnOps P} {FOps : FreeOps P}.
Context (fuel : nat).
Abbreviation DB := (Engine P).
Abbreviation shows := (en_shows (stores := stores) (rooms := rooms) fuel).
Implicit Types (e : DB) (v : view) (L : WriteLock) (T : option TransactionContext).
#[local] Instance db_ops : ExecOps DB := Engine_ops fuel.

Lemma shows_lock L L' T n e v : shows L T n e v → shows L' T n (set_db_lock L' e) v.
Proof.
  intros (m & recs & [? ? ? ? [_ Ha Hl Ht] ? ? ? ? ?]). exists m, recs. by split.
Qed.
Lemma shows_lock_is L T n e v : shows L T n e v → db_lock e = L ∧ e.(en_mgr).(mg_active_tx) = T.
Proof. by intros (m & recs & [? ? ? ? [] ? ? ? ? ?]). Qed.

Definition planned v (indexes : option (list IndexMeta)) (stmt : Statement) : result (option (plan + dml_plan)) :=
  match stmt with
  | Select s => match s.(sel_from) with Table name _ => (Some ∘ inl) <$> select_planned v indexes s name | Join _ _ _ _ _ _ => Err NotImplementedError end
  | Insert _ _ _ | Update _ _ _ | Delete _ _ => (Some ∘ inr) <$> dml_planned v stmt
  | CreateTable _ _ | DropTable _ _ | CreateIndex _ _ _ _ => Ok None
  end.
Lemma plan_of_run L T n e v stmt : shows L T n e v → covered v (xo_indexes e) stmt →
  plan_of fuel stmt e = (planned v (xo_indexes e) stmt, e).
Proof.
  intros Hs Hc. unfold plan_of.
  assert (is_dml stmt = true → (p ← plan_statement stmt; mret (Some p)) e = ((Some ∘ inr) <$> dml_planned v stmt, e)) as Hdml.
  { intros Hd. pose proof (dml_planned_run n e v stmt Hs Hd) as Hp.
    destruct (dml_planned v stmt) as [p|x]; [by rewrite (run_Ok _ _ _ _ _ Hp)|by rewrite (run_Err _ _ _ _ _ Hp)]. }
  destruct stmt as [| | | |s| |]; try done; try by apply Hdml.
  destruct Hc as (name & alias & _ & _ & Hf & _). cbn [planned is_ddl plan_statement]. rewrite Hf.
  pose proof (select_planned_run n e v s name alias Hs Hf) as Hp. rewrite run_assoc.
  destruct (select_planned v (xo_indexes e) s name) as [p|x]; [by rewrite (run_Ok _ _ _ _ _ Hp)|by rewrite (run_Err _ _ _ _ _ Hp)].
Qed.
Lemma no_index_plans v indexes s name meta es e : v name = Some (meta, es) → meta.(tm_name) = name → plain name indexes →
  (∀ w, s.(sel_where) = Some w → is_ok (extract_indexable w (meta_column_names meta)) = true) →
  xo_indexes e = indexes → no_index_plan s meta e.
Proof.
  intros Hv Hn Hp Hw Hi w Hsw. specialize (Hw w Hsw). unfold _try_index_plan.
  destruct (extract_indexable w (meta_column_names meta)) as [pred|]; [rewrite bind_Ok|done]. rewrite Hi.
  destruct pred as [pred|]; [|done]. destruct indexes as [metas|]; [|done]. unfold find_index. rewrite Hn.
  destruct (list_find _ metas) as [[i m]|] eqn:Hf; [|done]. apply list_find_Some in Hf as (Hm & [Ht _] & _).
  exfalso. apply (Hp metas m eq_refl); [by eapply list_elem_of_lookup_2|done].
Qed.

(** ** Each kind of statement *)

(** The statement leads from a state that shows [v] to what the machine says. *)
Definition goes L T n v (stmt : Statement) (out : result (list row) * DB) (indexes : option (list IndexMeta)) : Prop :=
  ∃ v', effect v stmt out.1 v' ∧ shows L T n out.2 v' ∧ xo_indexes out.2 = indexes.
Lemma select_goes L T n e v s : shows L T (S (S n)) e v → covered v (xo_indexes e) (Select s) →
  goes L T n v (Select s) ((p ← _plan_select s; Plan.execute p) e) (xo_indexes e).
Proof.
  intros Hs (name & alias & lim & off & Hf & Hl & Ho & Hp & Hg & Hplain & Hmeta).
  destruct (select_run s name alias lim off n e v Hs) as (e' & -> & Hs' & Hi); try done.
  - intros meta es Hv. destruct (Hmeta meta es Hv) as [Hcl Hw]. split; [done|].
    eapply no_index_plans; [done|by eapply (rl_name (shows := shows L T))|done..].
  - exists v. split; [by eapply eff_select|done].
Qed.
Lemma create_keys_none name columns e : forallb (λ c, negb c.(col_primary_key)) columns = true → create_keys fuel name columns e = (Ok (), e).
Proof.
  induction columns as [|c columns IH]; [done|]. cbn [forallb create_keys]. intros [Hc Hcs]%andb_prop.
  destruct (col_primary_key c); [done|]. mrun. by apply IH.
Qed.
Lemma indexes_same e e' : en_meta_by_name e' = en_meta_by_name e → xo_indexes e' = xo_indexes e.
Proof. cbn. by intros ->. Qed.
Lemma create_goes L T n e v name columns : shows L T (S n) e v → covered v (xo_indexes e) (CreateTable name columns) →
  goes L T n v (CreateTable name columns) (_execute_unlocked fuel (CreateTable name columns) None e) (xo_indexes e).
Proof.
  intros Hs [Htx Hpk]. destruct (create_run fuel L T n e v name columns Hs Htx) as (r & e' & Hx & Hm & Hr).
  apply indexes_same in Hm. unfold _execute_unlocked, execute_ddl. rewrite run_assoc.
  destruct (bool_decide (is_Some (v name)) || bool_decide (columns = [])) eqn:Hb.
  - destruct Hr as [-> Hs']. rewrite (run_Err _ _ _ _ _ Hx). exists v. split; [|done]. apply eff_create_refused.
    apply orb_true_iff in Hb as [Hb|Hb]; apply bool_decide_eq_true in Hb; [by left|by right].
  - destruct Hr as (id & head & -> & Hs'). rewrite (run_Ok _ _ _ _ _ Hx). rewrite (run_Ok _ _ _ _ _ (create_keys_none name columns e' Hpk)).
    eexists. split; [apply eff_create|done]; apply orb_false_elim in Hb as [Hb1 Hb2]; apply bool_decide_eq_false in Hb1, Hb2; [|done].
    by apply eq_None_not_Some.
Qed.
Lemma drop_goes L T n e v name if_exists : shows L T (S n) e v → covered v (xo_indexes e) (DropTable name if_exists) →
  goes L T n v (DropTable name if_exists) (_execute_unlocked fuel (DropTable name if_exists) None e) (xo_indexes e).
Proof.
  intros Hs [Htx Hp]. unfold _execute_unlocked, execute_ddl. mrun.
  assert (name ∈ list_tables e.(en_catalog) ↔ is_Some (v name)) as Hin.
  { destruct Hs as (m & recs & Hs). unfold list_tables, sorted_names. rewrite sorted_by_perm, <-dget_is_Some, (es_catalog _ _ _ _ _ _ _ _ Hs). apply fmap_is_Some. }
  destruct (v name) as [x|] eqn:Hv.
  - rewrite bool_decide_true by (apply Hin; done).
    assert (im_list_indexes (Some name) (indexer_of e) = []) as ->.
    { unfold im_list_indexes. cbn [indexer_of im_meta_by_name]. by rewrite (no_indexes fuel name e Hp). }
    cbn [drop_indexes]. mrun. destruct (drop_run fuel L T n e v name x Hs Hv Htx) as (e' & Hx & Hm & Hs').
    rewrite (run_Ok _ _ _ _ _ Hx). exists (view_del name v). split; [by apply eff_drop; rewrite Hv|]. split; [done|]. by apply indexes_same.
  - rewrite bool_decide_false by (rewrite Hin; by intros []). mrun. exists v. split; [by apply eff_drop_absent|].
    split; [by eapply (rl_less (shows := shows L T))|done].
Qed.
Lemma dml_goes L T n e v stmt p meta es : is_dml stmt = true → dml_planned v stmt = Ok p → v (dml_table p) = Some (meta, es) →
  shows L T (S (dml_writes (rows_of es) p) + n) e v → covered v (xo_indexes e) stmt →
  goes L T n v stmt (execute_dml p e) (xo_indexes e).
Proof.
  intros Hd Hp Hv Hs Hc. assert (plain (dml_table p) (xo_indexes e) ∧ dml_storable meta (rows_of es) p) as [Hpl Hst] by (destruct stmt; try done; by apply Hc).
  destruct (dml_run p n e v meta es Hs Hpl Hv Hst) as (e' & v' & es' & -> & Hs' & Hi & Hb & Hr).
  exists v'. split; [by eapply eff_dml|done].
Qed.

(** ** Statements and sessions *)

Lemma writes_is_write v indexes stmt p : covered v indexes stmt → planned v indexes stmt = Ok p → is_write p = writes stmt.
Proof.
  destruct stmt as [| | |t columns values|s|t sets w|t w]; cbn [planned writes]; try by intros _ [= <-].
  1, 3, 4: by intros _; destruct (dml_planned _ _); [intros [= <-]|].
  intros (name & alias & _ & _ & -> & _). by destruct (select_planned v indexes s name); [intros [= <-]|].
Qed.
(** The plan fails, or it runs as the machine says. *)
Lemma statement_unlocked L T n e v stmt : shows L T (stmt_cost v stmt + n) e v → covered v (xo_indexes e) stmt →
  match planned v (xo_indexes e) stmt with
  | Err x => effect v stmt (Err x) v
  | Ok p => goes L T n v stmt (_execute_unlocked fuel stmt p e) (xo_indexes e)
  end.
Proof.
  intros Hs Hc. unfold stmt_cost in Hs.
  assert (is_dml stmt = true → match (Some ∘ inr) <$> dml_planned v stmt with
    | Err x => effect v stmt (Err x) v
    | Ok p => goes L T n v stmt (_execute_unlocked fuel stmt p e) (xo_indexes e)
    end) as Hdml.
  { intros Hd. destruct (dml_planned v stmt) as [p|x] eqn:Hp; [|by apply eff_unplanned].
    destruct (planned_table _ _ _ Hp) as [[meta es] Hv]. rewrite Hv in Hs. by eapply dml_goes. }
  destruct stmt as [name columns|name if_exists| |t columns values|s|t sets w|t w]; cbn [planned]; try by apply Hdml.
  - by apply create_goes.
  - by apply drop_goes.
  - done.
  - pose proof (select_goes L T n e v s Hs Hc) as Hg. destruct Hc as (name & alias & lim & off & Hf & _). rewrite Hf.
    unfold goes in Hg. pose proof (select_planned_run _ e v s name alias Hs Hf) as Hp.
    destruct (select_planned v (xo_indexes e) s name) as [p|x].
    + by rewrite (run_Ok _ _ _ _ _ Hp) in Hg.
    + rewrite (run_Err _ _ _ _ _ Hp) in Hg. destruct Hg as (v' & He & _). inversion He; subst; solve [exact He | done].
Qed.
(** No transaction is active and the lock is free, or the transaction owns it. *)
Definition may_run (L : WriteLock) (T : option TransactionContext) : Prop :=
  0 <= L.(wl_rwlock).(rw_readers) ∧ (T = None → ∀ write, blocked write L = false).
Lemma statement_run me L T n e v stmt : may_run L T → shows L T (stmt_cost v stmt + n) e v → covered v (xo_indexes e) stmt →
  ∃ r e', run_statement fuel me stmt e = (Some <$> r, e') ∧ goes L T n v stmt (r, e') (xo_indexes e).
Proof.
  intros [Hr Hfree] Hs Hc. destruct (shows_lock_is _ _ _ _ _ Hs) as [HL HT].
  assert (shows L T n e v) as Hsn by by eapply (shows_less (shows := shows L T)).
  unfold run_statement. pose proof (plan_of_run L T _ e v stmt Hs Hc) as Hp.
  destruct (planned v (xo_indexes e) stmt) as [p|x] eqn:Hpl.
  2: { rewrite (run_Err _ _ _ _ _ Hp). exists (Err x), e. split; [done|]. exists v. split; [|done].
       pose proof (statement_unlocked L T n e v stmt Hs Hc) as Hg. by rewrite Hpl in Hg. }
  rewrite (run_Ok _ _ _ _ _ Hp). mrun. rewrite HT. destruct T as [tx|].
  - pose proof (statement_unlocked L _ n e v stmt Hs Hc) as Hg. rewrite Hpl in Hg.
    destruct (_execute_unlocked fuel stmt p e) as [r e'] eqn:Hx. exists r, e'. split; [|done].
    by destruct r; [rewrite (run_Ok _ _ _ _ _ Hx)|rewrite (run_Err _ _ _ _ _ Hx)].
  - set (L1 := taken (is_write p) me L). pose proof (shows_lock L L1 None _ e v Hs) as Hs1.
    pose proof (statement_unlocked L1 None n (set_db_lock L1 e) v stmt Hs1 Hc) as Hg.
    change (xo_indexes (set_db_lock L1 e)) with (xo_indexes e) in Hg. rewrite Hpl in Hg.
    destruct (_execute_unlocked fuel stmt p (set_db_lock L1 e)) as [r e1] eqn:Hx.
    destruct Hg as (v' & He & Hs' & Hi). cbn [fst snd] in *. destruct (shows_lock_is _ _ _ _ _ Hs') as [HL1 _].
    exists r, (set_db_lock L e1). split; [by apply (locked_run _ _ _ _ _ _ L); [|apply Hfree|..]|].
    exists v'. split; [done|]. split; [by eapply shows_lock|done].
Qed.

(** Statements in SQL, one after the other; an error does not end the session. *)
Fixpoint run_session (me : Z) (sqls : list pystr) : M DB (list (result (option (list row)))) := λ e,
  match sqls with
  | [] => (Ok [], e)
  | sql :: sqls =>
      let '(r, e) := execute_sql fuel me sql e in
      let '(rs, e) := run_session me sqls e in
      (rs ← rs; Ok (r :: rs), e)
  end.
Inductive effects v : list pystr → list (result (list row)) → view → Prop :=
  | effs_nil : effects v [] [] v
  | effs_unparsed sql sqls x rs v' : parse sql = Err x → effects v sqls rs v' → effects v (sql :: sqls) (Err x :: rs) v'
  | effs_cons sql sqls stmt r rs v1 v' : parse sql = Ok stmt → effect v stmt r v1 → effects v1 sqls rs v' →
      effects v (sql :: sqls) (r :: rs) v'.
(** The machine describes all the statements of the session, whatever tables
    the ones before it leave, and [n] pages are enough. *)
Fixpoint covered_all (n : nat) v (indexes : option (list IndexMeta)) (sqls : list pystr) : Prop :=
  match sqls with
  | [] => True
  | sql :: sqls =>
      match parse sql with
      | Err _ => covered_all n v indexes sqls
      | Ok stmt => covered v indexes stmt ∧ (stmt_cost v stmt <= n)%nat ∧
          ∀ r v', effect v stmt r v' → covered_all (n - stmt_cost v stmt) v' indexes sqls
      end
  end.
(** The beginning of a session, and what the machine says of the rest *)
Lemma session_run me L T sqls more n e v : may_run L T → shows L T n e v → covered_all n v (xo_indexes e) (sqls ++ more) →
  ∃ rs e' v' n', run_session me sqls e = (Ok (map (fmap Some) rs), e') ∧ effects v sqls rs v' ∧
    shows L T n' e' v' ∧ xo_indexes e' = xo_indexes e ∧ covered_all n' v' (xo_indexes e) more.
Proof.
  intros HL. revert n e v. induction sqls as [|sql sqls IH]; intros n e v Hs Hc; cbn [run_session covered_all app] in *.
  { exists [], e, v, n. split; [done|]. split; [constructor|done]. }
  unfold execute_sql. destruct (parse sql) as [stmt|x] eqn:Hsql.
  - destruct Hc as (Hc & Hn & Hnext). rewrite run_lift_Ok.
    replace n with (stmt_cost v stmt + (n - stmt_cost v stmt))%nat in Hs by lia.
    destruct (statement_run me L T _ e v stmt HL Hs Hc) as (r & e1 & -> & v1 & He & Hs1 & Hi). cbn [fst snd] in *.
    destruct (IH _ e1 v1 Hs1) as (rs & e' & v' & n' & -> & Hef & Hs' & Hi' & Hmore); [rewrite Hi; by eapply Hnext|].
    exists (r :: rs), e', v', n'. split; [done|]. split; [by eapply effs_cons|]. split; [done|]. split; congruence.
  - rewrite run_lift_Err. destruct (IH n e v Hs Hc) as (rs & e' & v' & n' & -> & Hef & Hrest).
    exists (Err x :: rs), e', v', n'. split; [done|]. split; [by apply effs_unparsed|done].
Qed.
End Refinement.
