(* ===== verification/MemWrites.v ===== *)
(** Writes to the storage that keeps the encoded rows in lists. *)
From S2P Require Import Prelude.
From S2P Require Import Bytes.
From S2P Require Import Utf8.
From S2P Require Import TypeSys.
From S2P Require Import Codec.
From S2P Require Import PyConv.
From S2P Require Import PyOrder.
From S2P Require Import PyDict.
From S2P Require Import Ast.
From S2P Require Import Heap.
From S2P Require Import Catalog.
From S2P Require Import EvalExpr.
From S2P Require Import Gen.
From S2P Require Import Plan.
From S2P Require Import Dml.
From S2P Require Import ReadSpec.
From S2P Require Import DmlSpec.
From S2P Require Import MemDb.
From Stdlib Require Import ZArith Lia.
Local Open Scope Z_scope.

Section MemWrites.
Context `{JsonLib}.

Lemma next_rid_fresh (bs : list (Rid * bytes)) : next_rid bs ∉ map fst bs.
Proof.
  assert (∀ b, b ∈ bs → b.1.(slot_id) < (next_rid bs).(slot_id)) as Hlt.
  { intros b Hb. unfold next_rid. cbn [slot_id]. induction bs as [|b' bs IH]; [by apply elem_of_nil in Hb|].
    apply elem_of_cons in Hb as [->|Hb]; cbn [map foldr]; [lia|]. specialize (IH Hb). lia. }
  intros (b & Heq & Hb)%list_elem_of_fmap. specialize (Hlt b Hb). rewrite Heq in Hlt. lia.
Qed.
Lemma mem_shows_set n s v t meta es bs' es' : mem_shows n s v → v t = Some (meta, es) → NoDup (map fst bs') →
  Forall2 (λ (b : Rid * bytes) (e : Rid * row), b.1 = e.1 ∧ decode_row b.2 (tags_of meta) = Ok e.2) bs' es' →
  ∀ f bs, dget t s.(mm_tables) = Some (meta, bs) → f bs = bs' → mem_shows n (set_blobs t f s) (view_set t (meta, es') v).
Proof.
  intros Hs Hv Hnd Hf f bs Hd Hfb. destruct (mem_shows_table _ _ _ _ _ _ Hs Hv) as (bs0 & Hd0 & Hn & _).
  destruct Hs as [Hi Hs]. unfold set_blobs. rewrite Hd, Hfb. split; [done|]. intros t'. cbn [mm_tables]. unfold view_set.
  destruct (decide (t' = t)) as [->|Hne]; [by rewrite dget_dset, decide_True|]. rewrite dget_dset, decide_False by done. apply Hs.
Qed.
Lemma set_blobs_indexes t f s : xo_indexes (set_blobs t f s) = xo_indexes s.
Proof. unfold set_blobs. by destruct (dget t (mm_tables s)) as [[meta bs]|]. Qed.
#[global] Instance Mem_writes : WriteLaws MemDb.
Proof.
  split.
  - intros n s v t [meta es] Hs _ Hv. destruct (mem_shows_table _ _ _ _ _ _ Hs Hv) as (bs & Hd & _).
    exists s. split; [|done]. cbn. unfold mbind, M_bind, get, lift, mem_table. by rewrite Hd.
  - done.
  - done.
  - done.
  - intros n s v t meta es blob r Hs _ Hv _ _ Hdec. destruct (mem_shows_table _ _ _ _ _ _ Hs Hv) as (bs & Hd & Hn & Hnd & Hf).
    pose proof (next_rid_fresh bs) as Hfresh. set (rid := next_rid bs) in *.
    exists rid, (set_blobs t (λ bs, bs ++ [(rid, blob)]) s), (view_set t (meta, es ++ [(rid, r)]) v), (es ++ [(rid, r)]).
    split; [|split; [|split; [by apply set_blobs_indexes|split; [apply view_set_becomes|by rewrite <-Permutation_cons_append]]]].
    + cbn. unfold mbind, M_bind, get, put, mem_blobs. by rewrite Hn, Hd.
    + eapply mem_shows_set; [done|done| | |done|done].
      * rewrite map_app. apply NoDup_app. split; [done|]. split; [|apply NoDup_singleton]. intros x Hx ->%list_elem_of_singleton. done.
      * apply Forall2_app; [done|]. by repeat constructor.
  - intros n s v t meta es rid Hs _ Hv Hin. destruct (mem_shows_table _ _ _ _ _ _ Hs Hv) as (bs & Hd & Hn & Hnd & Hf).
    exists (set_blobs t (ddel rid) s), (view_set t (meta, filter (λ e : Rid * row, e.1 ≠ rid) es) v), (filter (λ e : Rid * row, e.1 ≠ rid) es).
    split; [|split; [|split; [by apply set_blobs_indexes|split; [apply view_set_becomes|done]]]].
    + cbn. unfold modify. by rewrite Hn.
    + eapply mem_shows_set; [done|done| | |done|done].
      * by apply ddel_nodup.
      * clear -Hf Hnd. induction Hf as [|[rid' b] [rid'' r] bs es [Hbe Hdec] Hf IH]; [done|]. cbn [fst snd] in *. subst rid''.
        assert (map fst es = map fst bs) as Hkeys by (clear -Hf; induction Hf as [|b' e' bs es [Hbe' _] _ IH']; [done|]; cbn; by rewrite Hbe', IH').
        cbn [ddel]. destruct (decide (rid = rid')) as [->|Hne].
        -- pose proof (filter_distinct [] es (rid', r)) as Hfil. cbn [app map fst] in Hfil. rewrite Hfil; [done|]. by rewrite Hkeys.
        -- rewrite filter_cons, decide_True by done. constructor; [done|]. apply IH. by apply NoDup_cons in Hnd as [_ ?].
Defined.
End MemWrites.
