(* ===== verification/ExecDemo.v ===== *)
(** Concrete tables: the theorems about plans applied to them, and runs that
    show what the executor does in the cases that the theorems leave out. *)
From S2P Require Import Prelude.
From S2P Require Import Bytes.
From S2P Require Import Utf8.
From S2P Require Import TypeSys.
From S2P Require Import Codec.
From S2P Require Import Coerce.
From S2P Require Import PyConv.
From S2P Require Import PyOrder.
From S2P Require Import PyDict.
From S2P Require Import Ast.
From S2P Require Import Heap.
From S2P Require Import BTreeSpec.
From S2P Require Import Catalog.
From S2P Require Import EvalExpr.
From S2P Require Import Aggregation.
From S2P Require Import Gen.
From S2P Require Import Plan.
From S2P Require Import Dml.
From S2P Require Import IndexScan.
From S2P Require Import SortSpec.
From S2P Require Import ReadSpec.
From S2P Require Import IndexPlan.
From S2P Require Import Planner.
From S2P Require Import SelectSpec.
From S2P Require Import JoinSpec.
From S2P Require Import JoinIndex.
From S2P Require Import AggSpec.
From S2P Require Import IndexSelect.
From S2P Require Import MemDb.
From S2P Require Import DmlSpec.
From S2P Require Import MemWrites.
From Stdlib Require Import ZArith Lia.
Local Open Scope Z_scope.

#[local] Instance demo_arith : ArithLib := {| arith_other _ _ _ := Err TypeError |}.
#[local] Instance demo_repr : PyRepr := {| py_repr _ := [] |}.
#[local] Existing Instance letters_json.

(** * Two tables, and an index of [pets.owner] *)

Definition column (name : String.string) (tag : TypeTag) : Column := mkColumn (u name) tag false false false.
Definition users : TableMeta := mkTableMeta 1 (u "users") [column "id" Int; column "name" Text] 4.
Definition pets : TableMeta := mkTableMeta 2 (u "pets") [column "owner" Int; column "tag" Text] 5.
Definition user_rows : list row :=
  [[PyInt 2; PyStr (u "bob")]; [PyInt 1; PyStr (u "ann")]; [PyInt 3; PyNone]; [PyNone; PyStr (u "ann")]].
Definition pet_rows : list row :=
  [[PyInt 1; PyStr (u "cat")]; [PyInt 2; PyStr (u "dog")]; [PyInt 1; PyStr (u "owl")]; [PyInt 7; PyNone]].
Definition numbered_rows (rows : list row) : list (Rid * row) := imap (λ i r, (mkRid 4 (Z.of_nat i), r)) rows.
Definition blob_of (meta : TableMeta) (r : row) : bytes := match encode_row_coerced r (tags_of meta) with Ok b => b | Err _ => [] end.
Definition stored_rows (meta : TableMeta) (rows : list row) : list (Rid * bytes) :=
  map (λ e : Rid * row, (e.1, blob_of meta e.2)) (numbered_rows rows).
Definition owner_index : IndexMeta := mkIndexMeta (u "pets_owner") (u "pets") [u "owner"] 9 false.
Definition demo : MemDb :=
  mkMem [(u "users", (users, stored_rows users user_rows)); (u "pets", (pets, stored_rows pets pet_rows))] (Some [owner_index]).
Definition demo_view : view := λ t,
  if decide (t = u "users") then Some (users, numbered_rows user_rows)
  else if decide (t = u "pets") then Some (pets, numbered_rows pet_rows) else None.

Lemma numbered_elem rows (e : Rid * row) : e ∈ numbered_rows rows → e.2 ∈ rows.
Proof.
  intros [i Hi]%list_elem_of_lookup. unfold numbered_rows in Hi. rewrite list_lookup_imap in Hi. destruct (rows !! i) as [r|] eqn:E; [|done].
  injection Hi as <-. by eapply list_elem_of_lookup_2.
Qed.
Lemma stored_ok meta rows : Forall (λ r, decode_row (blob_of meta r) (tags_of meta) = Ok r) rows →
  Forall2 (λ (b : Rid * bytes) (e : Rid * row), b.1 = e.1 ∧ decode_row b.2 (tags_of meta) = Ok e.2) (stored_rows meta rows) (numbered_rows rows).
Proof.
  intros Hr. rewrite Forall_forall in Hr. apply Forall2_fmap_l, Forall_Forall2_diag, Forall_forall. intros e He. split; [done|].
  by apply Hr, numbered_elem.
Qed.
Lemma demo_shows n : mem_shows n demo demo_view.
Proof.
  split; [by apply NoDup_singleton|]. intros t. unfold demo_view, demo, mm_tables. cbn [dget].
  destruct (decide (t = u "users")) as [->|Hu]; [|destruct (decide (t = u "pets")) as [->|Hp]; [|done]].
  all: split; [done|split; [done|]]; split; [by apply (bool_decide_eq_true_1 _)|].
  all: apply stored_ok; repeat (apply List.Forall_cons; [vm_compute; reflexivity|]); constructor.
Qed.
Lemma users_clean : clean_columns users.
Proof. split; by apply (bool_decide_eq_true_1 _). Qed.
Lemma pets_clean : clean_columns pets.
Proof. split; by apply (bool_decide_eq_true_1 _). Qed.
Lemma demo_ints (f : row → pyval) (rows : list row) : Forall (λ r, f r = PyNone ∨ is_int_key (f r)) rows →
  Forall (λ e : Rid * row, f e.2 = PyNone ∨ is_int_key (f e.2)) (numbered_rows rows).
Proof. rewrite !Forall_forall. intros Hr e He. by apply Hr, numbered_elem. Qed.

(** ** Sorting *)

Definition name_keys : list (pystr * bool) := [(u "name", false); (u "id", true)].
Definition name_values (r : row) : list pyval := [default PyNone (r !! 1%nat); default PyNone (r !! 0%nat)].
Definition kinds (c : pystr) : pyval → Prop := if decide (c = u "id") then is_int_key else is_text_key.
#[local] Instance kinds_ordered c : OrderedKeys (kinds c).
Proof. unfold kinds. destruct (decide _); apply _. Defined.
#[local] Instance kinds_sorted c : SortKeys (kinds c).
Proof. unfold kinds, kinds_ordered. destruct (decide _); apply _. Defined.

Lemma order_by_sorts_witness : ∃ out, sort_rows (column_n2i users) name_keys user_rows = Ok out ∧
  sorted_by_keys kinds name_keys name_values user_rows out.
Proof.
  apply (order_by_sorts kinds (column_n2i users) name_keys name_values user_rows). intros r Hr.
  unfold user_rows in Hr. repeat (apply elem_of_cons in Hr as [->|Hr]); [..|by apply elem_of_nil in Hr];
    (split; [reflexivity|]); repeat (apply Forall2_cons; split; [(left; reflexivity) || (right; exact I)|]); constructor.
Defined.
Example names_in_order : sort_rows (column_n2i users) name_keys user_rows =
  Ok [[PyNone; PyStr (u "ann")]; [PyInt 1; PyStr (u "ann")]; [PyInt 2; PyStr (u "bob")]; [PyInt 3; PyNone]].
Proof. reflexivity. Qed.

(** ** SELECT *)

Definition named (s : String.string) : expr := ColumnRef (u s) None.
(** [SELECT name, id FROM users WHERE id < 3 ORDER BY id DESC LIMIT 1] *)
Definition top_user : SelectStmt :=
  mkSelect [Item (named "name"); Item (named "id")] (Table (u "users") None) (Some (BinaryOp (u "<") (named "id") (Literal (PyInt 3))))
    [mkOrderBy (u "id") true] (PyInt <$> Some 1) (PyInt <$> None) [].
Lemma select_reference_witness : ∃ s', (p ← _plan_select top_user; execute p) demo = (select_expected demo_view top_user (u "users") (Some 1) None, s') ∧
  mem_shows 0 s' demo_view.
Proof.
  apply (select_reference top_user (u "users") None (Some 1) None 0 demo demo_view (demo_shows _)); try reflexivity.
  intros meta es [= <- <-]. split; [exact users_clean|]. intros w [= <-]. reflexivity.
Defined.
Example top_user_rows : select_expected demo_view top_user (u "users") (Some 1) None = Ok [[PyStr (u "bob"); PyInt 2]].
Proof. vm_compute. reflexivity. Qed.

(** ** Joins *)

(** [users AS u1 LEFT JOIN pets AS p ON u1.id = p.owner] *)
Definition of_alias (a c : String.string) : expr := ColumnRef (u c) (Some (u a)).
Definition owner_on : expr := equi_join (u "u1") (u "id") (u "p") (u "owner").
Definition owned : jtree := JJoin (JTable (u "users") (u "u1")) (u "pets") (u "p") (Some owner_on) true.
Definition owned_leaves : list leaf := [(u "u1", users); (u "p", pets)].
Lemma owned_leaves_ok : leaves_ok owned_leaves.
Proof.
  split; [done|by apply (bool_decide_eq_true_1 _)| |]; repeat constructor; try (by apply (bool_decide_eq_true_1 _)); apply users_clean || apply pets_clean || done.
Qed.
Lemma joined_columns_witness : ∃ d, row_n2i_for_plan (jplan owned) (jalias owned) demo = (Ok d, demo) ∧
  eval_column (u "tag") (Some (u "p")) ([PyInt 1; PyStr (u "ann")] ++ [PyInt 1; PyStr (u "cat")]) d = Ok (PyStr (u "cat")).
Proof.
  destruct (joined_columns owned owned_leaves 0 demo demo_view (demo_shows _) eq_refl owned_leaves_ok) as (d & Hd & Hcols).
  exists d. split; [exact Hd|].
  refine (proj1 (Hcols [[PyInt 1; PyStr (u "ann")]; [PyInt 1; PyStr (u "cat")]] 1%nat (u "p") pets [PyInt 1; PyStr (u "cat")] (u "tag") _ eq_refl eq_refl _)).
  - repeat constructor.
  - right. left.
Defined.
Definition owned_rows : list row :=
  [[PyInt 2; PyStr (u "bob"); PyInt 2; PyStr (u "dog")]; [PyInt 1; PyStr (u "ann"); PyInt 1; PyStr (u "cat")];
   [PyInt 1; PyStr (u "ann"); PyInt 1; PyStr (u "owl")]; [PyInt 3; PyNone; PyNone; PyNone]; [PyNone; PyStr (u "ann"); PyNone; PyNone]].
Lemma nested_loop_join_witness : ∃ s', open (jplan owned) demo = (owned_rows, None, s') ∧ mem_shows 0 s' demo_view ∧ xo_indexes s' = xo_indexes demo.
Proof. apply (nested_loop_join owned owned_leaves 0 demo demo_view owned_rows (demo_shows _) eq_refl owned_leaves_ok). vm_compute. reflexivity. Defined.

(** ** Groups *)

(** [GROUP BY owner] over [pets], with [COUNT( * )] and [MAX(tag)] *)
Definition pet_key (r : row) : option (list pyval) := match column_of pets r (u "owner") with PyNone => None | x => Some [x] end.
Definition int_key (k : list pyval) : Prop := match k with [PyInt _] => True | _ => False end.
Definition count_all : list agg_spec := [(u "COUNT", u "*"); (u "MAX", u "tag")].
Lemma int_keys_eq a b : int_key a → int_key b → keys_eq a b = true ↔ a = b.
Proof.
  destruct a as [|[] [|]]; try done. destruct b as [|[] [|]]; try done. intros _ _. unfold keys_eq. rewrite andb_true_r.
  cbn. rewrite !Z.mul_1_r. destruct (Z.compare_spec z z0); split; intros He; try done; [congruence|injection He; lia..].
Qed.
Lemma int_keys_hash k : int_key k → forallb hashable k = true.
Proof. by destruct k as [|[] [|]]. Qed.
Lemma group_by_groups_witness :
  fold_result (group_row [u "owner"] count_all (column_n2i pets)) [] pet_rows =
    Ok (map (entry_of count_all (column_n2i pets) pet_key pet_rows) [[PyInt 1]; [PyInt 2]; [PyInt 7]]).
Proof.
  refine (proj1 (group_by_groups [u "owner"] count_all (column_n2i pets) pet_key int_key int_keys_eq int_keys_hash pet_rows _ _)).
  - repeat (apply List.Forall_cons; [split; [reflexivity|intros k [= <-]; exact I]|]). constructor.
  - intros k Hk. change (group_keys pet_key pet_rows) with [[PyInt 1]; [PyInt 2]; [PyInt 7]] in Hk.
    repeat (apply elem_of_cons in Hk as [->|Hk]; [eexists; vm_compute; reflexivity|]). by apply elem_of_nil in Hk.
Defined.
Lemma aggregate_values_witness : ∃ st, accumulate_list (u "MAX") _new_state [PyInt 2; PyNone; PyInt 5] = Ok st ∧
  _finalize st (u "MAX") = Ok (PyInt 5).
Proof. apply (aggregate_values (u "MAX") [PyInt 2; PyNone; PyInt 5]); [unfold agg_func; do 4 right; reflexivity|reflexivity]. Defined.

(** ** An index scan *)

(** [owner >= 1 AND owner < 7] *)
Definition owner_range : expr :=
  BinaryOp (u "AND") (bound_expr (u ">=") (u "owner") None (PyInt 1)) (bound_expr (u "<") (u "owner") None (PyInt 7)).

(** ** Writes *)

(** [UPDATE users SET name = 'zed' WHERE id < 3] *)
Definition rename : dml_plan :=
  UpdatePlan (u "users") [(u "name", Literal (PyStr (u "zed")))] (Some (BinaryOp (u "<") (named "id") (Literal (PyInt 3)))).
Definition renamed_rows : list row :=
  [[PyInt 2; PyStr (u "zed")]; [PyInt 1; PyStr (u "zed")]; [PyInt 3; PyNone]; [PyNone; PyStr (u "ann")]].

(** * Cases that the theorems leave out *)

(** The rows that a statement's plan yields *)
Definition rows_for (stmt : SelectStmt) : result (list row) := ((p ← _plan_select stmt; execute p) demo).1.
Definition all_from (t : String.string) (w : option expr) : SelectStmt := mkSelect [Star] (Table (u t) None) w [] None None [].
Definition owner_is (op : String.string) (z : Z) : expr := bound_expr (u op) (u "owner") None (PyInt z).
Definition both (a b : expr) : expr := BinaryOp (u "AND") a b.
(** The rows of [pets] that pass the condition, without an index *)
Definition pets_where (w : expr) : result (list row) := filterR (λ r, selected (Some w) r (column_n2i pets)) pet_rows.
Definition cat_row : row := [PyInt 1; PyStr (u "cat")].
Definition owl_row : row := [PyInt 1; PyStr (u "owl")].
(** An upper bound alone, [owner < 2]: the planner makes it the lower bound of
    the scan, and the rows are lost *)
Example upper_bound_scans_up : rows_for (all_from "pets" (Some (owner_is "<" 2))) = Ok [] ∧
  pets_where (owner_is "<" 2) = Ok [cat_row; owl_row].
Proof. split; vm_compute; reflexivity. Qed.
(** The literal on the left, [2 > owner], is taken for [owner > 2] *)
Definition two_above : expr := BinaryOp (u ">") (Literal (PyInt 2)) (named "owner").
Example flipped_bound_scans_wrong : rows_for (all_from "pets" (Some two_above)) = Ok [] ∧ pets_where two_above = Ok [cat_row; owl_row].
Proof. split; vm_compute; reflexivity. Qed.
(** [owner = 1 AND owner > 0] scans from 1 up to, and without, 0 *)
Example equality_and_bound_scans_nothing :
  rows_for (all_from "pets" (Some (both (owner_is "=" 1) (owner_is ">" 0)))) = Ok [] ∧
  pets_where (both (owner_is "=" 1) (owner_is ">" 0)) = Ok [cat_row; owl_row].
Proof. split; vm_compute; reflexivity. Qed.
(** OFFSET without LIMIT yields no row *)
Example offset_alone_yields_nothing :
  rows_for (mkSelect [Item (named "id")] (Table (u "users") None) None [] None (Some (PyInt 1)) []) = Ok [].
Proof. vm_compute. reflexivity. Qed.
(** A repeated column is dropped from the result, and the items after it move *)
Definition sum_item : select_item := Item (BinaryOp (u "+") (Literal (PyInt 1)) (Literal (PyInt 2))).
Example repeated_column_is_dropped :
  rows_for (mkSelect [Item (named "name"); Item (named "name"); sum_item] (Table (u "users") None) None [] (Some (PyInt 1)) None []) =
    Ok [[PyStr (u "bob"); PyStr (u "bob")]].
Proof. vm_compute. reflexivity. Qed.
(** ORDER BY a column that is not in a list of computed items fails *)
Example order_by_hidden_column :
  rows_for (mkSelect [sum_item] (Table (u "users") None) None [mkOrderBy (u "id") false] None None []) = Err UnknownColumnError.
Proof. vm_compute. reflexivity. Qed.
(** A NULL of each side is a match for the nested loop: [NULL = NULL] is true *)
Example null_joins_null `{ArithLib} : _eq PyNone PyNone = Ok true ∧ _eq PyNone (PyInt 1) = Ok false.
Proof. by split. Qed.
(** [UPDATE users SET id = 'x' WHERE id = 2]: the new row cannot be encoded, the
    statement fails, and the old row is gone *)
Definition bad_update : dml_plan :=
  UpdatePlan (u "users") [(u "id", Literal (PyStr (u "x")))] (Some (BinaryOp (u "=") (named "id") (Literal (PyInt 2)))).
Example failed_update_loses_the_row : (execute_dml bad_update demo).1 = Err TypeMismatchError ∧
  dml_effect users user_rows bad_update = (Err TypeMismatchError, drop 1 user_rows).
Proof. split; vm_compute; reflexivity. Qed.
