(* ===== verification/DatabaseDemo.v ===== *)
(** A database on an empty page file and an empty log: the refinement applied
    to a session in SQL. *)
From S2P Require Import Prelude.
From S2P Require Import Bytes.
From S2P Require Import Utf8.
From S2P Require Import Text.
From S2P Require Import TypeSys.
From S2P Require Import Codec.
From S2P Require Import Coerce.
From S2P Require Import Pager.
From S2P Require Import BufferPool.
From S2P Require Import FreeSpace.
From S2P Require Import Heap.
From S2P Require Import Wal.
From S2P Require Import Recovery.
From S2P Require Import Lock.
From S2P Require Import TxManager.
From stdpp Require Import gmap.
From S2P Require Import Tokens.
From S2P Require Import Ast.
From S2P Require Import Parser.
From S2P Require Import PyConv.
From S2P Require Import PyOrder.
From S2P Require Import PyDict.
From S2P Require Import BTreeSpec.
From S2P Require Import Catalog.
From S2P Require Import CatalogSpec.
From S2P Require Import CatalogDemo.
From S2P Require Import EvalExpr.
From S2P Require Import Gen.
From S2P Require Import Plan.
From S2P Require Import IndexPlan.
From S2P Require Import Dml.
From S2P Require Import Planner.
From S2P Require Import IndexManager.
From S2P Require Import Engine.
From S2P Require Import Database.
From S2P Require Import ReadSpec.
From S2P Require Import SelectSpec.
From S2P Require Import DmlSpec.
From S2P Require Import EngineSpec.
From S2P Require Import DatabaseSpec.
From Stdlib Require Import ZArith Lia.
Local Open Scope Z_scope.

#[local] Existing Instance tiny_json.
#[local] Existing Instance letters_json.
#[local] Existing Instance demo_iso.
#[local] Existing Instance ascii_unilib.
#[local] Instance demo_arith : ArithLib := {| arith_other _ _ _ := Err TypeError |}.
#[local] Instance demo_repr : PyRepr := {| py_repr _ := [] |}.

Definition fresh_db : Engine Pager := mkEngine (new_manager 1 fresh_pager (open_wal [])) empty_catalog [] [] [] [].
Definition no_tables : view := λ _, None.
Lemma fresh_db_shows : en_shows (stores := pager_stores) (rooms := pager_rooms) 20 (db_lock fresh_db) None 16 fresh_db no_tables.
Proof.
  exists fresh_pages, (λ _, []). split; try done.
  - apply fresh_catalog.
  - lia.
  - split; try done. exists []. split; [|by vm_compute]. apply (open_wal_ok [] []); [|apply torn_nil]. split; [done|]. split; [by vm_compute|by apply List.Forall_nil].
  - by intros ? ? ? [].
  - by intros ? ? [].
Qed.

Definition pets_session : list pystr :=
  [u "CREATE TABLE pets (id INT, name TEXT);"; u "INSERT INTO pets VALUES (2, 'cat'), (1, NULL), (3, 'dog');"; u "UPDATE pets SET id = id + 1 WHERE id > 2;";
   u "SELECT name FROM pets WHERE id < 9 ORDER BY id LIMIT 2;"; u "CREATE TABLE pets (id INT);"; u "SELECT;"].
Example pets_results : (run_session 20 7 pets_session fresh_db).1 =
  Ok [Ok (Some []); Ok (Some [[PyInt 3]]); Ok (Some [[PyInt 1]]); Ok (Some [[PyNone]; [PyStr (u "cat")]]); Err ValueError; Err (ParseError 1 7)].
Proof. vm_compute. reflexivity. Qed.

(** ** The session is one that the machine describes *)

Ltac parsed := match goal with |- context [parse ?s] => let r := eval vm_compute in (parse s) in replace (parse s) with r by (vm_compute; reflexivity) end; cbv iota.
Lemma no_indexes_plain t : plain t (xo_indexes (ExecOps := Engine_ops 20) fresh_db).
Proof. intros metas m [= <-] Hm. by apply elem_of_nil in Hm. Qed.
Lemma created v name columns r v' : v name = None → columns ≠ [] → effect v (CreateTable name columns) r v' →
  ∃ id head, v' = view_set name (new_table id name columns head) v.
Proof.
  intros Hv Hc He. inversion He as [? ? id head|? ? [Hx|]| | | | |]; subst; try done; [by exists id, head|]. rewrite Hv in Hx. by destruct Hx.
Qed.
Lemma written v stmt p r v' meta es : is_dml stmt = true → dml_planned v stmt = Ok p → v (dml_table p) = Some (meta, es) → effect v stmt r v' →
  ∃ es', v' (dml_table p) = Some (meta, es') ∧ rows_of es' ≡ₚ (dml_effect meta (rows_of es) p).2.
Proof.
  intros Hd Hp Hv He. inversion He as [| | | | | |stmt' p' meta' es0 es' v1 _ Hp' Hv' [Hb _] Hr]; subst; try done; [congruence|].
  rewrite Hp in Hp'. injection Hp' as <-. rewrite Hv in Hv'. injection Hv' as <- <-. by exists es'.
Qed.
Lemma selected_same v s r v' : effect v (Select s) r v' → v' = v.
Proof. intros He. by inversion He; subst. Qed.
Definition pets_columns : list Column := [mkColumn (u "id") Int false false false; mkColumn (u "name") Text false false false].
Lemma pets_clean_columns meta : meta.(tm_columns) = pets_columns → clean_columns meta.
Proof. unfold clean_columns, meta_column_names. intros ->. split; by apply (bool_decide_eq_true_1 _). Qed.
Lemma pets_covered : covered_all 16 no_tables (xo_indexes (ExecOps := Engine_ops 20) fresh_db) pets_session.
Proof.
  unfold pets_session. cbn [covered_all]. parsed.
  split; [by repeat constructor|]. split; [vm_compute; lia|]. intros r1 v1 He1.
  apply created in He1 as (id & head & ->); [|done|done]. parsed.
  set (v1 := view_set _ _ _). set (meta := mkTableMeta id (u "pets") pets_columns head).
  assert (v1 [112; 101; 116; 115] = Some (meta, [])) as Hv1 by done. clearbody v1.
  (* INSERT *)
  match goal with |- covered _ _ (Insert ?t ?c ?vs) ∧ _ =>
    assert (dml_planned v1 (Insert t c vs) = Ok (InsertPlan t vs)) as Hp1 by (cbn [dml_planned]; unfold find_table; by rewrite Hv1) end.
  match goal with |- covered _ _ ?stmt ∧ _ => assert (stmt_cost v1 stmt = 4%nat) as -> by (unfold stmt_cost; rewrite Hp1; cbn [dml_table]; by rewrite Hv1) end.
  split; [|split; [vm_compute; lia|]].
  { intros p m es Hp Hv. rewrite Hp1 in Hp. injection Hp as <-. cbn [dml_table] in *. rewrite Hv1 in Hv. injection Hv as <- <-.
    split; [apply no_indexes_plain|]. unfold dml_storable.
    repeat (apply List.Forall_cons; [intros blob [= <-]; split; [discriminate|split; [vm_compute; discriminate|eexists; vm_compute; reflexivity]]|]). constructor. }
  intros r2 v2 He2. destruct (λ Hd, written _ _ _ _ _ _ _ Hd Hp1 Hv1 He2) as (es2 & Hv2 & Hr2); [done|]. cbn [dml_table] in Hv2.
  change (dml_effect _ _ _).2 with [[PyInt 2; PyStr (u "cat")]; [PyInt 1; PyNone]; [PyInt 3; PyStr (u "dog")]] in Hr2.
  clear He2. parsed.
  (* UPDATE *)
  match goal with |- covered _ _ (Update ?t ?sets ?w) ∧ _ =>
    assert (dml_planned v2 (Update t sets w) = Ok (UpdatePlan t (map (λ a, (a.(as_column), a.(as_value))) sets) w)) as Hp2 by (cbn [dml_planned]; unfold find_table; by rewrite Hv2) end.
  match goal with |- covered _ _ ?stmt ∧ _ => assert (stmt_cost v2 stmt = 7%nat) as -> by (unfold stmt_cost; rewrite Hp2; cbn [dml_table]; rewrite Hv2; cbn [dml_writes]; by rewrite Hr2) end.
  split; [|split; [vm_compute; lia|]].
  { intros p m es Hp Hv. rewrite Hp2 in Hp. injection Hp as <-. cbn [dml_table] in *. rewrite Hv2 in Hv. injection Hv as <- <-.
    split; [apply no_indexes_plain|]. unfold dml_storable. rewrite Hr2.
    repeat (apply List.Forall_cons; [intros new [= <-] blob [= <-]; split; [discriminate|split; [vm_compute; discriminate|eexists; vm_compute; reflexivity]]|]). constructor. }
  intros r3 v3 He3. destruct (λ Hd, written _ _ _ _ _ _ _ Hd Hp2 Hv2 He3) as (es3 & Hv3 & _); [done|]. cbn [dml_table] in Hv3.
  clear He3. parsed.
  (* SELECT *)
  split; [|split; [vm_compute; lia|]].
  { exists [112; 101; 116; 115], None, (Some 2), None. repeat (split; [done|]). split; [apply no_indexes_plain|].
    intros m es Hv. rewrite Hv3 in Hv. injection Hv as <- <-. split; [by apply pets_clean_columns|]. intros w [= <-]. done. }
  intros r4 v4 ->%selected_same. parsed.
  (* CREATE TABLE again, and an error of syntax *)
  split; [by repeat constructor|]. split; [vm_compute; lia|]. intros r5 v5 _. by parsed.
Qed.

(** While a transaction is active every thread runs its statements without the
    lock, whether the transaction is its own or not: here thread 8 drops the
    table that thread 7 writes to in its transaction. *)
Definition in_transaction : Engine Pager :=
  with_mgr (begin 7 (en_mgr (run_session 20 7 pets_session fresh_db).2)).2 (run_session 20 7 pets_session fresh_db).2.
Example other_thread_runs_unlocked :
  (db_lock in_transaction).(wl_rwlock).(rw_writer) = Some 7 ∧
  (execute_sql 20 8 (u "DROP TABLE pets;") in_transaction).1 = Ok (Some []).
Proof. split; vm_compute; reflexivity. Qed.
