(* ===== verification/Server.v ===== *)
(** Components [server/app.py] and [server/config.py]: the connections of a
    server, which share one database and one thread. *)
From S2P Require Import Prelude.
From S2P Require Import Bytes.
From S2P Require Import Utf8.
From S2P Require Import Text.
From S2P Require Import TypeSys.
From S2P Require Import Codec.
From S2P Require Import Pager.
From S2P Require Import BufferPool.
From S2P Require Import Wal.
From S2P Require Import Recovery.
From S2P Require Import Lock.
From S2P Require Import TxManager.
From S2P Require Import Tokens.
From S2P Require Import Parser.
From S2P Require Import PyConv.
From S2P Require Import PyOrder.
From S2P Require Import PyDict.
From S2P Require Import BTreeSpec.
From S2P Require Import Heap.
From S2P Require Import Catalog.
From S2P Require Import CatalogSpec.
From S2P Require Import CatalogDemo.
From S2P Require Import EvalExpr.
From S2P Require Import Gen.
From S2P Require Import Plan.
From S2P Require Import Dml.
From S2P Require Import Planner.
From S2P Require Import IndexManager.
From S2P Require Import Engine.
From S2P Require Import Database.
From S2P Require Import Protocol.
From S2P Require Import Messages.
From S2P Require Import Handler.
From S2P Require Import Session.
From Stdlib Require Import ZArith Lia.
Local Open Scope Z_scope.

(** * The configuration *)

(** The interval of the heartbeat is a float: its order against zero is given. *)
Record ServerConfig := mkConfig {
  sc_db_path : pystr;
  sc_host : pystr;
  sc_port : Z;
  sc_max_conns : Z;
  sc_idle_timeout : Z;
  sc_heartbeat_positive : bool;
  sc_heartbeat_misses : Z;
}.
Definition post_init (c : ServerConfig) : result ServerConfig :=
  ensure (negb (bool_decide (c.(sc_db_path) = []))) ValueError;;
  ensure (negb ((c.(sc_port) <? 1) || (65535 <? c.(sc_port)))) ValueError;;
  ensure (1 <=? c.(sc_max_conns)) ValueError;;
  ensure c.(sc_heartbeat_positive) ValueError;;
  ensure (1 <=? c.(sc_heartbeat_misses)) ValueError;;
  ensure (0 <=? c.(sc_idle_timeout)) ValueError;;
  Ok c.
Definition default_config (db_path : pystr) : ServerConfig := mkConfig db_path (u "127.0.0.1") 8520 64 1800 true 3.

(** * The database behind the connections *)

Section Server.
Context `{MetaJson} `{PyConv} `{JsonLib} `{IsoLib} `{UniLib} `{ArithLib} `{PyRepr} `{ExnText}.
Context {P : Type} `{PagerOps P, AllocOps P, LsnOps P, FreeOps P}.
(** The bound of the model's loops, and the thread of the event loop *)
Context (fuel : nat) (me : Z).
#[local] Existing Instance Engine_ops.

(** The database, and whether the thread waits for a lock; it then waits for
    ever, since no other thread runs statements. *)
Record Served := mkServed { sd_engine : Engine P; sd_waits : bool }.
Definition on_engine {A} (m : M (Engine P) A) : M Served A := zoom sd_engine (λ e s, mkServed e s.(sd_waits)) m.
Definition or_wait {A} (m : M (Engine P) (option A)) : M Served A :=
  r ← on_engine m;
  match r with Some a => mret a | None => modify (λ s, mkServed s.(sd_engine) true);; raise RuntimeError end.
Definition on_manager {A} (m : M (Manager P) A) : M (Engine P) A := zoom en_mgr with_mgr m.
#[export] Instance served_db : Handler.Database Served TransactionContext := {|
  db_execute sql := or_wait (execute_sql fuel me sql);
  db_begin := or_wait (on_manager (begin me));
  db_commit tx := on_engine (on_manager (commit me tx));
  db_rollback tx := on_engine (on_manager (rollback me tx));
  db_execute_with_columns := Some (λ sql, or_wait (execute_with_columns fuel me sql));
  db_result_columns_for := Some (λ sql, on_engine (result_columns_for fuel sql));
|}.

(** * The connections *)

(** [_handshake_done] and [_tx] of the sessions, by the number of the connection *)
Record Server := mkServer { sv_db : Served; sv_sessions : list (bool * option TransactionContext) }.
(** [run_server], with the database that it is given or opens *)
Definition run_server (config : ServerConfig) (engine : Engine P) : result Server :=
  _ ← post_init config; Ok (mkServer (mkServed engine false) []).
(** A client connects: [_handle_connection] makes its session. *)
Definition accept_client : M Server Z := λ s,
  (Ok (zlen s.(sv_sessions)), mkServer s.(sv_db) (s.(sv_sessions) ++ [(false, None)])).
(** Work of the session of connection [i]; [None] when the thread waits *)
Definition in_session {A} (i : nat) (m : M (ServerSession Served TransactionContext) A) : M Server (option A) := λ s,
  if s.(sv_db).(sd_waits) then (Ok None, s) else
  match s.(sv_sessions) !! i with
  | None => (Err KeyError, s)
  | Some (done, tx) =>
      let '(r, t) := m (mkSession done tx s.(sv_db)) in
      let s := mkServer (_db t) (<[i := (_handshake_done t, _tx t)]> s.(sv_sessions)) in
      if (_db t).(sd_waits) then (Ok None, s) else
      (match r with Ok a => Ok (Some a) | Err e => Err e end, s)
  end.
Definition receive (i : nat) (f : Frame) : M Server (option (list Frame)) := in_session i (_handle_frame f).
(** The end of [serve] *)
Definition disconnect (i : nat) : M Server (option unit) := in_session i _auto_rollback.

(** Frames of several clients, in the order in which they come in; an exception
    ends the work on one of them. *)
Fixpoint receive_all (l : list (nat * Frame)) (s : Server) : list (result (option (list Frame))) * Server :=
  match l with
  | [] => ([], s)
  | (i, f) :: l =>
      let '(r, s) := receive i f s in
      let '(rs, s) := receive_all l s in
      (r :: rs, s)
  end.

(** The sessions of the other connections stay as they are. *)
Lemma others_untouched {A} i j (m : M (ServerSession Served TransactionContext) A) s : j ≠ i →
  (in_session i m s).2.(sv_sessions) !! j = s.(sv_sessions) !! j.
Proof.
  intros Hij. unfold in_session. destruct (sd_waits _); [done|]. destruct (sv_sessions s !! i) as [[hs tx]|]; [|done].
  destruct (m _) as [r t]. destruct (sd_waits (_db t)); cbn [snd sv_sessions]; by rewrite list_lookup_insert_ne.
Qed.
(** Once the thread waits, no frame of any connection has an effect. *)
Lemma waits_for_ever {A} i (m : M (ServerSession Served TransactionContext) A) s : s.(sv_db).(sd_waits) = true → in_session i m s = (Ok None, s).
Proof. unfold in_session. by intros ->. Qed.
End Server.

(** * Two clients *)

#[local] Existing Instance tiny_json.
#[local] Existing Instance letters_json.
#[local] Existing Instance demo_iso.
#[local] Existing Instance ascii_unilib.
#[local] Existing Instance demo_conv.
#[local] Instance demo_arith : ArithLib := {| arith_other _ _ _ := Err TypeError |}.
#[local] Instance demo_repr : PyRepr := {| py_repr _ := u "?" |}.
#[local] Instance demo_text : ExnText := {| exn_str _ := u "?"; exn_msg _ := u "?" |}.

Definition new_engine : Engine Pager := mkEngine (new_manager 1 fresh_pager (open_wal [])) empty_catalog [] [] [] [].
Definition two_clients : Server (P := Pager) := mkServer (mkServed new_engine false) [(true, None); (true, None)].
Definition ask (i : nat) (sql : pystr) : nat * Frame := (i, frame_of (Query sql)).
Definition answer (m : message) : result (option (list Frame)) := Ok (Some [frame_of m]).
Definition server_run (l : list (nat * Frame)) : list (result (option (list Frame))) := (receive_all 20 1 l two_clients).1.

Example configs : (post_init (default_config (u "a.db")), post_init (default_config [])) = (Ok (default_config (u "a.db")), Err ValueError).
Proof. reflexivity. Qed.
Example two_statements : server_run [ask 0 (u "CREATE TABLE t (id INT)"); ask 1 (u "INSERT INTO t VALUES (5)")] =
  [answer (ResultDone 0 0 STATUS_FLAGS_OK); answer (ResultDone 1 0 STATUS_FLAGS_DML)].
Proof. vm_compute. reflexivity. Qed.
(** A statement of one client becomes part of the transaction of another: client
    1 is told that its row is stored, and the ROLLBACK of client 0 takes it away. *)
Example rollback_takes_other_clients_row :
  drop 2 (server_run [ask 0 (u "CREATE TABLE t (id INT)"); ask 0 (u "BEGIN"); ask 1 (u "INSERT INTO t VALUES (5)"); ask 0 (u "ROLLBACK"); ask 1 (u "SELECT id FROM t")]) =
  [answer (ResultDone 1 0 STATUS_FLAGS_DML); answer txn_done;
      Ok (Some [frame_of (ResultHeader [(u "id", ptype_value P_STRING)]); frame_of (ResultDone 0 0 STATUS_FLAGS_OK)])].
Proof. vm_compute. reflexivity. Qed.
(** A second BEGIN is refused: the thread holds the lock already. *)
Example second_begin_refused :
  server_run [ask 0 (u "BEGIN"); ask 1 (u "BEGIN"); ask 1 (u "COMMIT"); ask 0 (u "COMMIT")] =
  [answer txn_done; answer (txn_error (u "?")); answer (txn_error (u "no active transaction")); answer txn_done].
Proof. vm_compute. reflexivity. Qed.
