(* ===== verification/ServerSpec.v ===== *)
(** The server refines the machine of named tables: what its clients read. *)
From S2P Require Import Prelude.
From S2P Require Import Bytes.
From S2P Require Import Utf8.
From S2P Require Import Text.
From S2P Require Import TypeSys.
From S2P Require Import Codec.
From S2P Require Import Coerce.
From S2P Require Import Pager.
From S2P Require Import BufferPool.
From S2P Require Import FreeSpace.
From S2P Require Import Heap.
From S2P Require Import Wal.
From S2P Require Import Recovery.
From S2P Require Import Lock.
From S2P Require Import TxManager.
From stdpp Require Import gmap.
From S2P Require Import Tokens.
From S2P Require Import Ast.
From S2P Require Import Parser.
From S2P Require Import PyConv.
From S2P Require Import PyOrder.
From S2P Require Import PyDict.
From S2P Require Import BTreeSpec.
From S2P Require Import Catalog.
From S2P Require Import CatalogSpec.
From S2P Require Import CatalogDemo.
From S2P Require Import EvalExpr.
From S2P Require Import Gen.
From S2P Require Import Plan.
From S2P Require Import IndexPlan.
From S2P Require Import Dml.
From S2P Require Import Planner.
From S2P Require Import IndexManager.
From S2P Require Import Engine.
From S2P Require Import Protocol.
From S2P Require Import Messages.
From S2P Require Import Handler.
From S2P Require Import Session.
From S2P Require Import Database.
From S2P Require Import ReadSpec.
From S2P Require Import SelectSpec.
From S2P Require Import DmlSpec.
From S2P Require Import EngineSpec.
From S2P Require Import DatabaseSpec.
From S2P Require Import DatabaseDemo.
From S2P Require Import Server.
From Stdlib Require Import ZArith Lia.
Local Open Scope Z_scope.

Section ServerSpec.
Context `{MetaJsonLaws} `{PyConv} `{JsonLib} `{IsoLib} `{UniLib} `{ArithLib} `{PyRepr} `{ExnText}.
Context {P : Type} {stores : P → gmap Z bytes → Prop} {rooms : nat → P → Prop}.
Context {POps : PagerOps P} {PLaws : PagerLaws P stores} {AOps : AllocOps P} {RLaws : RoomLaws P stores rooms} {LOps : LsnOps P} {FOps : FreeOps P}.
Context (fuel : nat) (me : Z).
Abbreviation DB := (Engine P).
Abbreviation shows := (en_shows (stores := stores) (rooms := rooms) fuel).
Implicit Types (e : DB) (v : view) (L : WriteLock) (T : option TransactionContext).
#[local] Instance spec_ops : ExecOps DB := Engine_ops fuel.

#[local] Instance spec_db : Handler.Database Served TransactionContext := served_db fuel me.

(** * A statement and its column names *)

(** The names that [execute_with_columns] gives with the rows *)
Definition names_of v (indexes : option (list IndexMeta)) (stmt : Statement) : option (list pystr) :=
  match stmt with
  | Select s =>
      match s.(sel_from) with
      | Table name _ => match select_planned v indexes s name with Ok p => Some (default [] (result_columns p)) | Err _ => None end
      | Join _ _ _ _ _ _ => None
      end
  | _ => None
  end.
Lemma columns_run L T n e v stmt : shows L T n e v → covered v (xo_indexes e) stmt →
  columns_of_statement fuel (Some stmt) e = (Ok (names_of v (xo_indexes e) stmt), e) ∨
  ∃ x, columns_of_statement fuel (Some stmt) e = (Err x, e) ∧ planned v (xo_indexes e) stmt = Err x.
Proof.
  intros Hs Hc. destruct stmt as [| | | |s| |]; try by left. destruct Hc as (name & alias & _ & _ & Hf & _).
  cbn [columns_of_statement names_of planned]. rewrite Hf. unfold _projection_columns_for, catch.
  pose proof (select_planned_run n e v s name alias Hs Hf) as Hp.
  destruct (select_planned v (xo_indexes e) s name) as [p|x]; [rewrite (run_Ok _ _ _ _ _ Hp); by left|rewrite (run_Err _ _ _ _ _ Hp)].
  case_bool_decide; [by left|right]. by exists x.
Qed.
Lemma with_columns_run L T n e v sql stmt : parse sql = Ok stmt → may_run L T → shows L T (stmt_cost v stmt + n) e v → covered v (xo_indexes e) stmt →
  ∃ r e', execute_with_columns fuel me sql e = ((λ rows, Some (rows, names_of v (xo_indexes e) stmt)) <$> r, e') ∧
    goes fuel (stores := stores) (rooms := rooms) L T n v stmt (r, e') (xo_indexes e).
Proof.
  intros Hsql HL Hs Hc. unfold execute_with_columns, try_parse. rewrite Hsql. mrun.
  destruct (columns_run L T _ e v stmt Hs Hc) as [Hcol|(x & Hcol & Hpl)].
  - rewrite (run_Ok _ _ _ _ _ Hcol). destruct (statement_run fuel me L T n e v stmt HL Hs Hc) as (r & e' & Hr & Hg).
    exists r, e'. split; [|done]. by destruct r; [rewrite (run_Ok _ _ _ _ _ Hr)|rewrite (run_Err _ _ _ _ _ Hr)].
  - rewrite (run_Err _ _ _ _ _ Hcol). exists (Err x), e. split; [done|]. exists v.
    pose proof (statement_unlocked fuel L T n e v stmt Hs Hc) as Hu. 
    unfold spec_ops in Hpl. unfold DatabaseSpec.db_ops in Hu. rewrite Hpl in Hu. split; [done|]. split; [|done].
    by eapply (shows_less (shows := shows L T)).
Qed.
Lemma unparsed_run e sql x : parse sql = Err x → execute_with_columns fuel me sql e = (Err x, e).
Proof.
  intros Hsql. unfold execute_with_columns, try_parse. rewrite Hsql. destruct (is_parse_error x); mrun; [|done].
  cbn [columns_of_statement]. mrun. unfold execute_sql. rewrite Hsql. by mrun.
Qed.

(** * A frame and its answer *)

(** The frames that answer a statement with result [r] *)
Definition response (sql : pystr) (names : option (list pystr)) (r : result (list row)) : result (list Frame) :=
  match r with
  | Err x => f ← to_frame (_map_error x); Ok [f]
  | Ok rows => _rows_to_frames rows (_classify sql) true names
  end.
(** A QUERY frame with a statement that is no transaction control *)
Record statement_frame (f : Frame) (sql : pystr) : Prop := {
  rq_type : f.(fr_type) = type_value QUERY;
  rq_sql : query_from_frame f = Ok (Query sql);
  rq_text : strip sql ≠ [];
  rq_plain : Session.command sql ∉ [u "BEGIN"; u "COMMIT"; u "ROLLBACK"];
}.
Abbreviation srv := (Server (P := P)).
Definition served e (sessions : list (bool * option TransactionContext)) : srv := mkServer (mkServed e false) sessions.

Lemma receive_run e sessions i f sql r names e' :
  statement_frame f sql → sessions !! i = Some (true, None) →
  execute_with_columns fuel me sql e = ((λ rows, Some (rows, names)) <$> r, e') →
  receive fuel me i f (served e sessions) = (Some <$> response sql names r, served e' sessions).
Proof.
  intros [Ht Hq Hne Hp] Hi Hx. unfold receive, in_session. cbn [sv_db sd_waits sv_sessions served]. rewrite Hi.
  assert (_handle_frame f (mkSession true None (mkServed e false)) = (response sql names r, mkSession true None (mkServed e' false))) as Hrun.
  { unfold _handle_frame. rewrite Ht. change (type_value QUERY =? type_value PING) with false. cbv iota. mrun. cbn [_handshake_done negb].
    assert (decode_message f = Ok (Query sql)) as -> by (unfold decode_message; rewrite Ht; exact Hq). mrun. unfold handle_message. cbv zeta.
    change (default [] (Session.command <$> sql_of (Query sql))) with (Session.command sql).
    rewrite !decide_False by (intros Hc; apply Hp; rewrite Hc; set_solver).
    unfold Session.on_db, zoom. cbn [_db]. unfold dispatch_message, dispatch_query, _dispatch_sql. destruct (strip sql) eqn:Hs; [done|]. clear Hs.
    assert (Handler.run_sql sql (_classify sql) (mkServed e false) = ((λ rows, (rows, names)) <$> r, mkServed e' false)) as Hsql.
    { unfold Handler.run_sql. cbn [db_execute_with_columns served_db spec_db]. unfold or_wait.
      assert (on_engine (execute_with_columns fuel me sql) (mkServed e false) = ((λ rows, Some (rows, names)) <$> r, mkServed e' false)) as Ho
        by (unfold on_engine, zoom; cbn [sd_engine sd_waits]; by rewrite Hx).
      by destruct r; [rewrite (run_Ok _ _ _ _ _ Ho)|rewrite (run_Err _ _ _ _ _ Ho)]. }
    destruct r as [rows|x].
    - erewrite run_Ok; [|unfold catch; by rewrite (run_Ok _ _ _ _ _ Hsql)]. done.
    - erewrite run_Ok; [|unfold catch; by rewrite (run_Err _ _ _ _ _ Hsql)]. cbn [response]. mrun. by destruct (to_frame (_map_error x)). }
  unfold spec_db in Hrun. rewrite Hrun. cbn [_db _handshake_done _tx sd_waits]. rewrite list_insert_id by done. by destruct (response sql names r).
Qed.

(** * Many clients *)

(** The answers to statements that reach the machine one after the other *)
Inductive answered (indexes : option (list IndexMeta)) v : list pystr → list (result (option (list Frame))) → view → Prop :=
  | ans_nil : answered indexes v [] [] v
  | ans_unparsed sql sqls x rs v' : parse sql = Err x → answered indexes v sqls rs v' →
      answered indexes v (sql :: sqls) ((Some <$> response sql None (Err x)) :: rs) v'
  | ans_cons sql sqls stmt r rs v1 v' : parse sql = Ok stmt → effect v stmt r v1 → answered indexes v1 sqls rs v' →
      answered indexes v (sql :: sqls) ((Some <$> response sql (names_of v indexes stmt) r) :: rs) v'.
End ServerSpec.

(** * Two clients of a new database *)

#[local] Existing Instance tiny_json.
#[local] Existing Instance letters_json.
#[local] Existing Instance demo_iso.
#[local] Existing Instance ascii_unilib.
#[local] Existing Instance DatabaseDemo.demo_arith.
#[local] Existing Instance DatabaseDemo.demo_repr.
#[local] Existing Instance Server.demo_text.
Definition both_clients : list (bool * option TransactionContext) := [(true, None); (true, None)].
Definition pets_requests : list (nat * Frame) := imap (λ k sql, (k mod 2, frame_of (Query sql))%nat) pets_session.
