(* ===== verification/RemoteSpec.v ===== *)
(** End to end: what the user of a client gets from the machine of named tables. *)
From S2P Require Import Prelude.
From S2P Require Import Bytes.
From S2P Require Import Utf8.
From S2P Require Import Text.
From S2P Require Import TypeSys.
From S2P Require Import Codec.
From S2P Require Import Coerce.
From S2P Require Import Pager.
From S2P Require Import BufferPool.
From S2P Require Import FreeSpace.
From S2P Require Import Heap.
From S2P Require Import Wal.
From S2P Require Import Recovery.
From S2P Require Import Lock.
From S2P Require Import TxManager.
From stdpp Require Import gmap.
From S2P Require Import Tokens.
From S2P Require Import Ast.
From S2P Require Import Parser.
From S2P Require Import PyConv.
From S2P Require Import PyOrder.
From S2P Require Import PyDict.
From S2P Require Import BTreeSpec.
From S2P Require Import Catalog.
From S2P Require Import CatalogSpec.
From S2P Require Import CatalogDemo.
From S2P Require Import EvalExpr.
From S2P Require Import Gen.
From S2P Require Import Plan.
From S2P Require Import IndexPlan.
From S2P Require Import Dml.
From S2P Require Import Planner.
From S2P Require Import IndexManager.
From S2P Require Import Engine.
From S2P Require Import Protocol.
From S2P Require Import Messages.
From S2P Require Import Handler.
From S2P Require Import Session.
From S2P Require Import Database.
From S2P Require Import ReadSpec.
From S2P Require Import SelectSpec.
From S2P Require Import DmlSpec.
From S2P Require Import EngineSpec.
From S2P Require Import DatabaseSpec.
From S2P Require Import DatabaseDemo.
From S2P Require Import Server.
From S2P Require Import Client.
From S2P Require Import Connection.
From S2P Require Import ServerSpec.
From Stdlib Require Import ZArith Lia.
Local Open Scope Z_scope.

(** * An answer, as its reader sees it *)

Section Seen.
Context `{PyConv} `{ExnText}.

(** What [execute] gives its caller for a statement with result [r] *)
Definition seen (kind : stmt_kind) (names : option (list pystr)) (r : result (list row)) : result Result :=
  match r with
  | Err (ConstraintViolation | NotNullViolation | TypeMismatchError) => Err IntegrityError
  | Err _ => Err ClientProtocolError
  | Ok rows =>
      match kind with
      | K_ddl => Ok (mkResult [] 0 [] 0)
      | K_dml =>
          affected ← match rows with [] => Ok 0 | [] :: _ => Err IndexError | (v :: _) :: _ => py_int v end;
          Ok (mkResult [] affected [] 0)
      | _ =>
          vals ← mapR (mapR wire_value) rows;
          Ok (mkResult (map (map pa_value) vals) (zlen rows) (labels rows true names) 0)
      end
  end.

Lemma add_error code msg f h rs : to_frame (ResultError code msg) = Ok f → zlen code = 5 →
  add f (open_response h rs) = (Ok true, mkResponse h rs None (Some (code, msg))).
Proof.
  intros Hf Hc. cbn [to_frame] in Hf. inv_ok. unfold add. rewrite !(is_type_value _ _ _ (frame_type _ _ _ Hf)).
  cbn [bool_decide decide decide_rel]. rewrite (error_put _ _ _ _ _ _ Hok Hf Hc). by mrun.
Qed.
Lemma take_one f rp : add f new_Response = (Ok true, rp) → take_response [f] new_Response = (Ok (Some rp), []).
Proof. intros Ha. cbn [take_response]. by rewrite Ha. Qed.
Lemma error_seen x f kind names : to_frame (_map_error x) = Ok f →
  ∃ rp, take_response [f] new_Response = (Ok (Some rp), []) ∧ to_result rp = seen kind names (Err x).
Proof.
  intros Hf. destruct x; (eexists; split; [apply take_one, add_error; [exact Hf|reflexivity]|reflexivity]).
Qed.
(** The frames of an answer are read as its result. *)
Lemma answer_seen sql names r fs : response sql names r = Ok fs →
  ∃ rp, take_response fs new_Response = (Ok (Some rp), []) ∧ to_result rp = seen (_classify sql) names r.
Proof.
  destruct r as [rows|x]; cbn [response]; [|intros Hf; inv_ok; by apply error_seen].
  assert (_classify sql ≠ K_ddl → _classify sql ≠ K_dml → _rows_to_frames rows (_classify sql) true names = Ok fs →
    ∃ rp, take_response fs new_Response = (Ok (Some rp), []) ∧
      to_result rp = (vals ← mapR (mapR wire_value) rows; Ok (mkResult (map (map pa_value) vals) (zlen rows) (labels rows true names) 0))) as Hsel.
  { intros H1 H2 Hf. destruct (collect_select rows _ true names fs false [] H1 H2 Hf) as (vals & -> & Hc). rewrite app_nil_r in Hc.
    by apply collect_take in Hc. }
  unfold seen. destruct (_classify sql); try by apply Hsel.
  all: intros Hf; cbn [_rows_to_frames] in Hf; inv_ok; eexists;
    (split; [apply take_one; by eapply (add_done _ _ _ _ None [])|]).
  - done.
  - by destruct rows as [|[|v row0] rows]; cbn in Hok |- *; [injection Hok as <-|..|rewrite Hok].
Qed.
Lemma answer_connected rp : to_result rp ≠ Err ClientConnectionError.
Proof. unfold to_result. destruct (rp_error rp) as [[code msg]|]; [by destruct (decide _)|by destruct (rp_done rp) as [[[]]|]]. Qed.
End Seen.

(** * A client and a server *)

Section Remote.
Context `{MetaJsonLaws} `{PyConv} `{JsonLib} `{IsoLib} `{UniLib} `{ArithLib} `{PyRepr} `{ExnText}.
Context {P : Type} {stores : P → gmap Z bytes → Prop} {rooms : nat → P → Prop}.
Context {POps : PagerOps P} {PLaws : PagerLaws P stores} {AOps : AllocOps P} {RLaws : RoomLaws P stores rooms} {LOps : LsnOps P} {FOps : FreeOps P}.
Context (fuel : nat) (me : Z).
Abbreviation shows := (en_shows (stores := stores) (rooms := rooms) fuel).
Implicit Types (e : Engine P) (v : view) (L : WriteLock) (T : option TransactionContext).
#[local] Instance remote_ops : ExecOps (Engine P) := Engine_ops fuel.

(** SQL that a QUERY carries, and that is no transaction control *)
Record plain_sql (sql : pystr) : Prop := {
  ps_fits : sql_fits sql;
  ps_text : strip sql ≠ [];
  ps_plain : Session.command sql ∉ [u "BEGIN"; u "COMMIT"; u "ROLLBACK"];
}.
Lemma request_statement sql f : plain_sql sql → to_frame (Query sql) = Ok f → statement_frame f sql.
Proof.
  intros [Hfit Hne Hp] Hf. destruct (message_decodes (Query sql) f Hfit Hf) as (m' & [= <-] & Hd).
  cbn [to_frame] in Hf. inv_ok. rewrite (decode_typed _ _ _ Hf) in Hd. split; [by eapply frame_type|done..].
Qed.

End Remote.

(** * Clients of a new database *)

#[local] Existing Instance tiny_json.
#[local] Existing Instance letters_json.
#[local] Existing Instance demo_iso.
#[local] Existing Instance ascii_unilib.
#[local] Existing Instance DatabaseDemo.demo_arith.
#[local] Existing Instance DatabaseDemo.demo_repr.
#[local] Existing Instance Server.demo_text.
(** Each of the clients executes its statement; the answer comes in byte by byte. *)
Fixpoint remote_run (l : list (nat * pystr)) (s : Server (P := Pager)) : list (result Result) :=
  match l with
  | [] => []
  | (i, sql) :: l =>
      let '(r, s) := receive 20 7 i (frame_of (Query sql)) s in
      let fs := match r with Ok (Some fs) => fs | _ => [] end in
      (client_execute 5 None sql None (open_conn (wire fs) [] [])).1 :: remote_run l s
  end.
Example pets_remote : remote_run (imap (λ k sql, (k mod 2, sql)%nat) pets_session) (served fresh_db both_clients) =
  [Ok (mkResult [] 0 [] 0); Ok (mkResult [] 3 [] 0); Ok (mkResult [] 1 [] 0); Ok (mkResult [[PyNone]; [PyStr (u "cat")]] 2 [u "name"] 0);
   Err ClientProtocolError; Err ClientProtocolError].
Proof. vm_compute. reflexivity. Qed.

(** ** A SELECT after three statements that wrote *)

Definition pets_db : Engine Pager := (run_session 20 7 (take 3 pets_session) fresh_db).2.
Definition pets_select : pystr := u "SELECT name FROM pets WHERE id < 9 ORDER BY id LIMIT 2;".
Definition statement_of (sql : pystr) : Statement := match parse sql with Ok stmt => stmt | Err _ => DropTable [] false end.
Definition pets_reply : list Frame :=
  match receive 20 7 0 (frame_of (Query pets_select)) (served pets_db both_clients) with (Ok (Some fs), _) => fs | _ => [] end.
Definition pets_srv : Server (P := Pager) := (receive 20 7 0 (frame_of (Query pets_select)) (served pets_db both_clients)).2.
Lemma pets_answered : receive 20 7 0 (frame_of (Query pets_select)) (served pets_db both_clients) = (Ok (Some pets_reply), pets_srv).
Proof.
  assert ((receive 20 7 0 (frame_of (Query pets_select)) (served pets_db both_clients)).1 = Ok (Some pets_reply)) as Hr by (vm_compute; reflexivity).
  rewrite <-Hr. unfold pets_srv. apply surjective_pairing.
Qed.
Lemma pets_db_shows : ∃ n v, en_shows (stores := pager_stores) (rooms := pager_rooms) 20 (db_lock fresh_db) None (stmt_cost v (statement_of pets_select) + n) pets_db v ∧
  covered v (xo_indexes (ExecOps := Engine_ops 20) pets_db) (statement_of pets_select).
Proof.
  destruct (session_run 20 7 (db_lock fresh_db) None (take 3 pets_session) (drop 3 pets_session) 16 fresh_db no_tables) as (rs & e' & v' & n' & Hrun & _ & Hs & Hi & Hc).
  - split; [done|]. by intros _ [].
  - exact fresh_db_shows.
  - exact pets_covered.
  - assert (parse pets_select = Ok (statement_of pets_select)) as Hp by (vm_compute; reflexivity).
    assert (pets_db = e') as -> by (unfold pets_db; by rewrite Hrun).
    change (drop 3 pets_session) with (pets_select :: drop 4 pets_session) in Hc. cbn [covered_all] in Hc. rewrite Hp in Hc.
    destruct Hc as (Hc & Hn & _). exists (n' - stmt_cost v' (statement_of pets_select))%nat, v'.
    rewrite (Nat.add_comm (stmt_cost _ _)), Nat.sub_add by done. split; [exact Hs|]. unfold spec_ops in Hi. by rewrite <-Hi in Hc.
Qed.

(** A SELECT behind a comment is a SELECT for the parser and none for [_classify]:
    the first value of its first row comes back as a number of rows, and when that
    is no number an exception ends the connection. *)
Definition commented (sql : pystr) : pystr := u "/* all */ " ++ sql.
Example commented_select_loses_rows :
  let query sql := (receive 20 7 0 (frame_of (Query sql)) (served pets_db both_clients)).1 in
  parse (commented pets_select) = parse pets_select ∧
  query (commented (u "SELECT id FROM pets ORDER BY id DESC;")) = answer (ResultDone 4 0 STATUS_FLAGS_DML) ∧
  query (commented (u "SELECT name FROM pets ORDER BY id DESC;")) = Err ValueError.
Proof. vm_compute. done. Qed.
