(* ===== verification/CliDemo.v ===== *)
(** The command line over a database of this process and over a scripted
    network. *)
From S2P Require Import Prelude.
From S2P Require Import Bytes.
From S2P Require Import Utf8.
From S2P Require Import Text.
From S2P Require Import Codec.
From S2P Require Import Pager.
From S2P Require Import BufferPool.
From S2P Require Import TxManager.
From S2P Require Import Wal.
From S2P Require Import Tokens.
From S2P Require Import Parser.
From S2P Require Import PyConv.
From S2P Require Import PyOrder.
From S2P Require Import PyDict.
From S2P Require Import BTreeSpec.
From S2P Require Import Heap.
From S2P Require Import Catalog.
From S2P Require Import CatalogSpec.
From S2P Require Import CatalogDemo.
From S2P Require Import EvalExpr.
From S2P Require Import Gen.
From S2P Require Import Plan.
From S2P Require Import Dml.
From S2P Require Import Planner.
From S2P Require Import IndexManager.
From S2P Require Import Engine.
From S2P Require Import Handler.
From S2P Require Import Client.
From S2P Require Import TypeSys.
From S2P Require Import Ast.
From S2P Require Import Database.
From S2P Require Import CliFormat.
From S2P Require Import CliExplain.
From S2P Require Import CliBackend.
From S2P Require Import CliRepl.
From Stdlib Require Import ZArith Lia.
Local Open Scope Z_scope.

(** * A database of the process *)

Section FileDb.
Context `{MetaJson} `{PyConv} `{JsonLib} `{IsoLib} `{UniLib} `{ArithLib} `{PyRepr}.
Context {P : Type} `{PagerOps P, AllocOps P, LsnOps P, FreeOps P}.
Context (fuel : nat) (path stem : pystr) (close : M (Engine P) unit).
#[local] Existing Instance Engine_ops.
#[local] Instance file_ops : ExecOps (Engine P) := Engine_ops fuel.
(** The command line runs in one thread, so no statement waits: one that would
    is taken as an error here. *)
Definition alone {A} (m : M (Engine P) (option A)) : M (Engine P) A :=
  r ← m; match r with Some a => mret a | None => raise RuntimeError end.
#[export] Instance file_db : DbApi (Engine P) := {|
  da_execute sql := alone (execute_sql fuel 1 sql);
  da_list_tables := db_list_tables;
  da_get_schema := get_schema;
  da_explain := explain fuel;
  da_plan_columns s := p ← _plan_select s; mret (result_columns p);
  da_get_table := en_get_table;
  da_path _ := path;
  da_stem _ := stem;
  da_close := close;
|}.
End FileDb.

#[local] Existing Instance tiny_json.
#[local] Existing Instance letters_json.
#[local] Existing Instance demo_iso.
#[local] Existing Instance ascii_unilib.
#[local] Instance demo_conv : PyConv := {| str_other v := match v with PyInt z => Ok (str_of_Z z) | PyStr s => Ok s | _ => Ok (u "?") end; int_other _ := Err ValueError; float_other _ := Err ValueError |}.
#[local] Instance demo_arith : ArithLib := {| arith_other _ _ _ := Err TypeError |}.
#[local] Instance demo_repr : PyRepr := {| py_repr v := match v with PyStr s => 39 :: s ++ [39] | _ => u "?" end |}.
#[local] Instance demo_text : ExnText := {| exn_str _ := u "failed"; exn_msg _ := u "bad syntax" |}.
#[local] Instance demo_texts : CliTexts := {| position_text _ := u "(line 1, col 1)"; seconds_text _ := u "0.00" |}.
#[local] Instance demo_url : UrlLib := {| urlparse s :=
  if bool_decide (s = u "tinydb://h:1/d") then Ok (mkUrl (u "tinydb") (Some (u "h")) (Ok (Some 1)) (u "/d"))
  else if bool_decide (s = u "tinydb://h:2") then Ok (mkUrl (u "tinydb") (Some (u "h")) (Ok (Some 2)) [])
  else Err ValueError |}.
(** A network with a server at port 1 that gives every statement one row, and one
    at port 2 that never answers the handshake *)
#[local] Instance demo_net : Remote (list pystr) unit := {|
  re_connect _ port _ := if port =? 1 then mret () else raise ClientTimeoutError;
  re_execute _ sql := l ← get; put (l ++ [sql]);; mret (mkResult [[PyInt 7]] 1 [u "id"] 0);
  re_close _ := mret ();
  re_client_version _ := u "0.3";
  re_ping _ := mret (u "1.00");
|}.
#[local] Instance demo_db : DbApi (Engine Pager) := file_db 20 (u "pets.db") (u "pets") (mret ()).

Definition demo_engine : Engine Pager := mkEngine (new_manager 1 fresh_pager (open_wal [])) empty_catalog [] [] [] [].
Definition session (b : target unit) : Repl (Engine Pager) (list pystr) unit := mkRepl demo_engine [] b None None (u "table") [] 0.
Definition typed (lines : list pystr) : list input := map Line lines.
Definition printed (lines : list pystr) (b : target unit) : result Z * list pystr :=
  let '(r, s) := _run_legacy (typed lines) (session b) in (r, drop 1 s.(rl_out)).

Example demo_cli_session : printed
  [u "CREATE TABLE t (id INT);"; u "INSERT INTO t VALUES (1), (2);"; u "SELECT id"; u "SELECT id \"; u "FROM t;"; u ".mode line"; u "SELECT * FROM t WHERE id > 1;";
   u ".schema none"; u ".tables"; u ".quit"; u "SELECT;"] (OfBackend FileBackend) =
  (Ok 0, [u "OK"; u "2 row(s)"; u "ParseError: bad syntax (line 1, col 1)";
     join_with newline [u "+----+"; u "| id |"; u "+----+"; u "|  1 |"; u "|  2 |"; u "+----+"; u "2 rows in set (0.00s)"];
     u "mode set to line"; join_with newline [u "id = 2"; u "1 rows in set (0.00s)"]; u "table 'none' does not exist";
     join_with newline [u "+----------------+"; u "| Tables_in_pets |"; u "+----------------+"; u "| t              |"; u "+----------------+"];
     u "bye."]).
Proof. vm_compute. reflexivity. Qed.

(** * What the command line does wrong *)

(** A JOIN ends a session on a file: the columns of the table of the statement
    are looked up, and a join has none. *)
Example join_ends_session : printed
  [u "CREATE TABLE a (id INT);"; u "CREATE TABLE b (id INT);"; u "SELECT a.id FROM a JOIN b ON a.id = b.id;"; u ".help"] (OfBackend FileBackend) =
  (Err AttributeError, [u "OK"; u "OK"]).
Proof. vm_compute. reflexivity. Qed.
(** So does a second CREATE TABLE of the same name: its ValueError is not taken. *)
Example second_create_ends_session : printed [u "CREATE TABLE a (id INT);"; u "CREATE TABLE a (id INT);"; u ".help"] (OfBackend FileBackend) = (Err ValueError, [u "OK"]).
Proof. vm_compute. reflexivity. Qed.
(** A SELECT on a server prints how many rows there are, and not one of them:
    the columns are paired with an empty list of types. *)
Example remote_rows_not_shown : printed [u "SELECT id FROM t;"] (OfBackend (RemoteBackend ())) = (Ok 0, [newline ++ u "1 rows in set (0.00s)"]).
Proof. vm_compute. reflexivity. Qed.
(** [.tables] on a server is taken as SQL. *)
Example remote_tables_is_sql : printed [u ".tables"] (OfBackend (RemoteBackend ())) = (Ok 0, [u "ParseError: bad syntax (line 1, col 1)"]).
Proof. vm_compute. reflexivity. Qed.
(** [.connect] to a server that does not answer ends the session. *)
Example connect_timeout_ends_session : printed [u ".connect tinydb://h:2"; u ".help"] (OfBackend FileBackend) = (Err ClientTimeoutError, []).
Proof. vm_compute. reflexivity. Qed.
(** A double quote in a string literal keeps the statement from being complete:
    all lines behind it are added to it. *)
Example quote_in_literal_never_ends : printed [u "SELECT '5"++ [dquote] ++ u " disk' FROM t;"; u ".quit"] (OfBackend FileBackend) = (Ok 0, []).
Proof. vm_compute. reflexivity. Qed.
(** In the loop without [prompt_toolkit], [.mode] and [.connect] say that they
    did what they do not do. *)
Example fallback_ignores_commands :
  let '(r, s) := _run_cmd_fallback (typed [u "CREATE TABLE t (id INT);"; u "INSERT INTO t VALUES (5);"; u ".mode line"; u ".connect tinydb://h:1/d"; u "SELECT id FROM t;"])
    (session (OfBackend FileBackend)) in
  r = Ok 0 ∧ s.(rl_net) = [] ∧
  s.(rl_out) = [u "OK"; u "1 row(s)"; u "mode set to line"; u "Connected to tinydb://h:1/d (server version 0.3)";
    join_with newline [u "+----+"; u "| id |"; u "+----+"; u "|  5 |"; u "+----+"; u "1 rows in set (0.00s)"]].
Proof. vm_compute. done. Qed.
(** One statement from the command line, on a file and on a server *)
Example demo_one_statement :
  ((main (_run_legacy []) (mkArgs None (Some (u "pets.db")) None (Some (u "CREATE TABLE t (id INT);"))) (session (OfBackend FileBackend))).1,
   (main (_run_legacy []) (mkArgs None None (Some (u "tinydb://h:1/d")) (Some (u "SELECT id FROM t;"))) (session (OfBackend FileBackend))).2.(rl_out),
   (main (_run_legacy []) (mkArgs None None (Some (u "tinydb://x")) None) (session (OfBackend FileBackend))).1) =
  (Ok 0, [u "id" ++ newline ++ u "7 "], Ok 1).
Proof. vm_compute. reflexivity. Qed.
